(* ===== verification/_CoqProject ===== *)
-Q . S2P
Prelude.v
Cpu.v
Dll.v
Buddy.v
BuddyRep.v
BuddyTiling.v
BuddyAlloc.v
BuddyProps.v
BuddyInit.v
BuddyThm.v
BuddyReserve.v
Dynamic.v
DynamicRep.v
DynamicThm.v
DynamicProps.v
PageRef.v
Boot.v
KList.v
KListThm.v
RingBuf.v
RingBufThm.v
TaskQueue.v
TaskQueueThm.v
Vmem.v
VmemRep.v
VmemThm.v
VmemProps.v
VmemForkThm.v
Process.v
ProcessInv.v
ProcessThm.v
ProcessProps.v
Syscall.v
Uspace.v
UspaceProps.v
UspaceFault.v
UspaceMap.v
Mailbox.v
Str.v
StrThm.v
Shell.v
ShellThm.v
Uart.v
UartThm.v
Irq.v
IrqProps.v
Printf.v
PrintfThm.v
Dtb.v
DtbThm.v
VfsData.v
Tmpfs.v
Vfs.v
File.v
VfsInv.v
VfsPath.v
VfsThm.v
VfsProps.v
VfsMount.v
TmpfsProps.v
FileProps.v
VfsWitness.v
Dev.v
DevThm.v
Ramdisk.v
RamdiskProps.v
Sd.v
Fat32.v
SdThm.v
Bare.v
BareThm.v
Fat32Mount.v
Fat32Load.v
Fat32Props.v
FatTable.v
Fat32Write.v
Fat32Dir.v
Fat32WProps.v
Fat32Witness.v
Fat32SyncProps.v
