(* ===== verification/Prelude.v ===== *)
(** * A verification of the core of a Raspberry Pi 3 teaching kernel

    The program (src/src/kernel, with its headers in src/include/kernel) is a
    single-core AArch64 kernel in C, with a bootloader (src/src/bootloader) and
    user programs (src/testprog).  This library translates it operation by
    operation and proves what each component promises.

    ** Method

    C functions become functions of the state monad [M S A] defined below,
    over a record [S] per component.  A run ends in [Ok], in [Ub] (a NULL
    dereference, an access outside an array, a shift by the width of the type
    or more) or in [Spin] (a loop that does not end within the bound the model
    gives it).  Integers are [Z] with the wrap-around written out ([u64],
    [u32], [i32], ...); arrays and heap objects are finite maps, pointers are
    addresses with 0 for NULL.  The theorems are equations "the run on this
    state ends in [Ok] of that state", proved with the weakest precondition
    [wp], so they include termination and the absence of undefined behaviour.
    Bounds: the only fuel is in loops whose exit the types do not show; it is
    the largest number of rounds the data allow ([Z.to_nat] of an array's
    length, the depth of a table, the number of processes).  Loops that wait
    for a device or for input take it as an argument, and their theorems say
    how much is enough: the polls the device needs, the characters to come.
    A theorem says [Spin] only of a loop the program never leaves.

    ** Parts

    - [Cpu]: disable_int/enable_int (interrupt.h) with the nesting counter,
      and the text that reaches the console.
    - [Buddy], and BuddyRep to BuddyThm: the start-up allocator and the buddy
      system of mem.c.  BuddyRep relates the intrusive free lists to sequences
      (with [Dll]), BuddyTiling reads the block array as a partition of memory
      into aligned blocks, BuddyAlloc is the abstract allocator that
      buddy_malloc and buddy_free refine, BuddyProps its properties, BuddyInit
      the start; BuddyThm states the theorems: allocation succeeds exactly when
      a large enough block is free, returns aligned disjoint blocks, release
      merges fully, a malloc/free pair restores the state.  BuddyReserve: what
      memory_reserve takes out, and that after reserve_mem_regions no block
      handed out touches the kernel, the heap, the ramdisk or the device tree.
    - [Dynamic], and DynamicRep to DynamicProps: malloc and free of mem.c on
      top of the buddy system.  Chunks of one pool, the bitmap and its limits;
      live chunks never overlap.  DynamicProps.malloc_33rd_chunk shows what
      `1 << i` does from 32 on: small chunks share slots of the bitmap.
    - [PageRef]: the reference counts of user pages at the end of mem.c.
    - [Boot]: main starts the allocators of mem.c in their order; their tables
      fit into the start-up heap, their invariants hold together, and nothing
      in use is handed out, provided no region in use lies within one page.
    - [KList], KListThm: list.c as doubly linked nodes in a store, refined to
      sequences.  The components below use the sequences.
    - [RingBuf], RingBufThm: ring_buf.c as a first-in first-out queue.
    - [TaskQueue], TaskQueueThm: timers and deferred interrupt work
      (interrupt.c): the queues stay sorted, tasks run in priority order,
      also those queued by interrupts while a task runs.
    - [Uart], UartThm: uart.c and uart.h.  The state [io] joins the task queue,
      the processes, the two character buffers, the timers and the registers.
      uart_read_string is the line editor [edit].  A process that waits is
      split at the wait: the rest is what it does when it runs again.
    - [Irq], IrqProps: the handlers and callbacks of interrupt.c, and their
      dispatch with nesting count and masks in exception.S ([irq_handler]).
      The theorems about the console start in process code with interrupts
      enabled ([thread_ok]), and take interrupts through [irq_handler].  What
      uart_write accepts is sent, in order, by the transmitter's interrupts;
      what is received reaches the reader; the scheduler's tick re-arms itself
      and switches to the next process; a nested receiver interrupt leaves a
      task with a dangling pointer.
    - [Vmem], and VmemRep to VmemProps: vmem.c on a physical memory of 64-bit
      words.  A tree of tables is the invariant; filling a range and
      translating are inverse to each other, for ranges of any length that
      enter no region with a table of its own ([fresh_range]; the code
      replaces such a table).  VmemForkThm describes
      page_table_fork: parent and child share all pages, read-only in both.
    - [Process], and ProcessInv to ProcessProps: process.c, signal.c, exit and
      kill of syscall.c, and the context switch of thread.S.  Every operation
      keeps the invariant that each process is in the queue its state names
      ([sched_reachable_wf], by induction on the steps of the system from
      boot: pid 0 is the shell, which may wait, pid 1 the idle thread); the
      scheduler is round-robin; zombies are all released.
    - [Syscall]: syscall_handler and syscall_entry on the saved registers,
      which lie in memory, over the class [Handlers] of the functions called
      (definitions only).  Also getpid and ps.
    - [Uspace], and UspaceProps to UspaceMap: sections, page faults
      (exception_entry), copy-on-write, mmap, exec and fork.  A write to a
      shared page gives the writer its own copy and nobody else sees it; pages
      appear on demand; any other access kills the process; mmap takes the
      first range that fits.
    - [Mailbox]: mbox_call and the requests of mailbox.c.  The graphics processor
      is the class [Gpu], its documented behaviour the class [GpuDoc].  A process
      that asks for a frame buffer of any size gets it mapped.
    - [Str], StrThm: string.c and utils.c; strtok_r cuts a string at every
      delimiter, terminator included.
    - [Shell], ShellThm: the command loop of main.c and the commands that use
      the allocators.
    - [Printf], PrintfThm: printf.c, over the function that puts a character
      out.  A format is a list of segments, each with its text: snprintf stores
      the text cut to the array, never outside it, and printf sends it through
      the interrupts of the UART; numbers are read back by string.c.
    - [Dtb], DtbThm: device_tree.c and the callbacks that look for the ramdisk
      and the memory region; the traversal visits the tokens of a well-formed
      tree in order.
    - [VfsData], [Tmpfs], [Vfs], [File]: vfs.h, tmpfs.c, vfs.c, file.c.  The
      state [fs] has maps for vnodes, mounts, operation tables, handles and
      file contents, and the descriptor table of the running process.
      Pointers to functions are the constructors of [fn]; the functions of the
      other drivers are the methods of the class [Drivers], and the heap is
      the class [FsHeap].  VfsInv has the invariant of the vnode graph and the
      reference definition [resolve] of path resolution; VfsPath and
      VfsThm run the path operations; VfsProps, VfsMount, TmpfsProps and
      FileProps have the theorems: find_parent_vnode computes [resolve];
      creating a node adds exactly one name; reading, writing and seeking
      agree with the sequence of bytes a file holds; a descriptor opened and
      closed leaves no trace; a file written through a descriptor is read back.
      VfsWitness applies them to the state after tmpfs_init.
    - [Dev], DevThm: dev.c and get_fb of mailbox.c: a device file has its own
      table of operations; fb_write stays inside the frame buffer.
    - [Ramdisk], RamdiskProps: ramdisk.c: an archive unpacks to a directory
      with its files, whose contents are read back.
    - [Sd], SdThm: sd.c over the class [SdHost], the registers of the host
      controller; [SdCard] is how the controller and a card behave: the states
      a card goes through until it takes transfers, failed transfers and
      delays.  sd_init takes any card there; however many transfers fail, readblock
      and writeblock implement the disk [Fat32] works with.
    - [Fat32] and [Fat32Mount]: fat32.c with the disk as a map from blocks to
      bytes.  Fat32Load relates a cached file to its chain of clusters, FatTable
      is the allocation table, Fat32Write the loop that writes, Fat32Dir the
      directory entries; Fat32SyncProps has where sync puts sectors.  Fat32Props, Fat32WProps and Fat32SyncProps have the theorems:
      reading gives the bytes on the card, writing is an update of the bytes
      and of the directory entry, what sync stores is read back (within the
      first cluster).  Fat32Witness applies them.
    - [Bare], BareThm: the bootloader, and the echo program, which polls the
      same UART.  [Board] are the accesses to registers, [MiniUart] what the
      UART does.  The bootloader starts exactly the image that is sent, and
      takes no other; the echo program shows the session of its line editor.

    Components meet through classes: [NodeAlloc], [PageAlloc] and [FsHeap] are
    what the lists, the page tables and the file system need of mem.c, whose
    own theorems are those of [Buddy] and [Dynamic].

    ** Not modelled

    The floating-point conversions of printf.c: printf.h turns them off.  The
    saving and loading of registers in the assembly entry code, boot-time page tables and exception vectors, and
    boot.c, set up registers.  The rest of the boot sequence of main.c calls
    the components' start-up functions, which are modelled with them; its test
    threads, fork_test.c and simple.S have no behaviour of their own.  memset
    and calloc appear where they are called, as the zeros they store.  Where
    the order of a component's messages with other output does not matter,
    [console] collects their texts. *)

From Stdlib Require Export ZArith Lia.
From stdpp Require Export base numbers strings gmap list.

#[global] Open Scope Z_scope.
#[export] Set Default Goal Selector "!".

(** ** Outcomes and the state monad

    Kernel code is translated into functions of type [M S A]: they read and
    write an explicit state [S], and a run has one of three outcomes.  [Ub] is
    undefined behaviour of the C program (a NULL dereference, an access
    outside an array, a shift by the width of the type or more); [Spin] is a
    loop that does not leave the bound the model gives it. *)

Inductive res (A : Type) : Type :=
  | Ok (a : A)
  | Ub
  | Spin.
Arguments Ok {A} _.
Arguments Ub {A}.
Arguments Spin {A}.

Definition M (S A : Type) : Type := S → res (A * S).

#[export] Instance M_ret S : MRet (M S) := λ A a s, Ok (a, s).
#[export] Instance M_bind S : MBind (M S) := λ A B k m s,
  match m s with
  | Ok (a, s') => k a s'
  | Ub => Ub
  | Spin => Spin
  end.

Section Ops.
Context {S : Type}.

Definition get_st : M S S := λ s, Ok (s, s).
Definition gets {A} (f : S → A) : M S A := λ s, Ok (f s, s).
Definition modify (f : S → S) : M S unit := λ s, Ok (tt, f s).
Definition ub {A} : M S A := λ _, Ub.
Definition spin {A} : M S A := λ _, Spin.

(** Dereference of a pointer or of an array cell: absent means undefined. *)
Definition deref {A} (o : option A) : M S A :=
  match o with Some a => mret a | None => ub end.

Definition assert (b : bool) : M S unit := if b then mret tt else ub.

(** [for_each] is a [for] loop over an explicit list of indices. *)
Fixpoint for_each {A} (l : list A) (body : A → M S unit) : M S unit :=
  match l with
  | [] => mret tt
  | x :: l' => body x ;; for_each l' body
  end.

(** Weakest precondition for total correctness: the run returns, and the
    result satisfies [Q]. *)
Definition wp {A} (m : M S A) (Q : A → S → Prop) (s : S) : Prop :=
  match m s with
  | Ok (a, s') => Q a s'
  | Ub => False
  | Spin => False
  end.

End Ops.

(** Running a component's code on the state of a larger one. *)
Definition zoom {S C A : Type} (get : S → C) (put : C → S → S) (m : M C A) : M S A :=
  λ s, match m (get s) with
       | Ok (a, c) => Ok (a, put c s)
       | Ub => Ub
       | Spin => Spin
       end.

(** ** Machine integers *)

Definition u8 (z : Z) : Z := z mod 2 ^ 8.
Definition u16 (z : Z) : Z := z mod 2 ^ 16.
Definition u32 (z : Z) : Z := z mod 2 ^ 32.
Definition u64 (z : Z) : Z := z mod 2 ^ 64.
Definition i32 (z : Z) : Z := (z + 2 ^ 31) mod 2 ^ 32 - 2 ^ 31.
Definition i64 (z : Z) : Z := (z + 2 ^ 63) mod 2 ^ 64 - 2 ^ 63.

(** [1 << k] on a 32-bit [int]. *)
Definition shl1 (k : Z) : Z := i32 (Z.shiftl 1 k).

(** The consecutive integers [lo, lo + 1, ..., lo + n - 1]. *)
Fixpoint zseq (lo : Z) (n : nat) : list Z :=
  match n with
  | O => []
  | S n' => lo :: zseq (lo + 1) n'
  end.

(** ** Lemmas *)

Section WpLemmas.
Context {S : Type}.
Implicit Types s : S.

Lemma wp_ret {A} (a : A) Q s : Q a s → wp (mret a) Q s.
Proof. done. Qed.

Lemma wp_bind {A B} (m : M S A) (k : A → M S B) Q s :
  wp m (λ a s', wp (k a) Q s') s → wp (m ≫= k) Q s.
Proof. unfold wp, mbind, M_bind. by destruct (m s) as [[a s']| |]. Qed.

Lemma wp_gets {A} (f : S → A) Q s : Q (f s) s → wp (gets f) Q s.
Proof. done. Qed.

Lemma wp_get_st Q s : Q s s → wp get_st Q s.
Proof. done. Qed.

Lemma wp_modify f (Q : unit → S → Prop) s : Q tt (f s) → wp (modify f) Q s.
Proof. done. Qed.

Lemma wp_deref {A} (o : option A) a Q s : o = Some a → Q a s → wp (deref o) Q s.
Proof. by intros ->. Qed.

Lemma wp_assert b (Q : unit → S → Prop) s : b = true → Q tt s → wp (assert b) Q s.
Proof. by intros ->. Qed.

Lemma wp_mono {A} (m : M S A) (P Q : A → S → Prop) s :
  wp m P s → (∀ a s', P a s' → Q a s') → wp m Q s.
Proof. unfold wp. destruct (m s) as [[a s']| |]; eauto. Qed.

Lemma wp_eq {A} (m : M S A) a s s' (Q : A → S → Prop) :
  m s = Ok (a, s') → Q a s' → wp m Q s.
Proof. unfold wp. by intros ->. Qed.

Lemma wp_run {A} (m : M S A) Q s :
  wp m Q s ↔ ∃ a s', m s = Ok (a, s') ∧ Q a s'.
Proof.
  unfold wp. destruct (m s) as [[a s']| |]; split; try done.
  - eauto.
  - by intros (? & ? & [= <- <-] & ?).
  - by intros (? & ? & ? & ?).
  - by intros (? & ? & ? & ?).
Qed.

(** A run as an equation. *)
Lemma wp_exact {A} (m : M S A) a s' s : wp m (λ b t, b = a ∧ t = s') s → m s = Ok (a, s').
Proof. by intros (b & t & -> & -> & ->)%wp_run. Qed.

Lemma wp_unit (m : M S unit) (P : S → Prop) s :
  wp m (λ _, P) s → ∃ s', m s = Ok (tt, s') ∧ P s'.
Proof. intros ([] & s' & ? & ?)%wp_run. eauto. Qed.

Lemma bind_Ok {A B} (m : M S A) (k : A → M S B) s a s' :
  m s = Ok (a, s') → (m ≫= k) s = k a s'.
Proof. unfold mbind, M_bind. by intros ->. Qed.

Lemma wp_for_each {A} (I : list A → S → Prop) (l : list A) body s :
  I l s →
  (∀ x l' s', I (x :: l') s' → wp (body x) (λ _, I l') s') →
  wp (for_each l body) (λ _, I []) s.
Proof.
  intros HI Hb. revert s HI. induction l as [|x l IH]; intros s HI; simpl; [done|].
  apply wp_bind. eapply wp_mono; [by apply Hb|]. naive_solver.
Qed.

End WpLemmas.

Lemma wp_zoom {S C A} (get : S → C) put (m : M C A) (Q : A → S → Prop) s :
  wp m (λ a c, Q a (put c s)) (get s) → wp (zoom get put m) Q s.
Proof. unfold wp, zoom. by destruct (m (get s)) as [[a c]| |]. Qed.

Create HintDb kernel.
Create Rewrite HintDb kernel.
#[export] Hint Resolve wp_ret wp_gets wp_modify : kernel.

(** Symbolic execution of one primitive step of a program under [wp]. *)
Ltac wp_step :=
  lazymatch goal with
  | |- wp (mret _) _ _ => apply wp_ret
  | |- wp (_ ≫= _) _ _ => apply wp_bind
  | |- wp (gets _) _ _ => apply wp_gets
  | |- wp get_st _ _ => apply wp_get_st
  | |- wp (modify _) _ _ => apply wp_modify
  | |- wp (zoom _ _ _) _ _ => apply wp_zoom
  end; cbn beta iota.
Ltac wp_steps := repeat wp_step.

(** ** Powers of two *)

Lemma pow2_pos k : 0 ≤ k → 0 < 2 ^ k.
Proof. intros. apply Z.pow_pos_nonneg; lia. Qed.
#[export] Hint Resolve pow2_pos : kernel.

Lemma pow2_succ k : 0 ≤ k → 2 ^ (k + 1) = 2 * 2 ^ k.
Proof. intros. rewrite Z.pow_add_r by lia. lia. Qed.

Lemma pow2_le j k : 0 ≤ j ≤ k → 2 ^ j ≤ 2 ^ k.
Proof. intros. apply Z.pow_le_mono_r; lia. Qed.

Lemma pow2_lt j k : 0 ≤ j < k → 2 ^ j < 2 ^ k.
Proof. intros. apply Z.pow_lt_mono_r; lia. Qed.

Lemma pow2_lt_inv j k : 0 ≤ j → 0 ≤ k → 2 ^ j < 2 ^ k → j < k.
Proof. intros. destruct (Z.lt_ge_cases j k); [done|]. pose proof (pow2_le k j). lia. Qed.

Lemma pow2_divide j k : 0 ≤ j ≤ k → (2 ^ j | 2 ^ k).
Proof. intros. exists (2 ^ (k - j)). rewrite <- Z.pow_add_r by lia. f_equal. lia. Qed.

Lemma i32_small z : - 2 ^ 31 ≤ z < 2 ^ 31 → i32 z = z.
Proof. intros. unfold i32. rewrite Z.mod_small; lia. Qed.

Lemma shl1_pow k : 0 ≤ k < 31 → shl1 k = 2 ^ k.
Proof.
  intros. unfold shl1. rewrite Z.shiftl_1_l. apply i32_small.
  pose proof (pow2_pos k). pose proof (pow2_lt k 31). lia.
Qed.

Lemma mod0_divide a n : 0 < n → a mod n = 0 ↔ (n | a).
Proof. intros. apply Z.mod_divide. lia. Qed.

(** Two aligned blocks whose first one starts at a multiple of the second
    one's size: the interior of a block holds no multiple of its size. *)
Lemma aligned_interior i j n : 0 < n → (n | i) → (n | j) → i < j < i + n → False.
Proof.
  intros Hn [a ->] [b ->] [H1 H2].
  apply Z.mul_lt_mono_pos_r in H1; [|done].
  replace (a * n + n) with ((a + 1) * n) in H2 by lia.
  apply Z.mul_lt_mono_pos_r in H2; [|done]. lia.
Qed.

Lemma land_lowbit p : 0 < p → ∃ j, 0 ≤ j ∧ Z.land p (- p) = 2 ^ j ∧ (2 ^ (j + 1) | p - 2 ^ j).
Proof.
  destruct p as [|p|p]; try lia. intros _.
  induction p as [p IH|p IH|].
  - exists 0. split; [lia|]. split; [|exists (Z.pos p); change (2 ^ (0 + 1)) with 2; change (2 ^ 0) with 1; lia].
    apply Z.bits_inj'. intros n Hn. rewrite Z.land_spec.
    replace (Z.pos p~1) with (2 * Z.pos p + 1) by lia.
    destruct (decide (n = 0)) as [->|].
    + replace (- (2 * Z.pos p + 1)) with (2 * (- Z.pos p - 1) + 1) by lia.
      by rewrite !Z.testbit_odd_0.
    + replace n with (Z.succ (n - 1)) by lia.
      replace (- (2 * Z.pos p + 1)) with (2 * (- Z.pos p - 1) + 1) by lia.
      rewrite !Z.testbit_odd_succ by lia.
      replace (- Z.pos p - 1) with (Z.lnot (Z.pos p)) by (unfold Z.lnot; lia).
      rewrite Z.lnot_spec by lia.
      rewrite andb_negb_r. symmetry. apply Z.pow2_bits_false. lia.
  - destruct IH as (j & Hj & Heq & Hd). exists (j + 1).
    split; [lia|]. rewrite pow2_succ by lia.
    replace (Z.pos p~0) with (2 * Z.pos p) by lia. split.
    + rewrite <- Heq. apply Z.bits_inj'. intros n Hn. rewrite Z.land_spec.
      replace (- (2 * Z.pos p)) with (2 * - Z.pos p) by lia.
      destruct (decide (n = 0)) as [->|].
      * by rewrite !Z.testbit_even_0.
      * replace n with (Z.succ (n - 1)) by lia.
        by rewrite !Z.testbit_even_succ, Z.land_spec by lia.
    + rewrite (pow2_succ (j + 1)), <- Z.mul_sub_distr_l by lia. by apply Z.mul_divide_mono_l.
  - exists 0. split; [lia|]. split; [done|apply Z.divide_0_r].
Qed.

(** ** Bits of machine words *)

Lemma u64_small z : 0 ≤ z < 2 ^ 64 → u64 z = z.
Proof. apply Z.mod_small. Qed.

Lemma u64_testbit x b : 0 ≤ b → Z.testbit (u64 x) b = (b <? 64) && Z.testbit x b.
Proof.
  intros Hb. unfold u64. destruct (Z.ltb_spec b 64); simpl.
  - apply Z.mod_pow2_bits_low. lia.
  - apply Z.mod_pow2_bits_high. lia.
Qed.

Lemma bits_high v b : 0 ≤ v < 2 ^ 64 → 64 ≤ b → Z.testbit v b = false.
Proof.
  intros Hv Hb. replace v with (u64 v) by (unfold u64; rewrite Z.mod_small; lia).
  rewrite u64_testbit by lia. by destruct (Z.ltb_spec b 64); [lia|].
Qed.

Lemma u64_range x : 0 ≤ u64 x < 2 ^ 64.
Proof. unfold u64. apply Z.mod_pos_bound. lia. Qed.

Lemma range_of_bits v : 0 ≤ v → (∀ b, 64 ≤ b → Z.testbit v b = false) → 0 ≤ v < 2 ^ 64.
Proof.
  intros H0 Hb. split; [done|]. destruct (decide (v = 0)) as [->|]; [lia|].
  apply Z.log2_lt_pow2; [lia|]. destruct (Z.lt_ge_cases (Z.log2 v) 64); [done|].
  pose proof (Z.bit_log2 v ltac:(lia)) as E. by rewrite Hb in E.
Qed.

Lemma lor_range a b : 0 ≤ a < 2 ^ 64 → 0 ≤ b < 2 ^ 64 → 0 ≤ Z.lor a b < 2 ^ 64.
Proof.
  intros Ha Hb. apply range_of_bits; [apply Z.lor_nonneg; lia|].
  intros k Hk. by rewrite Z.lor_spec, !bits_high by done.
Qed.

Lemma land_range a b : 0 ≤ a < 2 ^ 64 → 0 ≤ b → 0 ≤ Z.land a b < 2 ^ 64.
Proof.
  intros Ha Hb. apply range_of_bits; [apply Z.land_nonneg; lia|].
  intros k Hk. by rewrite Z.land_spec, (bits_high a) by done.
Qed.

(** ** Finite maps *)

Lemma alter_as_insert {A} (f : A → A) (m : gmap Z A) p x : m !! p = Some x → alter f p m = <[p := f x]> m.
Proof.
  intros H. apply map_eq. intros j. rewrite lookup_insert. case_decide as E.
  - subst. by rewrite lookup_alter_eq, H.
  - by rewrite lookup_alter_ne.
Qed.

(** ** Integer sequences *)

(** Removing the first occurrence. *)
Fixpoint remove_first (p : Z) (l : list Z) : option (list Z) :=
  match l with
  | [] => None
  | q :: l' => if decide (p = q) then Some l' else cons q <$> remove_first p l'
  end.

Lemma remove_first_Some p l k : remove_first p l = Some k → ∃ l1 l2, l = l1 ++ p :: l2 ∧ k = l1 ++ l2 ∧ p ∉ l1.
Proof.
  revert k. induction l as [|q l IH]; intros k; simpl; [done|]. case_decide as Hpq.
  - intros [= ->]. exists [], k. subst q. split_and!; [done|done|apply not_elem_of_nil].
  - destruct (remove_first p l) as [k'|] eqn:E; simpl; [|done]. intros [= <-].
    destruct (IH k' eq_refl) as (l1 & l2 & -> & -> & Hn). exists (q :: l1), l2.
    split_and!; [done|done|]. apply not_elem_of_cons. done.
Qed.

Lemma remove_first_None p l : remove_first p l = None ↔ p ∉ l.
Proof.
  induction l as [|q l IH]; simpl; [split; [intros _; apply not_elem_of_nil|done]|].
  rewrite not_elem_of_cons. case_decide as Hpq; [naive_solver|]. rewrite fmap_None, IH. naive_solver.
Qed.

Lemma length_zseq lo n : length (zseq lo n) = n.
Proof. revert lo. induction n; intros; simpl; [done|]. by rewrite IHn. Qed.

Lemma elem_of_zseq x lo n : x ∈ zseq lo n ↔ lo ≤ x < lo + Z.of_nat n.
Proof.
  revert lo. induction n as [|n IH]; intros lo; simpl.
  - rewrite elem_of_nil. lia.
  - rewrite elem_of_cons, IH. lia.
Qed.

Lemma NoDup_zseq lo n : NoDup (zseq lo n).
Proof.
  revert lo. induction n as [|n IH]; intros lo; simpl; constructor; [|done].
  rewrite elem_of_zseq. lia.
Qed.

Lemma lookup_zseq lo n i : (i < n)%nat → zseq lo n !! i = Some (lo + Z.of_nat i).
Proof.
  revert lo i. induction n as [|n IH]; intros lo [|i] ?; simpl; try lia.
  - f_equal. lia.
  - rewrite IH by lia. f_equal. lia.
Qed.
