(* ===== verification/Cpu.v ===== *)
(** * Interrupt masking and the console

    The state every critical section of the kernel touches: the nesting
    counter [irq_nested_count] and the DAIF mask of
    include/kernel/interrupt.h, and the text the kernel prints.  A printed
    message is one element of [console]; the UART that transmits it is
    modelled with the ring buffers. *)

From S2P Require Import Prelude.

Record cpu := mk_cpu {
  irq_nested_count : Z;
  daif_masked : bool;
  console : list string;
}.

(** [disable_int] of interrupt.h. *)
Definition disable_int : M cpu unit :=
  modify (λ c, mk_cpu (irq_nested_count c + 1) true (console c)).

(** [enable_int] of interrupt.h: the last nested exit unmasks DAIF. *)
Definition enable_int : M cpu unit :=
  modify (λ c,
    let n := irq_nested_count c - 1 in
    mk_cpu n (if n =? 0 then false else daif_masked c) (console c)).

Definition tab : string := String (Ascii.ascii_of_nat 9) "".
Definition crlf : string :=
  String (Ascii.ascii_of_nat 13) (String (Ascii.ascii_of_nat 10) "").

Definition printf (msg : string) : M cpu unit :=
  modify (λ c, mk_cpu (irq_nested_count c) (daif_masked c) (console c ++ [msg])).

(** The [err] macro of printf.h: two calls of [printf]. *)
Definition err (msg : string) : M cpu unit :=
  printf ("Error:" +:+ tab) ;; printf msg.

(** Interrupts are masked exactly inside a critical section. *)
Definition cpu_ok (c : cpu) : Prop :=
  0 ≤ irq_nested_count c ∧ daif_masked c = bool_decide (0 < irq_nested_count c).

(** The state inside one more level of critical section. *)
Definition enter (c : cpu) : cpu :=
  mk_cpu (irq_nested_count c + 1) true (console c).
Definition leave (c : cpu) : cpu :=
  let n := irq_nested_count c - 1 in
  mk_cpu n (if n =? 0 then false else daif_masked c) (console c).
Definition say (msg : string) (c : cpu) : cpu :=
  mk_cpu (irq_nested_count c) (daif_masked c) (console c ++ [msg]).
Definition say_err (msg : string) (c : cpu) : cpu :=
  say msg (say ("Error:" +:+ tab) c).

Lemma enter_ok c : cpu_ok c → cpu_ok (enter c).
Proof.
  intros [? ?]. split; simpl; [lia|]. symmetry. apply bool_decide_eq_true. lia.
Qed.

Lemma leave_enter c : cpu_ok c → leave (enter c) = c.
Proof.
  destruct c as [n m l]. intros [Hn Hm]; simpl in *. unfold leave; simpl.
  replace (n + 1 - 1) with n by lia. subst m. f_equal.
  destruct (Z.eqb_spec n 0) as [->|]; [done|].
  symmetry. apply bool_decide_eq_true. lia.
Qed.

Lemma leave_say_enter msg c : cpu_ok c → leave (say msg (enter c)) = say msg c.
Proof. intros Hc. change (leave (say msg (enter c))) with (say msg (leave (enter c))). by rewrite leave_enter. Qed.

Lemma say_ok msg c : cpu_ok c → cpu_ok (say msg c).
Proof. done. Qed.
Lemma say_err_ok msg c : cpu_ok c → cpu_ok (say_err msg c).
Proof. done. Qed.

Lemma disable_int_eq c : disable_int c = Ok (tt, enter c).
Proof. done. Qed.
Lemma enable_int_eq c : enable_int c = Ok (tt, leave c).
Proof. done. Qed.
Lemma printf_eq msg c : printf msg c = Ok (tt, say msg c).
Proof. done. Qed.
Lemma err_eq msg c : err msg c = Ok (tt, say_err msg c).
Proof. done. Qed.

#[export] Hint Resolve enter_ok say_ok say_err_ok : kernel.
#[export] Hint Rewrite leave_enter using (auto with kernel) : kernel.
