(* ===== verification/Dll.v ===== *)
(** * Doubly linked segments in a node store

    Both the buddy system's free lists (struct buddy_node, mem.c) and the
    kernel's generic list (struct node, list.c) are doubly linked lists whose
    nodes live in an addressable store.  This file gives their common theory:
    [dseg m pp h q t l] says that in the store [m] the nodes [l] form a
    segment entered through [h], whose first node points back to [pp], whose
    last node is [q] (or [pp] when empty) and whose last [next] is [t]. *)

From S2P Require Import Prelude.

(** What a node type offers: its two links, and how to overwrite them. *)
Class DNode (N : Type) := {
  dprev : N → option Z;
  dnext : N → option Z;
  set_dprev : option Z → N → N;
  set_dnext : option Z → N → N;
  dprev_set_dprev p n : dprev (set_dprev p n) = p;
  dnext_set_dprev p n : dnext (set_dprev p n) = dnext n;
  dprev_set_dnext p n : dprev (set_dnext p n) = dprev n;
  dnext_set_dnext p n : dnext (set_dnext p n) = p;
}.

Arguments set_dprev : simpl never.
Arguments set_dnext : simpl never.

Section Dll.
Context {N : Type} `{!DNode N}.
Implicit Types (m : gmap Z N) (l : list Z) (p h q t : option Z).

Fixpoint dseg m (pp h q t : option Z) l : Prop :=
  match l with
  | [] => h = t ∧ pp = q
  | x :: l' => h = Some x ∧
      ∃ n, m !! x = Some n ∧ dprev n = pp ∧ dseg m (Some x) (dnext n) q t l'
  end.

(** A whole list: head pointer [h], tail pointer [q]. *)
Definition dlist m h q l : Prop := dseg m None h q None l.

(** The store after [if (p) p->next = v], and its mirror image. *)
Definition link_next p v m : gmap Z N :=
  match p with Some a => alter (set_dnext v) a m | None => m end.
Definition link_prev p v m : gmap Z N :=
  match p with Some a => alter (set_dprev v) a m | None => m end.

Lemma dseg_frame m m' pp h q t l :
  (∀ x, x ∈ l → m' !! x = m !! x) → dseg m pp h q t l → dseg m' pp h q t l.
Proof.
  revert pp h. induction l as [|x l IH]; intros pp h Hf; simpl; [done|].
  intros (-> & n & Hn & Hp & Hs). split; [done|]. exists n.
  rewrite Hf by set_solver. split_and!; [done..|]. apply IH; [set_solver|done].
Qed.

Lemma dseg_app m pp h q t l1 l2 :
  dseg m pp h q t (l1 ++ l2) ↔
  ∃ q1 h1, dseg m pp h q1 h1 l1 ∧ dseg m q1 h1 q t l2.
Proof.
  revert pp h. induction l1 as [|x l1 IH]; intros pp h; simpl.
  - split; [intros; by exists pp, h|]. by intros (? & ? & [-> ->] & ?).
  - split.
    + intros (-> & n & Hn & Hp & (q1 & h1 & ? & ?)%IH).
      exists q1, h1. split; [|done]. split; [done|]. by exists n.
    + intros (q1 & h1 & (-> & n & Hn & Hp & Hs) & ?). split; [done|].
      exists n. split_and!; [done..|]. apply IH. eauto.
Qed.

Lemma dseg_lookup m pp h q t l x : dseg m pp h q t l → x ∈ l → is_Some (m !! x).
Proof.
  revert pp h. induction l as [|y l IH]; intros pp h; simpl.
  - set_solver.
  - intros (-> & n & Hn & Hp & Hs) [->|?]%elem_of_cons; eauto.
Qed.

Lemma dseg_head m pp h q t l : dseg m pp h q t l →
  h = match l with [] => t | x :: _ => Some x end.
Proof. destruct l; simpl; naive_solver. Qed.

Lemma dseg_last m pp h q t l : dseg m pp h q t l →
  q = match last l with Some x => Some x | None => pp end.
Proof.
  revert pp h. induction l as [|x l IH]; intros pp h; simpl; [naive_solver|].
  intros (-> & n & Hn & Hp & Hs). rewrite (IH _ _ Hs). destruct l; [done|].
  destruct (last (z :: l)) eqn:E; [by simpl in *; rewrite E|].
  by apply last_None in E.
Qed.

(** A node's links agree with its neighbours in the segment. *)
Lemma dseg_links m pp h q t l1 x l2 :
  dseg m pp h q t (l1 ++ x :: l2) →
  ∃ n, m !! x = Some n ∧
    dprev n = match last l1 with Some a => Some a | None => pp end ∧
    dnext n = match l2 with [] => t | b :: _ => Some b end.
Proof.
  intros (q1 & h1 & H1 & H2)%dseg_app. simpl in H2.
  destruct H2 as (-> & n & Hn & Hp & Hs). exists n. split; [done|].
  rewrite <- (dseg_last _ _ _ _ _ _ H1). split; [done|]. by apply dseg_head in Hs.
Qed.

(** Redirecting the [next] link of the last node. *)
Lemma dseg_set_last m pp h q t t' l :
  NoDup l → dseg m pp h q t l → l ≠ [] →
  dseg (link_next (last l) t' m) pp h q t' l.
Proof.
  intros Hnd Hs Hne. destruct (last l) as [a|] eqn:E; [|by apply last_None in E].
  apply last_Some in E as [l' ->]. apply NoDup_app in Hnd as (Hnd & Hni & _).
  apply dseg_app in Hs as (q1 & h1 & H1 & H2). apply dseg_app. exists q1, h1. simpl in *.
  destruct H2 as (-> & n & Hn & Hp & Hs & <-). split.
  - eapply dseg_frame; [|eassumption]. intros y Hy. apply lookup_alter_ne.
    intros ->. apply (Hni y); set_solver.
  - split; [done|]. exists (set_dnext t' n).
    rewrite lookup_alter_eq, Hn, dprev_set_dnext, dnext_set_dnext. done.
Qed.

(** Redirecting the [prev] link of the first node. *)
Lemma dseg_set_first m pp pp' h q t l :
  NoDup l → dseg m pp h q t l → l ≠ [] →
  dseg (link_prev (head l) pp' m) pp' h q t l.
Proof.
  intros Hnd Hs Hne. destruct l as [|b l]; [done|]. simpl in *.
  apply NoDup_cons in Hnd as [Hb Hnd]. destruct Hs as (-> & n & Hn & Hp & Hs).
  split; [done|]. exists (set_dprev pp' n).
  rewrite lookup_alter_eq, Hn, dprev_set_dprev, dnext_set_dprev.
  split_and!; [done..|]. eapply dseg_frame; [|eassumption].
  intros y Hy. apply lookup_alter_ne. set_solver.
Qed.

Lemma link_next_ne p v m x : p ≠ Some x → link_next p v m !! x = m !! x.
Proof. destruct p as [a|]; simpl; [|done]. intros ?. apply lookup_alter_ne. congruence. Qed.

Lemma link_prev_ne p v m x : p ≠ Some x → link_prev p v m !! x = m !! x.
Proof. destruct p as [a|]; simpl; [|done]. intros ?. apply lookup_alter_ne. congruence. Qed.

Lemma link_next_is_Some p v m x : is_Some (link_next p v m !! x) ↔ is_Some (m !! x).
Proof. destruct p as [a|]; simpl; [|done]. apply lookup_alter_is_Some. Qed.

Lemma link_prev_is_Some p v m x : is_Some (link_prev p v m !! x) ↔ is_Some (m !! x).
Proof. destruct p as [a|]; simpl; [|done]. apply lookup_alter_is_Some. Qed.

Lemma link_next_None v m : link_next None v m = m.
Proof. done. Qed.
Lemma link_prev_None v m : link_prev None v m = m.
Proof. done. Qed.

Lemma last_elem_of l a : last l = Some a → a ∈ l.
Proof. intros [l' ->]%last_Some. set_solver. Qed.
Lemma head_elem_of l a : head l = Some a → a ∈ l.
Proof. destruct l; simpl; [done|]. intros [= ->]. set_solver. Qed.

(** Unlinking the node [x] joins the two halves of the segment. *)
Lemma dseg_delete m pp h q t l1 x l2 n :
  NoDup (l1 ++ x :: l2) →
  dseg m pp h q t (l1 ++ x :: l2) →
  m !! x = Some n →
  dseg (link_prev (head l2) (dprev n) (link_next (last l1) (dnext n) m))
    pp (if l1 is [] then dnext n else h)
    (if l2 is [] then dprev n else q) t (l1 ++ l2).
Proof.
  intros Hnd (q1 & h1 & H1 & H2)%dseg_app Hn. simpl in H2.
  destruct H2 as (-> & n' & Hn' & Hp & H2).
  assert (n' = n) as -> by congruence. subst q1.
  apply NoDup_app in Hnd as (Hnd1 & Hdisj & [Hx Hnd2]%NoDup_cons).
  apply dseg_app. exists (dprev n), (dnext n). split.
  - eapply dseg_frame.
    { intros y Hy. apply link_prev_ne. intros Hh%head_elem_of.
      apply (Hdisj y Hy). set_solver. }
    destruct l1 as [|a l1]; [simpl in *; naive_solver|].
    by apply dseg_set_last with (t := Some x).
  - destruct l2 as [|b l2].
    + simpl in *. naive_solver.
    + apply dseg_set_first with (pp := Some x); [done| |done].
      eapply dseg_frame; [|eassumption]. intros y Hy. apply link_next_ne.
      intros Hl%last_elem_of. by apply (Hdisj y Hl), elem_of_cons; right.
Qed.

(** Linking a fresh node in front. *)
Lemma dlist_push_front m h q l x n :
  NoDup l → x ∉ l → dlist m h q l → m !! x = Some n → dprev n = None →
  dlist (alter (set_dnext h) x (link_prev h (Some x) m))
    (Some x) (if l is [] then Some x else q) (x :: l).
Proof.
  unfold dlist. intros Hnd Hx Hs Hn Hp. simpl. split; [done|].
  pose proof (dseg_head _ _ _ _ _ _ Hs) as Hh.
  exists (set_dnext h n). rewrite lookup_alter_eq, link_prev_ne, Hn; [|destruct l; set_solver].
  rewrite dprev_set_dnext, dnext_set_dnext. split_and!; [done..|].
  eapply (dseg_frame (link_prev h (Some x) m)).
  { intros y Hy. apply lookup_alter_ne. set_solver. }
  destruct l as [|b l]; subst h; [done|].
  by apply (dseg_set_first m None (Some x) (Some b) q None (b :: l)).
Qed.

(** Linking a fresh node behind the tail. *)
Lemma dlist_push_back m h q l x n :
  NoDup l → x ∉ l → dlist m h q l → m !! x = Some n → dnext n = None →
  dlist (link_prev (Some x) q (link_next q (Some x) m))
    (if l is [] then Some x else h) (Some x) (l ++ [x]).
Proof.
  unfold dlist. intros Hnd Hx Hs Hn Hp. apply dseg_app. exists q, (Some x).
  pose proof (dseg_last _ _ _ _ _ _ Hs) as Hq. split.
  - eapply dseg_frame.
    { intros y Hy. apply link_prev_ne. set_solver. }
    destruct l as [|b l]; [simpl in *; naive_solver|].
    destruct (last (b :: l)) eqn:E; [|by apply last_None in E].
    rewrite Hq, <- E at 1. rewrite Hq. by eapply dseg_set_last; subst.
  - simpl. split; [done|]. exists (set_dprev q n).
    rewrite lookup_alter_eq, link_next_ne, Hn, dprev_set_dprev, dnext_set_dprev; [done|].
    subst q. destruct (last l) eqn:E; [|done].
    apply last_elem_of in E. set_solver.
Qed.

End Dll.
