(* ===== verification/Buddy.v ===== *)
(** * The start-up allocator and the buddy system (src/kernel/mem.c)

    The state and the operations of the page-frame allocator, translated
    function by function.  Arrays are finite maps indexed from 0, so that an
    access outside an array is undefined; a pointer to an element of
    [buddy_node_arr] is the element's index.  Theorems are in the files
    BuddyRep, BuddyTiling, BuddyAlloc and BuddyThm. *)

From S2P Require Import Prelude Cpu Dll.

(** ** Constants (mem.h, utils.h, linker.ld) *)

Definition INT_MAX : Z := 2147483647.
Definition PAGE_SIZE : Z := Z.shiftl 1 12.
Definition HEAP_SIZE : Z := 0x8000000.
Definition EMPTY : Z := INT_MAX.
Definition NEG_ZERO : Z := - INT_MAX.
Definition v_kernel_space : Z := 0xffff000000000000.
Definition heap_start : Z := v_kernel_space + 0x10000000.

Definition sizeof_buddy_node : Z := 24.
Definition sizeof_int : Z := 4.
Definition sizeof_ptr : Z := 8.

Definition p2v_trans_kernel (physical_addr : Z) : Z := u64 (physical_addr + v_kernel_space).
Definition v2p_trans_kernel (virtual_addr : Z) : Z := u64 (virtual_addr - v_kernel_space).

(** ** State *)

Record buddy_node := mk_bnode {
  bn_idx : Z;
  bn_prev : option Z;
  bn_next : option Z;
}.

#[export] Instance buddy_node_DNode : DNode buddy_node.
Proof.
  refine {| dprev := bn_prev; dnext := bn_next;
            set_dprev p n := mk_bnode (bn_idx n) p (bn_next n);
            set_dnext p n := mk_bnode (bn_idx n) (bn_prev n) p |}; done.
Defined.

(** The three arrays of the buddy system: [buddy_data.arr],
    [buddy_data.free_blocks_list] and [buddy_node_arr]. *)
Record bstruct := mk_bstruct {
  arr : gmap Z Z;
  free_blocks_list : gmap Z (option Z);
  buddy_node_arr : gmap Z buddy_node;
}.

Record mem := mk_mem {
  m_cpu : cpu;
  heap_ptr : Z;
  usable_memory0 : Z;
  usable_memory1 : Z;
  base : Z;
  bend : Z;
  num_pages_exp : Z;
  bs : bstruct;
}.

Definition set_cpu (c : cpu) (s : mem) : mem :=
  mk_mem c (heap_ptr s) (usable_memory0 s) (usable_memory1 s) (base s) (bend s)
    (num_pages_exp s) (bs s).
Definition set_heap_ptr (p : Z) (s : mem) : mem :=
  mk_mem (m_cpu s) p (usable_memory0 s) (usable_memory1 s) (base s) (bend s)
    (num_pages_exp s) (bs s).
Definition set_range (b e n : Z) (s : mem) : mem :=
  mk_mem (m_cpu s) (heap_ptr s) (usable_memory0 s) (usable_memory1 s) b e n (bs s).
Definition set_bs (b : bstruct) (s : mem) : mem :=
  mk_mem (m_cpu s) (heap_ptr s) (usable_memory0 s) (usable_memory1 s) (base s) (bend s)
    (num_pages_exp s) b.

Definition set_arr (a : gmap Z Z) (b : bstruct) : bstruct :=
  mk_bstruct a (free_blocks_list b) (buddy_node_arr b).
Definition set_fbl (f : gmap Z (option Z)) (b : bstruct) : bstruct :=
  mk_bstruct (arr b) f (buddy_node_arr b).
Definition set_nodes (n : gmap Z buddy_node) (b : bstruct) : bstruct :=
  mk_bstruct (arr b) (free_blocks_list b) n.

Definition on_cpu {A} (m : M cpu A) : M mem A := zoom m_cpu set_cpu m.

(** ** Array accesses *)

Definition arr_get (i : Z) : M mem Z := s ← get_st; deref (arr (bs s) !! i).
Definition arr_set (i v : Z) : M mem unit :=
  _ ← arr_get i; modify (λ s, set_bs (set_arr (<[i := v]> (arr (bs s))) (bs s)) s).
Definition fbl_get (k : Z) : M mem (option Z) :=
  s ← get_st; deref (free_blocks_list (bs s) !! k).
Definition fbl_set (k : Z) (h : option Z) : M mem unit :=
  _ ← fbl_get k;
  modify (λ s, set_bs (set_fbl (<[k := h]> (free_blocks_list (bs s))) (bs s)) s).
Definition node_get (i : Z) : M mem buddy_node :=
  s ← get_st; deref (buddy_node_arr (bs s) !! i).
Definition node_upd (i : Z) (f : buddy_node → buddy_node) : M mem unit :=
  _ ← node_get i;
  modify (λ s, set_bs (set_nodes (alter f i (buddy_node_arr (bs s))) (bs s)) s).

(** ** simple_malloc *)

(** The alignment loop: [vals] is the run of values of the loop variable. *)
Fixpoint align_padding (vals : list Z) (size hp : Z) : Z :=
  match vals with
  | [] => 0
  | i :: vals' =>
      if size mod i =? 0 then (if hp mod i =? 0 then 0 else i - hp mod i)
      else align_padding vals' size hp
  end.

Definition simple_malloc (size : Z) : M mem (option Z) :=
  hp ← gets heap_ptr;
  let align_padding := align_padding [8; 4; 2; 1] size hp in
  let ret := u64 (hp + align_padding) in
  if u64 (u64 (hp + size) + align_padding) <=? u64 (heap_start + HEAP_SIZE)
  then modify (λ s, set_heap_ptr (u64 (hp + (size + align_padding))) s) ;; mret (Some ret)
  else on_cpu (printf ("Allocation failed" +:+ crlf)) ;; mret None.

(** ** The free lists *)

Definition buddy_list_empty (list_idx : Z) : M mem bool :=
  h ← fbl_get list_idx; mret (bool_decide (h = None)).

Definition neg_exp (list_idx : Z) : Z := if list_idx =? 0 then NEG_ZERO else - list_idx.

Definition buddy_delete_free_block (idx list_idx : Z) : M mem unit :=
  on_cpu disable_int ;;
  v ← arr_get idx;
  if negb (v =? list_idx) then
    on_cpu enable_int ;; on_cpu (err ("Node not found" +:+ crlf))
  else
    n ← node_get idx;
    match bn_prev n with
    | Some p => node_upd p (set_dnext (bn_next n))
    | None => mret tt
    end ;;
    n ← node_get idx;
    match bn_next n with
    | Some q => node_upd q (set_dprev (bn_prev n))
    | None => mret tt
    end ;;
    n ← node_get idx;
    h ← fbl_get list_idx;
    (if bool_decide (h = Some idx) then fbl_set list_idx (bn_next n) else mret tt) ;;
    node_upd idx (set_dprev None) ;;
    node_upd idx (set_dnext None) ;;
    arr_set idx (neg_exp list_idx) ;;
    on_cpu enable_int.

Definition buddy_insert_free_block (idx list_idx : Z) : M mem unit :=
  on_cpu disable_int ;;
  head_ptr ← fbl_get list_idx;
  e ← buddy_list_empty list_idx;
  (if negb e then
     h ← deref head_ptr; node_upd h (set_dprev (Some idx))
   else mret tt) ;;
  node_upd idx (set_dnext head_ptr) ;;
  fbl_set list_idx (Some idx) ;;
  arr_set idx list_idx ;;
  on_cpu enable_int.

(** ** buddy_init *)

(** [while (int_ptr < usable_memory[1]) { int_ptr <<= 1; num_pages_exp++; }] *)
Fixpoint buddy_init_exp (fuel : nat) (int_ptr exp top : Z) : M mem (Z * Z) :=
  match fuel with
  | O => spin
  | S fuel' =>
      if int_ptr <? top then buddy_init_exp fuel' (u64 (Z.shiftl int_ptr 1)) (exp + 1) top
      else mret (int_ptr, exp)
  end.

Definition buddy_init : M mem unit :=
  top ← gets usable_memory1;
  '(int_ptr, exp) ← buddy_init_exp 53 PAGE_SIZE 0 top;
  modify (set_range 0 int_ptr exp) ;;
  p ← simple_malloc (u64 (shl1 exp * sizeof_buddy_node));
  assert (bool_decide (p ≠ None)) ;;
  modify (λ s, set_bs (set_nodes
    (list_to_map ((λ i, (i, mk_bnode i None None)) <$> zseq 0 (Z.to_nat (shl1 exp)))) (bs s)) s) ;;
  p ← simple_malloc (u64 (shl1 exp * sizeof_int));
  assert (bool_decide (p ≠ None)) ;;
  modify (λ s, set_bs (set_arr
    (list_to_map ((λ i, (i, EMPTY)) <$> zseq 0 (Z.to_nat (shl1 exp)))) (bs s)) s) ;;
  p ← simple_malloc (u64 ((exp + 1) * sizeof_ptr));
  assert (bool_decide (p ≠ None)) ;;
  modify (λ s, set_bs (set_fbl
    (list_to_map ((λ i, (i, None)) <$> zseq 0 (Z.to_nat (exp + 1)))) (bs s)) s) ;;
  buddy_insert_free_block 0 exp.

(** ** buddy_malloc *)

Fixpoint buddy_cut_block (idx : Z) (block_size_exp : nat) (required_size : Z) : M mem unit :=
  on_cpu disable_int ;;
  match block_size_exp with
  | O => on_cpu enable_int
  | S k =>
      if u32 (shl1 (Z.of_nat k)) <? required_size then on_cpu enable_int
      else
        v ← arr_get idx;
        arr_set idx (v + 1) ;;
        (if v + 1 =? 0 then arr_set idx NEG_ZERO else mret tt) ;;
        buddy_insert_free_block (idx + shl1 (Z.of_nat k)) (Z.of_nat k) ;;
        buddy_cut_block idx k required_size ;;
        on_cpu enable_int
  end.

(** The search loop of [buddy_malloc]; [None] is the exit with no block. *)
Fixpoint buddy_search (fuel : nat) (list_idx size : Z) : M mem (option Z) :=
  match fuel with
  | O => spin
  | S fuel' =>
      small ← mret (u32 (shl1 list_idx) <? size);
      e ← (if (small : bool) then mret true else buddy_list_empty list_idx);
      if (e : bool) then
        n ← gets num_pages_exp;
        if n <? list_idx + 1 then mret None
        else buddy_search fuel' (list_idx + 1) size
      else mret (Some list_idx)
  end.

(** Returns a physical address; 0 is NULL. *)
Definition buddy_malloc (size : Z) : M mem Z :=
  on_cpu disable_int ;;
  if size =? 0 then on_cpu enable_int ;; mret 0
  else
    n ← gets num_pages_exp;
    r ← buddy_search (Z.to_nat (n + 1)) 0 size;
    match r with
    | None =>
        on_cpu enable_int ;; on_cpu (printf ("No enough space" +:+ crlf)) ;; mret 0
    | Some list_idx =>
        h ← fbl_get list_idx;
        h ← deref h;
        nd ← node_get h;
        let idx := bn_idx nd in
        buddy_delete_free_block idx list_idx ;;
        buddy_cut_block idx (Z.to_nat list_idx) size ;;
        on_cpu enable_int ;;
        mret (u64 (idx * PAGE_SIZE))
    end.

(** ** buddy_free *)

Fixpoint buddy_merge_block (fuel : nat) (idx block_size_exp : Z) : M mem unit :=
  match fuel with
  | O => spin
  | S fuel' =>
      on_cpu disable_int ;;
      n ← gets num_pages_exp;
      if block_size_exp =? n then on_cpu enable_int
      else
        let buddy_idx :=
          if Z.rem idx (shl1 (block_size_exp + 1)) =? 0 then idx + shl1 block_size_exp
          else idx - shl1 block_size_exp in
        v ← arr_get buddy_idx;
        if negb (v =? block_size_exp) then on_cpu enable_int
        else
          let small_idx := Z.min idx buddy_idx in
          let big_idx := Z.max idx buddy_idx in
          buddy_delete_free_block idx block_size_exp ;;
          buddy_delete_free_block buddy_idx block_size_exp ;;
          buddy_insert_free_block small_idx (block_size_exp + 1) ;;
          arr_set big_idx EMPTY ;;
          buddy_merge_block fuel' small_idx (block_size_exp + 1) ;;
          on_cpu enable_int
  end.

Definition buddy_free (ptr : Z) : M mem unit :=
  on_cpu disable_int ;;
  e ← gets bend;
  if (e <=? ptr) || negb (Z.land ptr (PAGE_SIZE - 1) =? 0) then
    on_cpu enable_int ;; on_cpu (printf ("Invalid pointer" +:+ crlf))
  else
    let idx := i32 (ptr / PAGE_SIZE) in
    v ← arr_get idx;
    if 0 <=? v then
      on_cpu enable_int ;; on_cpu (printf ("The page is not in use" +:+ crlf))
    else if v =? EMPTY then
      on_cpu enable_int ;; on_cpu (printf ("Not start of a block" +:+ crlf))
    else
      let list_idx := if v =? NEG_ZERO then 0 else - v in
      buddy_insert_free_block idx list_idx ;;
      n ← gets num_pages_exp;
      buddy_merge_block (Z.to_nat (n - list_idx + 1)) idx list_idx ;;
      on_cpu enable_int.

(** ** memory_reserve *)

Fixpoint buddy_clear_block (idx : Z) (block_size_exp : nat) : M mem unit :=
  let e := Z.of_nat block_size_exp in
  if negb (Z.rem idx (shl1 e) =? 0) then
    on_cpu (err ("The index is not aligned with the block size" +:+ crlf))
  else
    v ← arr_get idx;
    if e <=? v then mret tt
    else if (negb (v =? NEG_ZERO) && (v <=? - e)) || ((v =? NEG_ZERO) && (e =? 0)) then
      buddy_insert_free_block idx e
    else
      match block_size_exp with
      | O => ub
      | S k =>
          let buddy_idx := idx + shl1 (Z.of_nat k) in
          buddy_clear_block idx k ;;
          buddy_clear_block buddy_idx k ;;
          buddy_delete_free_block idx (Z.of_nat k) ;;
          buddy_delete_free_block buddy_idx (Z.of_nat k) ;;
          buddy_insert_free_block idx e ;;
          arr_set buddy_idx EMPTY
      end.

(** The loop that finds the smallest aligned block covering the region:
    the block's first address and its size exponent in pages. *)
Fixpoint reserve_search (fuel : nat) (i reserve_len_exp start end_ size : Z) : M mem (Z * Z) :=
  match fuel with
  | O => spin
  | S fuel' =>
      let next := reserve_search fuel' (u64 (Z.shiftl i 1)) (reserve_len_exp + 1) start end_ size in
      if i <? size then next
      else
        let block_start := Z.land start (Z.lnot (i - 1)) in
        let block_end := u64 (block_start + i) in
        if block_end <? end_ then next else mret (block_start, reserve_len_exp)
  end.

(** [while (arr[parent_idx] == EMPTY) parent_idx -= parent_idx & -parent_idx;] *)
Fixpoint parent_walk (fuel : nat) (parent_idx : Z) : M mem Z :=
  match fuel with
  | O => spin
  | S fuel' =>
      v ← arr_get parent_idx;
      if v =? EMPTY then parent_walk fuel' (parent_idx - Z.land parent_idx (- parent_idx))
      else mret parent_idx
  end.

(** The splitting loop: [n] iterations remain, the loop variable [i] is
    [reserve_len_exp + n]. *)
Fixpoint reserve_split (n : nat) (reserve_len_exp parent_idx idx : Z) : M mem unit :=
  match n with
  | O => mret tt
  | S n' =>
      let i := reserve_len_exp + Z.of_nat n in
      let idx1 := parent_idx in
      let idx2 := parent_idx + shl1 (i - 1) in
      buddy_delete_free_block parent_idx i ;;
      buddy_insert_free_block idx1 (i - 1) ;;
      buddy_insert_free_block idx2 (i - 1) ;;
      reserve_split n' reserve_len_exp (if idx <? idx2 then idx1 else idx2) idx
  end.

Definition memory_reserve (start end_ : Z) : M mem unit :=
  '(reserve_start, reserve_len_exp) ←
     reserve_search 53 PAGE_SIZE 0 start end_ (u64 (end_ - start));
  let idx := i32 (reserve_start / PAGE_SIZE) in
  parent_idx ← parent_walk 32 idx;
  v ← arr_get parent_idx;
  if (v <=? - reserve_len_exp) && negb (v =? NEG_ZERO) then mret tt
  else if reserve_len_exp <=? v then
    reserve_split (Z.to_nat (v - reserve_len_exp)) reserve_len_exp parent_idx idx ;;
    buddy_delete_free_block idx reserve_len_exp
  else
    buddy_clear_block idx (Z.to_nat reserve_len_exp) ;;
    buddy_delete_free_block idx reserve_len_exp.
