(* ===== verification/BuddyRep.v ===== *)
(** * The free lists refine sequences of block numbers

    [rep n b fl] relates the arrays of the buddy system to the abstract free
    lists [fl : Z → list Z], one sequence per order: each list head leads a
    doubly linked list of exactly the pages whose cell holds that order, and
    an unlisted node has both links NULL (which [buddy_insert_free_block]
    relies on, since it never clears [prev]).  The lemmas show what inserting
    and deleting a free block do to the abstract state. *)

From S2P Require Import Prelude Cpu Dll Buddy.

Record rep (n : Z) (b : bstruct) (fl : Z → list Z) : Prop := mk_rep {
  rep_exp : 0 ≤ n ≤ 30;
  rep_dom i : is_Some (arr b !! i) ↔ 0 ≤ i < 2 ^ n;
  rep_node i : 0 ≤ i < 2 ^ n → ∃ nd, buddy_node_arr b !! i = Some nd ∧ bn_idx nd = i;
  rep_list k : 0 ≤ k ≤ n →
    ∃ h q, free_blocks_list b !! k = Some h ∧ dlist (buddy_node_arr b) h q (fl k);
  rep_nodup k : 0 ≤ k ≤ n → NoDup (fl k);
  rep_mem k i : 0 ≤ k ≤ n → i ∈ fl k ↔ arr b !! i = Some k;
  rep_unlinked i nd : buddy_node_arr b !! i = Some nd →
    (∀ k, 0 ≤ k ≤ n → arr b !! i ≠ Some k) → bn_prev nd = None ∧ bn_next nd = None;
}.

(** The state holds no free block at page [i]. *)
Definition not_free (n : Z) (b : bstruct) (i : Z) : Prop :=
  ∀ k, 0 ≤ k ≤ n → arr b !! i ≠ Some k.

Definition fl_insert (k i : Z) (fl : Z → list Z) : Z → list Z :=
  λ j, if j =? k then i :: fl j else fl j.
Definition fl_delete (k i : Z) (fl : Z → list Z) : Z → list Z :=
  λ j, if j =? k then filter (.≠ i) (fl j) else fl j.

Lemma fl_insert_eq k i fl : fl_insert k i fl k = i :: fl k.
Proof. unfold fl_insert. by rewrite Z.eqb_refl. Qed.
Lemma fl_insert_ne k j i fl : j ≠ k → fl_insert k i fl j = fl j.
Proof. unfold fl_insert. intros. by destruct (Z.eqb_spec j k). Qed.
Lemma fl_delete_eq k i fl : fl_delete k i fl k = filter (.≠ i) (fl k).
Proof. unfold fl_delete. by rewrite Z.eqb_refl. Qed.
Lemma fl_delete_ne k j i fl : j ≠ k → fl_delete k i fl j = fl j.
Proof. unfold fl_delete. intros. by destruct (Z.eqb_spec j k). Qed.

Lemma filter_ne_id (i : Z) (l : list Z) : i ∉ l → filter (.≠ i) l = l.
Proof.
  induction l as [|x l IH]; intros Hi; [done|].
  rewrite filter_cons_True by set_solver. f_equal. apply IH. set_solver.
Qed.

Lemma filter_ne_split (i : Z) (l1 l2 : list Z) :
  NoDup (l1 ++ i :: l2) → filter (.≠ i) (l1 ++ i :: l2) = l1 ++ l2.
Proof.
  intros (? & Hd & [Hi ?]%NoDup_cons)%NoDup_app.
  rewrite filter_app, filter_cons_False by naive_solver.
  rewrite !filter_ne_id; [done|done|]. intros ?. by apply (Hd i), elem_of_cons; [|left].
Qed.

Lemma PAGE_SIZE_eq : PAGE_SIZE = 4096.
Proof. done. Qed.

Lemma set_cpu_id s : set_cpu (m_cpu s) s = s.
Proof. by destruct s. Qed.
Lemma set_bs_id s : set_bs (bs s) s = s.
Proof. by destruct s. Qed.

(** ** Execution of the primitives *)

Section Prim.
Implicit Types s : mem.

Lemma wp_on_cpu_disable (Q : unit → mem → Prop) s :
  Q tt (set_cpu (enter (m_cpu s)) s) → wp (on_cpu disable_int) Q s.
Proof. done. Qed.
Lemma wp_on_cpu_enable (Q : unit → mem → Prop) s :
  Q tt (set_cpu (leave (m_cpu s)) s) → wp (on_cpu enable_int) Q s.
Proof. done. Qed.
Lemma wp_on_cpu_printf msg (Q : unit → mem → Prop) s :
  Q tt (set_cpu (say msg (m_cpu s)) s) → wp (on_cpu (printf msg)) Q s.
Proof. done. Qed.
Lemma wp_on_cpu_err msg (Q : unit → mem → Prop) s :
  Q tt (set_cpu (say_err msg (m_cpu s)) s) → wp (on_cpu (err msg)) Q s.
Proof. done. Qed.
Lemma wp_arr_get i v (Q : Z → mem → Prop) s :
  arr (bs s) !! i = Some v → Q v s → wp (arr_get i) Q s.
Proof. intros H ?. unfold arr_get. wp_steps. by apply (wp_deref _ v). Qed.
Lemma wp_arr_set i v (Q : unit → mem → Prop) s :
  is_Some (arr (bs s) !! i) →
  Q tt (set_bs (set_arr (<[i := v]> (arr (bs s))) (bs s)) s) → wp (arr_set i v) Q s.
Proof.
  intros [w H] ?. unfold arr_set. wp_step. apply (wp_arr_get _ w); [done|].
  by wp_steps.
Qed.
Lemma wp_fbl_get k h (Q : option Z → mem → Prop) s :
  free_blocks_list (bs s) !! k = Some h → Q h s → wp (fbl_get k) Q s.
Proof. intros H ?. unfold fbl_get. wp_steps. by apply (wp_deref _ h). Qed.
Lemma wp_fbl_set k h (Q : unit → mem → Prop) s :
  is_Some (free_blocks_list (bs s) !! k) →
  Q tt (set_bs (set_fbl (<[k := h]> (free_blocks_list (bs s))) (bs s)) s) →
  wp (fbl_set k h) Q s.
Proof.
  intros [w H] ?. unfold fbl_set. wp_step. apply (wp_fbl_get _ w); [done|].
  by wp_steps.
Qed.
Lemma wp_node_get i nd (Q : buddy_node → mem → Prop) s :
  buddy_node_arr (bs s) !! i = Some nd → Q nd s → wp (node_get i) Q s.
Proof. intros H ?. unfold node_get. wp_steps. by apply (wp_deref _ nd). Qed.
Lemma wp_node_upd i f (Q : unit → mem → Prop) s :
  is_Some (buddy_node_arr (bs s) !! i) →
  Q tt (set_bs (set_nodes (alter f i (buddy_node_arr (bs s))) (bs s)) s) →
  wp (node_upd i f) Q s.
Proof.
  intros [w H] ?. unfold node_upd. wp_step. apply (wp_node_get _ w); [done|].
  by wp_steps.
Qed.

(** [if (p) p->next = v;] and [if (p) p->prev = v;] *)
Lemma wp_link_next p v (Q : unit → mem → Prop) s :
  (∀ a, p = Some a → is_Some (buddy_node_arr (bs s) !! a)) →
  Q tt (set_bs (set_nodes (link_next p v (buddy_node_arr (bs s))) (bs s)) s) →
  wp (match p with Some a => node_upd a (set_dnext v) | None => mret tt end) Q s.
Proof.
  intros Hs HQ. destruct p as [a|]; [by apply wp_node_upd; [apply Hs|]|].
  apply wp_ret. simpl in HQ. by destruct s as [???????[]].
Qed.
Lemma wp_link_prev p v (Q : unit → mem → Prop) s :
  (∀ a, p = Some a → is_Some (buddy_node_arr (bs s) !! a)) →
  Q tt (set_bs (set_nodes (link_prev p v (buddy_node_arr (bs s))) (bs s)) s) →
  wp (match p with Some a => node_upd a (set_dprev v) | None => mret tt end) Q s.
Proof.
  intros Hs HQ. destruct p as [a|]; [by apply wp_node_upd; [apply Hs|]|].
  apply wp_ret. simpl in HQ. by destruct s as [???????[]].
Qed.

End Prim.

(** ** Preservation of the node numbering *)

Definition idx_ok (n : Z) (m : gmap Z buddy_node) : Prop :=
  ∀ i, 0 ≤ i < 2 ^ n → ∃ nd, m !! i = Some nd ∧ bn_idx nd = i.

Lemma idx_ok_alter n f a m :
  (∀ nd, bn_idx (f nd) = bn_idx nd) → idx_ok n m → idx_ok n (alter f a m).
Proof.
  intros Hf Hm i Hi. destruct (Hm i Hi) as (nd & Hnd & Hidx).
  rewrite lookup_alter. case_decide; [|by eauto].
  subst a. exists (f nd). rewrite Hnd. simpl. by rewrite Hf.
Qed.
Lemma idx_ok_link_next n p v m : idx_ok n m → idx_ok n (link_next p v m).
Proof. destruct p; [|done]. by apply idx_ok_alter. Qed.
Lemma idx_ok_link_prev n p v m : idx_ok n m → idx_ok n (link_prev p v m).
Proof. destruct p; [|done]. by apply idx_ok_alter. Qed.
#[export] Hint Resolve idx_ok_link_next idx_ok_link_prev : kernel.

Lemma neg_exp_neg k : 0 ≤ k → neg_exp k < 0.
Proof. unfold neg_exp, NEG_ZERO, INT_MAX. intros. destruct (Z.eqb_spec k 0); lia. Qed.

(** ** Frame lemmas of [rep] *)

Section Rep.
Context (n : Z) (b : bstruct) (fl : Z → list Z) (Hrep : rep n b fl).

Lemma rep_free_disjoint k k' x : 0 ≤ k ≤ n → 0 ≤ k' ≤ n → x ∈ fl k → x ∈ fl k' → k = k'.
Proof.
  intros Hk Hk' H1 H2. apply (rep_mem _ _ _ Hrep) in H1; [|done].
  apply (rep_mem _ _ _ Hrep) in H2; [|done]. congruence.
Qed.

Lemma rep_in_range k x : 0 ≤ k ≤ n → x ∈ fl k → 0 ≤ x < 2 ^ n.
Proof.
  intros Hk H. apply (rep_mem _ _ _ Hrep) in H; [|done].
  apply (rep_dom _ _ _ Hrep). by rewrite H.
Qed.

Lemma rep_node_is_Some i : 0 ≤ i < 2 ^ n → is_Some (buddy_node_arr b !! i).
Proof. intros (nd & -> & _)%(rep_node _ _ _ Hrep). done. Qed.

(** Overwriting a cell that holds no free block by another value that
    denotes no free block keeps the free lists. *)
Lemma rep_set_arr i v :
  not_free n b i → is_Some (arr b !! i) → (∀ k, 0 ≤ k ≤ n → v ≠ k) →
  rep n (set_arr (<[i := v]> (arr b)) b) fl.
Proof.
  intros Hnf Hi Hv. destruct Hrep as [He Hd Hn Hl Hnd Hm Hu]. split; simpl; try done.
  - intros j. rewrite lookup_insert_is_Some', Hd. split; [|tauto].
    intros [<-|?]; [by apply Hd|done].
  - intros k j Hk. rewrite Hm by done. rewrite lookup_insert. case_decide; [|done].
    subst j. split; intros H; [by destruct (Hnf k Hk)|]. by destruct (Hv k Hk); simplify_eq.
  - intros j nd Hj Hnf'. apply (Hu j); [done|]. intros k Hk.
    destruct (decide (j = i)) as [->|]; [by apply Hnf|].
    specialize (Hnf' k Hk). by rewrite lookup_insert_ne in Hnf'.
Qed.

End Rep.

(** ** Deleting a free block *)

(** The node store after [i], between [p] and [q], has been unlinked. *)
Definition unlink (i : Z) (p q : option Z) (m : gmap Z buddy_node) : gmap Z buddy_node :=
  alter (set_dnext None) i (alter (set_dprev None) i (link_prev q p (link_next p q m))).

Lemma unlink_frame i l1 l2 m x :
  x ∉ l1 ++ i :: l2 → unlink i (last l1) (head l2) m !! x = m !! x.
Proof.
  intros Hx. unfold unlink. rewrite !lookup_alter_ne by set_solver.
  rewrite link_prev_ne, link_next_ne; [done| |].
  - intros ?%last_elem_of. set_solver.
  - intros ?%head_elem_of. set_solver.
Qed.

Lemma unlink_idx_ok n i p q m : idx_ok n m → idx_ok n (unlink i p q m).
Proof.
  intros. unfold unlink. apply idx_ok_alter; [done|]. apply idx_ok_alter; [done|].
  auto with kernel.
Qed.

Lemma unlink_self i p q m nd :
  unlink i p q m !! i = Some nd → bn_prev nd = None ∧ bn_next nd = None.
Proof.
  unfold unlink. rewrite !lookup_alter_eq.
  intros (nd1 & Hj & ->)%fmap_Some. by apply fmap_Some in Hj as (nd2 & Hj & ->).
Qed.

(** The list the node leaves stays a list, and its head is right. *)
Lemma unlink_list m h q l1 i l2 nd :
  NoDup (l1 ++ i :: l2) → dlist m h q (l1 ++ i :: l2) →
  m !! i = Some nd → bn_prev nd = last l1 → bn_next nd = head l2 →
  ∃ q', dlist (unlink i (last l1) (head l2) m) (if l1 is [] then head l2 else h) q' (l1 ++ l2).
Proof.
  intros Hndp Hh Hnd Hprev Hnext.
  pose proof (dseg_delete _ _ _ _ _ _ _ _ nd Hndp Hh Hnd) as Hd.
  change (dprev nd) with (bn_prev nd) in Hd. change (dnext nd) with (bn_next nd) in Hd.
  rewrite Hprev, Hnext in Hd. eexists. eapply dseg_frame, Hd.
  apply NoDup_app in Hndp as (_ & Hdisj & [? _]%NoDup_cons).
  intros x Hx. unfold unlink. rewrite !lookup_alter_ne; [done| |];
    (intros <-; apply elem_of_app in Hx as [Hx|Hx]; [by apply (Hdisj i Hx); left|done]).
Qed.

(** The arrays after a free block has been deleted. *)
Definition bs_delete (i k : Z) (l1 l2 : list Z) (b : bstruct) : bstruct :=
  mk_bstruct (<[i := neg_exp k]> (arr b))
    (if l1 is [] then <[k := head l2]> (free_blocks_list b) else free_blocks_list b)
    (unlink i (last l1) (head l2) (buddy_node_arr b)).

Section Delete.
Context (n : Z) (b : bstruct) (fl : Z → list Z) (i k : Z) (l1 l2 : list Z) (nd : buddy_node).
Context (Hrep : rep n b fl) (Hk : 0 ≤ k ≤ n) (Hfl : fl k = l1 ++ i :: l2).
Context (Hnd : buddy_node_arr b !! i = Some nd).
Context (Hprev : bn_prev nd = last l1) (Hnext : bn_next nd = head l2).

Lemma del_cell : arr b !! i = Some k.
Proof. apply (rep_mem _ _ _ Hrep); [done|]. rewrite Hfl. set_solver. Qed.

Lemma del_nodup : NoDup (l1 ++ i :: l2).
Proof. rewrite <- Hfl. by apply Hrep. Qed.

Lemma del_fl : fl_delete k i fl k = l1 ++ l2.
Proof. rewrite fl_delete_eq, Hfl. apply filter_ne_split, del_nodup. Qed.

Lemma del_list k' : 0 ≤ k' ≤ n →
  ∃ h q, free_blocks_list (bs_delete i k l1 l2 b) !! k' = Some h ∧
    dlist (buddy_node_arr (bs_delete i k l1 l2 b)) h q (fl_delete k i fl k').
Proof.
  intros Hk'. destruct (rep_list _ _ _ Hrep k' Hk') as (h & q & Hf & Hd). simpl.
  destruct (decide (k' = k)) as [->|Hne].
  - rewrite del_fl. rewrite Hfl in Hd.
    destruct (unlink_list _ _ _ _ _ _ nd del_nodup Hd Hnd Hprev Hnext) as [q' Hq'].
    eexists _, q'. split; [|exact Hq']. destruct l1; [apply lookup_insert_eq|done].
  - rewrite fl_delete_ne by done. exists h, q. split.
    + destruct l1; [by rewrite lookup_insert_ne|done].
    + eapply dseg_frame; [|exact Hd]. intros x Hx. apply unlink_frame. rewrite <- Hfl.
      intros Hx'. by eapply Hne, (rep_free_disjoint _ _ _ Hrep k' k x).
Qed.

Lemma del_mem k' j : 0 ≤ k' ≤ n →
  j ∈ fl_delete k i fl k' ↔ <[i := neg_exp k]> (arr b) !! j = Some k'.
Proof.
  intros Hk'. pose proof del_nodup as (_ & Hdisj & [Hi _]%NoDup_cons)%NoDup_app.
  destruct (decide (j = i)) as [->|Hji].
  - rewrite lookup_insert_eq. split; [|intros [= Hx]; pose proof (neg_exp_neg k); lia].
    destruct (decide (k' = k)) as [->|Hne].
    + rewrite del_fl. intros [Hx|Hx]%elem_of_app; [|done]. by destruct (Hdisj i Hx); left.
    + rewrite fl_delete_ne by done. intros Hj. destruct Hne.
      eapply (rep_free_disjoint _ _ _ Hrep); [done|done|exact Hj|]. rewrite Hfl. set_solver.
  - rewrite lookup_insert_ne by done. rewrite <- (rep_mem _ _ _ Hrep k' j) by done.
    destruct (decide (k' = k)) as [->|Hne]; [|by rewrite fl_delete_ne].
    rewrite del_fl, Hfl. set_solver.
Qed.

Lemma rep_delete : rep n (bs_delete i k l1 l2 b) (fl_delete k i fl).
Proof.
  split; simpl.
  - apply Hrep.
  - intros j. rewrite lookup_insert_is_Some', (rep_dom _ _ _ Hrep). split; [|tauto].
    intros [<-|?]; [|done]. apply (rep_dom _ _ _ Hrep). by rewrite del_cell.
  - apply unlink_idx_ok. exact (rep_node _ _ _ Hrep).
  - apply del_list.
  - intros k' Hk'. destruct (decide (k' = k)) as [->|Hne].
    + pose proof del_nodup as (? & Hd & [? ?]%NoDup_cons)%NoDup_app.
      rewrite del_fl. apply NoDup_app. set_solver.
    + rewrite fl_delete_ne by done. by apply Hrep.
  - intros. by apply del_mem.
  - intros j nd' Hj Hnf. destruct (decide (j = i)) as [->|Hji]; [by eapply unlink_self|].
    assert (Hnf' : not_free n b j).
    { intros k' Hk'. specialize (Hnf k' Hk'). by rewrite lookup_insert_ne in Hnf. }
    rewrite unlink_frame in Hj; [by apply (rep_unlinked _ _ _ Hrep j)|]. rewrite <- Hfl.
    intros Hjk. apply (rep_mem _ _ _ Hrep) in Hjk; [|done]. by apply (Hnf' k).
Qed.

End Delete.

(** ** Inserting a free block *)

Definition bs_insert (i k : Z) (h : option Z) (b : bstruct) : bstruct :=
  mk_bstruct (<[i := k]> (arr b)) (<[k := Some i]> (free_blocks_list b))
    (alter (set_dnext h) i (link_prev h (Some i) (buddy_node_arr b))).

Section Insert.
Context (n : Z) (b : bstruct) (fl : Z → list Z) (i k : Z) (h q : option Z).
Context (Hrep : rep n b fl) (Hk : 0 ≤ k ≤ n) (Hi : 0 ≤ i < 2 ^ n).
Context (Hnf : not_free n b i).
Context (Hdl : dlist (buddy_node_arr b) h q (fl k)).

Lemma ins_fresh k' : 0 ≤ k' ≤ n → i ∉ fl k'.
Proof. intros Hk' Hx. apply (rep_mem _ _ _ Hrep) in Hx; [|done]. by apply (Hnf k'). Qed.

Lemma ins_frame x : x ≠ i → x ∉ fl k →
  alter (set_dnext h) i (link_prev h (Some i) (buddy_node_arr b)) !! x = buddy_node_arr b !! x.
Proof.
  intros Hxi Hx. rewrite lookup_alter_ne by done. apply link_prev_ne. intros ->.
  apply dseg_head in Hdl. destruct (fl k); simplify_eq. set_solver.
Qed.

Lemma ins_list k' : 0 ≤ k' ≤ n →
  ∃ h' q', free_blocks_list (bs_insert i k h b) !! k' = Some h' ∧
    dlist (buddy_node_arr (bs_insert i k h b)) h' q' (fl_insert k i fl k').
Proof.
  intros Hk'. simpl. destruct (decide (k' = k)) as [->|Hne].
  - rewrite fl_insert_eq, lookup_insert_eq.
    destruct (rep_node _ _ _ Hrep i Hi) as (nd & Hnd & _).
    destruct (rep_unlinked _ _ _ Hrep i nd Hnd Hnf) as [Hp _].
    eexists _, _. split; [done|]. eapply dlist_push_front; [by apply Hrep| |done..].
    by apply ins_fresh.
  - rewrite fl_insert_ne, lookup_insert_ne by done.
    destruct (rep_list _ _ _ Hrep k' Hk') as (h' & q' & Hf & Hd).
    exists h', q'. split; [done|]. eapply dseg_frame; [|exact Hd].
    intros x Hx. apply ins_frame.
    + intros ->. by apply (ins_fresh k').
    + intros Hx'. by eapply Hne, (rep_free_disjoint _ _ _ Hrep k' k x).
Qed.

Lemma ins_mem k' j : 0 ≤ k' ≤ n → j ∈ fl_insert k i fl k' ↔ <[i := k]> (arr b) !! j = Some k'.
Proof.
  intros Hk'. destruct (decide (j = i)) as [->|Hji].
  - rewrite lookup_insert_eq. destruct (decide (k' = k)) as [->|Hne].
    + rewrite fl_insert_eq. split; [done|]. intros _. set_solver.
    + rewrite fl_insert_ne by done. split; [by intros ?%ins_fresh|]. congruence.
  - rewrite lookup_insert_ne by done. rewrite <- (rep_mem _ _ _ Hrep k' j) by done.
    destruct (decide (k' = k)) as [->|Hne]; [|by rewrite fl_insert_ne].
    rewrite fl_insert_eq. set_solver.
Qed.

Lemma rep_insert : rep n (bs_insert i k h b) (fl_insert k i fl).
Proof.
  split; simpl.
  - apply Hrep.
  - intros j. rewrite lookup_insert_is_Some', (rep_dom _ _ _ Hrep). split; [|tauto].
    by intros [<-|?].
  - apply idx_ok_alter; [done|]. apply idx_ok_link_prev. exact (rep_node _ _ _ Hrep).
  - apply ins_list.
  - intros k' Hk'. destruct (decide (k' = k)) as [->|Hne].
    + rewrite fl_insert_eq. constructor; [by apply ins_fresh|by apply Hrep].
    + rewrite fl_insert_ne by done. by apply Hrep.
  - intros. by apply ins_mem.
  - intros j nd' Hj Hnf'. destruct (decide (j = i)) as [->|Hji].
    + destruct (Hnf' k Hk). by rewrite lookup_insert_eq.
    + assert (Hnfj : not_free n b j).
      { intros k' Hk'. specialize (Hnf' k' Hk'). by rewrite lookup_insert_ne in Hnf'. }
      rewrite ins_frame in Hj; [by apply (rep_unlinked _ _ _ Hrep j)|done|].
      intros Hjk. apply (rep_mem _ _ _ Hrep) in Hjk; [|done]. by apply (Hnfj k).
Qed.

End Insert.

(** ** The two operations, run *)

Section Run.
Context (n : Z) (s : mem) (fl : Z → list Z).
Context (Hcpu : cpu_ok (m_cpu s)) (Hrep : rep n (bs s) fl).

Lemma wp_buddy_delete i k (Q : unit → mem → Prop) :
  0 ≤ k ≤ n → arr (bs s) !! i = Some k →
  (∀ b', arr b' = <[i := neg_exp k]> (arr (bs s)) → rep n b' (fl_delete k i fl) →
     Q tt (set_bs b' s)) →
  wp (buddy_delete_free_block i k) Q s.
Proof.
  intros Hk Hi HQ. assert (Hin : i ∈ fl k) by by apply Hrep.
  destruct (list_elem_of_split _ _ Hin) as (l1 & l2 & Hfl).
  destruct (rep_list _ _ _ Hrep k Hk) as (h & q & Hf & Hd).
  pose proof Hd as Hlk. rewrite Hfl in Hlk. pose proof (rep_nodup _ _ _ Hrep k Hk) as Hndp.
  rewrite Hfl in Hndp. pose proof (dseg_head _ _ _ _ _ _ Hlk) as Hh.
  destruct (dseg_links _ _ _ _ _ _ _ _ Hlk) as (nd & Hnd & Hp & Hn).
  assert (Hp' : bn_prev nd = last l1) by (by simpl in Hp; rewrite Hp; destruct (last l1)).
  assert (Hn' : bn_next nd = head l2) by (simpl in Hn; rewrite Hn; by destruct l2).
  assert (Hmem : ∀ a, a ∈ fl k → is_Some (buddy_node_arr (bs s) !! a))
    by (intros a Ha; exact (dseg_lookup _ _ _ _ _ _ _ Hd Ha)).
  assert (Hil1 : i ∉ l1).
  { intros Hl. apply NoDup_app in Hndp as (_ & Hdj & _). by apply (Hdj i Hl); left. }
  assert (Hi1 : last l1 ≠ Some i) by by intros ?%last_elem_of.
  assert (Hi2 : head l2 ≠ Some i).
  { intros Hl%head_elem_of. by apply NoDup_app in Hndp as (_ & _ & [? _]%NoDup_cons). }
  assert (Hfin : Q tt (set_bs (bs_delete i k l1 l2 (bs s)) s)).
  { apply HQ; [done|]. by apply (rep_delete _ _ _ _ _ _ _ nd). }
  destruct s as [c hp u0 u1 ba be ne [a f m]]. simpl in *.
  unfold buddy_delete_free_block. wp_step. apply wp_on_cpu_disable.
  wp_step. apply (wp_arr_get _ k); [done|]. rewrite Z.eqb_refl. cbn [negb].
  wp_step. apply (wp_node_get _ nd); [done|]. rewrite Hp', Hn'.
  wp_step. apply wp_link_next.
  { intros x Hx. apply Hmem. rewrite Hfl. apply last_elem_of in Hx. set_solver. }
  wp_step. apply (wp_node_get _ nd); [simpl; by rewrite link_next_ne|]. rewrite Hp', Hn'.
  wp_step. apply wp_link_prev.
  { intros x Hx. simpl. apply link_next_is_Some, Hmem. rewrite Hfl.
    apply head_elem_of in Hx. set_solver. }
  wp_step. apply (wp_node_get _ nd); [simpl; by rewrite link_prev_ne, link_next_ne|]. rewrite Hn'.
  wp_step. apply (wp_fbl_get _ h); [done|]. wp_step. simpl.
  apply (wp_mono _ (λ _ s', s' = mk_mem (enter c) hp u0 u1 ba be ne (mk_bstruct a
    (if l1 is [] then <[k := head l2]> f else f)
    (link_prev (head l2) (last l1) (link_next (last l1) (head l2) m))))).
  { case_bool_decide as Hhd; destruct l1 as [|x l1]; simplify_eq/=; try done.
    - apply wp_fbl_set; [done|]. simpl. done.
    - by destruct Hil1; left. }
  intros ? ? ->. 
  assert (is_Some (link_prev (head l2) (last l1) (link_next (last l1) (head l2) m) !! i)) as Hs.
  { apply link_prev_is_Some, link_next_is_Some. by rewrite Hnd. }
  wp_step. apply wp_node_upd; [done|]. simpl.
  wp_step. apply wp_node_upd; [by apply lookup_alter_is_Some|]. simpl.
  wp_step. apply wp_arr_set; [done|]. apply wp_on_cpu_enable. simpl.
  by rewrite leave_enter.
Qed.

Lemma wp_buddy_insert i k (Q : unit → mem → Prop) :
  0 ≤ k ≤ n → 0 ≤ i < 2 ^ n → not_free n (bs s) i →
  (∀ b', arr b' = <[i := k]> (arr (bs s)) → rep n b' (fl_insert k i fl) →
     Q tt (set_bs b' s)) →
  wp (buddy_insert_free_block i k) Q s.
Proof.
  intros Hk Hi Hnf HQ. destruct (rep_list _ _ _ Hrep k Hk) as (h & q & Hf & Hd).
  destruct (rep_node _ _ _ Hrep i Hi) as (nd & Hnd & _).
  assert (Hai : is_Some (arr (bs s) !! i)) by by apply Hrep.
  pose proof (dseg_head _ _ _ _ _ _ Hd) as Hh.
  assert (Hfin : Q tt (set_bs (bs_insert i k h (bs s)) s)).
  { apply HQ; [done|]. by eapply rep_insert. }
  assert (Hhs : ∀ a, h = Some a → is_Some (buddy_node_arr (bs s) !! a)).
  { intros a ->. eapply (dseg_lookup _ _ _ _ _ _ _ Hd). destruct (fl k); simplify_eq. set_solver. }
  destruct s as [c hp u0 u1 ba be ne [a f m]]. simpl in *.
  unfold buddy_insert_free_block, buddy_list_empty. wp_step. apply wp_on_cpu_disable.
  wp_step. apply (wp_fbl_get _ h); [done|]. wp_step. wp_step. apply (wp_fbl_get _ h); [done|].
  wp_step. wp_step. simpl.
  apply (wp_mono _ (λ _ s', s' = mk_mem (enter c) hp u0 u1 ba be ne
    (mk_bstruct a f (link_prev h (Some i) m)))).
  { clear Hfin Hh Hd. destruct h as [x|]; [|done].
    rewrite bool_decide_false by done. simpl.
    by apply wp_node_upd; [apply Hhs|]. }
  intros ? ? ->. wp_step. apply wp_node_upd.
  { simpl. apply link_prev_is_Some. by rewrite Hnd. }
  wp_step. apply wp_fbl_set; [done|]. wp_step. apply wp_arr_set; [done|].
  apply wp_on_cpu_enable. simpl. by rewrite leave_enter.
Qed.

(** Asked for the wrong order, the deletion only prints. *)
Lemma wp_buddy_delete_wrong i k v (Q : unit → mem → Prop) :
  arr (bs s) !! i = Some v → v ≠ k →
  Q tt (set_cpu (say_err ("Node not found" +:+ crlf) (m_cpu s)) s) →
  wp (buddy_delete_free_block i k) Q s.
Proof.
  intros Hi Hv HQ. unfold buddy_delete_free_block. wp_step. apply wp_on_cpu_disable.
  wp_step. apply (wp_arr_get _ v); [done|]. apply Z.eqb_neq in Hv. rewrite Hv. simpl.
  wp_step. apply wp_on_cpu_enable, wp_on_cpu_err. simpl. rewrite leave_enter by done.
  by destruct s.
Qed.

End Run.

Lemma set_bs_set_bs b b' s : set_bs b (set_bs b' s) = set_bs b s.
Proof. by destruct s. Qed.
Lemma bs_set_bs b s : bs (set_bs b s) = b.
Proof. done. Qed.
Lemma m_cpu_set_bs b s : m_cpu (set_bs b s) = m_cpu s.
Proof. done. Qed.
Lemma set_cpu_set_bs c b s : set_cpu c (set_bs b s) = set_bs b (set_cpu c s).
Proof. done. Qed.
Lemma set_cpu_set_cpu c c' s : set_cpu c (set_cpu c' s) = set_cpu c s.
Proof. done. Qed.
#[export] Hint Rewrite set_bs_set_bs bs_set_bs m_cpu_set_bs set_cpu_set_bs set_cpu_set_cpu
  set_cpu_id set_bs_id : kernel.
