(* ===== verification/BuddyTiling.v ===== *)
(** * The block structure stored in [buddy_data.arr]

    [arr] encodes a partition of the pages into aligned blocks of 2^k pages,
    each free or used: the comment in mem.c above [buddy_data] says how.
    [tiling n a] states that the array is such a partition; the lemmas show
    that changing a block's status, splitting a block and joining two buddies
    preserve it, and what happens to each page. *)

From S2P Require Import Prelude Buddy.

Inductive status := Free | Used.
#[export] Instance status_eq_dec : EqDecision status.
Proof. solve_decision. Defined.

Definition enc (st : status) (k : Z) : Z :=
  match st with Free => k | Used => neg_exp k end.

(** A block of order [k] and status [st] starts at page [i]. *)
Definition blk (n : Z) (a : gmap Z Z) (i : Z) (st : status) (k : Z) : Prop :=
  a !! i = Some (enc st k) ∧ 0 ≤ k ≤ n.

Record tiling (n : Z) (a : gmap Z Z) : Prop := mk_tiling {
  til_n : 0 ≤ n ≤ 30;
  til_dom i : is_Some (a !! i) ↔ 0 ≤ i < 2 ^ n;
  til_val i v : a !! i = Some v → v ≠ EMPTY → ∃ st k, v = enc st k ∧ 0 ≤ k ≤ n ∧ (2 ^ k | i);
  til_int i st k j : blk n a i st k → i < j < i + 2 ^ k → a !! j = Some EMPTY;
  til_cov j : 0 ≤ j < 2 ^ n → ∃ i st k, blk n a i st k ∧ i ≤ j < i + 2 ^ k;
}.

(** Page [j] lies in a block of status [st]. *)
Definition pstat (n : Z) (a : gmap Z Z) (j : Z) (st : status) : Prop :=
  ∃ i k, blk n a i st k ∧ i ≤ j < i + 2 ^ k.

Definition buddy_of (i k : Z) : Z := if Z.rem i (2 ^ (k + 1)) =? 0 then i + 2 ^ k else i - 2 ^ k.

(** No two buddies are both free: free memory is maximally merged. *)
Definition coalesced (n : Z) (a : gmap Z Z) : Prop :=
  ∀ i k, k < n → blk n a i Free k → ¬ blk n a (buddy_of i k) Free k.

(** ** Encoding *)

Lemma enc_range st k : 0 ≤ k ≤ 30 → - INT_MAX ≤ enc st k ≤ 30.
Proof.
  intros. destruct st; simpl; unfold neg_exp, NEG_ZERO, INT_MAX; [lia|].
  destruct (Z.eqb_spec k 0); lia.
Qed.

Lemma enc_not_EMPTY st k : 0 ≤ k ≤ 30 → enc st k ≠ EMPTY.
Proof. intros H. pose proof (enc_range st k H). unfold EMPTY, INT_MAX. lia. Qed.

Lemma enc_inj st k st' k' :
  0 ≤ k ≤ 30 → 0 ≤ k' ≤ 30 → enc st k = enc st' k' → st = st' ∧ k = k'.
Proof.
  intros. destruct st, st'; simpl in *; unfold neg_exp, NEG_ZERO, INT_MAX in *;
    destruct (Z.eqb_spec k 0), (Z.eqb_spec k' 0); (split; [done|lia]) || lia.
Qed.

Lemma enc_Used_neg k : 0 ≤ k → enc Used k < 0.
Proof. intros. simpl. unfold neg_exp, NEG_ZERO, INT_MAX. destruct (Z.eqb_spec k 0); lia. Qed.

(** How buddy_free reads the order of a used block back. *)
Lemma enc_Used_decode k :
  0 ≤ k ≤ 30 → (if enc Used k =? NEG_ZERO then 0 else - enc Used k) = k.
Proof.
  intros. simpl. unfold neg_exp. destruct (Z.eqb_spec k 0) as [->|]; [done|].
  destruct (Z.eqb_spec (- k) NEG_ZERO) as [E|]; [unfold NEG_ZERO, INT_MAX in E|]; lia.
Qed.

(** ** Facts of a tiling *)

Section Tiling.
Context (n : Z) (a : gmap Z Z) (Ht : tiling n a).

Lemma til_n30 k : 0 ≤ k ≤ n → 0 ≤ k ≤ 30.
Proof. pose proof (til_n _ _ Ht). lia. Qed.

Lemma blk_inj i st k st' k' : blk n a i st k → blk n a i st' k' → st = st' ∧ k = k'.
Proof.
  intros [H1 ?] [H2 ?]. apply enc_inj; [by apply til_n30..|]. congruence.
Qed.

Lemma blk_not_EMPTY i st k : blk n a i st k → a !! i ≠ Some EMPTY.
Proof. intros [-> Hk] [= He]. by eapply enc_not_EMPTY; [apply til_n30|]. Qed.

Lemma blk_aligned i st k : blk n a i st k → (2 ^ k | i).
Proof.
  intros Hb. pose proof Hb as [H ?].
  destruct (til_val _ _ Ht _ _ H) as (st' & k' & He & ? & ?); [by apply enc_not_EMPTY, til_n30|].
  apply enc_inj in He as [_ ->]; [done|by apply til_n30..].
Qed.

Lemma blk_range i st k : blk n a i st k → 0 ≤ i ∧ i + 2 ^ k ≤ 2 ^ n.
Proof.
  intros Hb. pose proof Hb as [H Hk]. assert (0 ≤ i < 2 ^ n) as Hi.
  { apply (til_dom _ _ Ht). by rewrite H. }
  split; [lia|]. destruct (Z.le_gt_cases (i + 2 ^ k) (2 ^ n)); [done|].
  exfalso. apply (aligned_interior i (2 ^ n) (2 ^ k)); [apply pow2_pos; lia| | |lia].
  - by eapply blk_aligned.
  - by apply pow2_divide.
Qed.

Lemma blk_overlap i st k i' st' k' j :
  blk n a i st k → blk n a i' st' k' → i ≤ j < i + 2 ^ k → i' ≤ j < i' + 2 ^ k' → i = i'.
Proof.
  intros Hb Hb' ? ?. destruct (Z.lt_trichotomy i i') as [|[|]]; [|done|]; exfalso.
  - eapply blk_not_EMPTY; [exact Hb'|]. apply (til_int _ _ Ht i st k); [done|lia].
  - eapply blk_not_EMPTY; [exact Hb|]. apply (til_int _ _ Ht i' st' k'); [done|lia].
Qed.

Lemma blk_other_interior i st k i' st' k' j :
  blk n a i st k → blk n a i' st' k' → i ≠ i' → i ≤ j < i + 2 ^ k → i' < j < i' + 2 ^ k' → False.
Proof. intros ? ? Hne ? ?. apply Hne, (blk_overlap i st k i' st' k' j); [done..|lia]. Qed.

Lemma pstat_cov j : 0 ≤ j < 2 ^ n → pstat n a j Free ∨ pstat n a j Used.
Proof.
  intros (i & st & k & Hb & ?)%(til_cov _ _ Ht). destruct st; [left|right]; by exists i, k.
Qed.

Lemma pstat_fun j st st' : pstat n a j st → pstat n a j st' → st = st'.
Proof.
  intros (i & k & Hb & ?) (i' & k' & Hb' & ?).
  assert (i = i') as <- by by eapply (blk_overlap i st k i' st' k' j).
  by eapply blk_inj.
Qed.

Lemma pstat_blk i st k j st' :
  blk n a i st k → i ≤ j < i + 2 ^ k → pstat n a j st' ↔ st' = st.
Proof.
  intros Hb Hj. split.
  - intros Hp. eapply pstat_fun; [exact Hp|by exists i, k].
  - intros ->. by exists i, k.
Qed.

Lemma til_head i v : a !! i = Some v → v ≠ EMPTY → ∃ st k, v = enc st k ∧ blk n a i st k.
Proof.
  intros Hi Hv. destruct (til_val _ _ Ht i v Hi Hv) as (st & k & -> & ? & ?). by exists st, k.
Qed.

End Tiling.

(** ** Buddies *)

Lemma buddy_of_spec n i k :
  0 ≤ k < n → 0 ≤ i < 2 ^ n → (2 ^ k | i) →
  let m := Z.min i (buddy_of i k) in
  (2 ^ (k + 1) | m) ∧ 0 ≤ m ∧ m + 2 ^ (k + 1) ≤ 2 ^ n ∧
  ((i = m ∧ buddy_of i k = m + 2 ^ k) ∨ (i = m + 2 ^ k ∧ buddy_of i k = m)).
Proof.
  intros Hk Hi [c ->]. pose proof (pow2_pos k). pose proof (pow2_succ k) as Hs.
  assert (Hfit : ∀ m, 0 ≤ m < 2 ^ n → (2 ^ (k + 1) | m) → m + 2 ^ (k + 1) ≤ 2 ^ n).
  { intros m ? ?. destruct (Z.le_gt_cases (m + 2 ^ (k + 1)) (2 ^ n)); [done|]. exfalso.
    apply (aligned_interior m (2 ^ n) (2 ^ (k + 1))); [lia|done|apply pow2_divide; lia|lia]. }
  unfold buddy_of. rewrite Z.rem_mod_nonneg by lia.
  destruct (Z.eqb_spec ((c * 2 ^ k) mod 2 ^ (k + 1)) 0) as [He|He].
  - apply mod0_divide in He; [|lia]. rewrite Z.min_l by lia.
    split_and!; [done|lia|by apply Hfit|by left].
  - assert (2 ^ (k + 1) | c * 2 ^ k - 2 ^ k) as Hd.
    { destruct (Z.Even_or_Odd c) as [[d ->]|[d ->]].
      - destruct He. apply mod0_divide; [lia|]. exists d. lia.
      - exists d. lia. }
    assert (0 ≤ c * 2 ^ k - 2 ^ k).
    { destruct (decide (c = 0)) as [->|]; [by rewrite Z.mod_0_l in He by lia|]. nia. }
    rewrite Z.min_r by lia. split_and!; [done|lia|apply Hfit; [lia|done]|right; lia].
Qed.

(** ** The three ways the code rewrites blocks *)

Definition retag (i : Z) (st : status) (k : Z) (a : gmap Z Z) : gmap Z Z := <[i := enc st k]> a.
Definition split_blk (i : Z) (st1 st2 : status) (k : Z) (a : gmap Z Z) : gmap Z Z :=
  <[i + 2 ^ k := enc st2 k]> (<[i := enc st1 k]> a).
Definition join_blk (i : Z) (st : status) (k : Z) (a : gmap Z Z) : gmap Z Z :=
  <[i + 2 ^ k := EMPTY]> (<[i := enc st (k + 1)]> a).

Section Rewrites.
Context (n : Z) (a : gmap Z Z) (Ht : tiling n a).

Lemma insert_dom i v : is_Some (a !! i) → ∀ j, is_Some (<[i := v]> a !! j) ↔ 0 ≤ j < 2 ^ n.
Proof.
  intros Hi j. rewrite lookup_insert_is_Some', (til_dom _ _ Ht j). split; [|tauto].
  intros [<-|?]; [by apply (til_dom _ _ Ht)|done].
Qed.

Lemma blk_retag i st k st' i' st1 k1 :
  blk n a i st k →
  blk n (retag i st' k a) i' st1 k1 ↔
    (i' = i ∧ st1 = st' ∧ k1 = k) ∨ (i' ≠ i ∧ blk n a i' st1 k1).
Proof.
  intros [Hi Hk]. unfold blk, retag. destruct (decide (i' = i)) as [->|Hne].
  - rewrite lookup_insert_eq. split.
    + intros [[= He] Hk1]. left. apply enc_inj in He as [-> ->]; [done|..]; by eapply til_n30.
    + intros [(_ & -> & ->)|[? _]]; done.
  - rewrite lookup_insert_ne by done. split; [intros ?; by right|].
    intros [(-> & _)|[_ ?]]; done.
Qed.

Lemma tiling_retag i st k st' : blk n a i st k → tiling n (retag i st' k a).
Proof.
  intros Hb. pose proof Hb as [Hi Hk]. split.
  - apply Ht.
  - apply insert_dom. by rewrite Hi.
  - intros j v. unfold retag. rewrite lookup_insert. case_decide; [|apply Ht].
    subst j. intros [= <-] _. exists st', k. split_and!; [done|lia..|by eapply blk_aligned].
  - intros i' st1 k1 j Hb' Hj. apply (blk_retag i st) in Hb'; [|done].
    unfold retag. assert (a !! j = Some EMPTY) as Hje.
    { destruct Hb' as [(-> & -> & ->)|[? ?]]; [by apply (til_int _ _ Ht i st k)|].
      by apply (til_int _ _ Ht i' st1 k1). }
    rewrite lookup_insert_ne; [done|]. intros <-. by eapply blk_not_EMPTY.
  - intros j Hj. destruct (til_cov _ _ Ht j Hj) as (i' & st1 & k1 & Hb' & ?).
    destruct (decide (i' = i)) as [->|].
    + destruct (blk_inj _ _ Ht _ _ _ _ _ Hb Hb') as [<- <-].
      exists i, st', k. split; [|done]. apply (blk_retag i st); [done|]. by left.
    + exists i', st1, k1. split; [|done]. apply (blk_retag i st); [done|]. by right.
Qed.

Lemma pstat_retag i st k st' j s :
  blk n a i st k →
  pstat n (retag i st' k a) j s ↔
    (i ≤ j < i + 2 ^ k ∧ s = st') ∨ (¬ i ≤ j < i + 2 ^ k ∧ pstat n a j s).
Proof.
  intros Hb. split.
  - intros (i' & k' & Hb' & Hj). rewrite (blk_retag i st) in Hb' by done.
    destruct Hb' as [(-> & -> & ->)|[Hne Hb']].
    + by left.
    + right. split; [|by exists i', k']. intros ?.
      by apply Hne, eq_sym, (blk_overlap n a Ht i st k i' s k' j).
  - intros [[? ->]|[Hout (i' & k' & Hb' & Hj)]].
    + exists i, k. split; [|done]. apply (blk_retag i st); [done|]. by left.
    + exists i', k'. split; [|done]. apply (blk_retag i st); [done|]. right. split; [|done].
      intros ->. by destruct (blk_inj _ _ Ht _ _ _ _ _ Hb Hb') as [_ <-].
Qed.

(** *** Splitting a block of order [k + 1] into its halves *)

Lemma split_mid i st k : 0 ≤ k → blk n a i st (k + 1) → a !! (i + 2 ^ k) = Some EMPTY.
Proof.
  intros Hk Hb. apply (til_int _ _ Ht i st (k + 1)); [done|].
  rewrite pow2_succ by done. pose proof (pow2_pos k Hk). lia.
Qed.

Lemma blk_split i st k st1 st2 i' s' k' :
  0 ≤ k → blk n a i st (k + 1) →
  blk n (split_blk i st1 st2 k a) i' s' k' ↔
    (i' = i ∧ s' = st1 ∧ k' = k) ∨ (i' = i + 2 ^ k ∧ s' = st2 ∧ k' = k) ∨
    (i' ≠ i ∧ i' ≠ i + 2 ^ k ∧ blk n a i' s' k').
Proof.
  intros Hk [Hi Hkn]. pose proof (pow2_pos k Hk). unfold blk, split_blk.
  destruct (decide (i' = i + 2 ^ k)) as [->|Hh]; [|destruct (decide (i' = i)) as [->|Hne]].
  - rewrite lookup_insert_eq. split.
    + intros [[= He] ?]. right; left. apply enc_inj in He as [-> ->]; [done|..];
        eapply (til_n30 _ _ Ht); lia.
    + intros [(? & _)|[(_ & -> & ->)|(_ & [] & _)]]; [lia|split; [done|lia]|done].
  - rewrite lookup_insert_ne, lookup_insert_eq by lia. split.
    + intros [[= He] ?]. left. apply enc_inj in He as [-> ->]; [done|..];
        eapply (til_n30 _ _ Ht); lia.
    + intros [(_ & -> & ->)|[(? & _)|([] & _)]]; [split; [done|lia]|lia|done].
  - rewrite !lookup_insert_ne by done. naive_solver.
Qed.

Lemma tiling_split i st k st1 st2 :
  0 ≤ k → blk n a i st (k + 1) → tiling n (split_blk i st1 st2 k a).
Proof.
  intros Hk Hb. pose proof Hb as [Hi Hkn]. pose proof (pow2_pos k Hk) as Hp.
  pose proof (split_mid i st k Hk Hb) as Hmid. pose proof (pow2_succ k Hk) as Hsucc.
  assert ((2 ^ k | i)) as Hal.
  { eapply Z.divide_trans; [apply (pow2_divide k (k + 1)); lia|by eapply blk_aligned]. }
  split.
  - apply Ht.
  - intros j. unfold split_blk. rewrite !lookup_insert_is_Some', (til_dom _ _ Ht j).
    split; [|tauto]. intros [<-|[<-|?]]; [| |done]; apply (til_dom _ _ Ht); eauto.
  - intros j v. unfold split_blk. rewrite !lookup_insert.
    case_decide; [|case_decide; [|apply Ht]]; intros [= <-] _; subst; eexists _, k;
      (split_and!; [done|lia..|]); [|done].
    apply Z.divide_add_r; [done|apply Z.divide_refl].
  - intros i' s' k' j Hb' Hj. rewrite (blk_split i st) in Hb' by done.
    assert (a !! j = Some EMPTY ∧ j ≠ i + 2 ^ k) as [Hje Hjh].
    { destruct Hb' as [(-> & -> & ->)|[(-> & -> & ->)|(Hne & Hneh & Hb')]].
      - split; [|lia]. apply (til_int _ _ Ht i st (k + 1)); [done|lia].
      - split; [|lia]. apply (til_int _ _ Ht i st (k + 1)); [done|lia].
      - split; [by apply (til_int _ _ Ht i' s' k')|]. intros ->.
        eapply (blk_other_interior _ _ Ht i st (k + 1) i' s' k' (i + 2 ^ k)); [done..|lia|done]. }
    unfold split_blk. rewrite !lookup_insert_ne; [done| |done].
    intros <-. by eapply blk_not_EMPTY.
  - intros j Hj. destruct (til_cov _ _ Ht j Hj) as (i' & s' & k' & Hb' & Hj').
    destruct (decide (i' = i)) as [->|].
    + destruct (blk_inj _ _ Ht _ _ _ _ _ Hb Hb') as [<- <-].
      destruct (Z.lt_ge_cases j (i + 2 ^ k)).
      * exists i, st1, k. split; [|lia]. apply (blk_split i st); [done..|]. by left.
      * exists (i + 2 ^ k), st2, k. split; [|lia]. apply (blk_split i st); [done..|]. by right; left.
    + exists i', s', k'. split; [|done]. apply (blk_split i st); [done..|]. right; right.
      split_and!; [done| |done]. intros ->. by eapply blk_not_EMPTY.
Qed.

Lemma pstat_split i st k st1 st2 j s' :
  0 ≤ k → blk n a i st (k + 1) →
  pstat n (split_blk i st1 st2 k a) j s' ↔
    (i ≤ j < i + 2 ^ k ∧ s' = st1) ∨ (i + 2 ^ k ≤ j < i + 2 ^ (k + 1) ∧ s' = st2) ∨
    (¬ i ≤ j < i + 2 ^ (k + 1) ∧ pstat n a j s').
Proof.
  intros Hk Hb. pose proof (tiling_split i st k st1 st2 Hk Hb) as Ht'.
  pose proof (pow2_succ k Hk) as Hsucc. pose proof (pow2_pos k Hk).
  assert (B1 : blk n (split_blk i st1 st2 k a) i st1 k) by (apply (blk_split i st); auto).
  assert (B2 : blk n (split_blk i st1 st2 k a) (i + 2 ^ k) st2 k) by (apply (blk_split i st); auto).
  destruct (decide (i ≤ j < i + 2 ^ k)) as [H1|H1].
  { rewrite (pstat_blk _ _ Ht' _ _ _ j s' B1 H1). naive_solver lia. }
  destruct (decide (i + 2 ^ k ≤ j < i + 2 ^ (k + 1))) as [H2|H2].
  { rewrite (pstat_blk _ _ Ht' _ _ _ j s' B2) by lia. naive_solver lia. }
  assert (¬ i ≤ j < i + 2 ^ (k + 1)) as H3 by lia. split.
  - intros (i' & k' & Hb' & Hj). right; right. split; [done|].
    rewrite (blk_split i st) in Hb' by done.
    destruct Hb' as [(-> & -> & ->)|[(-> & -> & ->)|(_ & _ & Hb')]]; [lia..|by exists i', k'].
  - intros [[? _]|[[? _]|[_ (i' & k' & Hb' & Hj)]]]; [done..|]. exists i', k'. split; [|done].
    apply (blk_split i st); [done..|]. right; right. split_and!; [| |done]; intros ->.
    + destruct (blk_inj _ _ Ht _ _ _ _ _ Hb Hb') as [_ <-]. lia.
    + by eapply blk_not_EMPTY; [..|apply (split_mid i st)].
Qed.

(** *** Joining two buddies of order [k] *)

Lemma blk_join i s1 s2 k st i' s' k' :
  0 ≤ k < n → blk n a i s1 k → blk n a (i + 2 ^ k) s2 k →
  blk n (join_blk i st k a) i' s' k' ↔
    (i' = i ∧ s' = st ∧ k' = k + 1) ∨ (i' ≠ i ∧ i' ≠ i + 2 ^ k ∧ blk n a i' s' k').
Proof.
  intros Hk [Hi _] [Hh _]. pose proof (pow2_pos k). unfold blk, join_blk.
  destruct (decide (i' = i + 2 ^ k)) as [->|Hne1]; [|destruct (decide (i' = i)) as [->|Hne]].
  - rewrite lookup_insert_eq. split; [|intros [(? & _)|(_ & [] & _)]; [lia|done]].
    intros [[= He] Hk']. exfalso. symmetry in He. revert He. apply enc_not_EMPTY.
    by eapply til_n30.
  - rewrite lookup_insert_ne, lookup_insert_eq by lia. split.
    + intros [[= He] ?]. left. apply enc_inj in He as [-> ->]; [done|..];
        eapply (til_n30 _ _ Ht); lia.
    + intros [(_ & -> & ->)|([] & _)]; [split; [done|lia]|done].
  - rewrite !lookup_insert_ne by done. naive_solver.
Qed.

Lemma tiling_join i s1 s2 k st :
  0 ≤ k < n → (2 ^ (k + 1) | i) → blk n a i s1 k → blk n a (i + 2 ^ k) s2 k →
  tiling n (join_blk i st k a).
Proof.
  intros Hk Hal Hb1 Hb2. pose proof Hb1 as [Hi _]. pose proof Hb2 as [Hh _].
  pose proof (pow2_pos k). pose proof (pow2_succ k) as Hsucc. split.
  - apply Ht.
  - intros j. unfold join_blk. rewrite !lookup_insert_is_Some', (til_dom _ _ Ht j).
    split; [|tauto]. intros [<-|[<-|?]]; [| |done]; apply (til_dom _ _ Ht); eauto.
  - intros j v. unfold join_blk. rewrite !lookup_insert.
    case_decide; [|case_decide; [|apply Ht]]; intros [= <-] ?; [done|].
    subst. exists st, (k + 1). split_and!; [done|lia..|done].
  - intros i' s' k' j Hb' Hj. rewrite (blk_join i s1 s2) in Hb' by done. unfold join_blk.
    destruct (decide (j = i + 2 ^ k)) as [->|Hjh]; [by rewrite lookup_insert_eq|].
    assert (a !! j = Some EMPTY) as Hje.
    { destruct Hb' as [(-> & -> & ->)|(_ & _ & Hb')]; [|by apply (til_int _ _ Ht i' s' k')].
      destruct (Z.lt_ge_cases j (i + 2 ^ k)).
      - apply (til_int _ _ Ht i s1 k); [done|lia].
      - apply (til_int _ _ Ht (i + 2 ^ k) s2 k); [done|lia]. }
    rewrite !lookup_insert_ne; [done| |done]. intros <-. by apply (blk_not_EMPTY _ _ Ht i s1 k).
  - intros j Hj. destruct (til_cov _ _ Ht j Hj) as (i' & s' & k' & Hb' & Hj').
    destruct (decide (i ≤ j < i + 2 ^ (k + 1))).
    + exists i, st, (k + 1). split; [|done]. apply (blk_join i s1 s2); [done..|]. by left.
    + exists i', s', k'. split; [|done]. apply (blk_join i s1 s2); [done..|]. right.
      split_and!; [| |done]; intros ->.
      * destruct (blk_inj _ _ Ht _ _ _ _ _ Hb1 Hb') as [_ <-]. lia.
      * destruct (blk_inj _ _ Ht _ _ _ _ _ Hb2 Hb') as [_ <-]. lia.
Qed.

Lemma pstat_join i s1 s2 k st j s' :
  0 ≤ k < n → (2 ^ (k + 1) | i) → blk n a i s1 k → blk n a (i + 2 ^ k) s2 k →
  pstat n (join_blk i st k a) j s' ↔
    (i ≤ j < i + 2 ^ (k + 1) ∧ s' = st) ∨ (¬ i ≤ j < i + 2 ^ (k + 1) ∧ pstat n a j s').
Proof.
  intros Hk Hal Hb1 Hb2. pose proof (tiling_join i s1 s2 k st Hk Hal Hb1 Hb2) as Ht'.
  pose proof (pow2_succ k) as Hsucc. pose proof (pow2_pos k).
  assert (B : blk n (join_blk i st k a) i st (k + 1)) by (apply (blk_join i s1 s2); [done..|by left]).
  destruct (decide (i ≤ j < i + 2 ^ (k + 1))) as [H1|H1].
  { rewrite (pstat_blk _ _ Ht' _ _ _ j s' B H1). naive_solver. }
  split.
  - intros (i' & k' & Hb' & Hj). right. split; [done|].
    rewrite (blk_join i s1 s2) in Hb' by done.
    destruct Hb' as [(-> & -> & ->)|(_ & _ & Hb')]; [done|by exists i', k'].
  - intros [[? _]|[_ (i' & k' & Hb' & Hj)]]; [done|]. exists i', k'. split; [|done].
    apply (blk_join i s1 s2); [done..|]. right. split_and!; [| |done]; intros ->.
    + destruct (blk_inj _ _ Ht _ _ _ _ _ Hb1 Hb') as [_ <-]. lia.
    + destruct (blk_inj _ _ Ht _ _ _ _ _ Hb2 Hb') as [_ <-]. lia.
Qed.

End Rewrites.
