(* ===== verification/BuddyAlloc.v ===== *)
(** * buddy_malloc and buddy_free against an abstract allocator

    The abstract allocator works on the block array and on one sequence of
    free blocks per order ([asys]).  Its operations [a_malloc] and [a_free]
    say which block is taken, how it is cut and how freed blocks are merged,
    with no pointers, no interrupt masking and no sentinel values.  The
    refinement lemmas show that the translated C code computes them. *)

From S2P Require Import Prelude Cpu Dll Buddy BuddyRep BuddyTiling.

(** ** The abstract allocator *)

Record asys := mk_asys {
  a_arr : gmap Z Z;
  a_fl : Z → list Z;
}.

Fixpoint a_cut (idx : Z) (k : nat) (req : Z) (x : asys) : asys :=
  match k with
  | O => x
  | S k' =>
      if 2 ^ Z.of_nat k' <? req then x
      else a_cut idx k' req
             (mk_asys (split_blk idx Used Free (Z.of_nat k') (a_arr x))
                (fl_insert (Z.of_nat k') (idx + 2 ^ Z.of_nat k') (a_fl x)))
  end.

Fixpoint a_search (fuel : nat) (n j req : Z) (fl : Z → list Z) : option Z :=
  match fuel with
  | O => None
  | S fuel' =>
      if (2 ^ j <? req) || bool_decide (fl j = []) then
        (if n <? j + 1 then None else a_search fuel' n (j + 1) req fl)
      else Some j
  end.

(** Takes the first block of the smallest order that has one. *)
Definition a_malloc (n req : Z) (x : asys) : option (Z * asys) :=
  match a_search (Z.to_nat (n + 1)) n 0 req (a_fl x) with
  | None => None
  | Some k =>
      match a_fl x k with
      | [] => None
      | idx :: _ =>
          Some (idx, a_cut idx (Z.to_nat k) req
            (mk_asys (retag idx Used k (a_arr x)) (fl_delete k idx (a_fl x))))
      end
  end.

Fixpoint a_merge (fuel : nat) (n idx k : Z) (x : asys) : asys :=
  match fuel with
  | O => x
  | S fuel' =>
      if k =? n then x
      else
        let bud := buddy_of idx k in
        if bool_decide (a_arr x !! bud = Some k) then
          let small := Z.min idx bud in
          a_merge fuel' n small (k + 1)
            (mk_asys (join_blk small Free k (a_arr x))
               (fl_insert (k + 1) small (fl_delete k bud (fl_delete k idx (a_fl x)))))
        else x
  end.

Definition a_free (n idx k : Z) (x : asys) : asys :=
  a_merge (Z.to_nat (n - k + 1)) n idx k
    (mk_asys (retag idx Free k (a_arr x)) (fl_insert k idx (a_fl x))).

(** ** The invariant of the concrete state *)

Record buddy_wf (s : mem) (fl : Z → list Z) : Prop := mk_wf {
  wf_cpu : cpu_ok (m_cpu s);
  wf_rep : rep (num_pages_exp s) (bs s) fl;
  wf_til : tiling (num_pages_exp s) (arr (bs s));
  wf_end : bend s = 2 ^ num_pages_exp s * PAGE_SIZE;
}.

Definition buddy_inv (s : mem) : Prop := ∃ fl, buddy_wf s fl.

(** The concrete state with the abstract one it represents. *)
Definition refines (n : Z) (b : bstruct) (x : asys) : Prop :=
  arr b = a_arr x ∧ rep n b (a_fl x).

(** ** Refinement: cutting *)

Section Refine.
Context (n : Z).

Lemma u32_shl1 k : 0 ≤ k < 31 → u32 (shl1 k) = 2 ^ k.
Proof.
  intros. rewrite shl1_pow by done. unfold u32. apply Z.mod_small.
  pose proof (pow2_pos k). pose proof (pow2_lt k 31). lia.
Qed.

Lemma blk_not_free b i k : tiling n (arr b) → blk n (arr b) i Used k → not_free n b i.
Proof.
  intros Ht [Hi Hk] k' Hk' Hi'. pose proof (enc_Used_neg k). simplify_eq. lia.
Qed.

Lemma EMPTY_not_free b i : 0 ≤ n ≤ 30 → arr b !! i = Some EMPTY → not_free n b i.
Proof. intros Hn Hi k Hk Hi'. simplify_eq. unfold EMPTY, INT_MAX in *. lia. Qed.

Lemma blk_idx_range a i st k : tiling n a → blk n a i st k → 0 ≤ i < 2 ^ n.
Proof. intros Ht [Hi _]. apply (til_dom _ _ Ht). by rewrite Hi. Qed.

Lemma neg_exp_succ k : neg_exp (Z.of_nat (S k)) + 1 = - Z.of_nat k.
Proof. unfold neg_exp. destruct (Z.eqb_spec (Z.of_nat (S k)) 0); lia. Qed.

Lemma wp_cut k : ∀ idx req s x (Q : unit → mem → Prop),
  cpu_ok (m_cpu s) → refines n (bs s) x → tiling n (a_arr x) →
  blk n (a_arr x) idx Used (Z.of_nat k) →
  (∀ b', refines n b' (a_cut idx k req x) → Q tt (set_bs b' s)) →
  wp (buddy_cut_block idx k req) Q s.
Proof.
  induction k as [|k IH]; intros idx req s x Q Hc [Ha Hr] Ht Hb HQ.
  - simpl. wp_step. apply wp_on_cpu_disable, wp_on_cpu_enable. simpl.
    rewrite leave_enter by done. destruct s; by apply (HQ _ (conj Ha Hr)).
  - pose proof (til_n _ _ Ht) as Hn. pose proof Hb as [Hi Hkn].
    cbn [buddy_cut_block]. wp_step. apply wp_on_cpu_disable.
    rewrite u32_shl1, shl1_pow by lia. cbn [a_cut] in HQ.
    destruct (Z.ltb_spec (2 ^ Z.of_nat k) req).
    { apply wp_on_cpu_enable. simpl. rewrite leave_enter by done.
      destruct s; by apply (HQ _ (conj Ha Hr)). }
    replace (Z.of_nat (S k)) with (Z.of_nat k + 1) in Hb by lia.
    assert (Hmid : a_arr x !! (idx + 2 ^ Z.of_nat k) = Some EMPTY)
      by (eapply split_mid; [done|lia|done]).
    assert (Hne : idx ≠ idx + 2 ^ Z.of_nat k) by (pose proof (pow2_pos (Z.of_nat k)); lia).
    assert (Hr1 : rep n (set_arr (<[idx := neg_exp (Z.of_nat k)]> (arr (bs s))) (bs s)) (a_fl x)).
    { apply rep_set_arr; [done| | |].
      - eapply blk_not_free; rewrite Ha; [done|exact Hb].
      - by rewrite Ha, Hi.
      - intros k' Hk'. pose proof (neg_exp_neg (Z.of_nat k)). lia. }
    wp_step. apply (wp_arr_get _ (neg_exp (Z.of_nat (S k)))); [simpl; by rewrite Ha|].
    rewrite neg_exp_succ.
    wp_step. apply wp_arr_set; [simpl; by rewrite Ha, Hi|].
    wp_step.
    apply (wp_mono _ (λ _ s', s' = set_bs (set_arr (<[idx := neg_exp (Z.of_nat k)]> (arr (bs s)))
                                            (bs s)) (set_cpu (enter (m_cpu s)) s))).
    { unfold neg_exp. destruct (Z.eqb_spec (- Z.of_nat k) 0), (Z.eqb_spec (Z.of_nat k) 0); try lia;
        [|done]. apply wp_arr_set; [simpl; by rewrite lookup_insert_eq|].
      simpl. unfold set_arr. simpl. by rewrite insert_insert_eq. }
    intros ? ? ->. wp_step.
    eapply (wp_buddy_insert n _ (a_fl x)); [by apply enter_ok|exact Hr1|lia| | |].
    { apply (til_dom _ _ Ht). by rewrite Hmid. }
    { apply EMPTY_not_free; [done|]. simpl. by rewrite lookup_insert_ne, Ha. }
    intros b' Hab' Hr'. wp_step.
    apply (IH idx req _ (mk_asys (split_blk idx Used Free (Z.of_nat k) (a_arr x))
             (fl_insert (Z.of_nat k) (idx + 2 ^ Z.of_nat k) (a_fl x)))).
    + by apply enter_ok.
    + split; [|done]. simpl in *. by rewrite Hab', Ha.
    + eapply tiling_split; [done|lia|done].
    + simpl. eapply blk_split; [done|lia|done|]. by left.
    + intros b'' Hb''. apply wp_on_cpu_enable. simpl. rewrite leave_enter by done. by apply HQ.
Qed.

(** ** Refinement: the search and buddy_malloc *)

Lemma wp_list_empty s fl k (Q : bool → mem → Prop) :
  rep n (bs s) fl → 0 ≤ k ≤ n → Q (bool_decide (fl k = [])) s → wp (buddy_list_empty k) Q s.
Proof.
  intros Hr Hk HQ. destruct (rep_list _ _ _ Hr k Hk) as (h & q & Hf & Hd).
  unfold buddy_list_empty. wp_step. apply (wp_fbl_get _ h); [done|]. apply wp_ret.
  apply dseg_head in Hd. by destruct (fl k); subst h.
Qed.

Lemma wp_search fuel : ∀ j req s fl (Q : option Z → mem → Prop),
  rep n (bs s) fl → num_pages_exp s = n → 0 ≤ j → Z.of_nat fuel = n + 1 - j → (0 < fuel)%nat →
  Q (a_search fuel n j req fl) s → wp (buddy_search fuel j req) Q s.
Proof.
  induction fuel as [|fuel IH]; intros j req s fl Q Hr Hn Hj Hfuel Hpos HQ; [lia|].
  pose proof (rep_exp _ _ _ Hr). cbn [buddy_search a_search] in *. wp_step. apply wp_ret.
  rewrite u32_shl1 by lia. wp_step.
  apply (wp_mono _ (λ e s', s' = s ∧ e = (2 ^ j <? req) || bool_decide (fl j = []))).
  { destruct (2 ^ j <? req); [done|]. eapply wp_list_empty; [done|lia|done]. }
  intros e ? [-> ->]. destruct (_ || _); [|by apply wp_ret].
  wp_step. apply wp_gets. rewrite Hn. destruct (Z.ltb_spec n (j + 1)); [by apply wp_ret|].
  eapply IH; eauto; lia.
Qed.

Lemma a_search_Some fuel : ∀ j req fl k,
  Z.of_nat fuel = n + 1 - j → a_search fuel n j req fl = Some k →
  j ≤ k ≤ n ∧ req ≤ 2 ^ k ∧ fl k ≠ [] ∧ ∀ i, j ≤ i < k → 2 ^ i < req ∨ fl i = [].
Proof.
  induction fuel as [|fuel IH]; intros j req fl k Hf; [done|]. simpl.
  destruct (Z.ltb_spec (2 ^ j) req); simpl.
  - destruct (Z.ltb_spec n (j + 1)); [done|]. intros H'%IH; [|lia].
    destruct H' as (? & ? & ? & Hmin). split_and!; [lia..|done|]. intros i ?.
    destruct (decide (i = j)) as [->|]; [by left|]. apply Hmin. lia.
  - case_bool_decide.
    + destruct (Z.ltb_spec n (j + 1)); [done|]. intros H'%IH; [|lia].
      destruct H' as (? & ? & ? & Hmin). split_and!; [lia..|done|]. intros i ?.
      destruct (decide (i = j)) as [->|]; [by right|]. apply Hmin. lia.
    + intros [= <-]. split_and!; [lia..|done|]. intros. lia.
Qed.

Lemma a_search_None fuel : ∀ j req fl,
  Z.of_nat fuel = n + 1 - j → a_search fuel n j req fl = None →
  ∀ i, j ≤ i ≤ n → 2 ^ i < req ∨ fl i = [].
Proof.
  induction fuel as [|fuel IH]; intros j req fl Hf; simpl; [intros; lia|].
  destruct (Z.ltb_spec (2 ^ j) req); simpl; [|case_bool_decide]; [| |done].
  all: intros Hs i Hi; destruct (decide (i = j)) as [->|]; [by auto|].
  all: destruct (Z.ltb_spec n (j + 1)); [lia|]; eapply IH; [|done|]; lia.
Qed.

Lemma wp_malloc req s x (Q : Z → mem → Prop) :
  cpu_ok (m_cpu s) → refines n (bs s) x → tiling n (a_arr x) → num_pages_exp s = n → 0 < req →
  match a_malloc n req x with
  | None => Q 0 (set_cpu (say ("No enough space" +:+ crlf) (m_cpu s)) s)
  | Some (idx, x') => ∀ b', refines n b' x' → Q (u64 (idx * PAGE_SIZE)) (set_bs b' s)
  end →
  wp (buddy_malloc req) Q s.
Proof.
  intros Hc [Ha Hr] Ht Hn Hreq HQ. pose proof (rep_exp _ _ _ Hr) as Hn30.
  unfold buddy_malloc, a_malloc in *. wp_step. apply wp_on_cpu_disable.
  destruct (Z.eqb_spec req 0); [lia|]. wp_step. apply wp_gets. wp_step. cbn [num_pages_exp set_cpu].
  rewrite Hn. eapply wp_search; [done|done|lia..|].
  destruct (a_search _ _ _ _ _) as [k|] eqn:Hs.
  2:{ wp_step. apply wp_on_cpu_enable. wp_step. apply wp_on_cpu_printf, wp_ret. simpl.
      rewrite leave_enter by done. exact HQ. }
  apply a_search_Some in Hs as (Hk & _ & Hne & _); [|lia].
  destruct (rep_list _ _ _ Hr k ltac:(lia)) as (h & q & Hf & Hd).
  pose proof (dseg_head _ _ _ _ _ _ Hd) as Hh. destruct (a_fl x k) as [|idx l] eqn:Hfl; [done|].
  subst h. assert (Hcell : arr (bs s) !! idx = Some k).
  { apply (rep_mem _ _ _ Hr); [lia|]. rewrite Hfl. by left. }
  destruct (rep_node _ _ _ Hr idx) as (nd & Hnd & Hidx).
  { apply (rep_dom _ _ _ Hr). by rewrite Hcell. }
  wp_step. apply (wp_fbl_get _ (Some idx)); [done|]. wp_step. apply (wp_deref _ idx); [done|].
  wp_step. apply (wp_node_get _ nd); [done|]. rewrite Hidx.
  wp_step. eapply (wp_buddy_delete n _ (a_fl x)); [by apply enter_ok|done|lia|done|].
  intros b' Hab' Hr'. wp_step.
  assert (Hb : blk n (a_arr x) idx Free k) by (split; [by rewrite <- Ha|lia]).
  eapply (wp_cut (Z.to_nat k) idx req _
            (mk_asys (retag idx Used k (a_arr x)) (fl_delete k idx (a_fl x)))).
  - by apply enter_ok.
  - split; [|done]. simpl in *. by rewrite Hab', Ha.
  - by eapply tiling_retag.
  - rewrite Z2Nat.id by lia. eapply blk_retag; [done|done|]. by left.
  - intros b'' Hb''. wp_step. apply wp_on_cpu_enable, wp_ret. simpl.
    rewrite leave_enter by done. destruct s. by apply HQ.
Qed.

(** ** Refinement: merging and buddy_free *)

Lemma join_arr (a : gmap Z Z) i bud k m v :
  (i = m ∧ bud = m + 2 ^ k) ∨ (i = m + 2 ^ k ∧ bud = m) → 0 ≤ k →
  <[Z.max i bud := EMPTY]> (<[Z.min i bud := v]> (<[bud := neg_exp k]> (<[i := neg_exp k]> a))) =
  <[m + 2 ^ k := EMPTY]> (<[m := v]> a).
Proof.
  intros Hc Hk. pose proof (pow2_pos k Hk).
  assert (Z.max i bud = m + 2 ^ k ∧ Z.min i bud = m) as [-> ->] by lia.
  apply map_eq. intros j. rewrite !lookup_insert. repeat case_decide; try done; lia.
Qed.

(** The two buddies, lower one first. *)
Lemma buddies a i k :
  tiling n a → 0 ≤ k < n → blk n a i Free k → a !! buddy_of i k = Some k →
  let m := Z.min i (buddy_of i k) in
  (2 ^ (k + 1) | m) ∧ blk n a m Free k ∧ blk n a (m + 2 ^ k) Free k ∧
  m + 2 ^ (k + 1) ≤ 2 ^ n ∧
  ((i = m ∧ buddy_of i k = m + 2 ^ k) ∨ (i = m + 2 ^ k ∧ buddy_of i k = m)).
Proof.
  intros Ht Hk Hb Hbud. assert (Hi : 0 ≤ i < 2 ^ n) by by eapply blk_idx_range.
  destruct (buddy_of_spec n i k Hk Hi) as (Hal & Hm0 & Hm1 & Hcase); [by eapply blk_aligned|].
  assert (Hb' : blk n a (buddy_of i k) Free k) by (split; [done|lia]).
  cbn zeta. set (m := Z.min _ _) in *. split_and!; [done| | |done|done].
  - by destruct Hcase as [[<- _]|[_ <-]].
  - by destruct Hcase as [[_ <-]|[<- _]].
Qed.

(** One merge: both buddies leave their list, their union enters the next. *)
Lemma wp_merge_step i k s x (R : M mem unit) (Q : unit → mem → Prop) :
  cpu_ok (m_cpu s) → refines n (bs s) x → tiling n (a_arr x) → 0 ≤ k < n →
  blk n (a_arr x) i Free k → a_arr x !! buddy_of i k = Some k →
  (∀ b', is_Some (arr b' !! Z.max i (buddy_of i k)) →
     refines n (set_arr (<[Z.max i (buddy_of i k) := EMPTY]> (arr b')) b')
     (mk_asys (join_blk (Z.min i (buddy_of i k)) Free k (a_arr x))
        (fl_insert (k + 1) (Z.min i (buddy_of i k))
           (fl_delete k (buddy_of i k) (fl_delete k i (a_fl x))))) → wp R Q (set_bs b' s)) →
  wp (buddy_delete_free_block i k ;; buddy_delete_free_block (buddy_of i k) k ;;
      buddy_insert_free_block (Z.min i (buddy_of i k)) (k + 1) ;; R) Q s.
Proof.
  intros Hc [Ha Hr] Ht Hk Hb Hbud HQ. pose proof (rep_exp _ _ _ Hr) as Hn.
  destruct (buddies _ i k Ht Hk Hb Hbud) as (Hal & Hbm & _ & Hm1 & Hcase).
  destruct (blk_range _ _ Ht _ _ _ Hbm) as [Hm0 _].
  set (bud := buddy_of i k) in *. set (m := Z.min i bud) in *.
  pose proof (pow2_pos k). pose proof (pow2_succ k). pose proof (neg_exp_neg k).
  wp_step. eapply (wp_buddy_delete n _ (a_fl x)); [done|done|lia|rewrite Ha; apply Hb|].
  intros b1 Ha1 Hr1. wp_step.
  eapply wp_buddy_delete; [done|exact Hr1|lia|simpl; rewrite Ha1, lookup_insert_ne, Ha; [done|lia]|].
  intros b2 Ha2 Hr2. wp_step. simpl in Ha2.
  assert (Hcells : ∀ j, j = i ∨ j = bud → arr b2 !! j = Some (neg_exp k)).
  { intros j Hj. rewrite Ha2, Ha1, !lookup_insert. repeat case_decide; naive_solver. }
  eapply wp_buddy_insert; [done|exact Hr2|lia|lia| |].
  { intros k' Hk'. simpl. rewrite Hcells by lia. intros [=]. lia. }
  intros b3 Ha3 Hr3. simpl in Ha3. autorewrite with kernel.
  assert (Hbig : arr b3 !! Z.max i bud = Some (neg_exp k)).
  { rewrite Ha3, lookup_insert_ne, Hcells by lia. done. }
  apply HQ; [by rewrite Hbig|]. split.
  - simpl. rewrite Ha3, Ha2, Ha1, Ha. by apply join_arr; [|lia].
  - apply rep_set_arr; [done| |by rewrite Hbig|].
    + intros k' Hk'. rewrite Hbig. intros [=]. lia.
    + unfold EMPTY, INT_MAX. intros. lia.
Qed.

Lemma wp_merge fuel : ∀ i k s x (Q : unit → mem → Prop),
  cpu_ok (m_cpu s) → refines n (bs s) x → tiling n (a_arr x) → num_pages_exp s = n →
  blk n (a_arr x) i Free k → Z.of_nat fuel = n - k + 1 →
  (∀ b', refines n b' (a_merge fuel n i k x) → Q tt (set_bs b' s)) →
  wp (buddy_merge_block fuel i k) Q s.
Proof.
  induction fuel as [|fuel IH]; intros i k s x Q Hc [Ha Hr] Ht Hn Hb Hf HQ.
  { destruct Hb as [_ ?]. lia. }
  pose proof (rep_exp _ _ _ Hr). pose proof Hb as [Hi Hk].
  cbn [buddy_merge_block a_merge] in *. wp_step. apply wp_on_cpu_disable.
  wp_step. apply wp_gets. cbn [num_pages_exp set_cpu]. rewrite Hn.
  assert (Hret : Q tt s → wp (on_cpu enable_int) Q (set_cpu (enter (m_cpu s)) s)).
  { intros HQs. apply wp_on_cpu_enable. simpl. rewrite leave_enter by done. by destruct s. }
  destruct (Z.eqb_spec k n) as [->|Hkn].
  { apply Hret. rewrite <- (set_bs_id s). by apply HQ. }
  rewrite !shl1_pow by lia. fold (buddy_of i k).
  assert (Hir : 0 ≤ i < 2 ^ n) by by eapply blk_idx_range.
  destruct (buddy_of_spec n i k ltac:(lia) Hir) as (Hal & Hm0 & Hm1 & Hcase); [by eapply blk_aligned|].
  pose proof (pow2_pos k). pose proof (pow2_succ k).
  assert (is_Some (a_arr x !! buddy_of i k)) as [v Hv] by (apply (til_dom _ _ Ht); lia).
  wp_step. apply (wp_arr_get _ v); [simpl; by rewrite Ha|].
  destruct (Z.eqb_spec v k) as [->|Hvk]; simpl.
  2:{ apply Hret. rewrite bool_decide_false in HQ by congruence.
      rewrite <- (set_bs_id s). by apply HQ. }
  rewrite bool_decide_true in HQ by done.
  destruct (buddies _ i k Ht ltac:(lia) Hb Hv) as (_ & Hbm & Hbh & _).
  apply (wp_merge_step i k _ x); [by apply enter_ok|done|done|lia|done|done|].
  intros b' Hbig Hb'. wp_step. apply wp_arr_set; [done|]. autorewrite with kernel. wp_step.
  eapply IH; [by apply enter_ok|exact Hb'| |done| |lia|].
  - by eapply tiling_join; [|lia|..].
  - eapply blk_join; [done|lia|done|done|]. by left.
  - intros b'' Hb''. apply wp_on_cpu_enable. simpl. rewrite leave_enter by done. by apply HQ.
Qed.

(** buddy_free of a used block's first page. *)
Lemma wp_free i k s x (Q : unit → mem → Prop) :
  cpu_ok (m_cpu s) → refines n (bs s) x → tiling n (a_arr x) → num_pages_exp s = n →
  bend s = 2 ^ n * PAGE_SIZE →
  blk n (a_arr x) i Used k →
  (∀ b', refines n b' (a_free n i k x) → Q tt (set_bs b' s)) →
  wp (buddy_free (i * PAGE_SIZE)) Q s.
Proof.
  intros Hc [Ha Hr] Ht Hn He Hb HQ. pose proof (rep_exp _ _ _ Hr). pose proof Hb as [Hi Hk].
  assert (Hir : 0 ≤ i < 2 ^ n) by by eapply blk_idx_range.
  pose proof (pow2_le n 30) as Hp30.
  unfold buddy_free. wp_step. apply wp_on_cpu_disable. wp_step. apply wp_gets. simpl.
  rewrite He. destruct (Z.leb_spec (2 ^ n * PAGE_SIZE) (i * PAGE_SIZE)); [rewrite PAGE_SIZE_eq in *; lia|].
  replace (Z.land (i * PAGE_SIZE) (PAGE_SIZE - 1)) with 0.
  2:{ change (PAGE_SIZE - 1) with (Z.ones 12). rewrite Z.land_ones by lia.
      change PAGE_SIZE with (2 ^ 12). by rewrite Z_mod_mult. }
  simpl. rewrite Z.div_mul by done. rewrite i32_small by lia.
  wp_step. apply (wp_arr_get _ (enc Used k)); [simpl; by rewrite Ha|].
  pose proof (enc_Used_neg k ltac:(lia)). destruct (Z.leb_spec 0 (enc Used k)); [lia|].
  destruct (Z.eqb_spec (enc Used k) EMPTY); [unfold EMPTY, INT_MAX in *; lia|].
  rewrite enc_Used_decode by lia.
  wp_step. eapply (wp_buddy_insert n _ (a_fl x)); [by apply enter_ok|done|lia|done| |].
  { eapply (blk_not_free (bs s)); rewrite Ha; [done|exact Hb]. }
  intros b' Hab' Hr'. wp_step. apply wp_gets. simpl. rewrite Hn. wp_step.
  eapply (wp_merge _ i k _ (mk_asys (retag i Free k (a_arr x)) (fl_insert k i (a_fl x)))).
  - by apply enter_ok.
  - split; [|done]. simpl in *. by rewrite Hab', Ha.
  - by eapply tiling_retag.
  - done.
  - eapply blk_retag; [done|done|]. by left.
  - lia.
  - intros b'' Hb''. apply wp_on_cpu_enable. simpl. rewrite leave_enter by done.
    destruct s. by apply HQ.
Qed.

End Refine.
