(* ===== verification/BuddyProps.v ===== *)
(** * What the abstract buddy allocator guarantees

    Lemmas about [a_malloc] and [a_free]: they keep the partition of the
    pages, touch exactly the pages of the block handed out or taken back,
    keep free memory maximally merged, and undo each other. *)

From S2P Require Import Prelude Cpu Dll Buddy BuddyRep BuddyTiling BuddyAlloc.

(** The order [buddy_cut_block] stops at. *)
Fixpoint cut_order (k : nat) (req : Z) : nat :=
  match k with
  | O => O
  | S k' => if 2 ^ Z.of_nat k' <? req then k else cut_order k' req
  end.

(** Equality of abstract states: same array, same free lists. *)
Definition asys_eq (x y : asys) : Prop := a_arr x = a_arr y ∧ ∀ k, a_fl x k = a_fl y k.

#[export] Instance asys_equiv : Equiv asys := asys_eq.
#[export] Instance asys_equivalence : Equivalence (≡@{asys}).
Proof.
  split.
  - intros x. by split.
  - intros x y [H1 H2]. by split.
  - intros x y z [H1 H2] [H3 H4]. split; [congruence|]. intros k. by rewrite H2.
Qed.

Lemma cut_order_spec k req :
  req ≤ 2 ^ Z.of_nat k →
  (cut_order k req ≤ k)%nat ∧ req ≤ 2 ^ Z.of_nat (cut_order k req) ∧
  (cut_order k req = O ∨ 2 ^ (Z.of_nat (cut_order k req) - 1) < req).
Proof.
  induction k as [|k IH]; intros Hreq; simpl; [auto|].
  destruct (Z.ltb_spec (2 ^ Z.of_nat k) req).
  - split_and!; [done|done|]. right. by replace (Z.of_nat (S k) - 1) with (Z.of_nat k) by lia.
  - destruct IH as (? & ? & ?); [done|]. split_and!; [lia|done|done].
Qed.

(** ** Cutting *)

Section Props.
Context (n : Z).

Lemma buddy_upper i k : 0 ≤ k → 0 ≤ i → (2 ^ (k + 1) | i) → buddy_of (i + 2 ^ k) k = i.
Proof.
  intros Hk Hi [c ->]. pose proof (pow2_pos k). pose proof (pow2_succ k).
  unfold buddy_of. rewrite Z.rem_mod_nonneg by lia.
  rewrite Z.add_comm, Z_mod_plus_full, Z.mod_small by lia.
  destruct (Z.eqb_spec (2 ^ k) 0); lia.
Qed.

Lemma buddy_lower i k : 0 ≤ k → 0 ≤ i → (2 ^ (k + 1) | i) → buddy_of i k = i + 2 ^ k.
Proof.
  intros Hk Hi [c ->]. pose proof (pow2_pos (k + 1)). unfold buddy_of.
  by rewrite Z.rem_mod_nonneg, Z_mod_mult by lia.
Qed.

Lemma buddy_invol i k : 0 ≤ k < n → 0 ≤ i < 2 ^ n → (2 ^ k | i) → buddy_of (buddy_of i k) k = i.
Proof.
  intros Hk Hi Hal. generalize (buddy_of_spec n i k Hk Hi Hal). cbn zeta.
  generalize (Z.min i (buddy_of i k)). intros m (Hm & ? & ? & [[-> ->]|[-> ->]]).
  - by apply buddy_upper; [lia|..].
  - by apply buddy_lower; [lia|..].
Qed.

Lemma coalesced_retag a i st k :
  tiling n a → blk n a i st k → coalesced n a → coalesced n (retag i Used k a).
Proof.
  intros Ht Hb Hco i' k' Hk' H1 H2.
  rewrite (blk_retag n a Ht i st) in H1, H2 by done.
  destruct H1 as [(_ & ? & _)|[_ H1]]; [done|]. destruct H2 as [(_ & ? & _)|[_ H2]]; [done|].
  by apply (Hco i' k').
Qed.

Lemma coalesced_split a i k :
  tiling n a → 0 ≤ k → blk n a i Used (k + 1) → coalesced n a →
  coalesced n (split_blk i Used Free k a).
Proof.
  intros Ht Hk Hb Hco i' k' Hk' H1 H2.
  pose proof (blk_aligned _ _ Ht _ _ _ Hb) as Hal.
  destruct (blk_range _ _ Ht _ _ _ Hb) as [Hi0 _].
  pose proof (pow2_pos k Hk).
  assert (Hir : 0 ≤ i' < 2 ^ n) by (eapply blk_idx_range; [eapply tiling_split; [|exact Hk|]|]; done).
  assert (Hal' : (2 ^ k' | i')) by (eapply blk_aligned; [eapply tiling_split; [|exact Hk|]|]; done).
  pose proof H1 as [_ Hk1].
  rewrite (blk_split n a Ht i Used) in H1, H2 by done.
  destruct H1 as [(_ & ? & _)|[(-> & _ & ->)|(_ & _ & H1)]]; [done| |].
  - rewrite buddy_upper in H2 by done.
    destruct H2 as [(_ & ? & _)|[(? & _)|([] & _)]]; [done|lia|done].
  - destruct H2 as [(_ & ? & _)|[(E & _ & ->)|(_ & _ & H2)]]; [done| |by apply (Hco i' k')].
    rewrite <- (buddy_invol i' k), E, buddy_upper in H1 by (done || lia).
    destruct (blk_inj _ _ Ht _ _ _ _ _ Hb H1). done.
Qed.

(** Everything [a_cut] does to the partition. *)
Record cut_ok (a a' : gmap Z Z) (idx K k : Z) : Prop := mk_cut_ok {
  cut_til : tiling n a';
  cut_blk : blk n a' idx Used k;
  cut_in j st : idx ≤ j < idx + 2 ^ K →
    pstat n a' j st ↔ st = (if j <? idx + 2 ^ k then Used else Free);
  cut_out i st k' : ¬ idx ≤ i < idx + 2 ^ K → blk n a' i st k' ↔ blk n a i st k';
  cut_stat j st : ¬ idx ≤ j < idx + 2 ^ K → pstat n a' j st ↔ pstat n a j st;
  cut_co : coalesced n a → coalesced n a';
}.

Lemma a_cut_ok idx req : ∀ k x,
  tiling n (a_arr x) → blk n (a_arr x) idx Used (Z.of_nat k) →
  cut_ok (a_arr x) (a_arr (a_cut idx k req x)) idx (Z.of_nat k) (Z.of_nat (cut_order k req)).
Proof.
  assert (Hrefl : ∀ a k, tiling n a → blk n a idx Used k → cut_ok a a idx k k).
  { intros a k Ht Hb. split; try done. intros j st Hj. rewrite (pstat_blk _ _ Ht _ _ _ j st Hb Hj).
    by destruct (Z.ltb_spec j (idx + 2 ^ k)); [|lia]. }
  induction k as [|k IH]; intros x Ht Hb; [by apply Hrefl|]. cbn [a_cut cut_order].
  destruct (Z.ltb_spec (2 ^ Z.of_nat k) req); [by apply Hrefl|].
  replace (Z.of_nat (S k)) with (Z.of_nat k + 1) in * by lia.
  set (x1 := mk_asys _ _). assert (Ht1 : tiling n (a_arr x1)) by (eapply tiling_split; [done|lia|done]).
  assert (Hb1 : blk n (a_arr x1) idx Used (Z.of_nat k)).
  { eapply (blk_split n (a_arr x)); [done|lia|done|]. by left. }
  pose proof (IH x1 Ht1 Hb1) as [H1 H2 H3 H4 H6 H5].
  pose proof (pow2_succ (Z.of_nat k) ltac:(lia)) as Hsucc. pose proof (pow2_pos (Z.of_nat k) ltac:(lia)).
  assert (Hle : 2 ^ Z.of_nat (cut_order k req) ≤ 2 ^ Z.of_nat k).
  { apply pow2_le. destruct (cut_order_spec k req); [done|]. lia. }
  assert (Hout : ∀ i st k', ¬ idx ≤ i < idx + 2 ^ (Z.of_nat k + 1) →
     blk n (a_arr (a_cut idx k req x1)) i st k' ↔ blk n (a_arr x) i st k').
  { intros i st k' Hi. rewrite H4 by lia.
    unfold x1. simpl. rewrite (blk_split n (a_arr x) Ht idx Used) by (done || lia).
    split; [|by intros; right; right; split_and!; [lia..|]].
    intros [(? & _)|[(? & _)|(_ & _ & ?)]]; [lia..|done]. }
  split; [done|done| |done| |].
  - intros j st Hj. destruct (Z.lt_ge_cases j (idx + 2 ^ Z.of_nat k)); [by apply H3; lia|].
    destruct (Z.ltb_spec j (idx + 2 ^ Z.of_nat (cut_order k req))); [lia|].
    assert (Hbh : blk n (a_arr (a_cut idx k req x1)) (idx + 2 ^ Z.of_nat k) Free (Z.of_nat k)).
    { apply H4; [lia|]. eapply (blk_split n (a_arr x)); [done|lia|done|]. by right; left. }
    rewrite (pstat_blk _ _ H1 _ _ _ j st Hbh) by lia. done.
  - intros j st Hj. rewrite H6 by lia. unfold x1; simpl.
    rewrite (pstat_split n (a_arr x) Ht idx Used) by (done || lia).
    split; [intros [[? _]|[[? _]|[_ ?]]]; [lia..|done]|by right; right].
  - intros Hco. apply H5. apply coalesced_split; [done|lia|done..].
Qed.

(** ** Merging *)

(** Only a pair that contains the block at [i] may be unmerged. *)
Definition coalesced_but (a : gmap Z Z) (i : Z) : Prop :=
  ∀ i' k, k < n → blk n a i' Free k → blk n a (buddy_of i' k) Free k → i' = i ∨ buddy_of i' k = i.

Lemma coalesced_but_retag a i st k :
  tiling n a → blk n a i st k → coalesced n a → coalesced_but (retag i Free k a) i.
Proof.
  intros Ht Hb Hco i' k' Hk' H1 H2.
  rewrite (blk_retag n a Ht i st) in H1, H2 by done.
  destruct H1 as [(? & _)|[_ H1]]; [by left|]. destruct H2 as [(? & _)|[_ H2]]; [by right|].
  by destruct (Hco i' k').
Qed.

Lemma coalesced_but_join a i m k :
  tiling n a → 0 ≤ k < n → blk n a m Free k → blk n a (m + 2 ^ k) Free k →
  (i = m ∨ i = m + 2 ^ k) →
  coalesced_but a i → coalesced_but (join_blk m Free k a) m.
Proof.
  intros Ht Hk Hb1 Hb2 Hi Hco i' k' Hk' H1 H2.
  rewrite (blk_join n a Ht m Free Free) in H1, H2 by done.
  destruct H1 as [(? & _)|(? & ? & H1)]; [by left|].
  destruct H2 as [(? & _)|(? & ? & H2)]; [by right|].
  destruct (Hco i' k' Hk' H1 H2); lia.
Qed.

Lemma coalesced_but_end a i k :
  tiling n a → blk n a i Free k → coalesced_but a i →
  (k < n → a !! buddy_of i k ≠ Some k) → coalesced n a.
Proof.
  intros Ht Hb Hco Hend i' k' Hk' H1 H2.
  destruct (Hco i' k' Hk' H1 H2) as [->|E].
  - destruct (blk_inj _ _ Ht _ _ _ _ _ Hb H1) as [_ <-]. apply (Hend Hk'), H2.
  - pose proof H2 as H3. rewrite E in H3.
    destruct (blk_inj _ _ Ht _ _ _ _ _ Hb H3) as [_ <-]. apply (Hend Hk').
    pose proof H1 as [? ?]. rewrite <- E, buddy_invol; [done|lia|by eapply blk_idx_range|].
    by eapply blk_aligned.
Qed.

(** Everything merging does: the pages keep their status, used blocks are
    untouched, and in the end free memory is maximally merged. *)
Record merge_ok (a a' : gmap Z Z) : Prop := mk_merge_ok {
  mrg_til : tiling n a';
  mrg_stat j st : pstat n a' j st ↔ pstat n a j st;
  mrg_used i k : blk n a' i Used k ↔ blk n a i Used k;
}.

Lemma a_merge_ok fuel : ∀ i k x,
  tiling n (a_arr x) → blk n (a_arr x) i Free k → Z.of_nat fuel = n - k + 1 →
  merge_ok (a_arr x) (a_arr (a_merge fuel n i k x)) ∧
  (coalesced_but (a_arr x) i → coalesced n (a_arr (a_merge fuel n i k x))).
Proof.
  induction fuel as [|fuel IH]; intros i k x Ht Hb Hf.
  { destruct Hb. lia. }
  pose proof Hb as [_ Hk]. cbn [a_merge]. destruct (Z.eqb_spec k n) as [->|Hkn].
  { split; [done|]. intros Hco. by apply (coalesced_but_end _ i n); [..|lia]. }
  case_bool_decide as Hbud.
  2:{ split; [done|]. intros Hco. by apply (coalesced_but_end _ i k). }
  assert (Hkn' : 0 ≤ k < n) by lia.
  destruct (buddies n _ i k Ht Hkn' Hb Hbud) as (Hal & Hbm & Hbh & _ & Hcase).
  set (m := Z.min _ _) in *. set (x1 := mk_asys _ _).
  destruct (IH m (k + 1) x1) as [[H1 H2 H3] H4]; [by eapply tiling_join| |lia|].
  { eapply (blk_join n (a_arr x)); [done..|]. by left. }
  pose proof (pow2_pos k). pose proof (pow2_succ k). split; [split; [done| |]|].
  - intros j st. rewrite H2. unfold x1; simpl. rewrite (pstat_join n (a_arr x) Ht m Free Free) by done.
    destruct (decide (m ≤ j < m + 2 ^ (k + 1))) as [Hj|Hj]; [|naive_solver].
    destruct (Z.lt_ge_cases j (m + 2 ^ k)).
    + rewrite (pstat_blk _ _ Ht _ _ _ j st Hbm) by lia. naive_solver.
    + rewrite (pstat_blk _ _ Ht _ _ _ j st Hbh) by lia. naive_solver.
  - intros i' k'. rewrite H3. unfold x1; simpl. rewrite (blk_join n (a_arr x) Ht m Free Free) by done.
    split; [intros [(_ & ? & _)|(_ & _ & ?)]; done|]. intros Hu. right. split_and!; [| |done];
      intros ->; [destruct (blk_inj _ _ Ht _ _ _ _ _ Hbm Hu)|destruct (blk_inj _ _ Ht _ _ _ _ _ Hbh Hu)]; done.
  - intros Hco. apply H4. eapply coalesced_but_join; [done|done|done|done| |done]. lia.
Qed.

Lemma a_free_ok i k x :
  tiling n (a_arr x) → blk n (a_arr x) i Used k →
  let a' := a_arr (a_free n i k x) in
  tiling n a' ∧
  (∀ j st, pstat n a' j st ↔
     (i ≤ j < i + 2 ^ k ∧ st = Free) ∨ (¬ i ≤ j < i + 2 ^ k ∧ pstat n (a_arr x) j st)) ∧
  (∀ i' k', blk n a' i' Used k' ↔ i' ≠ i ∧ blk n (a_arr x) i' Used k') ∧
  (coalesced n (a_arr x) → coalesced n a').
Proof.
  intros Ht Hb. unfold a_free. set (x1 := mk_asys _ _).
  assert (Ht1 : tiling n (a_arr x1)) by by eapply tiling_retag.
  assert (Hb1 : blk n (a_arr x1) i Free k).
  { eapply (blk_retag n (a_arr x)); [done..|]. by left. }
  pose proof Hb as [_ Hk].
  destruct (a_merge_ok (Z.to_nat (n - k + 1)) i k x1 Ht1 Hb1) as [[H1 H2 H3] H4]; [lia|].
  split_and!; [done| | |].
  - intros j st. rewrite H2. by apply (pstat_retag n (a_arr x) Ht i Used).
  - intros i' k'. rewrite H3. unfold x1; simpl. rewrite (blk_retag n (a_arr x) Ht i Used) by done.
    split; [by intros [(_ & ? & _)|?]|by right].
  - intros Hco. apply H4. by eapply coalesced_but_retag.
Qed.

(** ** Freeing a freshly cut block undoes the cut *)

Lemma fl_delete_fresh k i fl j : i ∉ fl k → fl_delete k i fl j = fl j.
Proof.
  intros Hi. destruct (decide (j = k)) as [->|]; [|by rewrite fl_delete_ne].
  by rewrite fl_delete_eq, filter_ne_id.
Qed.

Lemma fl_delete_insert k i fl j : i ∉ fl k → fl_delete k i (fl_insert k i fl) j = fl j.
Proof.
  intros Hi. destruct (decide (j = k)) as [->|].
  - rewrite fl_delete_eq, fl_insert_eq, filter_cons_False, filter_ne_id; naive_solver.
  - by rewrite fl_delete_ne, fl_insert_ne.
Qed.

#[export] Instance a_merge_proper fuel i k : Proper ((≡) ==> (≡)) (a_merge fuel n i k).
Proof.
  revert i k. induction fuel as [|fuel IH]; intros i k x y Hxy; [done|]. simpl.
  destruct (k =? n); [done|]. destruct Hxy as [H1 H2]. rewrite H1. case_bool_decide; [|by split].
  apply IH. split; simpl; [done|]. intros j. unfold fl_insert, fl_delete.
  by rewrite H2.
Qed.

(** The free lists of [x] hold neither the block at [idx] nor the upper
    halves that cutting it from order [K] will produce. *)
Definition cut_fresh (idx K : Z) (x : asys) : Prop :=
  ∀ j, 0 ≤ j < K → (idx ∉ a_fl x j) ∧ ((idx + 2 ^ j) ∉ a_fl x j).

Lemma a_free_split idx k x :
  tiling n (a_arr x) → 0 ≤ k → blk n (a_arr x) idx Used (k + 1) → cut_fresh idx (k + 1) x →
  a_free n idx k (mk_asys (split_blk idx Used Free k (a_arr x)) (fl_insert k (idx + 2 ^ k) (a_fl x)))
  ≡ a_free n idx (k + 1) x.
Proof.
  intros Ht Hk Hb Hfr. pose proof Hb as [_ Hkn]. pose proof (pow2_pos k Hk).
  pose proof (split_mid n _ Ht idx Used k Hk Hb) as Hmid.
  destruct (blk_range _ _ Ht _ _ _ Hb) as [Hi0 _]. pose proof (blk_aligned _ _ Ht _ _ _ Hb) as Hal.
  destruct (Hfr k ltac:(lia)) as [F1 F2]. unfold a_free at 1.
  replace (Z.to_nat (n - k + 1)) with (S (Z.to_nat (n - (k + 1) + 1))) by lia. cbn [a_merge a_arr a_fl].
  destruct (Z.eqb_spec k n); [lia|]. rewrite buddy_lower by done.
  unfold split_blk, retag. rewrite lookup_insert_ne, lookup_insert_eq by lia.
  rewrite bool_decide_true by done. rewrite Z.min_l by lia.
  unfold a_free. apply a_merge_proper. split; simpl.
  - unfold join_blk, retag. apply map_eq. intros j. simpl. rewrite !lookup_insert.
    repeat case_decide; subst; try done; lia.
  - intros j. unfold fl_insert at 1 4. destruct (Z.eqb_spec j (k + 1)) as [->|].
    + by rewrite !fl_delete_ne, !fl_insert_ne by lia.
    + destruct (decide (j = k)) as [->|]; [|by rewrite !fl_delete_ne, !fl_insert_ne by lia].
      rewrite !fl_delete_eq, !fl_insert_eq. rewrite !filter_cons.
      repeat case_decide; try lia; try done.
      rewrite (filter_ne_id idx) by done. rewrite filter_cons_False by naive_solver.
      by apply filter_ne_id.
Qed.

Lemma a_free_cut idx req : ∀ k x,
  tiling n (a_arr x) → blk n (a_arr x) idx Used (Z.of_nat k) → cut_fresh idx (Z.of_nat k) x →
  a_free n idx (Z.of_nat (cut_order k req)) (a_cut idx k req x) ≡ a_free n idx (Z.of_nat k) x.
Proof.
  induction k as [|k IH]; intros x Ht Hb Hfr; [done|]. cbn [a_cut cut_order].
  destruct (2 ^ Z.of_nat k <? req); [done|].
  replace (Z.of_nat (S k)) with (Z.of_nat k + 1) in * by lia.
  etransitivity; [apply IH|apply a_free_split; [done|lia|done|done]].
  - eapply tiling_split; [done|lia|done].
  - eapply (blk_split n (a_arr x)); [done|lia|done|]. by left.
  - intros j Hj. simpl. rewrite fl_insert_ne by lia. apply Hfr. lia.
Qed.

End Props.
