(* ===== verification/BuddyInit.v ===== *)
(** * The start-up allocator and buddy_init

    [simple_malloc] hands out disjoint aligned pieces of a fixed heap;
    [buddy_init] allocates its three arrays there and leaves one free block
    that covers all pages. *)

From S2P Require Import Prelude Cpu Dll Buddy BuddyRep BuddyTiling BuddyAlloc.

(** ** simple_malloc *)

Definition heap_end : Z := heap_start + HEAP_SIZE.
Definition heap_ok (s : mem) : Prop := heap_start ≤ heap_ptr s ≤ heap_end.

(** The alignment the loop finds: the largest of 8, 4, 2, 1 dividing [size]. *)
Lemma align_padding_spec size hp :
  0 ≤ hp → 0 ≤ size →
  let p := align_padding [8; 4; 2; 1] size hp in
  0 ≤ p < 8 ∧ ∀ i, i ∈ [8; 4; 2; 1] → size mod i = 0 → (hp + p) mod i = 0.
Proof.
  intros Hhp Hsz. cbn [align_padding].
  repeat match goal with |- context [?x =? 0] => destruct (Z.eqb_spec x 0) end;
    (split; [Z.div_mod_to_equations; lia|]); intros i Hi Hm;
    rewrite !elem_of_cons, elem_of_nil in Hi;
    destruct Hi as [->|[->|[->|[->|[]]]]]; Z.div_mod_to_equations; lia.
Qed.

Lemma heap_bounds : heap_end + 2 ^ 33 < 2 ^ 64 ∧ 0 ≤ heap_start ∧ u64 heap_end = heap_end.
Proof. by vm_compute. Qed.

Lemma simple_malloc_eq size s :
  heap_ok s → 0 ≤ size ≤ 2 ^ 32 →
  let p := align_padding [8; 4; 2; 1] size (heap_ptr s) in
  simple_malloc size s =
    if heap_ptr s + size + p <=? heap_end
    then Ok (Some (heap_ptr s + p), set_heap_ptr (heap_ptr s + p + size) s)
    else Ok (None, set_cpu (say ("Allocation failed" +:+ crlf) (m_cpu s)) s).
Proof.
  intros [Hl Hu] Hsz. destruct heap_bounds as (Hb1 & Hb2 & Hb3).
  destruct (align_padding_spec size (heap_ptr s)) as [Hp _]; [lia..|]. cbn zeta.
  unfold simple_malloc, mbind, M_bind, gets. cbn beta iota.
  set (p := align_padding _ _ _) in *. change (heap_start + HEAP_SIZE) with heap_end.
  rewrite Hb3, (u64_small (heap_ptr s + size)), (u64_small (heap_ptr s + size + p)) by lia.
  destruct (Z.leb_spec (heap_ptr s + size + p) heap_end); [|done].
  unfold modify, mret, M_ret. rewrite !u64_small by lia. do 3 f_equal. lia.
Qed.

(** ** buddy_init *)

Lemma buddy_init_exp_spec top fuel : ∀ e (s : mem) (Q : Z * Z → mem → Prop),
  0 ≤ e ≤ 20 → top ≤ 2 ^ 32 → (e = 0 ∨ 2 ^ (12 + (e - 1)) < top) → 20 - e < Z.of_nat fuel →
  (∀ n, 0 ≤ n ≤ 20 → top ≤ 2 ^ (12 + n) → (n = 0 ∨ 2 ^ (12 + (n - 1)) < top) →
     Q (2 ^ (12 + n), n) s) →
  wp (buddy_init_exp fuel (2 ^ (12 + e)) e top) Q s.
Proof.
  induction fuel as [|fuel IH]; intros e s Q He Htop Hmin Hf HQ; [lia|]. cbn [buddy_init_exp].
  destruct (Z.ltb_spec (2 ^ (12 + e)) top) as [Hlt|]; [|by apply wp_ret, HQ].
  assert (12 + e < 32) by (apply pow2_lt_inv; lia).
  replace (u64 (Z.shiftl (2 ^ (12 + e)) 1)) with (2 ^ (12 + (e + 1))).
  - apply IH; [lia|lia| |lia|done]. right. by replace (12 + (e + 1 - 1)) with (12 + e) by lia.
  - rewrite Z.shiftl_mul_pow2 by lia. rewrite <- Z.pow_add_r by lia.
    replace (12 + e + 1) with (12 + (e + 1)) by lia. rewrite u64_small; [done|].
    pose proof (pow2_pos (12 + (e + 1))). pose proof (pow2_lt (12 + (e + 1)) 64). lia.
Qed.

(** Arrays filled by a loop over their indices. *)
Definition fill {A} (f : Z → A) (m : Z) : gmap Z A :=
  list_to_map ((λ i, (i, f i)) <$> zseq 0 (Z.to_nat m)).

Lemma lookup_fill {A} (f : Z → A) m i :
  fill f m !! i = if decide (0 ≤ i < m) then Some (f i) else None.
Proof.
  assert (Hfst : ((λ i, (i, f i)) <$> zseq 0 (Z.to_nat m)).*1 = zseq 0 (Z.to_nat m)).
  { rewrite <- list_fmap_compose. apply list_fmap_id. }
  unfold fill. case_decide as Hi.
  - apply elem_of_list_to_map; [rewrite Hfst; apply NoDup_zseq|].
    apply list_elem_of_fmap. exists i. split; [done|]. apply elem_of_zseq. lia.
  - apply not_elem_of_list_to_map. rewrite Hfst, elem_of_zseq. lia.
Qed.

(** The arrays as the loops of [buddy_init] leave them, and after the one
    block has been put in its list. *)
Definition init_bs (n : Z) : bstruct :=
  mk_bstruct (fill (λ _, EMPTY) (2 ^ n)) (fill (λ _, None) (n + 1))
    (fill (λ i, mk_bnode i None None) (2 ^ n)).

Lemma init_bs_rep n : 0 ≤ n ≤ 30 → rep n (init_bs n) (λ _, []).
Proof.
  intros Hn. pose proof (pow2_pos n). split; simpl.
  - done.
  - intros i. rewrite lookup_fill. case_decide; naive_solver.
  - intros i Hi. rewrite lookup_fill, decide_True by done. eauto.
  - intros k Hk. rewrite lookup_fill, decide_True by lia. by exists None, None.
  - intros. constructor.
  - intros k i Hk. rewrite lookup_fill, elem_of_nil. case_decide; [|done].
    split; [done|]. intros [=]. unfold EMPTY, INT_MAX in *. lia.
  - intros i nd. rewrite lookup_fill. case_decide; [|done]. by intros [= <-].
Qed.

Lemma init_tiling n : 0 ≤ n ≤ 30 → tiling n (<[0 := n]> (fill (λ _, EMPTY) (2 ^ n))).
Proof.
  intros Hn. pose proof (pow2_pos n ltac:(lia)).
  assert (Hb : ∀ i st k, blk n (<[0 := n]> (fill (λ _, EMPTY) (2 ^ n))) i st k → i = 0 ∧ k = n).
  { intros i st k [Hi Hk]. rewrite lookup_insert, lookup_fill in Hi. case_decide.
    - injection Hi as Hi. split; [done|].
      by destruct (enc_inj Free n st k ltac:(lia) ltac:(lia) Hi) as [_ ->].
    - case_decide; [|done]. exfalso. eapply (enc_not_EMPTY st k); [lia|congruence]. }
  assert (Hb0 : blk n (<[0 := n]> (fill (λ _, EMPTY) (2 ^ n))) 0 Free n).
  { split; [apply lookup_insert_eq|lia]. }
  split.
  - done.
  - intros i. rewrite lookup_insert_is_Some', lookup_fill. case_decide as Hd.
    + split; [done|]. intros _. right. eauto.
    + split; [|lia]. intros [<-|[? ?]]; [lia|done].
  - intros i v. rewrite lookup_insert, lookup_fill. case_decide; [|case_decide; [|done]].
    + intros [= <-] _. exists Free, n. subst i. split_and!; [done|lia..|apply Z.divide_0_r].
    + by intros [= <-].
  - intros i st k j [-> ->]%Hb Hj. rewrite lookup_insert_ne, lookup_fill, decide_True by lia. done.
  - intros j Hj. exists 0, Free, n. split; [done|lia].
Qed.

Lemma buddy_init_wp s (Q : unit → mem → Prop) :
  cpu_ok (m_cpu s) → heap_ptr s = heap_start → usable_memory1 s ≤ 2 ^ 32 →
  (∀ n b p, 0 ≤ n ≤ 20 → usable_memory1 s ≤ 2 ^ n * PAGE_SIZE →
     (n = 0 ∨ 2 ^ (n - 1) * PAGE_SIZE < usable_memory1 s) →
     arr b = <[0 := n]> (fill (λ _, EMPTY) (2 ^ n)) → rep n b (fl_insert n 0 (λ _, [])) →
     heap_start ≤ p ≤ heap_start + 28 * 2 ^ n + 200 →
     Q tt (set_bs b (set_range 0 (2 ^ n * PAGE_SIZE) n (set_heap_ptr p s)))) →
  wp buddy_init Q s.
Proof.
  intros Hc Hh Htop HQ. unfold buddy_init. wp_step. apply wp_gets. wp_step.
  change PAGE_SIZE with (2 ^ (12 + 0)).
  apply buddy_init_exp_spec; [lia|done|by left|lia|]. intros n Hn Hn1 Hn2.
  wp_step. apply wp_modify. rewrite shl1_pow by lia.
  assert (Hp20 : 0 < 2 ^ n ≤ 2 ^ 20) by (split; [apply pow2_pos; lia|apply pow2_le; lia]).
  assert (Hpage : 2 ^ (12 + n) = 2 ^ n * PAGE_SIZE).
  { rewrite Z.pow_add_r by lia. rewrite PAGE_SIZE_eq. lia. }
  unfold sizeof_buddy_node, sizeof_int, sizeof_ptr. rewrite !u64_small by lia.
  (* each of the three arrays fits into what is left of the heap *)
  assert (Hsm : ∀ s' sz (Q' : option Z → mem → Prop),
     heap_start ≤ heap_ptr s' ≤ heap_start + 2 ^ 26 → 0 ≤ sz ≤ 2 ^ 25 →
     (∀ p, heap_ptr s' ≤ p < heap_ptr s' + 8 → Q' (Some p) (set_heap_ptr (p + sz) s')) →
     wp (simple_malloc sz) Q' s').
  { intros s' sz Q' Hh' Hsz HQ'. unfold wp.
    assert (heap_end = heap_start + 2 ^ 27) as He by done.
    destruct (align_padding_spec sz (heap_ptr s')) as [Hp _]; [destruct heap_bounds; lia|lia|].
    rewrite simple_malloc_eq; [|split; lia|lia]. cbn zeta.
    destruct (Z.leb_spec (heap_ptr s' + sz + align_padding [8; 4; 2; 1] sz (heap_ptr s')) heap_end);
      [|lia]. apply HQ'. lia. }
  wp_step. apply Hsm; [simpl; lia|lia|]. intros p1 Hp1. simpl in Hp1.
  wp_step. apply wp_assert; [done|]. wp_step. apply wp_modify.
  wp_step. apply Hsm; [simpl; lia|lia|]. intros p2 Hp2. simpl in Hp2.
  wp_step. apply wp_assert; [done|]. wp_step. apply wp_modify.
  wp_step. apply Hsm; [simpl; lia|lia|]. intros p3 Hp3. simpl in Hp3.
  wp_step. apply wp_assert; [done|]. wp_step. apply wp_modify.
  eapply (wp_buddy_insert n _ (λ _, [])); [done| |lia|lia| |].
  - apply init_bs_rep. lia.
  - apply EMPTY_not_free; [lia|]. simpl.
    change (fill (λ _, EMPTY) (2 ^ n) !! 0 = Some EMPTY). by rewrite lookup_fill, decide_True by lia.
  - intros b' Hb' Hr'. rewrite Hpage. apply (HQ n b' (p3 + (n + 1) * 8)); [done| | |done|done|lia].
    + by rewrite <- Hpage.
    + destruct (decide (n = 0)) as [|Hn0]; [by left|right]. destruct Hn2 as [|Hn2]; [done|]. rewrite Z.pow_add_r in Hn2 by lia.
      rewrite PAGE_SIZE_eq. lia.
Qed.
