(* ===== verification/BuddyThm.v ===== *)
(** * Correctness of the page-frame allocator

    The theorems about [simple_malloc], [buddy_init], [buddy_malloc] and
    [buddy_free] of mem.c, each with a run on a small memory. *)

From S2P Require Import Prelude Cpu Dll Buddy BuddyRep BuddyTiling BuddyAlloc BuddyProps BuddyInit.

(** ** A memory of eight pages, for the examples *)

Definition boot_cpu : cpu := mk_cpu 0 false [].
Definition boot_mem (top : Z) : mem :=
  mk_mem boot_cpu heap_start 0 top 0 0 0 (mk_bstruct ∅ ∅ ∅).

(** The final state of a run (the initial one if the run fails). *)
Definition final {A} (m : M mem A) (s : mem) : mem :=
  match m s with Ok (_, s') => s' | _ => s end.

Definition mem8 : mem := final buddy_init (boot_mem 0x8000).

(** ** Shared consequences of the refinement lemmas *)

Lemma wf_refines s fl : buddy_wf s fl → refines (num_pages_exp s) (bs s) (mk_asys (arr (bs s)) fl).
Proof. intros H. split; [done|apply H]. Qed.

Lemma wf_set_bs s fl b x :
  buddy_wf s fl → refines (num_pages_exp s) b x → tiling (num_pages_exp s) (a_arr x) →
  buddy_wf (set_bs b s) (a_fl x).
Proof.
  intros [H1 H2 H3 H4] [Ha Hr] Ht. split; simpl; [done|done|by rewrite Ha|done].
Qed.

Lemma idx_addr n a i st k : tiling n a → blk n a i st k → u64 (i * PAGE_SIZE) = i * PAGE_SIZE.
Proof.
  intros Ht Hb. pose proof (blk_idx_range n a i st k Ht Hb). pose proof (til_n _ _ Ht).
  pose proof (pow2_le n 30). rewrite PAGE_SIZE_eq. apply u64_small. lia.
Qed.

Lemma a_malloc_Some n req x idx x' :
  tiling n (a_arr x) → (∀ k i, 0 ≤ k ≤ n → i ∈ a_fl x k ↔ a_arr x !! i = Some k) →
  a_malloc n req x = Some (idx, x') →
  ∃ K l, blk n (a_arr x) idx Free K ∧ a_fl x K = idx :: l ∧ req ≤ 2 ^ K ∧
    (∀ j, 0 ≤ j < K → 2 ^ j < req ∨ a_fl x j = []) ∧
    x' = a_cut idx (Z.to_nat K) req
           (mk_asys (retag idx Used K (a_arr x)) (fl_delete K idx (a_fl x))).
Proof.
  intros Ht Hm. unfold a_malloc. pose proof (til_n _ _ Ht).
  destruct (a_search _ _ _ _ _) as [K|] eqn:Hs; [|done].
  apply a_search_Some in Hs as (HK & Hreq & _ & Hmin); [|lia].
  destruct (a_fl x K) as [|i l] eqn:Hfl; [done|]. intros [= -> <-].
  exists K, l. split_and!; [|done..]. split; [|lia]. simpl. apply Hm; [lia|]. rewrite Hfl. by left.
Qed.

Lemma a_malloc_None n req x :
  0 ≤ n → a_malloc n req x = None → ∀ k, 0 ≤ k ≤ n → 2 ^ k < req ∨ a_fl x k = [].
Proof.
  intros Hn. unfold a_malloc. destruct (a_search _ _ _ _ _) as [K|] eqn:Hs.
  - apply a_search_Some in Hs as (HK & Hreq & Hne & _); [|lia]. by destruct (a_fl x K).
  - intros _ k Hk. eapply a_search_None; [|done|]; lia.
Qed.

(** What handing out the block of [2 ^ k] pages at [idx] does to the pages. *)
Definition allocated (s s' : mem) (idx k : Z) : Prop :=
  let n := num_pages_exp s in
  blk n (arr (bs s')) idx Used k ∧
  (∀ j, idx ≤ j < idx + 2 ^ k → pstat n (arr (bs s)) j Free) ∧
  (∀ j st, ¬ idx ≤ j < idx + 2 ^ k → pstat n (arr (bs s')) j st ↔ pstat n (arr (bs s)) j st) ∧
  (∀ i k', blk n (arr (bs s)) i Used k' → blk n (arr (bs s')) i Used k').

(** What taking back the block of [2 ^ k] pages at [idx] does to the pages. *)
Definition released (s s' : mem) (idx k : Z) : Prop :=
  let n := num_pages_exp s in
  (∀ j, idx ≤ j < idx + 2 ^ k → pstat n (arr (bs s')) j Free) ∧
  (∀ j st, ¬ idx ≤ j < idx + 2 ^ k → pstat n (arr (bs s')) j st ↔ pstat n (arr (bs s)) j st) ∧
  (∀ i k', blk n (arr (bs s')) i Used k' ↔ i ≠ idx ∧ blk n (arr (bs s)) i Used k').

Lemma a_malloc_pages s b req idx x' fl :
  buddy_wf s fl → a_malloc (num_pages_exp s) req (mk_asys (arr (bs s)) fl) = Some (idx, x') →
  arr b = a_arr x' →
  ∃ k, 0 ≤ k ≤ num_pages_exp s ∧ req ≤ 2 ^ k ∧ (k = 0 ∨ 2 ^ (k - 1) < req) ∧
    allocated s (set_bs b s) idx k ∧ tiling (num_pages_exp s) (a_arr x') ∧
    (coalesced (num_pages_exp s) (arr (bs s)) → coalesced (num_pages_exp s) (a_arr x')).
Proof.
  intros [_ Hr Ht _] Hm Hb. set (n := num_pages_exp s) in *. set (a := arr (bs s)) in *.
  apply a_malloc_Some in Hm as (K & l & HbK & _ & Hreq & _ & ->); [|done|by intros; apply Hr].
  cbn [a_arr a_fl] in *. pose proof HbK as [_ HK].
  assert (Ht1 : tiling n (retag idx Used K a)) by by eapply tiling_retag.
  assert (Hb1 : blk n (retag idx Used K a) idx Used K).
  { eapply (blk_retag n a); [done..|]. by left. }
  set (x1 := mk_asys (retag idx Used K a) (fl_delete K idx fl)) in *.
  destruct (a_cut_ok n idx req (Z.to_nat K) x1) as [C1 C2 C3 C4 C6 C5];
    [done|rewrite Z2Nat.id by lia; exact Hb1|].
  destruct (cut_order_spec (Z.to_nat K) req) as (O1 & O2 & O3);
    [rewrite Z2Nat.id by lia; exact Hreq|].
  rewrite Z2Nat.id in C3, C4, C6 by lia. set (k := cut_order _ _) in *.
  assert (Hkk : 2 ^ Z.of_nat k ≤ 2 ^ K) by (apply pow2_le; lia).
  exists (Z.of_nat k). split_and!; [lia..|done|destruct O3; [left; lia|by right]| |done|].
  2:{ intros Hco. apply C5. by eapply coalesced_retag. }
  unfold allocated. cbn [bs set_bs]. rewrite Hb. fold n a. split_and!; [done| | |].
  - intros j Hj. exists idx, K. split; [done|lia].
  - intros j st Hj. destruct (decide (idx ≤ j < idx + 2 ^ K)) as [HjK|HjK].
    + rewrite C3 by done. rewrite (pstat_blk n a Ht idx Free K j st HbK HjK).
      by destruct (Z.ltb_spec j (idx + 2 ^ Z.of_nat k)); [lia|].
    + rewrite C6 by done. unfold x1; simpl. rewrite (pstat_retag n a Ht idx Free K) by done.
      split; [by intros [[? _]|[_ ?]]|by right].
  - intros i k' Hbi. apply C4.
    + intros Hi. assert (i = idx) as ->.
      { eapply eq_sym, (blk_overlap n a Ht idx Free K i Used k' i); [done..|].
        destruct Hbi. pose proof (pow2_pos k'). lia. }
      by destruct (blk_inj _ _ Ht _ _ _ _ _ HbK Hbi).
    + eapply (blk_retag n a); [done..|]. right. split; [|done]. intros ->.
      by destruct (blk_inj _ _ Ht _ _ _ _ _ HbK Hbi).
Qed.

(** ** Theorems *)

(** [simple_malloc] on a heap pointer inside the heap never faults.  When
    it returns a pointer, the object starts at or above the old heap pointer,
    ends at the new one, stays inside the 128 MB heap and is aligned to every
    power of two up to 8 that divides its size; when it returns NULL, the
    object with its padding did not fit and only a message is printed. *)
Theorem simple_malloc_correct s size :
  heap_ok s → 0 ≤ size ≤ 2 ^ 32 →
  ∃ r s', simple_malloc size s = Ok (r, s') ∧ heap_ok s' ∧
  match r with
  | Some p => heap_ptr s ≤ p < heap_ptr s + 8 ∧ p + size = heap_ptr s' ∧
      (∀ i, i ∈ [8; 4; 2; 1] → size mod i = 0 → p mod i = 0) ∧
      s' = set_heap_ptr (heap_ptr s') s
  | None => heap_end < heap_ptr s + size + align_padding [8; 4; 2; 1] size (heap_ptr s) ∧
      s' = set_cpu (say ("Allocation failed" +:+ crlf) (m_cpu s)) s
  end.
Proof.
  intros Hh Hsz. pose proof Hh as [Hl Hu]. destruct heap_bounds as (_ & H0 & _).
  destruct (align_padding_spec size (heap_ptr s)) as [Hp Hal]; [lia..|].
  rewrite (simple_malloc_eq size s Hh Hsz). cbn zeta. set (p := align_padding _ _ _) in *.
  destruct (Z.leb_spec (heap_ptr s + size + p) heap_end).
  - eexists _, _. split; [done|]. split; [split; simpl; lia|]. simpl. split_and!; [lia..|done|done].
  - eexists _, _. split; [done|]. split; [exact Hh|]. done.
Qed.

Lemma simple_malloc_correct_witness :
  heap_ok (boot_mem 0x8000) ∧
  ∃ r s', simple_malloc 100 (boot_mem 0x8000) = Ok (r, s') ∧ heap_ok s' ∧
    r = Some heap_start.
Proof.
  assert (heap_ok (boot_mem 0x8000)) as Hh by (split; vm_compute; discriminate).
  split; [exact Hh|].
  destruct (simple_malloc_correct (boot_mem 0x8000) 100 Hh) as (r & s' & E & Hs & _); [lia|].
  exists r, s'. split; [exact E|]. split; [exact Hs|].
  vm_compute in E. injection E as <- _. reflexivity.
Defined.

Lemma buddy_init_inv s :
  cpu_ok (m_cpu s) → heap_ptr s = heap_start → usable_memory1 s ≤ 2 ^ 32 →
  ∃ s', buddy_init s = Ok (tt, s') ∧ buddy_inv s' ∧ heap_ok s' ∧
    coalesced (num_pages_exp s') (arr (bs s')) ∧
    blk (num_pages_exp s') (arr (bs s')) 0 Free (num_pages_exp s') ∧
    m_cpu s' = m_cpu s ∧ base s' = 0 ∧ 0 ≤ num_pages_exp s' ≤ 20 ∧
    usable_memory1 s ≤ bend s' ∧
    (num_pages_exp s' = 0 ∨ 2 ^ (num_pages_exp s' - 1) * PAGE_SIZE < usable_memory1 s) ∧
    usable_memory0 s' = usable_memory0 s ∧ usable_memory1 s' = usable_memory1 s ∧
    heap_ptr s' ≤ heap_start + 28 * 2 ^ num_pages_exp s' + 200.
Proof.
  intros Hc Hh Htop.
  assert (wp buddy_init (λ _ s', ∃ n b p, s' = set_bs b (set_range 0 (2 ^ n * PAGE_SIZE) n
      (set_heap_ptr p s)) ∧ 0 ≤ n ≤ 20 ∧ usable_memory1 s ≤ 2 ^ n * PAGE_SIZE ∧
      (n = 0 ∨ 2 ^ (n - 1) * PAGE_SIZE < usable_memory1 s) ∧
      arr b = <[0 := n]> (fill (λ _, EMPTY) (2 ^ n)) ∧ rep n b (fl_insert n 0 (λ _, [])) ∧
      heap_start ≤ p ≤ heap_start + 28 * 2 ^ n + 200) s) as Hwp.
  { apply buddy_init_wp; [done..|]. intros n b p ? ? ? ? ? ?. exists n, b, p. split_and!; done || lia. }
  apply wp_run in Hwp as ([] & s' & E & n & b & p & -> & Hn & ? & ? & Ha & Hr & Hp).
  exists (set_bs b (set_range 0 (2 ^ n * PAGE_SIZE) n (set_heap_ptr p s))).
  assert (Ht : tiling n (arr b)) by (rewrite Ha; apply init_tiling; lia).
  assert (Hb0 : blk n (arr b) 0 Free n) by (split; [rewrite Ha; apply lookup_insert_eq|lia]).
  split_and!; simpl; try done; try lia.
  - eexists. split; simpl; done.
  - split; simpl; [lia|]. pose proof (pow2_le n 20). unfold heap_end, HEAP_SIZE. lia.
  - intros i k Hk Hb. assert (i = 0) as ->.
    { symmetry. destruct Hb as [Hi ?]. pose proof (pow2_pos k).
      assert (0 ≤ i < 2 ^ n) by (apply (til_dom _ _ Ht); by rewrite Hi).
      apply (blk_overlap n _ Ht 0 Free n i Free k i); [done|by split|lia..]. }
    destruct (blk_inj _ _ Ht _ _ _ _ _ Hb Hb0). lia.
Qed.

(** For every memory size a 32-bit device tree can report, [buddy_init]
    returns without fault: its three arrays fit in the start-up heap, the
    page array is a valid partition with valid free lists, the whole range
    (the smallest power of two of pages covering the memory) is one free
    block, and the interrupt state is what it was. *)
Theorem buddy_init_correct s :
  cpu_ok (m_cpu s) → heap_ptr s = heap_start → usable_memory1 s ≤ 2 ^ 32 →
  ∃ s', buddy_init s = Ok (tt, s') ∧ buddy_inv s' ∧ heap_ok s' ∧
    coalesced (num_pages_exp s') (arr (bs s')) ∧
    blk (num_pages_exp s') (arr (bs s')) 0 Free (num_pages_exp s') ∧
    m_cpu s' = m_cpu s ∧ base s' = 0 ∧ 0 ≤ num_pages_exp s' ≤ 20 ∧
    usable_memory1 s ≤ bend s' ∧
    (num_pages_exp s' = 0 ∨ 2 ^ (num_pages_exp s' - 1) * PAGE_SIZE < usable_memory1 s) ∧
    usable_memory0 s' = usable_memory0 s ∧ usable_memory1 s' = usable_memory1 s ∧
    heap_ptr s' ≤ heap_start + 28 * 2 ^ num_pages_exp s' + 200.
Proof. apply buddy_init_inv. Qed.

Lemma boot_cpu_ok : cpu_ok boot_cpu.
Proof. done. Qed.

Lemma buddy_init_correct_witness :
  ∃ s', buddy_init (boot_mem 0x8000) = Ok (tt, s') ∧ buddy_inv s' ∧ num_pages_exp s' = 3.
Proof.
  destruct (buddy_init_correct (boot_mem 0x8000)) as (s' & E & Hi & _);
    [exact boot_cpu_ok|reflexivity|vm_compute; discriminate|].
  exists s'. split; [exact E|]. split; [exact Hi|].
  vm_compute in E. injection E as <-. reflexivity.
Defined.

Lemma mem8_ok : buddy_inv mem8 ∧ coalesced (num_pages_exp mem8) (arr (bs mem8)).
Proof.
  destruct (buddy_init_inv (boot_mem 0x8000)) as (s' & E & Hi & _ & Hco & _); [done..|].
  unfold mem8, final. rewrite E. split; [exact Hi|exact Hco].
Qed.

Lemma malloc_run s fl req :
  buddy_wf s fl → 0 < req →
  match a_malloc (num_pages_exp s) req (mk_asys (arr (bs s)) fl) with
  | None => buddy_malloc req s = Ok (0, set_cpu (say ("No enough space" +:+ crlf) (m_cpu s)) s)
  | Some (idx, x') => ∃ b', buddy_malloc req s = Ok (u64 (idx * PAGE_SIZE), set_bs b' s) ∧
      refines (num_pages_exp s) b' x'
  end.
Proof.
  intros Hwf Hreq. pose proof Hwf as [Hc Hr Ht _].
  assert (wp (buddy_malloc req) (λ p s', match a_malloc (num_pages_exp s) req (mk_asys (arr (bs s)) fl) with
    | None => p = 0 ∧ s' = set_cpu (say ("No enough space" +:+ crlf) (m_cpu s)) s
    | Some (idx, x') => ∃ b', p = u64 (idx * PAGE_SIZE) ∧ s' = set_bs b' s ∧
        refines (num_pages_exp s) b' x' end) s) as Hwp.
  { eapply wp_malloc; [done|by apply wf_refines|done|done|done|].
    destruct (a_malloc _ _ _) as [[idx x']|]; eauto. }
  apply wp_run in Hwp as (p & s' & E & HQ).
  destruct (a_malloc _ _ _) as [[idx x']|].
  - destruct HQ as (b' & -> & -> & ?). eauto.
  - destruct HQ as [-> ->]. done.
Qed.

(** C1: On a well-formed state and a positive request, [buddy_malloc] returns
    without fault and keeps the state well-formed and the interrupt state
    balanced.  Either it returns the address of a block whose size is the
    smallest power of two covering the request, all of whose pages were free,
    marks exactly these pages used and leaves every other page and every used
    block alone; or it returns 0, prints a message and changes nothing else,
    and then no free block was large enough.  Maximal merging is kept. *)
Theorem buddy_malloc_correct s req :
  buddy_inv s → 0 < req →
  ∃ p s', buddy_malloc req s = Ok (p, s') ∧ buddy_inv s' ∧
    (coalesced (num_pages_exp s) (arr (bs s)) → coalesced (num_pages_exp s) (arr (bs s'))) ∧
    ((∃ idx k, p = idx * PAGE_SIZE ∧ 0 ≤ k ≤ num_pages_exp s ∧
        req ≤ 2 ^ k ∧ (k = 0 ∨ 2 ^ (k - 1) < req) ∧ allocated s s' idx k ∧ m_cpu s' = m_cpu s) ∨
     (p = 0 ∧ s' = set_cpu (say ("No enough space" +:+ crlf) (m_cpu s)) s ∧
        ∀ i k, blk (num_pages_exp s) (arr (bs s)) i Free k → 2 ^ k < req)).
Proof.
  intros [fl Hwf] Hreq. pose proof Hwf as [Hc Hr Ht He].
  pose proof (malloc_run s fl req Hwf Hreq) as Hrun.
  destruct (a_malloc _ _ _) as [[idx x']|] eqn:Ha.
  - destruct Hrun as (b' & E & Hb'). pose proof Hb' as [Hab' _].
    destruct (a_malloc_pages _ _ _ _ _ _ Hwf Ha Hab') as (k & Hk & H1 & H2 & Hal & Ht' & Hco).
    assert (u64 (idx * PAGE_SIZE) = idx * PAGE_SIZE) as Haddr.
    { destruct Hal as (Hb & _). simpl in Hb. rewrite Hab' in Hb. by eapply idx_addr. }
    eexists _, _. split; [exact E|]. split; [eexists; by eapply wf_set_bs|].
    split; [simpl; by rewrite Hab'|]. left. rewrite Haddr. exists idx, k. split_and!; [done|lia|lia|done..].
  - eexists _, _. split; [exact Hrun|]. split; [by exists fl|]. split; [done|]. right.
    split_and!; [done..|]. intros i k Hb. pose proof Hb as [_ Hk].
    pose proof (til_n _ _ Ht) as Hn.
    destruct (a_malloc_None _ _ _ (proj1 Hn) Ha k Hk) as [|Hnil]; [done|].
    assert (i ∈ fl k) as Hin by (apply (rep_mem _ _ _ Hr); [done|apply Hb]). simpl in Hnil. rewrite Hnil in Hin. set_solver.
Qed.

Lemma buddy_malloc_correct_witness :
  ∃ p s', buddy_malloc 3 mem8 = Ok (p, s') ∧ buddy_inv s' ∧ p = 0 ∧ arr (bs s') !! 0 = Some (-2).
Proof.
  destruct (buddy_malloc_correct mem8 3 (proj1 mem8_ok)) as (p & s' & E & Hi & _); [lia|].
  exists p, s'. split; [exact E|]. split; [exact Hi|].
  vm_compute in E. injection E as <- <-. split; reflexivity.
Defined.

Lemma free_run s fl i k :
  buddy_wf s fl → blk (num_pages_exp s) (arr (bs s)) i Used k →
  ∃ b', buddy_free (i * PAGE_SIZE) s = Ok (tt, set_bs b' s) ∧
    refines (num_pages_exp s) b' (a_free (num_pages_exp s) i k (mk_asys (arr (bs s)) fl)).
Proof.
  intros Hwf Hb. pose proof Hwf as [Hc Hr Ht He].
  assert (wp (buddy_free (i * PAGE_SIZE)) (λ _ s', ∃ b', s' = set_bs b' s ∧
     refines (num_pages_exp s) b' (a_free (num_pages_exp s) i k (mk_asys (arr (bs s)) fl))) s) as Hwp.
  { eapply wp_free; [done|by apply wf_refines|done|done|done|exact Hb|eauto]. }
  apply wp_run in Hwp as ([] & s' & E & b' & -> & Hb'). eauto.
Qed.

Lemma free_released s fl i k :
  buddy_wf s fl → blk (num_pages_exp s) (arr (bs s)) i Used k →
  ∃ b' fl', buddy_free (i * PAGE_SIZE) s = Ok (tt, set_bs b' s) ∧ buddy_wf (set_bs b' s) fl' ∧
    released s (set_bs b' s) i k ∧
    (coalesced (num_pages_exp s) (arr (bs s)) → coalesced (num_pages_exp s) (arr b')).
Proof.
  intros Hwf Hb. destruct (free_run s fl i k Hwf Hb) as (b' & E & Hb').
  pose proof Hwf as [Hc Hr Ht He]. pose proof Hb' as [Hab' _].
  destruct (a_free_ok (num_pages_exp s) i k (mk_asys (arr (bs s)) fl) Ht Hb) as (F1 & F2 & F3 & F4).
  eexists _, _. split; [exact E|]. split; [by eapply wf_set_bs|].
  split; [|by rewrite Hab'].
  unfold released. simpl. rewrite Hab'. split_and!; [| |done].
  - intros j Hj. apply F2. by left.
  - intros j st Hj. rewrite F2. split; [by intros [[? _]|[_ ?]]|by right].
Qed.

(** C2: [buddy_free] of the first page of a used block returns without fault,
    makes exactly the pages of that block free, leaves all other pages and
    used blocks alone, keeps the state well-formed and free memory maximally
    merged, and restores the interrupt state. *)
Theorem buddy_free_correct s i k :
  buddy_inv s → blk (num_pages_exp s) (arr (bs s)) i Used k →
  ∃ s', buddy_free (i * PAGE_SIZE) s = Ok (tt, s') ∧ buddy_inv s' ∧ released s s' i k ∧
    (coalesced (num_pages_exp s) (arr (bs s)) → coalesced (num_pages_exp s) (arr (bs s'))) ∧
    m_cpu s' = m_cpu s.
Proof.
  intros [fl Hwf] Hb. destruct (free_released s fl i k Hwf Hb) as (b' & fl' & E & Hwf' & Hrel & Hco).
  eexists. split; [exact E|]. split; [by exists fl'|]. by split_and!.
Qed.

(** The state after two allocations from the eight pages. *)
Definition mem8_used : mem := final (buddy_malloc 1) (final (buddy_malloc 3) mem8).

Lemma malloc_keeps s req : buddy_inv s → 0 < req → buddy_inv (final (buddy_malloc req) s).
Proof.
  intros [fl Hwf] Hreq. pose proof (malloc_run s fl req Hwf Hreq) as H. unfold final.
  destruct (a_malloc _ _ _) as [[i x]|] eqn:A.
  - destruct H as (b & -> & R). pose proof R as [B _].
    destruct (a_malloc_pages _ _ _ _ _ _ Hwf A B) as (_ & _ & _ & _ & _ & T & _).
    eexists. by eapply wf_set_bs.
  - rewrite H. exists fl. by destruct Hwf.
Qed.

Lemma mem8_used_ok : buddy_inv mem8_used ∧ num_pages_exp mem8_used = 3 ∧
  arr (bs mem8_used) !! 0 = Some (-2) ∧ arr (bs mem8_used) !! 4 = Some NEG_ZERO.
Proof.
  split; [|split_and!; vm_compute; reflexivity]. unfold mem8_used.
  do 2 (apply malloc_keeps; [|lia]). exact (proj1 mem8_ok).
Qed.

Lemma buddy_free_correct_witness :
  ∃ s', buddy_free (0 * PAGE_SIZE) mem8_used = Ok (tt, s') ∧ buddy_inv s' ∧
    arr (bs s') !! 0 = Some 2.
Proof.
  destruct mem8_used_ok as (Hi & Hn & H0 & _).
  destruct (buddy_free_correct mem8_used 0 2 Hi) as (s' & E & Hi' & _).
  { split; [exact H0|rewrite Hn; lia]. }
  exists s'. split; [exact E|]. split; [exact Hi'|].
  vm_compute in E. injection E as <-. reflexivity.
Defined.

(** Freeing what [a_malloc] handed out gives back the abstract state. *)
Lemma a_malloc_free n req x idx x' :
  tiling n (a_arr x) → coalesced n (a_arr x) →
  (∀ k i, 0 ≤ k ≤ n → i ∈ a_fl x k ↔ a_arr x !! i = Some k) →
  (∀ k, 0 ≤ k ≤ n → NoDup (a_fl x k)) →
  a_malloc n req x = Some (idx, x') →
  ∃ k, blk n (a_arr x') idx Used k ∧ a_free n idx k x' ≡ x.
Proof.
  intros Ht Hco Hm Hnd Ha.
  apply a_malloc_Some in Ha as (K & l & Hb & Hfl & Hreq & _ & ->); [|done..].
  pose proof Hb as [Hi HK]. set (x1 := mk_asys (retag idx Used K (a_arr x)) _).
  assert (Ht1 : tiling n (a_arr x1)) by (by eapply tiling_retag).
  assert (Hb1 : blk n (a_arr x1) idx Used (Z.of_nat (Z.to_nat K))).
  { rewrite Z2Nat.id by lia. eapply (blk_retag n (a_arr x)); [done..|]. by left. }
  destruct (a_cut_ok n idx req (Z.to_nat K) x1 Ht1 Hb1) as [_ C2 _ _ _ _].
  exists (Z.of_nat (cut_order (Z.to_nat K) req)). split; [done|].
  etransitivity.
  { apply a_free_cut; [done..|]. rewrite Z2Nat.id by lia. intros j Hj. simpl.
    rewrite fl_delete_ne by lia. rewrite !Hm by lia. simpl in Hi. split; [rewrite Hi; intros [=]; lia|].
    rewrite (til_int n (a_arr x) Ht idx Free K); [|done|].
    - pose proof (til_n _ _ Ht). pose proof (pow2_le n 30). unfold EMPTY, INT_MAX. intros [=]. lia.
    - pose proof (pow2_pos j). pose proof (pow2_lt j K). lia. }
  rewrite Z2Nat.id by lia. simpl in Hi.
  assert (Hr : retag idx Free K (a_arr x1) = a_arr x).
  { unfold x1, retag; simpl. by rewrite insert_insert_eq, insert_id. }
  assert (Hd : ∀ j, fl_insert K idx (a_fl x1) j = a_fl x j).
  { intros j. unfold x1; simpl. unfold fl_insert. destruct (Z.eqb_spec j K) as [->|].
    - rewrite fl_delete_eq, Hfl. pose proof (Hnd K HK) as N. rewrite Hfl in N.
      inversion_clear N. by rewrite filter_cons_False, filter_ne_id by naive_solver.
    - by rewrite fl_delete_ne. }
  unfold a_free. destruct (Z.to_nat (n - K + 1)) as [|f]; cbn [a_merge a_arr]; [by split|].
  destruct (Z.eqb_spec K n); [by split|]. rewrite Hr. rewrite bool_decide_false; [by split|].
  intros Hbud. apply (Hco idx K); [lia|done|]. split; [done|lia].
Qed.

(** Freeing at once what [buddy_malloc] returned restores the allocator:
    from a well-formed, maximally merged state, a successful allocation
    followed by [buddy_free] of the returned pointer gives back the same page
    array and the same free lists in the same order (the split blocks are
    merged again), and every other part of the state is untouched. *)
Theorem buddy_malloc_free_roundtrip s fl req p s1 :
  buddy_wf s fl → coalesced (num_pages_exp s) (arr (bs s)) → 0 < req →
  buddy_malloc req s = Ok (p, s1) → m_cpu s1 = m_cpu s →
  ∃ b2 fl2, buddy_free p s1 = Ok (tt, set_bs b2 s) ∧ arr b2 = arr (bs s) ∧
    buddy_wf (set_bs b2 s) fl2 ∧ ∀ k, fl2 k = fl k.
Proof.
  intros Hwf Hco Hreq E Hcpu. pose proof Hwf as [Hc Hr Ht He].
  pose proof (malloc_run s fl req Hwf Hreq) as Hrun. destruct (a_malloc _ _ _) as [[idx x']|] eqn:Ha.
  - destruct Hrun as (b' & E' & Hb'). rewrite E in E'. injection E' as -> ->.
    pose proof Hb' as [Hab' _].
    destruct (a_malloc_pages _ _ _ _ _ _ Hwf Ha Hab') as (_ & _ & _ & _ & _ & Ht' & _).
    apply a_malloc_free in Ha as (k & Hb & Heq); [|done|done|by intros; apply Hr|by intros; apply Hr].
    pose proof (wf_set_bs _ _ _ _ Hwf Hb' Ht') as Hwf'.
    destruct (free_run (set_bs b' s) (a_fl x') idx k Hwf') as (b2 & E2 & Hb2);
      [simpl; by rewrite Hab'|].
    rewrite (idx_addr _ _ _ _ _ Ht' Hb). exists b2, (a_fl (a_free (num_pages_exp s) idx k x')).
    simpl in Hb2. rewrite Hab' in Hb2. destruct Hb2 as [Ha2 Hr2]. destruct x' as [a' f'].
    destruct Heq as [Heq1 Heq2]. simpl in *.
    split; [exact E2|]. rewrite Ha2. split; [exact Heq1|]. split; [|exact Heq2].
    split; simpl; [done|exact Hr2|by rewrite Ha2, Heq1|done].
  - rewrite E in Hrun. injection Hrun as -> ->. exfalso. apply (f_equal console) in Hcpu.
    simpl in Hcpu. apply (f_equal length) in Hcpu. rewrite length_app in Hcpu. simpl in Hcpu. lia.
Qed.

Lemma buddy_malloc_free_roundtrip_witness :
  ∃ b2, buddy_free 0 (final (buddy_malloc 3) mem8) = Ok (tt, set_bs b2 mem8) ∧ arr b2 = arr (bs mem8).
Proof.
  destruct mem8_ok as [[fl Hwf] Hco].
  destruct (buddy_malloc_free_roundtrip mem8 fl 3 0 (final (buddy_malloc 3) mem8)) as (b2 & _ & E & Ha & _);
    [exact Hwf|exact Hco|lia|vm_compute; reflexivity|vm_compute; reflexivity|].
  exists b2. split; [exact E|exact Ha].
Defined.

(** [buddy_free] rejects everything that is not the start of a used
    block.  A pointer at or above the end of memory or not page-aligned gives
    [Invalid pointer]; a page that is free, or inside a block, gives
    [The page is not in use].  In each case nothing but the console changes:
    the message the code has for the inside of a block is never printed. *)
Theorem buddy_free_rejects s ptr :
  buddy_inv s → 0 ≤ ptr →
  (bend s ≤ ptr ∨ ptr mod PAGE_SIZE ≠ 0 →
    buddy_free ptr s = Ok (tt, set_cpu (say ("Invalid pointer" +:+ crlf) (m_cpu s)) s)) ∧
  (∀ idx, ptr = idx * PAGE_SIZE → 0 ≤ idx < 2 ^ num_pages_exp s →
    (∀ k, ¬ blk (num_pages_exp s) (arr (bs s)) idx Used k) →
    buddy_free ptr s = Ok (tt, set_cpu (say ("The page is not in use" +:+ crlf) (m_cpu s)) s)).
Proof.
  intros [fl [Hc Hr Ht He]] Hp. pose proof (til_n _ _ Ht) as Hn.
  assert (Hland : Z.land ptr (PAGE_SIZE - 1) = ptr mod PAGE_SIZE).
  { rewrite PAGE_SIZE_eq. change (4096 - 1) with (Z.ones 12). by rewrite Z.land_ones. }
  assert (Hcl : leave (enter (m_cpu s)) = m_cpu s) by by apply leave_enter.
  split.
  - intros Hbad. unfold buddy_free. rewrite (bind_Ok _ _ s tt (set_cpu (enter (m_cpu s)) s)) by done.
    rewrite Hland. cbn [bend]. rewrite (bind_Ok _ _ _ (bend s) (set_cpu (enter (m_cpu s)) s)) by done.
    replace ((bend s <=? ptr) || negb (ptr mod PAGE_SIZE =? 0)) with true.
    + rewrite (bind_Ok _ _ _ tt (set_cpu (leave (enter (m_cpu s))) s)) by done. by rewrite Hcl.
    + destruct Hbad as [?|?]; symmetry; apply orb_true_iff; [left; lia|right].
      apply negb_true_iff. lia.
  - intros idx -> Hi Hnu. pose proof (pow2_le (num_pages_exp s) 30) as H30.
    unfold buddy_free. rewrite (bind_Ok _ _ s tt (set_cpu (enter (m_cpu s)) s)) by done.
    rewrite (bind_Ok _ _ _ (bend s) (set_cpu (enter (m_cpu s)) s)) by done.
    rewrite Hland, He, PAGE_SIZE_eq in *. rewrite Z.mod_mul, Z.div_mul by done. rewrite i32_small by lia.
    replace (2 ^ num_pages_exp s * 4096 <=? idx * 4096) with false by (symmetry; apply Z.leb_gt; lia).
    destruct (proj2 (til_dom _ _ Ht idx) Hi) as [v Hv]. simpl.
    rewrite (bind_Ok _ _ _ v (set_cpu (enter (m_cpu s)) s)); [|unfold arr_get, mbind, M_bind; simpl; by rewrite Hv].
    replace (0 <=? v) with true.
    + rewrite (bind_Ok _ _ _ tt (set_cpu (leave (enter (m_cpu s))) s)) by done. by rewrite Hcl.
    + symmetry. apply Z.leb_le. destruct (decide (v = EMPTY)) as [->|Hne]; [done|].
      destruct (til_val _ _ Ht idx v Hv Hne) as ([] & k & -> & Hk & _); [simpl; lia|].
      destruct (Hnu k). by split.
Qed.

Lemma buddy_free_rejects_witness :
  buddy_free 0x1000 mem8_used =
    Ok (tt, set_cpu (say ("The page is not in use" +:+ crlf) (m_cpu mem8_used)) mem8_used).
Proof.
  destruct mem8_used_ok as (Hi & Hn & _).
  apply (buddy_free_rejects mem8_used 0x1000 Hi ltac:(lia)) with (idx := 1); [reflexivity|rewrite Hn; lia|].
  intros k [Hk Hb]. rewrite Hn in Hb.
  assert (arr (bs mem8_used) !! 1 = Some EMPTY) as E by (vm_compute; reflexivity).
  rewrite E in Hk. injection Hk as Hk. unfold enc, neg_exp in Hk. revert Hk. unfold EMPTY, NEG_ZERO, INT_MAX.
  destruct (k =? 0); lia.
Defined.
