(* ===== verification/BuddyReserve.v ===== *)
(** * Reserving memory at boot (memory_reserve, reserve_mem_regions of mem.c)

    [memory_reserve] takes the smallest aligned block that holds a region out
    of the free memory: it cuts a larger free block, or joins the blocks it
    covers first.  [reserve_mem_regions] does so for the regions the boot code
    and the boot protocol use. *)

From S2P Require Import Prelude Cpu Dll Buddy BuddyRep BuddyTiling BuddyAlloc BuddyProps BuddyInit BuddyThm.

(** ** reserve_mem_regions *)

Definition SPIN_TABLE_START : Z := 0.
Definition SPIN_TABLE_END : Z := 0x1000.
Definition PGD_ADDR : Z := 0x100000.
Definition PUD_ADDR : Z := 0x101000.
Definition _stext : Z := v_kernel_space + 0x80000.
Definition _estack : Z := v_kernel_space + 0x100000.

(** What the device tree told: the ramdisk, and the tree itself. *)
Record found := mk_found { ramdisk_saddr : Z; ramdisk_eaddr : Z; dtb_addr : Z; dtb_len : Z }.

Definition reserve_mem_regions (f : found) : M mem unit :=
  memory_reserve SPIN_TABLE_START SPIN_TABLE_END ;;
  memory_reserve (v2p_trans_kernel _stext) (v2p_trans_kernel _estack) ;;
  memory_reserve PGD_ADDR (PUD_ADDR + PAGE_SIZE) ;;
  memory_reserve (v2p_trans_kernel heap_start) (v2p_trans_kernel (heap_start + HEAP_SIZE)) ;;
  memory_reserve (v2p_trans_kernel (ramdisk_saddr f)) (v2p_trans_kernel (ramdisk_eaddr f)) ;;
  memory_reserve (v2p_trans_kernel (dtb_addr f)) (v2p_trans_kernel (dtb_addr f + dtb_len f)) ;;
  s ← get_st;
  (if negb (usable_memory0 s =? base s) then memory_reserve (base s) (usable_memory0 s) else mret tt) ;;
  s ← get_st;
  (if negb (usable_memory1 s =? bend s) then memory_reserve (usable_memory1 s) (bend s) else mret tt).

(** ** Joining what a block covers *)

Lemma aligned_rem i k : 0 ≤ k < 31 → (2 ^ k | i) → (Z.rem i (shl1 k) =? 0) = true.
Proof.
  intros Hk [c ->]. rewrite shl1_pow by done. apply Z.eqb_eq. rewrite Z.rem_mul; [done|]. pose proof (pow2_pos k). lia.
Qed.
Lemma half_aligned i k : 0 ≤ k → (2 ^ (k + 1) | i) → (2 ^ k | i).
Proof. intros. eapply Z.divide_trans; [apply (pow2_divide k (k + 1)); lia|done]. Qed.
Lemma neg_exp_pos k : 0 < k → neg_exp k = - k.
Proof. intros. unfold neg_exp. destruct (Z.eqb_spec k 0); lia. Qed.

Lemma aligned_le b c e : 0 ≤ e → (2 ^ e | b) → (2 ^ e | c) → b < c → b + 2 ^ e ≤ c.
Proof.
  intros He Hb Hc Hlt. destruct (Z.le_gt_cases (b + 2 ^ e) c) as [|Hgt]; [done|]. exfalso.
  apply (aligned_interior b c (2 ^ e)); [by apply pow2_pos|done|done|lia].
Qed.

(** A smaller block is neither of the early returns of [buddy_clear_block]. *)
Lemma clear_splits {A} st k e (x y z : A) : 0 ≤ k < e → e ≤ 30 →
  (if e <=? enc st k then x else if (negb (enc st k =? NEG_ZERO) && (enc st k <=? - e)) || ((enc st k =? NEG_ZERO) && (e =? 0)) then y else z) = z.
Proof.
  intros Hk He. destruct st; cbn [enc].
  - rewrite (proj2 (Z.leb_gt e k)) by lia. rewrite (proj2 (Z.eqb_neq k NEG_ZERO)), (proj2 (Z.leb_gt k (- e))) by (unfold NEG_ZERO, INT_MAX; lia). done.
  - pose proof (enc_Used_neg k ltac:(lia)) as Hn. cbn [enc] in Hn. rewrite (proj2 (Z.leb_gt e (neg_exp k))), (proj2 (Z.eqb_neq e 0)) by lia. rewrite andb_false_r, orb_false_r.
    unfold neg_exp. destruct (Z.eqb_spec k 0) as [->|]; [done|]. rewrite (proj2 (Z.leb_gt (- k) (- e))) by lia. by rewrite andb_false_r.
Qed.

Section Reserve.
Context (n : Z).

(** The array [a] became [a']: outside the block of order [k] at [i] the same
    blocks start. *)
Record outside_same (a a' : gmap Z Z) (i k : Z) : Prop := mk_os {
  os_til : tiling n a';
  os_blk j st k' : ¬ i ≤ j < i + 2 ^ k → blk n a' j st k' ↔ blk n a j st k';
}.

(** If the result is one block, the pages outside are free or used as they
    were. *)
Lemma outside_pages a a' i st k j st' : tiling n a → outside_same a a' i k → blk n a' i st k → ¬ i ≤ j < i + 2 ^ k →
  pstat n a' j st' ↔ pstat n a j st'.
Proof.
  intros Ht [Ht' Hs] Hb Hj.
  assert (Hf : ∀ st1, pstat n a' j st1 → pstat n a j st1).
  { intros st1 (i' & k' & Hb' & Hj'). exists i', k'. split; [|done]. apply Hs; [|done]. intros Hi'.
    destruct Hb' as [Hv' Hk'] eqn:E. pose proof (pow2_pos k' ltac:(lia)).
    assert (i' = i) as -> by (eapply eq_sym, (blk_overlap n a' Ht' i st k i' st1 k' i'); [done|by split|done|lia]).
    destruct (blk_inj _ _ Ht' _ _ _ _ _ Hb Hb') as [_ <-]. done. }
  split; [apply Hf|]. intros Hp. assert (Hr : 0 ≤ j < 2 ^ n).
  { destruct Hp as (i' & k' & Hb' & Hj'). pose proof (blk_range _ _ Ht _ _ _ Hb'). lia. }
  destruct (pstat_cov _ _ Ht' j Hr) as [Hp'|Hp']; by rewrite (pstat_fun _ _ Ht j _ _ Hp (Hf _ Hp')).
Qed.

(** If the block at [i] is no larger than half of the aligned block of order
    [k + 1] there, the other half starts with a block as well. *)
Lemma second_half a i st k0 k : tiling n a → 0 ≤ k → (2 ^ (k + 1) | i) → i + 2 ^ (k + 1) ≤ 2 ^ n →
  blk n a i st k0 → k0 ≤ k → ∃ st' k', k' ≤ k ∧ blk n a (i + 2 ^ k) st' k'.
Proof.
  intros Ht Hk Hal Hn Hb Hk0. pose proof (pow2_pos k Hk). pose proof (pow2_succ k Hk). pose proof (blk_range _ _ Ht _ _ _ Hb) as [Hi _].
  destruct (til_cov _ _ Ht (i + 2 ^ k)) as (i' & st' & k' & Hb' & Hj); [lia|]. pose proof Hb' as [_ Hkn'].
  assert (Hle : k' ≤ k).
  { destruct (Z.le_gt_cases k' k) as [|Hgt]; [done|]. exfalso.
    assert (Hal' : (2 ^ (k + 1) | i')).
    { eapply Z.divide_trans; [apply (pow2_divide (k + 1) k'); lia|by eapply blk_aligned]. }
    assert (i' ≤ i).
    { destruct (Z.le_gt_cases i' i) as [|Hi']; [done|]. exfalso. apply (aligned_interior i i' (2 ^ (k + 1))); [lia|done|done|lia]. }
    assert (Hin : i' ≤ i < i' + 2 ^ k') by lia.
    assert (i = i') as <-.
    { apply (blk_overlap n a Ht i st k0 i' st' k' i); [done|done| |done]. destruct Hb as [_ ?]. pose proof (pow2_pos k0). lia. }
    destruct (blk_inj _ _ Ht _ _ _ _ _ Hb Hb') as [_ <-]. lia. }
  exists st', k'. split; [done|]. assert (i' = i + 2 ^ k) as <-; [|done].
  destruct (decide (i' = i + 2 ^ k)) as [|Hne]; [done|]. exfalso.
  apply (aligned_interior i' (i + 2 ^ k) (2 ^ k')); [apply pow2_pos; lia|by eapply blk_aligned| |lia].
  apply Z.divide_add_r; [eapply Z.divide_trans; [apply (pow2_divide k' (k + 1)); lia|done]|apply pow2_divide; lia].
Qed.

(** A used block becomes free. *)
Lemma wp_retag_free i k s fl (Q : unit → mem → Prop) :
  cpu_ok (m_cpu s) → rep n (bs s) fl → tiling n (arr (bs s)) → blk n (arr (bs s)) i Used k →
  (∀ b' fl', rep n b' fl' → outside_same (arr (bs s)) (arr b') i k → blk n (arr b') i Free k → Q tt (set_bs b' s)) →
  wp (buddy_insert_free_block i k) Q s.
Proof.
  intros Hc Hr Ht Hb HQ. pose proof Hb as [_ Hk]. eapply wp_buddy_insert; [done|exact Hr|done|by eapply blk_idx_range|by eapply blk_not_free|].
  intros b' Ha' Hr'. eapply HQ; [exact Hr'| |].
  - rewrite Ha'. split; [by apply (tiling_retag n _ Ht i Used k Free)|]. intros j st k' Hj. rewrite (blk_retag n _ Ht i Used k Free) by done. pose proof (pow2_pos k). naive_solver lia.
  - rewrite Ha'. apply (blk_retag n _ Ht i Used k Free); [done|]. by left.
Qed.

(** Two free buddies become one block. *)
Lemma wp_join_free i k s fl (Q : unit → mem → Prop) :
  cpu_ok (m_cpu s) → rep n (bs s) fl → tiling n (arr (bs s)) → 0 ≤ k < n → (2 ^ (k + 1) | i) →
  blk n (arr (bs s)) i Free k → blk n (arr (bs s)) (i + 2 ^ k) Free k →
  (∀ b' fl', rep n b' fl' → outside_same (arr (bs s)) (arr b') i (k + 1) → blk n (arr b') i Free (k + 1) → Q tt (set_bs b' s)) →
  wp (buddy_delete_free_block i k ;; buddy_delete_free_block (i + 2 ^ k) k ;; buddy_insert_free_block i (k + 1) ;; arr_set (i + 2 ^ k) EMPTY) Q s.
Proof.
  intros Hc Hr Ht Hk Hal Hb1 Hb2 HQ. pose proof (pow2_pos k ltac:(lia)). pose proof (blk_range _ _ Ht _ _ _ Hb1) as [Hi _].
  pose proof (buddy_lower i k ltac:(lia) Hi Hal) as Hbud.
  pose proof (wp_merge_step n i k s (mk_asys (arr (bs s)) fl) (arr_set (i + 2 ^ k) EMPTY) Q Hc (conj eq_refl Hr) Ht Hk Hb1) as H2.
  rewrite Hbud, Z.min_l, Z.max_r in H2 by lia. apply H2; [apply Hb2|]. intros b' Hs [Ha' Hr']. apply wp_arr_set; [done|]. autorewrite with kernel.
  cbn [a_arr a_fl arr set_arr] in *. eapply HQ; [exact Hr'| |]; cbn [arr set_arr]; rewrite Ha'.
  - split; [by eapply tiling_join|]. intros j st k' Hj. rewrite (blk_join n _ Ht i Free Free k Free) by done. pose proof (pow2_succ k). naive_solver lia.
  - apply (blk_join n _ Ht i Free Free k Free); [done..|]. by left.
Qed.

(** [buddy_clear_block] makes the block at [i] one free block of order [k],
    whatever smaller blocks it held. *)
Lemma wp_clear k : ∀ i st k0 s fl (Q : unit → mem → Prop),
  cpu_ok (m_cpu s) → rep n (bs s) fl → tiling n (arr (bs s)) → Z.of_nat k ≤ n → (2 ^ Z.of_nat k | i) → i + 2 ^ Z.of_nat k ≤ 2 ^ n →
  blk n (arr (bs s)) i st k0 → k0 ≤ Z.of_nat k →
  (∀ b' fl', rep n b' fl' → outside_same (arr (bs s)) (arr b') i (Z.of_nat k) → blk n (arr b') i Free (Z.of_nat k) → Q tt (set_bs b' s)) →
  wp (buddy_clear_block i k) Q s.
Proof.
  induction k as [|k IH]; intros i st k0 s fl Q Hc Hr Ht Hkn Hal Hin Hb Hk0 HQ; pose proof (til_n _ _ Ht) as Hn; pose proof Hb as [Hv Hk0n].
  - assert (k0 = 0) as -> by lia. cbn [buddy_clear_block]. change (Z.of_nat 0) with 0. rewrite (aligned_rem i 0) by (done || lia). cbn [negb].
    wp_step. apply (wp_arr_get _ (enc st 0)); [done|]. destruct st.
    + cbn [enc]. change (0 <=? 0) with true. cbn match. apply wp_ret. rewrite <- (set_bs_id s). eapply HQ; [exact Hr| |exact Hb]. by split.
    + cbn. eapply wp_retag_free; [done|done|done|exact Hb|]. intros b' fl' Hr' Hs' Hb'. by eapply HQ.
  - pose proof (pow2_succ (Z.of_nat k)). pose proof (pow2_pos (Z.of_nat k)). replace (Z.of_nat (S k)) with (Z.of_nat k + 1) in * by lia.
    pose proof (blk_range _ _ Ht _ _ _ Hb) as [Hi0 _].
    cbn [buddy_clear_block]. rewrite (aligned_rem i (Z.of_nat (S k))) by (replace (Z.of_nat (S k)) with (Z.of_nat k + 1) by lia; done || lia). cbn [negb].
    replace (Z.of_nat (S k)) with (Z.of_nat k + 1) by lia.
    wp_step. apply (wp_arr_get _ (enc st k0)); [done|]. destruct (decide (k0 = Z.of_nat k + 1)) as [->|Hne].
    + destruct st; cbn [enc].
      * destruct (Z.leb_spec (Z.of_nat k + 1) (Z.of_nat k + 1)); [|lia]. wp_step. rewrite <- (set_bs_id s). by eapply HQ; [| |apply Hb].
      * rewrite neg_exp_pos by lia. destruct (Z.leb_spec (Z.of_nat k + 1) (- (Z.of_nat k + 1))); [lia|].
        rewrite (proj2 (Z.eqb_neq (- (Z.of_nat k + 1)) NEG_ZERO)) by (unfold NEG_ZERO, INT_MAX; lia). rewrite Z.leb_refl. cbn [negb andb orb].
        eapply wp_retag_free; [done|done|done|exact Hb|]. intros b' fl' Hr' Hs' Hb'. by eapply HQ.
    + rewrite (clear_splits st k0 (Z.of_nat k + 1)) by lia. cbv zeta. rewrite shl1_pow by lia.
      wp_step. eapply (IH i st k0 s fl); [done|done|done|lia|apply half_aligned; [lia|done]|lia|done|lia|]. intros b1 fl1 Hr1 [Ht1 Hp1] Hb1.
      destruct (second_half (arr b1) i Free (Z.of_nat k) (Z.of_nat k)) as (st2 & k2 & Hk2 & Hb2); [done|lia|done|lia|done|lia|].
      wp_step. eapply (IH (i + 2 ^ Z.of_nat k) st2 k2 (set_bs b1 s) fl1); [done|exact Hr1|exact Ht1|lia| |lia|exact Hb2|done|].
      { apply Z.divide_add_r; [apply half_aligned; [lia|done]|apply Z.divide_refl]. }
      cbn [bs set_bs]. intros b2 fl2 Hr2 [Ht2 Hp2] Hb2'. autorewrite with kernel.
      assert (Hb1' : blk n (arr b2) i Free (Z.of_nat k)) by (apply Hp2; [lia|done]).
      eapply wp_join_free; [done|exact Hr2|exact Ht2|lia|done|exact Hb1'|exact Hb2'|].
      intros b3 fl3 Hr3 [Ht3 Hp3] Hb3. autorewrite with kernel. eapply HQ; [exact Hr3| |exact Hb3]. cbn [bs set_bs] in *.
      split; [done|]. intros j st' k' Hj. rewrite Hp3 by done. rewrite Hp2 by lia. apply Hp1. lia.
Qed.

(** ** Cutting a free block *)

(** The loop that cuts the free block at [parent] leaves a free block of order
    [len] at [idx]. *)
Lemma wp_split m : ∀ len parent idx s fl (Q : unit → mem → Prop),
  cpu_ok (m_cpu s) → rep n (bs s) fl → tiling n (arr (bs s)) → 0 ≤ len → (2 ^ len | idx) →
  blk n (arr (bs s)) parent Free (len + Z.of_nat m) → parent ≤ idx < parent + 2 ^ (len + Z.of_nat m) →
  (∀ b' fl', rep n b' fl' → tiling n (arr b') → (∀ j st, pstat n (arr b') j st ↔ pstat n (arr (bs s)) j st) → blk n (arr b') idx Free len → Q tt (set_bs b' s)) →
  wp (reserve_split m len parent idx) Q s.
Proof.
  induction m as [|m IH]; intros len parent idx s fl Q Hc Hr Ht Hlen Hal Hb Hin HQ; cbn [reserve_split].
  - replace (len + Z.of_nat 0) with len in * by lia. apply wp_ret. rewrite <- (set_bs_id s). eapply HQ; [exact Hr|done|done|].
    assert (parent = idx) as <-; [|done]. destruct (decide (parent = idx)); [done|]. exfalso.
    apply (aligned_interior parent idx (2 ^ len)); [by apply pow2_pos|by eapply blk_aligned|done|lia].
  - set (k := len + Z.of_nat m) in *. replace (len + Z.of_nat (S m)) with (k + 1) in * by lia. replace (k + 1 - 1) with k by lia.
    pose proof Hb as [_ Hkn]. pose proof (til_n _ _ Ht) as Hn. pose proof (pow2_pos k ltac:(lia)). pose proof (pow2_succ k ltac:(lia)).
    pose proof (blk_range _ _ Ht _ _ _ Hb). pose proof (neg_exp_neg (k + 1) ltac:(lia)). rewrite shl1_pow by lia.
    wp_step. eapply wp_buddy_delete; [done|exact Hr|lia|apply Hb|]. intros b1 Ha1 Hr1.
    wp_step. eapply wp_buddy_insert; [done|exact Hr1|lia|lia| |].
    { intros k' Hk'. cbn [bs set_bs]. rewrite Ha1, lookup_insert_eq. intros [=]. lia. }
    cbn [bs set_bs]. intros b2 Ha2 Hr2. autorewrite with kernel.
    wp_step. eapply wp_buddy_insert; [done|exact Hr2|lia|lia| |].
    { apply EMPTY_not_free; [done|]. cbn [bs set_bs]. rewrite Ha2, Ha1, !lookup_insert_ne by lia. eapply split_mid; [done|lia|done]. }
    cbn [bs set_bs]. intros b3 Ha3 Hr3. autorewrite with kernel.
    assert (Ha : arr b3 = split_blk parent Free Free k (arr (bs s))) by (rewrite Ha3, Ha2, Ha1, insert_insert_eq; done).
    assert (Ht3 : tiling n (arr b3)) by (rewrite Ha; eapply tiling_split; [done|lia|done]).
    set (p' := if idx <? parent + 2 ^ k then parent else parent + 2 ^ k).
    assert (Hb3 : blk n (arr b3) p' Free k).
    { rewrite Ha. apply (blk_split n _ Ht parent Free); [lia|done|]. unfold p'. destruct (idx <? _); [by left|by right; left]. }
    eapply (IH len p' idx (set_bs b3 s)); [done|exact Hr3|exact Ht3|done|done|exact Hb3| |].
    { unfold p'. fold k. destruct (Z.ltb_spec idx (parent + 2 ^ k)); lia. }
    cbn [bs set_bs]. intros b' fl' Hr' Ht' Hp' Hb'. autorewrite with kernel. eapply HQ; [exact Hr'|done| |done].
    intros j st. rewrite Hp', Ha, (pstat_split n _ Ht parent Free) by (done || lia).
    destruct (decide (parent ≤ j < parent + 2 ^ (k + 1))); [|naive_solver lia].
    rewrite (pstat_blk n _ Ht parent Free (k + 1) j st Hb) by done. split.
    + by intros [[_ ->]|[[_ ->]|[? _]]].
    + intros ->. destruct (Z.lt_ge_cases j (parent + 2 ^ k)); [left|right; left]; (split; [lia|done]).
Qed.

(** ** The block a page belongs to *)

Lemma wp_parent fuel : ∀ p i st k m s (Q : Z → mem → Prop),
  tiling n (arr (bs s)) → blk n (arr (bs s)) i st k → i ≤ p < i + 2 ^ k → 0 ≤ m → (2 ^ m | p) → 32 ≤ Z.of_nat fuel + m → (1 ≤ fuel)%nat →
  Q i s → wp (parent_walk fuel p) Q s.
Proof.
  induction fuel as [|fuel IH]; intros p i st k m s Q Ht Hb Hp Hm Hal Hf Hf1 HQ; [lia|]. cbn [parent_walk].
  destruct (decide (p = i)) as [->|Hne].
  - wp_step. apply (wp_arr_get _ (enc st k)); [apply Hb|]. rewrite (proj2 (Z.eqb_neq _ _)).
    + by apply wp_ret.
    + intros E. eapply blk_not_EMPTY; [done|exact Hb|]. rewrite (proj1 Hb). by f_equal.
  - wp_step. apply (wp_arr_get _ EMPTY); [apply (til_int _ _ Ht i st k); [done|lia]|]. rewrite Z.eqb_refl.
    pose proof (blk_range _ _ Ht _ _ _ Hb) as [Hi Hin]. pose proof (til_n _ _ Ht) as Hn. pose proof (pow2_le n 30 ltac:(lia)). pose proof Hb as [_ Hkn].
    destruct (land_lowbit p) as (t & Ht0 & -> & Hd); [lia|]. pose proof (pow2_pos t Ht0). pose proof (pow2_succ t Ht0).
    assert (Hdt : (2 ^ t | p)).
    { replace p with ((p - 2 ^ t) + 2 ^ t) by lia. apply Z.divide_add_r; [by apply half_aligned|apply Z.divide_refl]. }
    assert (Htp : 2 ^ t ≤ p) by (apply Z.divide_pos_le; [lia|done]).
    assert (Hmt : m ≤ t).
    { destruct (Z.le_gt_cases m t) as [|Hgt]; [done|]. exfalso.
      assert (Hd2 : (2 ^ (t + 1) | p)) by (eapply Z.divide_trans; [apply (pow2_divide (t + 1) m); lia|done]).
      apply (aligned_interior (p - 2 ^ t) p (2 ^ (t + 1))); [lia|done|done|lia]. }
    assert (Htk : t < k).
    { destruct (Z.lt_ge_cases t k) as [|Hge]; [done|]. exfalso. apply (aligned_interior i p (2 ^ k)); [apply pow2_pos; lia|by eapply blk_aligned| |lia].
      eapply Z.divide_trans; [apply (pow2_divide k t); lia|done]. }
    assert (Hile : i ≤ p - 2 ^ t).
    { destruct (Z.le_gt_cases i (p - 2 ^ t)) as [|Hgt]; [done|]. exfalso.
      apply (aligned_interior (p - 2 ^ t) i (2 ^ (t + 1))); [lia|done| |lia].
      eapply Z.divide_trans; [apply (pow2_divide (t + 1) k); lia|by eapply blk_aligned]. }
    assert (t < 30) by (apply pow2_lt_inv; lia).
    eapply (IH (p - 2 ^ t) i st k (t + 1)); [done|done|lia|lia|done|lia|lia|done].
Qed.
End Reserve.

(** ** The block a region needs *)

(** The block of order [e] at page [b] is the smallest aligned one that holds
    the addresses from [start] up to [end_]. *)
Record smallest_block (start end_ b e : Z) : Prop := mk_sb {
  sb_order : 0 ≤ e;
  sb_aligned : (2 ^ e | b);
  sb_covers : b * PAGE_SIZE ≤ start ∧ end_ ≤ (b + 2 ^ e) * PAGE_SIZE;
  sb_least b' e' : 0 ≤ e' → (2 ^ e' | b') → b' * PAGE_SIZE ≤ start → end_ ≤ (b' + 2 ^ e') * PAGE_SIZE → e ≤ e';
}.

Lemma land_lnot_pred x m : 0 ≤ m → Z.land x (Z.lnot (2 ^ m - 1)) = x / 2 ^ m * 2 ^ m.
Proof.
  intros Hm. replace (2 ^ m - 1) with (Z.ones m) by (rewrite Z.ones_equiv; lia).
  rewrite <- Z.ldiff_land, Z.ldiff_ones_r, Z.shiftr_div_pow2, Z.shiftl_mul_pow2 by lia. done.
Qed.

(** An aligned block with [start] in it starts at [start] rounded down. *)
Lemma aligned_start start b' e' : 0 ≤ e' → 0 ≤ start → (2 ^ e' | b') → b' * PAGE_SIZE ≤ start < (b' + 2 ^ e') * PAGE_SIZE →
  b' * PAGE_SIZE = start / 2 ^ (12 + e') * 2 ^ (12 + e').
Proof.
  intros He Hs [c ->] H. rewrite PAGE_SIZE_eq in *. rewrite Z.pow_add_r by lia. change (2 ^ 12) with 4096. pose proof (pow2_pos e' He).
  assert (start / (4096 * 2 ^ e') = c) as ->; [|lia]. symmetry. apply (Z.div_unique _ _ _ (start - c * (4096 * 2 ^ e'))); lia.
Qed.

Section Search.
Context (n start end_ : Z) (Hn : 0 ≤ n ≤ 30) (Hs : 0 ≤ start < end_) (He : end_ ≤ 2 ^ n * PAGE_SIZE).

Definition at_least (e : Z) : Prop :=
  ∀ b' e', 0 ≤ e' → (2 ^ e' | b') → b' * PAGE_SIZE ≤ start → end_ ≤ (b' + 2 ^ e') * PAGE_SIZE → e ≤ e'.

Definition rounded (e : Z) : Z := start / 2 ^ (12 + e) * 2 ^ (12 + e).

Lemma rounded_spec e : 0 ≤ e → rounded e ≤ start < rounded e + 2 ^ (12 + e) ∧ 0 ≤ rounded e ∧
  rounded e = start / 2 ^ (12 + e) * 2 ^ e * PAGE_SIZE ∧ 2 ^ (12 + e) = 2 ^ e * PAGE_SIZE.
Proof using Hn Hs He.
  intros H. unfold rounded. assert (E : 2 ^ (12 + e) = 2 ^ e * PAGE_SIZE) by (rewrite PAGE_SIZE_eq, Z.add_comm, Z.pow_add_r by lia; lia).
  pose proof (pow2_pos (12 + e) ltac:(lia)). pose proof (Z.mul_div_le start (2 ^ (12 + e)) ltac:(lia)).
  pose proof (Z.mul_succ_div_gt start (2 ^ (12 + e)) ltac:(lia)). assert (0 ≤ start / 2 ^ (12 + e)) by (apply Z.div_pos; lia).
  split_and!; [nia..| |done]. rewrite E at 2. lia.
Qed.

(** When the block of order [e] does not reach [end_], the next one is needed,
    and there is one. *)
Lemma next_order e : 0 ≤ e ≤ n → at_least e → rounded e + 2 ^ (12 + e) < end_ → e + 1 ≤ n ∧ at_least (e + 1).
Proof using Hn Hs He.
  intros Hen Hl Hr. split.
  - destruct (decide (e = n)) as [->|]; [|lia]. exfalso. destruct (rounded_spec n) as (? & ? & _ & E); [lia|]. lia.
  - intros b' e' He' Hal Hst Hend. pose proof (Hl b' e' He' Hal Hst Hend). destruct (decide (e' = e)) as [->|]; [|lia]. exfalso.
    pose proof (aligned_start start b' e He' ltac:(lia) Hal ltac:(lia)) as E. fold (rounded e) in E.
    destruct (rounded_spec e) as (_ & _ & _ & E2); [lia|]. lia.
Qed.

Lemma reserve_search_run fuel : ∀ e (s : mem), 0 ≤ e ≤ n → n - e < Z.of_nat fuel → at_least e →
  ∃ b k, reserve_search fuel (2 ^ (12 + e)) e start end_ (u64 (end_ - start)) s = Ok ((b * PAGE_SIZE, k), s) ∧ smallest_block start end_ b k ∧ 0 ≤ b < 2 ^ n ∧ k ≤ n.
Proof using Hn Hs He.
  induction fuel as [|fuel IH]; intros e s Hen Hf Hl; [lia|]. cbn [reserve_search].
  pose proof (pow2_le e n Hen). pose proof (pow2_le n 30 ltac:(lia)) as Hn30. destruct (rounded_spec e) as (Hr & Hr0 & Er & Ei); [lia|].
  assert (Hb64 : 2 ^ n * PAGE_SIZE ≤ 2 ^ 42) by (rewrite PAGE_SIZE_eq; lia). pose proof (pow2_le (12 + e) 42 ltac:(lia)). pose proof (pow2_pos (12 + e) ltac:(lia)).
  rewrite (u64_small (end_ - start)) by lia. rewrite land_lnot_pred by lia. fold (rounded e). rewrite (u64_small (rounded e + 2 ^ (12 + e))) by lia.
  assert (Hnext : rounded e + 2 ^ (12 + e) < end_ →
    ∃ b k, reserve_search fuel (u64 (Z.shiftl (2 ^ (12 + e)) 1)) (e + 1) start end_ (end_ - start) s = Ok ((b * PAGE_SIZE, k), s) ∧ smallest_block start end_ b k ∧ 0 ≤ b < 2 ^ n ∧ k ≤ n).
  { intros Hlt. destruct (next_order e Hen Hl Hlt) as [He1 Hl1]. rewrite Z.shiftl_mul_pow2, u64_small by lia.
    replace (2 ^ (12 + e) * 2 ^ 1) with (2 ^ (12 + (e + 1))) by (rewrite Z.add_assoc; apply Z.pow_add_r; lia).
    rewrite <- (u64_small (end_ - start)) by lia. apply IH; [lia|lia|done]. }
  destruct (Z.ltb_spec (2 ^ (12 + e)) (end_ - start)); [apply Hnext; lia|]. destruct (Z.ltb_spec (rounded e + 2 ^ (12 + e)) end_); [by apply Hnext|].
  assert (Hq : 0 ≤ start / 2 ^ (12 + e) * 2 ^ e) by (apply Z.mul_nonneg_nonneg; [apply Z.div_pos; [lia|apply pow2_pos; lia]|lia]).
  exists (start / 2 ^ (12 + e) * 2 ^ e), e. split_and!; [by rewrite <- Er| |done| |lia].
  - split; [lia|by apply Z.divide_factor_r|lia|exact Hl].
  - rewrite PAGE_SIZE_eq in *. lia.
Qed.
End Search.

(** ** memory_reserve *)

(** The pages of the block become used, the others stay what they were. *)
Definition taken_out (s s' : mem) (b e : Z) : Prop :=
  let n := num_pages_exp s in
  (∀ j, b ≤ j < b + 2 ^ e → pstat n (arr (bs s')) j Used) ∧
  (∀ j st, ¬ b ≤ j < b + 2 ^ e → pstat n (arr (bs s')) j st ↔ pstat n (arr (bs s)) j st).

(** The case [memory_reserve] gets wrong: the region lies in one page, and that
    page is a free block by itself. *)
Definition lone_page (s : mem) (b e : Z) : Prop := e = 0 ∧ blk (num_pages_exp s) (arr (bs s)) b Free 0.

Section Run.
Context (s : mem) (fl : Z → list Z) (Hwf : buddy_wf s fl).
Let n := num_pages_exp s.

(** Taking a free block of a state with the same pages outside it. *)
Lemma wp_take b e b1 fl1 (Q : unit → mem → Prop) :
  rep n b1 fl1 → tiling n (arr b1) → blk n (arr b1) b Free e →
  (∀ j st, ¬ b ≤ j < b + 2 ^ e → pstat n (arr b1) j st ↔ pstat n (arr (bs s)) j st) →
  (∀ b' fl', rep n b' fl' → tiling n (arr b') → taken_out s (set_bs b' s) b e → Q tt (set_bs b' s)) →
  wp (buddy_delete_free_block b e) Q (set_bs b1 s).
Proof using Hwf.
  intros Hr Ht Hb Hp HQ. pose proof Hb as [_ Hk]. eapply wp_buddy_delete; [apply Hwf|exact Hr|done|apply Hb|].
  cbn [bs set_bs]. intros b' Ha' Hr'. autorewrite with kernel. eapply HQ; [exact Hr'|..].
  - rewrite Ha'. by apply (tiling_retag n _ Ht b Free e Used).
  - unfold taken_out. cbn [bs set_bs]. fold n. rewrite Ha'. change (<[b:=neg_exp e]> (arr b1)) with (retag b Used e (arr b1)). split.
    + intros j Hj. apply (pstat_retag n _ Ht b Free e Used); [done|]. by left.
    + intros j st Hj. rewrite (pstat_retag n _ Ht b Free e Used), <- (Hp j st Hj) by done. naive_solver.
Qed.

Lemma wp_reserve start end_ (Q : unit → mem → Prop) :
  0 ≤ start < end_ → end_ ≤ bend s →
  (∀ b e b' fl', smallest_block start end_ b e → rep n b' fl' → tiling n (arr b') →
     (lone_page s b e ∧ b' = bs s) ∨ (¬ lone_page s b e ∧ taken_out s (set_bs b' s) b e) → Q tt (set_bs b' s)) →
  wp (memory_reserve start end_) Q s.
Proof using Hwf.
  intros Hs He HQ. pose proof Hwf as [Hc Hr Ht Hend]. fold n in Hr, Ht, Hend. pose proof (til_n _ _ Ht) as Hn. rewrite Hend in He.
  assert (Hl : at_least start end_ 0) by (intros ? ?; done).
  assert (H53 : n - 0 < Z.of_nat 53) by (change (Z.of_nat 53) with 53; lia).
  destruct (reserve_search_run n start end_ Hn Hs He 53 0 s ltac:(lia) H53 Hl) as (b & e & E & Hsb & Hb & Hen).
  unfold memory_reserve. wp_step. eapply wp_eq; [exact E|]. cbv beta iota.
  pose proof (pow2_le n 30 ltac:(lia)). rewrite Z.div_mul, i32_small by (done || lia). pose proof Hsb as [He0 Hal Hcov _].
  destruct (til_cov _ _ Ht b Hb) as (i & st & k & Hi & Hbi). pose proof Hi as [Hv Hk].
  wp_step. eapply (wp_parent n 32 b i st k 0); [done|done|done|lia|apply Z.divide_1_l|lia|lia|].
  wp_step. apply (wp_arr_get _ (enc st k)); [done|].
  assert (Hend2 : b + 2 ^ e ≤ 2 ^ n) by (apply aligned_le; [done|done|apply pow2_divide; lia|lia]).
  assert (Hib : k ≤ e → i = b).
  { intros Hke. destruct (decide (i = b)) as [|Hne]; [done|]. exfalso.
    apply (aligned_interior i b (2 ^ k)); [apply pow2_pos; lia|by eapply blk_aligned| |lia]. eapply Z.divide_trans; [apply (pow2_divide k e); lia|done]. }
  assert (Htake : ∀ b1 fl1, ¬ lone_page s b e → rep n b1 fl1 → tiling n (arr b1) → blk n (arr b1) b Free e →
    (∀ j st, ¬ b ≤ j < b + 2 ^ e → pstat n (arr b1) j st ↔ pstat n (arr (bs s)) j st) → wp (buddy_delete_free_block b e) Q (set_bs b1 s)).
  { intros b1 fl1 Hnl Hr1 Ht1 Hb1 Hp1. eapply wp_take; [exact Hr1|done..|]. intros b' fl' Hr' Ht' Hto. eapply HQ; [exact Hsb|done|done|by right]. }
  assert (Hclear : k ≤ e → ¬ lone_page s b e → wp (buddy_clear_block b (Z.to_nat e) ;; buddy_delete_free_block b e) Q s).
  { intros Hke Hnl. rewrite <- (Hib Hke) in *. wp_step. eapply (wp_clear n (Z.to_nat e) i st k s fl); rewrite ?Z2Nat.id by lia; [done|done|done|lia|done|done|done|lia|].
    intros b1 fl1 Hr1 Hs1 Hb1. eapply Htake; [done|exact Hr1|apply Hs1|done|]. intros j st' Hj. by apply (outside_pages n _ _ i Free e). }
  destruct st; cbn [enc].
  - destruct (decide (k = 0 ∧ e = 0)) as [[-> ->]|Hne].
    + rewrite (Hib ltac:(lia)) in *. apply wp_ret. rewrite <- (set_bs_id s). eapply HQ; [exact Hsb|exact Hr|done|left; done].
    + assert (Hnl : ¬ lone_page s b e).
      { intros [-> Hb0]. apply Hne. split; [|done]. assert (i = b) as <-; [|by destruct (blk_inj _ _ Ht _ _ _ _ _ Hi Hb0) as [_ ->]].
        apply (blk_overlap n _ Ht i Free k b Free 0 b); [done|done|done|lia]. }
      rewrite (proj2 (Z.leb_gt k (- e))) by lia. cbn [andb]. destruct (Z.leb_spec e k); [|by apply Hclear; [lia|]].
      wp_step. eapply (wp_split n _ e i b s fl); rewrite ?Z2Nat.id, ?Zplus_minus by lia; [done|done|done|done|done|done|done|].
      intros b1 fl1 Hr1 Ht1 Hp1 Hb1. eapply Htake; [done|exact Hr1|done|done|]. intros j st' _. apply Hp1.
  - assert (Hnl : ¬ lone_page s b e).
    { intros [-> Hb0]. assert (i = b) as <-; [|by destruct (blk_inj _ _ Ht _ _ _ _ _ Hi Hb0)]. apply (blk_overlap n _ Ht i Used k b Free 0 b); [done|done|done|lia]. }
    destruct (decide (k = 0)) as [->|Hk0].
    { change (neg_exp 0) with NEG_ZERO. rewrite Z.eqb_refl, andb_false_r. rewrite (proj2 (Z.leb_gt e NEG_ZERO)) by (unfold NEG_ZERO, INT_MAX; lia). by apply Hclear; [lia|]. }
    rewrite neg_exp_pos, (proj2 (Z.eqb_neq (- k) NEG_ZERO)) by (unfold NEG_ZERO, INT_MAX; lia). cbn [negb]. rewrite andb_true_r.
    destruct (Z.leb_spec (- k) (- e)) as [Hle|Hgt].
    + apply wp_ret. rewrite <- (set_bs_id s). eapply HQ; [exact Hsb|exact Hr|done|]. right. split; [done|]. split; [|done]. cbn [bs set_bs]. intros j Hj.
      exists i, k. split; [done|]. split; [lia|]. assert (b + 2 ^ e ≤ i + 2 ^ k); [|lia]. apply aligned_le; [done|done| |lia].
      apply Z.divide_add_r; [eapply Z.divide_trans; [apply (pow2_divide e k); lia|by eapply blk_aligned]|apply pow2_divide; lia].
    + rewrite (proj2 (Z.leb_gt e (- k))) by lia. by apply Hclear; [lia|].
Qed.
End Run.

Lemma wf_take s fl b' fl' : buddy_wf s fl → rep (num_pages_exp s) b' fl' → tiling (num_pages_exp s) (arr b') → buddy_wf (set_bs b' s) fl'.
Proof. intros Hwf Hr Ht. by apply (wf_set_bs s fl b' (mk_asys (arr b') fl')). Qed.

(** C4: [memory_reserve] returns, keeps the allocator's invariant and the interrupt
    state, and makes used exactly the pages of the smallest aligned block that
    holds the region, whether they were part of a larger free block, of several
    smaller blocks, free or used, or of a used block already.  The exception is
    a region in one page that is a free block by itself: it stays free. *)
Theorem memory_reserve_correct s start end_ : buddy_inv s → 0 ≤ start < end_ → end_ ≤ bend s →
  ∃ b e s', smallest_block start end_ b e ∧ memory_reserve start end_ s = Ok (tt, s') ∧ buddy_inv s' ∧ s' = set_bs (bs s') s ∧
    ((lone_page s b e ∧ s' = s) ∨ (¬ lone_page s b e ∧ taken_out s s' b e)).
Proof.
  intros [fl Hwf] Hs He.
  assert (Hrun : wp (memory_reserve start end_) (λ _ s', ∃ b e, smallest_block start end_ b e ∧ buddy_inv s' ∧ s' = set_bs (bs s') s ∧
    ((lone_page s b e ∧ s' = s) ∨ (¬ lone_page s b e ∧ taken_out s s' b e))) s).
  { eapply wp_reserve; [done..|]. intros b e b' fl' Hsb Hr Ht Hc. exists b, e. split; [done|]. split; [by exists fl'; eapply wf_take|]. split; [done|].
    destruct Hc as [[? ->]|?]; [left|by right]. split; [done|apply set_bs_id]. }
  apply wp_run in Hrun as ([] & s' & E & b & e & ? & ? & ? & ?). by exists b, e, s'.
Qed.

(** Page 3 of eight pages, then pages 1 and 2: the first block is cut down to
    one page, the second call covers it and three free pages. *)
Lemma memory_reserve_correct_witness :
  ∃ s1 s2, memory_reserve 0x3000 0x4000 mem8 = Ok (tt, s1) ∧ memory_reserve 0x1000 0x3000 s1 = Ok (tt, s2) ∧ buddy_inv s2 ∧ arr (bs s2) !! 0 = Some (-2).
Proof.
  destruct (memory_reserve_correct mem8 0x3000 0x4000 (proj1 mem8_ok)) as (b1 & e1 & s1 & _ & E1 & Hi1 & _ & _); [lia|vm_compute; discriminate|].
  assert (Hb : bend s1 = 0x8000) by (vm_compute in E1; injection E1 as <-; reflexivity).
  destruct (memory_reserve_correct s1 0x1000 0x3000 Hi1) as (b2 & e2 & s2 & _ & E2 & Hi2 & _ & _); [lia|rewrite Hb; lia|].
  exists s1, s2. split; [exact E1|]. split; [exact E2|]. split; [exact Hi2|].
  vm_compute in E1. injection E1 as <-. vm_compute in E2. injection E2 as <-. reflexivity.
Defined.

(** ** The regions of the boot *)

(** Page [j] holds a byte of the region. *)
Definition in_region (r : Z * Z) (j : Z) : Prop := r.1 < (j + 1) * PAGE_SIZE ∧ j * PAGE_SIZE < r.2.

Definition when_ne (u b : Z) (r : Z * Z) : list (Z * Z) := if u =? b then [] else [r].

(** The spin tables, the kernel, its page tables, the heap of the start-up
    allocator, the ramdisk, the device tree, and what is not memory. *)
Definition boot_regions (f : found) (s : mem) : list (Z * Z) :=
  [(0, 0x1000); (0x80000, 0x100000); (0x100000, 0x102000); (0x10000000, 0x18000000);
   (v2p_trans_kernel (ramdisk_saddr f), v2p_trans_kernel (ramdisk_eaddr f));
   (v2p_trans_kernel (dtb_addr f), v2p_trans_kernel (dtb_addr f + dtb_len f))] ++
  when_ne (usable_memory0 s) (base s) (base s, usable_memory0 s) ++ when_ne (usable_memory1 s) (bend s) (usable_memory1 s, bend s).

Lemma boot_regions_nonempty f s : v2p_trans_kernel (ramdisk_saddr f) < v2p_trans_kernel (ramdisk_eaddr f) →
  v2p_trans_kernel (dtb_addr f) < v2p_trans_kernel (dtb_addr f + dtb_len f) →
  (usable_memory0 s = base s ∨ base s < usable_memory0 s) → (usable_memory1 s = bend s ∨ usable_memory1 s < bend s) →
  ∀ r, r ∈ boot_regions f s → r.1 < r.2.
Proof.
  intros Hrd Hdt Hu0 Hu1 r Hr. unfold boot_regions, when_ne in Hr. apply elem_of_app in Hr as [Hr|Hr]; [|apply elem_of_app in Hr as [Hr|Hr]].
  - repeat (apply elem_of_cons in Hr as [->|Hr]; [simpl in *; lia|]). by apply elem_of_nil in Hr.
  - destruct (Z.eqb_spec (usable_memory0 s) (base s)); [by apply elem_of_nil in Hr|]. apply list_elem_of_singleton in Hr as ->. simpl. lia.
  - destruct (Z.eqb_spec (usable_memory1 s) (bend s)); [by apply elem_of_nil in Hr|]. apply list_elem_of_singleton in Hr as ->. simpl. lia.
Qed.

(** A region of more than one page, in the range of the allocator. *)
Definition wide (s : mem) (r : Z * Z) : Prop := 0 ≤ r.1 < r.2 ∧ r.2 ≤ bend s ∧ r.1 / PAGE_SIZE ≠ (r.2 - 1) / PAGE_SIZE.

Lemma wide_not_lone s a c b e : wide s (a, c) → smallest_block a c b e → ¬ lone_page s b e.
Proof.
  intros (Hr & _ & Hw) [_ _ [H1 H2] _] [-> _]. simpl in *. rewrite PAGE_SIZE_eq in *. change (2 ^ 0) with 1 in H2. apply Hw.
  rewrite <- (Z.div_unique a 4096 b (a - 4096 * b)), <- (Z.div_unique (c - 1) 4096 b (c - 1 - 4096 * b)); lia.
Qed.

Section Boot.
Context (s0 : mem).
Let n := num_pages_exp s0.

(** Some regions are reserved. *)
Record boot_st (s : mem) (l : list (Z * Z)) : Prop := mk_boot {
  bt_inv : buddy_inv s;
  bt_bs : s = set_bs (bs s) s0;
  bt_used r j : r ∈ l → in_region r j → pstat n (arr (bs s)) j Used;
}.

Lemma wp_region s l a c (Q : unit → mem → Prop) : boot_st s l → 0 ≤ a < c → c ≤ bend s0 →
  (∀ b e, smallest_block a c b e → ¬ lone_page s b e) → (∀ s', boot_st s' ((a, c) :: l) → Q tt s') → wp (memory_reserve a c) Q s.
Proof.
  intros [[fl Hwf] Hs Hu] Ha Hc Hnl HQ. assert (Hn : num_pages_exp s = n) by (by rewrite Hs). assert (Hc' : c ≤ bend s) by (by rewrite Hs).
  eapply wp_reserve; [exact Hwf|done|done|]. intros b e b' fl' Hsb Hr Ht Hcase. apply HQ. destruct Hcase as [[Hlp _]|[_ [Hin Hout]]]; [by destruct (Hnl b e)|].
  rewrite Hn in *. cbn [bs set_bs] in *. split; cbn [bs set_bs].
  - exists fl'. apply (wf_take s fl); rewrite ?Hn; done.
  - by rewrite Hs.
  - intros r j Hrl Hj. destruct (decide (b ≤ j < b + 2 ^ e)) as [|Hnj]; [by apply Hin|]. rewrite Hout by done.
    apply elem_of_cons in Hrl as [->|Hrl]; [|by eapply Hu]. exfalso. apply Hnj. destruct Hsb as [_ _ [H1 H2] _], Hj as [H3 H4]. rewrite PAGE_SIZE_eq in *. simpl in *. lia.
Qed.

Lemma wp_wide s l a c (Q : unit → mem → Prop) : boot_st s l → wide s0 (a, c) → (∀ s', boot_st s' ((a, c) :: l) → Q tt s') → wp (memory_reserve a c) Q s.
Proof.
  intros Hb Hw HQ. pose proof Hw as (Ha & Hc & Hne). eapply wp_region; [exact Hb|done|done| |done].
  intros b e. apply wide_not_lone. destruct Hb as [_ Hs _]. by rewrite Hs.
Qed.

Lemma wp_when s l u b a c (Q : unit → mem → Prop) : boot_st s l → (u = b ∨ wide s0 (a, c)) →
  (∀ s', boot_st s' (when_ne u b (a, c) ++ l) → Q tt s') → wp (if negb (u =? b) then memory_reserve a c else mret tt) Q s.
Proof.
  intros Hb Hw HQ. unfold when_ne in HQ. destruct (Z.eqb_spec u b) as [|]; cbn [negb]; [by apply wp_ret, HQ|].
  destruct Hw as [|Hw]; [done|]. by eapply wp_wide.
Qed.
End Boot.

(** A block that is handed out does not touch a reserved region, so its address
    is not 0 once page 0 is reserved. *)
Lemma malloc_avoids s req (l : list (Z * Z)) : buddy_inv s → 0 < req → (∀ r j, r ∈ l → in_region r j → pstat (num_pages_exp s) (arr (bs s)) j Used) →
  (∀ r, r ∈ l → r.1 < r.2) → (0, PAGE_SIZE) ∈ l →
  ∃ p s', buddy_malloc req s = Ok (p, s') ∧
    ((p = 0 ∧ bs s' = bs s) ∨ (p ≠ 0 ∧ ∀ r, r ∈ l → p + req * PAGE_SIZE ≤ r.1 ∨ r.2 ≤ p)).
Proof.
  intros [fl Hwf] Hreq Hl Hne H0. pose proof Hwf as [Hc Hr Ht He]. pose proof (malloc_run s fl req Hwf Hreq) as Hrun.
  destruct (a_malloc _ _ _) as [[idx x']|] eqn:Ha; [|by eexists _, _; split; [exact Hrun|left]].
  destruct Hrun as (b' & E & Hb'). pose proof Hb' as [Hab' _].
  destruct (a_malloc_pages _ _ _ _ _ _ Hwf Ha Hab') as (k & Hk & Hreqk & _ & (Hblk & Hfree & _) & Ht' & _). cbn [bs set_bs] in Hblk. rewrite Hab' in Hblk.
  assert (Hno : ∀ r j, r ∈ l → in_region r j → idx ≤ j < idx + 2 ^ k → False).
  { intros r j Hr' Hj Hin. pose proof (pstat_fun _ _ Ht j _ _ (Hl r j Hr' Hj) (Hfree j Hin)). done. }
  pose proof (pow2_pos k ltac:(lia)). pose proof (blk_idx_range _ _ _ _ _ Ht' Hblk) as Hidx.
  eexists _, _. split; [exact E|]. right. rewrite (idx_addr _ _ _ _ _ Ht' Hblk). rewrite PAGE_SIZE_eq in *. split.
  - intros Hz. apply (Hno (0, 4096) idx); [done|split; rewrite PAGE_SIZE_eq; simpl; lia|lia].
  - intros [a c] Hr'. pose proof (Hne _ Hr') as Hac. simpl in *. pose proof (Z.mul_div_le a 4096 ltac:(lia)). pose proof (Z.mul_succ_div_gt a 4096 ltac:(lia)).
    destruct (Z.le_gt_cases (idx * 4096 + req * 4096) a) as [|Hlt]; [by left|]. destruct (Z.le_gt_cases c (idx * 4096)) as [|Hgt]; [by right|]. exfalso.
    apply (Hno (a, c) (Z.max idx (a / 4096))); [done|split; rewrite PAGE_SIZE_eq; simpl; lia|lia].
Qed.

(** The regions are reserved one after the other; the first one, of a single
    page, is cut out of the block that is the whole memory. *)
Lemma reserve_run f s :
  buddy_inv s → blk (num_pages_exp s) (arr (bs s)) 0 Free (num_pages_exp s) → 0x18000000 ≤ bend s →
  wide s (v2p_trans_kernel (ramdisk_saddr f), v2p_trans_kernel (ramdisk_eaddr f)) → wide s (v2p_trans_kernel (dtb_addr f), v2p_trans_kernel (dtb_addr f + dtb_len f)) →
  (usable_memory0 s = base s ∨ wide s (base s, usable_memory0 s)) → (usable_memory1 s = bend s ∨ wide s (usable_memory1 s, bend s)) →
  wp (reserve_mem_regions f) (λ _ s', ∃ l', boot_st s s' l' ∧ boot_regions f s ⊆ l') s.
Proof.
  intros Hi Hb0 Hend Hrd Hdt Hu0 Hu1.
  assert (Hk : ∀ a c, 0 ≤ a < c → c ≤ 0x18000000 → a / 4096 ≠ (c - 1) / 4096 → wide s (a, c)) by (intros a c ? ? ?; split_and!; simpl; [lia..|lia|done]).
  unfold reserve_mem_regions, SPIN_TABLE_START, SPIN_TABLE_END.
  change (v2p_trans_kernel _stext) with 0x80000. change (v2p_trans_kernel _estack) with 0x100000. change PGD_ADDR with 0x100000. change (PUD_ADDR + PAGE_SIZE) with 0x102000.
  change (v2p_trans_kernel heap_start) with 0x10000000. change (v2p_trans_kernel (heap_start + HEAP_SIZE)) with 0x18000000.
  wp_step. eapply (wp_region s s []); [split; [done|by rewrite set_bs_id|intros r j Hr; by apply elem_of_nil in Hr]|lia|lia| |].
  { intros b e _ [_ Hb]. destruct Hi as [fl [_ _ Ht He]]. pose proof Hb as [Hv _]. assert (0 = b) as <-.
    { apply (blk_overlap _ _ Ht 0 Free (num_pages_exp s) b Free 0 b); [done|done| |change (2 ^ 0) with 1; lia]. apply (blk_idx_range _ _ _ _ _ Ht Hb). }
    destruct (blk_inj _ _ Ht _ _ _ _ _ Hb0 Hb) as [_ E0]. rewrite E0, PAGE_SIZE_eq in He. change (2 ^ 0) with 1 in He. lia. }
  intros s1 H1. wp_step. eapply wp_wide; [exact H1|apply Hk; [lia|lia|done]|]. intros s2 H2. wp_step. eapply wp_wide; [exact H2|apply Hk; [lia|lia|done]|].
  intros s3 H3. wp_step. eapply wp_wide; [exact H3|apply Hk; [lia|lia|done]|]. intros s4 H4. wp_step. eapply wp_wide; [exact H4|done|].
  intros s5 H5. wp_step. eapply wp_wide; [exact H5|done|]. intros s6 H6. wp_steps.
  assert (E6 : usable_memory0 s6 = usable_memory0 s ∧ base s6 = base s) by (by rewrite (bt_bs _ _ _ H6)). destruct E6 as [-> ->].
  eapply wp_when; [exact H6|done|]. intros s7 H7. wp_steps.
  assert (E7 : usable_memory1 s7 = usable_memory1 s ∧ bend s7 = bend s) by (by rewrite (bt_bs _ _ _ H7)). destruct E7 as [-> ->].
  eapply wp_when; [exact H7|done|]. intros s8 H8. eexists. split; [exact H8|]. unfold boot_regions. set_solver.
Qed.

(** After [buddy_init], [reserve_mem_regions] returns with the invariant kept;
    every page with a byte of the spin tables, the kernel, the page tables, the
    start-up heap, the ramdisk, the device tree or of addresses that are no
    memory is then used, so that no block [buddy_malloc] hands out touches one
    of them, and a result of 0 always means that none was handed out. *)
Theorem reserve_mem_regions_correct f s : let l := boot_regions f s in
  buddy_inv s → blk (num_pages_exp s) (arr (bs s)) 0 Free (num_pages_exp s) → 0x18000000 ≤ bend s →
  wide s (v2p_trans_kernel (ramdisk_saddr f), v2p_trans_kernel (ramdisk_eaddr f)) → wide s (v2p_trans_kernel (dtb_addr f), v2p_trans_kernel (dtb_addr f + dtb_len f)) →
  (usable_memory0 s = base s ∨ wide s (base s, usable_memory0 s)) → (usable_memory1 s = bend s ∨ wide s (usable_memory1 s, bend s)) →
  ∃ s', reserve_mem_regions f s = Ok (tt, s') ∧ buddy_inv s' ∧ s' = set_bs (bs s') s ∧
    (∀ r j, r ∈ l → in_region r j → pstat (num_pages_exp s) (arr (bs s')) j Used) ∧
    ∀ req, 0 < req → ∃ p s2, buddy_malloc req s' = Ok (p, s2) ∧
      ((p = 0 ∧ bs s2 = bs s') ∨ (p ≠ 0 ∧ ∀ r, r ∈ l → p + req * PAGE_SIZE ≤ r.1 ∨ r.2 ≤ p)).
Proof.
  intros l Hi Hb0 Hend Hrd Hdt Hu0 Hu1.
  pose proof (reserve_run f s Hi Hb0 Hend Hrd Hdt Hu0 Hu1) as Hrun.
  apply wp_run in Hrun as ([] & s' & E & l' & [Hi' Hs' Hu'] & Hl). exists s'. split_and!; [done..|intros r j Hr; apply Hu', Hl, Hr|].
  intros req Hreq. apply malloc_avoids; [done|done| | |].
  - intros r j Hr Hj. rewrite Hs'. cbn [bs set_bs num_pages_exp]. by apply (Hu' r); [apply Hl|].
  - destruct Hrd as [Hrd _], Hdt as [Hdt _]. apply boot_regions_nonempty; [apply Hrd|apply Hdt| |].
    + destruct Hu0 as [|[? _]]; [by left|right; simpl in *; lia].
    + destruct Hu1 as [|[? _]]; [by left|right; simpl in *; lia].
  - unfold l, boot_regions. rewrite PAGE_SIZE_eq. by left.
Qed.

(** A board with 948 MB of memory for the kernel. *)
Lemma reserve_mem_regions_correct_witness : ∃ s s', buddy_init (boot_mem 0x3b400000) = Ok (tt, s) ∧
  reserve_mem_regions (mk_found (v_kernel_space + 0x8000000) (v_kernel_space + 0x8001234) (v_kernel_space + 0x8200000) 0x8000) s = Ok (tt, s') ∧
  pstat (num_pages_exp s) (arr (bs s')) 0x81 Used.
Proof.
  destruct (buddy_init_inv (boot_mem 0x3b400000)) as (s & E & Hi & _ & _ & Hb & _ & Hba & Hn & Hend & Hmin & Hu0 & Hu1 & _); [exact boot_cpu_ok|reflexivity|vm_compute; discriminate|].
  change (usable_memory0 (boot_mem 0x3b400000)) with 0 in Hu0. change (usable_memory1 (boot_mem 0x3b400000)) with 0x3b400000 in *.
  assert (Hbe : bend s = 0x40000000).
  { destruct Hi as [fl [_ _ _ He]]. rewrite PAGE_SIZE_eq in *. assert (num_pages_exp s = 18) as Hn18; [|rewrite He, Hn18; reflexivity].
    apply Z.le_antisymm; apply Z.nlt_ge; intros Hlt.
    - pose proof (pow2_le 18 (num_pages_exp s - 1)). destruct Hmin as [|Hmin]; lia.
    - pose proof (pow2_le (num_pages_exp s) 17). lia. }
  assert (Hw : ∀ a c, 0 ≤ a < c → c ≤ 0x40000000 → a / 4096 ≠ (c - 1) / 4096 → wide s (a, c)) by (intros a c ? ? ?; split_and!; simpl; [lia..|lia|assumption]).
  destruct (reserve_mem_regions_correct (mk_found (v_kernel_space + 0x8000000) (v_kernel_space + 0x8001234) (v_kernel_space + 0x8200000) 0x8000) s Hi Hb) as (s' & E' & _ & _ & Hu & _).
  - rewrite Hbe. lia.
  - apply Hw; [vm_compute; split; [discriminate|reflexivity]|vm_compute; discriminate|vm_compute; discriminate].
  - apply Hw; [vm_compute; split; [discriminate|reflexivity]|vm_compute; discriminate|vm_compute; discriminate].
  - left. rewrite Hu0, Hba. reflexivity.
  - right. rewrite Hu1, Hbe. apply Hw; [lia|lia|vm_compute; discriminate].
  - exists s, s'. split; [exact E|]. split; [exact E'|]. apply (Hu (0x80000, 0x100000)); [right; left|split; vm_compute; reflexivity].
Defined.
