(* ===== verification/Dynamic.v ===== *)
(** * The dynamic allocator (malloc and free of src/kernel/mem.c)

    Small requests are served from page frames cut into equal chunks: one
    singly linked list of pages ([mem_pool]) per chunk size from 2^4 to 2^11
    bytes, one [dynamic_node] per page with a bitmap of its chunks.  Large
    requests go to the buddy system. *)

From S2P Require Import Prelude Cpu Dll Buddy.

Definition MIN_POOL_SIZE_EXP : Z := 4.
Definition MAX_POOL_SIZE_EXP : Z := 11.
Definition BITMAP_ARR : Z := PAGE_SIZE / Z.shiftl 1 MIN_POOL_SIZE_EXP / 64.
Definition sizeof_dynamic_node : Z := 72.

Record dynamic_node := mk_dnode {
  dn_addr : Z;
  chunk_size : Z;
  dn_sum : Z;
  bitmap : gmap Z Z;
  cur_idx : Z;
  dn_next : option Z;
}.

Record dmem := mk_dmem {
  d_mem : mem;
  mem_pool : gmap Z (option Z);
  dynamic_node_arr : gmap Z dynamic_node;
}.

Definition set_dmem (m : mem) (d : dmem) : dmem := mk_dmem m (mem_pool d) (dynamic_node_arr d).
Definition set_pool (p : gmap Z (option Z)) (d : dmem) : dmem := mk_dmem (d_mem d) p (dynamic_node_arr d).
Definition set_dnodes (n : gmap Z dynamic_node) (d : dmem) : dmem := mk_dmem (d_mem d) (mem_pool d) n.
Definition on_mem {A} (m : M mem A) : M dmem A := zoom d_mem set_dmem m.

Definition set_chunk (cs : Z) (x : dynamic_node) : dynamic_node :=
  mk_dnode (dn_addr x) cs (dn_sum x) (bitmap x) (cur_idx x) (dn_next x).
Definition set_addr (a : Z) (x : dynamic_node) : dynamic_node :=
  mk_dnode a (chunk_size x) (dn_sum x) (bitmap x) (cur_idx x) (dn_next x).
Definition set_sum (v : Z) (x : dynamic_node) : dynamic_node :=
  mk_dnode (dn_addr x) (chunk_size x) v (bitmap x) (cur_idx x) (dn_next x).
Definition set_bitmap (bm : gmap Z Z) (x : dynamic_node) : dynamic_node :=
  mk_dnode (dn_addr x) (chunk_size x) (dn_sum x) bm (cur_idx x) (dn_next x).
Definition set_cur_idx (i : Z) (x : dynamic_node) : dynamic_node :=
  mk_dnode (dn_addr x) (chunk_size x) (dn_sum x) (bitmap x) i (dn_next x).
Definition set_next (q : option Z) (x : dynamic_node) : dynamic_node :=
  mk_dnode (dn_addr x) (chunk_size x) (dn_sum x) (bitmap x) (cur_idx x) q.

Definition pool_get (k : Z) : M dmem (option Z) := d ← get_st; deref (mem_pool d !! k).
Definition pool_set (k : Z) (h : option Z) : M dmem unit :=
  _ ← pool_get k; modify (λ d, set_pool (<[k := h]> (mem_pool d)) d).
Definition dnode_get (i : Z) : M dmem dynamic_node :=
  d ← get_st; deref (dynamic_node_arr d !! i).
Definition dnode_upd (i : Z) (f : dynamic_node → dynamic_node) : M dmem unit :=
  _ ← dnode_get i; modify (λ d, set_dnodes (alter f i (dynamic_node_arr d)) d).
Definition bitmap_get (x : dynamic_node) (w : Z) : M dmem Z := deref (bitmap x !! w).

Definition zero_bitmap : gmap Z Z :=
  list_to_map ((λ i, (i, 0)) <$> zseq 0 (Z.to_nat BITMAP_ARR)).

(** ** dynamic_allocator_init *)

Definition dynamic_allocator_init : M dmem unit :=
  modify (set_pool (list_to_map ((λ i, (i, None)) <$>
    zseq 0 (Z.to_nat (MAX_POOL_SIZE_EXP - MIN_POOL_SIZE_EXP + 1))))) ;;
  n ← gets (λ d, num_pages_exp (d_mem d));
  p ← on_mem (simple_malloc (u64 (shl1 n * sizeof_dynamic_node)));
  assert (bool_decide (p ≠ None)) ;;
  modify (set_dnodes (list_to_map
    ((λ i, (i, mk_dnode (u64 (PAGE_SIZE * i)) PAGE_SIZE 0 zero_bitmap (-1) None)) <$>
     zseq 0 (Z.to_nat (shl1 n))))).

(** [for (size_t i = 1; i < size; i <<= 1, size_exp++) ;] *)
Fixpoint size_exp_loop (fuel : nat) (i size size_exp : Z) : M dmem Z :=
  match fuel with
  | O => spin
  | S fuel' =>
      if i <? size then size_exp_loop fuel' (u64 (Z.shiftl i 1)) size (size_exp + 1)
      else mret size_exp
  end.

(** [for (size_t size = chunk_size; size > 0; size_exp++, size >>= 1) ;] *)
Fixpoint log_loop (fuel : nat) (size size_exp : Z) : M dmem Z :=
  match fuel with
  | O => spin
  | S fuel' =>
      if 0 <? size then log_loop fuel' (Z.shiftr size 1) (size_exp + 1) else mret size_exp
  end.

Section Alloc.

(** [1 << k] with the [int] constant 1: C leaves it undefined from [k = 32]
    on, and the code shifts by up to 63.  [wide k] is what the compiled code
    gives there; [None] keeps it undefined. *)
Variable wide : Z → option Z.

Definition shl_int (k : Z) : option Z := 
  if (0 <=? k) && (k <? 32) then Some (shl1 k) else wide k.

(** The scan of one page of the pool for a clear bit, from the chunk behind
    the last allocated one round to that one. *)
Fixpoint chunk_scan (fuel : nat) (p num_chunks i : Z) : M dmem (option Z) :=
  match fuel with
  | O => spin
  | S fuel' =>
      cur ← dnode_get p;
      let bitmap_arr_idx := Z.quot i 64 in
      let bitmap_element_idx := Z.rem i 64 in
      w ← bitmap_get cur bitmap_arr_idx;
      b ← deref (shl_int bitmap_element_idx);
      if negb (Z.land w (u64 b) =? 0) then
        if i =? cur_idx cur then mret None
        else chunk_scan fuel' p num_chunks (Z.rem (i + 1) num_chunks)
      else
        dnode_upd p (set_sum (i32 (dn_sum cur + (i + 1)))) ;;
        dnode_upd p (set_bitmap (<[bitmap_arr_idx := Z.lor w (u64 b)]> (bitmap cur))) ;;
        dnode_upd p (set_cur_idx i) ;;
        on_mem (on_cpu enable_int) ;;
        cur ← dnode_get p;
        mret (Some (u64 (dn_addr cur + i * chunk_size cur)))
  end.

(** The walk over the pool's pages: a chunk's address, or the last page. *)
Fixpoint pool_walk (fuel : nat) (prev cur : option Z) (size_exp : Z) : M dmem (Z + option Z) :=
  match cur with
  | None => mret (inr prev)
  | Some c =>
      match fuel with
      | O => spin
      | S fuel' =>
          let num_chunks := PAGE_SIZE / shl1 size_exp in
          x ← dnode_get c;
          r ← chunk_scan (Z.to_nat num_chunks) c num_chunks (Z.rem (cur_idx x + 1) num_chunks);
          match r with
          | Some a => mret (inl a)
          | None => x ← dnode_get c; pool_walk fuel' (Some c) (dn_next x) size_exp
          end
      end
  end.

(** The end of [malloc]: a new page frame behind the last page of the pool. *)
Definition pool_grow (size_exp : Z) (prev : option Z) : M dmem Z :=
  addr ← on_mem (buddy_malloc 1);
  let node_ptr := addr / PAGE_SIZE in
  match prev with
  | None => pool_set (size_exp - MIN_POOL_SIZE_EXP) (Some node_ptr)
  | Some q => dnode_upd q (set_next (Some node_ptr))
  end ;;
  dnode_upd node_ptr (set_addr (p2v_trans_kernel addr)) ;;
  dnode_upd node_ptr (set_chunk (u64 (shl1 size_exp))) ;;
  dnode_upd node_ptr (λ x, set_sum (i32 (dn_sum x + 1)) x) ;;
  x ← dnode_get node_ptr;
  w ← bitmap_get x 0;
  dnode_upd node_ptr (set_bitmap (<[0 := Z.lor w 1]> (bitmap x))) ;;
  dnode_upd node_ptr (set_cur_idx 0) ;;
  on_mem (on_cpu enable_int) ;;
  x ← dnode_get node_ptr;
  mret (dn_addr x).

(** [fuel] bounds the number of pages of one pool. *)
Definition malloc (fuel : nat) (size : Z) : M dmem Z :=
  on_mem (on_cpu disable_int) ;;
  if size =? 0 then on_mem (on_cpu enable_int) ;; mret 0
  else if PAGE_SIZE <=? size then
    ret ← on_mem (buddy_malloc (u32 ((size - 1) / PAGE_SIZE + 1)));
    on_mem (on_cpu enable_int) ;;
    mret (p2v_trans_kernel ret)
  else
    size_exp ← size_exp_loop 13 1 size 0;
    if MAX_POOL_SIZE_EXP <? size_exp then
      ret ← on_mem (buddy_malloc 1);
      on_mem (on_cpu enable_int) ;;
      mret (p2v_trans_kernel ret)
    else
      let size_exp := if size_exp <? MIN_POOL_SIZE_EXP then MIN_POOL_SIZE_EXP else size_exp in
      cur ← pool_get (size_exp - MIN_POOL_SIZE_EXP);
      r ← pool_walk fuel None cur size_exp;
      match r with
      | inl a => mret a
      | inr prev => pool_grow size_exp prev
      end.

(** The walk of [free] to the page in its pool, with the page before it. *)
Fixpoint pool_find (fuel : nat) (prev cur : option Z) (node_ptr : Z) : M dmem (option Z) :=
  if bool_decide (cur = Some node_ptr) then mret prev
  else
    match fuel with
    | O => spin
    | S fuel' => c ← deref cur; x ← dnode_get c; pool_find fuel' cur (dn_next x) node_ptr
    end.

(** The end of [free]: a page without chunks leaves its pool and goes back
    to the buddy system. *)
Definition release_page (fuel : nat) (page_idx : Z) : M dmem unit :=
  x ← dnode_get page_idx;
  size_exp ← log_loop 65 (chunk_size x) (-1);
  cur ← pool_get (size_exp - MIN_POOL_SIZE_EXP);
  prev ← pool_find fuel None cur page_idx;
  x ← dnode_get page_idx;
  match prev with
  | None => pool_set (size_exp - MIN_POOL_SIZE_EXP) (dn_next x)
  | Some q => dnode_upd q (set_next (dn_next x))
  end ;;
  dnode_upd page_idx (set_chunk PAGE_SIZE) ;;
  dnode_upd page_idx (set_sum 0) ;;
  dnode_upd page_idx (set_next None) ;;
  dnode_upd page_idx (set_bitmap zero_bitmap) ;;
  x ← dnode_get page_idx;
  on_mem (buddy_free (v2p_trans_kernel (dn_addr x))) ;;
  dnode_upd page_idx (set_addr (u64 (page_idx * PAGE_SIZE))).

Definition free (fuel : nat) (vptr : Z) : M dmem unit :=
  on_mem (on_cpu disable_int) ;;
  let ptr := v2p_trans_kernel vptr in
  let page_idx := i32 (ptr / PAGE_SIZE) in
  e ← gets (λ d, bend (d_mem d));
  if e <=? ptr then
    on_mem (on_cpu enable_int) ;; on_mem (on_cpu (printf ("Invalid pointer" +:+ crlf)))
  else
    x ← dnode_get page_idx;
    if chunk_size x =? PAGE_SIZE then
      on_mem (buddy_free ptr) ;; on_mem (on_cpu enable_int)
    else
      assert (negb (chunk_size x =? 0)) ;;
      let chunk_idx := i32 (u64 (vptr - dn_addr x) / chunk_size x) in
      w ← bitmap_get x (Z.quot chunk_idx 64);
      b ← deref (shl_int (Z.rem chunk_idx 64));
      if Z.land w (u64 b) =? 0 then
        on_mem (on_cpu enable_int) ;; on_mem (on_cpu (printf ("The chunk is not in use" +:+ crlf)))
      else
        dnode_upd page_idx (set_sum (i32 (dn_sum x - (chunk_idx + 1)))) ;;
        dnode_upd page_idx
          (set_bitmap (<[Z.quot chunk_idx 64 := Z.land w (u64 (Z.lnot b))]> (bitmap x))) ;;
        x ← dnode_get page_idx;
        (if dn_sum x =? 0 then
           release_page fuel page_idx
         else mret tt) ;;
        on_mem (on_cpu enable_int).

End Alloc.
