(* ===== verification/DynamicRep.v ===== *)
(** * Bitmaps, pools and the invariant of the dynamic allocator

    The bitmap of a page refines a list of live chunks, and the pages of one
    pool a list of page numbers.  A chunk's bit is the one its shifted [int]
    constant selects: chunk [i] uses bit [i mod 32] of word [i / 64], and the
    constant [1 << 31] is sign-extended, so bits 31 to 63 move together.  Then
    the invariant [dyn_wf], and runs of the loops of malloc and free. *)

From S2P Require Import Prelude Cpu Dll Buddy BuddyRep BuddyTiling BuddyAlloc BuddyProps Dynamic.

(** ** Bits *)

Definition slot (i : Z) : Z * Z := (i / 64, i mod 32).
Definition used (live : list Z) (i : Z) : Prop := slot i ∈ slot <$> live.
#[export] Instance used_dec live i : Decision (used live i).
Proof. unfold used. apply _. Defined.

Definition bits_ok (bm : gmap Z Z) (live : list Z) : Prop :=
  ∀ w, 0 ≤ w < 4 → ∃ v, bm !! w = Some v ∧ 0 ≤ v < 2 ^ 64 ∧
    ∀ b, 0 ≤ b < 64 → Z.testbit v b = bool_decide ((w, Z.min b 31) ∈ slot <$> live).

Definition chunk_sum (live : list Z) : Z := foldr (λ i a, i + 1 + a) 0 live.

Lemma shl1_testbit r b : 0 ≤ r < 32 → 0 ≤ b < 64 →
  Z.testbit (shl1 r) b = bool_decide (Z.min b 31 = r).
Proof.
  intros Hr Hb. destruct (decide (r = 31)) as [->|].
  - change (shl1 31) with (- 2 ^ 31). replace (- 2 ^ 31) with (Z.shiftl (-1) 31) by done.
    rewrite Z.shiftl_spec by lia. destruct (decide (31 ≤ b)).
    + rewrite Z.bits_m1 by lia. symmetry. apply bool_decide_eq_true. lia.
    + rewrite Z.testbit_neg_r by lia. symmetry. apply bool_decide_eq_false. lia.
  - rewrite shl1_pow by lia. rewrite Z.pow2_bits_eqb by lia. apply eq_true_iff_eq.
    rewrite bool_decide_eq_true, Z.eqb_eq. lia.
Qed.

Section Bits.
Context (bm : gmap Z Z) (live : list Z) (i : Z).
Hypothesis Hbits : bits_ok bm live.
Hypothesis Hi : 0 ≤ i < 256.

Let r := i mod 32.

Lemma slot_range : 0 ≤ i / 64 < 4 ∧ 0 ≤ r < 32.
Proof.
  split; [|apply Z.mod_pos_bound; lia].
  split; [apply Z.div_pos; lia|apply Z.div_lt_upper_bound; lia].
Qed.

Lemma bits_word : ∃ v, bm !! (i / 64) = Some v.
Proof. destruct (Hbits (i / 64)) as (v & ? & _); [apply slot_range|eauto]. Qed.

Lemma bits_test v : bm !! (i / 64) = Some v →
  Z.land v (u64 (shl1 r)) = 0 ↔ ¬ used live i.
Proof.
  intros Hv. destruct slot_range as [Hw Hr].
  destruct (Hbits _ Hw) as (v' & Hv' & Hv64 & Hb). simplify_eq. split.
  - intros H0. assert (Z.testbit (Z.land v (u64 (shl1 r))) r = false) as E
      by (rewrite H0; apply Z.bits_0).
    rewrite Z.land_spec, Hb, u64_testbit, shl1_testbit in E by lia.
    rewrite Z.min_l in E by lia. rewrite (bool_decide_true (r = r)) in E by done.
    destruct (Z.ltb_spec r 64); [|lia]. simpl in E. rewrite andb_true_r in E.
    by apply bool_decide_eq_false in E.
  - intros Hu. apply Z.bits_inj'. intros b Hb0. rewrite Z.land_spec, Z.bits_0.
    destruct (decide (b < 64)); [|by rewrite bits_high by lia].
    rewrite u64_testbit, shl1_testbit, Hb by lia. destruct (Z.ltb_spec b 64); [|lia]. simpl.
    destruct (decide (Z.min b 31 = r)) as [->|]; [|by rewrite (bool_decide_false (_ = r)), andb_false_r].
    by rewrite (bool_decide_false (_ ∈ _)).
Qed.

Lemma bits_set v : bm !! (i / 64) = Some v →
  bits_ok (<[i / 64 := Z.lor v (u64 (shl1 r))]> bm) (i :: live).
Proof.
  intros Hv w Hw. destruct slot_range as [Hw' Hr]. destruct (Hbits _ Hw) as (u & Hu & Hu64 & Hb).
  destruct (decide (w = i / 64)) as [->|].
  - simplify_eq. rewrite lookup_insert_eq. eexists. split; [done|]. split.
    + apply range_of_bits; [apply Z.lor_nonneg; split; [lia|apply u64_range]|].
      intros b ?. rewrite Z.lor_spec, (bits_high v), (bits_high (u64 _)); [done|apply u64_range|lia|lia|lia].
    + intros b Hb'. rewrite Z.lor_spec, Hb, u64_testbit, shl1_testbit by lia.
      destruct (Z.ltb_spec b 64); [|lia]. apply eq_true_iff_eq.
      rewrite orb_true_iff, andb_true_iff, !bool_decide_eq_true. simpl. rewrite elem_of_cons.
      unfold slot at 2. fold r. split; [intros [?|[_ ->]]|intros [[= ?]|?]]; auto.
  - rewrite lookup_insert_ne by done. exists u. split_and!; [done|lia|lia|]. intros b Hb'.
    rewrite Hb by done. apply bool_decide_ext. simpl. rewrite elem_of_cons. unfold slot at 2.
    split; [by right|]. intros [[= ?]|?]; [done|done].
Qed.
End Bits.

Lemma bits_clear bm l1 i l2 v :
  bits_ok bm (l1 ++ i :: l2) → NoDup (slot <$> l1 ++ i :: l2) → 0 ≤ i < 256 →
  bm !! (i / 64) = Some v →
  bits_ok (<[i / 64 := Z.land v (u64 (Z.lnot (shl1 (i mod 32))))]> bm) (l1 ++ l2).
Proof.
  intros Hbits Hnd Hi Hv w Hw. destruct (slot_range i Hi) as [Hw' Hr].
  rewrite fmap_app in Hnd. simpl in Hnd.
  apply NoDup_app in Hnd as (_ & Hn1 & [Hn2 _]%NoDup_cons).
  destruct (Hbits _ Hw) as (u & Hu & Hu64 & Hb).
  assert (Hslot : ∀ s, s ∈ slot <$> l1 ++ l2 ↔ s ∈ slot <$> l1 ++ i :: l2 ∧ s ≠ slot i).
  { intros s. rewrite !fmap_app. simpl. rewrite !elem_of_app, elem_of_cons.
    split; [|naive_solver]. intros [Hs|Hs]; (split; [tauto|]); intros ->; [|done].
    apply (Hn1 (slot i)); [done|by left]. }
  destruct (decide (w = i / 64)) as [->|].
  - simplify_eq. rewrite lookup_insert_eq. eexists. split; [done|]. split.
    + apply range_of_bits; [apply Z.land_nonneg; left; lia|].
      intros b ?. by rewrite Z.land_spec, (bits_high v).
    + intros b Hb'. rewrite Z.land_spec, Hb, u64_testbit, Z.lnot_spec, shl1_testbit by lia.
      destruct (Z.ltb_spec b 64); [|lia]. simpl. apply eq_true_iff_eq.
      rewrite andb_true_iff, negb_true_iff, !bool_decide_eq_true, bool_decide_eq_false, Hslot.
      change (slot i) with (i / 64, i mod 32). split; intros [? Hne]; (split; [done|congruence]).
  - rewrite lookup_insert_ne by done. exists u. split_and!; [done|lia|lia|]. intros b Hb'.
    rewrite Hb by done. apply bool_decide_ext. rewrite Hslot. change (slot i) with (i / 64, i mod 32).
    split; [intros ?; split; [done|congruence]|tauto].
Qed.

(** ** Sums of chunk numbers *)

Lemma chunk_sum_app l1 l2 : chunk_sum (l1 ++ l2) = chunk_sum l1 + chunk_sum l2.
Proof. induction l1 as [|x l1 IH]; simpl; [done|]. rewrite IH. lia. Qed.

Lemma chunk_sum_bound N l : (∀ i, i ∈ l → 0 ≤ i < N) →
  Z.of_nat (length l) ≤ chunk_sum l ≤ N * Z.of_nat (length l).
Proof.
  induction l as [|x l IH]; intros Hl; simpl; [lia|].
  pose proof (Hl x ltac:(by left)). specialize (IH ltac:(intros; apply Hl; by right)). lia.
Qed.

Lemma live_length l : NoDup (slot <$> l) → (∀ i, i ∈ l → 0 ≤ i < 256) → (length l ≤ 256)%nat.
Proof.
  intros Hnd%NoDup_fmap_1 Hl.
  rewrite <- (length_zseq 0 256). apply submseteq_length, NoDup_submseteq; [done|].
  intros i Hi%Hl. apply elem_of_zseq. lia.
Qed.

(** ** Pages *)

(** Page [p], in use for chunks of [2 ^ c] bytes, with chunks [live] taken. *)
Record page_ok (x : dynamic_node) (p c : Z) (live : list Z) : Prop := mk_page_ok {
  pg_class : MIN_POOL_SIZE_EXP ≤ c ≤ MAX_POOL_SIZE_EXP;
  pg_addr : dn_addr x = p2v_trans_kernel (p * PAGE_SIZE);
  pg_size : chunk_size x = 2 ^ c;
  pg_sum : dn_sum x = chunk_sum live;
  pg_bits : bits_ok (bitmap x) live;
  pg_cur : 0 ≤ cur_idx x < 2 ^ (12 - c);
  pg_live : live ≠ [];
  pg_slots : NoDup (slot <$> live);
  pg_range i : i ∈ live → 0 ≤ i < 2 ^ (12 - c);
}.

(** Page [p] holds no chunks. *)
Record idle_ok (x : dynamic_node) (p : Z) : Prop := mk_idle_ok {
  id_size : chunk_size x = PAGE_SIZE;
  id_sum : dn_sum x = 0;
  id_bits : bits_ok (bitmap x) [];
  id_next : dn_next x = None;
  id_addr : dn_addr x = p * PAGE_SIZE;
}.

Lemma class_chunks c : 4 ≤ c ≤ 11 → 2 ≤ 2 ^ (12 - c) ≤ 256.
Proof.
  intros. change 2 with (2 ^ 1) at 1. change 256 with (2 ^ 8). split; apply pow2_le; lia.
Qed.

Lemma page_chunk_256 x p c live i : page_ok x p c live → 0 ≤ i < 2 ^ (12 - c) → 0 ≤ i < 256.
Proof. intros H Hi. pose proof (class_chunks c (pg_class _ _ _ _ H)). lia. Qed.

Lemma page_sum_small x p c live : page_ok x p c live → 0 ≤ chunk_sum live ≤ 2 ^ 16.
Proof.
  intros H. pose proof (class_chunks c (pg_class _ _ _ _ H)).
  assert (Hr : ∀ i, i ∈ live → 0 ≤ i < 256).
  { intros i Hi. eapply page_chunk_256, pg_range; eauto. }
  pose proof (live_length live (pg_slots _ _ _ _ H) Hr). pose proof (chunk_sum_bound 256 live Hr). lia.
Qed.

(** Taking the free chunk [i] of a page. *)
Definition take_chunk (i : Z) (x : dynamic_node) : dynamic_node :=
  mk_dnode (dn_addr x) (chunk_size x) (dn_sum x + (i + 1))
    (<[i / 64 := Z.lor (default 0 (bitmap x !! (i / 64))) (u64 (shl1 (i mod 32)))]> (bitmap x))
    i (dn_next x).

(** Giving back the taken chunk [i]. *)
Definition drop_chunk (i : Z) (x : dynamic_node) : dynamic_node :=
  mk_dnode (dn_addr x) (chunk_size x) (dn_sum x - (i + 1))
    (<[i / 64 := Z.land (default 0 (bitmap x !! (i / 64))) (u64 (Z.lnot (shl1 (i mod 32))))]> (bitmap x))
    (cur_idx x) (dn_next x).

Lemma take_chunk_ok x p c live i :
  page_ok x p c live → 0 ≤ i < 2 ^ (12 - c) → ¬ used live i →
  page_ok (take_chunk i x) p c (i :: live).
Proof.
  intros H Hi Hu. pose proof (page_chunk_256 _ _ _ _ _ H Hi).
  destruct (bits_word (bitmap x) live i (pg_bits _ _ _ _ H)) as [v Hv]; [done|].
  destruct H as [H1 H2 H3 H4 H5 H6 H7 H8 H9]. split; simpl; try done.
  - lia.
  - rewrite Hv. by apply bits_set.
  - by apply NoDup_cons.
  - intros j [->|?]%elem_of_cons; [done|by apply H9].
Qed.

Lemma drop_chunk_ok x p c l1 i l2 :
  page_ok x p c (l1 ++ i :: l2) → l1 ++ l2 ≠ [] → page_ok (drop_chunk i x) p c (l1 ++ l2).
Proof.
  intros H Hne. assert (Hi : 0 ≤ i < 2 ^ (12 - c)) by (eapply pg_range; [done|set_solver]).
  pose proof (page_chunk_256 _ _ _ _ _ H Hi).
  destruct (bits_word (bitmap x) _ i (pg_bits _ _ _ _ H)) as [v Hv]; [done|].
  destruct H as [H1 H2 H3 H4 H5 H6 H7 H8 H9]. split; simpl; try done.
  - rewrite H4, !chunk_sum_app. simpl. lia.
  - rewrite Hv. by apply bits_clear.
  - rewrite fmap_app in *. simpl in H8. rewrite <- Permutation_middle in H8.
    by apply NoDup_cons in H8 as [_ ?].
  - intros j ?. apply H9. set_solver.
Qed.

(** ** Pools *)

Fixpoint sseg (m : gmap Z dynamic_node) (h t : option Z) (l : list Z) : Prop :=
  match l with
  | [] => h = t
  | p :: l' => h = Some p ∧ ∃ x, m !! p = Some x ∧ sseg m (dn_next x) t l'
  end.

Lemma sseg_frame m m' h t l :
  (∀ p, p ∈ l → dn_next <$> (m' !! p) = dn_next <$> (m !! p)) → sseg m h t l → sseg m' h t l.
Proof.
  revert h. induction l as [|p l IH]; intros h Hf; simpl; [done|]. intros (-> & x & Hx & Hs).
  split; [done|]. pose proof (Hf p ltac:(by left)) as E. rewrite Hx in E. simpl in E.
  destruct (m' !! p) as [x'|]; simplify_eq/=. exists x'. split; [done|].
  replace (dn_next x') with (dn_next x) by congruence. apply IH; [|done]. set_solver.
Qed.

Lemma sseg_app m h t l1 l2 : sseg m h t (l1 ++ l2) ↔ ∃ u, sseg m h u l1 ∧ sseg m u t l2.
Proof.
  revert h. induction l1 as [|p l1 IH]; intros h; simpl.
  - split; [eauto|]. by intros (? & <- & ?).
  - split.
    + intros (-> & x & Hx & (u & ? & ?)%IH). exists u. eauto.
    + intros (u & (-> & x & Hx & ?) & ?). split; [done|]. exists x. split; [done|]. apply IH. eauto.
Qed.

(** Redirecting the last page of a segment. *)
Lemma sseg_set_last m h t t' l q : NoDup (l ++ [q]) →
  sseg m h t (l ++ [q]) → sseg (alter (set_next t') q m) h t' (l ++ [q]).
Proof.
  intros (Hnd & Hd & _)%NoDup_app (u & H1 & (-> & x & Hx & <-))%sseg_app. apply sseg_app.
  exists (Some q). split.
  - eapply sseg_frame; [|done]. intros p Hp. rewrite lookup_alter_ne; [done|]. intros ->. set_solver.
  - simpl. split; [done|]. exists (set_next t' x). by rewrite lookup_alter_eq, Hx.
Qed.

Lemma sseg_head m h l : sseg m h None l → h = head l.
Proof. destruct l; simpl; naive_solver. Qed.

(** [pools c] is the list of pages with chunks of [2 ^ c] bytes, [live p] the
    taken chunks of page [p]. *)
Record dyn_wf (d : dmem) (fl pools live : Z → list Z) : Prop := mk_dyn_wf {
  dw_mem : buddy_wf (d_mem d) fl;
  dw_dom p : is_Some (dynamic_node_arr d !! p) ↔ 0 ≤ p < 2 ^ num_pages_exp (d_mem d);
  dw_list c : MIN_POOL_SIZE_EXP ≤ c ≤ MAX_POOL_SIZE_EXP →
    ∃ h, mem_pool d !! (c - MIN_POOL_SIZE_EXP) = Some h ∧ sseg (dynamic_node_arr d) h None (pools c);
  dw_nodup c : MIN_POOL_SIZE_EXP ≤ c ≤ MAX_POOL_SIZE_EXP → NoDup (pools c);
  dw_page c p : MIN_POOL_SIZE_EXP ≤ c ≤ MAX_POOL_SIZE_EXP → p ∈ pools c →
    blk (num_pages_exp (d_mem d)) (arr (bs (d_mem d))) p Used 0 ∧
    ∃ x, dynamic_node_arr d !! p = Some x ∧ page_ok x p c (live p);
  dw_idle p x : dynamic_node_arr d !! p = Some x →
    (∀ c, MIN_POOL_SIZE_EXP ≤ c ≤ MAX_POOL_SIZE_EXP → p ∉ pools c) → idle_ok x p ∧ live p = [];
}.

Definition dyn_inv (d : dmem) : Prop := ∃ fl pools live, dyn_wf d fl pools live.

(** What the AArch64 shift instruction does with amounts of 32 and more. *)
Definition lslv (wide : Z → option Z) : Prop := ∀ k, 32 ≤ k < 64 → wide k = Some (shl1 (k - 32)).

(** The shifts that pages of class [c] need are defined. *)
Definition shl_ok (wide : Z → option Z) (c : Z) : Prop := 7 ≤ c ∨ lslv wide.

(** ** Primitives *)

Section Prim.
Implicit Types d : dmem.

Lemma wp_on_mem {A} (m : M mem A) (Q : A → dmem → Prop) d :
  wp m (λ a s, Q a (set_dmem s d)) (d_mem d) → wp (on_mem m) Q d.
Proof. apply wp_zoom. Qed.
Lemma wp_on_mem_eq {A} (m : M mem A) a s' (Q : A → dmem → Prop) d :
  m (d_mem d) = Ok (a, s') → Q a (set_dmem s' d) → wp (on_mem m) Q d.
Proof. intros E ?. apply wp_on_mem. by eapply wp_eq. Qed.
Lemma wp_pool_get k h (Q : option Z → dmem → Prop) d :
  mem_pool d !! k = Some h → Q h d → wp (pool_get k) Q d.
Proof. intros H ?. unfold pool_get. wp_steps. by apply (wp_deref _ h). Qed.
Lemma wp_pool_set k h (Q : unit → dmem → Prop) d :
  is_Some (mem_pool d !! k) → Q tt (set_pool (<[k := h]> (mem_pool d)) d) → wp (pool_set k h) Q d.
Proof.
  intros [w H] ?. unfold pool_set. wp_step. apply (wp_pool_get _ w); [done|]. by wp_steps.
Qed.
Lemma wp_dnode_get p x (Q : dynamic_node → dmem → Prop) d :
  dynamic_node_arr d !! p = Some x → Q x d → wp (dnode_get p) Q d.
Proof. intros H ?. unfold dnode_get. wp_steps. by apply (wp_deref _ x). Qed.
Lemma wp_dnode_upd p f x (Q : unit → dmem → Prop) d :
  dynamic_node_arr d !! p = Some x →
  Q tt (set_dnodes (<[p := f x]> (dynamic_node_arr d)) d) → wp (dnode_upd p f) Q d.
Proof.
  intros H HQ. unfold dnode_upd. wp_step. apply (wp_dnode_get _ x); [done|]. wp_steps.
  by rewrite (alter_as_insert _ _ _ x).
Qed.
Lemma wp_bitmap_get x w v (Q : Z → dmem → Prop) d :
  bitmap x !! w = Some v → Q v d → wp (bitmap_get x w) Q d.
Proof. intros H ?. by apply (wp_deref _ v). Qed.

(** A second write to the same node replaces the first. *)
Lemma wp_dnode_upd_again p f x m (Q : unit → dmem → Prop) d :
  Q tt (set_dnodes (<[p := f x]> m) d) → wp (dnode_upd p f) Q (set_dnodes (<[p := x]> m) d).
Proof.
  intros HQ. eapply wp_dnode_upd; [apply lookup_insert_eq|]. simpl. by rewrite insert_insert_eq.
Qed.
Lemma wp_dnode_get_again p x m (Q : dynamic_node → dmem → Prop) d :
  Q x (set_dnodes (<[p := x]> m) d) → wp (dnode_get p) Q (set_dnodes (<[p := x]> m) d).
Proof. intros HQ. eapply wp_dnode_get; [apply lookup_insert_eq|done]. Qed.
End Prim.

(** ** Chunks *)

Lemma quot_div i : 0 ≤ i → Z.quot i 64 = i / 64.
Proof. intros. apply Z.quot_div_nonneg; lia. Qed.
Lemma rem_mod i n : 0 ≤ i → 0 < n → Z.rem i n = i mod n.
Proof. intros. apply Z.rem_mod_nonneg; lia. Qed.

Lemma shl_at wide c i : MIN_POOL_SIZE_EXP ≤ c ≤ MAX_POOL_SIZE_EXP → shl_ok wide c → 0 ≤ i < 2 ^ (12 - c) →
  shl_int wide (i mod 64) = Some (shl1 (i mod 32)).
Proof.
  intros Hc Hs Hi. pose proof (Z.mod_pos_bound i 64 ltac:(lia)). unfold shl_int.
  assert (H32 : i mod 32 = (i mod 64) mod 32).
  { rewrite (Z.div_mod i 64) at 1 by lia. replace (64 * (i / 64) + i mod 64) with (i mod 64 + (2 * (i / 64)) * 32) by lia.
    rewrite Z.mod_add; lia. }
  destruct (Z.leb_spec 0 (i mod 64)); [|lia]. destruct (Z.ltb_spec (i mod 64) 32); simpl.
  - by rewrite H32, (Z.mod_small (i mod 64) 32) by lia.
  - destruct Hs as [Hs|Hs].
    + unfold MAX_POOL_SIZE_EXP in *. pose proof (pow2_le (12 - c) 5 ltac:(lia)).
      assert (i mod 64 = i) by (apply Z.mod_small; lia). lia.
    + rewrite Hs by lia. f_equal. f_equal. rewrite H32.
      rewrite (Z.mod_eq (i mod 64) 32) by lia.
      assert (i mod 64 / 32 = 1) as -> by (symmetry; apply (Z.div_unique _ _ _ (i mod 64 - 32)); lia). lia.
Qed.

(** Steps from [i] forward to [cur] on the circle of [N] chunks. *)
Definition dist (cur i N : Z) : Z := if i <=? cur then cur - i else cur - i + N.

Lemma dist_step cur i N : 0 ≤ cur < N → 0 ≤ i < N → i ≠ cur →
  0 ≤ (i + 1) mod N < N ∧ dist cur ((i + 1) mod N) N = dist cur i N - 1.
Proof.
  intros Hc Hi Hne. split; [apply Z.mod_pos_bound; lia|]. unfold dist.
  destruct (decide (i + 1 = N)) as [E|].
  - rewrite E, Z.mod_same by lia. repeat case_match; lia.
  - rewrite Z.mod_small by lia. repeat case_match; lia.
Qed.

Lemma dist_inj cur i j N : 0 ≤ cur < N → 0 ≤ i < N → 0 ≤ j < N → dist cur i N = dist cur j N → i = j.
Proof. unfold dist. repeat case_match; lia. Qed.

Section Scan.
Context (wide : Z → option Z) (p c : Z) (live : list Z) (x : dynamic_node).
Hypothesis Hpg : page_ok x p c live.
Hypothesis Hshl : shl_ok wide c.
Let N := 2 ^ (12 - c).

Definition after_take (i : Z) (d : dmem) : dmem :=
  set_dmem (set_cpu (leave (m_cpu (d_mem d))) (d_mem d))
    (set_dnodes (<[p := take_chunk i x]> (dynamic_node_arr d)) d).

Lemma wp_scan fuel : ∀ i d (Q : option Z → dmem → Prop),
  dynamic_node_arr d !! p = Some x → 0 ≤ i < N →
  dist (cur_idx x) i N < Z.of_nat fuel →
  (∀ j, 0 ≤ j < N → dist (cur_idx x) i N < dist (cur_idx x) j N → used live j) →
  (∀ j, 0 ≤ j < N → ¬ used live j → Q (Some (u64 (dn_addr x + j * 2 ^ c))) (after_take j d)) →
  ((∀ j, 0 ≤ j < N → used live j) → Q None d) →
  wp (chunk_scan wide fuel p N i) Q d.
Proof.
  induction fuel as [|fuel IH]; intros i d Q Hx Hi Hfuel Hseen Hsome Hnone.
  { unfold dist in Hfuel. pose proof (pg_cur _ _ _ _ Hpg). case_match; lia. }
  pose proof (page_chunk_256 _ _ _ _ _ Hpg Hi) as Hi256. cbn [chunk_scan].
  pose proof (pg_bits _ _ _ _ Hpg) as Hbits.
  destruct (bits_word _ _ i Hbits Hi256) as [v Hv].
  wp_step. apply (wp_dnode_get _ x); [done|]. wp_step.
  rewrite quot_div, (rem_mod i 64) by lia. apply (wp_bitmap_get _ _ v); [done|].
  wp_step. eapply wp_deref; [apply (shl_at _ c); [apply Hpg|done|done]|].
  pose proof (bits_test _ _ i Hbits Hi256 v Hv) as Htest.
  pose proof (page_sum_small _ _ _ _ Hpg) as Hsum.
  destruct (Z.eqb_spec (Z.land v (u64 (shl1 (i mod 32)))) 0) as [H0|H0]; simpl.
  - apply Htest in H0. rewrite <- (pg_sum _ _ _ _ Hpg) in Hsum.
    wp_step. eapply wp_dnode_upd; [done|]. wp_step. apply wp_dnode_upd_again.
    wp_step. apply wp_dnode_upd_again. wp_step. apply wp_on_mem, wp_on_cpu_enable.
    wp_step. eapply wp_dnode_get; [simpl; apply lookup_insert_eq|]. wp_step. simpl.
    rewrite (pg_size _ _ _ _ Hpg). rewrite i32_small by lia.
    specialize (Hsome i Hi H0). unfold after_take, take_chunk in Hsome. rewrite Hv in Hsome. apply Hsome.
  - assert (Hu : used live i) by (destruct (decide (used live i)); tauto).
    pose proof (pg_cur _ _ _ _ Hpg). destruct (Z.eqb_spec i (cur_idx x)) as [Hc|Hc].
    + wp_step. apply Hnone. intros j Hj. destruct (decide (j = i)) as [->|Hji]; [done|].
      apply Hseen; [done|]. unfold dist. rewrite Hc in *. repeat case_match; lia.
    + rewrite rem_mod by lia. destruct (dist_step (cur_idx x) i N) as [Hi' Hd]; [done..|].
      apply IH; [done|done|lia| |done|done]. intros j Hj Hdj.
      destruct (decide (dist (cur_idx x) i N = dist (cur_idx x) j N)) as [E|].
      * by apply dist_inj in E as ->.
      * apply Hseen; [done|lia].
Qed.
End Scan.

(** ** Updates of the abstract state *)

Definition upd {A} (f : Z → A) (p : Z) (v : A) : Z → A := λ q, if decide (q = p) then v else f q.

Lemma upd_eq {A} (f : Z → A) p v : upd f p v p = v.
Proof. unfold upd. by rewrite decide_True. Qed.
Lemma upd_ne {A} (f : Z → A) p q v : q ≠ p → upd f p v q = f q.
Proof. intros. unfold upd. by rewrite decide_False. Qed.

Section Wf.
Context (d : dmem) (fl pools live : Z → list Z).
Hypothesis Hwf : dyn_wf d fl pools live.

#[local] Abbreviation n := (num_pages_exp (d_mem d)).
#[local] Abbreviation nodes := (dynamic_node_arr d).

Lemma pool_class_eq c c' p :
  MIN_POOL_SIZE_EXP ≤ c ≤ MAX_POOL_SIZE_EXP → MIN_POOL_SIZE_EXP ≤ c' ≤ MAX_POOL_SIZE_EXP →
  p ∈ pools c → p ∈ pools c' → c = c'.
Proof.
  intros Hc Hc' H1 H2. destruct (dw_page _ _ _ _ Hwf c p Hc H1) as (_ & x & Hx & P1).
  destruct (dw_page _ _ _ _ Hwf c' p Hc' H2) as (_ & x' & Hx' & P2). simplify_eq.
  pose proof (pg_size _ _ _ _ P1) as E1. rewrite (pg_size _ _ _ _ P2) in E1.
  unfold MIN_POOL_SIZE_EXP in *. apply Z.pow_inj_r in E1; lia.
Qed.

Lemma pool_range c p : MIN_POOL_SIZE_EXP ≤ c ≤ MAX_POOL_SIZE_EXP → p ∈ pools c → 0 ≤ p < 2 ^ n.
Proof.
  intros Hc Hp. destruct (dw_page _ _ _ _ Hwf c p Hc Hp) as (_ & x & Hx & _).
  apply (dw_dom _ _ _ _ Hwf). eauto.
Qed.

Lemma pool_length c : MIN_POOL_SIZE_EXP ≤ c ≤ MAX_POOL_SIZE_EXP → Z.of_nat (length (pools c)) ≤ 2 ^ n.
Proof.
  intros Hc. destruct (wf_til _ _ (dw_mem _ _ _ _ Hwf)) as [Hn _ _ _ _]. pose proof (pow2_pos n).
  assert (length (pools c) ≤ length (zseq 0 (Z.to_nat (2 ^ n))))%nat as H0.
  { apply submseteq_length, NoDup_submseteq; [by eapply dw_nodup|].
    intros p Hp%pool_range; [|done]. apply elem_of_zseq. lia. }
  rewrite length_zseq in H0. lia.
Qed.

(** A step of the buddy system that keeps the pools' pages. *)
Lemma wf_mem m' fl' :
  buddy_wf m' fl' → num_pages_exp m' = n →
  (∀ c p, MIN_POOL_SIZE_EXP ≤ c ≤ MAX_POOL_SIZE_EXP → p ∈ pools c → blk n (arr (bs m')) p Used 0) →
  dyn_wf (set_dmem m' d) fl' pools live.
Proof.
  intros Hm Hn Hb. destruct Hwf as [H1 H2 H3 H4 H5 H6]. split; simpl; [done| |done|done| |done].
  - by rewrite Hn.
  - intros c p Hc Hp. destruct (H5 c p Hc Hp) as (_ & ?). split; [|done]. rewrite Hn. by eapply Hb.
Qed.

Lemma wf_cpu_step c : cpu_ok c → dyn_wf (set_dmem (set_cpu c (d_mem d)) d) fl pools live.
Proof.
  intros Hc. apply wf_mem; [by destruct (dw_mem _ _ _ _ Hwf)|done|].
  intros c' p Hc' Hp. by destruct (dw_page _ _ _ _ Hwf c' p Hc' Hp).
Qed.

(** A step on the node of one page of a pool. *)
Lemma wf_node c p x x' l' :
  MIN_POOL_SIZE_EXP ≤ c ≤ MAX_POOL_SIZE_EXP → p ∈ pools c → nodes !! p = Some x →
  dn_next x' = dn_next x → page_ok x' p c l' →
  dyn_wf (set_dnodes (<[p := x']> nodes) d) fl pools (upd live p l').
Proof.
  intros Hc Hp Hx Hnext Hpg. pose proof Hwf as [H1 H2 H3 H4 H5 H6]. split; simpl; [done| | |done| |].
  - intros q. rewrite <- H2. destruct (decide (q = p)) as [->|]; [|by rewrite lookup_insert_ne].
    rewrite lookup_insert_eq, Hx. by split; eauto.
  - intros c' Hc'. destruct (H3 c' Hc') as (h & Hh & Hs). exists h. split; [done|].
    eapply sseg_frame; [|done]. intros q _. destruct (decide (q = p)) as [->|].
    + rewrite lookup_insert_eq, Hx. simpl. by f_equal.
    + by rewrite lookup_insert_ne.
  - intros c' q Hc' Hq. destruct (H5 c' q Hc' Hq) as (Hb & y & Hy & Hpy). split; [done|].
    destruct (decide (q = p)) as [->|].
    + exists x'. rewrite lookup_insert_eq, upd_eq. split; [done|].
      by rewrite (pool_class_eq c' c p) by done.
    + exists y. by rewrite lookup_insert_ne, upd_ne.
  - intros q y Hy Hq. destruct (decide (q = p)) as [->|]; [by destruct (Hq c Hc)|].
    rewrite lookup_insert_ne in Hy by done. rewrite upd_ne by done. by apply H6.
Qed.
End Wf.

(** ** The walk over a pool *)

Lemma wp_walk wide c d fl pools live fuel : ∀ l pre cur (Q : Z + option Z → dmem → Prop),
  dyn_wf d fl pools live → MIN_POOL_SIZE_EXP ≤ c ≤ MAX_POOL_SIZE_EXP → shl_ok wide c →
  pools c = pre ++ l → sseg (dynamic_node_arr d) cur None l → (length l ≤ fuel)%nat →
  (∀ p x j, p ∈ pools c → dynamic_node_arr d !! p = Some x → page_ok x p c (live p) →
     0 ≤ j < 2 ^ (12 - c) → ¬ used (live p) j →
     Q (inl (u64 (dn_addr x + j * 2 ^ c))) (after_take p x j d)) →
  ((∀ p j, p ∈ l → 0 ≤ j < 2 ^ (12 - c) → used (live p) j) → Q (inr (last (pre ++ l))) d) →
  wp (pool_walk wide fuel (last pre) cur c) Q d.
Proof.
  induction fuel as [|fuel IH]; intros l pre cur Q Hwf Hc Hsh Hl Hs Hfuel Hsome Hnone;
    (destruct l as [|p l]; simpl in Hs; [subst cur; simpl; apply wp_ret;
       rewrite app_nil_r in Hnone; apply Hnone; set_solver|]).
  { simpl in Hfuel. lia. }
  destruct Hs as (-> & x & Hx & Hs). cbn [pool_walk].
  assert (Hp : p ∈ pools c) by (rewrite Hl; set_solver).
  destruct (dw_page _ _ _ _ Hwf c p Hc Hp) as (_ & x2 & Hx2 & Hpg). simplify_eq.
  assert (HN : PAGE_SIZE / shl1 c = 2 ^ (12 - c)).
  { unfold MIN_POOL_SIZE_EXP, MAX_POOL_SIZE_EXP in *. rewrite shl1_pow by lia. change PAGE_SIZE with (2 ^ 12).
    replace (2 ^ 12) with (2 ^ (12 - c) * 2 ^ c) by (rewrite <- Z.pow_add_r by lia; f_equal; lia).
    apply Z.div_mul. pose proof (pow2_pos c). lia. }
  rewrite HN. pose proof (pg_cur _ _ _ _ Hpg) as Hcur. pose proof (class_chunks c Hc).
  wp_step. apply (wp_dnode_get _ x); [done|]. wp_step. rewrite rem_mod by lia.
  assert (Hdist : dist (cur_idx x) ((cur_idx x + 1) mod 2 ^ (12 - c)) (2 ^ (12 - c)) = 2 ^ (12 - c) - 1).
  { unfold dist. destruct (decide (cur_idx x + 1 = 2 ^ (12 - c))) as [E|].
    - rewrite E, Z.mod_same by lia. case_match; lia.
    - rewrite Z.mod_small by lia. case_match; lia. }
  eapply (wp_scan wide p c (live p) x Hpg Hsh); [done|apply Z.mod_pos_bound; lia|lia| | |].
  - intros j Hj. rewrite Hdist. unfold dist. case_match; lia.
  - intros j Hj Hu. apply wp_ret. by apply Hsome.
  - intros Hfull. wp_step. apply (wp_dnode_get _ x); [done|].
    replace (Some p) with (last (pre ++ [p])) by apply last_snoc.
    apply IH with (l := l); [done|done|done|by rewrite <- app_assoc|done|simpl in Hfuel; lia|done|].
    intros Hrest. rewrite <- app_assoc. apply Hnone. intros q j [->|?]%elem_of_cons Hj; eauto.
Qed.
