(* ===== verification/DynamicThm.v ===== *)
(** * Correctness of malloc and free *)

From S2P Require Import Prelude Cpu Dll Buddy BuddyRep BuddyTiling BuddyAlloc BuddyProps BuddyInit BuddyThm.
From S2P Require Import Dynamic DynamicRep.

(** ** Adding a page to a pool *)

Lemma page_ok_next x p c l q : page_ok x p c l → page_ok (set_next q x) p c l.
Proof. by intros [H1 H2 H3 H4 H5 H6 H7 H8 H9]; split. Qed.

(** The node of a page that has just become the last page of pool [c]. *)
Definition fresh_page (c p : Z) (x : dynamic_node) : dynamic_node :=
  mk_dnode (p2v_trans_kernel (p * PAGE_SIZE)) (2 ^ c) 1
    (<[0 := Z.lor (default 0 (bitmap x !! 0)) 1]> (bitmap x)) 0 (dn_next x).

Lemma fresh_page_ok c p x :
  MIN_POOL_SIZE_EXP ≤ c ≤ MAX_POOL_SIZE_EXP → idle_ok x p → page_ok (fresh_page c p x) p c [0].
Proof.
  intros Hc [H1 H2 H3 H4 H5]. pose proof (class_chunks c Hc). split; simpl; try done.
  - destruct (bits_word (bitmap x) [] 0 H3) as [v Hv]; [lia|]. change (0 / 64) with 0 in Hv. rewrite Hv.
    by apply (bits_set (bitmap x) [] 0 H3 ltac:(lia) v).
  - lia.
  - apply NoDup_singleton.
  - intros i ->%list_elem_of_singleton. lia.
Qed.

(** Pointing what follows the pages [l] of pool [c] to [t]: the pool's head
    when [l] is empty, else the last page of [l]. *)
Definition set_head (c : Z) (t : option Z) (l : list Z) (pool : gmap Z (option Z)) : gmap Z (option Z) :=
  match last l with None => <[c - MIN_POOL_SIZE_EXP := t]> pool | Some _ => pool end.
Definition set_link (t : option Z) (l : list Z) (nodes : gmap Z dynamic_node) : gmap Z dynamic_node :=
  match last l with None => nodes | Some q => alter (set_next t) q nodes end.

Lemma set_link_lookup t l nodes q :
  set_link t l nodes !! q =
    (if decide (last l = Some q) then set_next t <$> nodes !! q else nodes !! q).
Proof.
  unfold set_link. destruct (last l) as [a|]; [|by rewrite decide_False].
  destruct (decide (Some a = Some q)) as [[= ->]|]; [by rewrite lookup_alter_eq|].
  rewrite lookup_alter_ne; congruence.
Qed.

Lemma set_link_insert t l nodes p y : p ∉ l →
  set_link t l (<[p := y]> nodes) = <[p := y]> (set_link t l nodes).
Proof.
  intros Hp. unfold set_link. destruct (last l) as [q|] eqn:E; [|done].
  apply last_elem_of in E. apply alter_insert_ne. set_solver.
Qed.

Lemma add_sseg p l nodes h x :
  NoDup l → p ∉ l → nodes !! p = Some x → dn_next x = None → sseg nodes h None l →
  sseg (set_link (Some p) l nodes) (if l is [] then Some p else h) None (l ++ [p]).
Proof.
  intros Hnd Hp Hx Hn Hs. apply sseg_app. exists (Some p). split.
  - unfold set_link. destruct l as [|a l _] using rev_ind; [done|].
    rewrite last_snoc. destruct (l ++ [a]) eqn:E; [by destruct l|]. rewrite <- E in *.
    by apply sseg_set_last with (t := None).
  - simpl. split; [done|]. exists x. rewrite set_link_lookup, decide_False; [done|].
    by intros ?%last_elem_of.
Qed.

Section Add.
Context (d : dmem) (fl pools live : Z → list Z) (c p : Z) (x : dynamic_node).
Hypothesis Hwf : dyn_wf d fl pools live.
Hypothesis Hc : MIN_POOL_SIZE_EXP ≤ c ≤ MAX_POOL_SIZE_EXP.
Hypothesis Hp : ∀ c', MIN_POOL_SIZE_EXP ≤ c' ≤ MAX_POOL_SIZE_EXP → p ∉ pools c'.
Hypothesis Hx : dynamic_node_arr d !! p = Some x.
Hypothesis Hb : blk (num_pages_exp (d_mem d)) (arr (bs (d_mem d))) p Used 0.

Definition after_add : dmem :=
  mk_dmem (d_mem d) (set_head c (Some p) (pools c) (mem_pool d))
    (<[p := fresh_page c p x]> (set_link (Some p) (pools c) (dynamic_node_arr d))).

Lemma add_keeps_next q : q ≠ p → ∀ c', MIN_POOL_SIZE_EXP ≤ c' ≤ MAX_POOL_SIZE_EXP → q ∈ pools c' → c' ≠ c →
  set_link (Some p) (pools c) (dynamic_node_arr d) !! q = dynamic_node_arr d !! q.
Proof.
  intros Hq c' Hc' Hin Hne. rewrite set_link_lookup, decide_False; [done|].
  intros Hl%last_elem_of. destruct Hne. by eapply pool_class_eq.
Qed.

Lemma wf_add : dyn_wf after_add fl (upd pools c (pools c ++ [p])) (upd live p [0]).
Proof.
  pose proof Hwf as [H1 H2 H3 H4 H5 H6]. destruct (H6 p x Hx Hp) as [Hid _].
  unfold after_add. split; simpl; [done| | | | |].
  - intros q. rewrite <- H2. destruct (decide (q = p)) as [->|].
    + rewrite lookup_insert_eq, Hx. by split; eauto.
    + rewrite lookup_insert_ne, set_link_lookup by done. case_decide; [|done]. by rewrite fmap_is_Some.
  - intros c' Hc'. destruct (H3 c' Hc') as (h & Hh & Hs).
    destruct (decide (c' = c)) as [->|Hne].
    + rewrite upd_eq. exists (if pools c is [] then Some p else h). split.
      * unfold set_head. destruct (pools c) as [|a l] eqn:E; [apply lookup_insert_eq|].
        by destruct (last (a :: l)) eqn:El; [|apply last_None in El].
      * eapply sseg_frame; [|eapply add_sseg; [by apply H4|by apply Hp|done|apply Hid|done]].
        intros q _. destruct (decide (q = p)) as [->|]; [|by rewrite lookup_insert_ne].
        rewrite lookup_insert_eq, set_link_lookup, decide_False, Hx; [done|].
        by intros ?%last_elem_of%Hp.
    + rewrite upd_ne by done. exists h. split.
      * unfold set_head. destruct (last _); [done|]. rewrite lookup_insert_ne by lia. done.
      * eapply sseg_frame; [|done]. intros q Hq.
        assert (q ≠ p) by (intros ->; by apply (Hp c')).
        by rewrite lookup_insert_ne, (add_keeps_next q) with (c' := c').
  - intros c' Hc'. destruct (decide (c' = c)) as [->|Hne]; [|rewrite upd_ne by done; by apply H4].
    rewrite upd_eq. apply NoDup_app. split_and!; [by apply H4| |apply NoDup_singleton].
    intros q Hq ->%list_elem_of_singleton. by apply (Hp c).
  - intros c' q Hc' Hq. destruct (decide (q = p)) as [->|Hqp].
    + split; [done|]. rewrite lookup_insert_eq, upd_eq. eexists. split; [done|].
      destruct (decide (c' = c)) as [->|]; [by apply fresh_page_ok|].
      rewrite upd_ne in Hq by done. by destruct (Hp c').
    + assert (Hq' : q ∈ pools c').
      { destruct (decide (c' = c)) as [->|]; [|by rewrite upd_ne in Hq].
        rewrite upd_eq in Hq. set_solver. }
      destruct (H5 c' q Hc' Hq') as (Hbq & y & Hy & Hpy). split; [done|].
      rewrite lookup_insert_ne, set_link_lookup, upd_ne, Hy by done.
      case_decide; simpl; eexists; (split; [done|]); [by apply page_ok_next|done].
  - intros q y Hy Hq. destruct (decide (q = p)) as [->|Hqp].
    { destruct (Hq c Hc). rewrite upd_eq. set_solver. }
    rewrite lookup_insert_ne, set_link_lookup in Hy by done. rewrite upd_ne by done.
    assert (Hq' : ∀ c', MIN_POOL_SIZE_EXP ≤ c' ≤ MAX_POOL_SIZE_EXP → q ∉ pools c').
    { intros c' Hc' Hin. apply (Hq c' Hc'). destruct (decide (c' = c)) as [->|]; [|by rewrite upd_ne].
      rewrite upd_eq. set_solver. }
    rewrite decide_False in Hy; [by apply H6|]. by intros ?%last_elem_of%Hq'.
Qed.
End Add.

(** ** Removing a page from its pool *)

Definition idle_page (p : Z) (x : dynamic_node) : dynamic_node :=
  mk_dnode (p * PAGE_SIZE) PAGE_SIZE 0 zero_bitmap (cur_idx x) None.

Lemma zero_bitmap_ok : bits_ok zero_bitmap [].
Proof.
  intros w Hw. exists 0. split.
  - assert (w = 0 ∨ w = 1 ∨ w = 2 ∨ w = 3) as [-> | [-> | [-> | ->]]] by lia; reflexivity.
  - split; [lia|]. intros b _. by rewrite Z.bits_0.
Qed.

Lemma idle_page_ok p x : idle_ok (idle_page p x) p.
Proof. split; simpl; try done. apply zero_bitmap_ok. Qed.

Lemma del_sseg nodes h l1 p l2 x :
  NoDup (l1 ++ p :: l2) → nodes !! p = Some x → sseg nodes h None (l1 ++ p :: l2) →
  sseg (set_link (dn_next x) l1 nodes) (if l1 is [] then dn_next x else h) None (l1 ++ l2).
Proof.
  intros Hnd Hx (u & H1 & (-> & x' & Hx' & H2))%sseg_app. simplify_eq. apply sseg_app.
  apply NoDup_app in Hnd as (Hnd1 & Hd & _).
  exists (dn_next x). split.
  - unfold set_link. destruct l1 as [|a l _] using rev_ind; [done|]. rewrite last_snoc.
    destruct (l ++ [a]) eqn:E; [by destruct l|]. rewrite <- E in *.
    by apply sseg_set_last with (t := Some p).
  - eapply sseg_frame; [|done]. intros q Hq. rewrite set_link_lookup, decide_False; [done|].
    intros ?%last_elem_of%Hd. set_solver.
Qed.

Section Del.
Context (d : dmem) (fl pools live : Z → list Z) (c p : Z) (x : dynamic_node) (l1 l2 : list Z).
Context (m' : mem) (fl' : Z → list Z).
Hypothesis Hwf : dyn_wf d fl pools live.
Hypothesis Hc : MIN_POOL_SIZE_EXP ≤ c ≤ MAX_POOL_SIZE_EXP.
Hypothesis Hl : pools c = l1 ++ p :: l2.
Hypothesis Hx : dynamic_node_arr d !! p = Some x.
Hypothesis Hm : buddy_wf m' fl'.
Hypothesis Hn : num_pages_exp m' = num_pages_exp (d_mem d).
Hypothesis Hb : ∀ q, q ≠ p → blk (num_pages_exp (d_mem d)) (arr (bs (d_mem d))) q Used 0 →
  blk (num_pages_exp (d_mem d)) (arr (bs m')) q Used 0.

Definition after_del : dmem :=
  mk_dmem m' (set_head c (dn_next x) l1 (mem_pool d))
    (<[p := idle_page p x]> (set_link (dn_next x) l1 (dynamic_node_arr d))).

Lemma del_pool q c' : MIN_POOL_SIZE_EXP ≤ c' ≤ MAX_POOL_SIZE_EXP →
  q ∈ upd pools c (l1 ++ l2) c' ↔ q ∈ pools c' ∧ q ≠ p.
Proof.
  intros Hc'. pose proof (dw_nodup _ _ _ _ Hwf c Hc) as Hnd. rewrite Hl in Hnd.
  destruct (decide (c' = c)) as [->|].
  - rewrite upd_eq, Hl. rewrite <- Permutation_middle in Hnd. apply NoDup_cons in Hnd as [Hnp _].
    split; [|set_solver]. intros Hq. split; [set_solver|]. by intros ->.
  - rewrite upd_ne by done. split; [|by intros [? _]]. intros Hq. split; [done|]. intros ->.
    assert (p ∈ pools c) by (rewrite Hl; set_solver). by destruct (pool_class_eq _ _ _ _ Hwf c' c p).
Qed.

Lemma wf_del : dyn_wf after_del fl' (upd pools c (l1 ++ l2)) (upd live p []).
Proof.
  pose proof Hwf as [H1 H2 H3 H4 H5 H6].
  assert (Hlast : ∀ q, last l1 = Some q → q ∈ pools c ∧ q ≠ p).
  { intros q Hq%last_elem_of. pose proof (del_pool q c Hc) as E. rewrite upd_eq in E. apply E. set_solver. }
  unfold after_del. split; simpl; [done| | | | |].
  - intros q. rewrite Hn, <- H2. destruct (decide (q = p)) as [->|].
    + rewrite lookup_insert_eq, Hx. by split; eauto.
    + rewrite lookup_insert_ne, set_link_lookup by done. case_decide; [|done]. by rewrite fmap_is_Some.
  - intros c' Hc'. destruct (H3 c' Hc') as (h & Hh & Hs). destruct (decide (c' = c)) as [->|Hne].
    + rewrite upd_eq. exists (if l1 is [] then dn_next x else h). split.
      * unfold set_head. destruct l1 as [|a l]; [apply lookup_insert_eq|].
        by destruct (last (a :: l)) eqn:El; [|apply last_None in El].
      * rewrite Hl in Hs. apply del_sseg with (x := x) in Hs; [|rewrite <- Hl; by apply H4|done].
        eapply sseg_frame; [|done]. intros q Hq. rewrite lookup_insert_ne; [done|].
        intros <-. pose proof (del_pool p c Hc) as E. rewrite upd_eq in E. by apply E in Hq as [_ ?].
    + rewrite upd_ne by done. exists h. split.
      * unfold set_head. destruct (last _); [done|]. by rewrite lookup_insert_ne by lia.
      * eapply sseg_frame; [|done]. intros q Hq.
        assert (q ≠ p) as Hqp.
        { pose proof (del_pool q c' Hc') as E. rewrite upd_ne in E by done. by apply E in Hq as [_ ?]. }
        rewrite lookup_insert_ne, set_link_lookup, decide_False; [done| |done].
        intros [Hq' _]%Hlast. by destruct (pool_class_eq _ _ _ _ Hwf c' c q).
  - intros c' Hc'. destruct (decide (c' = c)) as [->|Hne]; [|rewrite upd_ne by done; by apply H4].
    rewrite upd_eq. pose proof (H4 c Hc) as Hnd. rewrite Hl, <- Permutation_middle in Hnd.
    by apply NoDup_cons in Hnd as [_ ?].
  - intros c' q Hc' [Hq Hqp]%del_pool; [|done]. destruct (H5 c' q Hc' Hq) as (Hbq & y & Hy & Hpy).
    rewrite Hn. split; [by apply Hb|]. rewrite lookup_insert_ne, set_link_lookup, upd_ne, Hy by done.
    case_decide; simpl; eexists; (split; [done|]); [by apply page_ok_next|done].
  - intros q y Hy Hq. destruct (decide (q = p)) as [->|Hqp].
    { rewrite lookup_insert_eq in Hy. simplify_eq. rewrite upd_eq. split; [apply idle_page_ok|done]. }
    rewrite lookup_insert_ne, set_link_lookup in Hy by done. rewrite upd_ne by done.
    assert (Hq' : ∀ c', MIN_POOL_SIZE_EXP ≤ c' ≤ MAX_POOL_SIZE_EXP → q ∉ pools c').
    { intros c' Hc' Hin. apply (Hq c' Hc'). by apply del_pool. }
    rewrite decide_False in Hy; [by apply H6|]. intros [? _]%Hlast. by apply (Hq' c).
Qed.
End Del.

(** ** malloc *)

(** The exponent of the chunk size that serves a small request. *)
Definition size_class (size : Z) : Z := Z.max MIN_POOL_SIZE_EXP (Z.log2_up size).

Lemma size_exp_loop_spec fuel : ∀ e size d,
  0 < size ≤ 4096 → 0 ≤ e ≤ Z.log2_up size → Z.log2_up size - e < Z.of_nat fuel →
  size_exp_loop fuel (2 ^ e) size e d = Ok (Z.log2_up size, d).
Proof.
  induction fuel as [|fuel IH]; intros e size d Hs He Hf; [lia|]. cbn [size_exp_loop].
  assert (Hmax : Z.log2_up size ≤ 12) by (apply Z.log2_up_le_pow2; lia).
  destruct (Z.ltb_spec (2 ^ e) size) as [Hlt|Hge].
  - assert (e < Z.log2_up size) by (apply Z.log2_up_lt_pow2; lia).
    rewrite Z.shiftl_mul_pow2, Z.pow_1_r by lia.
    replace (2 ^ e * 2) with (2 ^ (e + 1)) by (rewrite pow2_succ; lia).
    rewrite u64_small; [apply IH; lia|]. pose proof (pow2_pos (e + 1)). pose proof (pow2_le (e + 1) 13). lia.
  - assert (Z.log2_up size ≤ e) by (apply Z.log2_up_le_pow2; lia).
    replace e with (Z.log2_up size) by lia. done.
Qed.

Lemma size_class_range size : 0 < size ≤ 2048 →
  MIN_POOL_SIZE_EXP ≤ size_class size ≤ MAX_POOL_SIZE_EXP ∧ size ≤ 2 ^ size_class size ∧
  Z.log2_up size ≤ MAX_POOL_SIZE_EXP.
Proof.
  intros Hs. assert (Z.log2_up size ≤ 11) by (apply Z.log2_up_le_pow2; lia).
  unfold size_class, MIN_POOL_SIZE_EXP, MAX_POOL_SIZE_EXP. split_and!; [lia..| |lia].
  destruct (decide (size = 1)) as [->|]; [by vm_compute|].
  pose proof (Z.log2_up_spec size ltac:(lia)). pose proof (Z.log2_up_nonneg size).
  pose proof (pow2_le (Z.log2_up size) (Z.max 4 (Z.log2_up size)) ltac:(lia)). lia.
Qed.

Lemma p2v_small p : 0 ≤ p < 2 ^ 30 → p2v_trans_kernel (p * PAGE_SIZE) = v_kernel_space + p * PAGE_SIZE.
Proof.
  intros Hp. unfold p2v_trans_kernel. rewrite PAGE_SIZE_eq. rewrite u64_small; [lia|].
  unfold v_kernel_space. lia.
Qed.

(** The address of chunk [j] of page [p] of class [c]. *)
Definition chunk_addr (c p j : Z) : Z := v_kernel_space + p * PAGE_SIZE + j * 2 ^ c.

Lemma chunk_in_page c j : MIN_POOL_SIZE_EXP ≤ c ≤ MAX_POOL_SIZE_EXP → 0 ≤ j < 2 ^ (12 - c) →
  0 ≤ j * 2 ^ c ∧ (j + 1) * 2 ^ c ≤ PAGE_SIZE.
Proof.
  unfold MIN_POOL_SIZE_EXP, MAX_POOL_SIZE_EXP. intros Hc Hj. pose proof (pow2_pos c ltac:(lia)).
  change PAGE_SIZE with (2 ^ 12). replace (2 ^ 12) with (2 ^ (12 - c) * 2 ^ c)
    by (rewrite <- Z.pow_add_r by lia; f_equal; lia). nia.
Qed.

Lemma chunk_addr_eq c p j : 0 ≤ p < 2 ^ 30 →
  MIN_POOL_SIZE_EXP ≤ c ≤ MAX_POOL_SIZE_EXP → 0 ≤ j < 2 ^ (12 - c) →
  u64 (p2v_trans_kernel (p * PAGE_SIZE) + j * 2 ^ c) = chunk_addr c p j.
Proof.
  intros Hp Hc Hj. destruct (chunk_in_page c j Hc Hj). unfold chunk_addr.
  rewrite p2v_small, PAGE_SIZE_eq in * by done. rewrite u64_small; [done|]. unfold v_kernel_space. nia.
Qed.

(** A block from the buddy system, when one is large enough. *)
Lemma block_alloc s fl req : buddy_wf s fl → 0 < req →
  (∃ i k, blk (num_pages_exp s) (arr (bs s)) i Free k ∧ req ≤ 2 ^ k) →
  ∃ p b x k, buddy_malloc req s = Ok (p * PAGE_SIZE, set_bs b s) ∧ buddy_wf (set_bs b s) (a_fl x) ∧
    allocated s (set_bs b s) p k ∧ 0 ≤ k ∧ req ≤ 2 ^ k ∧ (k = 0 ∨ 2 ^ (k - 1) < req) ∧
    0 ≤ p < 2 ^ num_pages_exp s.
Proof.
  intros Hwf Hreq (i & k & Hfree & Hle). pose proof Hwf as [Hc Hr Ht He].
  pose proof (malloc_run s fl req Hwf Hreq) as Hrun.
  destruct (a_malloc _ _ _) as [[p x]|] eqn:Ha.
  - destruct Hrun as (b & E & Hb). pose proof Hb as [Hab _].
    destruct (a_malloc_pages _ _ _ _ _ _ Hwf Ha Hab) as (k' & Hk & H1 & H2 & Hal & Ht' & _).
    pose proof Hal as (Hblk & _). simpl in Hblk. rewrite Hab in Hblk.
    exists p, b, x, k'. rewrite E, (idx_addr _ _ _ _ _ Ht' Hblk).
    pose proof (blk_idx_range _ _ _ _ _ Ht' Hblk).
    split_and!; [done|by eapply wf_set_bs|done|lia..|done|lia|lia].
  - exfalso. pose proof (til_n _ _ Ht) as Hn. pose proof Hfree as [Hv Hk].
    destruct (a_malloc_None _ _ _ (proj1 Hn) Ha k Hk) as [H2|Hnil]; [lia|].
    apply (rep_mem _ _ _ Hr k i Hk) in Hv. simpl in Hnil. rewrite Hnil in Hv. set_solver.
Qed.

Lemma page_alloc s fl : buddy_wf s fl →
  (∃ i k, blk (num_pages_exp s) (arr (bs s)) i Free k) →
  ∃ p b x, buddy_malloc 1 s = Ok (p * PAGE_SIZE, set_bs b s) ∧ buddy_wf (set_bs b s) (a_fl x) ∧
    allocated s (set_bs b s) p 0 ∧ 0 ≤ p < 2 ^ num_pages_exp s.
Proof.
  intros Hwf (i & k & Hfree). pose proof (pow2_pos k ltac:(apply Hfree)).
  destruct (block_alloc s fl 1 Hwf ltac:(lia)) as (p & b & x & k' & E & Hm & Hal & H0 & _ & H2 & Hp);
    [exists i, k; split; [done|lia]|].
  assert (k' = 0) as ->; [|by exists p, b, x].
  destruct (decide (k' = 0)); [done|]. pose proof (pow2_pos (k' - 1) ltac:(lia)). lia.
Qed.

Section Malloc.
Context (wide : Z → option Z) (d : dmem) (fl pools live : Z → list Z).
Hypothesis Hwf : dyn_wf d fl pools live.

Abbreviation n := (num_pages_exp (d_mem d)).

(** What a successful small allocation of class [c] does. *)
Definition chunk_given (c a : Z) (d' : dmem) : Prop :=
  ∃ fl' pools' p j, dyn_wf d' fl' pools' (upd live p (j :: live p)) ∧
    p ∈ pools' c ∧ a = chunk_addr c p j ∧ (∀ c', pools c' ⊆ pools' c') ∧
    m_cpu (d_mem d') = m_cpu (d_mem d) ∧ num_pages_exp (d_mem d') = n ∧
    ((d_mem d' = d_mem d ∧ pools' = pools) ∨
     ((∀ q i, q ∈ pools c → 0 ≤ i < 2 ^ (12 - c) → used (live q) i) ∧ allocated (d_mem d) (d_mem d') p 0)).

Definition entered : dmem := set_dmem (set_cpu (enter (m_cpu (d_mem d))) (d_mem d)) d.

Lemma entered_wf : dyn_wf entered fl pools live.
Proof. apply wf_cpu_step; [done|]. apply enter_ok, (dw_mem _ _ _ _ Hwf). Qed.

Lemma leave_entered m : m_cpu m = enter (m_cpu (d_mem d)) →
  leave (m_cpu m) = m_cpu (d_mem d).
Proof. intros ->. apply leave_enter, (dw_mem _ _ _ _ Hwf). Qed.

Lemma n_bound : 0 ≤ n ≤ 30.
Proof. apply til_n with (a := arr (bs (d_mem d))), (dw_mem _ _ _ _ Hwf). Qed.

Lemma take_given c p x j :
  MIN_POOL_SIZE_EXP ≤ c ≤ MAX_POOL_SIZE_EXP → p ∈ pools c → dynamic_node_arr d !! p = Some x →
  page_ok x p c (live p) → 0 ≤ j < 2 ^ (12 - c) → ¬ used (live p) j →
  chunk_given c (u64 (dn_addr x + j * 2 ^ c)) (after_take p x j entered).
Proof.
  intros Hc Hp Hx Hpg Hj Hu. pose proof n_bound. pose proof (pow2_le n 30 ltac:(lia)).
  pose proof (pool_range _ _ _ _ Hwf c p Hc Hp).
  exists fl, pools, p, j.
  replace (after_take p x j entered) with (set_dnodes (<[p := take_chunk j x]> (dynamic_node_arr d)) d).
  2:{ unfold after_take, entered. simpl. rewrite leave_enter by apply (dw_mem _ _ _ _ Hwf).
      unfold set_dmem, set_dnodes, set_cpu. simpl. f_equal. by destruct (d_mem d). }
  split; [eapply wf_node; [done..|by apply take_chunk_ok]|].
  split; [done|]. split; [|split; [done|split; [done|split; [done|by left]]]].
  rewrite (pg_addr _ _ _ _ Hpg). apply chunk_addr_eq; [lia|done..].
Qed.
End Malloc.

Lemma add_given d fl pools live c p b fl' x :
  dyn_wf d fl pools live → MIN_POOL_SIZE_EXP ≤ c ≤ MAX_POOL_SIZE_EXP →
  (∀ q i, q ∈ pools c → 0 ≤ i < 2 ^ (12 - c) → used (live q) i) →
  buddy_wf (set_bs b (d_mem d)) fl' → allocated (d_mem d) (set_bs b (d_mem d)) p 0 →
  0 ≤ p < 2 ^ num_pages_exp (d_mem d) → dynamic_node_arr d !! p = Some x →
  chunk_given d pools live c (chunk_addr c p 0)
    (after_add (set_dmem (set_bs b (d_mem d)) d) pools c p x) ∧
  (∀ c', MIN_POOL_SIZE_EXP ≤ c' ≤ MAX_POOL_SIZE_EXP → p ∉ pools c') ∧ idle_ok x p.
Proof.
  intros Hwf Hc Hfull Hm Hal Hp Hx.
  assert (Hnp : ∀ c', MIN_POOL_SIZE_EXP ≤ c' ≤ MAX_POOL_SIZE_EXP → p ∉ pools c').
  { intros c' Hc' Hin. destruct (dw_page _ _ _ _ Hwf c' p Hc' Hin) as [Hb _].
    destruct Hal as (_ & Hfr & _). pose proof (wf_til _ _ (dw_mem _ _ _ _ Hwf)) as Ht.
    enough (Free = Used) by done. eapply (pstat_fun _ _ Ht p); [apply Hfr; simpl; lia|].
    exists p, 0. simpl. split; [done|lia]. }
  destruct (dw_idle _ _ _ _ Hwf p x Hx Hnp) as [Hid Hlive].
  split; [|by split].
  assert (Hwf1 : dyn_wf (set_dmem (set_bs b (d_mem d)) d) fl' pools live).
  { apply (wf_mem _ _ _ _ Hwf); [done|done|]. intros c' q Hc' Hq. simpl.
    destruct (dw_page _ _ _ _ Hwf c' q Hc' Hq) as [Hb _]. by apply Hal. }
  exists fl', (upd pools c (pools c ++ [p])), p, 0. rewrite Hlive.
  split; [by apply wf_add with (fl := fl'); [..|exact (proj1 Hal)]|].
  rewrite upd_eq. split; [set_solver|]. split; [done|]. split.
  - intros c'. destruct (decide (c' = c)) as [->|]; [rewrite upd_eq|by rewrite upd_ne]. set_solver.
  - split; [done|]. split; [done|]. right. done.
Qed.

(** [if (prev == NULL) mem_pool[...] = t; else prev->next = t;] *)
Lemma wp_relink c t l (Q : unit → dmem → Prop) d :
  is_Some (mem_pool d !! (c - MIN_POOL_SIZE_EXP)) →
  (∀ q, q ∈ l → is_Some (dynamic_node_arr d !! q)) →
  Q tt (mk_dmem (d_mem d) (set_head c t l (mem_pool d)) (set_link t l (dynamic_node_arr d))) →
  wp (match last l with
      | None => pool_set (c - MIN_POOL_SIZE_EXP) t
      | Some q => dnode_upd q (set_next t)
      end) Q d.
Proof.
  intros Hh Hq HQ. unfold set_head, set_link in HQ. destruct (last l) as [q|] eqn:E.
  - destruct (Hq q (last_elem_of _ _ E)) as [y Hy]. eapply wp_dnode_upd; [done|].
    by rewrite (alter_as_insert _ _ _ y) in HQ.
  - by apply wp_pool_set.
Qed.

Lemma pool_nodes d fl pools live c q :
  dyn_wf d fl pools live → MIN_POOL_SIZE_EXP ≤ c ≤ MAX_POOL_SIZE_EXP → q ∈ pools c →
  is_Some (dynamic_node_arr d !! q).
Proof. intros Hwf Hc Hq. destruct (dw_page _ _ _ _ Hwf c q Hc Hq) as (_ & y & -> & _). eauto. Qed.

Lemma wf_uncpu s c b fl : cpu_ok (m_cpu s) → buddy_wf (set_bs b (set_cpu c s)) fl → buddy_wf (set_bs b s) fl.
Proof. by intros Hc [H1 H2 H3 H4]; split. Qed.

Lemma wp_pool_grow d fl pools live c :
  dyn_wf d fl pools live → MIN_POOL_SIZE_EXP ≤ c ≤ MAX_POOL_SIZE_EXP →
  (∃ i k, blk (num_pages_exp (d_mem d)) (arr (bs (d_mem d))) i Free k) →
  (∀ q i, q ∈ pools c → 0 ≤ i < 2 ^ (12 - c) → used (live q) i) →
  wp (pool_grow c (last (pools c))) (chunk_given d pools live c) (entered d).
Proof.
  intros Hwf Hc Hfree Hfull. unfold pool_grow. set (d1 := entered d).
  pose proof (entered_wf d fl pools live Hwf) as Hwf1. fold d1 in Hwf1.
  destruct (dw_list _ _ _ _ Hwf1 c Hc) as (h & Hh & Hs).
  destruct (page_alloc (d_mem d1) fl (dw_mem _ _ _ _ Hwf1) Hfree) as (p & b & xa & E & Hwb & Hal & Hp).
  wp_step. eapply wp_on_mem_eq; [exact E|]. rewrite (Z.div_mul p PAGE_SIZE) by done.
  destruct (proj2 (dw_dom _ _ _ _ Hwf p) Hp) as [x Hx].
  pose proof (wf_cpu _ _ (dw_mem _ _ _ _ Hwf)) as Hcpu.
  destruct (add_given d fl pools live c p b (a_fl xa) x Hwf Hc Hfull) as (Hg & Hnp & Hid);
    [exact (wf_uncpu _ _ _ _ Hcpu Hwb)|done..|].
  wp_step. apply (wp_relink c (Some p) (pools c)); [by exists h|intros q Hq; exact (pool_nodes d fl pools live c q Hwf Hc Hq)|].
  set (d2 := mk_dmem _ _ _). assert (Hx2 : dynamic_node_arr d2 !! p = Some x).
  { simpl. rewrite set_link_lookup, decide_False; [done|]. by intros ?%last_elem_of%Hnp. }
  destruct (bits_word (bitmap x) [] 0 (id_bits _ _ Hid) ltac:(lia)) as [w Hw]. change (0 / 64) with 0 in Hw.
  wp_step. eapply wp_dnode_upd; [done|]. do 2 (wp_step; apply wp_dnode_upd_again). wp_step.
  apply wp_dnode_get_again. wp_step. apply (wp_bitmap_get _ _ w); [done|].
  do 2 (wp_step; apply wp_dnode_upd_again). wp_step. apply wp_on_mem, wp_on_cpu_enable. wp_step.
  eapply wp_dnode_get; [simpl; apply lookup_insert_eq|]. wp_step. simpl.
  replace (chunk_addr c p 0) with (p2v_trans_kernel (p * PAGE_SIZE)) in Hg.
  2:{ unfold chunk_addr. rewrite p2v_small; [lia|]. pose proof (n_bound _ _ _ _ Hwf).
      pose proof (pow2_le (num_pages_exp (d_mem d)) 30 ltac:(lia)). change (0 ≤ p < 2 ^ num_pages_exp (d_mem d)) in Hp. lia. }
  eapply eq_ind; [exact Hg|]. unfold after_add, fresh_page, set_dmem, set_cpu, set_dnodes, set_bs. simpl.
  rewrite leave_enter by done. rewrite (id_sum _ _ Hid), Hw. unfold MIN_POOL_SIZE_EXP, MAX_POOL_SIZE_EXP in Hc.
  rewrite shl1_pow, u64_small; [done| |lia].
  pose proof (pow2_pos c). pose proof (pow2_le c 11). lia.
Qed.

Lemma wp_malloc_small wide d fl pools live size fuel :
  dyn_wf d fl pools live → 0 < size ≤ 2048 → shl_ok wide (size_class size) →
  2 ^ num_pages_exp (d_mem d) ≤ Z.of_nat fuel →
  (∃ i k, blk (num_pages_exp (d_mem d)) (arr (bs (d_mem d))) i Free k) →
  wp (malloc wide fuel size) (chunk_given d pools live (size_class size)) d.
Proof.
  intros Hwf Hsz Hsh Hfuel Hfree. destruct (size_class_range size Hsz) as (Hc & Hle & Hlog).
  set (c := size_class size) in *. unfold malloc.
  wp_step. apply wp_on_mem, wp_on_cpu_disable. fold (entered d). set (d1 := entered d).
  pose proof (entered_wf d fl pools live Hwf) as Hwf1. fold d1 in Hwf1.
  destruct (Z.eqb_spec size 0); [lia|]. destruct (Z.leb_spec PAGE_SIZE size); [rewrite PAGE_SIZE_eq in *; lia|].
  wp_step. eapply wp_eq; [apply (size_exp_loop_spec 13 0); [lia| |]|].
  { pose proof (Z.log2_up_nonneg size). lia. }
  { unfold MAX_POOL_SIZE_EXP in Hlog. lia. }
  destruct (Z.ltb_spec MAX_POOL_SIZE_EXP (Z.log2_up size)); [lia|].
  assert ((if Z.log2_up size <? MIN_POOL_SIZE_EXP then MIN_POOL_SIZE_EXP else Z.log2_up size) = c) as ->.
  { unfold c, size_class. destruct (Z.ltb_spec (Z.log2_up size) MIN_POOL_SIZE_EXP); lia. }
  destruct (dw_list _ _ _ _ Hwf1 c Hc) as (h & Hh & Hs).
  wp_step. apply (wp_pool_get _ h); [done|]. wp_step. change (@None Z) with (last (@nil Z)).
  eapply (wp_walk wide c d1 fl pools live fuel (pools c) []); [done..| | |].
  { pose proof (pool_length _ _ _ _ Hwf c Hc). lia. }
  { intros p x j Hp Hx Hpg Hj Hu. apply wp_ret. by apply (take_given d fl pools live Hwf c p x j). }
  simpl app. intros Hfull. by apply wp_pool_grow with (fl := fl).
Qed.

(** ** free *)

Lemma log_loop_spec fuel : ∀ e k d, 0 ≤ e → e + 1 < Z.of_nat fuel →
  log_loop fuel (2 ^ e) k d = Ok (k + e + 1, d).
Proof.
  induction fuel as [|fuel IH]; intros e k d He Hf; [lia|]. cbn [log_loop].
  destruct (Z.ltb_spec 0 (2 ^ e)); [|pose proof (pow2_pos e); lia].
  rewrite Z.shiftr_div_pow2, Z.pow_1_r by lia. destruct (decide (e = 0)) as [->|].
  - destruct fuel; [lia|]. simpl. unfold mret, M_ret. f_equal. f_equal. lia.
  - replace (2 ^ e) with (2 ^ (e - 1) * 2).
    + rewrite Z.div_mul, IH by lia. do 2 f_equal. lia.
    + replace e with ((e - 1) + 1) at 2 by lia. rewrite pow2_succ; lia.
Qed.

Lemma wp_find p l2 fuel : ∀ l pre cur (Q : option Z → dmem → Prop) d,
  sseg (dynamic_node_arr d) cur None (l ++ p :: l2) → p ∉ l → (length l ≤ fuel)%nat →
  Q (last (pre ++ l)) d → wp (pool_find fuel (last pre) cur p) Q d.
Proof.
  induction fuel as [|fuel IH]; intros l pre cur Q d Hs Hp Hf HQ;
    (destruct l as [|q l]; simpl in Hs;
      [destruct Hs as (-> & _); simpl; rewrite bool_decide_true by done; apply wp_ret;
       by rewrite app_nil_r in HQ|]); [simpl in Hf; lia|].
  destruct Hs as (-> & x & Hx & Hs). cbn [pool_find]. rewrite bool_decide_false by set_solver.
  wp_step. eapply wp_deref; [done|]. wp_step. apply (wp_dnode_get _ x); [done|].
  replace (Some q) with (last (pre ++ [q])) by apply last_snoc.
  apply IH with (l := l); [done|set_solver|simpl in Hf; lia|by rewrite <- app_assoc].
Qed.

Lemma chunk_locate c p j :
  0 ≤ p < 2 ^ 30 → MIN_POOL_SIZE_EXP ≤ c ≤ MAX_POOL_SIZE_EXP → 0 ≤ j < 2 ^ (12 - c) →
  let ptr := v2p_trans_kernel (chunk_addr c p j) in
  ptr < (p + 1) * PAGE_SIZE ∧ i32 (ptr / PAGE_SIZE) = p ∧
  i32 (u64 (chunk_addr c p j - p2v_trans_kernel (p * PAGE_SIZE)) / 2 ^ c) = j.
Proof.
  intros Hp Hc Hj ptr. destruct (chunk_in_page c j Hc Hj) as [Hlo Hhi]. pose proof (class_chunks c Hc).
  unfold MIN_POOL_SIZE_EXP, MAX_POOL_SIZE_EXP in Hc.
  pose proof (pow2_pos c ltac:(lia)). rewrite PAGE_SIZE_eq in *.
  assert (ptr = p * 4096 + j * 2 ^ c) as ->.
  { unfold ptr, v2p_trans_kernel, chunk_addr. rewrite PAGE_SIZE_eq, u64_small; [lia|]. lia. }
  assert (j * 2 ^ c < 4096) by lia. split; [lia|]. split.
  - rewrite Z.div_add_l, Z.div_small by lia. rewrite Z.add_0_r. apply i32_small. lia.
  - rewrite <- PAGE_SIZE_eq, p2v_small by lia. unfold chunk_addr.
    replace (v_kernel_space + p * PAGE_SIZE + j * 2 ^ c - (v_kernel_space + p * PAGE_SIZE))
      with (j * 2 ^ c) by lia.
    rewrite u64_small, Z.div_mul by lia. apply i32_small. lia.
Qed.

(** What giving back chunk [j] of page [p] does. *)
Definition chunk_taken (d : dmem) (pools live : Z → list Z) (c p j : Z) (d' : dmem) : Prop :=
  ∃ fl' pools' l1 l2, live p = l1 ++ j :: l2 ∧ dyn_wf d' fl' pools' (upd live p (l1 ++ l2)) ∧
    m_cpu (d_mem d') = m_cpu (d_mem d) ∧ num_pages_exp (d_mem d') = num_pages_exp (d_mem d) ∧
    if decide (l1 ++ l2 = []) then
      (∀ c', pools' c' ≡ₚ if decide (c' = c) then filter (.≠ p) (pools c) else pools c') ∧
      released (d_mem d) (d_mem d') p 0
    else pools' = pools ∧ d_mem d' = d_mem d.

Section Free.
Context (wide : Z → option Z) (d : dmem) (fl pools live : Z → list Z) (c p j : Z) (fuel : nat).
Hypothesis Hwf : dyn_wf d fl pools live.
Hypothesis Hc : MIN_POOL_SIZE_EXP ≤ c ≤ MAX_POOL_SIZE_EXP.
Hypothesis Hp : p ∈ pools c.
Hypothesis Hj : j ∈ live p.

Lemma drop_taken x l1 l2 :
  dynamic_node_arr d !! p = Some x → page_ok x p c (live p) → live p = l1 ++ j :: l2 → l1 ++ l2 ≠ [] →
  chunk_taken d pools live c p j (set_dnodes (<[p := drop_chunk j x]> (dynamic_node_arr d)) d).
Proof.
  intros Hx Hpg Hl Hne. exists fl, pools, l1, l2. rewrite decide_False by done.
  split_and!; [done| |done..]. eapply wf_node; [done..|]. apply drop_chunk_ok; [by rewrite <- Hl|done].
Qed.

Lemma del_taken x l1 l2 b' fl' :
  dynamic_node_arr d !! p = Some x → live p = [j] → pools c = l1 ++ p :: l2 →
  buddy_wf (set_bs b' (d_mem d)) fl' → released (d_mem d) (set_bs b' (d_mem d)) p 0 →
  chunk_taken d pools live c p j (after_del d c p x l1 (set_bs b' (d_mem d))).
Proof.
  intros Hx Hl Hpool Hm Hrel. exists fl', (upd pools c (l1 ++ l2)), [], [].
  split_and!; [done| |done|done|]; simpl.
  - eapply wf_del; [done|done|done|done|done|done|]. intros q Hq Hbq. by apply Hrel.
  - split; [|done]. intros c'. unfold upd. case_decide; [|done]. rewrite Hpool, filter_ne_split; [done|].
    rewrite <- Hpool. by eapply dw_nodup.
Qed.
End Free.

Lemma chunk_sum_zero l : (∀ i, i ∈ l → 0 ≤ i) → chunk_sum l = 0 ↔ l = [].
Proof.
  intros Hl. split; [|by intros ->]. destruct l as [|i l]; [done|]. intros E. exfalso.
  assert (0 ≤ chunk_sum l).
  { clear E. induction l as [|k l IH]; simpl; [lia|]. pose proof (Hl k ltac:(set_solver)).
    enough (0 ≤ chunk_sum l) by lia. apply IH. set_solver. }
  simpl in E. pose proof (Hl i ltac:(by left)). lia.
Qed.

(** The state of [free] after chunk [j], the last one of page [p], is gone. *)
Lemma wp_release_page d fl pools live c p j x fuel :
  dyn_wf d fl pools live → MIN_POOL_SIZE_EXP ≤ c ≤ MAX_POOL_SIZE_EXP → p ∈ pools c →
  live p = [j] → dynamic_node_arr d !! p = Some x → page_ok x p c (live p) →
  2 ^ num_pages_exp (d_mem d) ≤ Z.of_nat fuel →
  wp (release_page fuel p) (λ _ d', wp (on_mem (on_cpu enable_int)) (λ _, chunk_taken d pools live c p j) d')
    (set_dnodes (<[p := drop_chunk j x]> (dynamic_node_arr (entered d))) (entered d)).
Proof.
  intros Hwf Hc Hp Hl Hx Hpg Hfuel. pose proof (n_bound _ _ _ _ Hwf) as Hn.
  pose proof (pool_range _ _ _ _ Hwf c p Hc Hp) as Hpr. set (y := drop_chunk j x).
  pose proof (pow2_le (num_pages_exp (d_mem d)) 30 ltac:(lia)) as H30.
  pose proof (wf_cpu _ _ (dw_mem _ _ _ _ Hwf)) as Hcpu.
  destruct (dw_page _ _ _ _ Hwf c p Hc Hp) as (Hb & _).
  pose proof Hp as Hp'. apply list_elem_of_split in Hp' as (P1 & P2 & HL).
  destruct (dw_list _ _ _ _ Hwf c Hc) as (h & Hh & Hs).
  pose proof (dw_nodup _ _ _ _ Hwf c Hc) as Hnd. rewrite HL in Hnd.
  assert (HpL : p ∉ P1) by (apply NoDup_app in Hnd as (_ & Hd & _); intros ?%Hd; set_solver).
  assert (Hsz : chunk_size y = 2 ^ c) by apply Hpg.
  unfold release_page. wp_step. apply wp_dnode_get_again. wp_step. eapply wp_eq; [rewrite Hsz; apply log_loop_spec; unfold MIN_POOL_SIZE_EXP, MAX_POOL_SIZE_EXP in Hc; lia|].
  replace (-1 + c + 1) with c by lia.
  wp_step. apply (wp_pool_get _ h); [done|]. wp_step. change (@None Z) with (last (@nil Z)).
  apply (wp_find p P2 fuel P1 []); [|done| |].
  { rewrite HL in Hs. eapply sseg_frame; [|exact Hs]. intros q _. simpl.
    destruct (decide (q = p)) as [->|]; [|by rewrite lookup_insert_ne].
    by rewrite lookup_insert_eq, Hx. }
  { pose proof (pool_length _ _ _ _ Hwf c Hc) as Hlen. rewrite HL, length_app in Hlen. simpl in Hlen. lia. }
  simpl app. wp_step. apply wp_dnode_get_again. wp_step.
  apply (wp_relink c (dn_next y) P1); [by exists h| |].
  { intros q Hq. simpl. rewrite lookup_insert_ne by (intros <-; done).
    apply (pool_nodes d fl pools live c q Hwf Hc). rewrite HL. set_solver. }
  cbn [d_mem mem_pool dynamic_node_arr set_dnodes entered set_dmem].
  rewrite set_link_insert by done.
  change (mk_dmem ?m ?h (<[p := y]> ?k)) with (set_dnodes (<[p := y]> k) (mk_dmem m h k)).
  do 4 (wp_step; apply wp_dnode_upd_again). wp_step. apply wp_dnode_get_again.
  cbn [dn_addr set_bitmap set_next set_sum set_chunk].
  replace (v2p_trans_kernel (dn_addr y)) with (p * PAGE_SIZE).
  2:{ simpl. rewrite (pg_addr _ _ _ _ Hpg), p2v_small by lia. unfold v2p_trans_kernel.
      rewrite PAGE_SIZE_eq, u64_small; lia. }
  destruct (free_released (d_mem (entered d)) fl p 0 (dw_mem _ _ _ _ (entered_wf _ _ _ _ Hwf)) Hb)
    as (b' & fl' & E & Hm & Hr & _).
  wp_step. eapply wp_on_mem_eq; [exact E|]. eapply wp_dnode_upd; [simpl; apply lookup_insert_eq|].
  apply wp_on_mem, wp_on_cpu_enable. eapply eq_ind; [apply (del_taken d fl pools live c p j Hwf Hc x P1 P2 b' fl' Hx Hl HL (wf_uncpu _ _ _ _ Hcpu Hm) Hr)|].
  unfold after_del, set_dmem, set_cpu, set_dnodes, set_bs. simpl. rewrite insert_insert_eq, leave_enter by done.
  unfold idle_page. simpl. rewrite u64_small; [done|]. rewrite PAGE_SIZE_eq. lia.
Qed.

Lemma wp_free_chunk wide d fl pools live c p j fuel :
  dyn_wf d fl pools live → MIN_POOL_SIZE_EXP ≤ c ≤ MAX_POOL_SIZE_EXP → p ∈ pools c → j ∈ live p →
  shl_ok wide c → 2 ^ num_pages_exp (d_mem d) ≤ Z.of_nat fuel →
  wp (free wide fuel (chunk_addr c p j)) (λ _, chunk_taken d pools live c p j) d.
Proof.
  intros Hwf Hc Hp Hj Hsh Hfuel. pose proof (n_bound _ _ _ _ Hwf) as Hn.
  destruct (dw_page _ _ _ _ Hwf c p Hc Hp) as (Hb & x & Hx & Hpg).
  pose proof (pool_range _ _ _ _ Hwf c p Hc Hp) as Hpr.
  pose proof (pow2_le (num_pages_exp (d_mem d)) 30 ltac:(lia)) as H30.
  pose proof (pg_range _ _ _ _ Hpg j Hj) as Hjr.
  destruct (chunk_locate c p j ltac:(lia) Hc Hjr) as (L1 & L2 & L3).
  pose proof (wf_cpu _ _ (dw_mem _ _ _ _ Hwf)) as Hcpu.
  pose proof (page_chunk_256 _ _ _ _ _ Hpg Hjr) as Hj256.
  destruct (bits_word _ _ j (pg_bits _ _ _ _ Hpg) Hj256) as [w Hw].
  pose proof (page_sum_small _ _ _ _ Hpg) as Hsum.
  pose proof (bits_test _ _ j (pg_bits _ _ _ _ Hpg) Hj256 w Hw) as Htest.
  assert (Hcs : 16 ≤ 2 ^ c < 4096).
  { unfold MIN_POOL_SIZE_EXP, MAX_POOL_SIZE_EXP in Hc. pose proof (pow2_le 4 c). pose proof (pow2_lt c 12). lia. }
  unfold free. wp_step. apply wp_on_mem, wp_on_cpu_disable. fold (entered d).
  wp_step. apply wp_gets. simpl (bend _). rewrite (wf_end _ _ (dw_mem _ _ _ _ Hwf)).
  rewrite L2. destruct (Z.leb_spec (2 ^ num_pages_exp (d_mem d) * PAGE_SIZE) (v2p_trans_kernel (chunk_addr c p j)));
    [rewrite PAGE_SIZE_eq in *; lia|].
  wp_step. apply (wp_dnode_get _ x); [done|]. rewrite (pg_size _ _ _ _ Hpg), (pg_addr _ _ _ _ Hpg), L3.
  destruct (Z.eqb_spec (2 ^ c) PAGE_SIZE); [rewrite PAGE_SIZE_eq in *; lia|].
  wp_step. apply wp_assert; [apply negb_true_iff, Z.eqb_neq; lia|].
  wp_step. rewrite quot_div, rem_mod by lia. apply (wp_bitmap_get _ _ w); [done|].
  wp_step. eapply wp_deref; [by apply (shl_at wide c)|].
  destruct (Z.eqb_spec (Z.land w (u64 (shl1 (j mod 32)))) 0) as [H0|_].
  { apply Htest in H0. destruct H0. by apply list_elem_of_fmap_2. }
  apply list_elem_of_split in Hj as (l1 & l2 & Hl).
  assert (Hsum' : dn_sum x - (j + 1) = chunk_sum (l1 ++ l2)).
  { rewrite (pg_sum _ _ _ _ Hpg), Hl, !chunk_sum_app. simpl. lia. }
  assert (Hz : chunk_sum (l1 ++ l2) = 0 ↔ l1 ++ l2 = []).
  { apply chunk_sum_zero. intros i Hi. apply (pg_range _ _ _ _ Hpg). rewrite Hl. set_solver. }
  rewrite i32_small by (rewrite (pg_sum _ _ _ _ Hpg); lia).
  wp_step. eapply wp_dnode_upd; [done|]. wp_step. apply wp_dnode_upd_again.
  wp_step. apply wp_dnode_get_again. cbn [dn_sum set_bitmap set_sum].
  set (y := set_bitmap _ _). assert (Hy : y = drop_chunk j x) by (unfold y, drop_chunk; by rewrite Hw).
  wp_step. rewrite Hsum'. destruct (Z.eqb_spec (chunk_sum (l1 ++ l2)) 0) as [H0|H0].
  - apply Hz, app_nil in H0 as [-> ->]. rewrite Hy. by apply wp_release_page with (fl := fl).
  - wp_step. apply wp_on_mem, wp_on_cpu_enable. rewrite Hy.
    eapply eq_ind; [apply (drop_taken d fl pools live c p j Hwf Hc Hp x l1 l2); [done..|tauto]|].
    unfold set_dmem, set_cpu, set_dnodes. simpl. rewrite leave_enter by done. f_equal. by destruct (d_mem d).
Qed.
