(* ===== verification/DynamicProps.v ===== *)
(** * Theorems about the dynamic allocator

    Initialisation, allocation and release of chunks, disjointness of live
    chunks, large requests, and what the code does at the edge of its bitmap
    arithmetic and when memory runs out. *)

From S2P Require Import Prelude Cpu Dll Buddy BuddyRep BuddyTiling BuddyAlloc BuddyProps BuddyInit BuddyThm.
From S2P Require Import Dynamic DynamicRep DynamicThm.

(** ** Initialisation *)

Lemma dynamic_init_wf d fl :
  buddy_wf (d_mem d) fl → heap_ok (d_mem d) →
  heap_ptr (d_mem d) + 72 * 2 ^ num_pages_exp (d_mem d) + 8 ≤ heap_end → num_pages_exp (d_mem d) ≤ 25 →
  ∃ d', dynamic_allocator_init d = Ok (tt, d') ∧ dyn_wf d' fl (λ _, []) (λ _, []) ∧
    d_mem d' = set_heap_ptr (heap_ptr (d_mem d')) (d_mem d) ∧
    heap_ptr (d_mem d) ≤ heap_ptr (d_mem d') ≤ heap_ptr (d_mem d) + 72 * 2 ^ num_pages_exp (d_mem d) + 8.
Proof.
  intros Hm Hh Hroom Hn25. pose proof Hm as [Hc Hr Ht He]. pose proof (til_n _ _ Ht) as Hn.
  set (n := num_pages_exp (d_mem d)) in *. pose proof (pow2_pos n ltac:(lia)). pose proof (pow2_le n 25 ltac:(lia)).
  destruct heap_bounds as (Hb1 & Hb2 & _). pose proof Hh as [Hh1 Hh2].
  apply wp_unit.
  unfold dynamic_allocator_init. wp_step. apply wp_modify. wp_step. apply wp_gets. simpl (num_pages_exp _). fold n.
  rewrite shl1_pow, u64_small by (unfold sizeof_dynamic_node; lia). unfold sizeof_dynamic_node.
  destruct (align_padding_spec (2 ^ n * 72) (heap_ptr (d_mem d))) as [Hp _]; [lia..|].
  wp_step. eapply wp_on_mem_eq.
  { simpl. rewrite simple_malloc_eq; [|done|lia]. cbn zeta. destruct (Z.leb_spec
      (heap_ptr (d_mem d) + 2 ^ n * 72 + align_padding [8; 4; 2; 1] (2 ^ n * 72) (heap_ptr (d_mem d))) heap_end);
      [reflexivity|lia]. }
  wp_step. apply wp_assert; [done|]. apply wp_modify. split; [|split; [done|]].
  2:{ cbn [d_mem set_dnodes set_dmem heap_ptr set_heap_ptr set_pool]. fold n. lia. }
  set (f := λ i, mk_dnode (u64 (PAGE_SIZE * i)) PAGE_SIZE 0 zero_bitmap (-1) None).
  assert (Hf : ∀ p, fill f (2 ^ n) !! p = if decide (0 ≤ p < 2 ^ n) then Some (f p) else None)
    by apply lookup_fill.
  unfold fill, f in Hf. split; simpl.
  - split; done.
  - intros p. fold n. rewrite Hf. case_decide; naive_solver.
  - intros c Hc'. exists None. split; [|done].
    etrans; [apply (lookup_fill (λ _, None) (MAX_POOL_SIZE_EXP - MIN_POOL_SIZE_EXP + 1))|].
    rewrite decide_True; [done|].
    unfold MIN_POOL_SIZE_EXP, MAX_POOL_SIZE_EXP in *. lia.
  - intros. apply NoDup_nil_2.
  - set_solver.
  - intros p x Hx _. split; [|done].
    rewrite Hf in Hx. case_decide; simplify_eq. split; simpl; try done.
    + apply zero_bitmap_ok.
    + rewrite PAGE_SIZE_eq, u64_small; lia.
Qed.

(** ** A small system for the examples *)

Definition aarch64_wide (k : Z) : option Z := Some (shl1 (k - 32)).
Definition c_wide (k : Z) : option Z := None.

Lemma aarch64_lslv : lslv aarch64_wide.
Proof. done. Qed.

Definition finald {A} (m : M dmem A) (d : dmem) : dmem :=
  match m d with Ok (_, d') => d' | _ => d end.

Definition result {A} (m : M dmem A) (d : dmem) : option A :=
  match m d with Ok (a, _) => Some a | _ => None end.

Lemma finald_eq {A} (m : M dmem A) d a d' : m d = Ok (a, d') → d' = finald m d.
Proof. unfold finald. by intros ->. Qed.

Definition dmem8 : dmem := finald dynamic_allocator_init (mk_dmem mem8 ∅ ∅).

Lemma dmem8_ok : ∃ fl, dyn_wf dmem8 fl (λ _, []) (λ _, []) ∧ num_pages_exp (d_mem dmem8) = 3 ∧
  blk 3 (arr (bs (d_mem dmem8))) 0 Free 3.
Proof.
  destruct (buddy_init_inv (boot_mem 0x8000)) as (s' & E & Hi & Hh & Hrest); [done..|].
  assert (Em : mem8 = s') by (unfold mem8, final; by rewrite E). destruct Hi as [fl Hwf]. rewrite <- Em in *.
  destruct (dynamic_init_wf (mk_dmem mem8 ∅ ∅) fl Hwf Hh) as (d' & E' & Hd & _);
    [vm_compute; discriminate|vm_compute; discriminate|].
  assert (dmem8 = d') as <- by (unfold dmem8, finald; by rewrite E').
  exists fl. split; [exact Hd|]. split; [by vm_compute|]. split; [vm_compute; reflexivity|lia].
Qed.

(** [dynamic_allocator_init] on an initialised buddy system with room in
    the start-up heap returns without fault and establishes the invariant of
    the dynamic allocator with every pool empty. *)
Theorem dynamic_allocator_init_correct d :
  buddy_inv (d_mem d) → heap_ok (d_mem d) →
  heap_ptr (d_mem d) + 72 * 2 ^ num_pages_exp (d_mem d) + 8 ≤ heap_end → num_pages_exp (d_mem d) ≤ 25 →
  ∃ d', dynamic_allocator_init d = Ok (tt, d') ∧ dyn_inv d' ∧ bs (d_mem d') = bs (d_mem d) ∧
    ∀ k, MIN_POOL_SIZE_EXP ≤ k ≤ MAX_POOL_SIZE_EXP → mem_pool d' !! (k - MIN_POOL_SIZE_EXP) = Some None.
Proof.
  intros [fl Hm] Hh Hroom Hn. destruct (dynamic_init_wf d fl Hm Hh Hroom Hn) as (d' & E & Hd & Hb & _).
  exists d'. split; [exact E|]. split; [by eexists _, _, _|]. split; [by rewrite Hb|]. intros k Hk.
  destruct (dw_list _ _ _ _ Hd k Hk) as (h & Hh' & ->). exact Hh'.
Qed.

Lemma dynamic_allocator_init_correct_witness :
  ∃ d', dynamic_allocator_init (mk_dmem mem8 ∅ ∅) = Ok (tt, d') ∧ dyn_inv d'.
Proof.
  destruct (dynamic_allocator_init_correct (mk_dmem mem8 ∅ ∅)) as (d' & E & Hi & _);
    [exact (proj1 mem8_ok)|split; vm_compute; discriminate|vm_compute; discriminate|vm_compute; discriminate|].
  exists d'. split; [exact E|exact Hi].
Defined.

(** ** Allocation and release *)

(** C11: A request of 1 to 2048 bytes on a well-formed allocator with a free
    page, with as much fuel as there are pages: [malloc] returns, without
    fault, the address of a chunk that was not in use, in a page of the pool of
    the smallest chunk size (a power of two, at least 16) that covers the
    request; the chunk becomes live, nothing else changes hands, no page leaves
    a pool, the invariant and the interrupt state are kept.  A new page is
    taken from the buddy system only when the bitmap slot of every chunk of the
    pool was taken.  For chunks of 128 bytes and more each chunk has a slot of
    its own, so then every chunk was in use; for chunks of 16, 32 and 64 bytes
    the code shifts an int, chunks 32 apart in a word of the bitmap share a
    slot, and half of the chunks may be free.  There (requests up to 64 bytes)
    the theorem takes shifts by 32 and more, which C leaves undefined, to be
    those of AArch64 ([lslv]). *)
Theorem malloc_small_correct wide d fl pools live size fuel :
  dyn_wf d fl pools live → 0 < size ≤ 2048 → (64 < size ∨ lslv wide) →
  2 ^ num_pages_exp (d_mem d) ≤ Z.of_nat fuel →
  (∃ i k, blk (num_pages_exp (d_mem d)) (arr (bs (d_mem d))) i Free k) →
  ∃ a d', malloc wide fuel size d = Ok (a, d') ∧
    size ≤ 2 ^ size_class size ∧ chunk_given d pools live (size_class size) a d'.
Proof.
  intros Hwf Hsz Hsh Hfuel Hfree. destruct (size_class_range size Hsz) as (_ & Hle & _).
  assert (shl_ok wide (size_class size)) as Hok.
  { destruct Hsh as [H64|?]; [left|by right]. unfold size_class.
    assert (6 < Z.log2_up size) by (apply Z.log2_up_lt_pow2; lia). lia. }
  pose proof (wp_malloc_small wide d fl pools live size fuel Hwf Hsz Hok Hfuel Hfree) as H.
  apply wp_run in H as (a & d' & E & HQ). by exists a, d'.
Qed.

Lemma malloc_small_correct_witness :
  ∃ a d', malloc aarch64_wide 8 100 dmem8 = Ok (a, d') ∧ a = v_kernel_space.
Proof.
  destruct dmem8_ok as (fl & Hwf & Hn & Hb).
  destruct (malloc_small_correct aarch64_wide dmem8 fl (λ _, []) (λ _, []) 100 8 Hwf) as (a & d' & E & _);
    [lia|left; lia|rewrite Hn; lia|rewrite Hn; by exists 0, 3|].
  exists a, d'. split; [exact E|]. vm_compute in E. injection E as <- _. reflexivity.
Defined.

(** C13: [free] of a live chunk returns without fault and makes exactly that
    chunk free, keeping the invariant and the interrupt state.  If other
    chunks of the page are live, the page stays in its pool and the buddy
    system is untouched; if it was the last one, the page leaves its pool
    and exactly its frame goes back to the buddy system. *)
Theorem free_chunk_correct wide d fl pools live c p j fuel :
  dyn_wf d fl pools live → MIN_POOL_SIZE_EXP ≤ c ≤ MAX_POOL_SIZE_EXP → p ∈ pools c → j ∈ live p →
  (7 ≤ c ∨ lslv wide) → 2 ^ num_pages_exp (d_mem d) ≤ Z.of_nat fuel →
  ∃ d', free wide fuel (chunk_addr c p j) d = Ok (tt, d') ∧ chunk_taken d pools live c p j d'.
Proof. intros Hwf Hc Hp Hj Hsh Hfuel. apply wp_unit. by apply wp_free_chunk with (fl := fl). Qed.

Lemma malloc_live wide d fl pools live size fuel :
  dyn_wf d fl pools live → 0 < size ≤ 2048 → shl_ok wide (size_class size) →
  2 ^ num_pages_exp (d_mem d) ≤ Z.of_nat fuel →
  (∃ i k, blk (num_pages_exp (d_mem d)) (arr (bs (d_mem d))) i Free k) →
  ∃ a fl' pools' p j, malloc wide fuel size d = Ok (a, finald (malloc wide fuel size) d) ∧
    dyn_wf (finald (malloc wide fuel size) d) fl' pools' (upd live p (j :: live p)) ∧
    p ∈ pools' (size_class size) ∧ a = chunk_addr (size_class size) p j ∧
    num_pages_exp (d_mem (finald (malloc wide fuel size) d)) = num_pages_exp (d_mem d).
Proof.
  intros H1 H2 H3 H4 H5. pose proof (wp_malloc_small wide d fl pools live size fuel H1 H2 H3 H4 H5) as H.
  apply wp_run in H as (a & d' & E & fl' & pools' & p & j & Hwf & Hp & Ha & _ & _ & Hn & _).
  unfold finald. rewrite E. by exists a, fl', pools', p, j.
Qed.

Lemma free_chunk_correct_witness :
  ∃ d', free aarch64_wide 8 v_kernel_space (finald (malloc aarch64_wide 8 100) dmem8) = Ok (tt, d').
Proof.
  destruct dmem8_ok as (fl & Hwf & Hn & Hb).
  destruct (malloc_live aarch64_wide dmem8 fl (λ _, []) (λ _, []) 100 8 Hwf)
    as (a & fl' & pools' & p & j & E & Hwf' & Hp & Ha & Hn');
    [lia|left; vm_compute; discriminate|rewrite Hn; lia|rewrite Hn; by exists 0, 3|].
  assert (a = v_kernel_space) as ->
    by (vm_compute in E; injection E as <-; reflexivity).
  rewrite Ha.
  destruct (free_chunk_correct aarch64_wide _ fl' pools' _ (size_class 100) p j 8 Hwf') as (d' & E' & _);
    [split; vm_compute; discriminate|exact Hp|rewrite upd_eq; by left|left; vm_compute; discriminate|
     rewrite Hn', Hn; lia|].
  exists d'. exact E'.
Defined.

(** Live chunks never overlap: on a well-formed allocator the address
    ranges of two different live chunks are disjoint, each lies inside one
    page, and no two pools share a page. *)
Theorem live_chunks_disjoint d fl pools live c p j c' p' j' :
  dyn_wf d fl pools live →
  MIN_POOL_SIZE_EXP ≤ c ≤ MAX_POOL_SIZE_EXP → MIN_POOL_SIZE_EXP ≤ c' ≤ MAX_POOL_SIZE_EXP →
  p ∈ pools c → j ∈ live p → p' ∈ pools c' → j' ∈ live p' → (p, j) ≠ (p', j') →
  (p = p' → c = c') ∧
  chunk_addr c p 0 ≤ chunk_addr c p j ∧ chunk_addr c p j + 2 ^ c ≤ chunk_addr c p 0 + PAGE_SIZE ∧
  (chunk_addr c p j + 2 ^ c ≤ chunk_addr c' p' j' ∨ chunk_addr c' p' j' + 2 ^ c' ≤ chunk_addr c p j).
Proof.
  intros Hwf Hc Hc' Hp Hj Hp' Hj' Hne.
  destruct (dw_page _ _ _ _ Hwf c p Hc Hp) as (_ & x & _ & Hpg).
  destruct (dw_page _ _ _ _ Hwf c' p' Hc' Hp') as (_ & x' & _ & Hpg').
  destruct (chunk_in_page c j Hc (pg_range _ _ _ _ Hpg j Hj)).
  destruct (chunk_in_page c' j' Hc' (pg_range _ _ _ _ Hpg' j' Hj')).
  assert (Hcc : p = p' → c = c') by (intros <-; by eapply pool_class_eq).
  unfold chunk_addr. rewrite PAGE_SIZE_eq in *. unfold MIN_POOL_SIZE_EXP, MAX_POOL_SIZE_EXP in *.
  pose proof (pow2_pos c ltac:(lia)). pose proof (pow2_pos c' ltac:(lia)).
  split; [done|]. split; [lia|]. split; [lia|].
  destruct (Z.lt_total p p') as [|[->|]]; [left; lia| |right; lia].
  rewrite <- (Hcc eq_refl) in *. assert (j ≠ j') by congruence.
  destruct (Z.lt_total j j') as [|[->|]]; [left; nia|done|right; nia].
Qed.

(** Two chunks of 100 bytes, from the same page. *)
Definition dmem8_two : dmem :=
  finald (malloc aarch64_wide 8 100) (finald (malloc aarch64_wide 8 100) dmem8).

Lemma dmem8_two_ok : ∃ fl pools live p j p' j', dyn_wf dmem8_two fl pools live ∧
  p ∈ pools 7 ∧ j ∈ live p ∧ p' ∈ pools 7 ∧ j' ∈ live p' ∧ (p, j) ≠ (p', j').
Proof.
  destruct dmem8_ok as (fl & Hwf & Hn & Hb).
  assert (Hsh : shl_ok aarch64_wide (size_class 100)) by (left; vm_compute; discriminate).
  assert (Hfuel : 2 ^ num_pages_exp (d_mem dmem8) ≤ Z.of_nat 8) by (rewrite Hn; lia).
  assert (Hf : ∃ i k, blk (num_pages_exp (d_mem dmem8)) (arr (bs (d_mem dmem8))) i Free k)
    by (rewrite Hn; exists 0, 3; exact Hb).
  pose proof (wp_malloc_small _ _ _ _ _ 100 8 Hwf ltac:(lia) Hsh Hfuel Hf) as H1.
  destruct (proj1 (wp_run _ _ _) H1) as (a & d1 & E1 & fl1 & pools1 & p & j & Hwf1 & Hp & Ha & _ & _ & Hn1 & _).
  assert (Ed : d1 = finald (malloc aarch64_wide 8 100) dmem8) by exact (finald_eq _ _ _ _ E1).
  assert (Hf1 : blk 3 (arr (bs (d_mem d1))) 1 Free 0).
  { rewrite Ed. split; [vm_compute; reflexivity|lia]. }
  assert (Hfuel1 : 2 ^ num_pages_exp (d_mem d1) ≤ Z.of_nat 8) by (rewrite Hn1, Hn; lia).
  assert (Hf1' : ∃ i k, blk (num_pages_exp (d_mem d1)) (arr (bs (d_mem d1))) i Free k)
    by (rewrite Hn1, Hn; exists 1, 0; exact Hf1).
  pose proof (wp_malloc_small _ _ _ _ _ 100 8 Hwf1 ltac:(lia) Hsh Hfuel1 Hf1') as H2.
  destruct (proj1 (wp_run _ _ _) H2) as (a2 & d2 & E2 & fl2 & pools2 & p2 & j2 & Hwf2 & Hp2 & Ha2 & Hsub & _).
  assert (d2 = dmem8_two) as ->.
  { rewrite Ed in E2. unfold dmem8_two. exact (finald_eq _ _ _ _ E2). }
  assert (a ≠ a2) as Hne.
  { rewrite Ed in E2. vm_compute in E1, E2. injection E1 as <- _. injection E2 as <-. discriminate. }
  exists fl2, pools2, (upd (upd (λ _, []) p [j]) p2 (j2 :: upd (λ _, []) p [j] p2)), p, j, p2, j2.
  split; [exact Hwf2|]. change 7 with (size_class 100). split; [by apply Hsub|]. split.
  - destruct (decide (p = p2)) as [<-|]; [rewrite upd_eq, upd_eq; apply elem_of_cons; right; by left|].
    rewrite upd_ne, upd_eq by done. by left.
  - split; [exact Hp2|]. rewrite upd_eq. split; [by left|].
    intros Heq. injection Heq as -> ->. apply Hne. rewrite Ha, Ha2. reflexivity.
Qed.

Lemma live_chunks_disjoint_witness :
  ∃ p j p' j', (p, j) ≠ (p', j') ∧
    (chunk_addr 7 p j + 128 ≤ chunk_addr 7 p' j' ∨ chunk_addr 7 p' j' + 128 ≤ chunk_addr 7 p j).
Proof.
  destruct dmem8_two_ok as (fl & pools & live & p & j & p' & j' & Hwf & Hp & Hj & Hp' & Hj' & Hne).
  exists p, j, p', j'. split; [exact Hne|].
  apply (live_chunks_disjoint dmem8_two fl pools live 7 p j 7 p' j');
    [exact Hwf|split; vm_compute; discriminate|split; vm_compute; discriminate|assumption..].
Defined.

(** ** Large requests *)

(** An allocation from the buddy system does not concern the pools. *)
Lemma large_wf d fl pools live b fl' idx k :
  dyn_wf d fl pools live → buddy_wf (set_bs b (d_mem d)) fl' →
  allocated (d_mem d) (set_bs b (d_mem d)) idx k → 0 ≤ k →
  dyn_wf (set_dmem (set_bs b (d_mem d)) d) fl' pools live ∧
  ∀ c, MIN_POOL_SIZE_EXP ≤ c ≤ MAX_POOL_SIZE_EXP → idx ∉ pools c.
Proof.
  intros Hwf Hm Hal Hk. split.
  - apply (wf_mem _ _ _ _ Hwf); [done|done|]. intros c q Hc Hq.
    destruct (dw_page _ _ _ _ Hwf c q Hc Hq) as [Hb _]. by apply Hal.
  - intros c Hc Hq. destruct (dw_page _ _ _ _ Hwf c idx Hc Hq) as [Hb _].
    destruct Hal as (_ & Hfr & _). pose proof (wf_til _ _ (dw_mem _ _ _ _ Hwf)) as Ht.
    enough (Free = Used) by done.
    eapply (pstat_fun _ _ Ht idx); [apply Hfr; pose proof (pow2_pos k); lia|].
    exists idx, 0. split; [done|lia].
Qed.

Lemma malloc_large_run wide d fl pools live size fuel p b :
  dyn_wf d fl pools live → 2048 < size < 2 ^ 43 →
  buddy_malloc ((size - 1) / PAGE_SIZE + 1) (d_mem (entered d)) = Ok (p, set_bs b (d_mem (entered d))) →
  malloc wide fuel size d = Ok (p2v_trans_kernel p, set_dmem (set_bs b (d_mem d)) d).
Proof.
  intros Hwf Hsz E. pose proof (wf_cpu _ _ (dw_mem _ _ _ _ Hwf)) as Hcpu.
  enough (wp (malloc wide fuel size) (λ a d', a = p2v_trans_kernel p ∧ d' = set_dmem (set_bs b (d_mem d)) d) d)
    as (a & d' & -> & -> & ->)%wp_run by done.
  assert (Hend : set_dmem (set_cpu (leave (enter (m_cpu (d_mem d)))) (set_bs b (d_mem (entered d)))) (entered d) =
    set_dmem (set_bs b (d_mem d)) d) by (rewrite leave_enter by done; reflexivity).
  unfold malloc. wp_step. apply wp_on_mem, wp_on_cpu_disable. fold (entered d).
  destruct (Z.eqb_spec size 0); [lia|]. destruct (Z.leb_spec PAGE_SIZE size) as [Hle|Hlt].
  - wp_step. rewrite PAGE_SIZE_eq in *.
    assert (u32 ((size - 1) / 4096 + 1) = (size - 1) / 4096 + 1) as ->.
    { unfold u32. apply Z.mod_small. Z.div_mod_to_equations. lia. }
    eapply wp_on_mem_eq; [exact E|]. wp_step. apply wp_on_mem, wp_on_cpu_enable. wp_step.
    split; [done|exact Hend].
  - rewrite PAGE_SIZE_eq in *. wp_step. eapply wp_eq.
    { apply (size_exp_loop_spec 13 0); [lia|pose proof (Z.log2_up_nonneg size); lia|].
      assert (Z.log2_up size ≤ 12) by (apply Z.log2_up_le_pow2; lia). lia. }
    assert (11 < Z.log2_up size) by (apply Z.log2_up_lt_pow2; lia).
    destruct (Z.ltb_spec MAX_POOL_SIZE_EXP (Z.log2_up size)); [|unfold MAX_POOL_SIZE_EXP in *; lia].
    rewrite Z.div_small in E by lia.
    wp_step. eapply wp_on_mem_eq; [exact E|]. wp_step. apply wp_on_mem, wp_on_cpu_enable. wp_step.
    split; [done|exact Hend].
Qed.

Lemma free_large_run wide d fl pools live idx k fuel :
  dyn_wf d fl pools live → blk (num_pages_exp (d_mem d)) (arr (bs (d_mem d))) idx Used k →
  (∀ c, MIN_POOL_SIZE_EXP ≤ c ≤ MAX_POOL_SIZE_EXP → idx ∉ pools c) →
  ∃ d' fl', free wide fuel (v_kernel_space + idx * PAGE_SIZE) d = Ok (tt, d') ∧
    dyn_wf d' fl' pools live ∧ released (d_mem d) (d_mem d') idx k.
Proof.
  intros Hwf Hb Hnp. pose proof (dw_mem _ _ _ _ Hwf) as Hm. pose proof Hm as [Hcpu Hr Ht He].
  pose proof (n_bound _ _ _ _ Hwf) as Hn. pose proof (pow2_le (num_pages_exp (d_mem d)) 30 ltac:(lia)) as H30.
  pose proof (blk_idx_range _ _ _ _ _ Ht Hb) as Hi.
  destruct (proj2 (dw_dom _ _ _ _ Hwf idx) Hi) as [x Hx]. destruct (dw_idle _ _ _ _ Hwf idx x Hx Hnp) as [Hid _].
  destruct (free_released (d_mem (entered d)) fl idx k (dw_mem _ _ _ _ (entered_wf _ _ _ _ Hwf)) Hb)
    as (b & fl' & E & Hmb & Hrel & _).
  exists (set_dmem (set_bs b (d_mem d)) d), fl'.
  assert (Hv : v2p_trans_kernel (v_kernel_space + idx * PAGE_SIZE) = idx * PAGE_SIZE).
  { unfold v2p_trans_kernel. rewrite PAGE_SIZE_eq, u64_small; lia. }
  split; [|split; [|exact Hrel]].
  - enough (wp (free wide fuel (v_kernel_space + idx * PAGE_SIZE)) (λ _ d', d' = set_dmem (set_bs b (d_mem d)) d) d)
      as ([] & d' & -> & ->)%wp_run by done.
    unfold free. wp_step. apply wp_on_mem, wp_on_cpu_disable. fold (entered d). rewrite Hv.
    rewrite Z.div_mul, i32_small by (rewrite ?PAGE_SIZE_eq; lia).
    wp_step. apply wp_gets. simpl (bend _). rewrite He.
    destruct (Z.leb_spec (2 ^ num_pages_exp (d_mem d) * PAGE_SIZE) (idx * PAGE_SIZE)) as [Hbad|_];
      [rewrite PAGE_SIZE_eq in Hbad; lia|].
    wp_step. apply (wp_dnode_get _ x); [done|]. rewrite (id_size _ _ Hid), Z.eqb_refl.
    wp_step. eapply wp_on_mem_eq; [exact E|]. apply wp_on_mem, wp_on_cpu_enable. simpl.
    rewrite leave_enter by done. reflexivity.
  - apply (wf_mem _ _ _ _ Hwf); [exact (wf_uncpu _ _ _ _ Hcpu Hmb)|done|]. intros c q Hc Hq.
    destruct (dw_page _ _ _ _ Hwf c q Hc Hq) as [Hbq _]. apply Hrel. split; [|done].
    intros ->. by apply (Hnp c).
Qed.

(** Requests above 2048 bytes take whole page frames: [malloc] returns the
    kernel address of a block of the smallest power of two of pages that
    covers the request and leaves the pools alone, and [free] of that address
    gives exactly that block back to the buddy system. *)
Theorem malloc_large_correct wide d fl pools live size fuel :
  dyn_wf d fl pools live → 2048 < size < 2 ^ 43 →
  (∃ i k, blk (num_pages_exp (d_mem d)) (arr (bs (d_mem d))) i Free k ∧ size ≤ 2 ^ k * PAGE_SIZE) →
  ∃ idx k d' fl', malloc wide fuel size d = Ok (v_kernel_space + idx * PAGE_SIZE, d') ∧
    dyn_wf d' fl' pools live ∧ allocated (d_mem d) (d_mem d') idx k ∧
    size ≤ 2 ^ k * PAGE_SIZE ∧ (k = 0 ∨ 2 ^ (k - 1) * PAGE_SIZE < size) ∧
    ∃ d'', free wide fuel (v_kernel_space + idx * PAGE_SIZE) d' = Ok (tt, d'') ∧
      (∃ fl'', dyn_wf d'' fl'' pools live) ∧ released (d_mem d') (d_mem d'') idx k.
Proof.
  intros Hwf Hsz (i0 & k0 & Hfree & Hk0). set (req := (size - 1) / PAGE_SIZE + 1).
  pose proof (n_bound _ _ _ _ Hwf) as Hn. pose proof (pow2_le (num_pages_exp (d_mem d)) 30 ltac:(lia)) as H30.
  assert (Hreq : req * PAGE_SIZE - PAGE_SIZE < size ≤ req * PAGE_SIZE ∧ 0 < req).
  { unfold req. rewrite PAGE_SIZE_eq. Z.div_mod_to_equations; lia. }
  destruct (block_alloc (d_mem (entered d)) fl req (dw_mem _ _ _ _ (entered_wf _ _ _ _ Hwf))) as (idx & b & x & k & E & Hm & Hal & Hk1 & Hk2 & Hk & Hi);
    [lia|exists i0, k0; split; [done|rewrite PAGE_SIZE_eq in *; lia]|].
  pose proof (wf_uncpu _ _ _ _ (wf_cpu _ _ (dw_mem _ _ _ _ Hwf)) Hm) as Hm'.
  destruct (large_wf d fl pools live b (a_fl x) idx k Hwf Hm' Hal Hk1) as [Hwf' Hnp].
  exists idx, k, (set_dmem (set_bs b (d_mem d)) d), (a_fl x).
  split; [|split; [exact Hwf'|split; [exact Hal|split; [rewrite PAGE_SIZE_eq in *; lia|split]]]].
  - rewrite <- p2v_small by (split; [apply Hi|]; eapply Z.lt_le_trans; [apply Hi|exact H30]).
    by apply (malloc_large_run _ _ _ _ _ _ _ _ _ Hwf).
  - destruct Hk as [->|Hk]; [by left|right]. rewrite PAGE_SIZE_eq in *. lia.
  - destruct (free_large_run wide (set_dmem (set_bs b (d_mem d)) d) (a_fl x) pools live idx k fuel Hwf')
      as (d'' & fl'' & E' & Hwf'' & Hrel); [exact (proj1 Hal)|exact Hnp|].
    exists d''. split; [exact E'|]. split; [by exists fl''|exact Hrel].
Qed.

Lemma malloc_large_correct_witness :
  ∃ a d' d'', malloc c_wide 0 5000 dmem8 = Ok (a, d') ∧ free c_wide 0 a d' = Ok (tt, d'').
Proof.
  destruct dmem8_ok as (fl & Hwf & Hn & Hb).
  destruct (malloc_large_correct c_wide dmem8 fl (λ _, []) (λ _, []) 5000 0 Hwf)
    as (idx & k & d' & fl' & E & _ & _ & _ & _ & d'' & E' & _);
    [lia|rewrite Hn; exists 0, 3; split; [exact Hb|vm_compute; discriminate]|].
  exists (v_kernel_space + idx * PAGE_SIZE), d', d''. split; [exact E|exact E'].
Defined.

(** ** Two limits of the code *)

Fixpoint mallocs (wide : Z → option Z) (n : nat) (size : Z) : M dmem unit :=
  match n with
  | O => mret tt
  | S n' => _ ← malloc wide 8 size; mallocs wide n' size
  end.

(** The bitmap constant is an [int], so a page of 16-byte chunks leaves
    defined C at its 33rd chunk: 32 allocations of 16 bytes succeed, and the
    next one shifts by 32.  With the AArch64 shift it does not fault: it skips
    the free chunks 32 to 63, whose bits are those of chunks 0 to 31. *)
Theorem malloc_33rd_chunk :
  malloc c_wide 8 16 (finald (mallocs c_wide 32 16) dmem8) = Ub ∧
  result (mallocs c_wide 32 16) dmem8 = Some tt ∧
  result (malloc aarch64_wide 8 16) (finald (mallocs aarch64_wide 32 16) dmem8) =
    Some (v_kernel_space + 64 * 16).
Proof. split_and!; vm_compute; reflexivity. Qed.

(** [malloc] does not check the page it gets for a pool: when all pages
    are taken, a small request gets the NULL of [buddy_malloc] as page 0 and
    returns an address inside a block that is already allocated. *)
Theorem malloc_out_of_memory_overlaps :
  result (malloc c_wide 8 0x8000) dmem8 = Some v_kernel_space ∧
  result (malloc c_wide 8 16) (finald (malloc c_wide 8 0x8000) dmem8) = Some v_kernel_space.
Proof. split; vm_compute; reflexivity. Qed.
