(* ===== verification/PageRef.v ===== *)
(** * Reference counts of user pages (end of src/kernel/mem.c)

    One [struct page] per page frame: how many page-table entries map it and
    whether it may be written.  Dropping the last reference gives the frame
    back to the buddy system.  This is what copy-on-write in vmem.c uses. *)

From S2P Require Import Prelude Cpu Dll Buddy BuddyRep BuddyTiling BuddyAlloc BuddyProps BuddyInit BuddyThm.

Record page := mk_page { ref_count : Z; w_permission : Z }.

Record pmem := mk_pmem { p_mem : mem; usr_pages : gmap Z page }.

Definition set_pmem (m : mem) (s : pmem) : pmem := mk_pmem m (usr_pages s).
Definition set_pages (u : gmap Z page) (s : pmem) : pmem := mk_pmem (p_mem s) u.
Definition on_pmem {A} (m : M mem A) : M pmem A := zoom p_mem set_pmem m.

Definition sizeof_page : Z := 4.

Definition page_get (i : Z) : M pmem page := s ← get_st; deref (usr_pages s !! i).
Definition page_set (i : Z) (p : page) : M pmem unit :=
  _ ← page_get i; modify (λ s, set_pages (<[i := p]> (usr_pages s)) s).

(** ** Operations *)

Definition page_ref_init : M pmem unit :=
  n ← gets (λ s, num_pages_exp (p_mem s));
  p ← on_pmem (simple_malloc (u64 (shl1 n * sizeof_page)));
  assert (bool_decide (p ≠ None)) ;;
  modify (set_pages (list_to_map ((λ i, (i, mk_page 0 0)) <$> zseq 0 (Z.to_nat (shl1 n))))).

(** The start all of them share: [err_ret] is returned for a pointer inside a
    page. *)
Definition at_page {A} (ptr : Z) (err_ret : A) (body : Z → M pmem A) : M pmem A :=
  on_pmem (on_cpu disable_int) ;;
  let idx := ptr / PAGE_SIZE in
  if negb (ptr mod PAGE_SIZE =? 0) then
    on_pmem (on_cpu (printf ("Not start of a page" +:+ crlf))) ;;
    on_pmem (on_cpu enable_int) ;; mret err_ret
  else
    r ← body idx;
    on_pmem (on_cpu enable_int) ;; mret r.

Definition set_w_permission (ptr : Z) (w : bool) : M pmem unit :=
  at_page ptr tt (λ idx, p ← page_get idx; page_set idx (mk_page (ref_count p) (Z.b2z w))).

Definition get_w_permission (ptr : Z) : M pmem bool :=
  at_page ptr false (λ idx, p ← page_get idx; mret (negb (w_permission p =? 0))).

Definition get_ref_count (ptr : Z) : M pmem Z :=
  at_page ptr (u16 (Z.lnot 0)) (λ idx, p ← page_get idx; mret (ref_count p)).

Definition ref_page (ptr : Z) : M pmem unit :=
  at_page ptr tt (λ idx, p ← page_get idx; page_set idx (mk_page (u16 (ref_count p + 1)) (w_permission p))).

Definition deref_page (ptr : Z) : M pmem unit :=
  at_page ptr tt (λ idx,
    p ← page_get idx;
    if 0 <? ref_count p then
      let c := u16 (ref_count p - 1) in
      page_set idx (mk_page c (w_permission p)) ;;
      if c =? 0 then
        page_set idx (mk_page c 0) ;;
        v ← on_pmem (arr_get idx);
        (if (v <? 0) || (v =? NEG_ZERO) then on_pmem (buddy_free ptr) else mret tt)
      else mret tt
    else mret tt).

(** ** Invariant *)

Record page_wf (s : pmem) (fl : Z → list Z) : Prop := mk_page_wf {
  pw_mem : buddy_wf (p_mem s) fl;
  pw_dom i : is_Some (usr_pages s !! i) ↔ 0 ≤ i < 2 ^ num_pages_exp (p_mem s);
  pw_val i p : usr_pages s !! i = Some p → 0 ≤ ref_count p < 2 ^ 16 ∧ 0 ≤ w_permission p ≤ 1;
}.

(** ** Lemmas *)

Lemma wp_on_pmem {A} (m : M mem A) (Q : A → pmem → Prop) s :
  wp m (λ a t, Q a (set_pmem t s)) (p_mem s) → wp (on_pmem m) Q s.
Proof. apply wp_zoom. Qed.
Lemma wp_page_get i p (Q : page → pmem → Prop) s :
  usr_pages s !! i = Some p → Q p s → wp (page_get i) Q s.
Proof. intros H ?. unfold page_get. wp_steps. by apply (wp_deref _ p). Qed.
Lemma wp_page_set i p q (Q : unit → pmem → Prop) s :
  usr_pages s !! i = Some q → Q tt (set_pages (<[i := p]> (usr_pages s)) s) → wp (page_set i p) Q s.
Proof. intros H ?. unfold page_set. wp_step. apply (wp_page_get _ q); [done|]. by wp_steps. Qed.

Definition p_entered (s : pmem) : pmem := set_pmem (set_cpu (enter (m_cpu (p_mem s))) (p_mem s)) s.
Definition p_left (s : pmem) : pmem := set_pmem (set_cpu (leave (m_cpu (p_mem s))) (p_mem s)) s.

Lemma left_entered s : cpu_ok (m_cpu (p_mem s)) → p_left (p_entered s) = s.
Proof.
  destruct s as [m u]. intros H. unfold p_left, p_entered. simpl in *. rewrite leave_enter by done.
  unfold set_pmem. simpl. f_equal. by destruct m.
Qed.

Lemma wp_at_page {A} ptr (e : A) body (Q : A → pmem → Prop) s :
  ptr mod PAGE_SIZE = 0 →
  wp (body (ptr / PAGE_SIZE)) (λ r t, Q r (p_left t)) (p_entered s) → wp (at_page ptr e body) Q s.
Proof.
  intros Hp H. unfold at_page. rewrite Hp. simpl. wp_step. apply wp_on_pmem, wp_on_cpu_disable.
  wp_step. eapply wp_mono; [exact H|]. intros r t HQ. wp_step. apply wp_on_pmem, wp_on_cpu_enable. by wp_step.
Qed.

(** A page operation on a pointer inside a page only prints. *)
Lemma at_page_misaligned {A} ptr (e : A) body s :
  cpu_ok (m_cpu (p_mem s)) → ptr mod PAGE_SIZE ≠ 0 →
  at_page ptr e body s =
    Ok (e, set_pmem (set_cpu (say ("Not start of a page" +:+ crlf) (m_cpu (p_mem s))) (p_mem s)) s).
Proof.
  intros Hc Hp. enough (wp (at_page ptr e body) (λ a t, a = e ∧
    t = set_pmem (set_cpu (say ("Not start of a page" +:+ crlf) (m_cpu (p_mem s))) (p_mem s)) s) s)
    as (a & t & -> & -> & ->)%wp_run by done.
  unfold at_page. apply Z.eqb_neq in Hp. rewrite Hp. simpl.
  wp_step. apply wp_on_pmem, wp_on_cpu_disable. wp_step. apply wp_on_pmem, wp_on_cpu_printf.
  wp_step. apply wp_on_pmem, wp_on_cpu_enable. wp_step. split; [done|].
  cbn [p_mem set_pmem m_cpu set_cpu]. by rewrite (leave_say_enter _ _ Hc).
Qed.

Section Page.
Context (s : pmem) (fl : Z → list Z) (idx : Z) (p : page).
Hypothesis Hwf : page_wf s fl.
Hypothesis Hi : 0 ≤ idx < 2 ^ num_pages_exp (p_mem s).
Hypothesis Hp : usr_pages s !! idx = Some p.

Lemma ptr_idx : (idx * PAGE_SIZE) mod PAGE_SIZE = 0 ∧ idx * PAGE_SIZE / PAGE_SIZE = idx ∧ i32 idx = idx.
Proof.
  pose proof (til_n _ _ (wf_til _ _ (pw_mem _ _ Hwf))). pose proof (pow2_le (num_pages_exp (p_mem s)) 30).
  rewrite PAGE_SIZE_eq, Z.mod_mul, Z.div_mul, i32_small by lia. done.
Qed.

Lemma set_page_wf q : 0 ≤ ref_count q < 2 ^ 16 → 0 ≤ w_permission q ≤ 1 →
  page_wf (set_pages (<[idx := q]> (usr_pages s)) s) fl.
Proof.
  intros H1 H2. destruct Hwf as [W1 W2 W3]. split; simpl; [done| |].
  - intros i. rewrite lookup_insert_is_Some', W2. naive_solver.
  - intros i r. rewrite lookup_insert. case_decide; [by intros [= <-]|apply W3].
Qed.

Lemma set_left q : p_left (set_pages (<[idx := q]> (usr_pages s)) (p_entered s)) =
  set_pages (<[idx := q]> (usr_pages s)) s.
Proof.
  pose proof (left_entered s (wf_cpu _ _ (pw_mem _ _ Hwf))) as E. apply (f_equal p_mem) in E.
  unfold p_left, p_entered, set_pmem, set_pages in *. simpl in *. by rewrite E.
Qed.
End Page.

(** ** Theorems *)

Lemma page_ref_init_wf s fl :
  buddy_wf (p_mem s) fl → heap_ok (p_mem s) → num_pages_exp (p_mem s) ≤ 25 →
  heap_ptr (p_mem s) + 4 * 2 ^ num_pages_exp (p_mem s) + 8 ≤ heap_end →
  ∃ s', page_ref_init s = Ok (tt, s') ∧ page_wf s' fl ∧
    (∀ i, 0 ≤ i < 2 ^ num_pages_exp (p_mem s) → usr_pages s' !! i = Some (mk_page 0 0)) ∧
    p_mem s' = set_heap_ptr (heap_ptr (p_mem s')) (p_mem s) ∧ heap_ok (p_mem s').
Proof.
  intros Hm Hh Hn25 Hroom. pose proof Hm as [Hc Hr Ht He]. pose proof (til_n _ _ Ht) as Hn.
  set (n := num_pages_exp (p_mem s)) in *. pose proof (pow2_pos n ltac:(lia)). pose proof (pow2_le n 25 ltac:(lia)).
  destruct heap_bounds as (Hb1 & Hb2 & _). pose proof Hh as [Hh1 Hh2].
  apply wp_unit. unfold page_ref_init. wp_step. apply wp_gets. fold n.
  rewrite shl1_pow, u64_small by (unfold sizeof_page; lia). unfold sizeof_page.
  destruct (align_padding_spec (2 ^ n * 4) (heap_ptr (p_mem s))) as [Hp _]; [lia..|].
  wp_step. apply wp_on_pmem. eapply wp_eq.
  { rewrite simple_malloc_eq; [|done|lia]. cbn zeta. destruct (Z.leb_spec
      (heap_ptr (p_mem s) + 2 ^ n * 4 + align_padding [8; 4; 2; 1] (2 ^ n * 4) (heap_ptr (p_mem s))) heap_end);
      [reflexivity|lia]. }
  wp_step. apply wp_assert; [done|]. apply wp_modify.
  assert (Hf : ∀ i, fill (λ _, mk_page 0 0) (2 ^ n) !! i = if decide (0 ≤ i < 2 ^ n) then Some (mk_page 0 0) else None)
    by apply lookup_fill.
  unfold fill in Hf. split_and!; [split; simpl| |done|].
  - split; done.
  - intros i. fold n. rewrite Hf. case_decide; naive_solver.
  - intros i q. rewrite Hf. case_decide; [|done]. intros [= <-]. simpl. lia.
  - intros i Hi. simpl. by rewrite Hf, decide_True.
  - split; cbn [p_mem set_pages set_pmem heap_ptr set_heap_ptr]; lia.
Qed.

(** [page_ref_init] with room in the start-up heap returns without fault;
    every page then has count 0 and no write permission. *)
Theorem page_ref_init_correct s fl :
  buddy_wf (p_mem s) fl → heap_ok (p_mem s) → num_pages_exp (p_mem s) ≤ 25 →
  heap_ptr (p_mem s) + 4 * 2 ^ num_pages_exp (p_mem s) + 8 ≤ heap_end →
  ∃ s', page_ref_init s = Ok (tt, s') ∧ page_wf s' fl ∧
    ∀ i, 0 ≤ i < 2 ^ num_pages_exp (p_mem s) → usr_pages s' !! i = Some (mk_page 0 0).
Proof. intros. edestruct page_ref_init_wf as (s' & ? & ? & ? & _); [done..|]. by exists s'. Qed.

Definition pmem8 : pmem :=
  match page_ref_init (mk_pmem mem8_used ∅) with Ok (_, s) => s | _ => mk_pmem mem8_used ∅ end.

Lemma page_ref_init_correct_witness : ∃ fl s', page_ref_init (mk_pmem mem8_used ∅) = Ok (tt, s') ∧ page_wf s' fl.
Proof.
  destruct mem8_used_ok as ([fl Hwf] & Hn & _). exists fl.
  destruct (page_ref_init_correct (mk_pmem mem8_used ∅) fl Hwf) as (s' & E & Hw & _);
    [split; vm_compute; discriminate|cbn [p_mem]; rewrite Hn; lia|vm_compute; discriminate|].
  exists s'. split; [exact E|exact Hw].
Defined.

(** [ref_page] on a page start adds one reference, and [get_ref_count]
    reads it back; permission bits, other pages and the allocator are
    unchanged.  The 16-bit counter wraps to 0 at 65535 references. *)
Theorem ref_page_correct s fl idx p :
  page_wf s fl → 0 ≤ idx < 2 ^ num_pages_exp (p_mem s) → usr_pages s !! idx = Some p →
  let s' := set_pages (<[idx := mk_page (if ref_count p =? 65535 then 0 else ref_count p + 1) (w_permission p)]> (usr_pages s)) s in
  ref_page (idx * PAGE_SIZE) s = Ok (tt, s') ∧ page_wf s' fl ∧
  get_ref_count (idx * PAGE_SIZE) s' = Ok (if ref_count p =? 65535 then 0 else ref_count p + 1, s').
Proof.
  intros Hwf Hi Hp s'. destruct (ptr_idx s fl idx Hwf Hi) as (E1 & E2 & E3).
  destruct (pw_val _ _ Hwf idx p Hp) as [Hc Hw].
  assert (Hu : u16 (ref_count p + 1) = if ref_count p =? 65535 then 0 else ref_count p + 1).
  { unfold u16. destruct (Z.eqb_spec (ref_count p) 65535) as [->|]; [done|]. apply Z.mod_small. lia. }
  assert (Hwf' : page_wf s' fl).
  { eapply set_page_wf; simpl; [done..| |done]. destruct (Z.eqb_spec (ref_count p) 65535); lia. }
  split; [|split; [exact Hwf'|]].
  - enough (wp (ref_page (idx * PAGE_SIZE)) (λ _ t, t = s') s) as ([] & t & -> & ->)%wp_run by done.
    apply wp_at_page; [done|]. rewrite E2. wp_step. apply (wp_page_get _ p); [done|].
    eapply wp_page_set; [done|]. simpl (usr_pages _). by rewrite Hu, (set_left s fl).
  - enough (wp (get_ref_count (idx * PAGE_SIZE)) (λ a t, a = (if ref_count p =? 65535 then 0 else ref_count p + 1) ∧ t = s') s')
      as (a & t & -> & -> & ->)%wp_run by done.
    apply wp_at_page; [done|]. rewrite E2. wp_step. eapply wp_page_get; [simpl; apply lookup_insert_eq|]. wp_step.
    split; [done|]. apply left_entered, (pw_mem _ _ Hwf').
Qed.

Lemma cell_cases n a i : tiling n a → 0 ≤ i < 2 ^ n →
  ∃ v, a !! i = Some v ∧
    ((v <? 0) || (v =? NEG_ZERO) = true ∧ (∃ k, blk n a i Used k) ∨
     (v <? 0) || (v =? NEG_ZERO) = false ∧ ∀ k, ¬ blk n a i Used k).
Proof.
  intros Ht Hi. destruct (proj2 (til_dom _ _ Ht i) Hi) as [v Hv]. exists v. split; [done|].
  destruct (Z.ltb_spec v 0) as [Hlt|Hge]; simpl.
  - left. split; [done|]. destruct (til_val _ _ Ht i v Hv) as ([] & k & -> & Hk & _).
    + unfold EMPTY, INT_MAX. lia.
    + simpl in Hlt. lia.
    + exists k. by split.
  - right. split; [apply Z.eqb_neq; unfold NEG_ZERO, INT_MAX; lia|].
    intros k [Hk Hk0]. rewrite Hv in Hk. injection Hk as ->. pose proof (enc_Used_neg k ltac:(lia)). simpl in *. lia.
Qed.

(** Dropping one reference, up to what happens at zero. *)
Lemma wp_deref_page s fl idx p (Q : unit → pmem → Prop) :
  page_wf s fl → 0 ≤ idx < 2 ^ num_pages_exp (p_mem s) → usr_pages s !! idx = Some p → 0 < ref_count p →
  (if ref_count p =? 1 then
     wp (v ← on_pmem (arr_get idx);
         if (v <? 0) || (v =? NEG_ZERO) then on_pmem (buddy_free (idx * PAGE_SIZE)) else mret tt)
       (λ r t, Q r (p_left t)) (set_pages (<[idx := mk_page 0 0]> (usr_pages s)) (p_entered s))
   else Q tt (set_pages (<[idx := mk_page (ref_count p - 1) (w_permission p)]> (usr_pages s)) s)) →
  wp (deref_page (idx * PAGE_SIZE)) Q s.
Proof.
  intros Hwf Hi Hp Hpos HQ. destruct (ptr_idx s fl idx Hwf Hi) as (E1 & E2 & _).
  destruct (pw_val _ _ Hwf idx p Hp) as [Hc _].
  assert (Hu : u16 (ref_count p - 1) = ref_count p - 1) by (unfold u16; apply Z.mod_small; lia).
  apply wp_at_page; [done|]. rewrite E2. wp_step. apply (wp_page_get _ p); [done|].
  destruct (Z.ltb_spec 0 (ref_count p)); [|lia]. cbn zeta. rewrite Hu. wp_step.
  apply (wp_page_set _ _ p); [done|]. simpl (usr_pages _).
  destruct (Z.eqb_spec (ref_count p) 1) as [H1|H1].
  - rewrite H1. change (1 - 1 =? 0) with true. cbn iota. wp_step. eapply wp_page_set; [simpl; apply lookup_insert_eq|].
    simpl (usr_pages _). rewrite insert_insert_eq. exact HQ.
  - destruct (Z.eqb_spec (ref_count p - 1) 0); [lia|]. wp_step. by rewrite (set_left s fl).
Qed.

(** [deref_page] on a page start: a page without references is left
    alone; with two or more references the count drops by one and nothing
    else happens; the last reference clears count and write permission, and
    if the page starts a used block exactly that block goes back to the buddy
    system.  The invariant is kept in every case. *)
Theorem deref_page_correct s fl idx p :
  page_wf s fl → 0 ≤ idx < 2 ^ num_pages_exp (p_mem s) → usr_pages s !! idx = Some p →
  ∃ s' fl', deref_page (idx * PAGE_SIZE) s = Ok (tt, s') ∧ page_wf s' fl' ∧
    usr_pages s' = <[idx := if ref_count p =? 0 then p
      else mk_page (ref_count p - 1) (if ref_count p =? 1 then 0 else w_permission p)]> (usr_pages s) ∧
    if ref_count p =? 1
    then (∀ k, blk (num_pages_exp (p_mem s)) (arr (bs (p_mem s))) idx Used k → released (p_mem s) (p_mem s') idx k) ∧
         ((∀ k, ¬ blk (num_pages_exp (p_mem s)) (arr (bs (p_mem s))) idx Used k) → p_mem s' = p_mem s)
    else p_mem s' = p_mem s.
Proof.
  intros Hwf Hi Hp. destruct (ptr_idx s fl idx Hwf Hi) as (E1 & E2 & _).
  pose proof (pw_mem _ _ Hwf) as Hm. pose proof Hm as [Hcpu Hr Ht He].
  destruct (pw_val _ _ Hwf idx p Hp) as [Hc Hw].
  assert (Hset : ∀ q, 0 ≤ ref_count q < 2 ^ 16 → 0 ≤ w_permission q ≤ 1 →
    page_wf (set_pages (<[idx := q]> (usr_pages s)) s) fl) by (intros; by eapply set_page_wf).
  destruct (Z.eqb_spec (ref_count p) 0) as [H0|H0].
  { exists s, fl. rewrite insert_id by done. split; [|split; [done|split; [done|by rewrite H0]]].
    enough (wp (deref_page (idx * PAGE_SIZE)) (λ _ t, t = s) s) as ([] & t & -> & ->)%wp_run by done.
    apply wp_at_page; [done|]. rewrite E2. wp_step. apply (wp_page_get _ p); [done|]. rewrite H0. simpl.
    wp_step. by apply left_entered. }
  assert (Hu : u16 (ref_count p - 1) = ref_count p - 1) by (unfold u16; apply Z.mod_small; lia).
  destruct (Z.eqb_spec (ref_count p) 1) as [H1|H1].
  - set (s1 := set_pages (<[idx := mk_page (ref_count p - 1) 0]> (usr_pages s)) s).
    assert (Hwf1 : page_wf s1 fl) by (apply Hset; simpl; lia).
    destruct (cell_cases _ _ idx Ht Hi) as (v & Hv & [[Hneg [k Hb]]|[Hneg Hnb]]).
    + destruct (free_released (p_mem (p_entered s)) fl idx k) as (b & fl' & E & Hmb & Hrel & _);
        [split; simpl; [by apply enter_ok|done..]|exact Hb|].
      exists (set_pmem (set_bs b (p_mem s)) s1), fl'. split; [|split; [|split; [done|split]]].
      * enough (wp (deref_page (idx * PAGE_SIZE)) (λ _ t, t = set_pmem (set_bs b (p_mem s)) s1) s)
          as ([] & t & -> & ->)%wp_run by done.
        apply (wp_deref_page s fl idx p); [done..|lia|]. rewrite H1. simpl (1 =? 1). cbn iota.
        wp_step. apply wp_on_pmem. apply (wp_arr_get _ v); [exact Hv|]. rewrite Hneg. apply wp_on_pmem.
        eapply wp_eq; [exact E|]. unfold p_left, s1, set_pmem, set_pages. simpl. rewrite H1. simpl (1 - 1). f_equal.
        unfold set_bs, set_cpu. simpl. by rewrite leave_enter.
      * destruct Hwf1 as [_ W2 W3]. split; [|exact W2|exact W3]. by destruct Hmb.
      * intros k' Hb'. by destruct (blk_inj _ _ Ht _ _ _ _ _ Hb Hb') as [_ <-].
      * intros Hn. by destruct (Hn k).
    + exists s1, fl. split; [|split; [done|split; [done|split; [by intros k Hk; destruct (Hnb k)|done]]]].
      enough (wp (deref_page (idx * PAGE_SIZE)) (λ _ t, t = s1) s) as ([] & t & -> & ->)%wp_run by done.
      apply (wp_deref_page s fl idx p); [done..|lia|]. rewrite H1. simpl (1 =? 1). cbn iota.
      wp_step. apply wp_on_pmem. apply (wp_arr_get _ v); [exact Hv|]. rewrite Hneg. wp_step.
      unfold s1. rewrite H1. exact (set_left s fl idx Hwf _).
  - exists (set_pages (<[idx := mk_page (ref_count p - 1) (w_permission p)]> (usr_pages s)) s), fl.
    split; [|split; [apply Hset; simpl; lia|done]].
    enough (wp (deref_page (idx * PAGE_SIZE)) (λ _ t, t = set_pages (<[idx := mk_page (ref_count p - 1) (w_permission p)]> (usr_pages s)) s) s)
      as ([] & t & -> & ->)%wp_run by done.
    apply (wp_deref_page s fl idx p); [done..|lia|]. by destruct (Z.eqb_spec (ref_count p) 1).
Qed.

(** Page 0 starts a used block of four pages and has one reference. *)
Definition pmem8_ref : pmem := set_pages (<[0 := mk_page 1 1]> (usr_pages pmem8)) pmem8.

Lemma pmem8_ref_ok : ∃ fl, page_wf pmem8_ref fl ∧ num_pages_exp (p_mem pmem8_ref) = 3 ∧
  usr_pages pmem8_ref !! 0 = Some (mk_page 1 1).
Proof.
  destruct mem8_used_ok as ([fl Hwf] & Hn & _). exists fl.
  destruct (page_ref_init_wf (mk_pmem mem8_used ∅) fl Hwf) as (s' & E & Hw & H0 & _);
    [split; vm_compute; discriminate|cbn [p_mem]; rewrite Hn; lia|vm_compute; discriminate|].
  assert (Es : pmem8 = s') by (unfold pmem8; by rewrite E).
  assert (Hn' : num_pages_exp (p_mem pmem8) = 3) by (vm_compute; reflexivity).
  rewrite <- Es in Hw, H0. split; [|split; [exact Hn'|apply lookup_insert_eq]].
  apply (set_page_wf pmem8 fl 0 (mk_page 0 0)); [exact Hw|rewrite Hn'; lia| |simpl; lia|simpl; lia].
  apply H0. cbn [p_mem]. rewrite Hn. lia.
Qed.

Lemma ref_page_correct_witness :
  ref_page (0 * PAGE_SIZE) pmem8_ref = Ok (tt, set_pages (<[0 := mk_page 2 1]> (usr_pages pmem8_ref)) pmem8_ref).
Proof.
  destruct pmem8_ref_ok as (fl & Hwf & Hn & Hp).
  destruct (ref_page_correct pmem8_ref fl 0 (mk_page 1 1) Hwf) as (E & _); [rewrite Hn; lia|exact Hp|exact E].
Defined.

Lemma deref_page_correct_witness :
  ∃ s', deref_page (0 * PAGE_SIZE) pmem8_ref = Ok (tt, s') ∧ usr_pages s' !! 0 = Some (mk_page 0 0) ∧
    arr (bs (p_mem s')) !! 0 = Some 2.
Proof.
  destruct pmem8_ref_ok as (fl & Hwf & Hn & Hp).
  destruct (deref_page_correct pmem8_ref fl 0 (mk_page 1 1) Hwf) as (s' & fl' & E & _);
    [rewrite Hn; lia|exact Hp|].
  exists s'. split; [exact E|]. vm_compute in E. injection E as <-. split; vm_compute; reflexivity.
Defined.

(** A pointer that is not a page start is refused by all five operations:
    each prints the message, returns its error value (false, 65535 or
    nothing) and changes nothing else. *)
Theorem page_ops_misaligned s ptr w :
  cpu_ok (m_cpu (p_mem s)) → ptr mod PAGE_SIZE ≠ 0 →
  let s' := set_pmem (set_cpu (say ("Not start of a page" +:+ crlf) (m_cpu (p_mem s))) (p_mem s)) s in
  set_w_permission ptr w s = Ok (tt, s') ∧ get_w_permission ptr s = Ok (false, s') ∧
  get_ref_count ptr s = Ok (65535, s') ∧ ref_page ptr s = Ok (tt, s') ∧ deref_page ptr s = Ok (tt, s').
Proof.
  intros Hc Hp. split_and!; by apply at_page_misaligned.
Qed.

Lemma page_ops_misaligned_witness :
  ∃ s', get_ref_count 0x1001 pmem8_ref = Ok (65535, s') ∧ ref_page 0x1001 pmem8_ref = Ok (tt, s').
Proof.
  eexists. split; apply (page_ops_misaligned pmem8_ref 0x1001 true);
    (split; vm_compute; [discriminate|reflexivity]) || (vm_compute; discriminate).
Defined.

(** [set_w_permission] followed by [get_w_permission] on the same page
    reads back what was written; reference counts and the permissions of
    other pages are untouched. *)
Theorem w_permission_roundtrip s fl idx p w :
  page_wf s fl → 0 ≤ idx < 2 ^ num_pages_exp (p_mem s) → usr_pages s !! idx = Some p →
  let s' := set_pages (<[idx := mk_page (ref_count p) (Z.b2z w)]> (usr_pages s)) s in
  set_w_permission (idx * PAGE_SIZE) w s = Ok (tt, s') ∧ page_wf s' fl ∧
  get_w_permission (idx * PAGE_SIZE) s' = Ok (w, s').
Proof.
  intros Hwf Hi Hp s'. destruct (ptr_idx s fl idx Hwf Hi) as (E1 & E2 & _).
  destruct (pw_val _ _ Hwf idx p Hp) as [Hc Hw].
  assert (Hwf' : page_wf s' fl) by (eapply set_page_wf; [done..|destruct w; simpl; lia]).
  split; [|split; [exact Hwf'|]].
  - enough (wp (set_w_permission (idx * PAGE_SIZE) w) (λ _ t, t = s') s) as ([] & t & -> & ->)%wp_run by done.
    apply wp_at_page; [done|]. rewrite E2. wp_step. apply (wp_page_get _ p); [done|].
    eapply wp_page_set; [done|]. simpl (usr_pages _). by rewrite (set_left s fl).
  - enough (wp (get_w_permission (idx * PAGE_SIZE)) (λ a t, a = w ∧ t = s') s')
      as (a & t & -> & -> & ->)%wp_run by done.
    apply wp_at_page; [done|]. rewrite E2. wp_step. eapply wp_page_get; [simpl; apply lookup_insert_eq|]. wp_step.
    split; [by destruct w|]. apply left_entered, (pw_mem _ _ Hwf').
Qed.

Lemma w_permission_roundtrip_witness :
  ∃ s', set_w_permission (0 * PAGE_SIZE) false pmem8_ref = Ok (tt, s') ∧
    get_w_permission (0 * PAGE_SIZE) s' = Ok (false, s').
Proof.
  destruct pmem8_ref_ok as (fl & Hwf & Hn & Hp).
  destruct (w_permission_roundtrip pmem8_ref fl 0 (mk_page 1 1) false Hwf) as (E & _ & E');
    [rewrite Hn; lia|exact Hp|]. eexists. split; [exact E|exact E'].
Defined.
