(* ===== verification/Boot.v ===== *)
(** * Setting up the memory (main of src/kernel/main.c)

    [main] starts the allocators of mem.c in this order: the buddy system, the
    dynamic allocator, the regions that are in use already, the reference
    counts.  The three share one start-up heap and one buddy system. *)

From S2P Require Import Prelude Cpu Dll Buddy BuddyRep BuddyTiling BuddyAlloc BuddyProps BuddyInit BuddyThm BuddyReserve.
From S2P Require Import Dynamic DynamicRep DynamicThm DynamicProps PageRef.

Record bootm := mk_bootm { b_dyn : dmem; b_pages : gmap Z page }.

Definition b_mem (s : bootm) : mem := d_mem (b_dyn s).
Definition set_bmem (m : mem) (s : bootm) : bootm := mk_bootm (set_dmem m (b_dyn s)) (b_pages s).
Definition on_buddy {A} (m : M mem A) : M bootm A := zoom b_mem set_bmem m.
Definition on_dyn {A} (m : M dmem A) : M bootm A := zoom b_dyn (λ d s, mk_bootm d (b_pages s)) m.
Definition b_pmem (s : bootm) : pmem := mk_pmem (b_mem s) (b_pages s).
Definition on_pages {A} (m : M pmem A) : M bootm A := zoom b_pmem (λ p s, mk_bootm (set_dmem (p_mem p) (b_dyn s)) (usr_pages p)) m.

Definition memory_setup (f : found) : M bootm unit :=
  on_buddy buddy_init ;;
  on_dyn dynamic_allocator_init ;;
  on_buddy (reserve_mem_regions f) ;;
  on_pages page_ref_init.

Lemma zoom_Ok {S C A} (get : S → C) put (m : M C A) s a c : m (get s) = Ok (a, c) → zoom get put m s = Ok (a, put c s).
Proof. intros E. unfold zoom. by rewrite E. Qed.

(** ** The invariants together *)

(** A dynamic allocator without pools depends on the buddy system by the number
    of pages only. *)
Lemma dyn_wf_fresh d fl m fl' : dyn_wf d fl (λ _, []) (λ _, []) → buddy_wf m fl' → num_pages_exp m = num_pages_exp (d_mem d) →
  dyn_wf (set_dmem m d) fl' (λ _, []) (λ _, []).
Proof.
  intros [Hm Hd Hl Hnd Hp Hi] Hm' Hn. split; cbn [d_mem set_dmem mem_pool dynamic_node_arr]; [done|by rewrite Hn|done|done| |done].
  intros c p _ Hp'. by apply elem_of_nil in Hp'.
Qed.

Lemma buddy_wf_heap m fl p : buddy_wf m fl → buddy_wf (set_heap_ptr p m) fl.
Proof. intros [? ? ? ?]. by split. Qed.

(** A region of more than one page below [top]. *)
Definition multi_page (top : Z) (r : Z * Z) : Prop := 0 ≤ r.1 < r.2 ∧ r.2 ≤ top ∧ r.1 / PAGE_SIZE ≠ (r.2 - 1) / PAGE_SIZE.

Lemma multi_wide m top r : multi_page top r → top ≤ bend m → wide m r.
Proof. intros (? & ? & ?) ?. split_and!; [lia..|done]. Qed.

(** The range of the buddy system ends at the memory, or two pages above it. *)
Lemma top_wide m : bend m = 2 ^ num_pages_exp m * PAGE_SIZE → 0 < num_pages_exp m → 0 ≤ usable_memory1 m ≤ bend m → (8192 | usable_memory1 m) →
  usable_memory1 m = bend m ∨ wide m (usable_memory1 m, bend m).
Proof.
  intros He Hn Hu [c Hc]. destruct (decide (usable_memory1 m = bend m)) as [|Hne]; [by left|]. right.
  assert (Hb : ∃ k, bend m = k * 8192).
  { exists (2 ^ (num_pages_exp m - 1)). rewrite He, PAGE_SIZE_eq. replace (num_pages_exp m) with (num_pages_exp m - 1 + 1) at 1 by lia. rewrite pow2_succ by lia. lia. }
  destruct Hb as [k Hk]. split_and!; cbn [fst snd]; [lia..|]. rewrite PAGE_SIZE_eq, Hc, Hk.
  replace (c * 8192) with ((2 * c) * 4096) by lia. rewrite Z.div_mul by lia.
  rewrite <- (Z.div_unique (k * 8192 - 1) 4096 (2 * k - 1) 4095); lia.
Qed.

(** ** The whole set-up *)

(** The first two steps: the buddy system is one free block, the dynamic
    allocator has no pools, and the heap has room for the rest. *)
Record started (m0 : mem) (d : dmem) : Prop := mk_started {
  st_wf : ∃ fl, dyn_wf d fl (λ _, []) (λ _, []);
  st_heap : heap_start ≤ heap_ptr (d_mem d) ∧ heap_ptr (d_mem d) + 4 * 2 ^ num_pages_exp (d_mem d) + 8 ≤ heap_end;
  st_exp : 0 ≤ num_pages_exp (d_mem d) ≤ 20;
  st_free : blk (num_pages_exp (d_mem d)) (arr (bs (d_mem d))) 0 Free (num_pages_exp (d_mem d));
  st_base : base (d_mem d) = 0;
  st_top : usable_memory0 (d_mem d) = usable_memory0 m0 ∧ usable_memory1 (d_mem d) = usable_memory1 m0 ∧ usable_memory1 m0 ≤ bend (d_mem d);
}.

Lemma start_run s : let m := b_mem s in cpu_ok (m_cpu m) → heap_ptr m = heap_start → usable_memory1 m ≤ 2 ^ 32 →
  ∃ m1 d, buddy_init m = Ok (tt, m1) ∧ dynamic_allocator_init (set_dmem m1 (b_dyn s)) = Ok (tt, d) ∧ started m d.
Proof.
  intros m Hc Hh Htop. destruct (buddy_init_inv m Hc Hh Htop) as (m1 & E1 & [fl1 Hwf1] & Hh1 & _ & Hb0 & _ & Hba & Hn & Hend & _ & E0u & E1u & Hhp).
  pose proof (pow2_le (num_pages_exp m1) 20 ltac:(lia)). assert (Hheap : heap_end = heap_start + 134217728) by done.
  destruct (dynamic_init_wf (set_dmem m1 (b_dyn s)) fl1 Hwf1 Hh1) as (d & E2 & Hd & Em & Hhd); cbn [d_mem set_dmem] in *; [lia|lia|].
  exists m1, d. split; [exact E1|]. split; [exact E2|]. destruct Hh1 as [Hh1 _].
  split; [by exists fl1|..]; rewrite Em; cbn [set_heap_ptr num_pages_exp heap_ptr bs base bend usable_memory0 usable_memory1]; [lia|lia|done|done|done].
Qed.

(** C3: The set-up of the memory at boot, where the memory ends at a multiple of
    8 KB between 0x18000000 (the heap of the start-up allocator has its place)
    and 4 GB, and the ramdisk, the device tree and the unusable memory below
    the usable, if there is any, each lie in the memory and touch more than one
    page ([multi_page]; a region within one page meets the lone-page case of
    [memory_reserve], in which that page may stay free, see C4).  Then the
    set-up returns: the tables fit into that heap, the invariants of the three
    allocators hold with no chunk in use and no page referenced, every page of
    a region that is in use is taken, and what [buddy_malloc] hands out
    afterwards touches none of these regions, so that 0 is never the address
    of a block. *)
Theorem memory_setup_correct f s : let m := b_mem s in
  cpu_ok (m_cpu m) → heap_ptr m = heap_start →
  0x18000000 ≤ usable_memory1 m ≤ 2 ^ 32 → (8192 | usable_memory1 m) → (usable_memory0 m = 0 ∨ multi_page (usable_memory1 m) (0, usable_memory0 m)) →
  multi_page (usable_memory1 m) (v2p_trans_kernel (ramdisk_saddr f), v2p_trans_kernel (ramdisk_eaddr f)) →
  multi_page (usable_memory1 m) (v2p_trans_kernel (dtb_addr f), v2p_trans_kernel (dtb_addr f + dtb_len f)) →
  ∃ s' fl, memory_setup f s = Ok (tt, s') ∧ dyn_wf (b_dyn s') fl (λ _, []) (λ _, []) ∧ page_wf (b_pmem s') fl ∧ heap_ok (b_mem s') ∧
    (∀ i, 0 ≤ i < 2 ^ num_pages_exp (b_mem s') → b_pages s' !! i = Some (mk_page 0 0)) ∧
    let l := boot_regions f (b_mem s') in
    (∀ r j, r ∈ l → in_region r j → pstat (num_pages_exp (b_mem s')) (arr (bs (b_mem s'))) j Used) ∧
    ∀ req, 0 < req → ∃ p m2, buddy_malloc req (b_mem s') = Ok (p, m2) ∧
      ((p = 0 ∧ bs m2 = bs (b_mem s')) ∨ (p ≠ 0 ∧ ∀ r, r ∈ l → p + req * PAGE_SIZE ≤ r.1 ∨ r.2 ≤ p)).
Proof.
  intros m Hc Hh Htop Hal Hu0 Hrd Hdt. destruct (start_run s Hc Hh (proj2 Htop)) as (m1 & d & E1 & E2 & [[fl Hd] Hhp Hn Hb0 Hba (Eu0 & Eu1 & Hend)]).
  fold m in Eu0, Eu1, Hend. pose proof (dw_mem _ _ _ _ Hd) as Hwf. pose proof (wf_end _ _ Hwf) as He.
  assert (Hnp : 0 < num_pages_exp (d_mem d)).
  { apply Z.nle_gt. intros Hle. assert (num_pages_exp (d_mem d) = 0) as E by lia. rewrite E, PAGE_SIZE_eq in He. change (2 ^ 0) with 1 in He. lia. }
  assert (Hrun : wp (reserve_mem_regions f) (λ _ m3, ∃ l', boot_st (d_mem d) m3 l' ∧ boot_regions f (d_mem d) ⊆ l') (d_mem d)).
  { apply reserve_run; [by exists fl|done|lia|by eapply multi_wide|by eapply multi_wide| |].
    - rewrite Eu0, Hba. destruct Hu0; [by left|right; by eapply multi_wide].
    - apply top_wide; [done|done|lia|by rewrite Eu1]. }
  apply wp_run in Hrun as ([] & m3 & E3 & l' & [[fl3 Hwf3] Em3 Hu3] & Hl).
  pose proof (pow2_le (num_pages_exp (d_mem d)) 20 ltac:(lia)). pose proof (pow2_pos (num_pages_exp (d_mem d)) ltac:(lia)).
  destruct (page_ref_init_wf (mk_pmem m3 (b_pages s)) fl3) as (q & E4 & Hq & Hz & Eq & Hho); cbn [p_mem] in *.
  { exact Hwf3. } { rewrite Em3. split; cbn [heap_ptr set_bs]; lia. } { rewrite Em3. cbn [num_pages_exp set_bs]. lia. } { rewrite Em3. cbn [num_pages_exp heap_ptr set_bs]. lia. }
  exists (mk_bootm (set_dmem (p_mem q) d) (usr_pages q)), fl3.
  assert (Erun : memory_setup f s = Ok (tt, mk_bootm (set_dmem (p_mem q) d) (usr_pages q))).
  { unfold memory_setup. erewrite bind_Ok by exact (zoom_Ok b_mem set_bmem _ s _ _ E1). erewrite bind_Ok by exact (zoom_Ok b_dyn _ _ (set_bmem m1 s) _ _ E2).
    erewrite bind_Ok by exact (zoom_Ok b_mem set_bmem _ (mk_bootm d (b_pages s)) _ _ E3). exact (zoom_Ok b_pmem _ _ (mk_bootm (set_dmem m3 d) (b_pages s)) _ _ E4). }
  assert (Hn3 : num_pages_exp (p_mem q) = num_pages_exp (d_mem d) ∧ bs (p_mem q) = bs m3) by (rewrite Eq, Em3; done). destruct Hn3 as [Hn3 Hbs3].
  split; [exact Erun|]. cbn [b_dyn b_mem b_pages b_pmem d_mem set_dmem].
  assert (Hwfq : buddy_wf (p_mem q) fl3) by (rewrite Eq; by apply buddy_wf_heap).
  split; [by eapply dyn_wf_fresh|]. split; [by destruct q|]. split; [done|].
  assert (Hlq : boot_regions f (p_mem q) = boot_regions f (d_mem d)) by (rewrite Eq, Em3; done).
  rewrite Hlq, Hn3. split; [intros i Hi; apply Hz; by rewrite Em3|].
  assert (Hused : ∀ r j, r ∈ boot_regions f (d_mem d) → in_region r j → pstat (num_pages_exp (d_mem d)) (arr (bs (p_mem q))) j Used).
  { intros r j Hr Hj. rewrite Hbs3. apply (Hu3 r); [by apply Hl|done]. }
  split; [exact Hused|]. intros req Hreq. apply malloc_avoids; [by exists fl3|done|by rewrite Hn3| |].
  - apply boot_regions_nonempty; [apply Hrd|apply Hdt| |].
    + rewrite Eu0, Hba. destruct Hu0 as [|[? _]]; [by left|right; simpl in *; lia].
    + rewrite Eu1. lia.
  - unfold boot_regions. rewrite PAGE_SIZE_eq. by left.
Qed.

(** A board with 948 MB of memory: page 0x81 of the kernel is taken. *)
Lemma memory_setup_correct_witness :
  let f := mk_found (v_kernel_space + 0x8000000) (v_kernel_space + 0x8001234) (v_kernel_space + 0x8200000) 0x8000 in
  ∃ s', memory_setup f (mk_bootm (mk_dmem (boot_mem 0x3b400000) ∅ ∅) ∅) = Ok (tt, s') ∧ dyn_inv (b_dyn s') ∧
    pstat (num_pages_exp (b_mem s')) (arr (bs (b_mem s'))) 0x81 Used.
Proof.
  intros f. destruct (memory_setup_correct f (mk_bootm (mk_dmem (boot_mem 0x3b400000) ∅ ∅) ∅)) as (s' & fl & E & Hd & _ & _ & _ & Hu & _).
  - exact boot_cpu_ok.
  - reflexivity.
  - split; vm_compute; discriminate.
  - exists 121344. reflexivity.
  - left. reflexivity.
  - split_and!; vm_compute; (discriminate || reflexivity).
  - split_and!; vm_compute; (discriminate || reflexivity).
  - exists s'. split; [exact E|]. split; [by eexists _, _, _|]. apply (Hu (0x80000, 0x100000)); [right; left|split; vm_compute; reflexivity].
Defined.
