(* ===== verification/KList.v ===== *)
(** * The kernel's linked list (src/kernel/list.c, include/kernel/list.h)

    Lists of untyped pointers used for run queues, wait queues, file systems
    and memory regions.  All nodes live in one store, all list heads in
    another, so two lists can be told apart and a stale node is visible.
    The allocator enters through the class [NodeAlloc]: all that the list
    needs of [calloc] is an address that holds no node. *)

From S2P Require Import Prelude Cpu Dll.

(** What the list relies on: allocation returns an unused, non-NULL address. *)
Class NodeAlloc := {
  fresh_addr : gset Z → Z;
  fresh_addr_new X : fresh_addr X ∉ X;
  fresh_addr_nonnull X : fresh_addr X ≠ 0;
}.

(** The simplest allocator with that promise: one above the largest address. *)
Definition above (X : gset Z) : Z := 1 + foldr (λ x m, Z.max (Z.abs x) m) 0 (elements X).

Lemma above_le l (x : Z) : x ∈ l → Z.abs x ≤ foldr (λ x m, Z.max (Z.abs x) m) 0 l.
Proof. induction l as [|y l IH]; [set_solver|]. intros [->|?%IH]%elem_of_cons; simpl; lia. Qed.
Lemma above_pos l : 0 ≤ foldr (λ x m, Z.max (Z.abs x) m) 0 l.
Proof. induction l; simpl; lia. Qed.

Definition above_alloc : NodeAlloc.
Proof.
  refine {| fresh_addr := above |}; intros X; unfold above; pose proof (above_pos (elements X)); [|lia].
  intros HX%elem_of_elements%above_le. lia.
Defined.

Record node := mk_node { n_ptr : Z; n_prev : option Z; n_next : option Z }.

#[export] Instance node_DNode : DNode node.
Proof.
  refine {| dprev := n_prev; dnext := n_next;
            set_dprev p n := mk_node (n_ptr n) p (n_next n);
            set_dnext p n := mk_node (n_ptr n) (n_prev n) p |}; done.
Defined.

Record klist := mk_klist { l_head : option Z; l_tail : option Z }.

Section State.
Context {X : Type}.

(** [ext] is the state that the callbacks of [list_rm_and_process] change. *)
Record kst := mk_kst {
  k_cpu : cpu;
  nodes : gmap Z node;
  lists : gmap Z klist;
  ext : X;
}.

Definition set_kcpu (c : cpu) (s : kst) : kst := mk_kst c (nodes s) (lists s) (ext s).
Definition set_knodes (m : gmap Z node) (s : kst) : kst := mk_kst (k_cpu s) m (lists s) (ext s).
Definition set_klists (m : gmap Z klist) (s : kst) : kst := mk_kst (k_cpu s) (nodes s) m (ext s).
Definition set_ext (x : X) (s : kst) : kst := mk_kst (k_cpu s) (nodes s) (lists s) x.

Definition k_on_cpu {A} (m : M cpu A) : M kst A := zoom k_cpu set_kcpu m.
Definition k_on_ext {A} (m : M X A) : M kst A := zoom ext set_ext m.

Definition list_get (l : Z) : M kst klist := s ← get_st; deref (lists s !! l).
Definition list_upd (l : Z) (f : klist → klist) : M kst unit :=
  _ ← list_get l; modify (λ s, set_klists (alter f l (lists s)) s).
Definition knode_get (a : Z) : M kst node := s ← get_st; deref (nodes s !! a).
Definition knode_upd (a : Z) (f : node → node) : M kst unit :=
  _ ← knode_get a; modify (λ s, set_knodes (alter f a (nodes s)) s).
Definition knode_free (a : Z) : M kst unit :=
  _ ← knode_get a; modify (λ s, set_knodes (delete a (nodes s)) s).

Definition set_lhead (h : option Z) (l : klist) : klist := mk_klist h (l_tail l).
Definition set_ltail (t : option Z) (l : klist) : klist := mk_klist (l_head l) t.

(** ** list.h *)

Definition list_empty (l : Z) : M kst bool :=
  x ← list_get l; mret (bool_decide (l_head x = None)).

Definition list_top (l : Z) : M kst Z :=
  x ← list_get l;
  match l_head x with
  | Some a => n ← knode_get a; mret (n_ptr n)
  | None => mret 0
  end.

(** ** list.c *)

Section Push.
Context `{!NodeAlloc}.

(** [calloc(1, sizeof(struct node))] *)
Definition knode_new : M kst Z :=
  s ← get_st;
  let a := fresh_addr (dom (nodes s)) in
  modify (set_knodes (<[a := mk_node 0 None None]> (nodes s))) ;;
  mret a.

Definition list_push (l ptr : Z) : M kst unit :=
  k_on_cpu disable_int ;;
  tmp ← knode_new;
  knode_upd tmp (λ n, mk_node ptr (n_prev n) (n_next n)) ;;
  x ← list_get l;
  match l_tail x with
  | Some t => knode_upd t (set_dnext (Some tmp)) ;; knode_upd tmp (set_dprev (Some t))
  | None => list_upd l (set_lhead (Some tmp))
  end ;;
  list_upd l (set_ltail (Some tmp)) ;;
  k_on_cpu enable_int.
End Push.

Definition list_pop (l : Z) : M kst Z :=
  k_on_cpu disable_int ;;
  x ← list_get l;
  e ← list_empty l;
  ret ← (if (e : bool) then mret 0 else
    head ← deref (l_head x);
    n ← knode_get head;
    let ret := n_ptr n in
    list_upd l (set_lhead (n_next n)) ;;
    match n_next n with
    | Some h => knode_upd h (set_dprev None)
    | None => list_upd l (set_ltail None)
    end ;;
    knode_free head ;;
    mret ret);
  k_on_cpu enable_int ;;
  mret ret.

(** The unlinking of [tmp] that [list_delete] and [list_rm_and_process] share. *)
Definition list_unlink (l tmp : Z) : M kst unit :=
  n ← knode_get tmp;
  match n_prev n with
  | Some p => knode_upd p (set_dnext (n_next n))
  | None => list_upd l (set_lhead (n_next n))
  end ;;
  n ← knode_get tmp;
  match n_next n with
  | Some q => knode_upd q (set_dprev (n_prev n))
  | None => list_upd l (set_ltail (n_prev n))
  end.

Fixpoint list_delete_loop (fuel : nat) (l : Z) (tmp : option Z) (ptr : Z) : M kst Z :=
  match tmp with
  | None => mret 0
  | Some a =>
      match fuel with
      | O => spin
      | S fuel' =>
          n ← knode_get a;
          if n_ptr n =? ptr then
            list_unlink l a ;;
            n ← knode_get a;
            let ret := n_ptr n in
            knode_free a ;;
            mret ret
          else list_delete_loop fuel' l (n_next n) ptr
      end
  end.

(** [fuel] bounds the length of the list. *)
Definition list_delete (fuel : nat) (l ptr : Z) : M kst Z :=
  k_on_cpu disable_int ;;
  x ← list_get l;
  ret ← list_delete_loop fuel l (l_head x) ptr;
  k_on_cpu enable_int ;;
  (if ret =? 0 then k_on_cpu (err ("Node not found" +:+ crlf)) else mret tt) ;;
  mret ret.

Fixpoint list_find_loop (fuel : nat) (tmp : option Z) (match_ : Z → bool) : M kst Z :=
  match tmp with
  | None => mret 0
  | Some a =>
      match fuel with
      | O => spin
      | S fuel' =>
          n ← knode_get a;
          if match_ (n_ptr n) then mret (n_ptr n) else list_find_loop fuel' (n_next n) match_
      end
  end.

Definition list_find (fuel : nat) (l : Z) (match_ : Z → bool) : M kst Z :=
  k_on_cpu disable_int ;;
  x ← list_get l;
  ret ← list_find_loop fuel (l_head x) match_;
  k_on_cpu enable_int ;;
  mret ret.

Fixpoint list_rm_loop (fuel : nat) (l : Z) (tmp : option Z) (match_ : Z → bool) (op : Z → M X unit) : M kst unit :=
  match tmp with
  | None => mret tt
  | Some a =>
      match fuel with
      | O => spin
      | S fuel' =>
          n ← knode_get a;
          let next := n_next n in
          (if match_ (n_ptr n) then
             k_on_ext (op (n_ptr n)) ;; list_unlink l a ;; knode_free a
           else mret tt) ;;
          list_rm_loop fuel' l next match_ op
      end
  end.

Definition list_rm_and_process (fuel : nat) (l : Z) (match_ : Z → bool) (op : Z → M X unit) : M kst unit :=
  k_on_cpu disable_int ;;
  x ← list_get l;
  list_rm_loop fuel l (l_head x) match_ op ;;
  k_on_cpu enable_int.

Section Copy.
Context `{!NodeAlloc}.

Fixpoint list_copy_loop (fuel : nat) (dst : Z) (tmp : option Z) : M kst unit :=
  match tmp with
  | None => mret tt
  | Some a =>
      match fuel with
      | O => spin
      | S fuel' =>
          n ← knode_get a;
          list_push dst (n_ptr n) ;;
          n ← knode_get a;
          list_copy_loop fuel' dst (n_next n)
      end
  end.

Definition list_copy (fuel : nat) (dst src : Z) : M kst unit :=
  k_on_cpu disable_int ;;
  x ← list_get src;
  list_copy_loop fuel dst (l_head x) ;;
  k_on_cpu enable_int.
End Copy.

End State.
Arguments kst : clear implicits.
