(* ===== verification/KListThm.v ===== *)
(** * The linked list refines sequences of pointers

    Abstractly every list head [l] stands for the sequence of pointers that
    were pushed on it.  [kwf s ids] ties the stores to the sequences of node
    addresses: each list is doubly linked with correct head and tail, no node
    belongs to two lists, and every node of the store belongs to a list, so
    no operation leaks or shares a node.  [content] reads the pointers. *)

From S2P Require Import Prelude Cpu Dll KList.

Section Rep.
Context {X : Type}.
Implicit Types (s : kst X) (ids : gmap Z (list Z)).

Record kwf s ids : Prop := mk_kwf {
  kw_cpu : cpu_ok (k_cpu s);
  kw_dom l : is_Some (lists s !! l) ↔ is_Some (ids !! l);
  kw_list l xs : ids !! l = Some xs →
    ∃ x, lists s !! l = Some x ∧ dlist (nodes s) (l_head x) (l_tail x) xs ∧ NoDup xs;
  kw_disj l l' xs ys a : ids !! l = Some xs → ids !! l' = Some ys → a ∈ xs → a ∈ ys → l = l';
  kw_nodes a : is_Some (nodes s !! a) ↔ ∃ l xs, ids !! l = Some xs ∧ a ∈ xs;
}.

Definition ptr_of (m : gmap Z node) (a : Z) : Z := default 0 (n_ptr <$> m !! a).
Definition ptrs (m : gmap Z node) (xs : list Z) : list Z := ptr_of m <$> xs.
Definition content s ids : gmap Z (list Z) := ptrs (nodes s) <$> ids.

Lemma ptrs_ext m m' xs : (∀ a, a ∈ xs → ptr_of m' a = ptr_of m a) → ptrs m' xs = ptrs m xs.
Proof.
  intros H. unfold ptrs. apply list_fmap_ext. intros i a Ha. apply H. by eapply list_elem_of_lookup_2.
Qed.

(** Replacing the nodes of one list. *)
Section Update.
Context (s : kst X) (ids : gmap Z (list Z)) (l : Z) (xs xs' : list Z) (m' : gmap Z node) (x' : klist).
Hypothesis Hwf : kwf s ids.
Hypothesis Hl : ids !! l = Some xs.
Hypothesis Hd : dlist m' (l_head x') (l_tail x') xs'.
Hypothesis Hnd : NoDup xs'.
Hypothesis Hframe : ∀ a, a ∉ xs → a ∉ xs' → m' !! a = nodes s !! a.
Hypothesis Hnew : ∀ a, a ∈ xs' → a ∈ xs ∨ nodes s !! a = None.
Hypothesis Hgone : ∀ a, a ∈ xs → a ∉ xs' → m' !! a = None.

Definition updated : kst X := set_klists (<[l := x']> (lists s)) (set_knodes m' s).

Lemma other_frame l' ys a : l' ≠ l → ids !! l' = Some ys → a ∈ ys → m' !! a = nodes s !! a.
Proof.
  intros Hne Hys Ha.
  assert (a ∉ xs) as Hax by (intros Hax; by destruct (kw_disj _ _ Hwf l' l ys xs a)).
  apply Hframe; [done|]. intros [?|Hn]%Hnew; [done|].
  assert (is_Some (nodes s !! a)) as [? E] by (apply (kw_nodes _ _ Hwf); eauto). congruence.
Qed.

Lemma kwf_update : kwf updated (<[l := xs']> ids).
Proof.
  pose proof Hwf as [H1 H2 H3 H4 H5]. split; simpl; [done| | | |].
  - intros k. rewrite !lookup_insert_is_Some', H2. naive_solver.
  - intros k ys Hys. destruct (decide (k = l)) as [->|Hne].
    + rewrite lookup_insert_eq in Hys. injection Hys as <-. exists x'. by rewrite lookup_insert_eq.
    + rewrite lookup_insert_ne in Hys by done. destruct (H3 k ys Hys) as (x & ? & Hx & ?).
      exists x. rewrite lookup_insert_ne by done. split_and!; [done| |done]. eapply dseg_frame; [|exact Hx].
      intros a Ha. by eapply other_frame.
  - assert (Hdis : ∀ k ys a, k ≠ l → ids !! k = Some ys → a ∈ ys → a ∉ xs').
    { intros k ys a Hne Hys Ha [?|Hn]%Hnew; [by destruct (H4 k l ys xs a)|].
      assert (is_Some (nodes s !! a)) as [? E] by (apply H5; eauto). congruence. }
    intros k k' ys zs a Hys Hzs Ha Ha'.
    rewrite lookup_insert in Hys, Hzs. repeat case_decide; subst; simplify_eq; [done| | |].
    + exfalso. by apply (Hdis k ys a); [congruence|..].
    + exfalso. by apply (Hdis k' zs a); [congruence|..].
    + by eapply H4.
  - intros a. split.
    + intros Ha. destruct (decide (a ∈ xs')) as [?|Ha']; [exists l, xs'; by rewrite lookup_insert_eq|].
      destruct (decide (a ∈ xs)) as [?|Hax]; [rewrite Hgone in Ha by done; by destruct Ha|].
      rewrite Hframe in Ha by done. apply H5 in Ha as (k & ys & Hys & Ha).
      exists k, ys. split; [|done]. rewrite lookup_insert_ne; [done|]. intros <-. congruence.
    + intros (k & ys & Hys & Ha). destruct (decide (k = l)) as [->|Hne].
      * rewrite lookup_insert_eq in Hys. simplify_eq. by eapply dseg_lookup.
      * rewrite lookup_insert_ne in Hys by done. rewrite (other_frame k ys) by done. apply H5. eauto.
Qed.

Lemma content_update : content updated (<[l := xs']> ids) = <[l := ptrs m' xs']> (content s ids).
Proof.
  unfold content. simpl. rewrite fmap_insert. apply map_eq. intros k.
  destruct (decide (k = l)) as [->|Hne]; [by rewrite !lookup_insert_eq|].
  rewrite !lookup_insert_ne, !lookup_fmap by done. destruct (ids !! k) as [ys|] eqn:E; [|done]. simpl. f_equal.
  apply ptrs_ext. intros a Ha. unfold ptr_of. by rewrite (other_frame k ys).
Qed.
End Update.

(** ** Primitives *)

Lemma wp_list_get l x (Q : klist → kst X → Prop) s : lists s !! l = Some x → Q x s → wp (list_get l) Q s.
Proof. intros H ?. unfold list_get. wp_steps. by apply (wp_deref _ x). Qed.
Lemma wp_list_upd l f x (Q : unit → kst X → Prop) s :
  lists s !! l = Some x → Q tt (set_klists (alter f l (lists s)) s) → wp (list_upd l f) Q s.
Proof. intros H ?. unfold list_upd. wp_step. apply (wp_list_get _ x); [done|]. by wp_steps. Qed.
Lemma wp_knode_get a n (Q : node → kst X → Prop) s : nodes s !! a = Some n → Q n s → wp (knode_get a) Q s.
Proof. intros H ?. unfold knode_get. wp_steps. by apply (wp_deref _ n). Qed.
Lemma wp_knode_upd a f (Q : unit → kst X → Prop) s :
  is_Some (nodes s !! a) → Q tt (set_knodes (alter f a (nodes s)) s) → wp (knode_upd a f) Q s.
Proof. intros [n H] ?. unfold knode_upd. wp_step. apply (wp_knode_get _ n); [done|]. by wp_steps. Qed.
Lemma wp_knode_free a (Q : unit → kst X → Prop) s :
  is_Some (nodes s !! a) → Q tt (set_knodes (delete a (nodes s)) s) → wp (knode_free a) Q s.
Proof. intros [n H] ?. unfold knode_free. wp_step. apply (wp_knode_get _ n); [done|]. by wp_steps. Qed.

Definition k_entered s : kst X := set_kcpu (enter (k_cpu s)) s.
Lemma wp_k_disable (Q : unit → kst X → Prop) s : Q tt (k_entered s) → wp (k_on_cpu disable_int) Q s.
Proof. done. Qed.
Lemma wp_k_enable (Q : unit → kst X → Prop) s : Q tt (set_kcpu (leave (k_cpu s)) s) → wp (k_on_cpu enable_int) Q s.
Proof. done. Qed.

Lemma k_entered_wf s ids : kwf s ids → kwf (k_entered s) ids.
Proof. intros [H1 H2 H3 H4 H5]. split; [by apply enter_ok|done..]. Qed.

(** ** Unlinking a node *)

Lemma ptr_of_alter m a f b : (∀ n, n_ptr (f n) = n_ptr n) → ptr_of (alter f a m) b = ptr_of m b.
Proof.
  intros Hf. unfold ptr_of. destruct (decide (a = b)) as [->|]; [|by rewrite lookup_alter_ne].
  rewrite lookup_alter_eq. destruct (m !! b); simpl; [by rewrite Hf|done].
Qed.
Lemma ptr_of_link_next m p v b : ptr_of (link_next p v m) b = ptr_of m b.
Proof. destruct p; simpl; [by apply ptr_of_alter|done]. Qed.
Lemma ptr_of_link_prev m p v b : ptr_of (link_prev p v m) b = ptr_of m b.
Proof. destruct p; simpl; [by apply ptr_of_alter|done]. Qed.
Lemma ptr_of_delete m a b : a ≠ b → ptr_of (delete a m) b = ptr_of m b.
Proof. intros. unfold ptr_of. by rewrite lookup_delete_ne. Qed.

(** The stores after [list_unlink l a] followed by [free]. *)
Definition unlinked s l l1 a l2 : kst X :=
  match nodes s !! a, lists s !! l with
  | Some n, Some x =>
      updated s l (delete a (link_prev (head l2) (dprev n) (link_next (last l1) (dnext n) (nodes s))))
        (mk_klist (if l1 is [] then dnext n else l_head x) (if l2 is [] then dprev n else l_tail x))
  | _, _ => s
  end.

Section Unlink.
Context (s : kst X) (ids : gmap Z (list Z)) (l a : Z) (l1 l2 : list Z).
Hypothesis Hwf : kwf s ids.
Hypothesis Hl : ids !! l = Some (l1 ++ a :: l2).

Lemma unlink_node : ∃ x n, lists s !! l = Some x ∧ nodes s !! a = Some n ∧ n_prev n = last l1 ∧ n_next n = head l2 ∧
  dlist (nodes s) (l_head x) (l_tail x) (l1 ++ a :: l2) ∧ NoDup (l1 ++ a :: l2).
Proof.
  destruct (kw_list _ _ Hwf _ _ Hl) as (x & Hx & Hd & Hnd). pose proof Hd as Hd'.
  apply dseg_links in Hd' as (n & Hn & Hp & Hq). exists x, n.
  split_and!; [done..| |by destruct l2|done|done]. etrans; [exact Hp|by destruct (last l1)].
Qed.

Lemma a_notin : (a ∉ l1) ∧ (a ∉ l2) ∧ NoDup (l1 ++ l2) ∧ ∀ b, b ∈ l1 ++ a :: l2 → b ≠ a → b ∈ l1 ++ l2.
Proof.
  destruct unlink_node as (x & n & _ & _ & _ & _ & _ & Hnd). pose proof Hnd as Hnd'.
  rewrite <- Permutation_middle in Hnd'. apply NoDup_cons in Hnd' as [Ha ?]. set_solver.
Qed.

Lemma unlinked_wf :
  kwf (unlinked s l l1 a l2) (<[l := l1 ++ l2]> ids) ∧
  content (unlinked s l l1 a l2) (<[l := l1 ++ l2]> ids) = <[l := ptrs (nodes s) (l1 ++ l2)]> (content s ids) ∧
  (∀ b, b ≠ a → ptr_of (nodes (unlinked s l l1 a l2)) b = ptr_of (nodes s) b).
Proof.
  destruct unlink_node as (x & n & Hx & Hn & Hp & Hq & Hd & Hnd). destruct a_notin as (Ha1 & Ha2 & Hnd' & Hsub).
  unfold unlinked. rewrite Hn, Hx. set (m := link_prev _ _ _). set (x' := mk_klist _ _).
  assert (Hd' : dlist (delete a m) (l_head x') (l_tail x') (l1 ++ l2)).
  { eapply (dseg_frame m); [intros b Hb; apply lookup_delete_ne; set_solver|]. by eapply (dseg_delete (nodes s)). }
  assert (Hfr : ∀ b, b ∉ l1 ++ a :: l2 → m !! b = nodes s !! b).
  { intros b Hb. unfold m. rewrite link_prev_ne, link_next_ne; [done| |].
    - intros ?%last_elem_of. set_solver.
    - intros ?%head_elem_of. set_solver. }
  assert (Hpt : ∀ b, b ≠ a → ptr_of (delete a m) b = ptr_of (nodes s) b).
  { intros b Hb. rewrite ptr_of_delete by done. unfold m. by rewrite ptr_of_link_prev, ptr_of_link_next. }
  assert (Hf : ∀ b, b ∉ l1 ++ a :: l2 → b ∉ l1 ++ l2 → delete a m !! b = nodes s !! b).
  { intros b Hb _. rewrite lookup_delete_ne by set_solver. by apply Hfr. }
  assert (Hg : ∀ b, b ∈ l1 ++ a :: l2 → b ∉ l1 ++ l2 → delete a m !! b = None).
  { intros b Hb Hb'. destruct (decide (b = a)) as [->|]; [apply lookup_delete_eq|]. by destruct Hb'; apply Hsub. }
  split_and!; [|rewrite (content_update s ids l (l1 ++ a :: l2))|done].
  - apply (kwf_update s ids l (l1 ++ a :: l2)); [done..| |done]. set_solver.
  - f_equal. apply ptrs_ext. intros b Hb. apply Hpt. set_solver.
  - done.
  - done.
  - done.
  - set_solver.
Qed.

Lemma wp_unlink (Q : unit → kst X → Prop) :
  (∀ s', nodes s' !! a = nodes s !! a → set_knodes (delete a (nodes s')) s' = unlinked s l l1 a l2 → ext s' = ext s →
     Q tt s') →
  wp (list_unlink l a) Q s.
Proof.
  intros HQ. destruct unlink_node as (x & n & Hx & Hn & Hp & Hq & Hd & Hnd). destruct a_notin as (Ha1 & Ha2 & _).
  assert (Hin : ∀ b, b ∈ l1 ++ a :: l2 → is_Some (nodes s !! b)).
  { intros b Hb. by eapply dseg_lookup. }
  assert (Hlast : last l1 ≠ Some a) by (intros ?%last_elem_of; done).
  assert (Hhead : head l2 ≠ Some a) by (intros ?%head_elem_of; done).
  unfold list_unlink. wp_step. apply (wp_knode_get _ n); [done|]. wp_step.
  set (h' := if l1 is [] then n_next n else l_head x).
  set (s1 := mk_kst (k_cpu s) (link_next (last l1) (n_next n) (nodes s)) (<[l := mk_klist h' (l_tail x)]> (lists s)) (ext s)).
  assert (Hn1 : nodes s1 !! a = Some n) by (simpl; by rewrite link_next_ne).
  assert (Hs1 : ∀ Q' : unit → kst X → Prop, Q' tt s1 → wp (match n_prev n with
      | Some p => knode_upd p (set_dnext (n_next n)) | None => list_upd l (set_lhead (n_next n)) end) Q' s).
  { intros Q' HQ'. rewrite Hp. unfold s1, h' in HQ'. destruct l1 as [|b l1' _] using rev_ind.
    - eapply wp_list_upd; [done|]. simpl in *. by rewrite (alter_as_insert _ _ _ x).
    - rewrite last_snoc in *. apply wp_knode_upd; [apply Hin; set_solver|].
      replace (if l1' ++ [b] is [] then n_next n else l_head x) with (l_head x) in HQ' by by destruct l1'.
      destruct s, x; simpl in *. by rewrite insert_id in HQ'. }
  apply Hs1. wp_step. apply (wp_knode_get _ n); [done|]. rewrite Hq.
  set (t' := if l2 is [] then n_prev n else l_tail x).
  set (s2 := mk_kst (k_cpu s) (link_prev (head l2) (n_prev n) (nodes s1)) (<[l := mk_klist h' t']> (lists s)) (ext s)).
  assert (HQ2 : Q tt s2).
  { apply HQ; [simpl; by rewrite link_prev_ne, link_next_ne| |done].
    unfold unlinked. rewrite Hn, Hx. done. }
  unfold s2, t' in HQ2. destruct l2 as [|b l2']; simpl.
  - eapply wp_list_upd; [simpl; apply lookup_insert_eq|]. simpl.
    by rewrite (alter_as_insert _ _ _ (mk_klist h' (l_tail x))), insert_insert_eq by apply lookup_insert_eq.
  - apply wp_knode_upd; [|done]. simpl. apply link_next_is_Some, Hin. set_solver.
Qed.
End Unlink.

(** ** Pushing *)

Section Push.
Context `{!NodeAlloc}.

(** The stores after [list_push l ptr]. *)
Definition pushed s (l : Z) (x : klist) (xs : list Z) (ptr : Z) : kst X :=
  let a := fresh_addr (dom (nodes s)) in
  updated s l (link_prev (Some a) (l_tail x) (link_next (l_tail x) (Some a) (<[a := mk_node ptr None None]> (nodes s))))
    (mk_klist (if xs is [] then Some a else l_head x) (Some a)).

Lemma fresh_none s : nodes s !! fresh_addr (dom (nodes s)) = None.
Proof. apply not_elem_of_dom, fresh_addr_new. Qed.

Lemma pushed_wf s ids l x xs ptr :
  kwf s ids → ids !! l = Some xs → lists s !! l = Some x →
  let a := fresh_addr (dom (nodes s)) in
  kwf (pushed s l x xs ptr) (<[l := xs ++ [a]]> ids) ∧
  content (pushed s l x xs ptr) (<[l := xs ++ [a]]> ids) = <[l := ptrs (nodes s) xs ++ [ptr]]> (content s ids) ∧
  (∀ b, b ≠ a → ptr_of (nodes (pushed s l x xs ptr)) b = ptr_of (nodes s) b) ∧
  (∀ b, b ∉ xs → b ≠ a → nodes (pushed s l x xs ptr) !! b = nodes s !! b) ∧ a ∉ xs.
Proof.
  intros Hwf Hl Hx a. destruct (kw_list _ _ Hwf l xs Hl) as (x0 & Hx0 & Hd & Hnd). simplify_eq.
  pose proof (fresh_none s) as Ha. fold a in Ha.
  assert (Hax : a ∉ xs). { intros Hin. assert (is_Some (nodes s !! a)) as [? E] by by eapply dseg_lookup. congruence. }
  unfold pushed. fold a. set (m := link_prev _ _ _). set (x' := mk_klist _ _).
  assert (Htail : ∀ t, l_tail x = Some t → t ∈ xs).
  { intros t Ht. pose proof (dseg_last _ _ _ _ _ _ Hd) as E. rewrite Ht in E.
    destruct (last xs) eqn:El; [|done]. simplify_eq. by apply last_elem_of. }
  assert (Hd' : dlist m (l_head x') (l_tail x') (xs ++ [a])).
  { eapply dlist_push_back; [done|done| |apply lookup_insert_eq|done].
    eapply dseg_frame; [|exact Hd]. intros b Hb. apply lookup_insert_ne. by intros <-. }
  assert (Hfr : ∀ b, b ∉ xs → b ≠ a → m !! b = nodes s !! b).
  { intros b Hb Hb'. unfold m. rewrite link_prev_ne, link_next_ne, lookup_insert_ne; [done..| |congruence].
    intros E. by apply Htail in E. }
  assert (Hpt : ∀ b, b ≠ a → ptr_of m b = ptr_of (nodes s) b).
  { intros b Hb. unfold m. rewrite ptr_of_link_prev, ptr_of_link_next. unfold ptr_of. by rewrite lookup_insert_ne. }
  assert (Hnd' : NoDup (xs ++ [a])).
  { apply NoDup_app. split_and!; [done| |apply NoDup_singleton]. intros b Hb ->%list_elem_of_singleton. done. }
  assert (Hnew : ∀ b, b ∈ xs ++ [a] → b ∈ xs ∨ nodes s !! b = None).
  { intros b [?|E%list_elem_of_singleton]%elem_of_app; [by left|right; by subst b]. }
  assert (Hf : ∀ b, b ∉ xs → b ∉ xs ++ [a] → m !! b = nodes s !! b).
  { intros b Hb Hb'. apply Hfr; [done|]. intros ->. apply Hb'. set_solver. }
  split_and!; [apply (kwf_update s ids l xs); done || set_solver| |done|done|done].
  rewrite (content_update s ids l xs); [|done..]. f_equal. unfold ptrs. rewrite fmap_app. f_equal.
  - apply (ptrs_ext (nodes s) m). intros b Hb. apply Hpt. by intros ->.
  - simpl. f_equal. unfold m. rewrite ptr_of_link_prev, ptr_of_link_next. unfold ptr_of. by rewrite lookup_insert_eq.
Qed.

Lemma list_push_run s ids l x xs ptr :
  kwf s ids → ids !! l = Some xs → lists s !! l = Some x → list_push l ptr s = Ok (tt, pushed s l x xs ptr).
Proof.
  intros Hwf Hl Hx. destruct (kw_list _ _ Hwf l xs Hl) as (x0 & Hx0 & Hd & Hnd). simplify_eq.
  pose proof (dseg_last _ _ _ _ _ _ Hd) as Htail. pose proof (fresh_none s) as Ha. set (a := fresh_addr (dom (nodes s))) in *.
  enough (wp (list_push l ptr) (λ _ t, t = pushed s l x xs ptr) s) as ([] & t & -> & ->)%wp_run by done.
  unfold list_push. wp_step. apply wp_k_disable. wp_step. unfold knode_new. wp_step. apply wp_get_st.
  wp_step. apply wp_modify. wp_step. simpl (nodes _). fold a.
  wp_step. apply wp_knode_upd; [simpl; rewrite lookup_insert_eq; eauto|]. simpl (nodes _).
  rewrite (alter_as_insert _ _ a (mk_node 0 None None)), insert_insert_eq by apply lookup_insert_eq.
  wp_step. apply (wp_list_get _ x); [done|].
  assert (Hend : ∀ m h, m = nodes (pushed s l x xs ptr) → h = l_head (mk_klist (if xs is [] then Some a else l_head x) None) →
    wp (list_upd l (set_ltail (Some a)) ;; k_on_cpu enable_int) (λ _ t, t = pushed s l x xs ptr)
      (mk_kst (enter (k_cpu s)) m (<[l := mk_klist h (l_tail x)]> (lists s)) (ext s))).
  { intros m h -> ->. wp_step. eapply wp_list_upd; [simpl; apply lookup_insert_eq|]. apply wp_k_enable. simpl.
    rewrite (alter_as_insert _ _ l _ (lookup_insert_eq _ _ _)), insert_insert_eq, leave_enter by apply Hwf. done. }
  destruct (l_tail x) as [t|] eqn:Et.
  - destruct (last xs) as [z|] eqn:El; [|done]. simplify_eq. apply last_elem_of in El as Hz.
    assert (is_Some (nodes s !! z)) as [nz Hnz] by by eapply dseg_lookup.
    assert (z ≠ a) by congruence.
    wp_step. wp_step. apply wp_knode_upd; [simpl; rewrite lookup_insert_ne by done; eauto|].
    apply wp_knode_upd; [simpl; rewrite lookup_alter_ne, lookup_insert_eq by done; eauto|].
    assert (Hx' : <[l := mk_klist (l_head x) (Some z)]> (lists s) = lists s).
    { apply insert_id. rewrite Hx. destruct x. simpl in *. congruence. }
    unfold set_knodes, k_entered, set_kcpu. cbn [k_cpu nodes lists ext]. rewrite <- Hx' at 1.
    apply Hend; [simpl; by rewrite Et|by destruct xs].
  - destruct (last xs) eqn:El; [done|]. apply last_None in El as ->.
    wp_step. eapply wp_list_upd; [done|]. simpl (lists _).
    unfold set_knodes, set_klists, k_entered, set_kcpu. cbn [k_cpu nodes lists ext].
    rewrite (alter_as_insert _ _ l x) by done. unfold set_lhead. rewrite Et. apply Hend; [|done]. simpl. rewrite Et. simpl.
    rewrite (alter_as_insert _ _ a (mk_node ptr None None)), insert_insert_eq by apply lookup_insert_eq. done.
Qed.
End Push.

(** ** Walking a list *)

Lemma walk_node s ids l pre a rest : kwf s ids → ids !! l = Some (pre ++ a :: rest) →
  ∃ n, nodes s !! a = Some n ∧ n_next n = head rest ∧ n_ptr n = ptr_of (nodes s) a.
Proof.
  intros Hwf Hl. destruct (unlink_node s ids l a pre rest Hwf Hl) as (x & n & _ & Hn & _ & Hq & _).
  exists n. split_and!; [done..|]. unfold ptr_of. by rewrite Hn.
Qed.

Lemma wp_delete_loop l ptr s ids fuel : ∀ rest pre (Q : Z → kst X → Prop),
  kwf s ids → ids !! l = Some (pre ++ rest) → (length rest ≤ fuel)%nat →
  (∀ l1 a l2, rest = l1 ++ a :: l2 → ptr_of (nodes s) a = ptr → (∀ b, b ∈ l1 → ptr_of (nodes s) b ≠ ptr) →
     Q ptr (unlinked s l (pre ++ l1) a l2)) →
  ((∀ b, b ∈ rest → ptr_of (nodes s) b ≠ ptr) → Q 0 s) →
  wp (list_delete_loop fuel l (head rest) ptr) Q s.
Proof.
  induction fuel as [|fuel IH]; intros [|a rest] pre Q Hwf Hl Hf Hyes Hno;
    try (simpl; apply wp_ret, Hno; set_solver); [simpl in Hf; lia|].
  destruct (walk_node s ids l pre a rest Hwf Hl) as (n & Hn & Hnext & Hptr).
  cbn [head list_delete_loop]. wp_step. apply (wp_knode_get _ n); [done|].
  destruct (Z.eqb_spec (n_ptr n) ptr) as [E|E].
  - wp_step. apply (wp_unlink s ids l a pre rest Hwf Hl). intros s' Hs' Hu _. rewrite Hn in Hs'.
    wp_step. apply (wp_knode_get _ n); [done|]. wp_step. apply wp_knode_free; [eauto|]. wp_step.
    rewrite Hu, E. specialize (Hyes [] a rest). rewrite app_nil_r in Hyes. apply Hyes; [done|congruence|set_solver].
  - rewrite Hnext. apply IH with (pre := pre ++ [a]); [done|by rewrite <- app_assoc|simpl in Hf; lia| |].
    + intros l1 b l2 -> Hb Hl1. rewrite <- app_assoc. apply (Hyes (a :: l1)); [done|done|].
      intros c [->|?]%elem_of_cons; [congruence|auto].
    + intros Hall. apply Hno. intros c [->|?]%elem_of_cons; [congruence|auto].
Qed.

Lemma wp_find_loop l s ids match_ fuel : ∀ rest pre (Q : Z → kst X → Prop),
  kwf s ids → ids !! l = Some (pre ++ rest) → (length rest ≤ fuel)%nat →
  Q (default 0 (List.find match_ (ptrs (nodes s) rest))) s →
  wp (list_find_loop fuel (head rest) match_) Q s.
Proof.
  induction fuel as [|fuel IH]; intros [|a rest] pre Q Hwf Hl Hf HQ;
    try (simpl; by apply wp_ret); [simpl in Hf; lia|].
  destruct (walk_node s ids l pre a rest Hwf Hl) as (n & Hn & Hnext & Hptr).
  cbn [head list_find_loop]. wp_step. apply (wp_knode_get _ n); [done|].
  simpl in HQ. rewrite <- Hptr in HQ. destruct (match_ (n_ptr n)) eqn:E; simpl in HQ.
  - by wp_step.
  - rewrite Hnext. by apply IH with (pre := pre ++ [a]); [|rewrite <- app_assoc|simpl in Hf; lia|].
Qed.

Lemma unlinked_cpu s l l1 a l2 : k_cpu (unlinked s l l1 a l2) = k_cpu s ∧ ext (unlinked s l l1 a l2) = ext s.
Proof. unfold unlinked. by destruct (nodes s !! a), (lists s !! l). Qed.

Lemma set_ext_wf s ids x : kwf s ids → kwf (set_ext x s) ids.
Proof. by intros [H1 H2 H3 H4 H5]; split. Qed.

(** What [list_rm_and_process] leaves: the callbacks' state, and the pointers
    that do not match. *)
Definition removed s ids l kept x' s' : Prop :=
  ∃ ids', kwf s' ids' ∧ content s' ids' = <[l := kept]> (content s ids) ∧ ext s' = x' ∧ k_cpu s' = k_cpu s.

Lemma wp_rm_loop l match_ op x' fuel : ∀ rest pre s ids,
  kwf s ids → ids !! l = Some (pre ++ rest) → (length rest ≤ fuel)%nat →
  for_each (List.filter match_ (ptrs (nodes s) rest)) op (ext s) = Ok (tt, x') →
  wp (list_rm_loop fuel l (head rest) match_ op)
    (λ _, removed s ids l (ptrs (nodes s) pre ++ List.filter (λ p, negb (match_ p)) (ptrs (nodes s) rest)) x') s.
Proof.
  induction fuel as [|fuel IH]; intros rest pre s ids Hwf Hl Hf Hop;
    (destruct rest as [|a rest];
      [apply wp_ret; simpl in Hop; injection Hop as <-; exists ids; split_and!; [done| |done..];
       rewrite !app_nil_r in *; rewrite insert_id; [done|]; unfold content; by rewrite lookup_fmap, Hl|]);
    [simpl in Hf; lia|].
  destruct (walk_node s ids l pre a rest Hwf Hl) as (n & Hn & Hnext & Hptr).
  cbn [head list_rm_loop]. wp_step. apply (wp_knode_get _ n); [done|]. wp_step. rewrite Hnext.
  simpl in Hop |- *. rewrite <- Hptr in Hop |- *. destruct (match_ (n_ptr n)); simpl in Hop |- *.
  - unfold mbind, M_bind in Hop. destruct (op (n_ptr n) (ext s)) as [[[] x1]| |] eqn:E; try done.
    wp_step. apply wp_zoom. eapply wp_eq; [exact E|].
    pose proof (set_ext_wf s ids x1 Hwf) as Hwf1. set (s1 := set_ext x1 s) in *.
    wp_step. apply (wp_unlink s1 ids l a pre rest Hwf1 Hl). intros s' Hs' Hu _.
    apply wp_knode_free; [rewrite Hs'; simpl; eauto|]. rewrite Hu.
    destruct (unlinked_wf s1 ids l a pre rest Hwf1 Hl) as (Hwf2 & Hc2 & Hp2).
    destruct (a_notin s1 ids l a pre rest Hwf1 Hl) as (Ha1 & Ha2 & _ & _).
    set (s2 := unlinked s1 l pre a rest) in *. destruct (unlinked_cpu s1 l pre a rest) as [Hcpu2 Hext2].
    fold s2 in Hcpu2, Hext2.
    assert (Hpre : ptrs (nodes s2) pre = ptrs (nodes s) pre) by (apply ptrs_ext; intros b Hb; apply Hp2; by intros ->).
    assert (Hrest : ptrs (nodes s2) rest = ptrs (nodes s) rest) by (apply ptrs_ext; intros b Hb; apply Hp2; by intros ->).
    eapply wp_mono; [apply (IH rest pre s2 (<[l := pre ++ rest]> ids) Hwf2)|].
    + apply lookup_insert_eq.
    + simpl in Hf. lia.
    + by rewrite Hrest, Hext2.
    + intros _ s3 (ids3 & H3 & Hc3 & Hx3 & Hk3). exists ids3. split_and!; [done| |done|by rewrite Hk3, Hcpu2].
      rewrite Hc3, Hc2, insert_insert_eq, Hpre, Hrest. done.
  - wp_step. rewrite cons_middle, app_assoc.
    replace (ptrs (nodes s) pre ++ [n_ptr n]) with (ptrs (nodes s) (pre ++ [a]))
      by (unfold ptrs; rewrite fmap_app; simpl; by rewrite Hptr).
    apply IH; [done|by rewrite <- app_assoc|simpl in Hf; lia|done].
Qed.

Lemma wp_copy_loop `{!NodeAlloc} dst src fuel : ∀ rest pre dxs s ids,
  kwf s ids → dst ≠ src → ids !! src = Some (pre ++ rest) → ids !! dst = Some dxs → (length rest ≤ fuel)%nat →
  wp (list_copy_loop fuel dst (head rest))
    (λ _, removed s ids dst (ptrs (nodes s) dxs ++ ptrs (nodes s) rest) (ext s)) s.
Proof.
  induction fuel as [|fuel IH]; intros rest pre dxs s ids Hwf Hne Hs Hd Hf;
    (destruct rest as [|a rest];
      [apply wp_ret; exists ids; split_and!; [done| |done..];
       rewrite !app_nil_r in *; rewrite insert_id; [done|]; unfold content; by rewrite lookup_fmap, Hd|]);
    [simpl in Hf; lia|].
  destruct (walk_node s ids src pre a rest Hwf Hs) as (n & Hn & Hnext & Hptr).
  cbn [head list_copy_loop]. wp_step. apply (wp_knode_get _ n); [done|]. wp_step.
  destruct (kw_list _ _ Hwf dst dxs Hd) as (x & Hx & _).
  eapply wp_eq; [by apply (list_push_run s ids dst x dxs (n_ptr n))|].
  destruct (pushed_wf s ids dst x dxs (n_ptr n) Hwf Hd Hx) as (Hwf1 & Hc1 & Hp1 & Hf1 & Hb).
  set (s1 := pushed s dst x dxs (n_ptr n)) in *. set (b := fresh_addr (dom (nodes s))) in *.
  assert (Hsrc : ∀ c, c ∈ pre ++ a :: rest → (c ∉ dxs) ∧ c ≠ b).
  { intros c Hc. split; [intros Hc'; destruct Hne; by eapply (kw_disj _ _ Hwf dst src)|]. intros ->.
    assert (is_Some (nodes s !! b)) as [? E] by (apply (kw_nodes _ _ Hwf); eauto).
    unfold b in E. by rewrite fresh_none in E. }
  destruct (Hsrc a ltac:(set_solver)) as [Ha1 Ha2].
  wp_step. apply (wp_knode_get _ n); [by rewrite Hf1|]. rewrite Hnext.
  eapply wp_mono; [apply (IH rest (pre ++ [a]) (dxs ++ [b]) s1 (<[dst := dxs ++ [b]]> ids) Hwf1 Hne)|].
  - rewrite lookup_insert_ne, <- app_assoc by done. done.
  - apply lookup_insert_eq.
  - simpl in Hf. lia.
  - intros _ s2 (ids2 & H2 & Hc2 & Hx2 & Hk2). exists ids2. split_and!; [done| |done|done].
    rewrite Hc2, Hc1, insert_insert_eq. f_equal.
    assert (E1 : ptrs (nodes s1) (dxs ++ [b]) = ptrs (nodes s) dxs ++ [n_ptr n]).
    { apply (f_equal (lookup dst)) in Hc1. unfold content in Hc1. rewrite lookup_fmap, !lookup_insert_eq in Hc1.
      simpl in Hc1. by injection Hc1. }
    rewrite E1, <- app_assoc. change (ptrs (nodes s) (a :: rest)) with ([ptr_of (nodes s) a] ++ ptrs (nodes s) rest).
    rewrite <- Hptr. do 2 f_equal. apply ptrs_ext.
    intros c Hc. destruct (Hsrc c) as [_ Hcb]; [set_solver|]. exact (Hp1 c Hcb).
Qed.
End Rep.

(** ** Theorems *)

(** The stores hold exactly the lists [C], a sequence of pointers per head. *)
Definition lrep {X} (s : kst X) (C : gmap Z (list Z)) : Prop := ∃ ids, kwf s ids ∧ content s ids = C.

Lemma lrep_list {X} (s : kst X) ids l xs : kwf s ids → content s ids !! l = Some xs →
  ∃ as_ x, ids !! l = Some as_ ∧ ptrs (nodes s) as_ = xs ∧ lists s !! l = Some x ∧ l_head x = head as_.
Proof.
  intros Hwf. unfold content. rewrite lookup_fmap. destruct (ids !! l) as [as_|] eqn:E; [|done]. intros [= <-].
  destruct (kw_list _ _ Hwf l as_ E) as (x & Hx & Hd & _). exists as_, x. split_and!; [done..|].
  apply dseg_head in Hd. by destruct as_.
Qed.

Lemma kwf_left {X} (s : kst X) ids c : kwf s ids → cpu_ok c → kwf (set_kcpu c s) ids.
Proof. by intros [H1 H2 H3 H4 H5] ?; split. Qed.

(** Two list heads, one element in the first, for the examples. *)
Definition k_boot : kst unit :=
  mk_kst (mk_cpu 0 false []) ∅ {[ 100 := mk_klist None None; 200 := mk_klist None None ]} tt.

Lemma k_boot_ok : lrep k_boot {[ 100 := []; 200 := [] ]}.
Proof.
  exists {[ 100 := []; 200 := [] ]}. split; [split|]; simpl.
  - done.
  - intros l. by rewrite !lookup_insert_is_Some', !lookup_singleton_is_Some.
  - intros l xs Hl. exists (mk_klist None None).
    apply lookup_insert_Some in Hl as [[<- <-]|[? [<- <-]%lookup_singleton_Some]]; (split; [done|]);
      (split; [done|apply NoDup_nil_2]).
  - intros l l' xs ys a Hl _ Ha. exfalso.
    apply lookup_insert_Some in Hl as [[<- <-]|[? [<- <-]%lookup_singleton_Some]]; set_solver.
  - intros a. split; [by intros [? ?]|]. intros (l & xs & Hl & Ha).
    apply lookup_insert_Some in Hl as [[<- <-]|[? [<- <-]%lookup_singleton_Some]]; set_solver.
  - reflexivity.
Qed.

(** [list_push] appends the pointer to the list, leaves all other lists as
    they are, allocates one node that belongs to no list before, and restores
    the interrupt state. *)
Theorem list_push_correct {X} `{!NodeAlloc} (s : kst X) C l xs ptr :
  lrep s C → C !! l = Some xs →
  ∃ s', list_push l ptr s = Ok (tt, s') ∧ lrep s' (<[l := xs ++ [ptr]]> C) ∧
    k_cpu s' = k_cpu s ∧ ext s' = ext s ∧ size (nodes s') = S (size (nodes s)).
Proof.
  intros (ids & Hwf & <-) Hl. destruct (lrep_list s ids l xs Hwf Hl) as (as_ & x & Has & <- & Hx & _).
  exists (pushed s l x as_ ptr). split; [by apply (list_push_run s ids)|].
  destruct (pushed_wf s ids l x as_ ptr Hwf Has Hx) as (Hwf' & Hc & _).
  split_and!; [eexists; split; [exact Hwf'|exact Hc]|done|done|].
  unfold pushed; simpl. rewrite <- (size_dom (alter _ _ _)), dom_alter_L.
  assert (Hdom : ∀ p v (m : gmap Z node), dom (link_next p v m) = dom m) by (intros [] v m; simpl; [apply dom_alter_L|done]).
  rewrite Hdom, dom_insert_L, size_union, size_singleton, size_dom; [done|].
  pose proof (fresh_addr_new (dom (nodes s))). set_solver.
Qed.

Lemma list_push_correct_witness :
  ∃ s', @list_push unit above_alloc 100 7 k_boot = Ok (tt, s') ∧ lrep s' {[ 100 := [7]; 200 := [] ]}.
Proof.
  destruct (@list_push_correct unit above_alloc k_boot _ 100 [] 7 k_boot_ok) as (s' & E & H & _); [reflexivity|].
  exists s'. split; [exact E|]. eapply eq_ind; [exact H|reflexivity].
Defined.

(** [list_pop] returns the first pointer of the list (NULL if it is
    empty) and removes it; the node is released and every other list and the
    interrupt state are unchanged. *)
Theorem list_pop_correct {X} (s : kst X) C l xs :
  lrep s C → C !! l = Some xs →
  ∃ s', list_pop l s = Ok (default 0 (head xs), s') ∧ lrep s' (<[l := tail xs]> C) ∧
    k_cpu s' = k_cpu s ∧ ext s' = ext s.
Proof.
  intros (ids & Hwf & <-) Hl. destruct (lrep_list s ids l xs Hwf Hl) as (as_ & x & Has & <- & Hx & Hh).
  pose proof (kw_cpu _ _ Hwf) as Hcpu.
  enough (wp (list_pop l) (λ r s', r = default 0 (head (ptrs (nodes s) as_)) ∧
    lrep s' (<[l := tail (ptrs (nodes s) as_)]> (content s ids)) ∧ k_cpu s' = k_cpu s ∧ ext s' = ext s) s)
    as (r & s' & E & -> & ?)%wp_run by eauto.
  unfold list_pop. wp_step. apply wp_k_disable. wp_step. apply (wp_list_get _ x); [done|].
  wp_step. unfold list_empty. wp_step. apply (wp_list_get _ x); [done|]. wp_step. rewrite Hh.
  destruct as_ as [|a rest]; simpl.
  { wp_step. wp_step. wp_step. apply wp_k_enable. wp_step. simpl. rewrite leave_enter by done.
    split_and!; [done| |done|done]. exists ids. split; [by destruct s|]. by rewrite insert_id. }
  pose proof (k_entered_wf s ids Hwf) as Hwf1. set (s1 := k_entered s) in *.
  destruct (unlink_node s1 ids l a [] rest Hwf1 Has) as (x0 & n & Hx0 & Hn & Hp & Hq & _).
  change (lists s1 !! l) with (lists s !! l) in Hx0. simplify_eq.
  destruct (unlinked_wf s1 ids l a [] rest Hwf1 Has) as (Hwf2 & Hc2 & _).
  destruct (unlinked_cpu s1 l [] a rest) as [Hcpu2 Hext2].
  set (s2 := unlinked s1 l [] a rest) in *.
  assert (Hs2 : s2 = updated s1 l (delete a (link_prev (head rest) None (nodes s)))
    (mk_klist (n_next n) (if rest is [] then None else l_tail x))).
  { unfold s2, unlinked. rewrite Hn. change (lists s1 !! l) with (lists s !! l). rewrite Hx.
    change (dprev n) with (n_prev n). by rewrite Hp. }
  assert (Hend : k_cpu s2 = enter (k_cpu s) → wp (_ ← k_on_cpu enable_int; mret (n_ptr n))
    (λ r s', r = ptr_of (nodes s) a ∧ lrep s' (<[l := ptrs (nodes s) rest]> (content s ids)) ∧
       k_cpu s' = k_cpu s ∧ ext s' = ext s) s2).
  { intros Hk. wp_step. apply wp_k_enable. wp_step. simpl. rewrite Hk, leave_enter by done.
    split_and!; [by unfold ptr_of; simpl in Hn; rewrite Hn| |done|done].
    exists (<[l := rest]> ids). split; [by apply kwf_left|exact Hc2]. }
  specialize (Hend Hcpu2). wp_steps. apply (wp_knode_get _ n); [done|].
  wp_step. eapply wp_list_upd; [done|]. wp_step. simpl (lists _). rewrite (alter_as_insert _ _ l x) by done.
  rewrite Hq. rewrite Hs2 in Hend. destruct rest as [|b rest']; simpl in Hend |- *.
  - eapply wp_list_upd; [simpl; apply lookup_insert_eq|]. wp_step. apply wp_knode_free; [simpl; eauto|]. wp_step.
    simpl. rewrite (alter_as_insert _ _ l _ (lookup_insert_eq _ _ _)), insert_insert_eq. by rewrite Hq in Hend.
  - apply wp_knode_upd. { simpl. apply (kw_nodes _ _ Hwf). exists l, (a :: b :: rest'). split; [done|set_solver]. }
    wp_step. apply wp_knode_free.
    { simpl. rewrite lookup_alter_ne; [simpl in Hn; rewrite Hn; eauto|].
      intros ->. destruct (a_notin s1 ids l a [] (a :: rest') Hwf1 Has) as (_ & ? & _). set_solver. }
    wp_step. by rewrite Hq in Hend.
Qed.

Definition k_one : kst unit :=
  match @list_push unit above_alloc 100 7 k_boot with Ok (_, s) => s | _ => k_boot end.

Lemma k_one_ok : lrep k_one {[ 100 := [7]; 200 := [] ]}.
Proof.
  destruct k_boot_ok as (ids & Hwf & Hc).
  destruct (lrep_list k_boot ids 100 [] Hwf) as (as_ & x & Has & Hp & Hx & _); [by rewrite Hc|].
  destruct (@pushed_wf unit above_alloc k_boot ids 100 x as_ 7 Hwf Has Hx) as (Hwf' & Hc' & _).
  unfold k_one. rewrite (@list_push_run unit above_alloc k_boot ids 100 x as_ 7 Hwf Has Hx).
  eexists. split; [exact Hwf'|]. rewrite Hc', Hc, Hp. reflexivity.
Qed.

Lemma list_pop_correct_witness :
  ∃ s', list_pop 100 k_one = Ok (7, s') ∧ lrep s' {[ 100 := []; 200 := [] ]}.
Proof.
  destruct (list_pop_correct k_one _ 100 [7] k_one_ok) as (s' & E & H & _); [reflexivity|].
  exists s'. split; [exact E|]. eapply eq_ind; [exact H|reflexivity].
Defined.

Lemma list_remove_ptrs m l1 a l2 ptr :
  ptr_of m a = ptr → (∀ b, b ∈ l1 → ptr_of m b ≠ ptr) →
  remove_first ptr (ptrs m (l1 ++ a :: l2)) = Some (ptrs m (l1 ++ l2)).
Proof.
  intros Ha Hl1. induction l1 as [|b l1 IH]; simpl.
  - by rewrite decide_True.
  - change (ptrs m (b :: l1 ++ a :: l2)) with (ptr_of m b :: ptrs m (l1 ++ a :: l2)). cbn [remove_first].
    rewrite decide_False by (intros Hb; apply (Hl1 b); [by left|done]).
    rewrite IH; [done|]. intros c Hc. apply Hl1. by right.
Qed.

Lemma list_remove_none m xs ptr : (∀ b, b ∈ xs → ptr_of m b ≠ ptr) → remove_first ptr (ptrs m xs) = None.
Proof.
  induction xs as [|b xs IH]; intros H; [done|].
  change (ptrs m (b :: xs)) with (ptr_of m b :: ptrs m xs). cbn [remove_first]. rewrite decide_False.
  - rewrite IH; [done|]. intros c Hc. apply H. by right.
  - intros Hb. apply (H b); [by left|done].
Qed.

(** [list_delete] removes the first occurrence of the pointer and returns
    it; if the pointer is not in the list it returns NULL, prints an error
    and changes no list.  Other lists and the interrupt state are unchanged. *)
Theorem list_delete_correct {X} (s : kst X) C l xs ptr fuel :
  lrep s C → C !! l = Some xs → (length xs ≤ fuel)%nat → ptr ≠ 0 →
  ∃ s', list_delete fuel l ptr s = Ok (match remove_first ptr xs with Some _ => ptr | None => 0 end, s') ∧
    lrep s' (<[l := default xs (remove_first ptr xs)]> C) ∧ ext s' = ext s ∧
    k_cpu s' = match remove_first ptr xs with Some _ => k_cpu s | None => say_err ("Node not found" +:+ crlf) (k_cpu s) end.
Proof.
  intros (ids & Hwf & <-) Hl Hf Hptr. destruct (lrep_list s ids l xs Hwf Hl) as (as_ & x & Has & <- & Hx & Hh).
  pose proof (kw_cpu _ _ Hwf) as Hcpu. set (ps := ptrs (nodes s) as_) in *.
  enough (wp (list_delete fuel l ptr) (λ r s', r = (match remove_first ptr ps with Some _ => ptr | None => 0 end) ∧
    lrep s' (<[l := default ps (remove_first ptr ps)]> (content s ids)) ∧ ext s' = ext s ∧
    k_cpu s' = match remove_first ptr ps with Some _ => k_cpu s | None => say_err ("Node not found" +:+ crlf) (k_cpu s) end) s)
    as (r & s' & E & -> & ?)%wp_run by eauto.
  unfold list_delete. wp_step. apply wp_k_disable. pose proof (k_entered_wf s ids Hwf) as Hwf1.
  wp_step. apply (wp_list_get _ x); [done|]. wp_step. rewrite Hh.
  apply (wp_delete_loop l ptr (k_entered s) ids fuel as_ []); [done|done| | |].
  - unfold ps, ptrs in Hf. by rewrite length_fmap in Hf.
  - simpl app. intros l1 a l2 -> Ha Hl1. unfold ps. rewrite (list_remove_ptrs _ _ _ _ _ Ha Hl1). simpl default.
    destruct (unlinked_wf (k_entered s) ids l a l1 l2 Hwf1 Has) as (Hwf2 & Hc2 & _).
    destruct (unlinked_cpu (k_entered s) l l1 a l2) as [Hk2 He2].
    wp_step. apply wp_k_enable. rewrite Hk2. simpl (k_cpu _). rewrite leave_enter by done.
    wp_step. destruct (Z.eqb_spec ptr 0); [done|]. wp_step. wp_step.
    split; [done|]. split; [|by split]. eexists. split; [by apply kwf_left|exact Hc2].
  - intros Hno. unfold ps. rewrite list_remove_none by done. simpl default.
    wp_step. apply wp_k_enable. simpl (k_cpu _). rewrite leave_enter by done. wp_step. simpl (0 =? 0). cbn iota.
    apply wp_zoom. eapply wp_eq; [apply err_eq|]. wp_step. split_and!; [done| |done|done].
    exists ids. rewrite insert_id by done. split; [|done]. apply kwf_left; [by apply kwf_left|by apply say_err_ok].
Qed.

Lemma list_delete_correct_witness :
  ∃ s', list_delete 1 100 7 k_one = Ok (7, s') ∧ lrep s' {[ 100 := []; 200 := [] ]}.
Proof.
  destruct (list_delete_correct k_one _ 100 [7] 7 1 k_one_ok) as (s' & E & H & _); [reflexivity|simpl; lia|lia|].
  exists s'. split; [exact E|]. eapply eq_ind; [exact H|reflexivity].
Defined.

(** [list_find] returns the first pointer the predicate accepts, NULL if
    there is none, and changes nothing. *)
Theorem list_find_correct {X} (s : kst X) C l xs match_ fuel :
  lrep s C → C !! l = Some xs → (length xs ≤ fuel)%nat →
  list_find fuel l match_ s = Ok (default 0 (List.find match_ xs), s).
Proof.
  intros (ids & Hwf & <-) Hl Hf. destruct (lrep_list s ids l xs Hwf Hl) as (as_ & x & Has & <- & Hx & Hh).
  enough (wp (list_find fuel l match_) (λ r s', r = default 0 (List.find match_ (ptrs (nodes s) as_)) ∧ s' = s) s)
    as (r & s' & -> & -> & ->)%wp_run by done.
  unfold list_find. wp_step. apply wp_k_disable. pose proof (k_entered_wf s ids Hwf) as Hwf1.
  wp_step. apply (wp_list_get _ x); [done|]. wp_step. rewrite Hh.
  apply (wp_find_loop l (k_entered s) ids match_ fuel as_ []); [done|done| |].
  - unfold ptrs in Hf. by rewrite length_fmap in Hf.
  - wp_step. apply wp_k_enable. wp_step. split; [done|]. simpl. rewrite leave_enter by apply Hwf. by destruct s.
Qed.

Lemma list_find_correct_witness : list_find 1 100 (λ p, 5 <? p) k_one = Ok (7, k_one).
Proof.
  apply (list_find_correct k_one _ 100 [7] (λ p, 5 <? p) 1 k_one_ok); [reflexivity|simpl; lia].
Defined.

(** [list_rm_and_process] runs the operation on the matching pointers in
    list order, removes exactly these, keeps the others in order, and leaves
    every other list and the interrupt state as they were. *)
Theorem list_rm_and_process_correct {X} (s : kst X) C l xs match_ op x' fuel :
  lrep s C → C !! l = Some xs → (length xs ≤ fuel)%nat →
  for_each (List.filter match_ xs) op (ext s) = Ok (tt, x') →
  ∃ s', list_rm_and_process fuel l match_ op s = Ok (tt, s') ∧
    lrep s' (<[l := List.filter (λ p, negb (match_ p)) xs]> C) ∧ ext s' = x' ∧ k_cpu s' = k_cpu s.
Proof.
  intros (ids & Hwf & <-) Hl Hf Hop. destruct (lrep_list s ids l xs Hwf Hl) as (as_ & x & Has & <- & Hx & Hh).
  apply wp_unit. unfold list_rm_and_process. wp_step. apply wp_k_disable.
  pose proof (k_entered_wf s ids Hwf) as Hwf1. wp_step. apply (wp_list_get _ x); [done|]. wp_step. rewrite Hh.
  eapply wp_mono; [apply (wp_rm_loop l match_ op x' fuel as_ [] (k_entered s) ids); [done|done| |done]|].
  - unfold ptrs in Hf. by rewrite length_fmap in Hf.
  - intros _ s1 (ids1 & Hwf2 & Hc2 & Hx2 & Hk2). apply wp_k_enable. rewrite Hk2. simpl (k_cpu _).
    rewrite leave_enter by apply Hwf. split; [|by split]. exists ids1.
    split; [apply kwf_left; [done|apply Hwf]|exact Hc2].
Qed.

Lemma list_rm_and_process_correct_witness :
  ∃ s', list_rm_and_process 1 100 (λ p, 5 <? p) (λ _, mret tt) k_one = Ok (tt, s') ∧
    lrep s' {[ 100 := []; 200 := [] ]}.
Proof.
  destruct (list_rm_and_process_correct k_one _ 100 [7] (λ p, 5 <? p) (λ _, mret tt) tt 1 k_one_ok)
    as (s' & E & H & _); [reflexivity|simpl; lia|reflexivity|].
  exists s'. split; [exact E|]. eapply eq_ind; [exact H|reflexivity].
Defined.

(** [list_copy] of one list onto another appends the source's pointers in
    order to the destination; the source, all other lists and the interrupt
    state are unchanged. *)
Theorem list_copy_correct {X} `{!NodeAlloc} (s : kst X) C dst src xs ys fuel :
  lrep s C → dst ≠ src → C !! dst = Some xs → C !! src = Some ys → (length ys ≤ fuel)%nat →
  ∃ s', list_copy fuel dst src s = Ok (tt, s') ∧ lrep s' (<[dst := xs ++ ys]> C) ∧
    k_cpu s' = k_cpu s ∧ ext s' = ext s.
Proof.
  intros (ids & Hwf & <-) Hne Hd Hs Hf.
  destruct (lrep_list s ids dst xs Hwf Hd) as (das & x & Hdas & <- & _ & _).
  destruct (lrep_list s ids src ys Hwf Hs) as (sas & y & Hsas & <- & Hy & Hh).
  apply wp_unit. unfold list_copy. wp_step. apply wp_k_disable.
  pose proof (k_entered_wf s ids Hwf) as Hwf1. wp_step. apply (wp_list_get _ y); [done|]. wp_step. rewrite Hh.
  eapply wp_mono; [apply (wp_copy_loop dst src fuel sas [] das (k_entered s) ids); [done..|]|].
  - unfold ptrs in Hf. by rewrite length_fmap in Hf.
  - intros _ s1 (ids1 & Hwf2 & Hc2 & Hx2 & Hk2). apply wp_k_enable. rewrite Hk2. simpl (k_cpu _).
    rewrite leave_enter by apply Hwf. split; [|by split]. exists ids1.
    split; [apply kwf_left; [done|apply Hwf]|exact Hc2].
Qed.

Lemma list_copy_correct_witness :
  ∃ s', @list_copy unit above_alloc 1 200 100 k_one = Ok (tt, s') ∧ lrep s' {[ 100 := [7]; 200 := [7] ]}.
Proof.
  destruct (@list_copy_correct unit above_alloc k_one _ 200 100 [] [7] 1 k_one_ok) as (s' & E & H & _);
    [lia|reflexivity|reflexivity|simpl; lia|].
  exists s'. split; [exact E|]. eapply eq_ind; [exact H|reflexivity].
Defined.
