(* ===== verification/RingBuf.v ===== *)
(** * Ring buffers (src/kernel/ring_buf.c, include/kernel/ring_buf.h)

    A buffer of [BUFLEN] cells with a producer and a consumer index, one cell
    kept free to tell full from empty.  The same code serves characters,
    timers and tasks; the element type is a parameter here, the [switch] on
    [buf_type] only selects the C type of the copy.  Waiting on a full or
    empty buffer is the outcome [Spin]: the loop ends only if an interrupt
    handler changes the buffer meanwhile. *)

From S2P Require Import Prelude Cpu.

Definition BUFLEN : Z := 512.

Section Ring.
Context {A : Type}.

Record ring_buf := mk_ring {
  producer_idx : Z;
  consumer_idx : Z;
  rbuf : gmap Z A;
}.

Record rst := mk_rst { r_cpu : cpu; r_buf : ring_buf }.
Definition set_rcpu (c : cpu) (s : rst) : rst := mk_rst c (r_buf s).
Definition set_rbuf (r : ring_buf) (s : rst) : rst := mk_rst (r_cpu s) r.
Definition r_on_cpu {B} (m : M cpu B) : M rst B := zoom r_cpu set_rcpu m.

(** ** Operations *)

Definition ring_buf_init (buf_ptr : gmap Z A) : ring_buf := mk_ring 0 0 buf_ptr.

Definition ring_buf_full (r : ring_buf) : bool :=
  Z.rem (producer_idx r + 1) BUFLEN =? consumer_idx r.

Definition ring_buf_empty (r : ring_buf) : bool := producer_idx r =? consumer_idx r.

Definition ring_buf_num_e (r : ring_buf) : Z :=
  u32 (Z.rem (producer_idx r - consumer_idx r + BUFLEN) BUFLEN).

Definition ring_buf_remain_e (r : ring_buf) : Z :=
  u32 (BUFLEN - 1 - Z.rem (producer_idx r - consumer_idx r + BUFLEN) BUFLEN).

Definition cell_get (i : Z) : M rst A := s ← get_st; deref (rbuf (r_buf s) !! i).
Definition cell_set (i : Z) (x : A) : M rst unit :=
  _ ← cell_get i;
  modify (λ s, set_rbuf (mk_ring (producer_idx (r_buf s)) (consumer_idx (r_buf s))
                           (<[i := x]> (rbuf (r_buf s)))) s).

Definition ring_buf_produce (data : A) : M rst unit :=
  s ← get_st;
  if ring_buf_full (r_buf s) then spin
  else
    r_on_cpu disable_int ;;
    s ← get_st;
    cell_set (producer_idx (r_buf s)) data ;;
    modify (λ s, let r := r_buf s in
      set_rbuf (mk_ring (Z.rem (producer_idx r + 1) BUFLEN) (consumer_idx r) (rbuf r)) s) ;;
    r_on_cpu enable_int.

Definition ring_buf_consume : M rst A :=
  s ← get_st;
  if ring_buf_empty (r_buf s) then spin
  else
    r_on_cpu disable_int ;;
    s ← get_st;
    ret ← cell_get (consumer_idx (r_buf s));
    modify (λ s, let r := r_buf s in
      set_rbuf (mk_ring (producer_idx r) (Z.rem (consumer_idx r + 1) BUFLEN) (rbuf r)) s) ;;
    r_on_cpu enable_int ;;
    mret ret.

(** ** Contents *)

(** The buffer holds the sequence [l], oldest element first. *)
Record rholds (r : ring_buf) (l : list A) : Prop := mk_rholds {
  rh_cons : 0 ≤ consumer_idx r < BUFLEN;
  rh_cells i : 0 ≤ i < BUFLEN → is_Some (rbuf r !! i);
  rh_len : Z.of_nat (length l) ≤ BUFLEN - 1;
  rh_prod : producer_idx r = (consumer_idx r + Z.of_nat (length l)) mod BUFLEN;
  rh_elt i x : l !! i = Some x → rbuf r !! ((consumer_idx r + Z.of_nat i) mod BUFLEN) = Some x;
}.

Lemma ring_mod_inj c i j : 0 ≤ i < BUFLEN → 0 ≤ j < BUFLEN →
  (c + i) mod BUFLEN = (c + j) mod BUFLEN → i = j.
Proof. unfold BUFLEN. intros. Z.div_mod_to_equations. lia. Qed.

Lemma ring_mod_range z : 0 ≤ z mod BUFLEN < BUFLEN.
Proof. apply Z.mod_pos_bound. done. Qed.

Lemma rem_mod_buf z : 0 ≤ z → Z.rem z BUFLEN = z mod BUFLEN.
Proof. intros. by apply Z.rem_mod_nonneg. Qed.

Lemma mod_step z : (z mod BUFLEN + 1) mod BUFLEN = (z + 1) mod BUFLEN.
Proof. by rewrite Zplus_mod_idemp_l. Qed.

Lemma mod_back c i : 0 < i → ((c + i) mod BUFLEN + BUFLEN - 1) mod BUFLEN = (c + (i - 1)) mod BUFLEN.
Proof.
  intros. replace ((c + i) mod BUFLEN + BUFLEN - 1) with ((c + i) mod BUFLEN + (BUFLEN - 1)) by lia.
  rewrite Zplus_mod_idemp_l. replace (c + i + (BUFLEN - 1)) with (c + (i - 1) + 1 * BUFLEN) by lia.
  by rewrite Z.mod_add.
Qed.

Lemma ring_init_holds m : (∀ i, 0 ≤ i < BUFLEN → is_Some (m !! i)) → rholds (ring_buf_init m) [].
Proof. intros Hm. split; simpl; done. Qed.

Section Holds.
Context (r : ring_buf) (l : list A).
Hypothesis Hr : rholds r l.

Lemma holds_diff : Z.rem (producer_idx r - consumer_idx r + BUFLEN) BUFLEN = Z.of_nat (length l).
Proof.
  destruct Hr as [H1 _ H3 H4 _]. rewrite H4. unfold BUFLEN in *.
  rewrite Z.rem_mod_nonneg by (Z.div_mod_to_equations; lia). Z.div_mod_to_equations; lia.
Qed.

Lemma holds_full : ring_buf_full r = bool_decide (Z.of_nat (length l) = BUFLEN - 1).
Proof.
  destruct Hr as [H1 _ H3 H4 _]. unfold ring_buf_full. rewrite H4, rem_mod_buf, mod_step
    by (pose proof (ring_mod_range (consumer_idx r + Z.of_nat (length l))); lia).
  apply eq_true_iff_eq. rewrite bool_decide_eq_true, Z.eqb_eq. unfold BUFLEN in *. Z.div_mod_to_equations. lia.
Qed.

Lemma holds_empty : ring_buf_empty r = bool_decide (l = []).
Proof.
  destruct Hr as [H1 _ H3 H4 _]. unfold ring_buf_empty. rewrite H4.
  apply eq_true_iff_eq. rewrite bool_decide_eq_true, Z.eqb_eq. rewrite <- length_zero_iff_nil.
  unfold BUFLEN in *. Z.div_mod_to_equations. lia.
Qed.

Lemma holds_push x : Z.of_nat (length l) < BUFLEN - 1 →
  rholds (mk_ring (Z.rem (producer_idx r + 1) BUFLEN) (consumer_idx r) (<[producer_idx r := x]> (rbuf r))) (l ++ [x]).
Proof.
  intros Hlen. destruct Hr as [H1 H2 H3 H4 H5]. split; simpl; [done| | | |].
  - intros i Hi. rewrite lookup_insert_is_Some'. right. by apply H2.
  - rewrite length_app. simpl. lia.
  - rewrite H4, rem_mod_buf, mod_step by (pose proof (ring_mod_range (consumer_idx r + Z.of_nat (length l))); lia).
    rewrite length_app. simpl. f_equal. lia.
  - intros i y Hy. rewrite H4. rewrite lookup_app in Hy. destruct (l !! i) as [z|] eqn:E.
    + injection Hy as ->. pose proof (lookup_lt_Some _ _ _ E). rewrite lookup_insert_ne; [by apply H5|].
      intros Heq%ring_mod_inj; unfold BUFLEN in *; lia.
    + apply lookup_ge_None in E. apply list_lookup_singleton_Some in Hy as [Hi <-].
      replace i with (length l) by lia. by rewrite lookup_insert_eq.
Qed.
End Holds.

Lemma holds_head r x l : rholds r (x :: l) → rbuf r !! consumer_idx r = Some x.
Proof.
  intros [H1 _ _ _ H5]. specialize (H5 0%nat x eq_refl). simpl in H5.
  rewrite Z.add_0_r, Z.mod_small in H5 by done. exact H5.
Qed.

Lemma holds_pop r x l : rholds r (x :: l) →
  rholds (mk_ring (producer_idx r) (Z.rem (consumer_idx r + 1) BUFLEN) (rbuf r)) l.
Proof.
  intros [H1 H2 H3 H4 H5]. rewrite rem_mod_buf by lia. split; simpl in *; [|done|lia| |].
  - apply ring_mod_range.
  - rewrite H4. rewrite Zplus_mod_idemp_l. f_equal. lia.
  - intros i y Hy. rewrite Zplus_mod_idemp_l. rewrite <- (H5 (S i) y Hy). do 2 f_equal. lia.
Qed.

(** ** Runs *)

Lemma wp_r_disable (Q : unit → rst → Prop) s : Q tt (set_rcpu (enter (r_cpu s)) s) → wp (r_on_cpu disable_int) Q s.
Proof. done. Qed.
Lemma wp_r_enable (Q : unit → rst → Prop) s : Q tt (set_rcpu (leave (r_cpu s)) s) → wp (r_on_cpu enable_int) Q s.
Proof. done. Qed.
Lemma wp_cell_get i x (Q : A → rst → Prop) s : rbuf (r_buf s) !! i = Some x → Q x s → wp (cell_get i) Q s.
Proof. intros H ?. unfold cell_get. wp_steps. by apply (wp_deref _ x). Qed.
Lemma wp_cell_set i x (Q : unit → rst → Prop) s : is_Some (rbuf (r_buf s) !! i) →
  Q tt (set_rbuf (mk_ring (producer_idx (r_buf s)) (consumer_idx (r_buf s)) (<[i := x]> (rbuf (r_buf s)))) s) →
  wp (cell_set i x) Q s.
Proof. intros [y H] ?. unfold cell_set. wp_step. apply (wp_cell_get _ y); [done|]. by wp_steps. Qed.

Lemma produce_run s l x : cpu_ok (r_cpu s) → rholds (r_buf s) l → Z.of_nat (length l) < BUFLEN - 1 →
  ring_buf_produce x s = Ok (tt, set_rbuf (mk_ring (Z.rem (producer_idx (r_buf s) + 1) BUFLEN) (consumer_idx (r_buf s))
    (<[producer_idx (r_buf s) := x]> (rbuf (r_buf s)))) s).
Proof.
  intros Hc Hr Hlen.
  enough (wp (ring_buf_produce x) (λ _ s', s' = set_rbuf (mk_ring (Z.rem (producer_idx (r_buf s) + 1) BUFLEN)
    (consumer_idx (r_buf s)) (<[producer_idx (r_buf s) := x]> (rbuf (r_buf s)))) s) s) as ([] & s' & -> & ->)%wp_run by done.
  unfold ring_buf_produce. wp_step. apply wp_get_st. rewrite (holds_full _ l Hr), bool_decide_false by lia.
  wp_step. apply wp_r_disable. wp_step. apply wp_get_st. wp_step. apply wp_cell_set.
  { simpl. apply (rh_cells _ _ Hr). rewrite (rh_prod _ _ Hr). apply ring_mod_range. }
  wp_step. apply wp_modify. apply wp_r_enable. unfold set_rcpu, set_rbuf. cbn [r_cpu r_buf]. by rewrite leave_enter.
Qed.

Lemma consume_run s l x : cpu_ok (r_cpu s) → rholds (r_buf s) (x :: l) →
  ring_buf_consume s = Ok (x, set_rbuf (mk_ring (producer_idx (r_buf s)) (Z.rem (consumer_idx (r_buf s) + 1) BUFLEN)
    (rbuf (r_buf s))) s).
Proof.
  intros Hc Hr.
  enough (wp ring_buf_consume (λ y s', y = x ∧ s' = set_rbuf (mk_ring (producer_idx (r_buf s))
    (Z.rem (consumer_idx (r_buf s) + 1) BUFLEN) (rbuf (r_buf s))) s) s) as (y & s' & -> & -> & ->)%wp_run by done.
  unfold ring_buf_consume. wp_step. apply wp_get_st. rewrite (holds_empty _ _ Hr), bool_decide_false by done.
  wp_step. apply wp_r_disable. wp_step. apply wp_get_st. wp_step. eapply wp_cell_get; [by eapply holds_head|].
  wp_step. apply wp_modify. wp_step. apply wp_r_enable. wp_step. split; [done|].
  unfold set_rcpu, set_rbuf. cbn [r_cpu r_buf]. by rewrite leave_enter.
Qed.
End Ring.
Arguments ring_buf : clear implicits.
Arguments rst : clear implicits.
