(* ===== verification/RingBufThm.v ===== *)
(** * Theorems about ring buffers *)

From S2P Require Import Prelude Cpu RingBuf.

Section Thm.
Context {A : Type}.
Implicit Types (s : rst A) (l : list A).

(** Interleavings of complete produce and consume operations, from state [s]
    to the last one, with what was put in and what was taken out. *)
Inductive ring_run : rst A → list A → list A → rst A → Prop :=
  | run_start s : ring_run s [] [] s
  | run_produce s puts takes s1 s2 x :
      ring_run s puts takes s1 → ring_buf_produce x s1 = Ok (tt, s2) →
      ring_run s (puts ++ [x]) takes s2
  | run_consume s puts takes s1 s2 x :
      ring_run s puts takes s1 → ring_buf_consume s1 = Ok (x, s2) →
      ring_run s puts (takes ++ [x]) s2.

(** On a buffer that holds [l], the four queries agree with [l] (number of
    elements, free places, full at 511, empty at 0); [ring_buf_produce]
    appends when there is room and waits when there is none;
    [ring_buf_consume] takes the oldest element and waits on an empty buffer;
    both restore the interrupt state. *)
Theorem ring_buf_correct s l x :
  cpu_ok (r_cpu s) → rholds (r_buf s) l →
  ring_buf_num_e (r_buf s) = Z.of_nat (length l) ∧
  ring_buf_remain_e (r_buf s) = BUFLEN - 1 - Z.of_nat (length l) ∧
  (if decide (Z.of_nat (length l) = BUFLEN - 1) then ring_buf_produce x s = Spin
   else ∃ s', ring_buf_produce x s = Ok (tt, s') ∧ rholds (r_buf s') (l ++ [x]) ∧ r_cpu s' = r_cpu s) ∧
  match l with
  | [] => ring_buf_consume s = Spin
  | y :: l' => ∃ s', ring_buf_consume s = Ok (y, s') ∧ rholds (r_buf s') l' ∧ r_cpu s' = r_cpu s
  end.
Proof.
  intros Hc Hr. pose proof (rh_len _ _ Hr) as Hlen. unfold BUFLEN in Hlen.
  unfold ring_buf_num_e, ring_buf_remain_e. rewrite (holds_diff _ l Hr).
  split; [apply Z.mod_small; lia|]. split; [apply Z.mod_small; unfold BUFLEN; lia|]. split.
  - case_decide as Hfull.
    + unfold ring_buf_produce, mbind, M_bind, get_st. by rewrite (holds_full _ l Hr), bool_decide_true.
    + eexists. split; [apply (produce_run s l x); [done..|unfold BUFLEN in *; lia]|].
      split; [|done]. apply holds_push; [done|unfold BUFLEN in *; lia].
  - destruct l as [|y l'].
    + unfold ring_buf_consume, mbind, M_bind, get_st. by rewrite (holds_empty _ _ Hr), bool_decide_true.
    + eexists. split; [by apply (consume_run s l' y)|]. split; [|done]. by eapply holds_pop.
Qed.

(** First in, first out: over every interleaving of produce and consume
    operations on an empty buffer, the elements taken are exactly the first
    ones put in, in order, and the buffer holds the rest; nothing is lost,
    duplicated or overwritten. *)
Theorem ring_buf_fifo s puts takes s' :
  cpu_ok (r_cpu s) → rholds (r_buf s) [] → ring_run s puts takes s' →
  ∃ l, puts = takes ++ l ∧ rholds (r_buf s') l ∧ r_cpu s' = r_cpu s.
Proof.
  intros Hc Hr Hrun. induction Hrun as [s|s puts takes s1 s2 x H IH E|s puts takes s1 s2 x H IH E].
  - by exists [].
  - destruct IH as (l & -> & Hl & Hk); [done..|].
    destruct (decide (Z.of_nat (length l) = BUFLEN - 1)) as [Hfull|Hfull].
    { unfold ring_buf_produce, mbind, M_bind, get_st in E.
      by rewrite (holds_full _ l Hl), bool_decide_true in E. }
    pose proof (rh_len _ _ Hl). rewrite (produce_run s1 l x) in E; [|by rewrite Hk|done|lia].
    injection E as <-. exists (l ++ [x]). rewrite app_assoc. split; [done|]. split; [|done].
    apply holds_push; [done|lia].
  - destruct IH as (l & -> & Hl & Hk); [done..|]. destruct l as [|y l'].
    { unfold ring_buf_consume, mbind, M_bind, get_st in E.
      by rewrite (holds_empty _ _ Hl), bool_decide_true in E. }
    rewrite (consume_run s1 l' y) in E; [|by rewrite Hk|done]. injection E as <- <-.
    exists l'. rewrite <- app_assoc. split; [done|]. split; [|done]. by eapply holds_pop.
Qed.
End Thm.

Definition ring0 : rst Z :=
  mk_rst (mk_cpu 0 false []) (ring_buf_init (list_to_map ((λ i, (i, 0)) <$> zseq 0 512))).

Lemma ring0_holds : rholds (r_buf ring0) [].
Proof.
  apply ring_init_holds. intros i Hi. apply elem_of_dom. rewrite dom_list_to_map_L, <- list_fmap_compose.
  apply elem_of_list_to_set, list_elem_of_fmap. exists i. split; [done|]. apply elem_of_zseq. unfold BUFLEN in Hi. lia.
Qed.

Lemma ring_buf_correct_witness :
  ∃ s', ring_buf_produce 7 ring0 = Ok (tt, s') ∧ rholds (r_buf s') [7] ∧ ring_buf_consume ring0 = Spin.
Proof.
  destruct (ring_buf_correct ring0 [] 7) as (_ & _ & H & H0); [split; [vm_compute; discriminate|reflexivity]|exact ring0_holds|].
  destruct H as (s' & E & Hr & _). exists s'. split; [exact E|]. split; [exact Hr|exact H0].
Defined.

Lemma ring_buf_fifo_witness : ∃ s' l, ring_run ring0 [7; 8] [7] s' ∧ [7; 8] = [7] ++ l ∧ rholds (r_buf s') l.
Proof.
  assert (Hc : cpu_ok (r_cpu ring0)) by (split; [vm_compute; discriminate|reflexivity]).
  set (s1 := set_rbuf (mk_ring 1 0 (<[0 := 7]> (rbuf (r_buf ring0)))) ring0).
  set (s2 := set_rbuf (mk_ring 2 0 (<[1 := 8]> (rbuf (r_buf s1)))) ring0).
  set (s3 := set_rbuf (mk_ring 2 1 (rbuf (r_buf s2))) ring0).
  assert (Hrun : ring_run ring0 [7; 8] [7] s3).
  { apply (run_consume ring0 [7; 8] [] s2).
    - apply (run_produce ring0 [7] [] s1); [|vm_compute; reflexivity].
      apply (run_produce ring0 [] [] ring0); [constructor|vm_compute; reflexivity].
    - vm_compute; reflexivity. }
  destruct (ring_buf_fifo ring0 [7; 8] [7] s3 Hc ring0_holds Hrun) as (l & E & Hl & _).
  exists s3, l. split; [exact Hrun|]. split; [exact E|exact Hl].
Defined.
