(* ===== verification/TaskQueue.v ===== *)
(** * Timers and deferred interrupt work (src/kernel/interrupt.c)

    [add_timer] keeps the timer queue sorted by deadline, [add_task] keeps
    the queue of deferred handlers sorted by priority or runs a more urgent
    one at once, and [process_task] runs what may preempt the current work.
    The two insertion loops differ only in the comparison and in what happens
    at the head of the queue, so they share [move_forward]. *)

From Stdlib Require Import Sorted.
From S2P Require Import Prelude Cpu RingBuf.

Definition INIT_PRIO : Z := 2147483647.

Record timer_queue_element := mk_timer {
  t_handler : Z;
  cur_ticks : Z;
  duration_ticks : Z;
  t_data : Z;
}.

Record task_queue_element := mk_task {
  k_handler : Z;
  priority : Z;
  k_data : Z;
}.

(** ** The insertion loop *)

Section Move.
Context {A : Type}.

(** From cell [idx], swap the new element towards the consumer as long as
    [less] holds of the one before it; true if the consumer was reached. *)
Fixpoint move_forward (fuel : nat) (less : A → bool) (idx : Z) : M (rst A) bool :=
  match fuel with
  | O => spin
  | S fuel' =>
      s ← get_st;
      let cmp_idx := Z.rem (idx + BUFLEN - 1) BUFLEN in
      if idx =? consumer_idx (r_buf s) then mret true
      else
        y ← cell_get cmp_idx;
        if less y then
          tmp ← cell_get idx;
          y ← cell_get cmp_idx;
          cell_set idx y ;;
          cell_set cmp_idx tmp ;;
          move_forward fuel' less ((if idx =? 0 then idx + BUFLEN else idx) - 1)
        else mret false
  end.

End Move.

(** ** Timers *)

Record tst := mk_tst {
  timer_queue : rst timer_queue_element;
  cntpct : Z;     (* cntpct_el0, the counter *)
  cntp_tval : Z;  (* cntp_tval_el0, the programmed interval *)
  timer_int_on : bool;
}.

Definition set_timer_queue (q : rst timer_queue_element) (s : tst) : tst :=
  mk_tst q (cntpct s) (cntp_tval s) (timer_int_on s).
Definition set_tval (v : Z) (s : tst) : tst := mk_tst (timer_queue s) (cntpct s) v (timer_int_on s).
Definition on_timers {B} (m : M (rst timer_queue_element) B) : M tst B := zoom timer_queue set_timer_queue m.

Definition deadline (e : timer_queue_element) : Z := u64 (cur_ticks e + duration_ticks e).

Definition add_timer (callback duration data : Z) : M tst unit :=
  s ← get_st;
  let idx := producer_idx (r_buf (timer_queue s)) in
  if ring_buf_full (r_buf (timer_queue s)) then spin
  else
    count ← gets cntpct;
    let element := mk_timer callback count duration data in
    on_timers (ring_buf_produce element) ;;
    at_head ← on_timers (move_forward 512 (λ e, u64 (count + duration) <? deadline e) idx);
    if (at_head : bool) then modify (set_tval duration) else mret tt.

(** [process_timer], after the expired timer's own handler has run. *)
Definition process_timer_reprogram : M tst unit :=
  s ← get_st;
  (if negb (ring_buf_empty (r_buf (timer_queue s))) then
     e ← on_timers (cell_get (consumer_idx (r_buf (timer_queue s))));
     count ← gets cntpct;
     modify (set_tval (u64 (cur_ticks e + duration_ticks e - count)))
   else mret tt) ;;
  modify (λ s, mk_tst (timer_queue s) (cntpct s) (cntp_tval s) true).

(** ** Deferred tasks *)

Section Tasks.
Context {X : Type}.

Record tqs := mk_tqs {
  task_queue : rst task_queue_element;
  cur_priority : Z;
  q_ext : X;
}.

Definition set_task_queue (q : rst task_queue_element) (s : tqs) : tqs := mk_tqs q (cur_priority s) (q_ext s).
Definition set_cur_priority (p : Z) (s : tqs) : tqs := mk_tqs (task_queue s) p (q_ext s).
Definition set_qext (x : X) (s : tqs) : tqs := mk_tqs (task_queue s) (cur_priority s) x.
Definition on_tasks {B} (m : M (rst task_queue_element) B) : M tqs B := zoom task_queue set_task_queue m.

(** What the function pointed to by [handler] does when called with [data]. *)
Variable call : Z → Z → M tqs unit.

(** [fuel] bounds the number of tasks run in one call. *)
Fixpoint process_task (fuel : nat) (task : option task_queue_element) : M tqs unit :=
  match fuel with
  | O => spin
  | S fuel' =>
      tmp ← gets cur_priority;
      next ← match task with
             | Some e => mret (Some e)
             | None =>
                 s ← get_st;
                 if ring_buf_empty (r_buf (task_queue s)) then mret None
                 else
                   e ← on_tasks (cell_get (consumer_idx (r_buf (task_queue s))));
                   if cur_priority s <? priority e then mret None
                   else e ← on_tasks ring_buf_consume; mret (Some e)
             end;
      match next with
      | None => mret tt
      | Some element =>
          modify (set_cur_priority (priority element)) ;;
          on_tasks (r_on_cpu enable_int) ;;
          call (k_handler element) (k_data element) ;;
          on_tasks (r_on_cpu disable_int) ;;
          modify (set_cur_priority tmp) ;;
          process_task fuel' None
      end
  end.

Definition add_task (fuel : nat) (callback prio data : Z) : M tqs unit :=
  let element := mk_task callback prio data in
  cur ← gets cur_priority;
  if prio <? cur then process_task fuel (Some element)
  else
    s ← get_st;
    let idx := producer_idx (r_buf (task_queue s)) in
    if ring_buf_full (r_buf (task_queue s)) then spin
    else
      on_tasks (ring_buf_produce element) ;;
      _ ← on_tasks (move_forward 512 (λ e, prio <? priority e) idx);
      mret tt.
End Tasks.
Arguments tqs : clear implicits.

(** ** The insertion loop on sequences *)

Section MoveThm.
Context {A : Type}.
Implicit Types (r : ring_buf A) (l : list A).

(** The sequence is in non-decreasing order of [key]. *)
Definition sorted_by (key : A → Z) l : Prop :=
  ∀ i j x y, (i ≤ j)%nat → l !! i = Some x → l !! j = Some y → key x ≤ key y.

(** Insertion behind all elements whose key is not larger. *)
Fixpoint insert_by (key : A → Z) (x : A) l : list A :=
  match l with
  | [] => [x]
  | y :: l' => if key x <? key y then x :: y :: l' else y :: insert_by key x l'
  end.

Definition swap_cells (i j : Z) (x y : A) r : ring_buf A :=
  mk_ring (producer_idx r) (consumer_idx r) (<[j := x]> (<[i := y]> (rbuf r))).

Lemma holds_cell r l1 x l2 : rholds r (l1 ++ x :: l2) →
  rbuf r !! ((consumer_idx r + Z.of_nat (length l1)) mod BUFLEN) = Some x.
Proof. intros Hr. apply (rh_elt _ _ Hr). by rewrite lookup_app_r, Nat.sub_diag by lia. Qed.

Lemma holds_swap r l1 y x l2 :
  rholds r (l1 ++ y :: x :: l2) →
  let c := consumer_idx r in let n := Z.of_nat (length l1) in
  rholds (swap_cells ((c + (n + 1)) mod BUFLEN) ((c + n) mod BUFLEN) x y r) (l1 ++ x :: y :: l2).
Proof.
  intros [H1 H2 H3 H4 H5] c n. rewrite length_app in *. simpl in *.
  assert (Hne : (c + (n + 1)) mod BUFLEN ≠ (c + n) mod BUFLEN).
  { intros E%ring_mod_inj; unfold BUFLEN, n in *; lia. }
  split; simpl; rewrite ?length_app; simpl; [done| |lia|done|].
  - intros i Hi. rewrite !lookup_insert_is_Some'. auto.
  - intros i z Hz. fold c. destruct (decide (i = length l1)) as [->|Hi].
    { rewrite lookup_app_r, Nat.sub_diag in Hz by lia. injection Hz as <-. apply lookup_insert_eq. }
    destruct (decide (i = S (length l1))) as [->|Hi'].
    { rewrite lookup_app_r in Hz by lia. replace (S (length l1) - length l1)%nat with 1%nat in Hz by lia.
      injection Hz as <-. replace (c + Z.of_nat (S (length l1))) with (c + (n + 1)) by lia.
      rewrite lookup_insert_ne by done. apply lookup_insert_eq. }
    assert (Hlt : (i < length l1 + S (S (length l2)))%nat).
    { apply lookup_lt_Some in Hz. rewrite length_app in Hz. simpl in Hz. lia. }
    rewrite !lookup_insert_ne.
    + apply H5. destruct (decide (i < length l1)%nat).
      * rewrite lookup_app_l in Hz |- * by lia. done.
      * rewrite lookup_app_r in Hz |- * by lia. destruct (i - length l1)%nat as [|[|k]] eqn:E; [lia|lia|done].
    + intros E%ring_mod_inj; unfold BUFLEN, n in *; lia.
    + intros E%ring_mod_inj; unfold BUFLEN, n in *; lia.
Qed.

Lemma wp_move less fuel : ∀ l1 x l2 (s : rst A) (Q : bool → rst A → Prop),
  rholds (r_buf s) (l1 ++ x :: l2) → (length l1 < fuel)%nat →
  (∀ m1 m2 r, l1 = m1 ++ m2 → (∀ y, y ∈ m2 → less y = true) →
     (match last m1 with None => True | Some y => less y = false end) →
     rholds r (m1 ++ x :: m2 ++ l2) → Q (bool_decide (m1 = [])) (set_rbuf r s)) →
  wp (move_forward fuel less ((consumer_idx (r_buf s) + Z.of_nat (length l1)) mod BUFLEN)) Q s.
Proof.
  induction fuel as [|fuel IH]; intros l1 x l2 s Q Hr Hf HQ; [lia|]. cbn [move_forward].
  wp_step. apply wp_get_st. set (c := consumer_idx (r_buf s)) in *.
  pose proof (rh_cons _ _ Hr) as Hc. fold c in Hc. pose proof (rh_len _ _ Hr) as Hlen. rewrite length_app in Hlen. simpl in Hlen.
  destruct l1 as [|y l1 _] using rev_ind.
  { simpl. rewrite Z.add_0_r, Z.mod_small by done. rewrite Z.eqb_refl. wp_step.
    specialize (HQ [] [] (r_buf s)). simpl in HQ. destruct s. apply HQ; set_solver. }
  rewrite length_app in *. simpl length in *. rewrite <- app_assoc in Hr. simpl in Hr.
  pose proof (ring_mod_range (c + Z.of_nat (length l1 + 1))) as Hidx.
  destruct (Z.eqb_spec ((c + Z.of_nat (length l1 + 1)) mod BUFLEN) c) as [E|_].
  { exfalso. rewrite <- (Z.mod_small c BUFLEN) in E at 2 by done.
    rewrite <- (Z.add_0_r c) in E at 2. apply ring_mod_inj in E; unfold BUFLEN in *; lia. }
  rewrite rem_mod_buf, mod_back by (unfold BUFLEN in *; lia).
  replace (Z.of_nat (length l1 + 1) - 1) with (Z.of_nat (length l1)) by lia.
  pose proof (holds_cell _ _ _ _ Hr) as Hy. fold c in Hy.
  assert (Hx : rbuf (r_buf s) !! ((c + Z.of_nat (length l1 + 1)) mod BUFLEN) = Some x).
  { apply (rh_elt _ _ Hr). rewrite lookup_app_r by lia. by replace (length l1 + 1 - length l1)%nat with 1%nat by lia. }
  wp_step. apply (wp_cell_get _ y); [done|]. destruct (less y) eqn:El.
  - wp_step. apply (wp_cell_get _ x); [done|]. wp_step. apply (wp_cell_get _ y); [done|].
    wp_step. apply wp_cell_set; [eauto|]. wp_step. apply wp_cell_set.
    { simpl. rewrite lookup_insert_is_Some'. eauto. }
    pose proof (holds_swap _ _ _ _ _ Hr) as Hr'. cbn zeta in Hr'. fold c in Hr'.
    replace (Z.of_nat (length l1) + 1) with (Z.of_nat (length l1 + 1)) in Hr' by lia.
    set (r' := swap_cells _ _ _ _ _) in Hr'.
    change (set_rbuf _ _) with (set_rbuf r' s).
    replace ((if (c + Z.of_nat (length l1 + 1)) mod BUFLEN =? 0 then (c + Z.of_nat (length l1 + 1)) mod BUFLEN + BUFLEN
      else (c + Z.of_nat (length l1 + 1)) mod BUFLEN) - 1) with ((c + Z.of_nat (length l1)) mod BUFLEN).
    2:{ clear -Hidx. unfold BUFLEN in *. case_match; Z.div_mod_to_equations; lia. }
    apply (IH l1 x (y :: l2) (set_rbuf r' s) Q); [exact Hr'|lia|].
    intros m1 m2 r -> Hm2 Hm1 Hrr. apply (HQ m1 (m2 ++ [y]) r); [by rewrite app_assoc| |done|by rewrite <- app_assoc].
    intros z [?| ->%list_elem_of_singleton]%elem_of_app; auto.
  - wp_step. specialize (HQ (l1 ++ [y]) [] (r_buf s)).
    rewrite bool_decide_false in HQ by (by destruct l1). destruct s. apply HQ; [by rewrite app_nil_r|set_solver| |].
    + by rewrite last_snoc.
    + by rewrite <- app_assoc.
Qed.

Lemma insert_by_split key x m1 m2 :
  (∀ y, y ∈ m1 → key y ≤ key x) → (∀ y, y ∈ m2 → key x < key y) →
  insert_by key x (m1 ++ m2) = m1 ++ x :: m2.
Proof.
  intros H1 H2. induction m1 as [|y m1 IH]; simpl.
  - destruct m2 as [|z m2]; [done|]. simpl. destruct (Z.ltb_spec (key x) (key z)); [done|].
    pose proof (H2 z ltac:(by left)). lia.
  - pose proof (H1 y ltac:(by left)). destruct (Z.ltb_spec (key x) (key y)); [lia|].
    f_equal. apply IH. intros z Hz. apply H1. by right.
Qed.

Lemma sorted_last key m1 m2 x y : sorted_by key (m1 ++ m2) → last m1 = Some y → x ∈ m1 → key x ≤ key y.
Proof.
  intros Hs Hl Hx. apply list_elem_of_lookup in Hx as [i Hi]. rewrite last_lookup in Hl.
  pose proof (lookup_lt_Some _ _ _ Hi). eapply (Hs i (pred (length m1))); [lia| |]; rewrite lookup_app_l by lia; done.
Qed.

Lemma sorted_insert key x l : sorted_by key l → sorted_by key (insert_by key x l).
Proof.
  intros Hs.
  assert (H : ∀ l, sorted_by key l ↔ StronglySorted (λ a b, key a ≤ key b) l).
  { intros k. split.
    - induction k as [|a k IH]; intros Hk; constructor.
      + apply IH. intros i j u v Hij Hu Hv. apply (Hk (S i) (S j)); [lia|done|done].
      + apply Forall_lookup_2. intros i v Hv. apply (Hk 0%nat (S i)); [lia|done|done].
    - intros Hk. induction Hk as [|a k Hk IH Ha]; intros i j u v Hij Hu Hv; [done|].
      destruct i as [|i], j as [|j]; simpl in *; simplify_eq; [done| |lia|].
      + by eapply (Forall_lookup_1 _ _ _ _ Ha).
      + apply (IH i j); [lia|done|done]. }
  apply H. apply H in Hs. induction Hs as [|a k Hk IH Ha]; simpl; [by repeat constructor|].
  destruct (Z.ltb_spec (key x) (key a)) as [Hlt|Hge]; constructor; [by constructor| |done|].
  - constructor; [lia|]. eapply Forall_impl; [exact Ha|]. simpl. intros. lia.
  - clear -Ha Hge. induction k as [|b k IH]; simpl; [by repeat constructor|]. inversion_clear Ha as [|? ? Hb Hk].
    case_match; repeat constructor; auto; lia.
Qed.

Lemma insert_by_perm key x l : insert_by key x l ≡ₚ x :: l.
Proof. induction l as [|y l IH]; simpl; [done|]. case_match; [done|]. rewrite IH. apply Permutation_swap. Qed.
End MoveThm.
