(* ===== verification/TaskQueueThm.v ===== *)
(** * Theorems about timers and deferred tasks

    Sorted insertion at the producer's end; what [add_timer], [add_task] and
    [process_task] do with any sorted queue, whose tasks may queue more. *)

From Stdlib Require Import Sorted.
From S2P Require Import Prelude Cpu RingBuf TaskQueue.

(** Appending at the producer and moving forward is sorted insertion. *)
Lemma insert_run {A} (key : A → Z) less x l (s : rst A) :
  cpu_ok (r_cpu s) → rholds (r_buf s) l → Z.of_nat (length l) < BUFLEN - 1 → sorted_by key l →
  (∀ y, less y = (key x <? key y)) →
  ∃ r, (ring_buf_produce x ;; move_forward 512 less (producer_idx (r_buf s))) s =
         Ok (forallb less l, set_rbuf r s) ∧ rholds r (insert_by key x l).
Proof.
  intros Hc Hr Hlen Hs Hless.
  enough (wp (ring_buf_produce x ;; move_forward 512 less (producer_idx (r_buf s)))
    (λ b s', b = forallb less l ∧ ∃ r, s' = set_rbuf r s ∧ rholds r (insert_by key x l)) s)
    as (b & s' & E & -> & r & -> & Hr')%wp_run by eauto.
  wp_step. eapply wp_eq; [by apply (produce_run s l x)|].
  pose proof (holds_push _ l Hr x Hlen) as Hr1. set (s1 := set_rbuf _ s).
  rewrite (rh_prod _ _ Hr). change (consumer_idx (r_buf s)) with (consumer_idx (r_buf s1)).
  apply (wp_move less 512 l x []); [done|unfold BUFLEN in *; lia|].
  intros m1 m2 r -> Hm2 Hm1 Hrr. rewrite app_nil_r in Hrr. split.
  - destruct (last m1) as [z|] eqn:El.
    + rewrite bool_decide_false by (by intros ->). symmetry. apply not_true_iff_false. rewrite forallb_forall.
      intros H. rewrite (H z) in Hm1; [done|]. apply in_app_iff. left. by apply list_elem_of_In, last_Some_elem_of.
    + apply last_None in El as ->. rewrite bool_decide_true by done. symmetry. apply forallb_forall.
      intros y Hy. apply Hm2. by apply list_elem_of_In.
  - exists r. split; [done|]. rewrite insert_by_split; [done| |].
    + intros y Hy. destruct (last m1) as [z|] eqn:El; [|apply last_None in El as ->; set_solver].
      pose proof (sorted_last key m1 m2 y z Hs El Hy). rewrite Hless in Hm1. apply Z.ltb_ge in Hm1. lia.
    + intros y Hy. specialize (Hm2 y Hy). rewrite Hless in Hm2. by apply Z.ltb_lt.
Qed.

(** The state after [add_timer]: [r] is the new queue. *)
Lemma add_timer_run s l callback duration data :
  cpu_ok (r_cpu (timer_queue s)) → rholds (r_buf (timer_queue s)) l → Z.of_nat (length l) < BUFLEN - 1 →
  sorted_by deadline l →
  let x := mk_timer callback (cntpct s) duration data in
  ∃ r, rholds r (insert_by deadline x l) ∧
    add_timer callback duration data s = Ok (tt, mk_tst (set_rbuf r (timer_queue s)) (cntpct s)
      (if forallb (λ e, deadline x <? deadline e) l then duration else cntp_tval s) (timer_int_on s)).
Proof.
  intros Hc Hr Hlen Hs x.
  destruct (insert_run deadline (λ e, u64 (cntpct s + duration) <? deadline e) x l (timer_queue s)) as (r & E & Hrr);
    [done..|].
  exists r. split; [done|]. apply wp_exact. unfold add_timer. wp_step. apply wp_get_st.
  rewrite (holds_full _ l Hr), bool_decide_false by lia. wp_step. apply wp_gets. cbn zeta. fold x.
  unfold mbind, M_bind in E. wp_step. apply wp_zoom.
  destruct (ring_buf_produce x (timer_queue s)) as [[[] s1]| |] eqn:E1; try done.
  eapply wp_eq; [exact E1|]. wp_step. apply wp_zoom. eapply wp_eq; [exact E|].
  change (λ e, u64 (cntpct s + duration) <? deadline e) with (λ e, deadline x <? deadline e).
  destruct (forallb _ l); by wp_step.
Qed.

(** [add_timer] on a timer queue sorted by deadline that is not full: the
    new timer is inserted behind all timers with the same or an earlier
    deadline, so the queue stays sorted and no timer is lost; the hardware is
    programmed with the duration exactly when the new timer became the first
    one; the interrupt state is kept. *)
Theorem add_timer_correct s l callback duration data :
  cpu_ok (r_cpu (timer_queue s)) → rholds (r_buf (timer_queue s)) l → Z.of_nat (length l) < BUFLEN - 1 →
  sorted_by deadline l →
  let x := mk_timer callback (cntpct s) duration data in
  ∃ s', add_timer callback duration data s = Ok (tt, s') ∧
    rholds (r_buf (timer_queue s')) (insert_by deadline x l) ∧ sorted_by deadline (insert_by deadline x l) ∧
    insert_by deadline x l ≡ₚ x :: l ∧ r_cpu (timer_queue s') = r_cpu (timer_queue s) ∧
    cntp_tval s' = (if forallb (λ e, deadline x <? deadline e) l then duration else cntp_tval s).
Proof.
  intros Hc Hr Hlen Hs x. destruct (add_timer_run s l callback duration data Hc Hr Hlen Hs) as (r & Hrr & E).
  eexists. split; [exact E|]. split_and!; [done|by apply sorted_insert|apply insert_by_perm|done|done].
Qed.

Definition ring_of {A} (x : A) : rst A :=
  mk_rst (mk_cpu 1 true []) (ring_buf_init (list_to_map ((λ i, (i, x)) <$> zseq 0 512))).

Lemma ring_of_holds {A} (x : A) : rholds (r_buf (ring_of x)) [].
Proof.
  apply ring_init_holds. intros i Hi. apply elem_of_dom. rewrite dom_list_to_map_L, <- list_fmap_compose.
  apply elem_of_list_to_set, list_elem_of_fmap. exists i. split; [done|]. apply elem_of_zseq. unfold BUFLEN in Hi. lia.
Qed.

Lemma sorted_nil {A} (key : A → Z) : sorted_by key [].
Proof. intros i j x y _ H. discriminate H. Qed.

Lemma add_timer_correct_witness :
  ∃ s', add_timer 1 50 0 (mk_tst (ring_of (mk_timer 0 0 0 0)) 1000 0 false) = Ok (tt, s') ∧ cntp_tval s' = 50.
Proof.
  destruct (add_timer_correct (mk_tst (ring_of (mk_timer 0 0 0 0)) 1000 0 false) [] 1 50 0)
    as (s' & E & _ & _ & _ & _ & Ht);
    [split; [vm_compute; discriminate|reflexivity]|exact (ring_of_holds _)|vm_compute; reflexivity|apply sorted_nil|].
  exists s'. split; [exact E|exact Ht].
Defined.

(** ** Tasks *)

(** The tasks at the front that may preempt work of priority [cp]. *)
Fixpoint runnable (cp : Z) (l : list task_queue_element) : list task_queue_element :=
  match l with
  | [] => []
  | e :: l' => if cp <? priority e then [] else e :: runnable cp l'
  end.

Lemma cpu_reenter c : cpu_ok c → 0 < irq_nested_count c → enter (leave c) = c.
Proof.
  destruct c as [n m l]. intros [Hn Hm] Hpos; simpl in *. unfold enter, leave; simpl.
  replace (n - 1 + 1) with n by lia. f_equal. rewrite Hm. symmetry. by apply bool_decide_eq_true.
Qed.

Lemma sorted_cons {A} (key : A → Z) x l : sorted_by key (x :: l) ↔ (∀ y, y ∈ l → key x ≤ key y) ∧ sorted_by key l.
Proof.
  split.
  - intros H. split.
    + intros y [i Hi]%list_elem_of_lookup. apply (H 0%nat (S i)); [lia|done|done].
    + intros i j u v Hij Hu Hv. apply (H (S i) (S j)); [lia|done|done].
  - intros [Hx Hl] [|i] [|j] u v Hij Hu Hv; simpl in *; simplify_eq; [done| |lia|].
    + apply Hx. by eapply list_elem_of_lookup_2.
    + apply (Hl i j); [lia|done|done].
Qed.

(** Tasks inserted one after the other, each behind those of the same or a
    higher urgency. *)
Definition queued (l new : list task_queue_element) : list task_queue_element :=
  foldl (λ l y, insert_by priority y l) l new.

Lemma queued_perm new : ∀ l, queued l new ≡ₚ new ++ l.
Proof.
  induction new as [|y new IH]; intros l; [done|]. unfold queued in *. simpl. rewrite IH, insert_by_perm.
  symmetry. apply Permutation_middle.
Qed.

Lemma queued_sorted new : ∀ l, sorted_by priority l → sorted_by priority (queued l new).
Proof. induction new as [|y new IH]; intros l Hl; [done|]. apply (IH (insert_by priority y l)). by apply sorted_insert. Qed.

Section Tasks.
Context {X : Type} (call : Z → Z → M (tqs X) unit).

(** What a handler does to the rest of the state, and the tasks that the
    interrupts during its run leave in the queue. *)
Context (eff : task_queue_element → X → X) (adds : task_queue_element → X → list task_queue_element).

(** A handler returns, and leaves the priority and the interrupt mask as they
    were; it runs with interrupts enabled, so interrupts may queue tasks, if
    there is room. *)
Hypothesis Hcall : ∀ e l (s : tqs X),
  cpu_ok (r_cpu (task_queue s)) → rholds (r_buf (task_queue s)) l → sorted_by priority l → cur_priority s = priority e →
  Z.of_nat (length l + length (adds e (q_ext s))) < BUFLEN →
  ∃ r, rholds r (queued l (adds e (q_ext s))) ∧
    call (k_handler e) (k_data e) s = Ok (tt, mk_tqs (set_rbuf r (task_queue s)) (cur_priority s) (eff e (q_ext s))).

(** A task more urgent than the running one is not queued but run at once. *)
Hypothesis Hadds : ∀ e x y, y ∈ adds e x → priority e ≤ priority y.

(** The queue as a sequence: [drained cp l x run left x']: with the queue [l]
    and the state [x], work of priority [cp] is preempted by the tasks [run],
    in this order, until [left] is queued and the state is [x']. *)
Inductive drained (cp : Z) : list task_queue_element → X → list task_queue_element → list task_queue_element → X → Prop :=
  | drained_end l x : runnable cp l = [] → drained cp l x [] l x
  | drained_run e l x run left x' :
      priority e ≤ cp → Z.of_nat (length l + length (adds e x)) < BUFLEN →
      drained cp (queued l (adds e x)) (eff e x) run left x' → drained cp (e :: l) x (e :: run) left x'.

(** How a call ends. *)
Record ended (left : list task_queue_element) (x' : X) (s s' : tqs X) : Prop := mk_ended {
  en_tasks : rholds (r_buf (task_queue s')) left;
  en_ext : q_ext s' = x';
  en_prio : cur_priority s' = cur_priority s;
  en_cpu : r_cpu (task_queue s') = r_cpu (task_queue s);
}.

Lemma drained_order cp l x run left x' : drained cp l x run left x' → sorted_by priority l →
  (∀ b, (∀ y, y ∈ l → b ≤ priority y) → ∀ y, y ∈ run → b ≤ priority y) ∧
  sorted_by priority run ∧ (∀ y, y ∈ run → priority y ≤ cp) ∧ sorted_by priority left ∧ (∀ y, y ∈ left → cp < priority y).
Proof.
  induction 1 as [l x Hl|e l x run left x' He Hroom _ IH]; intros Hs.
  - split_and!; [by intros b _ y ?%elem_of_nil|by intros i j u v _ [=]|by intros y ?%elem_of_nil|done|].
    destruct l as [|e l]; [by intros y ?%elem_of_nil|]. simpl in Hl. destruct (Z.ltb_spec cp (priority e)); [|done].
    apply sorted_cons in Hs as [He _]. intros y [->|Hy]%elem_of_cons; [lia|]. specialize (He y Hy). lia.
  - apply sorted_cons in Hs as [Hle Hs]. destruct (IH (queued_sorted _ _ Hs)) as (H1 & H2 & H3 & H4 & H5).
    assert (Hq : ∀ b, b ≤ priority e → ∀ y, y ∈ run → (∀ z, z ∈ l → b ≤ priority z) → b ≤ priority y).
    { intros b Hb y Hy Hz. apply H1; [|done]. intros z. rewrite queued_perm. intros [Hin|Hin]%elem_of_app; [|auto].
      specialize (Hadds _ _ _ Hin). lia. }
    split_and!; [| | |done|done].
    + intros b Hb y [->|Hy]%elem_of_cons; [apply Hb; by left|]. apply Hq; [apply Hb; by left|done|]. intros z Hz. apply Hb. by right.
    + apply sorted_cons. split; [|done]. intros y Hy. apply Hq; [lia|done|done].
    + intros y [->|Hy]%elem_of_cons; auto.
Qed.

(** Running one task between [enable_int] and [disable_int]. *)
Lemma wp_run_task e l (s : tqs X) (k : M (tqs X) unit) (Q : unit → tqs X → Prop) :
  cpu_ok (r_cpu (task_queue s)) → 0 < irq_nested_count (r_cpu (task_queue s)) →
  rholds (r_buf (task_queue s)) l → sorted_by priority l → Z.of_nat (length l + length (adds e (q_ext s))) < BUFLEN →
  (∀ r, rholds r (queued l (adds e (q_ext s))) → wp k Q (mk_tqs (set_rbuf r (task_queue s)) (cur_priority s) (eff e (q_ext s)))) →
  wp (modify (set_cur_priority (priority e)) ;; on_tasks (r_on_cpu enable_int) ;;
      call (k_handler e) (k_data e) ;; on_tasks (r_on_cpu disable_int) ;;
      modify (set_cur_priority (cur_priority s)) ;; k) Q s.
Proof.
  intros Hc Hpos Hl Hs Hroom HQ. wp_step. apply wp_modify. wp_step. apply wp_zoom, wp_r_enable.
  destruct s as [[c q] p x]. cbn [task_queue cur_priority q_ext r_buf r_cpu] in *.
  destruct (Hcall e l (mk_tqs (mk_rst (leave c) q) (priority e) x)) as (r & Hr & E); [|done|done|done|done|].
  { destruct c as [n m k']. destruct Hc as [Hn Hm]. simpl in *. split; simpl; [lia|].
    destruct (Z.eqb_spec (n - 1) 0); [by rewrite bool_decide_false by lia|]. rewrite Hm, !bool_decide_true by lia. done. }
  wp_step. eapply wp_eq; [exact E|]. wp_step. apply wp_zoom, wp_r_disable. wp_step. apply wp_modify.
  cbn [q_ext task_queue cur_priority set_rbuf] in *. specialize (HQ r Hr).
  unfold set_cur_priority, set_task_queue, set_rcpu, set_rbuf in *. cbn [q_ext task_queue cur_priority r_cpu r_buf] in *.
  by rewrite cpu_reenter.
Qed.

Lemma process_task_run cp l x run left x' : drained cp l x run left x' → ∀ fuel (s : tqs X),
  cur_priority s = cp → q_ext s = x → cpu_ok (r_cpu (task_queue s)) → 0 < irq_nested_count (r_cpu (task_queue s)) →
  rholds (r_buf (task_queue s)) l → sorted_by priority l → (length run < fuel)%nat →
  wp (process_task call fuel None) (λ _, ended left x' s) s.
Proof.
  induction 1 as [l x Hrun|e l x run left x' He Hroom _ IH]; intros [|fuel] s Hcp Hx Hc Hpos Hr Hs Hf; try (simpl in Hf; lia);
    cbn [process_task]; wp_step; apply wp_gets; wp_step; wp_step; apply wp_get_st; rewrite (holds_empty _ _ Hr).
  - destruct l as [|e l]; simpl.
    { wp_step. wp_step. by split. }
    wp_step. apply wp_zoom. eapply wp_cell_get; [by eapply holds_head|]. cbn beta iota.
    replace (set_task_queue (task_queue s) s) with s by by destruct s.
    simpl in Hrun. rewrite Hcp. destruct (Z.ltb_spec cp (priority e)); [|done]. wp_step. wp_step. by split.
  - rewrite bool_decide_false by done. wp_step. apply wp_zoom. eapply wp_cell_get; [by eapply holds_head|]. cbn beta iota.
    replace (set_task_queue (task_queue s) s) with s by by destruct s.
    rewrite Hcp. destruct (Z.ltb_spec cp (priority e)); [lia|].
    wp_step. apply wp_zoom. eapply wp_eq; [by apply (consume_run _ l e)|]. wp_step. cbn iota beta.
    set (s1 := set_task_queue _ s). apply sorted_cons in Hs as [_ Hs]. rewrite <- Hcp. change (cur_priority s) with (cur_priority s1).
    apply (wp_run_task e l s1); [done|done|by eapply holds_pop|done|by rewrite <- Hx in Hroom|].
    intros r Hr'. eapply wp_mono; [apply (IH fuel); simpl; try done|].
    + by rewrite Hx.
    + change (q_ext s1) with (q_ext s) in Hr'. by rewrite Hx in Hr'.
    + by apply queued_sorted.
    + simpl in Hf. lia.
    + intros _ s' [H1 H2 H3 H4]. by split.
Qed.


(** [add_task] of a task more urgent than the current work runs it at once,
    before every queued task, and then those that may preempt. *)
Theorem add_task_preempts fuel l run left x' (s : tqs X) callback prio data :
  cpu_ok (r_cpu (task_queue s)) → 0 < irq_nested_count (r_cpu (task_queue s)) →
  rholds (r_buf (task_queue s)) l → sorted_by priority l → prio < cur_priority s →
  let x := mk_task callback prio data in
  Z.of_nat (length l + length (adds x (q_ext s))) < BUFLEN →
  drained (cur_priority s) (queued l (adds x (q_ext s))) (eff x (q_ext s)) run left x' → (S (length run) < fuel)%nat →
  ∃ s', add_task call fuel callback prio data s = Ok (tt, s') ∧ ended left x' s s'.
Proof.
  intros Hc Hpos Hr Hs Hp x Hroom Hd Hf. apply wp_unit. unfold add_task. wp_step. apply wp_gets. fold x.
  destruct (Z.ltb_spec prio (cur_priority s)); [|lia].
  destruct fuel as [|fuel]; [lia|]. cbn [process_task]. wp_step. apply wp_gets. wp_step. wp_step. cbn iota beta.
  apply (wp_run_task x l s); [done|done|done|done|done|]. intros r Hr'.
  eapply wp_mono; [apply (process_task_run _ _ _ _ _ _ Hd fuel); simpl; try done|].
  - by apply queued_sorted.
  - lia.
  - intros _ s' [H1 H2 H3 H4]. by split.
Qed.

(** Any other task is inserted into the queue behind the tasks of the same or
    higher urgency, and nothing runs. *)
Theorem add_task_queues fuel l (s : tqs X) callback prio data :
  cpu_ok (r_cpu (task_queue s)) → rholds (r_buf (task_queue s)) l → Z.of_nat (length l) < BUFLEN - 1 →
  sorted_by priority l → cur_priority s ≤ prio →
  let l' := queued l [mk_task callback prio data] in
  ∃ s', add_task call fuel callback prio data s = Ok (tt, s') ∧ ended l' (q_ext s) s s' ∧ sorted_by priority l'.
Proof.
  intros Hc Hr Hlen Hs Hp l'. apply wp_unit. unfold add_task. wp_step. apply wp_gets.
  destruct (Z.ltb_spec prio (cur_priority s)); [lia|].
  wp_step. apply wp_get_st. rewrite (holds_full _ l Hr), bool_decide_false by lia.
  destruct (insert_run priority (λ e, prio <? priority e) (mk_task callback prio data) l (task_queue s)) as (r & E & Hrr); [done..|].
  unfold mbind, M_bind in E. wp_step. apply wp_zoom.
  destruct (ring_buf_produce _ (task_queue s)) as [[[] s1]| |] eqn:E1; try done.
  eapply wp_eq; [exact E1|]. wp_step. apply wp_zoom. eapply wp_eq; [exact E|]. wp_step.
  split; [by split|by apply sorted_insert].
Qed.
End Tasks.

(** Handlers that log their number; while handler 1 runs, an interrupt queues a
    task of handler 3 (priority 5). *)
Definition third : task_queue_element := mk_task 3 5 0.
Definition log_eff (e : task_queue_element) (x : list Z) : list Z := x ++ [k_handler e].
Definition log_adds (e : task_queue_element) (x : list Z) : list task_queue_element :=
  if (k_handler e =? 1) && (priority e <=? 5) then [third] else [].
Definition log_call (h d : Z) : M (tqs (list Z)) unit :=
  s ← get_st;
  modify (set_qext (q_ext s ++ [h])) ;;
  if (h =? 1) && (cur_priority s <=? 5) then
    on_tasks (ring_buf_produce third) ;;
    _ ← on_tasks (move_forward 512 (λ e, priority third <? priority e) (producer_idx (r_buf (task_queue s))));
    mret tt
  else mret tt.

Lemma log_call_ok e l (s : tqs (list Z)) :
  cpu_ok (r_cpu (task_queue s)) → rholds (r_buf (task_queue s)) l → sorted_by priority l → cur_priority s = priority e →
  Z.of_nat (length l + length (log_adds e (q_ext s))) < BUFLEN →
  ∃ r, rholds r (queued l (log_adds e (q_ext s))) ∧
    log_call (k_handler e) (k_data e) s = Ok (tt, mk_tqs (set_rbuf r (task_queue s)) (cur_priority s) (log_eff e (q_ext s))).
Proof.
  destruct s as [[c q] p x]. cbn [task_queue cur_priority q_ext r_buf r_cpu]. intros Hc Hq Hs Hp Hroom.
  unfold log_adds, log_eff, log_call in *. rewrite <- Hp in *.
  destruct ((k_handler e =? 1) && (p <=? 5)) eqn:Eh.
  - destruct (insert_run priority (λ e, priority third <? priority e) third l (mk_rst c q)) as (r & E & Hr);
      [done|done|simpl in Hroom; unfold BUFLEN in *; lia|done|done|].
    exists r. split; [exact Hr|]. erewrite bind_Ok by done. erewrite bind_Ok by done. cbn [cur_priority]. rewrite Eh.
    unfold mbind, M_bind in E |- *. unfold on_tasks, zoom. cbn [set_qext task_queue].
    destruct (ring_buf_produce third (mk_rst c q)) as [[[] s1]| |] eqn:E1; try done.
    cbn [set_task_queue task_queue r_buf] in *. by rewrite E.
  - exists q. split; [done|]. erewrite bind_Ok by done. erewrite bind_Ok by done. cbn [cur_priority]. by rewrite Eh.
Qed.

Lemma log_adds_ok e (x : list Z) y : y ∈ log_adds e x → priority e ≤ priority y.
Proof.
  unfold log_adds. destruct (Z.leb_spec (priority e) 5); rewrite ?andb_false_r; [|by intros ?%elem_of_nil].
  destruct (k_handler e =? 1); [|by intros ?%elem_of_nil]. by intros ->%list_elem_of_singleton.
Qed.

(** Work of priority 7 with two tasks queued, the second less urgent. *)
Definition tasks0 : tqs (list Z) := mk_tqs (ring_of (mk_task 0 0 0)) 7 [].
Definition tasks1 : tqs (list Z) :=
  set_task_queue (mk_rst (r_cpu (task_queue tasks0)) (mk_ring 2 0 (<[1 := mk_task 2 9 0]> (<[0 := mk_task 1 4 0]> (rbuf (r_buf (task_queue tasks0))))))) tasks0.

Lemma tasks1_holds : rholds (r_buf (task_queue tasks1)) [mk_task 1 4 0; mk_task 2 9 0].
Proof.
  pose proof (holds_push _ _ (ring_of_holds (mk_task 0 0 0)) (mk_task 1 4 0) eq_refl) as H1.
  pose proof (holds_push _ _ H1 (mk_task 2 9 0) eq_refl) as H2. exact H2.
Qed.


Lemma add_task_preempts_witness :
  ∃ s', add_task log_call 3 1 4 0 tasks0 = Ok (tt, s') ∧ q_ext s' = [1; 3].
Proof.
  destruct (add_task_preempts log_call log_eff log_adds log_call_ok 3 [] [third] [] [1; 3] tasks0 1 4 0) as (s' & E & [_ Hx _ _]);
    [split; [vm_compute; discriminate|reflexivity]|reflexivity|exact (ring_of_holds _)|apply sorted_nil|reflexivity|vm_compute; reflexivity| |simpl; lia|].
  - apply drained_run; [simpl; lia|vm_compute; reflexivity|]. by apply drained_end.
  - exists s'. split; [exact E|exact Hx].
Defined.

Lemma add_task_queues_witness :
  ∃ s', add_task log_call 3 9 8 0 tasks0 = Ok (tt, s') ∧ q_ext s' = [] ∧ rholds (r_buf (task_queue s')) [mk_task 9 8 0].
Proof.
  destruct (add_task_queues log_call 3 [] tasks0 9 8 0) as (s' & E & [Hq Hx _ _] & _);
    [split; [vm_compute; discriminate|reflexivity]|exact (ring_of_holds _)|vm_compute; reflexivity|apply sorted_nil|vm_compute; discriminate|].
  exists s'. split; [exact E|]. split; [exact Hx|exact Hq].
Defined.
