(* ===== verification/Vmem.v ===== *)
(** * Page tables (src/kernel/vmem.c)

    Physical memory is a map from 8-byte-aligned addresses to 64-bit words;
    only words of frames that were handed out exist, so a walk that leaves the
    tables is undefined behaviour.  The kernel reaches physical memory through
    its linear mapping, hence the [v2p]/[p2v] around every access.  Fresh
    pages come from the class [PageAlloc] and hold arbitrary old contents. *)

From S2P Require Import Prelude Cpu Buddy.

Definition MMIO_START : Z := 0x3f000000.
Definition NUM_PT_ENTRIES : Z := Z.shiftl 1 9.
Definition TABLE_ADDR_MASK : Z := 0xfffffffff000.
Definition PTE : Z := 0.
Definition PMD : Z := 1.
Definition PUD : Z := 2.
Definition PGD : Z := 3.
Definition NUM_PT_LEVEL : Z := 4.
Definition PUD_ADDR : Z := 0x101000.
Definition MAIR_IDX_DEVICE_nGnRnE : Z := 0.
Definition MAIR_IDX_NORMAL_NOCACHE : Z := 1.
Definition PD_NX_EL0 : Z := Z.shiftl 1 54.
Definition PD_ACCESS : Z := Z.shiftl 1 10.
Definition PD_RDONLY : Z := Z.shiftl 1 7.
Definition PD_USER_ACCESS : Z := Z.shiftl 1 6.
Definition PD_TABLE : Z := 3.
Definition PD_BLOCK : Z := 1.
Definition PD_PAGE : Z := 3.

(** What [malloc(PAGE_SIZE)] promises: the physical address of a page frame
    below 2^47, with unspecified contents; it is not in use as long as fewer
    than [capacity] frames are. *)
Class PageAlloc := {
  new_frame : gset Z → Z;
  stale : Z → Z;
  capacity : nat;
  new_frame_fresh F : (size F < capacity)%nat → new_frame F ∉ F;
  new_frame_range F : 0 < new_frame F < 2 ^ 47;
  new_frame_aligned F : new_frame F mod 4096 = 0;
  stale_range a : 0 ≤ stale a < 2 ^ 64;
}.

Record vst := mk_vst {
  words : gmap Z Z;
  frames : gset Z;
  ttbr0_el1 : Z;
  ttbr1_el1 : Z;
  v_usable1 : Z;
  v_perm : gmap Z Z;   (* usr_pages[i].w_permission *)
}.

Definition set_words (w : gmap Z Z) (s : vst) : vst :=
  mk_vst w (frames s) (ttbr0_el1 s) (ttbr1_el1 s) (v_usable1 s) (v_perm s).
Definition set_frames (f : gset Z) (s : vst) : vst :=
  mk_vst (words s) f (ttbr0_el1 s) (ttbr1_el1 s) (v_usable1 s) (v_perm s).
Definition set_perm (p : gmap Z Z) (s : vst) : vst :=
  mk_vst (words s) (frames s) (ttbr0_el1 s) (ttbr1_el1 s) (v_usable1 s) p.

(** [*(size_t* )v] and [*(size_t* )v = x] at a kernel virtual address. *)
Definition load (v : Z) : M vst Z := s ← get_st; deref (words s !! v2p_trans_kernel v).
Definition store (v x : Z) : M vst unit :=
  _ ← load v; modify (λ s, set_words (<[v2p_trans_kernel v := x]> (words s)) s).

(** The words of the frame at [f], with contents [g]. *)
Definition frame_words (f : Z) (g : Z → Z) : gmap Z Z :=
  list_to_map ((λ i, (f + 8 * i, g (f + 8 * i))) <$> zseq 0 512).

Section Alloc.
Context `{!PageAlloc}.

(** [malloc(PAGE_SIZE)]: the kernel virtual address of a fresh frame. *)
Definition malloc_page : M vst Z :=
  s ← get_st;
  let f := new_frame (frames s) in
  modify (λ s, set_words (frame_words f stale ∪ words s) (set_frames ({[f]} ∪ frames s) s)) ;;
  mret (p2v_trans_kernel f).

(** [memset(v, 0, PAGE_SIZE)] *)
Definition clear_page (v : Z) : M vst unit :=
  for_each (zseq 0 512) (λ i, store (v + 8 * i) 0).

(** ** v2p_trans *)

Definition walk_start (virtual_addr ttbr0 : Z) : M vst Z :=
  s ← get_st;
  if Z.shiftr virtual_addr 48 =? 0xffff then mret (ttbr1_el1 s)
  else if negb (ttbr0 =? 0) then mret ttbr0
  else mret (ttbr0_el1 s).

(** The walk from level [i] on: the address of the last entry visited, the
    entry, and the offset mask; [None] for an invalid entry. *)
Fixpoint walk (fuel : nat) (i virtual_addr entry idx_mask offset_mask : Z) : M vst (option (Z * Z * Z)) :=
  match fuel with
  | O => spin
  | S fuel' =>
      let table_addr := Z.land entry TABLE_ADDR_MASK in
      let idx := Z.shiftr (Z.land virtual_addr idx_mask) (39 - i * 9) in
      let entry_ptr := Z.lor table_addr (Z.shiftl idx 3) in
      entry ← load (p2v_trans_kernel entry_ptr);
      if Z.land entry 1 =? 0 then mret None
      else if (Z.land entry 2 =? 0) || (i =? 3) then mret (Some (entry_ptr, entry, offset_mask))
      else walk fuel' (i + 1) virtual_addr entry (Z.shiftr idx_mask 9) (Z.shiftr offset_mask 9)
  end.

Definition v2p_trans (virtual_addr ttbr0 : Z) : M vst Z :=
  entry ← walk_start virtual_addr ttbr0;
  r ← walk 4 0 virtual_addr entry 0xff8000000000 0x7fffffffff;
  match r with
  | None => mret 0
  | Some (_, entry, offset_mask) =>
      mret (Z.lor (Z.land entry TABLE_ADDR_MASK) (Z.land virtual_addr offset_mask))
  end.

Definition replace_page_entry (ttbr0 virtual_addr new_addr : Z) (w_permission : bool) : M vst unit :=
  entry ← walk_start virtual_addr ttbr0;
  r ← walk 4 0 virtual_addr entry 0xff8000000000 0;
  match r with
  | None => mret tt
  | Some (entry_ptr, _, _) =>
      let v_entry_ptr := p2v_trans_kernel entry_ptr in
      e ← load v_entry_ptr;
      store v_entry_ptr (if w_permission then Z.land e (u64 (Z.lnot PD_RDONLY)) else Z.lor e PD_RDONLY) ;;
      e ← load v_entry_ptr;
      store v_entry_ptr (Z.land e (u64 (Z.lnot TABLE_ADDR_MASK))) ;;
      e ← load v_entry_ptr;
      store v_entry_ptr (Z.lor e (Z.land new_addr TABLE_ADDR_MASK))
  end.

(** ** fill_page_table *)

Definition IDX (page_idx level : Z) : Z :=
  Z.shiftr (Z.land page_idx (u64 (Z.shiftl 0x1ff (9 * level)))) (9 * level).

(** [table_addr] is indexed from PTE = 0 to PGD = 3. *)
Definition tbl_get (t : list Z) (i : Z) : M vst Z := deref (t !! Z.to_nat i).
Definition tbl_set (t : list Z) (i v : Z) : list Z := <[Z.to_nat i := v]> t.

(** A new cleared table for level [i], linked from level [i + 1] at [page_idx]. *)
Definition new_table (t : list Z) (page_idx i : Z) : M vst (list Z) :=
  v ← malloc_page;
  clear_page v ;;
  up ← tbl_get t (i + 1);
  store (up + 8 * IDX page_idx (i + 1)) (Z.lor (v2p_trans_kernel v) PD_TABLE) ;;
  mret (tbl_set t i v).

(** The first loop, for the levels in [lv] (PUD, PMD, PTE). *)
Fixpoint fill_descend (lv : list Z) (t : list Z) (s_page_idx : Z) : M vst (list Z) :=
  match lv with
  | [] => mret t
  | i :: lv' =>
      up ← tbl_get t (i + 1);
      addr_entry ← load (up + 8 * IDX s_page_idx (i + 1));
      t ← (if negb (Z.land addr_entry 1 =? 0)
           then mret (tbl_set t i (p2v_trans_kernel (Z.land addr_entry TABLE_ADDR_MASK)))
           else new_table t s_page_idx i);
      fill_descend lv' t s_page_idx
  end.

(** The inner loop that starts new tables where an index wraps to 0. *)
Fixpoint fill_wrap (lv : list Z) (t : list Z) (s_page_idx : Z) : M vst (list Z) :=
  match lv with
  | [] => mret t
  | i :: lv' =>
      t ← (if negb (IDX s_page_idx i =? 0) && (IDX (s_page_idx + 1) i =? 0)
           then new_table t (s_page_idx + 1) i else mret t);
      fill_wrap lv' t s_page_idx
  end.

Definition page_entry (idx start_pa flags : Z) : Z :=
  Z.lor (Z.lor (Z.lor (Z.lor (u64 (PAGE_SIZE * idx + start_pa)) PD_USER_ACCESS)
    (Z.shiftl MAIR_IDX_NORMAL_NOCACHE 2)) PD_PAGE) flags.

(** The second loop: [n] pages remain. *)
Fixpoint fill_pages (n : nat) (t : list Z) (s_page_idx idx start_pa flags : Z) : M vst unit :=
  match n with
  | O => mret tt
  | S n' =>
      pte ← tbl_get t 0;
      store (pte + 8 * IDX s_page_idx PTE) (page_entry idx start_pa flags) ;;
      match n' with
      | O => mret tt
      | S _ =>
          t ← fill_wrap [PUD; PMD; PTE] t s_page_idx;
          fill_pages n' t (s_page_idx + 1) (idx + 1) start_pa flags
      end
  end.

Definition fill_page_table (pgd_addr s_page_idx e_page_idx start_pa flags : Z) : M vst unit :=
  t ← fill_descend [PUD; PMD; PTE] (tbl_set [0; 0; 0; 0] PGD pgd_addr) s_page_idx;
  fill_pages (Z.to_nat (e_page_idx - s_page_idx)) t s_page_idx 0 start_pa flags.

(** [init_ttbr]: the physical address of a cleared top-level table. *)
Definition init_ttbr : M vst Z :=
  pgd_addr ← malloc_page;
  clear_page pgd_addr ;;
  mret (v2p_trans_kernel pgd_addr).

(** ** page_table_fork *)

Definition perm_set (page_addr : Z) : M vst unit :=
  s ← get_st;
  let i := page_addr / PAGE_SIZE in
  _ ← deref (v_perm s !! i);
  modify (λ s, set_perm (<[i := 1]> (v_perm s)) s).

(** The branch for a page (or for an entry that is not a table). *)
Definition fork_entry (v_src v_dst i : Z) : M vst unit :=
  e ← load (v_src + 8 * i);
  let page_addr := Z.land e TABLE_ADDR_MASK in
  top ← gets v_usable1;
  (if page_addr <? top then
     (if Z.land e PD_RDONLY =? 0 then perm_set page_addr else mret tt) ;;
     e ← load (v_src + 8 * i);
     store (v_src + 8 * i) (Z.lor e PD_RDONLY)
   else mret tt) ;;
  e ← load (v_src + 8 * i);
  store (v_dst + 8 * i) e.

(** [addr_type] is the level, PTE = 0. *)
Fixpoint page_table_fork (dst_table_addr src_table_addr : Z) (addr_type : nat) : M vst unit :=
  let v_src := p2v_trans_kernel src_table_addr in
  let v_dst := p2v_trans_kernel dst_table_addr in
  for_each (zseq 0 512) (λ i,
    e ← load (v_src + 8 * i);
    match addr_type with
    | S lv =>
        if negb (Z.land e PD_TABLE =? 0) then
          let src_next := Z.land e TABLE_ADDR_MASK in
          v_dst_next ← malloc_page;
          let dst_next := v2p_trans_kernel v_dst_next in
          store (v_dst + 8 * i) (Z.lor dst_next PD_TABLE) ;;
          page_table_fork dst_next src_next lv
        else fork_entry v_src v_dst i
    | O => fork_entry v_src v_dst i
    end).

(** ** free_page_table *)

(** [free] of a page: its words no longer exist. *)
Definition free_page (v : Z) : M vst unit :=
  s ← get_st;
  let f := v2p_trans_kernel v in
  assert (bool_decide (f ∈ frames s)) ;;
  modify (λ s, set_words (filter (λ p, (p.1 / 4096 * 4096) ≠ f) (words s)) (set_frames (frames s ∖ {[f]}) s)).

Fixpoint free_page_table (table_addr : Z) (addr_type : nat) : M vst unit :=
  let v_table_addr := p2v_trans_kernel table_addr in
  match addr_type with
  | O => mret tt
  | S lv =>
      for_each (zseq 0 512) (λ i,
        e ← load (v_table_addr + 8 * i);
        if negb (Z.land e PD_TABLE =? 0) then free_page_table (Z.land e TABLE_ADDR_MASK) lv
        else mret tt)
  end ;;
  free_page v_table_addr.

(** ** finer_granu_paging: identity map of the first GB in 2 MB blocks *)

Definition pmd_granu : Z := 0x200000.
Definition block_entry (i : Z) : Z :=
  let mair_idx := if pmd_granu * i <? MMIO_START then Z.shiftl MAIR_IDX_NORMAL_NOCACHE 2
                  else Z.shiftl MAIR_IDX_DEVICE_nGnRnE 2 in
  Z.lor (Z.lor (Z.lor (pmd_granu * i) PD_ACCESS) mair_idx) PD_BLOCK.

Definition finer_granu_paging : M vst unit :=
  let pud_addr := p2v_trans_kernel PUD_ADDR in
  pmd_addr ← malloc_page;
  for_each (zseq 0 512) (λ i, store (pmd_addr + 8 * i) (block_entry i)) ;;
  store pud_addr (Z.lor (v2p_trans_kernel pmd_addr) PD_TABLE).

End Alloc.
