(* ===== verification/VmemRep.v ===== *)
(** * Page tables as trees, and the walk

    [pt_wf s root P] says that the frames in [P] form a tree of tables below
    [root]: [P] gives each table the list of indices that leads to it.
    [translate] is the four-level lookup the architecture defines; the
    lemmas here relate addresses and bit masks to it. *)

From S2P Require Import Prelude Cpu Buddy Vmem.

(** ** Address arithmetic *)

Lemma v2p_p2v f k : 0 ≤ f + k < 2 ^ 64 → v2p_trans_kernel (p2v_trans_kernel f + k) = f + k.
Proof.
  intros H. unfold v2p_trans_kernel, p2v_trans_kernel, u64.
  replace ((f + v_kernel_space) mod 2 ^ 64 + k - v_kernel_space)
    with ((f + v_kernel_space) mod 2 ^ 64 + (k - v_kernel_space)) by lia.
  rewrite Zplus_mod_idemp_l. replace (f + v_kernel_space + (k - v_kernel_space)) with (f + k) by lia.
  by apply Z.mod_small.
Qed.

Lemma v2p_p2v_0 f : 0 ≤ f < 2 ^ 64 → v2p_trans_kernel (p2v_trans_kernel f) = f.
Proof. intros H. pose proof (v2p_p2v f 0) as E. rewrite !Z.add_0_r in E. by apply E. Qed.

Lemma field_mask v k : 0 ≤ k → Z.shiftr (Z.land v (Z.shiftl 511 k)) k = (v / 2 ^ k) mod 512.
Proof.
  intros. rewrite Z.shiftr_land, Z.shiftr_shiftl_l, Z.sub_diag, Z.shiftl_0_r by lia.
  change 511 with (Z.ones 9). rewrite Z.land_ones, Z.shiftr_div_pow2 by lia. done.
Qed.

Lemma land_low_zero f n k : 0 ≤ n → 0 ≤ k < 2 ^ n → (2 ^ n | f) → Z.land f k = 0.
Proof.
  intros Hn Hk [q ->]. apply Z.bits_inj'. intros b Hb. rewrite Z.land_spec, Z.bits_0.
  destruct (Z.lt_ge_cases b n).
  - rewrite Z.mul_pow2_bits_low by lia. done.
  - destruct (decide (k = 0)) as [->|]; [by rewrite Z.bits_0, andb_false_r|].
    rewrite (Z.bits_above_log2 k b), andb_false_r; [done|lia|].
    apply Z.lt_le_trans with n; [|done]. apply Z.log2_lt_pow2; lia.
Qed.

Lemma lor_add f k n : 0 ≤ n → 0 ≤ k < 2 ^ n → (2 ^ n | f) → Z.lor f k = f + k.
Proof.
  intros. rewrite <- Z.add_lor_land, (land_low_zero f n k) by done. lia.
Qed.

Lemma ptr_lor f i : f mod 4096 = 0 → 0 ≤ i < 512 → Z.lor f (Z.shiftl i 3) = f + 8 * i.
Proof.
  intros Hf Hi. rewrite Z.shiftl_mul_pow2 by lia. change (2 ^ 3) with 8.
  rewrite (lor_add f (i * 8) 12); [lia|lia|change (2 ^ 12) with 4096; lia|].
  apply mod0_divide; [lia|exact Hf].
Qed.

Lemma mask_frame e : 0 ≤ e < 2 ^ 64 → 0 ≤ Z.land e TABLE_ADDR_MASK < 2 ^ 48 ∧ Z.land e TABLE_ADDR_MASK mod 4096 = 0.
Proof.
  intros He. change TABLE_ADDR_MASK with (Z.shiftl (Z.ones 36) 12).
  assert (E : Z.land e (Z.shiftl (Z.ones 36) 12) = Z.shiftl (Z.land (Z.shiftr e 12) (Z.ones 36)) 12).
  { apply Z.bits_inj'. intros b Hb. rewrite Z.land_spec, !Z.shiftl_spec by lia. rewrite Z.land_spec.
    destruct (Z.lt_ge_cases b 12).
    - rewrite (Z.testbit_neg_r (Z.ones 36)), (Z.testbit_neg_r (Z.shiftr e 12)) by lia. by rewrite andb_false_r.
    - rewrite Z.shiftr_spec by lia. by replace (b - 12 + 12) with b by lia. }
  rewrite E, Z.land_ones, Z.shiftl_mul_pow2 by lia.
  pose proof (Z.mod_pos_bound (Z.shiftr e 12) (2 ^ 36) ltac:(lia)). split; [lia|]. apply Z.mod_mul. lia.
Qed.

Lemma mask_entry f fl : 0 ≤ f < 2 ^ 48 → f mod 4096 = 0 → Z.land fl TABLE_ADDR_MASK = 0 →
  Z.land (Z.lor f fl) TABLE_ADDR_MASK = f.
Proof.
  intros Hf Ha Hfl. rewrite Z.land_lor_distr_l, Hfl, Z.lor_0_r.
  apply Z.bits_inj'. intros b Hb. rewrite Z.land_spec.
  change TABLE_ADDR_MASK with (Z.shiftl (Z.ones 36) 12).
  apply mod0_divide in Ha as [q Hq]; [|lia]. change 4096 with (2 ^ 12) in Hq.
  destruct (Z.lt_ge_cases b 12).
  - rewrite Hq, Z.mul_pow2_bits_low by lia. done.
  - rewrite Z.shiftl_spec by lia. destruct (Z.lt_ge_cases b 48).
    + rewrite Z.ones_spec_low by lia. by rewrite andb_true_r.
    + rewrite Z.ones_spec_high, andb_false_r by lia. symmetry.
      destruct (decide (f = 0)) as [->|]; [apply Z.bits_0|].
      apply Z.bits_above_log2; [lia|]. apply Z.lt_le_trans with 48; [|done]. apply Z.log2_lt_pow2; lia.
Qed.

(** The index of page [p] in its table of level [l], as [IDX] computes it. *)
Definition ix (p l : Z) : Z := (p / 2 ^ (9 * l)) mod 512.

Lemma ix_range p l : 0 ≤ ix p l < 512.
Proof. apply Z.mod_pos_bound. lia. Qed.

Lemma IDX_ix p l : 0 ≤ l ≤ 3 → IDX p l = ix p l.
Proof.
  intros Hl. unfold IDX, ix. change 0x1ff with 511.
  assert (u64 (Z.shiftl 511 (9 * l)) = Z.shiftl 511 (9 * l)) as ->.
  { unfold u64. apply Z.mod_small. rewrite Z.shiftl_mul_pow2 by lia.
    pose proof (pow2_pos (9 * l)). pose proof (pow2_le (9 * l) 27). lia. }
  apply field_mask. lia.
Qed.

Definition indices (p : Z) : list Z := [ix p 3; ix p 2; ix p 1; ix p 0].

Lemma ix_split p l : 0 ≤ l → p / 2 ^ (9 * l) = p / 2 ^ (9 * (l + 1)) * 512 + ix p l.
Proof.
  intros Hl. unfold ix. replace (9 * (l + 1)) with (9 * l + 9) by lia.
  rewrite Z.pow_add_r, <- Z.div_div by lia. change (2 ^ 9) with 512.
  rewrite (Z.div_mod (p / 2 ^ (9 * l)) 512) at 1 by lia. lia.
Qed.

Lemma indices_inj p q : 0 ≤ p < 2 ^ 36 → 0 ≤ q < 2 ^ 36 → indices p = indices q → p = q.
Proof.
  intros Hp Hq [= E3 E2 E1 E0].
  pose proof (ix_split p 0 ltac:(lia)) as P0. pose proof (ix_split p 1 ltac:(lia)) as P1.
  pose proof (ix_split p 2 ltac:(lia)) as P2. pose proof (ix_split p 3 ltac:(lia)) as P3.
  pose proof (ix_split q 0 ltac:(lia)) as Q0. pose proof (ix_split q 1 ltac:(lia)) as Q1.
  pose proof (ix_split q 2 ltac:(lia)) as Q2. pose proof (ix_split q 3 ltac:(lia)) as Q3.
  change (9 * (0 + 1)) with 9 in *. change (9 * (1 + 1)) with 18 in *. change (9 * (2 + 1)) with 27 in *.
  change (9 * (3 + 1)) with 36 in *. change (9 * 0) with 0 in *. change (9 * 1) with 9 in *.
  change (9 * 2) with 18 in *. change (9 * 3) with 27 in *. change (2 ^ 0) with 1 in *. rewrite !Z.div_1_r in *.
  rewrite (Z.div_small p (2 ^ 36)) in P3 by lia. rewrite (Z.div_small q (2 ^ 36)) in Q3 by lia. lia.
Qed.

(** ** Tables *)

Definition word (s : vst) (f i : Z) : option Z := words s !! (f + 8 * i).
Definition valid (e : Z) : bool := negb (Z.land e 1 =? 0).

Record pt_wf (s : vst) (root : Z) (P : gmap Z (list Z)) : Prop := mk_pt_wf {
  pt_root : P !! root = Some [];
  pt_frame f π : P !! f = Some π → (length π ≤ 3)%nat ∧ f ∈ frames s ∧ 0 < f < 2 ^ 47 ∧ f mod 4096 = 0;
  pt_word f π i : P !! f = Some π → 0 ≤ i < 512 → ∃ e, word s f i = Some e ∧ 0 ≤ e < 2 ^ 64;
  pt_inj f g π : P !! f = Some π → P !! g = Some π → f = g;
  pt_next f π i e : P !! f = Some π → (length π < 3)%nat → 0 ≤ i < 512 → word s f i = Some e → valid e = true →
    Z.land e 2 ≠ 0 ∧ P !! (Z.land e TABLE_ADDR_MASK) = Some (π ++ [i]);
  pt_up c π i : P !! c = Some (π ++ [i]) →
    0 ≤ i < 512 ∧ ∃ f e, P !! f = Some π ∧ word s f i = Some e ∧ valid e = true ∧ Z.land e TABLE_ADDR_MASK = c;
}.

Fixpoint resolve (s : vst) (f : Z) (idxs : list Z) : option Z :=
  match idxs with
  | [] => None
  | i :: rest =>
      e ← word s f i;
      if valid e then match rest with [] => Some e | _ => resolve s (Z.land e TABLE_ADDR_MASK) rest end
      else None
  end.

Lemma resolve_cons s f i j rest e : word s f i = Some e →
  resolve s f (i :: j :: rest) = if valid e then resolve s (Z.land e TABLE_ADDR_MASK) (j :: rest) else None.
Proof. intros He. cbn [resolve]. by rewrite He. Qed.

Lemma resolve_one s f i e : word s f i = Some e → resolve s f [i] = if valid e then Some e else None.
Proof. intros He. cbn [resolve]. by rewrite He. Qed.

(** The page-table entry that maps page [p] in the tables at [root]. *)
Definition translate (s : vst) (root p : Z) : option Z := resolve s root (indices p).

(** Words of different cells are different. *)
Lemma cell_inj f g i j : f mod 4096 = 0 → g mod 4096 = 0 → 0 ≤ i < 512 → 0 ≤ j < 512 →
  f + 8 * i = g + 8 * j → f = g ∧ i = j.
Proof. intros Hf Hg Hi Hj E. Z.div_mod_to_equations. lia. Qed.

(** ** Accesses *)

Lemma wp_load v a e (Q : Z → vst → Prop) s :
  v2p_trans_kernel v = a → words s !! a = Some e → Q e s → wp (load v) Q s.
Proof. intros <- H ?. unfold load. wp_steps. by apply (wp_deref _ e). Qed.

Lemma wp_store v a x (Q : unit → vst → Prop) s :
  v2p_trans_kernel v = a → is_Some (words s !! a) → Q tt (set_words (<[a := x]> (words s)) s) → wp (store v x) Q s.
Proof. intros E [e H] ?. unfold store. wp_step. apply (wp_load _ a e); [done|done|]. wp_step. by rewrite E. Qed.

Section Walk.
Context (s : vst) (root : Z) (P : gmap Z (list Z)).
Hypothesis Hwf : pt_wf s root P.

Lemma frame_cell f π i : P !! f = Some π → 0 ≤ i < 512 → 0 ≤ f + 8 * i < 2 ^ 48 ∧ f mod 4096 = 0.
Proof. intros (_ & _ & Hf & Ha)%(pt_frame _ _ _ Hwf) Hi. lia. Qed.

Definition idx_mask (i : Z) : Z := Z.shiftr 0xff8000000000 (9 * i).

(** The walk computes [resolve] and stops at the entry of the page. *)
Lemma wp_walk_from va : ∀ fuel i f π entry om (Q : option (Z * Z * Z) → vst → Prop),
  Z.of_nat fuel = 4 - i → 0 ≤ i → P !! f = Some π → length π = Z.to_nat i → Z.land entry TABLE_ADDR_MASK = f →
  (resolve s f (drop (Z.to_nat i) (indices (va / 4096))) = None → Q None s) →
  (∀ g e, resolve s f (drop (Z.to_nat i) (indices (va / 4096))) = Some e →
     P !! g = Some (π ++ removelast (drop (Z.to_nat i) (indices (va / 4096)))) →
     word s g (ix (va / 4096) 0) = Some e → valid e = true →
     Q (Some (g + 8 * ix (va / 4096) 0, e, Z.shiftr om (9 * (3 - i)))) s) →
  wp (walk fuel i va entry (idx_mask i) om) Q s.
Proof.
  induction fuel as [|fuel IH]; intros i f π entry om Q Hfuel Hi Hf Hπ He Hnone Hsome.
  { apply (pt_frame _ _ _ Hwf) in Hf as (? & _). lia. }
  assert (Hix : Z.shiftr (Z.land va (idx_mask i)) (39 - i * 9) = ix (va / 4096) (3 - i)).
  { unfold idx_mask. change 0xff8000000000 with (Z.shiftl 511 39). rewrite Z.shiftr_shiftl_l by lia.
    replace (39 - i * 9) with (39 - 9 * i) by lia. rewrite field_mask by lia. unfold ix.
    change 4096 with (2 ^ 12). rewrite Z.div_div, <- Z.pow_add_r by lia. do 3 f_equal. lia. }
  set (k := ix (va / 4096) (3 - i)) in *. pose proof (ix_range (va / 4096) (3 - i)) as Hk. fold k in Hk.
  destruct (frame_cell f π k Hf Hk) as [Hcell Hal]. destruct (pt_word _ _ _ Hwf f π k Hf Hk) as (e & Hw & Her).
  cbn [walk]. rewrite He, Hix, ptr_lor by done.
  wp_step. apply (wp_load _ (f + 8 * k) e); [apply v2p_p2v_0; lia|done|].
  assert (Hdrop : drop (Z.to_nat i) (indices (va / 4096)) = k :: drop (Z.to_nat (i + 1)) (indices (va / 4096))).
  { assert (i = 0 ∨ i = 1 ∨ i = 2 ∨ i = 3) as [E|[E|[E|E]]] by lia; subst i; done. }
  rewrite Hdrop in Hnone, Hsome. cbn [resolve] in Hnone, Hsome. rewrite Hw in Hnone, Hsome. cbn in Hnone, Hsome.
  destruct (Z.eqb_spec (Z.land e 1) 0) as [H0|H0].
  { wp_step. apply Hnone. unfold valid. by rewrite H0. }
  assert (Hv : valid e = true) by (unfold valid; by apply negb_true_iff, Z.eqb_neq).
  rewrite Hv in Hnone, Hsome. destruct (decide (i = 3)) as [->|Hi3].
  - rewrite orb_true_r. wp_step. change (drop (Z.to_nat (3 + 1)) (indices (va / 4096))) with (@nil Z) in *.
    rewrite <- (Z.shiftr_0_r om). apply (Hsome f e); [done| |done|done]. simpl. by rewrite app_nil_r.
  - destruct (pt_next _ _ _ Hwf f π k e Hf ltac:(lia) Hk Hw Hv) as [H2 Hnext].
    destruct (Z.eqb_spec (Z.land e 2) 0); [done|]. destruct (Z.eqb_spec i 3); [done|]. simpl.
    assert (Hne : drop (Z.to_nat (i + 1)) (indices (va / 4096)) ≠ []).
    { assert (i = 0 ∨ i = 1 ∨ i = 2) as [E|[E|E]] by lia; subst i; done. }
    replace (Z.shiftr (idx_mask i) 9) with (idx_mask (i + 1))
      by (unfold idx_mask; rewrite Z.shiftr_shiftr by lia; f_equal; lia).
    destruct (drop (Z.to_nat (i + 1)) (indices (va / 4096))) as [|k' rest] eqn:Ed; [done|].
    apply (IH (i + 1) (Z.land e TABLE_ADDR_MASK) (π ++ [k])); [lia|lia|done|rewrite length_app; simpl; lia|done| |].
    + rewrite Ed. done.
    + rewrite Ed. intros g e' Hr Hg Hw' Hv'. replace (Z.shiftr (Z.shiftr om 9) (9 * (3 - (i + 1)))) with (Z.shiftr om (9 * (3 - i)))
        by (rewrite Z.shiftr_shiftr by lia; f_equal; lia).
      apply Hsome; [done| |done|done]. rewrite <- app_assoc in Hg. exact Hg.
Qed.

(** Entries that a lookup returns are valid words. *)
Lemma resolve_valid : ∀ idxs f π e, P !! f = Some π → (length π + length idxs = 4)%nat →
  (∀ j, j ∈ idxs → 0 ≤ j < 512) → resolve s f idxs = Some e → 0 ≤ e < 2 ^ 64 ∧ valid e = true.
Proof.
  induction idxs as [|i idxs IH]; intros f π e Hf Hlen Hr; [done|].
  assert (Hi : 0 ≤ i < 512) by (apply Hr; by left). destruct (pt_word _ _ _ Hwf f π i Hf Hi) as (w & Hw & Hwr).
  simpl in Hlen. destruct idxs as [|j idxs].
  - rewrite (resolve_one s f i w) by done. destruct (valid w) eqn:Hv; [|done]. by intros [= <-].
  - rewrite (resolve_cons s f i j idxs w) by done. destruct (valid w) eqn:Hv; [|done].
    simpl in Hlen. destruct (pt_next _ _ _ Hwf f π i w Hf ltac:(lia) Hi Hw Hv) as [_ Hn].
    apply (IH _ _ e Hn); [rewrite length_app; simpl in *; lia|]. intros; apply Hr; by right.
Qed.

Lemma indices_range p j : j ∈ indices p → 0 ≤ j < 512.
Proof.
  intros Hj. unfold indices in Hj. rewrite !elem_of_cons, elem_of_nil in Hj.
  destruct Hj as [->|[->|[->|[->|[]]]]]; apply ix_range.
Qed.

Lemma translate_range p e : translate s root p = Some e → 0 ≤ e < 2 ^ 64 ∧ valid e = true.
Proof. apply (resolve_valid _ root []); [apply Hwf|done|]. intros j. apply indices_range. Qed.

End Walk.

Definition set_word (f i x : Z) (s : vst) : vst := set_words (<[f + 8 * i := x]> (words s)) s.

Section Step.
Context (s : vst) (root : Z) (P : gmap Z (list Z)).
Hypothesis Hwf : pt_wf s root P.

Lemma word_set_eq f i x : word (set_word f i x s) f i = Some x.
Proof. unfold word, set_word. simpl. apply lookup_insert_eq. Qed.

Lemma word_set_ne f i x g j π ρ : P !! f = Some π → P !! g = Some ρ → 0 ≤ i < 512 → 0 ≤ j < 512 →
  (f, i) ≠ (g, j) → word (set_word f i x s) g j = word s g j.
Proof.
  intros Hf Hg Hi Hj Hne. unfold word, set_word. simpl. apply lookup_insert_ne. intros E.
  destruct (frame_cell _ _ _ Hwf f π i Hf Hi) as [_ Haf]. destruct (frame_cell _ _ _ Hwf g ρ j Hg Hj) as [_ Hag].
  destruct (cell_inj f g i j Haf Hag Hi Hj E). congruence.
Qed.

Lemma prefix_frame α β : ∀ f, P !! f = Some (α ++ β) → ∃ g, P !! g = Some α.
Proof.
  induction β as [|i β IH] using rev_ind; intros f Hf; [rewrite app_nil_r in Hf; eauto|].
  rewrite app_assoc in Hf. destruct (pt_up _ _ _ Hwf _ _ _ Hf) as (_ & g & _ & Hg & _). by apply (IH g).
Qed.

(** The entry on the way to an existing table is valid. *)
Lemma path_valid f g ρ j e β : P !! f = Some (ρ ++ j :: β) → P !! g = Some ρ → word s g j = Some e → valid e = true.
Proof.
  intros Hf Hg He. rewrite cons_middle, app_assoc in Hf. apply prefix_frame in Hf as (c & Hc).
  destruct (pt_up _ _ _ Hwf _ _ _ Hc) as (_ & g' & e' & Hg' & He' & Hv & _).
  rewrite (pt_inj _ _ _ Hwf g' g ρ) in He' by done. congruence.
Qed.

(** Writing an entry of a last-level table. *)
Section Leaf.
Context (f i x : Z) (π : list Z).
Hypothesis Hf : P !! f = Some π.
Hypothesis Hπ : length π = 3%nat.
Hypothesis Hi : 0 ≤ i < 512.
Hypothesis Hx : 0 ≤ x < 2 ^ 64.

Lemma leaf_inner g ρ j : P !! g = Some ρ → (length ρ < 3)%nat → 0 ≤ j < 512 →
  word (set_word f i x s) g j = word s g j.
Proof.
  intros Hg Hρ Hj. rewrite (word_set_ne f i x g j π ρ); [done..|]. intros [= <- <-].
  rewrite Hf in Hg. injection Hg as <-. lia.
Qed.

Lemma leaf_wf : pt_wf (set_word f i x s) root P.
Proof.
  pose proof Hwf as [H1 H2 H3 H4 H5 H6]. split; [done|exact H2| |done| |].
  - intros g ρ j Hg Hj. destruct (decide ((f, i) = (g, j))) as [[= <- <-]|Hne].
    + exists x. by rewrite word_set_eq.
    + rewrite (word_set_ne f i x g j π ρ) by done. by apply (H3 g ρ).
  - intros g ρ j e Hg Hρ Hj. rewrite (leaf_inner g ρ j) by done. by apply H5.
  - intros c ρ j Hc. destruct (H6 c ρ j Hc) as (Hj & g & e & Hg & He & Hv & Hm). split; [done|].
    exists g, e. split_and!; [done| |done..]. rewrite (leaf_inner g ρ j); [done..| |done].
    apply H2 in Hc as [Hc _]. rewrite length_app in Hc. simpl in Hc. lia.
Qed.

Lemma leaf_resolve : ∀ idxs g ρ, P !! g = Some ρ → (length ρ + length idxs = 4)%nat →
  (∀ j, j ∈ idxs → 0 ≤ j < 512) →
  resolve (set_word f i x s) g idxs =
    if decide (ρ ++ idxs = π ++ [i]) then (if valid x then Some x else None) else resolve s g idxs.
Proof.
  induction idxs as [|j idxs IH]; intros g ρ Hg Hlen Hr.
  { destruct (pt_frame _ _ _ Hwf g ρ Hg). simpl in Hlen. lia. }
  assert (Hj : 0 ≤ j < 512) by (apply Hr; by left). simpl in Hlen.
  destruct (pt_word _ _ _ Hwf g ρ j Hg Hj) as (e & He & _). destruct idxs as [|k idxs].
  - destruct (decide ((f, i) = (g, j))) as [[= <- <-]|Hne].
    + rewrite Hf in Hg. injection Hg as <-. rewrite decide_True by done. apply resolve_one, word_set_eq.
    + rewrite (resolve_one (set_word f i x s) g j e) by (by rewrite (word_set_ne f i x g j π ρ)).
      rewrite (resolve_one s g j e) by done. rewrite decide_False; [done|].
      intros [E1 [= ->]]%app_inj_tail. subst ρ. apply Hne. f_equal. by eapply (pt_inj _ _ _ Hwf).
  - simpl in Hlen. rewrite (resolve_cons s g j k idxs e) by done.
    rewrite (resolve_cons (set_word f i x s) g j k idxs e) by (rewrite (leaf_inner g ρ j); [done|done|lia|done]).
    destruct (valid e) eqn:Hv.
    + destruct (pt_next _ _ _ Hwf g ρ j e Hg ltac:(lia) Hj He Hv) as [_ Hn].
      rewrite (IH _ _ Hn); [by rewrite <- app_assoc|rewrite length_app; simpl; lia|].
      intros; apply Hr; by right.
    + case_decide as E; [|done]. exfalso. assert (∃ β, π = ρ ++ j :: β) as [β Hβ].
      { exists (removelast (k :: idxs)). apply (f_equal (@removelast Z)) in E. rewrite removelast_last in E.
        rewrite <- E, removelast_app by done. done. }
      rewrite Hβ in Hf. by rewrite (path_valid f g ρ j e β Hf Hg He) in Hv.
Qed.

(** Only the translation of one page changes. *)
Lemma leaf_translate p : indices p = π ++ [i] → valid x = true → ∀ q, 0 ≤ p < 2 ^ 36 → 0 ≤ q < 2 ^ 36 →
  translate (set_word f i x s) root q = if decide (q = p) then Some x else translate s root q.
Proof.
  intros Hp Hv q Hpr Hq. unfold translate.
  rewrite (leaf_resolve _ root []); [|apply Hwf|done|].
  - simpl app. rewrite Hv. rewrite <- Hp. destruct (decide (q = p)) as [->|Hne]; [by rewrite decide_True|].
    rewrite decide_False; [done|]. intros E. by apply Hne, indices_inj.
  - intros j. apply indices_range.
Qed.
End Leaf.

(** Linking a new cleared table [g] at entry [i] of the table [f]. *)
Section Table.
Context (f i g : Z) (π : list Z) (s' : vst) (e0 : Z).
Hypothesis Hf : P !! f = Some π.
Hypothesis Hπ : (length π < 3)%nat.
Hypothesis Hi : 0 ≤ i < 512.
Hypothesis He0 : word s f i = Some e0.
Hypothesis Hinv : valid e0 = false.
Hypothesis Hg : g ∉ frames s.
Hypothesis Hgr : 0 < g < 2 ^ 47.
Hypothesis Hga : g mod 4096 = 0.
Hypothesis Hframes : frames s' = {[g]} ∪ frames s.
Hypothesis Hlink : word s' f i = Some (Z.lor g PD_TABLE).
Hypothesis Hzero : ∀ j, 0 ≤ j < 512 → word s' g j = Some 0.
Hypothesis Hsame : ∀ h ρ j, P !! h = Some ρ → 0 ≤ j < 512 → (h, j) ≠ (f, i) → word s' h j = word s h j.

Definition P' : gmap Z (list Z) := <[g := π ++ [i]]> P.

Lemma g_new : P !! g = None.
Proof. destruct (P !! g) as [ρ|] eqn:E; [|done]. by apply (pt_frame _ _ _ Hwf) in E as (_ & ? & _). Qed.

Lemma link_entry : 0 ≤ Z.lor g PD_TABLE < 2 ^ 64 ∧ valid (Z.lor g PD_TABLE) = true ∧
  Z.land (Z.lor g PD_TABLE) 2 ≠ 0 ∧ Z.land (Z.lor g PD_TABLE) TABLE_ADDR_MASK = g.
Proof.
  apply mod0_divide in Hga as Hd; [|lia]. split; [|split; [|split]].
  - unfold PD_TABLE. rewrite (lor_add g 3 12); [lia|lia|simpl; lia|exact Hd].
  - unfold valid. rewrite Z.land_lor_distr_l. change (Z.land PD_TABLE 1) with 1.
    rewrite (land_low_zero g 12 1); [done|lia|simpl; lia|exact Hd].
  - rewrite Z.land_lor_distr_l. change (Z.land PD_TABLE 2) with 2.
    rewrite (land_low_zero g 12 2); [done|lia|simpl; lia|exact Hd].
  - apply mask_entry; [lia|done|done].
Qed.

Lemma no_child : ∀ c, P !! c ≠ Some (π ++ [i]).
Proof.
  intros c Hc. rewrite (path_valid c f π i e0 []) in Hinv; done.
Qed.

Lemma table_wf : pt_wf s' root P'.
Proof.
  pose proof Hwf as [H1 H2 H3 H4 H5 H6]. destruct link_entry as (L1 & L2 & L3 & L4). pose proof g_new as Hgn.
  split; unfold P'.
  - rewrite lookup_insert_ne; [done|]. intros ->. congruence.
  - intros h ρ [[<- <-]|[_ Hh]]%lookup_insert_Some.
    + rewrite length_app, Hframes. simpl. split; [lia|]. set_solver.
    + rewrite Hframes. destruct (H2 h ρ Hh) as (? & ? & ? & ?). set_solver.
  - intros h ρ j [[<- <-]|[_ Hh]]%lookup_insert_Some Hj; [exists 0; by rewrite Hzero|].
    destruct (decide ((h, j) = (f, i))) as [[= -> ->]|Hne]; [eauto|].
    rewrite (Hsame h ρ) by done. by apply (H3 h ρ).
  - intros h k ρ [[<- <-]|[_ Hh]]%lookup_insert_Some [[<- E]|[_ Hk]]%lookup_insert_Some; [done| | |by eapply H4].
    + by destruct (no_child k).
    + subst ρ. by destruct (no_child h).
  - intros h ρ j e [[<- <-]|[_ Hh]]%lookup_insert_Some Hρ Hj He Hv.
    { rewrite Hzero in He by done. injection He as <-. done. }
    destruct (decide ((h, j) = (f, i))) as [[= -> ->]|Hne].
    + rewrite Hlink in He. injection He as <-. split; [done|]. rewrite L4.
      rewrite Hf in Hh. injection Hh as <-. apply lookup_insert_eq.
    + rewrite (Hsame h ρ) in He by done. destruct (H5 h ρ j e Hh Hρ Hj He Hv) as [? Hn]. split; [done|].
      rewrite lookup_insert_ne; [done|]. intros E. rewrite <- E, Hgn in Hn. done.
  - intros c ρ j [[<- [<- <-]%app_inj_tail]|[_ Hc]]%lookup_insert_Some.
    + split; [done|]. exists f, (Z.lor g PD_TABLE). split_and!; [|done..].
      rewrite lookup_insert_ne; [done|]. intros ->. congruence.
    + destruct (H6 c ρ j Hc) as (Hj & h & e & Hh & He & Hv & Hm). split; [done|]. exists h, e.
      split_and!; [rewrite lookup_insert_ne; [done|intros ->; congruence]| |done..].
      rewrite (Hsame h ρ); [done..|]. intros [= -> ->]. congruence.
Qed.

Lemma table_resolve : ∀ idxs h ρ, P !! h = Some ρ → (length ρ + length idxs = 4)%nat →
  (∀ j, j ∈ idxs → 0 ≤ j < 512) → resolve s' h idxs = resolve s h idxs.
Proof.
  destruct link_entry as (_ & L2 & _ & L4).
  induction idxs as [|j idxs IH]; intros h ρ Hh Hlen Hr; [done|].
  assert (Hj : 0 ≤ j < 512) by (apply Hr; by left). simpl in Hlen.
  destruct (decide ((h, j) = (f, i))) as [[= -> ->]|Hne].
  - rewrite Hf in Hh. injection Hh as <-. destruct idxs as [|k idxs]; [simpl in Hlen; lia|].
    rewrite (resolve_cons s f i k idxs e0), (resolve_cons s' f i k idxs _ Hlink), L2, Hinv, L4 by done.
    cbn [resolve]. rewrite Hzero by (apply Hr; right; by left). done.
  - destruct (pt_word _ _ _ Hwf h ρ j Hh Hj) as (e & He & _).
    assert (He' : word s' h j = Some e) by (by rewrite (Hsame h ρ)).
    destruct idxs as [|k idxs]; [by rewrite (resolve_one s h j e), (resolve_one s' h j e)|].
    rewrite (resolve_cons s h j k idxs e), (resolve_cons s' h j k idxs e) by done.
    destruct (valid e) eqn:Hv; [|done].
    destruct (pt_next _ _ _ Hwf h ρ j e Hh ltac:(simpl in Hlen; lia) Hj He Hv) as [_ Hn].
    apply (IH _ _ Hn); [rewrite length_app; simpl in *; lia|]. intros; apply Hr; by right.
Qed.

Lemma table_translate q : translate s' root q = translate s root q.
Proof.
  apply (table_resolve _ root []); [apply Hwf|done|].
  intros j. apply indices_range.
Qed.
End Table.
End Step.
