(* ===== verification/VmemThm.v ===== *)
(** * Runs of the page-table code

    Fresh tables, the descent to the table of a page, the step to the next
    page with the tables it starts, and [fill_page_table] on a range of any
    length ([wp_fill_range]). *)

From S2P Require Import Prelude Cpu Buddy Vmem VmemRep.

(** The parts of the state that page-table writes leave alone. *)
Definition same_regs (s s' : vst) : Prop :=
  ttbr0_el1 s' = ttbr0_el1 s ∧ ttbr1_el1 s' = ttbr1_el1 s ∧ v_usable1 s' = v_usable1 s ∧ v_perm s' = v_perm s.

(** ** Fresh cleared pages *)

Lemma wp_clear_page f (Q : unit → vst → Prop) s :
  0 ≤ f < 2 ^ 48 → (∀ j, 0 ≤ j < 512 → is_Some (word s f j)) →
  (∀ s', (∀ j, 0 ≤ j < 512 → word s' f j = Some 0) →
     (∀ a, (∀ j, 0 ≤ j < 512 → a ≠ f + 8 * j) → words s' !! a = words s !! a) →
     frames s' = frames s → same_regs s s' → Q tt s') →
  wp (clear_page (p2v_trans_kernel f)) Q s.
Proof.
  intros Hf Hw HQ. unfold clear_page.
  eapply wp_mono; [apply (wp_for_each (λ l s', (∀ j, 0 ≤ j < 512 → j ∉ l → word s' f j = Some 0) ∧
      (∀ j, 0 ≤ j < 512 → is_Some (word s' f j)) ∧ (∀ j, j ∈ l → 0 ≤ j < 512) ∧
      (∀ a, (∀ j, 0 ≤ j < 512 → a ≠ f + 8 * j) → words s' !! a = words s !! a) ∧
      frames s' = frames s ∧ same_regs s s'))|].
  - split_and!; [|done| |done|done|done].
    + intros j Hj Hnj. destruct Hnj. apply elem_of_zseq. lia.
    + intros j Hj%elem_of_zseq. lia.
  - intros j l s1 (H1 & H2 & H3 & H4 & H5 & H6). pose proof (H3 j ltac:(by left)) as Hj.
    apply (wp_store _ (f + 8 * j)); [apply v2p_p2v; lia|by apply H2|].
    split_and!; [| |by intros; apply H3; right| |done|done].
    + intros k Hk Hkl. unfold word. simpl. destruct (decide (k = j)) as [->|]; [apply lookup_insert_eq|].
      rewrite lookup_insert_ne by lia. apply H1; [done|]. rewrite elem_of_cons. tauto.
    + intros k Hk. unfold word. simpl. rewrite lookup_insert_is_Some'. right. by apply H2.
    + intros a Ha. simpl. rewrite lookup_insert_ne; [by apply H4|]. intros E. by apply (Ha j).
  - intros [] s' (H1 & H2 & _ & H4 & H5 & H6). apply HQ; [|done..]. intros j Hj. apply H1; [done|]. set_solver.
Qed.

Lemma frame_words_Some f g a : is_Some (frame_words f g !! a) ↔ ∃ j, 0 ≤ j < 512 ∧ a = f + 8 * j.
Proof.
  unfold frame_words. rewrite <- elem_of_dom, dom_list_to_map_L, elem_of_list_to_set, <- list_fmap_compose.
  rewrite list_elem_of_fmap. setoid_rewrite elem_of_zseq. simpl. naive_solver lia.
Qed.

Section Alloc.
Context `{!PageAlloc}.

(** The allocator has [n] more frames. *)
Definition room (s : vst) (n : nat) : Prop := (size (frames s) + n ≤ capacity)%nat.

Lemma room_spend s s' g n : room s (S n) → frames s' = {[g]} ∪ frames s → room s' n.
Proof.
  unfold room. intros Hs ->. pose proof (size_union_alt {[g]} (frames s)) as E.
  rewrite size_union_alt, size_singleton.
  pose proof (subseteq_size (frames s ∖ {[g]}) (frames s) ltac:(set_solver)). lia.
Qed.

(** A page that [malloc] returned and [memset] cleared. *)
Lemma wp_fresh_page s root P (Q : Z → vst → Prop) :
  pt_wf s root P → room s 1 → let g := new_frame (frames s) in
  (∀ s', frames s' = {[g]} ∪ frames s → (∀ j, 0 ≤ j < 512 → word s' g j = Some 0) →
     (∀ h ρ j, P !! h = Some ρ → 0 ≤ j < 512 → word s' h j = word s h j) → same_regs s s' →
     Q (p2v_trans_kernel g) s') →
  wp (v ← malloc_page; clear_page v ;; mret v) Q s.
Proof.
  intros Hwf Hroom g HQ. pose proof (new_frame_range (frames s)) as Hgr. pose proof (new_frame_aligned (frames s)) as Hga.
  pose proof (new_frame_fresh (frames s) ltac:(unfold room in Hroom; lia)) as Hgf. fold g in Hgr, Hga, Hgf.
  wp_step. unfold malloc_page. wp_step. apply wp_get_st. wp_step. apply wp_modify. wp_step. fold g.
  wp_step. apply wp_clear_page; [lia| |].
  { intros j Hj. unfold word. simpl. apply lookup_union_is_Some. left. apply frame_words_Some. eauto. }
  intros s' Hz Hs Hfr Hr. wp_step. apply HQ; [exact Hfr|exact Hz| |exact Hr].
  intros h ρ j Hh Hj. unfold word. destruct (pt_frame _ _ _ Hwf h ρ Hh) as (_ & Hhf & _ & Hha).
  assert (Hne : ∀ k, 0 ≤ k < 512 → h + 8 * j ≠ g + 8 * k).
  { intros k Hk E. destruct (cell_inj h g j k) as [-> _]; done. }
  rewrite Hs by done. simpl. apply lookup_union_r. apply eq_None_not_Some.
  intros (k & Hk & E)%frame_words_Some. by apply (Hne k).
Qed.

Lemma fresh_page_bind s {B} (k : Z → M vst B) (Q : B → vst → Prop) :
  wp (v ← malloc_page; clear_page v ;; mret v) (λ v s', wp (k v) Q s') s →
  wp (v ← malloc_page; clear_page v ;; k v) Q s.
Proof.
  unfold wp, mbind, M_bind, mret, M_ret. destruct (malloc_page s) as [[v s1]| |]; [|done..].
  by destruct (clear_page v s1) as [[? s2]| |].
Qed.

Lemma wp_new_table s root P t p i f π e0 n (Q : list Z → vst → Prop) :
  pt_wf s root P → room s (S n) → 0 ≤ i ≤ 2 → t !! Z.to_nat (i + 1) = Some (p2v_trans_kernel f) → P !! f = Some π →
  (length π < 3)%nat → word s f (ix p (i + 1)) = Some e0 → valid e0 = false →
  let g := new_frame (frames s) in
  (∀ s', pt_wf s' root (<[g := π ++ [ix p (i + 1)]]> P) → (∀ q, translate s' root q = translate s root q) →
     same_regs s s' → room s' n → P !! g = None → Q (tbl_set t i (p2v_trans_kernel g)) s') →
  wp (new_table t p i) Q s.
Proof.
  intros Hwf Hroom Hi Ht Hf Hπ He0 Hinv g HQ. pose proof (new_frame_range (frames s)) as Hgr.
  pose proof (new_frame_aligned (frames s)) as Hga. pose proof (new_frame_fresh (frames s) ltac:(unfold room in Hroom; lia)) as Hgf. fold g in Hgr, Hga, Hgf.
  pose proof (ix_range p (i + 1)) as Hix. destruct (frame_cell _ _ _ Hwf f π _ Hf Hix) as [Hcell Hfa].
  assert (Hgn : P !! g = None) by (by eapply g_new).
  unfold new_table. apply fresh_page_bind. eapply (wp_fresh_page s root P); [done|unfold room in *; lia|].
  intros s1 Hfr Hz Hsame Hregs. fold g. fold g in Hz, Hfr.
  wp_step. unfold tbl_get. eapply wp_deref; [exact Ht|]. wp_step. rewrite IDX_ix by lia.
  apply (wp_store _ (f + 8 * ix p (i + 1))); [apply v2p_p2v; lia| |].
  { change (words s1 !! (f + 8 * ix p (i + 1))) with (word s1 f (ix p (i + 1))).
    rewrite (Hsame f π) by done. eauto. }
  wp_step. rewrite v2p_p2v_0 by lia. fold g. set (s2 := set_words _ s1).
  assert (Hw2 : ∀ h ρ j, (P !! h = Some ρ ∨ h = g) → 0 ≤ j < 512 → (h, j) ≠ (f, ix p (i + 1)) → word s2 h j = word s1 h j).
  { intros h ρ j Hh Hj Hne. unfold word, s2. simpl. apply lookup_insert_ne. intros E.
    assert (Hha : h mod 4096 = 0) by (destruct Hh as [Hh| ->]; [by apply (pt_frame _ _ _ Hwf) in Hh as (_ & _ & _ & ?)|done]).
    destruct (cell_inj f h (ix p (i + 1)) j) as [-> E2]; [done..|]. by rewrite E2 in Hne. }
  assert (Hlink : word s2 f (ix p (i + 1)) = Some (Z.lor g PD_TABLE)) by apply lookup_insert_eq.
  assert (Hzero : ∀ j, 0 ≤ j < 512 → word s2 g j = Some 0).
  { intros j Hj. rewrite (Hw2 g []); [by apply Hz|by right|done|]. intros [= E _]. rewrite E in Hgn. congruence. }
  assert (Hold : ∀ h ρ j, P !! h = Some ρ → 0 ≤ j < 512 → (h, j) ≠ (f, ix p (i + 1)) → word s2 h j = word s h j).
  { intros h ρ j Hh Hj Hne. rewrite (Hw2 h ρ); [|by left|done|done]. by apply (Hsame h ρ). }
  apply HQ; [|intros q|done|by apply (room_spend s _ g)|done].
  - by apply (table_wf s root P Hwf f (ix p (i + 1)) g π s2 e0).
  - by apply (table_translate s root P Hwf f (ix p (i + 1)) g π s2 e0).
Qed.

(** ** Descending to the page's table *)

(** The path from the root to the table of level [i] on the way to page [p];
    that table covers [2 ^ span i] pages. *)
Definition path (p i : Z) : list Z := take (Z.to_nat (3 - i)) (indices p).
Definition span (i : Z) : Z := 9 * (i + 1).

(** The array [t] holds the tables of page [p] from level [k] up. *)
Definition tab_ok (t : list Z) (p : Z) (P : gmap Z (list Z)) (k : Z) : Prop :=
  length t = 4%nat ∧ ∀ l, k ≤ l ≤ 3 → ∃ f, t !! Z.to_nat l = Some (p2v_trans_kernel f) ∧
    P !! f = Some (path p l).

Lemma path_next p i : 0 ≤ i ≤ 2 → path p i = path p (i + 1) ++ [ix p (i + 1)].
Proof. intros. assert (i = 0 ∨ i = 1 ∨ i = 2) as [->|[->| ->]] by lia; reflexivity. Qed.

Lemma path_length p i : 0 ≤ i ≤ 3 → length (path p i) = Z.to_nat (3 - i).
Proof. intros. unfold path. rewrite length_take. simpl. lia. Qed.

Lemma ix_same p q i l : 0 ≤ i < l → p / 2 ^ span i = q / 2 ^ span i → ix p l = ix q l.
Proof.
  intros Hil E. unfold ix, span in *. replace (9 * l) with (9 * (i + 1) + 9 * (l - i - 1)) by lia.
  rewrite Z.pow_add_r, <- !Z.div_div by (try apply Z.pow_pos_nonneg; lia). by rewrite E.
Qed.

Lemma path_same p q i : 0 ≤ i ≤ 2 → p / 2 ^ span i = q / 2 ^ span i → path p i = path q i.
Proof.
  intros Hi E. unfold path, indices. assert (i = 0 ∨ i = 1 ∨ i = 2) as [->|[->| ->]] by lia; simpl.
  - by rewrite (ix_same p q 0 3), (ix_same p q 0 2), (ix_same p q 0 1) by (lia || done).
  - by rewrite (ix_same p q 1 3), (ix_same p q 1 2) by (lia || done).
  - by rewrite (ix_same p q 2 3) by (lia || done).
Qed.

Lemma path_inj p q i j : 0 ≤ p < 2 ^ 36 → 0 ≤ q < 2 ^ 36 → 0 ≤ i ≤ 2 → 0 ≤ j ≤ 2 → path p i = path q j →
  i = j ∧ p / 2 ^ span i = q / 2 ^ span i.
Proof.
  intros Hp Hq Hi Hj E. assert (i = j) as <- by (apply (f_equal length) in E; rewrite !path_length in E; lia).
  split; [done|]. pose proof (ix_split p 1 ltac:(lia)) as P1. pose proof (ix_split p 2 ltac:(lia)) as P2.
  pose proof (ix_split p 3 ltac:(lia)) as P3. pose proof (ix_split q 1 ltac:(lia)) as Q1.
  pose proof (ix_split q 2 ltac:(lia)) as Q2. pose proof (ix_split q 3 ltac:(lia)) as Q3.
  change (9 * (1 + 1)) with 18 in *. change (9 * (2 + 1)) with 27 in *. change (9 * (3 + 1)) with 36 in *.
  change (9 * 1) with 9 in *. change (9 * 2) with 18 in *. change (9 * 3) with 27 in *.
  rewrite (Z.div_small p (2 ^ 36)) in P3 by lia. rewrite (Z.div_small q (2 ^ 36)) in Q3 by lia.
  unfold path, indices in E. assert (i = 0 ∨ i = 1 ∨ i = 2) as [->|[->| ->]] by lia; simpl in E; injection E; intros.
  - change (span 0) with 9. lia.
  - change (span 1) with 18. lia.
  - change (span 2) with 27. lia.
Qed.

Lemma tab_ok_set t p P i f : tab_ok t p P (i + 1) → 0 ≤ i ≤ 2 →
  P !! f = Some (path p i) → tab_ok (tbl_set t i (p2v_trans_kernel f)) p P i.
Proof.
  intros [Hlen Ht] Hi Hf. unfold tbl_set. split; [by rewrite length_insert|]. intros l Hl.
  destruct (decide (l = i)) as [->|].
  - exists f. rewrite list_lookup_insert_eq by lia. done.
  - destruct (Ht l ltac:(lia)) as (h & Hh & Hp). exists h. rewrite list_lookup_insert_ne by lia. done.
Qed.

Lemma tab_ok_mono t p P P' k : tab_ok t p P k → P ⊆ P' → tab_ok t p P' k.
Proof.
  intros [Hlen Ht] Hsub. split; [done|]. intros l Hl. destruct (Ht l Hl) as (f & Hf & Hp).
  exists f. split; [done|]. by eapply lookup_weaken.
Qed.

Lemma wp_descend s root P t p i lv n (Q : list Z → vst → Prop) :
  pt_wf s root P → room s (S n) → 0 ≤ i ≤ 2 → tab_ok t p P (i + 1) →
  (∀ t' s' P', pt_wf s' root P' → tab_ok t' p P' i → (∀ q, translate s' root q = translate s root q) →
     same_regs s s' → room s' n → P ⊆ P' → (∀ g π, P' !! g = Some π → P !! g = Some π ∨ π = path p i) → wp (fill_descend lv t' p) Q s') →
  wp (fill_descend (i :: lv) t p) Q s.
Proof.
  intros Hwf Hroom Hi Ht HQ. pose proof Ht as [Hlen Hl]. destruct (Hl (i + 1) ltac:(lia)) as (f & Htf & Hf).
  pose proof (path_length p (i + 1) ltac:(lia)) as Hlf. set (π := path p (i + 1)) in *.
  pose proof (ix_range p (i + 1)) as Hix. destruct (frame_cell _ _ _ Hwf f π _ Hf Hix) as [Hcell Hfa].
  destruct (pt_word _ _ _ Hwf f π _ Hf Hix) as (e & He & Her).
  cbn [fill_descend]. wp_step. unfold tbl_get. eapply wp_deref; [exact Htf|]. wp_step. rewrite IDX_ix by lia.
  apply (wp_load _ (f + 8 * ix p (i + 1)) e); [apply v2p_p2v; lia|exact He|]. wp_step.
  change (negb (Z.land e 1 =? 0)) with (valid e). destruct (valid e) eqn:Hv.
  - wp_step. destruct (pt_next _ _ _ Hwf f π _ e Hf ltac:(lia) Hix He Hv) as [_ Hn].
    apply (HQ _ s P); [done| |done|done|unfold room in *; lia|done|by left]. apply tab_ok_set; [done|done|]. by rewrite path_next.
  - eapply (wp_new_table s root P t p i f π e n); [done|done|done|done|done|lia|done|done|].
    intros s' Hwf' Htr Hregs Hroom' Hgn. apply (HQ _ s' _ Hwf'); [|done|done|done|by apply insert_subseteq|].
    + apply tab_ok_set; [by eapply tab_ok_mono, insert_subseteq|done|]. rewrite path_next by done. apply lookup_insert_eq.
    + intros h ρ [[_ <-]|[_ ?]]%lookup_insert_Some; [right; symmetry; by apply path_next|by left].
Qed.

Lemma same_regs_trans s1 s2 s3 : same_regs s1 s2 → same_regs s2 s3 → same_regs s1 s3.
Proof. intros (?&?&?&?) (?&?&?&?). unfold same_regs. split_and!; congruence. Qed.

(** ** Filling a range of pages *)

(** The range enters no region that has a table already: no table of level
    [i] covers the pages from a multiple [k] of [2 ^ span i] strictly inside
    the range.  The code makes a new table there and loses the old one. *)
Definition fresh_at (P : gmap Z (list Z)) (k i : Z) : Prop := (2 ^ span i | k) → ∀ f, P !! f ≠ Some (path k i).
Definition fresh_range (P : gmap Z (list Z)) (p e : Z) : Prop := ∀ k i, p < k < e → 0 ≤ i ≤ 2 → fresh_at P k i.

(** The tables that a range from [p] to [e] starts at level [i], and in all. *)
Definition enters (p e i : Z) : nat := Z.to_nat ((e - 1) / 2 ^ span i - p / 2 ^ span i).
Definition tables_for (p e : Z) : nat := (enters p e 2 + (enters p e 1 + enters p e 0))%nat.

Lemma one_table p e : 0 ≤ p < e → ix p 0 + (e - p) ≤ 512 → ∀ i, 0 ≤ i → (e - 1) / 2 ^ span i = p / 2 ^ span i.
Proof.
  intros Hp Hone i Hi. unfold span. rewrite Z.mul_add_distr_l, Z.add_comm, Z.pow_add_r by lia.
  change (2 ^ (9 * 1)) with 512. pose proof (pow2_pos (9 * i)) as Hpow. rewrite <- !Z.div_div by lia. f_equal.
  unfold ix in Hone. change (2 ^ (9 * 0)) with 1 in Hone. rewrite Z.div_1_r in Hone. Z.div_mod_to_equations. lia.
Qed.

Lemma no_multiple p k e m : 0 < m → p < k < e → (e - 1) / m = p / m → ¬ (m | k).
Proof.
  intros Hm Hk E [c ->]. pose proof (Z.div_le_lower_bound (e - 1) m c Hm ltac:(lia)).
  pose proof (Z.div_lt_upper_bound p m c Hm ltac:(lia)). lia.
Qed.

Lemma one_table_range P p e : 0 ≤ p < e → ix p 0 + (e - p) ≤ 512 → fresh_range P p e ∧ tables_for p e = 0%nat.
Proof.
  intros Hp Hone. split.
  - intros k i Hk Hi Hd. destruct (no_multiple p k e (2 ^ span i)); [apply pow2_pos; unfold span; lia|done| |done].
    apply one_table; lia.
  - unfold tables_for, enters. pose proof (one_table p e Hp Hone) as E. rewrite !E by lia. lia.
Qed.

(** A table for page [q] spoils no region that the range enters later. *)
Lemma fresh_at_new P P' q k i j : 0 ≤ q ≤ k → q < k ∨ i ≠ j → k < 2 ^ 36 → 0 ≤ i ≤ 2 → 0 ≤ j ≤ 2 → fresh_at P k i →
  (∀ g π, P' !! g = Some π → P !! g = Some π ∨ π = path q j) → fresh_at P' k i.
Proof.
  intros Hq Hne Hk Hi Hj Hf HP Hd g [Hg|E]%HP; [by apply (Hf Hd g)|].
  apply path_inj in E as [-> E]; [|lia..]. destruct Hne as [Hne|]; [|done]. destruct Hd as [c ->].
  assert (0 < 2 ^ span j) by (apply pow2_pos; unfold span; lia). rewrite Z.div_mul in E by lia.
  pose proof (Z.div_lt_upper_bound q (2 ^ span j) c ltac:(lia) ltac:(lia)). lia.
Qed.

(** The pages at which the index of level [i] wraps. *)
Lemma div_succ p m : 0 < m →
  (p + 1) mod m = 0 ∧ (p + 1) / m = p / m + 1 ∨ (p + 1) mod m ≠ 0 ∧ (p + 1) / m = p / m.
Proof.
  intros Hm. pose proof (Z.div_mod p m ltac:(lia)) as E. pose proof (Z.mod_pos_bound p m Hm) as Hr.
  destruct (decide (p mod m + 1 = m)).
  - left. assert (p + 1 = (p / m + 1) * m) as -> by lia. by rewrite Z.mod_mul, Z.div_mul by lia.
  - right. rewrite <- (Z.mod_unique (p + 1) m (p / m) (p mod m + 1)), <- (Z.div_unique (p + 1) m (p / m) (p mod m + 1)) by lia. lia.
Qed.

Lemma wraps_iff p i : 0 ≤ i →
  negb (ix p i =? 0) && (ix (p + 1) i =? 0) = ((p + 1) mod 2 ^ span i =? 0).
Proof.
  intros Hi. set (m := 2 ^ (9 * i)). assert (Hm : 0 < m) by (apply pow2_pos; lia).
  assert (Es : 2 ^ span i = m * 512) by (unfold span, m; rewrite Z.mul_add_distr_l, Z.pow_add_r by lia; done).
  rewrite Es, Z.rem_mul_r by lia. unfold ix. fold m. set (a := (p + 1) mod m). pose proof (Z.mod_pos_bound (p + 1) m Hm) as Ha.
  fold a in Ha. destruct (div_succ p m Hm) as [[E0 E]|[E0 E]]; fold a in E0; rewrite E.
  - rewrite E0. set (c := p / m). destruct (Z.eqb_spec ((c + 1) mod 512) 0) as [E1|E1].
    + rewrite E1, Z.mul_0_r, andb_true_r. apply negb_true_iff, Z.eqb_neq. Z.div_mod_to_equations. lia.
    + rewrite andb_false_r. symmetry. apply Z.eqb_neq. nia.
  - rewrite andb_comm, andb_negb_r. symmetry. apply Z.eqb_neq. pose proof (Z.mod_pos_bound (p / m) 512 ltac:(lia)). nia.
Qed.

(** The tables that the step from [p] to the next page starts at level [i]. *)
Definition starts (p i : Z) : nat := if (p + 1) mod 2 ^ span i =? 0 then 1 else 0.

Lemma enters_step p e i : 0 ≤ i → p + 1 < e → enters p e i = (starts p i + enters (p + 1) e i)%nat.
Proof.
  intros Hi He. unfold enters, starts. assert (Hm : 0 < 2 ^ span i) by (apply pow2_pos; unfold span; lia).
  pose proof (Z.div_le_mono (p + 1) (e - 1) _ Hm ltac:(lia)).
  destruct (div_succ p _ Hm) as [[Hd E]|[Hd E]], (Z.eqb_spec ((p + 1) mod 2 ^ span i) 0); try done; lia.
Qed.

Lemma fresh_range_new P P' p q e j : 0 ≤ q ≤ p → e ≤ 2 ^ 36 → 0 ≤ j ≤ 2 → fresh_range P p e →
  (∀ g π, P' !! g = Some π → P !! g = Some π ∨ π = path q j) → fresh_range P' p e.
Proof. intros ? ? ? Hf HP k i Hk Hi. apply (fresh_at_new P P' q k i j); [lia..|by apply Hf|done]. Qed.

(** [t] holds the tables of the next page above level [i], and still those of
    page [p] from level [i] down; the regions to come are fresh. *)
Record crossing (t : list Z) (p e : Z) (P : gmap Z (list Z)) (i : Z) : Prop := mk_crossing {
  cr_up : tab_ok t (p + 1) P (i + 1);
  cr_low l : 0 ≤ l ≤ i → ∃ f, t !! Z.to_nat l = Some (p2v_trans_kernel f) ∧ P !! f = Some (path p l);
  cr_next l : 0 ≤ l ≤ i → fresh_at P (p + 1) l;
  cr_rest : fresh_range P (p + 1) e;
}.

Lemma wp_wrap s root P t p e i lv n (Q : list Z → vst → Prop) :
  pt_wf s root P → room s (starts p i + n) → 0 ≤ i ≤ 2 → 0 ≤ p → p + 1 < e → e ≤ 2 ^ 36 → crossing t p e P i →
  (∀ t' s' P', pt_wf s' root P' → crossing t' p e P' (i - 1) → (∀ q, translate s' root q = translate s root q) →
     same_regs s s' → room s' n → P ⊆ P' → wp (fill_wrap lv t' p) Q s') →
  wp (fill_wrap (i :: lv) t p) Q s.
Proof.
  intros Hwf Hroom Hi Hp Hpe He [Hup Hlow Hnext Hrest] HQ. cbn [fill_wrap]. wp_step. rewrite !IDX_ix, wraps_iff by lia.
  unfold starts in Hroom. destruct (Z.eqb_spec ((p + 1) mod 2 ^ span i) 0) as [Hd|Hd].
  - pose proof Hup as [Hlen Hl]. destruct (Hl (i + 1) ltac:(lia)) as (f & Htf & Hf).
    pose proof (path_length (p + 1) (i + 1) ltac:(lia)) as Hlf. set (π := path (p + 1) (i + 1)) in *.
    pose proof (ix_range (p + 1) (i + 1)) as Hix. destruct (pt_word _ _ _ Hwf f π _ Hf Hix) as (e0 & He0 & _).
    assert (Hinv : valid e0 = false).
    { destruct (valid e0) eqn:Hv; [|done]. destruct (pt_next _ _ _ Hwf f π _ e0 Hf ltac:(lia) Hix He0 Hv) as [_ Hn].
      unfold π in Hn. rewrite <- path_next in Hn by done. apply (Hnext i) in Hn; [done|lia|]. apply Z.mod_divide; [|done]. pose proof (pow2_pos (span i)). unfold span in *. lia. }
    apply (wp_new_table s root P t (p + 1) i f π e0 n); [done|done|done|done|done|lia|done|done|].
    intros s' Hwf' Htr Hregs Hroom' Hgn. unfold π in Hwf'. rewrite <- path_next in Hwf' by done.
    set (g := new_frame (frames s)) in *. set (P' := <[g := path (p + 1) i]> P) in *.
    assert (Hsub : P ⊆ P') by (by apply insert_subseteq).
    assert (Hnew : ∀ h ρ, P' !! h = Some ρ → P !! h = Some ρ ∨ ρ = path (p + 1) i).
    { intros h ρ [[_ <-]|[_ ?]]%lookup_insert_Some; [by right|by left]. }
    apply (HQ _ s' P' Hwf'); [|done..]. split.
    + replace (i - 1 + 1) with i by lia. apply tab_ok_set; [by eapply tab_ok_mono|done|apply lookup_insert_eq].
    + intros l Hl'. destruct (Hlow l ltac:(lia)) as (h & Hh & Hph). exists h. unfold tbl_set.
      rewrite list_lookup_insert_ne by lia. split; [done|]. by eapply lookup_weaken.
    + intros l Hl'. apply (fresh_at_new P P' (p + 1) (p + 1) l i); [lia..|apply Hnext; lia|done].
    + by apply (fresh_range_new P P' (p + 1) (p + 1) e i); [lia..| |].
  - wp_step. apply (HQ t s P); [done| |done..]. destruct (Hlow i ltac:(lia)) as (f & Hf & HPf).
    destruct (div_succ p (2 ^ span i)) as [[? _]|[_ E]]; [apply pow2_pos; unfold span; lia|done|].
    split; [|intros l Hl; apply Hlow; lia|intros l Hl; apply Hnext; lia|done].
    replace (i - 1 + 1) with i by lia. destruct Hup as [Hlen Hl]. split; [done|].
    intros l Hl'. destruct (decide (l = i)) as [->|]; [|apply Hl; lia]. exists f. split; [done|]. by rewrite (path_same (p + 1) p) by lia.
Qed.


Lemma page_entry_range k pa fl : 0 ≤ fl < 2 ^ 64 → 0 ≤ page_entry k pa fl < 2 ^ 64.
Proof. intros. unfold page_entry. repeat apply lor_range; [apply u64_range|done..]. Qed.

Lemma page_entry_valid k pa fl : valid (page_entry k pa fl) = true.
Proof.
  unfold valid, page_entry. apply negb_true_iff, Z.eqb_neq. intros E.
  apply (f_equal (λ z, Z.testbit z 0)) in E. rewrite Z.land_spec, !Z.lor_spec in E.
  change (Z.testbit PD_PAGE 0) with true in E. by rewrite orb_true_r in E.
Qed.

(** Moving the tables on to the next page. *)
Lemma wp_cross s root P t p e n (Q : list Z → vst → Prop) :
  pt_wf s root P → room s (starts p 2 + (starts p 1 + (starts p 0 + n))) → 0 ≤ p → p + 1 < e → e ≤ 2 ^ 36 →
  tab_ok t p P 0 → fresh_range P p e →
  (∀ t' s' P', pt_wf s' root P' → tab_ok t' (p + 1) P' 0 → fresh_range P' (p + 1) e →
     (∀ q, translate s' root q = translate s root q) → same_regs s s' → room s' n → P ⊆ P' → Q t' s') →
  wp (fill_wrap [PUD; PMD; PTE] t p) Q s.
Proof.
  intros Hwf Hroom Hp Hpe He Ht Hfree HQ.

  assert (C0 : crossing t p e P 2).
  { split; [|intros l Hl; apply Ht; lia|intros l Hl; apply Hfree; lia|intros k i Hk; apply Hfree; lia].
    split; [apply Ht|]. intros l Hl. assert (l = 3) as -> by lia. by apply Ht. }
  eapply (wp_wrap s root P t p e 2); [done|exact Hroom|lia..|exact C0|]. intros t1 s1 P1 W1 C1 E1 R1 M1 S1.
  eapply (wp_wrap s1 root P1 t1 p e 1); [done|exact M1|lia..|exact C1|]. intros t2 s2 P2 W2 C2 E2 R2 M2 S2.
  eapply (wp_wrap s2 root P2 t2 p e 0); [done|exact M2|lia..|exact C2|]. intros t3 s3 P3 W3 [C3 _ _ F3] E3 R3 M3 S3.
  cbn [fill_wrap]. wp_step. apply (HQ t3 s3 P3); [done|done|done| | |done|].
  - intros q. by rewrite E3, E2.
  - by do 2 (eapply same_regs_trans; [eassumption|]).
  - etrans; [exact S1|]. by etrans.
Qed.

Lemma tables_for_step p e : p + 1 < e → tables_for p e = (starts p 2 + (starts p 1 + (starts p 0 + tables_for (p + 1) e)))%nat.
Proof. intros He. unfold tables_for. rewrite !(enters_step p e) by lia. lia. Qed.

Lemma wp_fill_pages root pa fl e n : 0 ≤ fl < 2 ^ 64 → e ≤ 2 ^ 36 → ∀ s P t p k,
  pt_wf s root P → tab_ok t p P 0 → fresh_range P p e → room s (tables_for p e) → 0 ≤ p → p + Z.of_nat n = e →
  wp (fill_pages n t p k pa fl) (λ _ s', ∃ P', pt_wf s' root P' ∧ P ⊆ P' ∧ same_regs s s' ∧
    ∀ q, 0 ≤ q < 2 ^ 36 → translate s' root q =
      if decide (p ≤ q < e) then Some (page_entry (k + (q - p)) pa fl) else translate s root q) s.
Proof.
  intros Hfl He. induction n as [|n IH]; intros s P t p k Hwf Ht Hfree Hroom Hp0 Hn.
  { cbn [fill_pages]. wp_step. exists P. split_and!; [done..|]. intros q Hq. by rewrite decide_False by lia. }
  destruct (proj2 Ht 0 ltac:(lia)) as (f & Htf & Hf). change (Some (path p 0)) with (Some (take 3 (indices p))) in Hf.
  pose proof (ix_range p 0) as Hix. destruct (frame_cell _ _ _ Hwf f _ _ Hf Hix) as [Hcell _].
  destruct (pt_word _ _ _ Hwf f _ _ Hf Hix) as (e0 & He0 & _).
  cbn [fill_pages]. wp_step. unfold tbl_get. eapply wp_deref; [exact Htf|].
  unfold PTE. rewrite IDX_ix by lia. wp_step.
  apply (wp_store _ (f + 8 * ix p 0)); [apply v2p_p2v; lia|by exists e0|].
  set (x := page_entry k pa fl). change (set_words _ s) with (set_word f (ix p 0) x s).
  pose proof (page_entry_range k pa fl Hfl) as Hx. fold x in Hx.
  pose proof (leaf_wf s root P Hwf f (ix p 0) x _ Hf eq_refl Hix Hx) as Hwf'.
  assert (Htr : ∀ q, 0 ≤ q < 2 ^ 36 → translate (set_word f (ix p 0) x s) root q = if decide (q = p) then Some x else translate s root q).
  { intros q Hq. apply (leaf_translate s root P Hwf f (ix p 0) x _ Hf); [done|done|done|apply page_entry_valid|lia|done]. }
  assert (Hp : x = page_entry (k + (p - p)) pa fl) by (by rewrite Z.sub_diag, Z.add_0_r).
  destruct n as [|n].
  { wp_step. exists P. split_and!; [done..|]. intros q Hq. rewrite Htr by done.
    destruct (decide (q = p)) as [->|]; [by rewrite decide_True, <- Hp by lia|by rewrite decide_False by lia]. }
  rewrite (tables_for_step p e) in Hroom by lia. wp_step. eapply (wp_cross _ root P t p e); [done|exact Hroom|lia|lia|done|done|done|].
  intros t' s1 P1 W1 T1 F1 E1 R1 M1 S1. eapply wp_mono; [apply (IH s1 P1 t' (p + 1) (k + 1) W1 T1 F1 M1); lia|].
  intros _ s' (P' & H1 & H2 & H3 & H4). exists P'. split_and!; [done|by etrans|by eapply same_regs_trans|].
  intros q Hq. rewrite H4, E1, Htr by done. destruct (decide (q = p)) as [->|].
  - by rewrite decide_False, decide_True, <- Hp by lia.
  - destruct (decide (p + 1 ≤ q < e)); [rewrite decide_True by lia; do 2 f_equal; lia|by rewrite decide_False by lia].
Qed.

(** The whole function. *)
Lemma wp_fill_range root P s p e pa fl :
  pt_wf s root P → room s (3 + tables_for p e) → 0 ≤ p < e → e ≤ 2 ^ 36 → fresh_range P p e → 0 ≤ fl < 2 ^ 64 →
  wp (fill_page_table (p2v_trans_kernel root) p e pa fl) (λ _ s', ∃ P', pt_wf s' root P' ∧ P ⊆ P' ∧ same_regs s s' ∧
    ∀ q, 0 ≤ q < 2 ^ 36 → translate s' root q =
      if decide (p ≤ q < e) then Some (page_entry (q - p) pa fl) else translate s root q) s.
Proof.
  intros Hwf Hroom Hp He Hfree Hfl. unfold fill_page_table. wp_step.
  apply (wp_descend s root P _ p 2 _ (2 + tables_for p e)); [done|done|lia| |].
  { split; [done|]. intros l Hl. assert (l = 3) as -> by lia. exists root. split; [done|]. apply Hwf. }
  intros t1 s1 P1 W1 T1 E1 R1 M1 S1 N1. apply (wp_descend s1 root P1 _ p 1 _ (1 + tables_for p e)); [done|done|lia|done|].
  intros t2 s2 P2 W2 T2 E2 R2 M2 S2 N2. apply (wp_descend s2 root P2 _ p 0 _ (tables_for p e)); [done|done|lia|done|].
  intros t3 s3 P3 W3 T3 E3 R3 M3 S3 N3. cbn [fill_descend]. wp_step.
  assert (F3 : fresh_range P3 p e).
  { apply (fresh_range_new P2 P3 p p e 0); [lia..| |done]. apply (fresh_range_new P1 P2 p p e 1); [lia..| |done].
    by apply (fresh_range_new P P1 p p e 2); [lia..| |]. }
  eapply wp_mono; [apply (wp_fill_pages root pa fl e (Z.to_nat (e - p)) Hfl He s3 P3 t3 p 0 W3 T3 F3 M3); lia|].
  intros _ s' (P' & W & S & R & Tr). exists P'. split_and!; [done| | |].
  - etrans; [exact S1|]. etrans; [exact S2|]. by etrans.
  - by do 3 (eapply same_regs_trans; [eassumption|]).
  - intros q Hq. by rewrite Tr, E3, E2, E1.
Qed.

(** A range inside one last-level table needs no more than the way there. *)
Lemma wp_fill_page_table root P s p e pa fl :
  pt_wf s root P → room s 3 → 0 ≤ p < e → e ≤ 2 ^ 36 → ix p 0 + (e - p) ≤ 512 → 0 ≤ fl < 2 ^ 64 →
  wp (fill_page_table (p2v_trans_kernel root) p e pa fl) (λ _ s', ∃ P', pt_wf s' root P' ∧ P ⊆ P' ∧ same_regs s s' ∧
    ∀ q, 0 ≤ q < 2 ^ 36 → translate s' root q =
      if decide (p ≤ q < e) then Some (page_entry (q - p) pa fl) else translate s root q) s.
Proof.
  intros Hwf Hroom Hp He Hone Hfl. destruct (one_table_range P p e Hp Hone) as [Hfree E].
  apply wp_fill_range; [done|by rewrite E|done..].
Qed.

End Alloc.
