(* ===== verification/VmemProps.v ===== *)
(** * Properties of the page-table code *)

From S2P Require Import Prelude Cpu Buddy Vmem VmemRep VmemThm.

(** ** v2p_trans *)

Section Props.
Context (s : vst) (root : Z) (P : gmap Z (list Z)).
Hypothesis Hwf : pt_wf s root P.

Lemma root_addr : 0 < root < 2 ^ 47 ∧ root mod 4096 = 0 ∧ Z.land root TABLE_ADDR_MASK = root.
Proof.
  destruct (pt_frame _ _ _ Hwf root [] ltac:(apply Hwf)) as (_ & _ & H1 & H2). split_and!; [lia|lia|done|].
  rewrite <- (Z.lor_0_r root) at 1. apply mask_entry; [lia|done|done].
Qed.

(** [ttbr0] names the table: the argument, or the register when it is 0. *)
Definition names_root (ttbr0 : Z) : Prop := ttbr0 = root ∨ ttbr0 = 0 ∧ ttbr0_el1 s = root.

Lemma walk_start_user va ttbr0 : 0 ≤ va < 2 ^ 48 → names_root ttbr0 → walk_start va ttbr0 s = Ok (root, s).
Proof.
  intros Hva Hr. pose proof root_addr. unfold walk_start.
  assert (Z.shiftr va 48 = 0) as E by (rewrite Z.shiftr_div_pow2 by lia; by apply Z.div_small).
  unfold mbind, M_bind, get_st. rewrite E. change (0 =? 65535) with false. cbv iota.
  destruct Hr as [->|[-> <-]]; [|done]. destruct (Z.eqb_spec root 0); [lia|done].
Qed.

(** The walk stops at the entry that [translate] gives. *)
Lemma wp_walk_entry va om (Q : option (Z * Z * Z) → vst → Prop) :
  (translate s root (va / 4096) = None → Q None s) →
  (∀ g e, translate s root (va / 4096) = Some e → P !! g = Some (take 3 (indices (va / 4096))) →
     word s g (ix (va / 4096) 0) = Some e → valid e = true →
     Q (Some (g + 8 * ix (va / 4096) 0, e, Z.shiftr om 27)) s) →
  wp (walk 4 0 va root 0xff8000000000 om) Q s.
Proof.
  intros H1 H2. change 0xff8000000000 with (idx_mask 0).
  apply (wp_walk_from s root P Hwf va 4 0 root []); [done|done|apply Hwf|done|apply root_addr|done|].
  intros g e Hr Hg. by apply (H2 g e).
Qed.

Definition phys (va : Z) (e : option Z) : Z :=
  match e with Some e => Z.lor (Z.land e TABLE_ADDR_MASK) (va mod 4096) | None => 0 end.

Lemma v2p_trans_run va ttbr0 : 0 ≤ va < 2 ^ 48 → names_root ttbr0 →
  v2p_trans va ttbr0 s = Ok (phys va (translate s root (va / 4096)), s).
Proof.
  intros Hva Hr.
  assert (wp (v2p_trans va ttbr0) (λ r s', r = phys va (translate s root (va / 4096)) ∧ s' = s) s) as (r & s' & E & -> & ->)%wp_run; [|done].
  unfold v2p_trans. wp_step. eapply wp_eq; [by apply walk_start_user|]. wp_step. apply wp_walk_entry.
  - intros ->. by wp_step.
  - intros g e -> _ _ _. wp_step. split; [|done]. unfold phys. f_equal.
    change (Z.shiftr 0x7fffffffff 27) with (Z.ones 12). by rewrite Z.land_ones.
Qed.
End Props.

(** The physical page of an entry written by [fill_page_table]. *)
Lemma page_entry_phys k pa fl : 0 ≤ k → 0 ≤ pa → pa + 4096 * k < 2 ^ 48 → pa mod 4096 = 0 →
  Z.land fl TABLE_ADDR_MASK = 0 → Z.land (page_entry k pa fl) TABLE_ADDR_MASK = pa + 4096 * k.
Proof.
  intros Hk Hpa Hr Ha Hfl. unfold page_entry. change PAGE_SIZE with 4096. rewrite u64_small by lia.
  rewrite <- !Z.lor_assoc. rewrite Z.add_comm. apply mask_entry; [lia| |].
  - rewrite Z.mul_comm, Z.mod_add by lia. done.
  - by rewrite !Z.land_lor_distr_l, Hfl.
Qed.

(** ** replace_page_entry *)

Definition new_entry (e new_addr : Z) (w_permission : bool) : Z :=
  let e1 := if w_permission then Z.land e (u64 (Z.lnot PD_RDONLY)) else Z.lor e PD_RDONLY in
  Z.lor (Z.land e1 (u64 (Z.lnot TABLE_ADDR_MASK))) (Z.land new_addr TABLE_ADDR_MASK).

Lemma new_entry_ok e a w : 0 ≤ e < 2 ^ 64 → valid e = true →
  0 ≤ new_entry e a w < 2 ^ 64 ∧ valid (new_entry e a w) = true ∧
  Z.land (new_entry e a w) TABLE_ADDR_MASK = Z.land a TABLE_ADDR_MASK ∧
  Z.testbit (new_entry e a w) 7 = negb w.
Proof.
  intros He Hv. unfold new_entry. set (e1 := if w then _ else _).
  assert (He1 : 0 ≤ e1 < 2 ^ 64).
  { unfold e1. destruct w; [apply land_range; [done|apply u64_range]|apply lor_range; [done|by cbv]]. }
  assert (H0 : Z.testbit e1 0 = true).
  { unfold valid in Hv. apply negb_true_iff, Z.eqb_neq in Hv. assert (Z.testbit e 0 = true) as E.
    { change 1 with (Z.ones 1) in Hv. rewrite Z.land_ones in Hv by lia. rewrite Z.bit0_odd. change (2 ^ 1) with 2 in Hv.
      rewrite Zmod_odd in Hv. by destruct (Z.odd e). }
    unfold e1. destruct w; [by rewrite Z.land_spec, E|by rewrite Z.lor_spec, E]. }
  assert (H7 : Z.testbit e1 7 = negb w).
  { unfold e1. destruct w; [rewrite Z.land_spec; change (Z.testbit (u64 (Z.lnot PD_RDONLY)) 7) with false; apply andb_false_r|].
    rewrite Z.lor_spec. change (Z.testbit PD_RDONLY 7) with true. apply orb_true_r. }
  split_and!.
  - apply Z.lor_nonneg. split; apply Z.land_nonneg; [lia|right; by cbv].
  - apply range_of_bits; [apply Z.lor_nonneg; split; apply Z.land_nonneg; [lia|right; by cbv]|].
    intros b Hb. rewrite Z.lor_spec, !Z.land_spec, (bits_high e1), (bits_high TABLE_ADDR_MASK), andb_false_r by done. done.
  - unfold valid. apply negb_true_iff, Z.eqb_neq. intros E. apply (f_equal (λ z, Z.testbit z 0)) in E.
    by rewrite Z.land_spec, Z.lor_spec, Z.land_spec, H0 in E.
  - rewrite Z.land_lor_distr_l, <- !Z.land_assoc. change (Z.land (u64 (Z.lnot TABLE_ADDR_MASK)) TABLE_ADDR_MASK) with 0.
    by rewrite Z.land_0_r, Z.land_diag.
  - rewrite Z.lor_spec, !Z.land_spec, H7. change (Z.testbit TABLE_ADDR_MASK 7) with false.
    change (Z.testbit (u64 (Z.lnot TABLE_ADDR_MASK)) 7) with true. by rewrite andb_true_r, andb_false_r, orb_false_r.
Qed.

Lemma wp_update v a e (g : Z → Z) (Q : unit → vst → Prop) s :
  v2p_trans_kernel v = a → words s !! a = Some e → Q tt (set_words (<[a := g e]> (words s)) s) →
  wp (e ← load v; store v (g e)) Q s.
Proof. intros Hv He HQ. wp_step. apply (wp_load _ a e); [done|done|]. by apply (wp_store _ a). Qed.

Lemma wp_replace s root P va ttbr0 a w :
  pt_wf s root P → 0 ≤ va < 2 ^ 48 → names_root s root ttbr0 →
  wp (replace_page_entry ttbr0 va a w) (λ _ s', pt_wf s' root P ∧ same_regs s s' ∧ frames s' = frames s ∧
    (∀ q, 0 ≤ q < 2 ^ 36 → translate s' root q =
      if decide (q = va / 4096) then (λ e, new_entry e a w) <$> translate s root q else translate s root q) ∧
    ∀ c j, c mod 4096 = 0 → 0 ≤ j < 512 → P !! c = None → word s' c j = word s c j) s.
Proof.
  intros Hwf Hva Hr. unfold replace_page_entry. wp_step. eapply wp_eq; [by eapply walk_start_user|]. wp_step.
  apply (wp_walk_entry s root P Hwf).
  { intros E. wp_step. split_and!; [done|done|done| |done]. intros q Hq. case_decide as Hqa; [|done]. by rewrite Hqa, E. }
  set (p := va / 4096). assert (Hp : 0 ≤ p < 2 ^ 36) by (unfold p; Z.div_mod_to_equations; lia).
  intros g e Htr Hg He Hv. pose proof (ix_range p 0) as Hix. set (i := ix p 0) in *.
  destruct (frame_cell _ _ _ Hwf g _ i Hg Hix) as [Hcell _].
  destruct (pt_word _ _ _ Hwf g _ i Hg Hix) as (e' & He' & Her). assert (e' = e) as -> by congruence.
  assert (Hv2p : v2p_trans_kernel (p2v_trans_kernel (g + 8 * i)) = g + 8 * i) by (apply v2p_p2v_0; lia).
  wp_step. apply (wp_load _ (g + 8 * i) e); [done|done|].
  wp_step. apply (wp_store _ (g + 8 * i)); [done|by exists e|].
  wp_step. eapply wp_load; [done|apply lookup_insert_eq|].
  wp_step. apply (wp_store _ (g + 8 * i)); [done|eexists; apply lookup_insert_eq|].
  wp_step. eapply wp_load; [done|apply lookup_insert_eq|].
  apply (wp_store _ (g + 8 * i)); [done|eexists; apply lookup_insert_eq|].
  cbn [set_words words]. rewrite !insert_insert_eq.
  change (set_words _ _) with (set_word g i (new_entry e a w) s).
  destruct (new_entry_ok e a w Her Hv) as (Hnr & Hnv & _).
  split_and!; [|done|done| |].
  - by apply (leaf_wf s root P Hwf g i _ _ Hg).
  - intros q Hq. rewrite (leaf_translate s root P Hwf g i (new_entry e a w) _ Hg eq_refl Hix p) by done.
    case_decide as Hqp; [|done]. by rewrite Hqp, Htr.
  - intros c j Hc Hj Hcp. destruct (frame_cell _ _ _ Hwf g _ i Hg Hix) as [_ Hga]. unfold word, set_word. simpl. apply lookup_insert_ne.
    intros E. destruct (cell_inj g c i j) as [-> _]; [done..|congruence].
Qed.

(** A concrete allocator: the first frame above 16 MB that is not in use. *)
Fixpoint first_free (n : nat) (k : Z) (F : gset Z) : Z :=
  match n with
  | O => k
  | S n' => if decide (k ∈ F) then first_free n' (k + 4096) F else k
  end.

Lemma first_free_spec n : ∀ k F, k mod 4096 = 0 →
  k ≤ first_free n k F ≤ k + 4096 * Z.of_nat n ∧ first_free n k F mod 4096 = 0.
Proof.
  induction n as [|n IH]; intros k F Hk; cbn [first_free]; [lia|]. case_decide; [|lia].
  destruct (IH (k + 4096) F) as [H1 H2]; [|lia]. Z.div_mod_to_equations. lia.
Qed.

Lemma first_free_fresh n : ∀ k (F : gset Z), (size F ≤ n)%nat → first_free n k F ∉ F.
Proof.
  induction n as [|n IH]; intros k F HF; cbn [first_free].
  - assert (F = ∅) as -> by (apply leibniz_equiv, size_empty_iff; lia). set_solver.
  - case_decide as Hk; [|done].
    assert (E : ∀ m j, k < j → first_free m j F = first_free m j (F ∖ {[k]})).
    { clear. induction m as [|m IH]; intros j Hj; cbn [first_free]; [done|].
      assert (j ∉ ({[k]} : gset Z)) by (rewrite elem_of_singleton; lia).
      destruct (decide (j ∈ F)).
      - rewrite decide_True by (by apply elem_of_difference). apply IH. lia.
      - rewrite decide_False; [done|]. by intros [? _]%elem_of_difference. }
    assert (Hge : ∀ m j, j ≤ first_free m j F).
    { clear. induction m as [|m IH]; intros j; cbn [first_free]; [lia|].
      case_decide; [|lia]. specialize (IH (j + 4096)). lia. }
    specialize (Hge n (k + 4096)). rewrite E in * by lia. specialize (IH (k + 4096) (F ∖ {[k]})).
    assert (Hs : (size (F ∖ {[k]}) ≤ n)%nat) by (rewrite size_difference by set_solver; rewrite size_singleton; lia).
    specialize (IH Hs). intros HF'. apply IH, elem_of_difference. split; [done|]. rewrite elem_of_singleton. lia.
Qed.

Definition low_frames : PageAlloc.
Proof.
  refine {| new_frame := first_free 1000 0x1000000; stale := λ a, a mod 2 ^ 64; capacity := 1000 |}.
  - intros F HF. apply first_free_fresh. lia.
  - intros F. destruct (first_free_spec 1000 0x1000000 F eq_refl). lia.
  - intros F. by apply first_free_spec.
  - intros a. by apply Z.mod_pos_bound.
Defined.

(** An address space whose only table is the cleared table at 0x5000. *)
Definition vmem0 : vst := mk_vst (frame_words 0x5000 (λ _, 0)) {[0x5000]} 0x5000 0 (2 ^ 30) ∅.

Lemma vmem0_word j : 0 ≤ j < 512 → word vmem0 0x5000 j = Some 0.
Proof.
  intros Hj. unfold word, vmem0. cbn [words]. unfold frame_words. apply elem_of_list_to_map_1'.
  - intros y (i & [= _ ->] & _)%list_elem_of_fmap. done.
  - apply list_elem_of_fmap. exists j. split; [done|]. apply elem_of_zseq. lia.
Qed.

Lemma vmem0_wf : pt_wf vmem0 0x5000 {[0x5000 := []]}.
Proof.
  split.
  - apply lookup_singleton_eq.
  - intros f π [<- <-]%lookup_singleton_Some. simpl. split_and!; [lia|set_solver|lia|lia|done].
  - intros f π i [<- <-]%lookup_singleton_Some Hi. exists 0. by rewrite vmem0_word.
  - intros f g π [<- _]%lookup_singleton_Some [<- _]%lookup_singleton_Some. done.
  - intros f π i e [<- <-]%lookup_singleton_Some _ Hi. rewrite vmem0_word by done. by intros [= <-].
  - intros c π i [_ E]%lookup_singleton_Some. by destruct π.
Qed.

Lemma vmem0_unmapped q : translate vmem0 0x5000 q = None.
Proof.
  unfold translate, indices. cbn [resolve]. rewrite vmem0_word by apply ix_range. done.
Qed.

Section Claims.
Context `{!PageAlloc}.

(** For a user address, [v2p_trans] is the four-level translation of the
    architecture: the frame of the page's entry with the page offset, or 0
    when some entry on the way is not valid; nothing is written. *)
Theorem v2p_trans_correct s root P va ttbr0 :
  pt_wf s root P → 0 ≤ va < 2 ^ 48 → names_root s root ttbr0 →
  v2p_trans va ttbr0 s =
    Ok (match translate s root (va / 4096) with
        | Some e => Z.lor (Z.land e TABLE_ADDR_MASK) (va mod 4096)
        | None => 0
        end, s).
Proof. intros Hwf Hva Hr. by apply (v2p_trans_run s root P). Qed.

(** [fill_page_table] on a range of pages that enters no region with a table
    of its own creates the tables that are missing and maps page [p + k] of the range to the
    physical page [start_pa + 4096 k] with the flags asked for; the tables
    stay a tree, and the translation of every other page is unchanged. *)
Theorem fill_page_table_correct s root P p e pa fl :
  pt_wf s root P → room s (3 + tables_for p e) → 0 ≤ p < e → e ≤ 2 ^ 36 → fresh_range P p e → 0 ≤ fl < 2 ^ 64 →
  ∃ s' P', fill_page_table (p2v_trans_kernel root) p e pa fl s = Ok (tt, s') ∧
    pt_wf s' root P' ∧ P ⊆ P' ∧ same_regs s s' ∧
    ∀ q, 0 ≤ q < 2 ^ 36 → translate s' root q =
      if decide (p ≤ q < e) then Some (page_entry (q - p) pa fl) else translate s root q.
Proof.
  intros. destruct (wp_unit _ _ _ (wp_fill_range root P s p e pa fl ltac:(eassumption) ltac:(eassumption)
    ltac:(eassumption) ltac:(eassumption) ltac:(eassumption) ltac:(eassumption))) as (s' & E & P' & ?).
  by exists s', P'.
Qed.

(** C10: After [fill_page_table] maps the user pages from [p] up to [e] to
    page-aligned physical memory from [start_pa] on, [v2p_trans] takes every
    address of the range to the byte at the same distance from [start_pa].
    The range may be of any length and cross any number of tables of every
    level, provided it enters no region that has a table already
    ([fresh_range]: the code would replace that table, see
    [fill_page_table_drops_mapping]); the tables form a tree, the flags touch
    no address bit and the allocator has the frames for the new tables. *)
Theorem fill_v2p_roundtrip s root P p e pa fl va :
  pt_wf s root P → room s (3 + tables_for p e) → 0 ≤ p < e → e ≤ 2 ^ 36 → fresh_range P p e → 0 ≤ fl < 2 ^ 64 →
  Z.land fl TABLE_ADDR_MASK = 0 → 0 ≤ pa → pa mod 4096 = 0 → pa + 4096 * (e - p) ≤ 2 ^ 48 →
  4096 * p ≤ va < 4096 * e →
  ∃ s', fill_page_table (p2v_trans_kernel root) p e pa fl s = Ok (tt, s') ∧
    v2p_trans va root s' = Ok (pa + (va - 4096 * p), s').
Proof.
  intros Hwf Hroom Hp He Hone Hfl Hm Hpa Ha Hend Hva.
  destruct (wp_unit _ _ _ (wp_fill_range root P s p e pa fl Hwf Hroom Hp He Hone Hfl)) as (s' & E & P' & Hwf' & _ & _ & Htr).
  exists s'. split; [done|]. rewrite (v2p_trans_run s' root P' Hwf') by (try lia; by left).
  assert (Hq : p ≤ va / 4096 < e) by (Z.div_mod_to_equations; lia).
  rewrite Htr, decide_True by lia. unfold phys. rewrite page_entry_phys by (try lia; done).
  do 2 f_equal. rewrite (lor_add _ (va mod 4096) 12); [|lia|apply Z.mod_pos_bound; lia|].
  - Z.div_mod_to_equations. lia.
  - apply mod0_divide; [done|]. rewrite (Z.mul_comm (2 ^ 12)). rewrite Z.mod_add by lia. done.
Qed.

(** [replace_page_entry] redirects a mapped user page to the new frame
    and sets its read-only bit as asked (the copy-on-write step), keeps every
    other translation, and does nothing for a page that is not mapped. *)
Theorem replace_page_entry_correct s root P va ttbr0 a w :
  pt_wf s root P → 0 ≤ va < 2 ^ 48 → names_root s root ttbr0 →
  ∃ s', replace_page_entry ttbr0 va a w s = Ok (tt, s') ∧ pt_wf s' root P ∧
    (∀ q, 0 ≤ q < 2 ^ 36 → q ≠ va / 4096 → translate s' root q = translate s root q) ∧
    match translate s root (va / 4096) with
    | None => translate s' root (va / 4096) = None
    | Some _ => ∃ e', translate s' root (va / 4096) = Some e' ∧
        Z.land e' TABLE_ADDR_MASK = Z.land a TABLE_ADDR_MASK ∧ Z.testbit e' 7 = negb w
    end.
Proof.
  intros Hwf Hva Hr. destruct (wp_unit _ _ _ (wp_replace s root P va ttbr0 a w Hwf Hva Hr)) as (s' & E & Hwf' & _ & _ & Htr & _).
  exists s'. split_and!; [done|done| |].
  - intros q Hq Hne. rewrite Htr by done. by rewrite decide_False.
  - assert (Hq : 0 ≤ va / 4096 < 2 ^ 36) by (Z.div_mod_to_equations; lia). rewrite Htr, decide_True by done.
    destruct (translate s root (va / 4096)) as [e|] eqn:Ht; simpl; [|done].
    eexists. split; [done|]. destruct (translate_range s root P Hwf _ _ Ht) as [H1 H2].
    by destruct (new_entry_ok e a w H1 H2) as (_ & _ & ? & ?).
Qed.

End Claims.

(** A range of pages that reaches into the next 2 MB region does not reuse
    the table that region already has: mapping pages 511 and 512 makes the
    earlier mapping of page 600 disappear. *)
Theorem fill_page_table_drops_mapping :
  match (fill_page_table (H := low_frames) (p2v_trans_kernel 0x5000) 600 601 0x30000000 PD_ACCESS ;;
    before ← v2p_trans (600 * 4096) 0x5000;
    fill_page_table (H := low_frames) (p2v_trans_kernel 0x5000) 511 513 0x20000000 PD_ACCESS ;;
    after ← v2p_trans (600 * 4096) 0x5000;
    mret (before, after)) vmem0
  with
  | Ok ((before, after), _) => before = 0x30000000 ∧ after = 0
  | _ => False
  end.
Proof. vm_compute. done. Qed.

(** ** Witnesses *)

Lemma vmem0_room n : (n < 1000)%nat → room (H := low_frames) vmem0 n.
Proof. intros Hn. unfold room, vmem0. cbn [frames]. rewrite size_singleton. cbn [capacity low_frames]. lia. Qed.

(** There are no tables below the root. *)
Lemma vmem0_fresh p e : fresh_range {[0x5000 := []]} p e.
Proof.
  intros k i Hk Hi _ f [_ E]%lookup_singleton_Some. apply (f_equal length) in E. rewrite path_length in E by lia. simpl in E. lia.
Qed.

(** The address space after [fill_page_table] mapped pages 600 and 601. *)
Lemma fill_page_table_correct_witness : ∃ s' P',
  fill_page_table (H := low_frames) (p2v_trans_kernel 0x5000) 600 602 0x30000000 PD_ACCESS vmem0 = Ok (tt, s') ∧
  pt_wf s' 0x5000 P' ∧ translate s' 0x5000 601 = Some (page_entry 1 0x30000000 PD_ACCESS).
Proof.
  destruct (fill_page_table_correct (H := low_frames) vmem0 0x5000 _ 600 602 0x30000000 PD_ACCESS vmem0_wf)
    as (s' & P' & E & Hwf & _ & _ & Htr); [apply vmem0_room; vm_compute; lia|lia|lia|apply vmem0_fresh|by vm_compute|].
  exists s', P'. split; [exact E|]. split; [exact Hwf|]. rewrite Htr by lia. rewrite decide_True by lia. reflexivity.
Defined.

Lemma v2p_trans_correct_witness : v2p_trans 0x258123 0x5000 vmem0 = Ok (0, vmem0).
Proof.
  rewrite (v2p_trans_correct vmem0 0x5000 _ 0x258123 0x5000 vmem0_wf); [|lia|by left].
  rewrite vmem0_unmapped. reflexivity.
Defined.

Lemma fill_v2p_roundtrip_witness : ∃ s',
  fill_page_table (H := low_frames) (p2v_trans_kernel 0x5000) 600 1100 0x30000000 PD_ACCESS vmem0 = Ok (tt, s') ∧
  v2p_trans 0x44b123 0x5000 s' = Ok (0x301f3123, s').
Proof.
  destruct (fill_v2p_roundtrip (H := low_frames) vmem0 0x5000 _ 600 1100 0x30000000 PD_ACCESS 0x44b123 vmem0_wf)
    as (s' & E & R); [apply vmem0_room; vm_compute; lia|lia|lia|apply vmem0_fresh|by vm_compute|reflexivity|lia|reflexivity|lia|lia|].
  exists s'. split; [exact E|exact R].
Defined.

Lemma replace_page_entry_correct_witness : ∃ s1 s2 e',
  fill_page_table (H := low_frames) (p2v_trans_kernel 0x5000) 600 602 0x30000000 PD_ACCESS vmem0 = Ok (tt, s1) ∧
  replace_page_entry 0x5000 0x258000 0x7000 false s1 = Ok (tt, s2) ∧
  translate s2 0x5000 600 = Some e' ∧ Z.land e' TABLE_ADDR_MASK = 0x7000 ∧ Z.testbit e' 7 = true.
Proof.
  destruct (wp_unit _ _ _ (wp_fill_page_table (H := low_frames) 0x5000 _ vmem0 600 602 0x30000000 PD_ACCESS vmem0_wf (vmem0_room 3 ltac:(lia))
    ltac:(lia) ltac:(lia) ltac:(by vm_compute) ltac:(by vm_compute))) as (s1 & E1 & P1 & Hwf & _ & _ & Htr).
  destruct (replace_page_entry_correct s1 0x5000 _ 0x258000 0x5000 0x7000 false Hwf) as (s2 & E2 & _ & _ & H);
    [lia|by left|].
  change (0x258000 / 4096) with 600 in H. rewrite Htr in H by lia. rewrite decide_True in H by lia.
  destruct H as (e' & H1 & H2 & H3). exists s1, s2, e'. split_and!; [exact E1|exact E2|exact H1|exact H2|exact H3].
Defined.
