(* ===== verification/VmemForkThm.v ===== *)
(** * Copying an address space: page_table_fork

    The copy is described entry by entry: the entries of the source tree that
    map pages become read-only, those of the destination are the same, and its
    tables are new frames.  [forked s s' π g lv n Q] is the state after [n]
    entries of the source table at path [π] were copied to [g]; [Q] gives the
    tables of the copy their paths from [g].  Then what [page_table_fork] does
    to the translations of both processes, on any tree of tables, and on a
    concrete one. *)

From S2P Require Import Prelude Cpu Buddy Vmem VmemRep VmemThm VmemProps.

(** ** Entries *)

(** An entry of a table at depth [n] that names another table. *)
Definition is_table (n : nat) (e : Z) : bool := (n <? 3)%nat && negb (Z.land e PD_TABLE =? 0).

(** What fork makes of a page entry, and of any entry. *)
Definition cow (top e : Z) : Z := if Z.land e TABLE_ADDR_MASK <? top then Z.lor e PD_RDONLY else e.
Definition fw (top : Z) (n : nat) (e : Z) : Z := if is_table n e then e else cow top e.

Lemma lor_rdonly_bits e b : b ≠ 7 → Z.testbit (Z.lor e PD_RDONLY) b = Z.testbit e b.
Proof.
  intros Hb. rewrite Z.lor_spec. change PD_RDONLY with (2 ^ 7). destruct (Z.lt_ge_cases b 0) as [Hn|Hn]; [by rewrite !Z.testbit_neg_r|].
  rewrite Z.pow2_bits_false by done. by rewrite orb_false_r.
Qed.

Lemma land_rdonly e k : Z.testbit k 7 = false → Z.land (Z.lor e PD_RDONLY) k = Z.land e k.
Proof.
  intros Hk. apply Z.bits_inj'. intros b Hb. rewrite !Z.land_spec. destruct (decide (b = 7)) as [->|].
  - by rewrite Hk, !andb_false_r.
  - by rewrite lor_rdonly_bits.
Qed.

Lemma cow_land top e k : Z.testbit k 7 = false → Z.land (cow top e) k = Z.land e k.
Proof. intros Hk. unfold cow. destruct (_ <? _); [by apply land_rdonly|done]. Qed.

Lemma cow_valid top e : valid (cow top e) = valid e.
Proof. unfold valid. by rewrite cow_land. Qed.

Lemma cow_range top e : 0 ≤ e < 2 ^ 64 → 0 ≤ cow top e < 2 ^ 64.
Proof. intros He. unfold cow. destruct (_ <? _); [|done]. apply lor_range; [done|]. by vm_compute. Qed.

Lemma fw_land top n e k : Z.testbit k 7 = false → Z.land (fw top n e) k = Z.land e k.
Proof. intros Hk. unfold fw. destruct (is_table n e); [done|by apply cow_land]. Qed.

Lemma fw_table top n e : is_table n (fw top n e) = is_table n e.
Proof. unfold is_table. by rewrite fw_land. Qed.

Lemma fw_valid top n e : valid (fw top n e) = valid e.
Proof. unfold valid. by rewrite fw_land. Qed.

Lemma fw_range top n e : 0 ≤ e < 2 ^ 64 → 0 ≤ fw top n e < 2 ^ 64.
Proof. intros He. unfold fw. destruct (is_table n e); [done|by apply cow_range]. Qed.

Lemma valid_table n e : (n < 3)%nat → valid e = true → is_table n e = true.
Proof.
  intros Hn Hv. unfold is_table. rewrite (proj2 (Nat.ltb_lt n 3)) by done. simpl. apply negb_true_iff, Z.eqb_neq. intros E.
  unfold valid in Hv. apply negb_true_iff, Z.eqb_neq in Hv. apply Hv.
  assert (Z.land e 1 = Z.land (Z.land e PD_TABLE) 1) as -> by (rewrite <- Z.land_assoc; done). by rewrite E.
Qed.

(** ** Paths *)

(** The word [j] of the table at [ρ] is among the first [n] entries of the
    table at [π], or below one of them; the table at [ρ] is below one. *)
Fixpoint covered (π : list Z) (n : Z) (ρ : list Z) (j : Z) : bool :=
  match π, ρ with
  | [], [] => j <? n
  | [], i :: _ => i <? n
  | a :: π', b :: ρ' => (a =? b) && covered π' n ρ' j
  | _ :: _, [] => false
  end.

Definition below (π : list Z) (n : Z) (ρ : list Z) : bool := covered π n ρ n.

Definition in_range (ρ : list Z) : Prop := ∀ k, k ∈ ρ → 0 ≤ k < 512.

Lemma covered_succ i : ∀ π ρ j, 0 ≤ i → in_range ρ → 0 ≤ j < 512 →
  covered π (i + 1) ρ j = covered π i ρ j || covered (π ++ [i]) 512 ρ j || bool_decide (ρ = π ∧ j = i).
Proof.
  intros π. induction π as [|a π IH]; intros [|b ρ] j Hi Hρ Hj; cbn [covered app].
  - rewrite orb_false_r. destruct (Z.ltb_spec j (i + 1)), (Z.ltb_spec j i); simpl; try lia.
    + symmetry. apply bool_decide_eq_true. split; [done|lia].
    + symmetry. apply bool_decide_eq_false. intros [_ ?]. lia.
  - rewrite bool_decide_false by (by intros [? _]). rewrite orb_false_r. pose proof (Hρ b ltac:(by left)) as Hb.
    assert (Hc : covered [] 512 ρ j = true).
    { destruct ρ as [|k ρ]; simpl; [apply Z.ltb_lt; lia|]. pose proof (Hρ k ltac:(right; by left)). apply Z.ltb_lt. lia. }
    cbn [covered] in Hc. rewrite Hc, andb_true_r. destruct (Z.ltb_spec b (i + 1)), (Z.ltb_spec b i), (Z.eqb_spec i b); simpl; try lia; done.
  - by rewrite bool_decide_false by (by intros [? _]).
  - rewrite (IH ρ j Hi) by (done || (intros k Hk; apply Hρ; by right)). destruct (Z.eqb_spec a b) as [->|Hne]; simpl.
    + f_equal. apply bool_decide_ext. naive_solver.
    + symmetry. apply bool_decide_eq_false. intros [[= -> _] _]. done.
Qed.

Lemma covered_child i : ∀ π ρ j, covered (π ++ [i]) 512 ρ j = true → covered π i ρ j = false ∧ ρ ≠ π.
Proof.
  intros π. induction π as [|a π IH]; intros [|b ρ] j; simpl; try done.
  - intros [E%Z.eqb_eq _]%andb_true_iff. subst b. split; [apply Z.ltb_ge; lia|done].
  - intros [E%Z.eqb_eq H]%andb_true_iff. subst b. destruct (IH ρ j H) as [H1 H2]. rewrite H1, andb_false_r. split; [done|congruence].
Qed.

Lemma covered_prefix i n : ∀ π ρ j, covered (π ++ [i]) n ρ j = true → ∃ β, ρ = π ++ i :: β.
Proof.
  intros π. induction π as [|a π IH]; intros [|b ρ] j; simpl; try done.
  - intros [->%Z.eqb_eq _]%andb_true_iff. by exists ρ.
  - intros [->%Z.eqb_eq H]%andb_true_iff. destruct (IH ρ j H) as [β ->]. by exists β.
Qed.

Lemma covered_self π n j : covered π n π j = (j <? n).
Proof. induction π as [|a π IH]; simpl; [done|]. by rewrite Z.eqb_refl, IH. Qed.

Lemma covered_app π n k ρ j : covered π n (π ++ k :: ρ) j = (k <? n).
Proof. induction π as [|a π IH]; simpl; [done|]. by rewrite Z.eqb_refl, IH. Qed.

Lemma covered_none : ∀ π ρ j, in_range ρ → 0 ≤ j → covered π 0 ρ j = false.
Proof.
  induction π as [|a π IH]; intros [|b ρ] j Hρ Hj; simpl; try done.
  - by apply Z.ltb_ge.
  - apply Z.ltb_ge. apply Hρ. by left.
  - rewrite IH; [apply andb_false_r| |done]. intros k Hk. apply Hρ. by right.
Qed.

Lemma covered_all ρ j : in_range ρ → 0 ≤ j < 512 → covered [] 512 ρ j = true.
Proof. intros Hρ Hj. destruct ρ as [|k ρ]; simpl; apply Z.ltb_lt; [lia|]. pose proof (Hρ k ltac:(by left)). lia. Qed.

Lemma below_child i : ∀ π ρ, in_range ρ → below (π ++ [i]) 512 ρ = true → below π i ρ = false ∧ ρ ≠ π ++ [i].
Proof.
  unfold below. intros π. induction π as [|a π IH]; intros [|b ρ] Hρ; simpl; try done.
  - intros [E%Z.eqb_eq H]%andb_true_iff. subst b. split; [apply Z.ltb_ge; lia|]. intros [= ->]. done.
  - intros [E%Z.eqb_eq H]%andb_true_iff. subst b. destruct (IH ρ ltac:(intros k Hk; apply Hρ; by right) H) as [H1 H2].
    rewrite H1, andb_false_r. split; [done|congruence].
Qed.

Lemma below_mono i n : i ≤ n → ∀ π ρ, below π i ρ = true → below π n ρ = true.
Proof.
  unfold below. intros Hn π. induction π as [|a π IH]; intros [|b ρ]; simpl; rewrite ?Z.ltb_lt; try lia; try done.
  intros [-> H]%andb_true_iff. simpl. by apply IH.
Qed.

Lemma below_grandchild i n : i < n → ∀ π ρ, in_range ρ → below (π ++ [i]) 512 ρ = true ∨ ρ = π ++ [i] → below π n ρ = true.
Proof.
  unfold below. intros Hn π. induction π as [|a π IH]; intros [|b ρ] Hρ; simpl.
  - by intros [?|?].
  - intros [[->%Z.eqb_eq _]%andb_true_iff|[= -> _]]; by apply Z.ltb_lt.
  - by intros [?|?].
  - intros [[-> H]%andb_true_iff|[= -> ->]]; [|rewrite Z.eqb_refl]; simpl; apply IH; try (intros k Hk; apply Hρ; by right); [by left|by right].
Qed.

Lemma below_self_child π i : below π i (π ++ [i]) = false.
Proof. unfold below. rewrite covered_app. apply Z.ltb_ge. lia. Qed.

(** ** The state of the copy *)

Section Fork.
Context `{!PageAlloc} (root : Z) (P : gmap Z (list Z)).
Implicit Types s : vst.

(** Invalid entries of inner tables have neither of the two type bits. *)
Definition tidy s : Prop :=
  ∀ f π i e, P !! f = Some π → (length π < 3)%nat → 0 ≤ i < 512 → word s f i = Some e → is_table (length π) e = valid e.

(** Every page below [v_usable1] has a permission cell. *)
Definition has_perms s : Prop := ∀ a, 0 ≤ a < v_usable1 s → is_Some (v_perm s !! (a / PAGE_SIZE)).

(** The number of tables below the first [n] entries of the table at [π]. *)
Definition tables_below (π : list Z) (n : Z) : gset Z := dom (filter (λ p, below π n p.2 = true) P).

Lemma elem_of_tables_below c π n : c ∈ tables_below π n ↔ ∃ ρ, P !! c = Some ρ ∧ below π n ρ = true.
Proof.
  unfold tables_below. rewrite elem_of_dom. split.
  - intros [ρ [H1 H2]%map_lookup_filter_Some]. by exists ρ.
  - intros (ρ & H1 & H2). exists ρ. by apply map_lookup_filter_Some.
Qed.

Lemma tables_below_mono π i n : i ≤ n → (size (tables_below π i) ≤ size (tables_below π n))%nat.
Proof.
  intros Hn. apply subseteq_size. intros c (ρ & H1 & H2)%elem_of_tables_below. apply elem_of_tables_below. exists ρ. split; [done|]. by eapply below_mono.
Qed.

Record forked s s' (π : list Z) (g : Z) (lv : nat) (n : Z) (Q : gmap Z (list Z)) : Prop := mk_forked {
  fk_src h ρ j e : P !! h = Some ρ → 0 ≤ j < 512 → word s h j = Some e →
    word s' h j = Some (if covered π n ρ j then fw (v_usable1 s) (length ρ) e else e);
  fk_frames : frames s ⊆ frames s';
  fk_size : (size (frames s') ≤ size (frames s) + size (tables_below π n))%nat;
  fk_other c j : c ∈ frames s → c mod 4096 = 0 → c ≠ g → P !! c = None → 0 ≤ j < 512 → word s' c j = word s c j;
  fk_gw j : 0 ≤ j < 512 → is_Some (word s' g j);
  fk_regs : ttbr0_el1 s' = ttbr0_el1 s ∧ ttbr1_el1 s' = ttbr1_el1 s ∧ v_usable1 s' = v_usable1 s;
  fk_perm i : v_perm s' !! i = v_perm s !! i ∨ (is_Some (v_perm s !! i) ∧ v_perm s' !! i = Some 1);
  fk_perm_set h ρ j e : P !! h = Some ρ → 0 ≤ j < 512 → word s h j = Some e → covered π n ρ j = true → is_table (length ρ) e = false →
    Z.land e TABLE_ADDR_MASK < v_usable1 s → Z.land e PD_RDONLY = 0 → v_perm s' !! (Z.land e TABLE_ADDR_MASK / PAGE_SIZE) = Some 1;
  fk_root : Q !! g = Some [];
  fk_new c ρ : Q !! c = Some ρ → ρ ≠ [] → (c ∉ frames s) ∧ c ∈ frames s' ∧ 0 < c < 2 ^ 47 ∧ c mod 4096 = 0 ∧ (length ρ ≤ lv)%nat;
  fk_head c k ρ : Q !! c = Some (k :: ρ) → k < n;
  fk_inj c d ρ : Q !! c = Some ρ → Q !! d = Some ρ → c = d;
  fk_up c ρ i : Q !! c = Some (ρ ++ [i]) → 0 ≤ i < 512 ∧ ∃ b e, Q !! b = Some ρ ∧ word s' b i = Some e ∧ valid e = true ∧ Z.land e TABLE_ADDR_MASK = c;
  fk_copy c ρ j : Q !! c = Some ρ → 0 ≤ j < 512 → (ρ = [] → j < n) → ∃ h e e', P !! h = Some (π ++ ρ) ∧ word s' h j = Some e ∧ word s' c j = Some e' ∧
    (if is_table (length (π ++ ρ)) e then Z.land e' PD_TABLE = PD_TABLE ∧ 0 ≤ e' < 2 ^ 64 ∧ Q !! (Z.land e' TABLE_ADDR_MASK) = Some (ρ ++ [j]) else e' = e);
}.

(** The source is a tree of tables with tidy entries. *)
Record source s : Prop := mk_source { so_wf : pt_wf s root P; so_tidy : tidy s; so_perms : has_perms s }.

Lemma path_range s f π : pt_wf s root P → P !! f = Some π → in_range π.
Proof.
  intros Hwf. revert f. induction π as [|i π IH] using rev_ind; intros f Hf k Hk; [by apply elem_of_nil in Hk|].
  destruct (pt_up _ _ _ Hwf f π i Hf) as (Hi & b & _ & Hb & _). apply elem_of_app in Hk as [Hk|Hk%list_elem_of_singleton]; [by apply (IH b)|by subst k].
Qed.

(** The source stays one. *)
Lemma forked_source s s' π g lv n Q : source s → forked s s' π g lv n Q → source s'.
Proof.
  intros [Hwf Ht Hp] Hk. destruct (fk_regs _ _ _ _ _ _ _ Hk) as (_ & _ & Eu). split.
  - pose proof Hwf as [H1 H2 H3 H4 H5 H6]. split; try done.
    + intros f ρ Hf. destruct (H2 f ρ Hf) as (? & ? & ? & ?). split_and!; try done; try lia. by apply (fk_frames _ _ _ _ _ _ _ Hk).
    + intros f ρ i Hf Hi. destruct (H3 f ρ i Hf Hi) as (e & He & Hr). rewrite (fk_src _ _ _ _ _ _ _ Hk f ρ i e) by done.
      eexists. split; [done|]. destruct (covered π n ρ i); [by apply fw_range|done].
    + intros f ρ i e' Hf Hl Hi He' Hv. destruct (H3 f ρ i Hf Hi) as (e & He & _). rewrite (fk_src _ _ _ _ _ _ _ Hk f ρ i e) in He' by done.
      assert (Hve : valid e = true) by (injection He' as <-; destruct (covered π n ρ i); [by rewrite fw_valid in Hv|done]).
      assert (e' = e) as -> by (injection He' as <-; destruct (covered π n ρ i); [unfold fw; by rewrite valid_table|done]). by apply (H5 f ρ i e).
    + intros c ρ i Hc. destruct (H6 c ρ i Hc) as (Hi & f & e & Hf & He & Hv & Hm). split; [done|]. exists f, e. split_and!; try done.
      rewrite (fk_src _ _ _ _ _ _ _ Hk f ρ i e) by done. destruct (covered π n ρ i); [|done]. unfold fw. rewrite valid_table; [done| |done].
      destruct (H2 c _ Hc) as [Hlen _]. rewrite length_app in Hlen. simpl in Hlen. lia.
  - intros f ρ i e' Hf Hl Hi He'. destruct (pt_word _ _ _ Hwf f ρ i Hf Hi) as (e & He & _). rewrite (fk_src _ _ _ _ _ _ _ Hk f ρ i e) in He' by done.
    injection He' as <-. destruct (covered π n ρ i); [rewrite fw_table, fw_valid|]; by apply (Ht f ρ i e).
  - intros a Ha. rewrite Eu in Ha. destruct (fk_perm _ _ _ _ _ _ _ Hk (a / PAGE_SIZE)) as [-> |[_ ->]]; [by apply Hp|by eexists].
Qed.

(** Before the first entry. *)
Lemma forked_start s π g lv : pt_wf s root P → (∀ j, 0 ≤ j < 512 → is_Some (word s g j)) → forked s s π g lv 0 {[g := []]}.
Proof.
  intros Hwf Hg. split; try done.
  - intros h ρ j e Hh Hj He. by rewrite covered_none; [|by eapply path_range|lia].
  - lia.
  - by left.
  - intros h ρ j e Hh Hj He Hc. rewrite covered_none in Hc; [done|by eapply path_range|lia].
  - apply lookup_singleton_eq.
  - intros c ρ [-> <-]%lookup_singleton_Some. done.
  - by intros c k ρ [_ ?]%lookup_singleton_Some.
  - by intros c d ρ [<- _]%lookup_singleton_Some [<- _]%lookup_singleton_Some.
  - intros c ρ i [_ E]%lookup_singleton_Some. by destruct ρ.
  - intros c ρ j [_ <-]%lookup_singleton_Some Hj Hn. specialize (Hn eq_refl). lia.
Qed.

(** What an entry's update changes of the permissions. *)
Definition perms_grow s s' : Prop := ∀ k, v_perm s' !! k = v_perm s !! k ∨ (is_Some (v_perm s !! k) ∧ v_perm s' !! k = Some 1).

Lemma perms_grow_trans s1 s2 s3 : perms_grow s1 s2 → perms_grow s2 s3 → perms_grow s1 s3.
Proof.
  intros H1 H2 k. destruct (H2 k) as [E2|[S2 E2]], (H1 k) as [E1|[S1 E1]]; [left; congruence|right; split; congruence|right|by right].
  split; [by rewrite <- E1|done].
Qed.

Lemma perms_grow_set s s' k : perms_grow s s' → v_perm s !! k = Some 1 → v_perm s' !! k = Some 1.
Proof. intros H1 E. destruct (H1 k) as [-> |[_ ->]]; done. Qed.

(** One more entry, which maps a page (or nothing). *)
Lemma forked_page s s1 s2 π f g lv i e Q :
  source s → forked s s1 π g lv i Q → P !! f = Some π → P !! g = None → g mod 4096 = 0 → 0 ≤ i < 512 →
  word s f i = Some e → is_table (length π) e = false → let x := cow (v_usable1 s) e in
  word s2 f i = Some x → word s2 g i = Some x →
  (∀ c j, c mod 4096 = 0 → 0 ≤ j < 512 → (c, j) ≠ (f, i) → (c, j) ≠ (g, i) → word s2 c j = word s1 c j) →
  frames s2 = frames s1 → ttbr0_el1 s2 = ttbr0_el1 s1 ∧ ttbr1_el1 s2 = ttbr1_el1 s1 ∧ v_usable1 s2 = v_usable1 s1 → perms_grow s1 s2 →
  (Z.land e TABLE_ADDR_MASK < v_usable1 s → Z.land e PD_RDONLY = 0 → v_perm s2 !! (Z.land e TABLE_ADDR_MASK / PAGE_SIZE) = Some 1) →
  forked s s2 π g lv (i + 1) Q.
Proof.
  intros [Hwf Ht Hp] Hk Hf Hg Hga Hi He Hnt x Hx1 Hx2 Hsame Hfr Hregs Hgrow Hset. destruct Hk as [K1 K2 K3 K4 K5 K6 K7 K8 K9 K10 K11 K12 K13 K14].
  assert (Hfa : f mod 4096 = 0) by (by apply (pt_frame _ _ _ Hwf) in Hf as (_ & _ & _ & ?)).
  assert (Hno : ∀ h ρ j, P !! h = Some ρ → covered (π ++ [i]) 512 ρ j = false).
  { intros h ρ j Hh. destruct (covered (π ++ [i]) 512 ρ j) eqn:Ec; [|done]. apply covered_prefix in Ec as [β ->].
    rewrite valid_table in Hnt; [done| |by eapply (path_valid _ _ _ Hwf h f π i e β)].
    destruct (pt_frame _ _ _ Hwf h _ Hh) as [Hl _]. rewrite length_app in Hl. simpl in Hl. lia. }
  assert (Hcov : ∀ h ρ j, P !! h = Some ρ → 0 ≤ j < 512 → covered π (i + 1) ρ j = covered π i ρ j || bool_decide (ρ = π ∧ j = i)).
  { intros h ρ j Hh Hj. rewrite covered_succ by (done || lia || by eapply path_range). by rewrite (Hno h), orb_false_r. }
  assert (Hat : ∀ h j, P !! h = Some π → j = i → (h, j) = (f, i)) by (intros h j Hh ->; f_equal; by eapply (pt_inj _ _ _ Hwf)).
  assert (Hgp : ∀ c ρ j, P !! c = Some ρ → (c, j) ≠ (g, i)) by (intros c ρ j Hc [= -> _]; congruence).
  assert (Hpa : ∀ c ρ, P !! c = Some ρ → c mod 4096 = 0) by (intros c ρ Hc; by apply (pt_frame _ _ _ Hwf) in Hc as (_ & _ & _ & ?)).
  assert (Hqa : ∀ c ρ, Q !! c = Some ρ → c mod 4096 = 0 ∧ P !! c = None).
  { intros c ρ Hc. destruct (decide (ρ = [])) as [->|Hne]; [by rewrite (K12 c g [] Hc K9)|]. destruct (K10 c ρ Hc Hne) as (H1 & _ & _ & H2 & _).
    split; [done|]. destruct (P !! c) as [σ|] eqn:E; [|done]. by apply (pt_frame _ _ _ Hwf) in E as (_ & ? & _). }
  destruct K6 as (R1 & R2 & R3), Hregs as (R4 & R5 & R6). split.
  - intros h ρ j e0 Hh Hj He0. rewrite (Hcov h) by done. destruct (decide ((h, j) = (f, i))) as [[= -> ->]|Hne].
    + rewrite Hf in Hh. injection Hh as <-. rewrite He in He0. injection He0 as <-.
      rewrite bool_decide_true, orb_true_r by done. unfold fw. by rewrite Hnt.
    + rewrite bool_decide_false, orb_false_r by (intros [-> E]; by apply Hne, Hat). rewrite Hsame; eauto.
  - by rewrite Hfr.
  - rewrite Hfr. etrans; [exact K3|]. apply Nat.add_le_mono_l, tables_below_mono. lia.
  - intros c j Hc Ha Hcg Hcp Hj. rewrite Hsame; [by apply K4|done|done| |]; [intros [= -> _]; congruence|intros [= -> _]; done].
  - intros j Hj. destruct (decide (j = i)) as [->|Hne]; [by rewrite Hx2|]. rewrite Hsame; [by apply K5|done|done| |]; [intros [= ? ->]; congruence|congruence].
  - by rewrite R4, R5, R6.
  - by eapply (perms_grow_trans s s1 s2).
  - intros h ρ j e0 Hh Hj He0 Hc Hn0 Hlt Hro. rewrite (Hcov h) in Hc by done. apply orb_true_iff in Hc as [Hc|[-> ->]%bool_decide_eq_true].
    + apply (perms_grow_set s1 s2); [done|]. by apply (K8 h ρ j).
    + rewrite (pt_inj _ _ _ Hwf h f π Hh Hf), He in He0. injection He0 as <-. by apply Hset.
  - done.
  - intros c ρ Hc Hne. rewrite Hfr. by apply K10.
  - intros c k ρ Hc. specialize (K11 c k ρ Hc). lia.
  - done.
  - intros c ρ k Hc. destruct (K13 c ρ k Hc) as (Hk & b & e0 & Hb & He0 & Hv & Hm). split; [done|]. exists b, e0. split_and!; try done.
    destruct (Hqa b ρ Hb) as [Hba Hbp]. rewrite Hsame; try done; [intros [= -> _]; congruence|]. intros [= -> ->].
    assert (ρ = []) as -> by congruence. specialize (K11 c i [] Hc). lia.
  - intros c ρ j Hc Hj Hn. destruct (Hqa c ρ Hc) as [Hca Hcp]. destruct (decide ((c, j) = (g, i))) as [[= -> ->]|Hne].
    + assert (ρ = []) as -> by congruence. exists f, x, x. rewrite app_nil_r. split_and!; try done.
      unfold x. unfold is_table in *. rewrite cow_land by done. by rewrite Hnt.
    + assert (Hn' : ρ = [] → j < i). { intros ->. specialize (Hn eq_refl). assert (c = g) as -> by (by eapply K12). assert (j ≠ i) by congruence. lia. }
      destruct (K14 c ρ j Hc Hj Hn') as (h & e0 & e' & Hh & He0 & He' & Hif). exists h, e0, e'. split_and!; try done.
      * rewrite Hsame; [done|by eapply Hpa|done| |by eapply Hgp]. intros [= -> ->]. rewrite Hf in Hh. injection Hh as E.
        assert (ρ = []) as -> by (destruct ρ; [done|]; apply (f_equal length) in E; rewrite length_app in E; simpl in E; lia).
        specialize (Hn' eq_refl). lia.
      * rewrite Hsame; [done..| |done]. intros [= -> _]. congruence.
Qed.

(** A page that [malloc] returned, with its old contents. *)
Lemma wp_raw_page s (Q' : Z → vst → Prop) :
  room s 1 → let h := new_frame (frames s) in
  (∀ s', frames s' = {[h]} ∪ frames s → (∀ j, 0 ≤ j < 512 → is_Some (word s' h j)) →
     (∀ c j, c ≠ h → c mod 4096 = 0 → 0 ≤ j < 512 → word s' c j = word s c j) → same_regs s s' → Q' (p2v_trans_kernel h) s') →
  wp malloc_page Q' s.
Proof.
  intros Hroom h HQ. pose proof (new_frame_aligned (frames s)) as Hha. fold h in Hha.
  unfold malloc_page. wp_step. apply wp_get_st. wp_step. apply wp_modify. wp_step. fold h. apply HQ; try done.
  - intros j Hj. unfold word. simpl. apply lookup_union_is_Some. left. apply frame_words_Some. eauto.
  - intros c j Hc Ha Hj. unfold word. simpl. apply lookup_union_r. apply eq_None_not_Some.
    intros (k & Hk & E)%frame_words_Some. by destruct (cell_inj c h j k).
Qed.

(** Room for the tables below one entry. *)
Lemma tables_step s π i c : pt_wf s root P → 0 ≤ i < 512 → P !! c = Some (π ++ [i]) →
  (size (tables_below π i) + 1 + size (tables_below (π ++ [i]) 512) ≤ size (tables_below π (i + 1)))%nat.
Proof.
  intros Hwf Hi Hc. rewrite <- (size_singleton (C := gset Z) c), <- !size_union.
  - apply subseteq_size. intros d [[H1|H1]%elem_of_union|H1]%elem_of_union; apply elem_of_tables_below.
    + apply elem_of_tables_below in H1 as (ρ & H2 & H3). exists ρ. split; [done|]. eapply below_mono; [|exact H3]. lia.
    + apply elem_of_singleton in H1 as ->. exists (π ++ [i]). split; [done|]. apply (below_grandchild i); [lia|by eapply path_range|by right].
    + apply elem_of_tables_below in H1 as (ρ & H2 & H3). exists ρ. split; [done|]. apply (below_grandchild i); [lia|by eapply path_range|by left].
  - intros d [H1|H1]%elem_of_union (ρ & H2 & H3)%elem_of_tables_below; destruct (below_child i π ρ) as [H4 H5]; try done; try (by eapply path_range).
    + apply elem_of_tables_below in H1 as (σ & H6 & H7). congruence.
    + apply elem_of_singleton in H1 as ->. congruence.
  - intros d (ρ & H2 & H3)%elem_of_tables_below ->%elem_of_singleton. rewrite Hc in H2. injection H2 as <-. by rewrite below_self_child in H3.
Qed.

(** One more entry, which names a table: its copy is [R] at [h]. *)
Section Table.
Context (s s1 s2 s3 : vst) (π : list Z) (f g c0 h i e : Z) (lv : nat) (Q R : gmap Z (list Z)).
Hypothesis Hso : source s.
Hypothesis Hk : forked s s1 π g (S lv) i Q.
Hypothesis Hf : P !! f = Some π.
Hypothesis Hg : P !! g = None.
Hypothesis Hgf : g ∈ frames s.
Hypothesis Hga : g mod 4096 = 0.
Hypothesis Hi : 0 ≤ i < 512.
Hypothesis He : word s f i = Some e.
Hypothesis Het : is_table (length π) e = true.
Hypothesis Hc0 : P !! c0 = Some (π ++ [i]).
Hypothesis Hh : h ∉ frames s1.
Hypothesis Hhr : 0 < h < 2 ^ 47.
Hypothesis Hha : h mod 4096 = 0.
Hypothesis Hfr : frames s2 = {[h]} ∪ frames s1.
Hypothesis Hlink : word s2 g i = Some (Z.lor h PD_TABLE).
Hypothesis Hsame : ∀ c j, c ≠ h → c mod 4096 = 0 → 0 ≤ j < 512 → (c, j) ≠ (g, i) → word s2 c j = word s1 c j.
Hypothesis Hregs : same_regs s1 s2.
Hypothesis Hsub : forked s2 s3 (π ++ [i]) h lv 512 R.

Lemma P_frame c ρ : P !! c = Some ρ → c ∈ frames s ∧ c mod 4096 = 0 ∧ c ≠ g ∧ c ≠ h.
Proof.
  intros Hc. destruct (pt_frame _ _ _ (so_wf _ Hso) c ρ Hc) as (_ & H1 & _ & H2). split_and!; try done; [congruence|].
  intros ->. by apply Hh, (fk_frames _ _ _ _ _ _ _ Hk).
Qed.

Lemma P_range c ρ : P !! c = Some ρ → in_range ρ.
Proof. apply (path_range s). apply Hso. Qed.

Lemma g_not_h : g ≠ h.
Proof. intros ->. by apply Hh, (fk_frames _ _ _ _ _ _ _ Hk). Qed.

Lemma Q_frame c ρ : Q !! c = Some ρ → c mod 4096 = 0 ∧ c ∈ frames s1 ∧ c ≠ h ∧ P !! c = None.
Proof.
  intros Hc. destruct Hk as [K1 K2 K3 K4 K5 K6 K7 K8 K9 K10 K11 K12 K13 K14]. destruct (decide (ρ = [])) as [->|Hne].
  - rewrite (K12 c g [] Hc K9). split_and!; try done; [by apply K2|apply g_not_h].
  - destruct (K10 c ρ Hc Hne) as (H1 & H2 & _ & H3 & _). split_and!; try done; [intros ->; done|].
    destruct (P !! c) as [σ|] eqn:E; [|done]. by destruct (P_frame c σ E).
Qed.

Lemma R_frame c ρ : R !! c = Some ρ → (c ∉ frames s1) ∧ 0 < c < 2 ^ 47 ∧ c mod 4096 = 0 ∧ c ∈ frames s3 ∧ (length ρ ≤ lv)%nat.
Proof.
  intros Hc. destruct Hsub as [K1 K2 K3 K4 K5 K6 K7 K8 K9 K10 K11 K12 K13 K14]. destruct (decide (ρ = [])) as [->|Hne].
  - rewrite (K12 c h [] Hc K9). split_and!; [done|lia..|done| |simpl; lia]. apply K2. rewrite Hfr. set_solver.
  - destruct (K10 c ρ Hc Hne) as (H1 & H2 & H3 & H4 & H5). rewrite Hfr in H1. split_and!; [set_solver|lia..|done|done|done].
Qed.

Lemma QR_disjoint : Q ##ₘ (cons i <$> R).
Proof.
  apply map_disjoint_spec. intros c x y Hx (ρ & _ & Hy)%lookup_fmap_Some.
  destruct (Q_frame c x Hx) as (_ & H1 & _). by destruct (R_frame c ρ Hy).
Qed.

Lemma QR_cases c ρ : (Q ∪ (cons i <$> R)) !! c = Some ρ → Q !! c = Some ρ ∨ ∃ σ, ρ = i :: σ ∧ R !! c = Some σ.
Proof.
  intros [H1|H1]%lookup_union_Some; [by left| |apply QR_disjoint]. right. apply lookup_fmap_Some in H1 as (σ & <- & H1). by exists σ.
Qed.

Lemma QR_left c ρ : Q !! c = Some ρ → (Q ∪ (cons i <$> R)) !! c = Some ρ.
Proof. intros H1. apply lookup_union_Some; [apply QR_disjoint|by left]. Qed.

Lemma QR_right c ρ : R !! c = Some ρ → (Q ∪ (cons i <$> R)) !! c = Some (i :: ρ).
Proof. intros H1. apply lookup_union_Some; [apply QR_disjoint|right]. by rewrite lookup_fmap, H1. Qed.

(** Words of finished tables, and of the source, after the recursion. *)
Lemma Q_word c ρ j : Q !! c = Some ρ → 0 ≤ j < 512 → (c, j) ≠ (g, i) → word s3 c j = word s1 c j.
Proof.
  intros Hc Hj Hne. destruct (Q_frame c ρ Hc) as (H1 & H2 & H3 & H4).
  rewrite (fk_other _ _ _ _ _ _ _ Hsub) by (done || (rewrite Hfr; set_solver)). by apply Hsame.
Qed.

Lemma link_word : word s3 g i = Some (Z.lor h PD_TABLE).
Proof.
  rewrite (fk_other _ _ _ _ _ _ _ Hsub); [exact Hlink| |done|apply g_not_h|done|done].
  rewrite Hfr. apply elem_of_union_r. by apply (fk_frames _ _ _ _ _ _ _ Hk).
Qed.

Lemma P_word c ρ j x : P !! c = Some ρ → 0 ≤ j < 512 → word s c j = Some x →
  word s3 c j = Some (if covered π (i + 1) ρ j then fw (v_usable1 s) (length ρ) x else x).
Proof.
  intros Hc Hj Hx. destruct (P_frame c ρ Hc) as (H1 & H2 & H3 & H4). pose proof (fk_src _ _ _ _ _ _ _ Hk c ρ j x Hc Hj Hx) as E1.
  assert (E2 : word s2 c j = word s1 c j) by (apply Hsame; congruence). rewrite <- E2 in E1.
  pose proof (fk_src _ _ _ _ _ _ _ Hsub c ρ j _ Hc Hj E1) as E3. destruct (fk_regs _ _ _ _ _ _ _ Hk) as (_ & _ & U1), Hregs as (_ & _ & U2 & _).
  rewrite U2, U1 in E3. rewrite E3. f_equal. rewrite covered_succ by (done || lia || by eapply P_range).
  destruct (covered (π ++ [i]) 512 ρ j) eqn:Ec.
  - apply covered_child in Ec as [-> _]. done.
  - destruct (covered π i ρ j); [done|]. simpl. case_bool_decide as Eb; [|done]. destruct Eb as [-> ->].
    rewrite (pt_inj _ _ _ (so_wf _ Hso) c f π) in Hx by done. assert (x = e) as -> by congruence. unfold fw. by rewrite Het.
Qed.

Lemma link_ok : 0 ≤ Z.lor h PD_TABLE < 2 ^ 64 ∧ valid (Z.lor h PD_TABLE) = true ∧
  Z.land (Z.lor h PD_TABLE) PD_TABLE = PD_TABLE ∧ Z.land (Z.lor h PD_TABLE) TABLE_ADDR_MASK = h.
Proof.
  destruct (link_entry h [] ltac:(simpl; lia) Hhr Hha) as (L1 & L2 & _ & L4). split_and!; try done; [apply L1|apply L1|].
  apply mod0_divide in Hha as Hd; [|lia]. rewrite Z.land_lor_distr_l, (land_low_zero h 12 PD_TABLE); [done|lia|by vm_compute|exact Hd].
Qed.

Lemma table_perm : perms_grow s s3.
Proof.
  eapply perms_grow_trans; [exact (fk_perm _ _ _ _ _ _ _ Hk)|]. destruct Hregs as (_ & _ & _ & E).
  intros k. rewrite <- E. exact (fk_perm _ _ _ _ _ _ _ Hsub k).
Qed.

Lemma table_perm_set c ρ j x : P !! c = Some ρ → 0 ≤ j < 512 → word s c j = Some x → covered π (i + 1) ρ j = true → is_table (length ρ) x = false →
  Z.land x TABLE_ADDR_MASK < v_usable1 s → Z.land x PD_RDONLY = 0 → v_perm s3 !! (Z.land x TABLE_ADDR_MASK / PAGE_SIZE) = Some 1.
Proof.
  intros Hc Hj Hx Hcov Hnt Hlt Hro. destruct (P_frame c ρ Hc) as (H1 & H2 & H3 & H4). destruct (fk_regs _ _ _ _ _ _ _ Hk) as (_ & _ & U1), Hregs as (_ & _ & U2 & E).
  rewrite covered_succ in Hcov by (done || lia || by eapply P_range). apply orb_true_iff in Hcov as [[Hcov|Hcov]%orb_true_iff|[-> ->]%bool_decide_eq_true].
  - apply (perms_grow_set s2); [exact (fk_perm _ _ _ _ _ _ _ Hsub)|]. rewrite E. by apply (fk_perm_set _ _ _ _ _ _ _ Hk c ρ j).
  - apply (fk_perm_set _ _ _ _ _ _ _ Hsub c ρ j); try done; [|by rewrite U2, U1]. rewrite Hsame by (done || congruence).
    rewrite (fk_src _ _ _ _ _ _ _ Hk c ρ j x) by done. by apply covered_child in Hcov as [-> _].
  - rewrite (pt_inj _ _ _ (so_wf _ Hso) c f π) in Hx by done. congruence.
Qed.

Lemma forked_table : forked s s3 π g (S lv) (i + 1) (Q ∪ (cons i <$> R)).
Proof.
  destruct link_ok as (L1 & L2 & L3 & L4). pose proof link_word as Hl.
  pose proof (fk_frames _ _ _ _ _ _ _ Hk) as F1. pose proof (fk_frames _ _ _ _ _ _ _ Hsub) as F2. rewrite Hfr in F2.
  destruct (fk_regs _ _ _ _ _ _ _ Hk) as (T1 & T2 & T3), (fk_regs _ _ _ _ _ _ _ Hsub) as (T4 & T5 & T6), Hregs as (T7 & T8 & T9 & _).
  pose proof (fk_root _ _ _ _ _ _ _ Hk) as Hroot. pose proof (fk_root _ _ _ _ _ _ _ Hsub) as Hroot'. split.
  - exact P_word.
  - set_solver.
  - pose proof (fk_size _ _ _ _ _ _ _ Hk). pose proof (fk_size _ _ _ _ _ _ _ Hsub) as H2. rewrite Hfr, size_union, size_singleton in H2 by set_solver.
    pose proof (tables_step s π i c0 (so_wf _ Hso) Hi Hc0). lia.
  - intros c j Hc Ha Hcg Hcp Hj. assert (c ≠ h) by (intros ->; by apply Hh, F1).
    rewrite (fk_other _ _ _ _ _ _ _ Hsub) by (done || set_solver). rewrite Hsame by (done || congruence). by apply (fk_other _ _ _ _ _ _ _ Hk).
  - intros j Hj. destruct (decide (j = i)) as [->|]; [by eexists|]. rewrite (Q_word g []) by (done || congruence). by apply (fk_gw _ _ _ _ _ _ _ Hk).
  - split_and!; congruence.
  - exact table_perm.
  - exact table_perm_set.
  - by apply QR_left.
  - intros c ρ [Hc|(σ & -> & Hc)]%QR_cases Hne.
    + destruct (fk_new _ _ _ _ _ _ _ Hk c ρ Hc Hne) as (H1 & H2 & H3 & H4 & H5). split_and!; try done; [|lia..]. set_solver.
    + destruct (R_frame c σ Hc) as (H1 & H2 & H3 & H4 & H5). split_and!; try done; [set_solver|lia..|simpl; lia].
  - intros c k ρ [Hc|(σ & [= -> ->] & Hc)]%QR_cases; [pose proof (fk_head _ _ _ _ _ _ _ Hk c k ρ Hc)|]; lia.
  - intros c d ρ [Hc|(σ & -> & Hc)]%QR_cases [Hd|(τ & E & Hd)]%QR_cases.
    + by eapply (fk_inj _ _ _ _ _ _ _ Hk).
    + subst ρ. pose proof (fk_head _ _ _ _ _ _ _ Hk c i τ Hc). lia.
    + pose proof (fk_head _ _ _ _ _ _ _ Hk d i σ Hd). lia.
    + injection E as <-. by eapply (fk_inj _ _ _ _ _ _ _ Hsub).
  - intros c ρ k [Hc|(σ & E & Hc)]%QR_cases.
    + destruct (fk_up _ _ _ _ _ _ _ Hk c ρ k Hc) as (Hkr & b & x & Hb & Hx & Hv & Hm). split; [done|]. exists b, x. split_and!; try done; [by apply QR_left|].
      rewrite (Q_word b ρ); try done. intros [= -> ->]. assert (ρ = []) as -> by congruence. pose proof (fk_head _ _ _ _ _ _ _ Hk c i [] Hc). lia.
    + destruct ρ as [|k0 ρ]; injection E as E1 E2.
      * subst k σ. split; [done|]. exists g, (Z.lor h PD_TABLE). split_and!; try done; [by apply QR_left|]. rewrite L4. by eapply (fk_inj _ _ _ _ _ _ _ Hsub).
      * subst k0 σ. destruct (fk_up _ _ _ _ _ _ _ Hsub c ρ k Hc) as (Hkr & b & x & Hb & Hx & Hv & Hm). split; [done|]. exists b, x.
        split_and!; try done. by apply QR_right.
  - intros c ρ j [Hc|(σ & -> & Hc)]%QR_cases Hj Hn.
    + destruct (decide ((c, j) = (g, i))) as [[= -> ->]|Hne].
      * assert (ρ = []) as -> by congruence. exists f, e, (Z.lor h PD_TABLE). rewrite app_nil_r. split_and!; try done.
        -- rewrite (P_word f π i e) by done. rewrite covered_self. destruct (Z.ltb_spec i (i + 1)); [|lia]. unfold fw. by rewrite Het.
        -- rewrite Het. split_and!; [done|lia|lia|]. rewrite L4. by apply QR_right.
      * assert (Hn' : ρ = [] → j < i). { intros ->. specialize (Hn eq_refl). assert (c = g) as -> by (by eapply (fk_inj _ _ _ _ _ _ _ Hk)). assert (j ≠ i) by congruence. lia. }
        destruct (fk_copy _ _ _ _ _ _ _ Hk c ρ j Hc Hj Hn') as (b & x & x' & Hb & Hx & Hx' & Hif). exists b, x, x'. split_and!; try done.
        -- destruct (P_frame b _ Hb) as (B1 & B2 & B3 & B4). rewrite <- Hsame in Hx by (done || congruence). rewrite (fk_src _ _ _ _ _ _ _ Hsub b (π ++ ρ) j x) by done.
           destruct (covered (π ++ [i]) 512 (π ++ ρ) j) eqn:Ec; [|done]. exfalso. apply covered_prefix in Ec as [β E]. apply app_inv_head in E. subst ρ.
           pose proof (fk_head _ _ _ _ _ _ _ Hk c i β Hc). lia.
        -- by rewrite (Q_word c ρ).
        -- destruct (is_table _ x); [|done]. destruct Hif as (I1 & I2 & I3). split_and!; try done; [lia..|by apply QR_left].
    + destruct (fk_copy _ _ _ _ _ _ _ Hsub c σ j Hc Hj) as (b & x & x' & Hb & Hx & Hx' & Hif); [intros _; lia|]. exists b, x, x'.
      rewrite <- app_assoc in Hb, Hif. simpl in Hb, Hif. split_and!; try done. destruct (is_table _ x); [|done]. destruct Hif as (I1 & I2 & I3).
      split_and!; try done; [lia..|by apply QR_right].
Qed.
End Table.

(** ** The loop *)

(** The entry that the loop sees. *)
Lemma forked_word s s1 π f g lv i e Q :
  forked s s1 π g lv i Q → P !! f = Some π → 0 ≤ i < 512 → word s f i = Some e → word s1 f i = Some e.
Proof. intros Hk Hf Hi He. rewrite (fk_src _ _ _ _ _ _ _ Hk f π i e), covered_self by done. by rewrite (proj2 (Z.ltb_ge i i)) by lia. Qed.

Lemma wp_perm_set s a (Q' : unit → vst → Prop) :
  is_Some (v_perm s !! (a / PAGE_SIZE)) → Q' tt (set_perm (<[a / PAGE_SIZE := 1]> (v_perm s)) s) → wp (perm_set a) Q' s.
Proof. intros [x Ex] HQ. unfold perm_set. wp_step. apply wp_get_st. wp_step. apply (wp_deref _ x); [done|]. by wp_step. Qed.

(** Both updates of an entry that maps a page. *)
Lemma wp_fork_entry s f g i e (Q' : unit → vst → Prop) :
  0 ≤ f + 8 * i < 2 ^ 48 → 0 ≤ g + 8 * i < 2 ^ 48 → f + 8 * i ≠ g + 8 * i → word s f i = Some e → is_Some (word s g i) → has_perms s → 0 ≤ e < 2 ^ 64 →
  (∀ pm, let x := cow (v_usable1 s) e in perms_grow s (set_perm pm s) →
     (Z.land e TABLE_ADDR_MASK < v_usable1 s → Z.land e PD_RDONLY = 0 → pm !! (Z.land e TABLE_ADDR_MASK / PAGE_SIZE) = Some 1) →
     Q' tt (set_word g i x (set_word f i x (set_perm pm s)))) →
  wp (fork_entry (p2v_trans_kernel f) (p2v_trans_kernel g) i) Q' s.
Proof.
  intros Hf Hg Hne He Hgi Hp Hr HQ. unfold fork_entry. wp_step. apply (wp_load _ (f + 8 * i) e); [apply v2p_p2v; lia|done|].
  wp_step. apply wp_gets. set (a := Z.land e TABLE_ADDR_MASK) in *. destruct (mask_frame e Hr) as [Ha _]. fold a in Ha.
  assert (Hend : ∀ s1, words s1 !! (f + 8 * i) = Some (cow (v_usable1 s) e) → is_Some (words s1 !! (g + 8 * i)) →
    Q' tt (set_word g i (cow (v_usable1 s) e) s1) → wp (e ← load (p2v_trans_kernel f + 8 * i); store (p2v_trans_kernel g + 8 * i) e) Q' s1).
  { intros s1 E1 E2 HQ1. wp_step. apply (wp_load _ (f + 8 * i) (cow (v_usable1 s) e)); [apply v2p_p2v; lia|done|].
    apply (wp_store _ (g + 8 * i)); [apply v2p_p2v; lia|done|exact HQ1]. }
  assert (Hx : a < v_usable1 s → cow (v_usable1 s) e = Z.lor e PD_RDONLY) by (intros Hlt; unfold cow; fold a; by destruct (Z.ltb_spec a (v_usable1 s)); [|lia]).
  wp_step. destruct (Z.ltb_spec a (v_usable1 s)) as [Hlt|Hge].
  - assert (Hst : ∀ pm, (Z.land e PD_RDONLY = 0 → pm !! (a / PAGE_SIZE) = Some 1) → perms_grow s (set_perm pm s) →
      wp (e ← load (p2v_trans_kernel f + 8 * i); store (p2v_trans_kernel f + 8 * i) (Z.lor e PD_RDONLY))
        (λ _ s1, wp (e ← load (p2v_trans_kernel f + 8 * i); store (p2v_trans_kernel g + 8 * i) e) Q' s1) (set_perm pm s)).
    { intros pm Hpm Hgr. wp_step. apply (wp_load _ (f + 8 * i) e); [apply v2p_p2v; lia|done|].
      apply (wp_store _ (f + 8 * i)); [apply v2p_p2v; lia|by eexists|]. rewrite <- (Hx Hlt). apply Hend; simpl.
      - by rewrite lookup_insert_eq.
      - by rewrite lookup_insert_ne.
      - apply (HQ pm Hgr). intros _. exact Hpm. }
    wp_step. destruct (Z.eqb_spec (Z.land e PD_RDONLY) 0) as [E0|E0].
    + apply wp_perm_set; [apply Hp; lia|]. apply Hst; [intros _; apply lookup_insert_eq|]. intros k. simpl.
      destruct (decide (k = a / PAGE_SIZE)) as [->|]; [rewrite lookup_insert_eq; right; split; [apply Hp; lia|done]|]. rewrite lookup_insert_ne by done. by left.
    + wp_step. replace s with (set_perm (v_perm s) s) by (by destruct s). apply Hst; [done|]. intros k. by left.
  - wp_step. assert (Ex : cow (v_usable1 s) e = e) by (unfold cow; fold a; by destruct (Z.ltb_spec a (v_usable1 s)); [lia|]).
    apply Hend; [by rewrite Ex|done|]. assert (Es : s = set_word f i (cow (v_usable1 s) e) (set_perm (v_perm s) s)).
    { rewrite Ex. unfold set_word, set_words, set_perm. simpl. rewrite insert_id by done. by destruct s. }
    rewrite Es at 2. apply HQ; [intros k; by left|lia].
Qed.

(** The destination: a frame of its own. *)
Record target s g : Prop := mk_target {
  tg_frame : g ∈ frames s;
  tg_apart : P !! g = None;
  tg_range : 0 < g < 2 ^ 47;
  tg_aligned : g mod 4096 = 0;
  tg_words j : 0 ≤ j < 512 → is_Some (word s g j);
}.

(** One round for an entry that maps a page. *)
Lemma fork_page_round s s1 π f g lv i e Q (Q' : unit → vst → Prop) :
  source s → target s g → forked s s1 π g lv i Q → P !! f = Some π → 0 ≤ i < 512 → word s f i = Some e → is_table (length π) e = false →
  (∀ s2, forked s s2 π g lv (i + 1) Q → Q' tt s2) → wp (fork_entry (p2v_trans_kernel f) (p2v_trans_kernel g) i) Q' s1.
Proof.
  intros Hso [Hgf Hgp Hgr Hga Hgw] Hk Hf Hi He Hnt HQ. pose proof (forked_source _ _ _ _ _ _ _ Hso Hk) as Hso1. pose proof (so_wf _ Hso) as Hwf.
  destruct (pt_frame _ _ _ Hwf f π Hf) as (_ & Hff & Hfr & Hfa). assert (Hfg : f ≠ g) by congruence.
  destruct (pt_word _ _ _ Hwf f π i Hf Hi) as (e0 & He0 & Her). assert (e0 = e) as -> by congruence. destruct (fk_regs _ _ _ _ _ _ _ Hk) as (T1 & T2 & T3).
  assert (Hcell : ∀ c j d, c mod 4096 = 0 → 0 ≤ j < 512 → d mod 4096 = 0 → (c, j) ≠ (d, i) → c + 8 * j ≠ d + 8 * i).
  { intros c j d Hc Hj Hd Hne E. apply Hne. by destruct (cell_inj c d j i) as [-> ->]. }
  apply (wp_fork_entry s1 f g i e); try done; try lia.
  - by eapply forked_word.
  - by apply (fk_gw _ _ _ _ _ _ _ Hk).
  - apply Hso1.
  - intros pm x Hgrow Hset. rewrite T3 in Hset. assert (Ex : x = cow (v_usable1 s) e) by (unfold x; by rewrite T3). apply HQ. rewrite Ex.
    eapply (forked_page s s1 _ π f g lv i e); try done.
    + unfold word, set_word. simpl. rewrite lookup_insert_ne by lia. by rewrite lookup_insert_eq.
    + apply word_set_eq.
    + intros c j Hc Hj H1 H2. unfold word, set_word. simpl. rewrite !lookup_insert_ne by (apply not_eq_sym, Hcell; done). done.
Qed.

(** One round for an entry that names a table, given the recursive call. *)
Lemma fork_table_round s s1 π f g lv i e Q (Q' : unit → vst → Prop) :
  (∀ s2 h c, source s2 → target s2 h → P !! c = Some (π ++ [i]) → room s2 (size (tables_below (π ++ [i]) 512)) →
     wp (page_table_fork h c lv) (λ _ s3, ∃ R, forked s2 s3 (π ++ [i]) h lv 512 R) s2) →
  source s → target s g → forked s s1 π g (S lv) i Q → P !! f = Some π → (length π + S lv = 3)%nat → 0 ≤ i < 512 →
  word s f i = Some e → is_table (length π) e = true → room s (size (tables_below π 512)) →
  (∀ s3 R, forked s s3 π g (S lv) (i + 1) R → Q' tt s3) →
  wp (v ← malloc_page; store (p2v_trans_kernel g + 8 * i) (Z.lor (v2p_trans_kernel v) PD_TABLE) ;;
      page_table_fork (v2p_trans_kernel v) (Z.land e TABLE_ADDR_MASK) lv) Q' s1.
Proof.
  intros IH Hso Htg Hk Hf Hlen Hi He Het Hroom HQ. destruct Htg as [Hgf Hgp Hgr Hga Hgw]. pose proof (so_wf _ Hso) as Hwf.
  assert (Hv : valid e = true) by (rewrite <- (so_tidy _ Hso f π i e); [done|done|lia|done|done]).
  destruct (pt_next _ _ _ Hwf f π i e Hf ltac:(lia) Hi He Hv) as [_ Hc0]. set (c0 := Z.land e TABLE_ADDR_MASK) in *.
  pose proof (tables_step s π i c0 Hwf Hi Hc0) as Hstep. pose proof (tables_below_mono π (i + 1) 512 ltac:(lia)) as Hmono.
  pose proof (fk_size _ _ _ _ _ _ _ Hk) as Hsz. unfold room in Hroom. pose proof (forked_source _ _ _ _ _ _ _ Hso Hk) as Hso1.
  pose proof (fk_frames _ _ _ _ _ _ _ Hk) as Hsub. assert (Hr1 : room s1 1) by (unfold room; lia).
  set (h := new_frame (frames s1)). assert (Hh : h ∉ frames s1) by (apply new_frame_fresh; lia).
  pose proof (new_frame_range (frames s1)) as Hhr. pose proof (new_frame_aligned (frames s1)) as Hha. fold h in Hhr, Hha.
  wp_step. apply wp_raw_page; [done|]. fold h. intros sa Hfr Hwh Hsame Hregs. rewrite v2p_p2v_0 by lia.
  assert (Hgh : g ≠ h) by (intros ->; by apply Hh, Hsub).
  wp_step. apply (wp_store _ (g + 8 * i)); [apply v2p_p2v; lia|fold (word sa g i); rewrite (Hsame g i) by done; by apply (fk_gw _ _ _ _ _ _ _ Hk)|].
  set (s2 := set_words _ sa). assert (Hsame2 : ∀ c j, c ≠ h → c mod 4096 = 0 → 0 ≤ j < 512 → (c, j) ≠ (g, i) → word s2 c j = word s1 c j).
  { intros c j Hc Ha Hj Hne. rewrite <- Hsame by done. unfold word, s2. simpl. apply lookup_insert_ne. intros E. apply Hne. by destruct (cell_inj g c i j) as [-> ->]. }
  assert (HP : ∀ c ρ j, P !! c = Some ρ → 0 ≤ j < 512 → word s2 c j = word s1 c j).
  { intros c ρ j Hc Hj. destruct (pt_frame _ _ _ (so_wf _ Hso1) c ρ Hc) as (_ & Hcf & _ & Hca). apply Hsame2; try done; [intros ->; done|congruence]. }
  assert (Hso2 : source s2).
  { destruct Hso1 as [W1 W2 W3]. split.
    - destruct W1 as [A1 A2 A3 A4 A5 A6]. split; try done.
      + intros c ρ Hc. destruct (A2 c ρ Hc) as (? & ? & ? & ?). split_and!; try done; try lia. unfold s2. simpl. rewrite Hfr. set_solver.
      + intros c ρ j Hc Hj. rewrite (HP c ρ) by done. by apply (A3 c ρ).
      + intros c ρ j x Hc Hl Hj. rewrite (HP c ρ) by done. by apply A5.
      + intros c ρ j Hc. destruct (A6 c ρ j Hc) as (Hj & b & x & Hb & Hx & ?). split; [done|]. exists b, x. by rewrite (HP b ρ).
    - intros c ρ j x Hc Hl Hj. rewrite (HP c ρ) by done. by apply W2.
    - destruct Hregs as (_ & _ & U & V). intros a. unfold s2. simpl. rewrite U, V. apply W3. }
  eapply wp_mono; [apply (IH s2 h c0 Hso2); [|done|]|].
  - split; try done.
    + unfold s2. simpl. rewrite Hfr. set_solver.
    + destruct (P !! h) as [ρ|] eqn:E; [|done]. by apply (pt_frame _ _ _ (so_wf _ Hso1)) in E as (_ & ? & _).
    + intros j Hj. unfold word, s2. simpl. rewrite lookup_insert_ne; [by apply Hwh|]. intros E. by destruct (cell_inj g h i j) as [-> _].
  - unfold room, s2. simpl. rewrite Hfr, size_union, size_singleton by set_solver. lia.
  - intros [] s3 [R Hsubk]. eapply HQ, (forked_table s s1 s2 s3 π f g c0 h i e lv Q R); try done. unfold s2, word. simpl. by rewrite lookup_insert_eq.
Qed.

(** The 512 rounds. *)
Lemma fork_rounds s π f g lv body :
  source s → target s g → P !! f = Some π →
  (∀ s1 i e Q, forked s s1 π g lv i Q → 0 ≤ i < 512 → word s f i = Some e → wp (body i) (λ _ s2, ∃ R, forked s s2 π g lv (i + 1) R) s1) →
  wp (for_each (zseq 0 512) body) (λ _ s', ∃ Q, forked s s' π g lv 512 Q) s.
Proof.
  intros Hso Htg Hf Hbody.
  eapply wp_mono; [apply (wp_for_each (λ l s1, ∃ n Q, l = zseq n (Z.to_nat (512 - n)) ∧ 0 ≤ n ≤ 512 ∧ forked s s1 π g lv n Q))|].
  - exists 0, {[g := []]}. split_and!; [done|lia|lia|]. apply forked_start; [apply Hso|apply Htg].
  - intros i l s1 (n & Q & Hl & Hn & Hk). destruct (Z.to_nat (512 - n)) as [|m] eqn:Em; [done|]. cbn [zseq] in Hl. injection Hl as -> ->.
    destruct (pt_word _ _ _ (so_wf _ Hso) f π n Hf ltac:(lia)) as (e & He & _). eapply wp_mono; [apply (Hbody s1 n e Q); [done|lia|done]|].
    intros [] s2 [R Hk2]. exists (n + 1), R. split_and!; [f_equal; lia|lia|lia|done].
  - intros [] s1 (n & Q & Hl & Hn & Hk). assert (n = 512) as -> by (destruct (Z.to_nat (512 - n)) eqn:E; [lia|done]). by exists Q.
Qed.

Lemma fork_run lv : ∀ s π f g, source s → target s g → P !! f = Some π → (length π + lv = 3)%nat → room s (size (tables_below π 512)) →
  wp (page_table_fork g f lv) (λ _ s', ∃ Q, forked s s' π g lv 512 Q) s.
Proof.
  induction lv as [|lv IH]; intros s π f g Hso Htg Hf Hlen Hroom; cbn [page_table_fork]; apply (fork_rounds s π f g); try done;
    intros s1 i e Q Hk Hi He; destruct (pt_frame _ _ _ (so_wf _ Hso) f π Hf) as (_ & _ & Hfr & _); wp_step;
    (apply (wp_load _ (f + 8 * i) e); [apply v2p_p2v; lia|by eapply forked_word|]).
  - apply (fork_page_round s s1 π f g 0 i e Q); try done; [|by exists Q]. unfold is_table. by rewrite (proj2 (Nat.ltb_ge (length π) 3)) by lia.
  - assert (negb (Z.land e PD_TABLE =? 0) = is_table (length π) e) as -> by (unfold is_table; by rewrite (proj2 (Nat.ltb_lt (length π) 3)) by lia).
    destruct (is_table (length π) e) eqn:Het; [|apply (fork_page_round s s1 π f g (S lv) i e Q); try done; by exists Q].
    apply (fork_table_round s s1 π f g lv i e Q); try done; [|by intros s3 R Hk3; exists R].
    intros s2 h c Hso2 Htg2 Hc Hr2. apply IH; try done. rewrite length_app. simpl. lia.
Qed.

(** ** The finished copy *)

Section Finished.
Context (s s' : vst) (g : Z) (Q : gmap Z (list Z)).
Hypothesis Hso : source s.
Hypothesis Htg : target s g.
Hypothesis Hk : forked s s' [] g 3 512 Q.

Lemma copy_wf : pt_wf s' g Q.
Proof.
  pose proof (forked_source _ _ _ _ _ _ _ Hso Hk) as Hso'. pose proof (fk_root _ _ _ _ _ _ _ Hk) as Hr.
  assert (Hcopy : ∀ c ρ j, Q !! c = Some ρ → 0 ≤ j < 512 → ∃ h e e', P !! h = Some ρ ∧ word s' h j = Some e ∧ word s' c j = Some e' ∧
    (if is_table (length ρ) e then Z.land e' PD_TABLE = PD_TABLE ∧ 0 ≤ e' < 2 ^ 64 ∧ Q !! (Z.land e' TABLE_ADDR_MASK) = Some (ρ ++ [j]) else e' = e)).
  { intros c ρ j Hc Hj. apply (fk_copy _ _ _ _ _ _ _ Hk c ρ j Hc Hj). intros _. lia. }
  split; [done| | | | |].
  - intros c ρ Hc. destruct (decide (ρ = [])) as [->|Hne].
    + rewrite (fk_inj _ _ _ _ _ _ _ Hk c g [] Hc Hr). destruct Htg as [T1 T2 T3 T4 T5]. split_and!; try done; try lia; [simpl; lia|by apply (fk_frames _ _ _ _ _ _ _ Hk)].
    + by destruct (fk_new _ _ _ _ _ _ _ Hk c ρ Hc Hne) as (_ & H1 & H2 & H3 & H4).
  - intros c ρ j Hc Hj. destruct (Hcopy c ρ j Hc Hj) as (h & e & e' & Hh & He & He' & Hif). exists e'. split; [done|].
    destruct (is_table (length ρ) e); [by destruct Hif as (_ & ? & _)|]. subst e'. destruct (pt_word _ _ _ (so_wf _ Hso') h ρ j Hh Hj) as (x & Hx & Hxr). congruence.
  - exact (fk_inj _ _ _ _ _ _ _ Hk).
  - intros c ρ j x Hc Hl Hj Hx Hv. destruct (Hcopy c ρ j Hc Hj) as (h & e & e' & Hh & He & He' & Hif). assert (e' = x) as -> by congruence.
    destruct (is_table (length ρ) e) eqn:Et.
    + destruct Hif as (I1 & _ & I3). split; [|done]. intros E. assert (Z.land x 2 = Z.land (Z.land x PD_TABLE) 2) as E2 by (by rewrite <- Z.land_assoc).
      rewrite E, I1 in E2. done.
    + subst x. rewrite (so_tidy _ Hso' h ρ j e) in Et by done. congruence.
  - intros c ρ j Hc. exact (fk_up _ _ _ _ _ _ _ Hk c ρ j Hc).
Qed.

Lemma copy_resolve : ∀ idxs c h ρ, Q !! c = Some ρ → P !! h = Some ρ → (length ρ + length idxs = 4)%nat → in_range idxs →
  resolve s' c idxs = resolve s' h idxs.
Proof.
  pose proof (forked_source _ _ _ _ _ _ _ Hso Hk) as Hso'. pose proof (so_wf _ Hso') as Hwf'.
  induction idxs as [|j idxs IH]; intros c h ρ Hc Hh Hlen Hr; [done|]. assert (Hj : 0 ≤ j < 512) by (apply Hr; by left). simpl in Hlen.
  destruct (fk_copy _ _ _ _ _ _ _ Hk c ρ j Hc Hj ltac:(lia)) as (h' & e & e' & Hh' & He & He' & Hif). simpl in Hh', Hif.
  rewrite (pt_inj _ _ _ Hwf' h' h ρ) in He by done. destruct idxs as [|k idxs].
  - rewrite (resolve_one s' c j e'), (resolve_one s' h j e) by done. unfold is_table in Hif.
    rewrite (proj2 (Nat.ltb_ge (length ρ) 3)) in Hif by (simpl in Hlen; lia). simpl in Hif. by subst e'.
  - rewrite (resolve_cons s' c j k idxs e'), (resolve_cons s' h j k idxs e) by done. simpl in Hlen.
    destruct (is_table (length ρ) e) eqn:Et; [|by subst e'; rewrite (so_tidy _ Hso' h ρ j e) in Et by (done || lia); rewrite Et].
    destruct Hif as (I1 & _ & I3). assert (Hv : valid e = true) by (by rewrite <- (so_tidy _ Hso' h ρ j e) by (done || lia)).
    assert (Hv' : valid e' = true). { unfold valid. assert (Z.land e' 1 = Z.land (Z.land e' PD_TABLE) 1) as -> by (by rewrite <- Z.land_assoc). by rewrite I1. }
    rewrite Hv, Hv'. destruct (pt_next _ _ _ Hwf' h ρ j e Hh ltac:(lia) Hj He Hv) as [_ Hn].
    apply (IH _ _ (ρ ++ [j])); [done|done|rewrite length_app; simpl; lia|]. intros x Hx. apply Hr. by right.
Qed.

Lemma source_resolve : ∀ idxs h ρ, P !! h = Some ρ → (length ρ + length idxs = 4)%nat → in_range idxs →
  resolve s' h idxs = cow (v_usable1 s) <$> resolve s h idxs.
Proof.
  pose proof (so_wf _ Hso) as Hwf. induction idxs as [|j idxs IH]; intros h ρ Hh Hlen Hr; [done|].
  assert (Hj : 0 ≤ j < 512) by (apply Hr; by left). simpl in Hlen. destruct (pt_word _ _ _ Hwf h ρ j Hh Hj) as (e & He & _).
  pose proof (fk_src _ _ _ _ _ _ _ Hk h ρ j e Hh Hj He) as He'. rewrite covered_all in He' by (done || by eapply path_range). destruct idxs as [|k idxs].
  - rewrite (resolve_one s' h j _ He'), (resolve_one s h j e), fw_valid by done. destruct (valid e); [|done]. simpl. f_equal.
    unfold fw, is_table. by rewrite (proj2 (Nat.ltb_ge (length ρ) 3)) by (simpl in Hlen; lia).
  - rewrite (resolve_cons s' h j k idxs _ He'), (resolve_cons s h j k idxs e), fw_valid by done. destruct (valid e) eqn:Hv; [|done]. simpl in Hlen.
    rewrite fw_land by done. destruct (pt_next _ _ _ Hwf h ρ j e Hh ltac:(lia) Hj He Hv) as [_ Hn].
    apply (IH _ (ρ ++ [j])); [done|rewrite length_app; simpl; lia|]. intros x Hx. apply Hr. by right.
Qed.

(** The word that maps a page. *)
Lemma resolve_leaf : ∀ idxs f π e, P !! f = Some π → (length π + length idxs = 4)%nat → in_range idxs → resolve s f idxs = Some e →
  ∃ h ρ j, P !! h = Some ρ ∧ length ρ = 3%nat ∧ 0 ≤ j < 512 ∧ word s h j = Some e.
Proof.
  pose proof (so_wf _ Hso) as Hwf. induction idxs as [|j idxs IH]; intros f π e Hf Hlen Hr; [done|].
  assert (Hj : 0 ≤ j < 512) by (apply Hr; by left). destruct (pt_word _ _ _ Hwf f π j Hf Hj) as (w & Hw & _). simpl in Hlen. destruct idxs as [|k idxs].
  - rewrite (resolve_one s f j w) by done. destruct (valid w); [|done]. intros [= <-]. exists f, π, j. split_and!; try done; try lia. simpl in Hlen. lia.
  - rewrite (resolve_cons s f j k idxs w) by done. destruct (valid w) eqn:Hv; [|done]. simpl in Hlen.
    destruct (pt_next _ _ _ Hwf f π j w Hf ltac:(lia) Hj Hw Hv) as [_ Hn]. apply (IH _ (π ++ [j])); [done|rewrite length_app; simpl; lia|].
    intros x Hx. apply Hr. by right.
Qed.
End Finished.
End Fork.

(** C7: [page_table_fork] on a tree of tables ends without leaving the tables it
    copies: parent and child translate every page to the same entry, the
    parent's old one made read-only if it maps usable memory.  Both are trees
    of tables; those of the child are its top-level table and new frames.  A
    page that was writable is recorded as such, for copy-on-write. *)
Theorem page_table_fork_correct `{!PageAlloc} s root P d :
  source root P s → target P s d → room s (size (tables_below P [] 512)) →
  ∃ s' Q, page_table_fork d root 3 s = Ok (tt, s') ∧ pt_wf s' root P ∧ pt_wf s' d Q ∧
    (∀ p, translate s' root p = cow (v_usable1 s) <$> translate s root p) ∧
    (∀ p, translate s' d p = translate s' root p) ∧
    (∀ c ρ, Q !! c = Some ρ → c = d ∨ (c ∉ frames s) ∧ c ∈ frames s') ∧
    (∀ p e, translate s root p = Some e → Z.land e TABLE_ADDR_MASK < v_usable1 s → Z.land e PD_RDONLY = 0 →
       v_perm s' !! (Z.land e TABLE_ADDR_MASK / PAGE_SIZE) = Some 1) ∧
    (∀ c j, c ∈ frames s → c mod 4096 = 0 → c ≠ d → P !! c = None → 0 ≤ j < 512 → word s' c j = word s c j).
Proof.
  intros Hso Htg Hroom. pose proof (so_wf _ _ _ Hso) as Hwf.
  destruct (wp_unit _ _ s (fork_run root P 3 s [] root d Hso Htg (pt_root _ _ _ Hwf) eq_refl Hroom)) as (s' & Hrun & Q & Hk).
  exists s', Q. split; [done|]. split; [exact (so_wf _ _ _ (forked_source _ _ _ _ _ _ _ _ _ Hso Hk))|]. split; [exact (copy_wf root P s s' d Q Hso Htg Hk)|].
  split_and!.
  - intros p. apply (source_resolve root P s s' d Q Hso Hk _ root []); [apply Hwf|done|]. intros j. apply indices_range.
  - intros p. apply (copy_resolve root P s s' d Q Hso Hk _ d root []); [apply Hk|apply Hwf|done|]. intros j. apply indices_range.
  - intros c ρ Hc. destruct (decide (ρ = [])) as [->|Hne]; [left; exact (fk_inj _ _ _ _ _ _ _ _ Hk c d [] Hc (fk_root _ _ _ _ _ _ _ _ Hk))|right].
    by destruct (fk_new _ _ _ _ _ _ _ _ Hk c ρ Hc Hne) as (? & ? & _).
  - intros p e He Hlt Hro. destruct (resolve_leaf root P s Hso (indices p) root [] e (pt_root _ _ _ Hwf) eq_refl (indices_range p) He) as (h & ρ & j & Hh & Hl & Hj & Hw).
    apply (fk_perm_set _ _ _ _ _ _ _ _ Hk h ρ j); try done; [apply covered_all; [by eapply path_range|done]|]. unfold is_table. by rewrite Hl.
  - exact (fk_other _ _ _ _ _ _ _ _ Hk).
Qed.

(** ** A decision procedure for trees of tables *)

Definition entry_check (s : vst) (P : gmap Z (list Z)) (π : list Z) (f i : Z) : bool :=
  match word s f i with
  | None => false
  | Some e =>
      (0 <=? e) && (e <? 2 ^ 64) &&
      (if decide (length π < 3)%nat then
         if valid e then negb (Z.land e 2 =? 0) && bool_decide (P !! (Z.land e TABLE_ADDR_MASK) = Some (π ++ [i])) else Z.land e PD_TABLE =? 0
       else true)
  end.

Definition table_check (s : vst) (P : gmap Z (list Z)) (f : Z) (π : list Z) : bool :=
  bool_decide (length π ≤ 3)%nat && bool_decide (f ∈ frames s) && (0 <? f) && (f <? 2 ^ 47) && (f mod 4096 =? 0) && forallb (entry_check s P π f) (zseq 0 512).

(** The parent of a table, and the entry that names it. *)
Definition parent_check (s : vst) (P : gmap Z (list Z)) (c : Z) (π : list Z) : bool :=
  match last π with
  | None => true
  | Some i =>
      (0 <=? i) && (i <? 512) &&
      existsb (λ q, bool_decide (q.2 = removelast π) &&
        match word s q.1 i with Some e => valid e && (Z.land e TABLE_ADDR_MASK =? c) | None => false end) (map_to_list P)
  end.

Definition tree_check (s : vst) (root : Z) (P : gmap Z (list Z)) : bool :=
  bool_decide (P !! root = Some []) && bool_decide (NoDup (map_to_list P).*2) &&
  forallb (λ p, table_check s P p.1 p.2 && parent_check s P p.1 p.2) (map_to_list P).

Lemma entry_check_spec s P π f i : entry_check s P π f i = true → ∃ e, word s f i = Some e ∧ 0 ≤ e < 2 ^ 64 ∧
  ((length π < 3)%nat → if valid e then Z.land e 2 ≠ 0 ∧ P !! (Z.land e TABLE_ADDR_MASK) = Some (π ++ [i]) else Z.land e PD_TABLE = 0).
Proof.
  unfold entry_check. destruct (word s f i) as [e|]; [|done]. intros [[H1%Z.leb_le H2%Z.ltb_lt]%andb_true_iff H3]%andb_true_iff. exists e. split_and!; try done.
  intros Hl. rewrite decide_True in H3 by done. destruct (valid e); [|by apply Z.eqb_eq].
  apply andb_true_iff in H3 as [H4%negb_true_iff%Z.eqb_neq H5%bool_decide_eq_true]. done.
Qed.

Lemma table_check_spec s P f π : table_check s P f π = true →
  ((length π ≤ 3)%nat ∧ f ∈ frames s ∧ 0 < f < 2 ^ 47 ∧ f mod 4096 = 0) ∧ ∀ i, 0 ≤ i < 512 → entry_check s P π f i = true.
Proof.
  unfold table_check. rewrite !andb_true_iff, !bool_decide_eq_true, !Z.ltb_lt, Z.eqb_eq, forallb_forall.
  intros (((((H1 & H2) & H3) & H4) & H5) & H6). split; [done|]. intros i Hi. apply H6, list_elem_of_In, elem_of_zseq. lia.
Qed.

Lemma parent_check_spec s P c π i : parent_check s P c (π ++ [i]) = true →
  0 ≤ i < 512 ∧ ∃ f e, P !! f = Some π ∧ word s f i = Some e ∧ valid e = true ∧ Z.land e TABLE_ADDR_MASK = c.
Proof.
  unfold parent_check. rewrite last_snoc, removelast_last, !andb_true_iff, Z.leb_le, Z.ltb_lt. intros [Hi H]. split; [done|].
  apply List.existsb_exists in H as ([f ρ] & Hin & [H1%bool_decide_eq_true H2]%andb_true_iff). simpl in *. subst ρ. destruct (word s f i) as [e|] eqn:Ew; [|done].
  apply andb_true_iff in H2 as [H2 H3%Z.eqb_eq]. exists f, e. split_and!; try done. by apply elem_of_map_to_list, list_elem_of_In.
Qed.

Lemma tree_check_spec s root P : tree_check s root P = true → pt_wf s root P ∧ tidy P s.
Proof.
  unfold tree_check. rewrite !andb_true_iff, !bool_decide_eq_true, forallb_forall. intros ((H1 & H2) & H3).
  assert (Ht : ∀ f π, P !! f = Some π → table_check s P f π = true ∧ parent_check s P f π = true).
  { intros f π Hf. apply andb_true_iff. by apply (H3 (f, π)), list_elem_of_In, elem_of_map_to_list. }
  assert (He : ∀ f π i, P !! f = Some π → 0 ≤ i < 512 → ∃ e, word s f i = Some e ∧ 0 ≤ e < 2 ^ 64 ∧
    ((length π < 3)%nat → if valid e then Z.land e 2 ≠ 0 ∧ P !! (Z.land e TABLE_ADDR_MASK) = Some (π ++ [i]) else Z.land e PD_TABLE = 0)).
  { intros f π i Hf Hi. destruct (Ht f π Hf) as [H4 _]. destruct (table_check_spec _ _ _ _ H4) as [_ H5]. by apply entry_check_spec, H5. }
  split; [split; [done| | | | |]|].
  - intros f π Hf. destruct (Ht f π Hf) as [H4 _]. exact (proj1 (table_check_spec _ _ _ _ H4)).
  - intros f π i Hf Hi. destruct (He f π i Hf Hi) as (e & ? & ? & _). by exists e.
  - intros f g π Hf Hg. apply elem_of_map_to_list, list_elem_of_lookup in Hf as [a Ha]. apply elem_of_map_to_list, list_elem_of_lookup in Hg as [b Hb].
    assert (a = b) as <-; [|congruence]. eapply (NoDup_lookup _ _ _ π H2); rewrite list_lookup_fmap; [by rewrite Ha|by rewrite Hb].
  - intros f π i e Hf Hl Hi Hw Hv. destruct (He f π i Hf Hi) as (e' & Hw' & _ & Hc). assert (e' = e) as -> by congruence. specialize (Hc Hl). by rewrite Hv in Hc.
  - intros c π i Hc. destruct (Ht c _ Hc) as [_ H4]. by apply parent_check_spec.
  - intros f π i e Hf Hl Hi Hw. destruct (He f π i Hf Hi) as (e' & Hw' & _ & Hc). assert (e' = e) as -> by congruence. specialize (Hc Hl).
    destruct (valid e) eqn:Hv; [by apply valid_table|]. unfold is_table. by rewrite Hc, andb_false_r.
Qed.

(** ** A process with one page *)

(** The tables at 0x5000, ..., 0x8000 map page 0 to the frame 0x10000; the
    frame 0x9000 is free for a copy. *)
Definition link_words (f next : Z) : gmap Z Z := frame_words f (λ a, if a =? f then Z.lor next PD_TABLE else 0).

Definition one_page : vst :=
  mk_vst (link_words 0x5000 0x6000 ∪ link_words 0x6000 0x7000 ∪ link_words 0x7000 0x8000 ∪ link_words 0x8000 0x10000 ∪
          frame_words 0x9000 (λ _, 0) ∪ frame_words 0x10000 (λ a, a))
    {[0x5000; 0x6000; 0x7000; 0x8000; 0x9000; 0x10000]} 0x5000 0 0x20000 (list_to_map ((λ i, (i, 0)) <$> zseq 0 32)).

Definition one_page_tree : gmap Z (list Z) := {[0x5000 := []; 0x6000 := [0]; 0x7000 := [0; 0]; 0x8000 := [0; 0; 0]]}.

Lemma one_page_source : source 0x5000 one_page_tree one_page.
Proof.
  destruct (tree_check_spec one_page 0x5000 one_page_tree) as [H1 H2]; [by vm_compute|]. split; [done|done|].
  assert (Hall : Forall (λ k, is_Some (v_perm one_page !! k)) (zseq 0 32)) by (apply (bool_decide_unpack _); by vm_compute).
  intros a Ha. change (v_usable1 one_page) with 0x20000 in Ha. rewrite Forall_forall in Hall. apply Hall, elem_of_zseq.
  change PAGE_SIZE with 4096. Z.div_mod_to_equations. lia.
Qed.

Lemma one_page_target : target one_page_tree one_page 0x9000.
Proof.
  split; [by vm_compute|done|lia|done|]. intros j Hj. unfold word. apply lookup_union_is_Some. left. apply lookup_union_is_Some. right. apply frame_words_Some. eauto.
Qed.

Lemma page_table_fork_correct_witness :
  let _ := low_frames in
  ∃ s', page_table_fork 0x9000 0x5000 3 one_page = Ok (tt, s') ∧ translate s' 0x9000 0 = Some 0x10083 ∧ translate s' 0x5000 0 = Some 0x10083.
Proof.
  intros ?. destruct (page_table_fork_correct (H := low_frames) one_page 0x5000 one_page_tree 0x9000 one_page_source one_page_target)
    as (s' & Q & Hrun & _ & _ & H1 & H2 & _); [by vm_compute; repeat constructor|].
  exists s'. split; [exact Hrun|]. rewrite H2, H1. split; by vm_compute.
Defined.
