(* ===== verification/Process.v ===== *)
(** * Processes and scheduling (process.c, signal.c, part of syscall.c)

    A process control block lives at an address; the queues hold such
    addresses.  The queues are the sequences that KListThm proves list.c to
    implement ([list_push] appends, [list_pop] takes the head, ...), so this
    file works on sequences.  The hardware context that [switch_to],
    [save_regs] and [load_regs] (thread.S) exchange is a record [hw]. *)

From S2P Require Import Prelude Cpu KList.

(** ** Data (include/kernel/process.h) *)

Inductive stat := RUN | READY | WAIT | DEAD.
Inductive event := PROC | R | W.
Inductive sec := TEXT | HEAP | STACK | DEVICE.

#[export] Instance stat_eq_dec : EqDecision stat.
Proof. solve_decision. Defined.
#[export] Instance event_eq_dec : EqDecision event.
Proof. solve_decision. Defined.
#[export] Instance sec_eq_dec : EqDecision sec.
Proof. solve_decision. Defined.

Record section := mk_section { s_type : sec; s_base : Z; s_size : Z }.

Definition MAX_PROC : Z := 1024.
Definition STACK_EL1_SIZE : Z := Z.shiftl 1 13.
Definition MAX_NUM_FD : Z := 16.
Definition NSIG : Z := 64.
Definition EL0_W_DAIF : Z := 0.
Definition EL1H_W_DAIF : Z := 5.
Definition SIG_DFL : Z := 0.
Definition SIG_IGN : Z := 1.

(** Code addresses: NULL, a kernel function or label, a user address. *)
Inductive code_ptr := C_null | C_fn (name : string) | C_usr (a : Z).

Definition out_label : code_ptr := C_fn "switch_to_next.out".

(** x19 to x28, fp, lr and sp *)
Record regs := mk_regs { r_x : list Z; r_fp : Z; r_lr : code_ptr; r_sp : Z }.

Record pcb := mk_pcb {
  pid : Z;
  args : Z;
  el : Z;
  reg : regs;
  reg_backup : regs;
  sp_el0 : Z;
  sp_el0_backup : Z;
  pc : code_ptr;
  stack1 : Z;
  state : stat;
  wait_q : option event;
  pstate : Z;
  code : Z;
  wait_data : Z;
  sig_handler : list Z;
  signal_queue : list Z;   (* the numbers in the allocated [int]s *)
  sections : list section;
  ttbr : Z;
  cur_dir : Z;
  fd_table : list Z;
  fd_bitmap : Z;
}.

Record hw := mk_hw {
  h_reg : regs;
  h_pc : code_ptr;
  h_pstate : Z;
  h_args : Z;
  h_ttbr0 : Z;
  h_ttbr1 : Z;
  h_sp_el0 : Z;
}.

Inductive qid := Ready | Dead | Wait (e : event).

#[export] Instance qid_eq_dec : EqDecision qid.
Proof. solve_decision. Defined.

Definition qid_code (q : qid) : nat :=
  match q with Ready => 0 | Dead => 1 | Wait PROC => 2 | Wait R => 3 | Wait W => 4 end.
Definition qid_decode (n : nat) : qid :=
  match n with 0%nat => Ready | 1%nat => Dead | 2%nat => Wait PROC | 3%nat => Wait R | _ => Wait W end.
#[export] Instance qid_countable : Countable qid.
Proof. apply (inj_countable' qid_code qid_decode). by intros [| |[| |]]. Defined.

Record ps := mk_ps {
  p_cpu : cpu;
  pcbs : gmap Z pcb;
  pcb_table : gmap Z Z;      (* 0 is NULL *)
  current : Z;
  queues : gmap qid (list Z);
  last_pid : Z;
  allocs : gset Z;           (* addresses malloc and calloc handed out *)
  hws : hw;
  rootdir : Z;               (* rootfs->root *)
}.

Definition set_pcpu c s := mk_ps c (pcbs s) (pcb_table s) (current s) (queues s) (last_pid s) (allocs s) (hws s) (rootdir s).
Definition set_pcbs m s := mk_ps (p_cpu s) m (pcb_table s) (current s) (queues s) (last_pid s) (allocs s) (hws s) (rootdir s).
Definition set_table t s := mk_ps (p_cpu s) (pcbs s) t (current s) (queues s) (last_pid s) (allocs s) (hws s) (rootdir s).
Definition set_cur p s := mk_ps (p_cpu s) (pcbs s) (pcb_table s) p (queues s) (last_pid s) (allocs s) (hws s) (rootdir s).
Definition set_queues q s := mk_ps (p_cpu s) (pcbs s) (pcb_table s) (current s) q (last_pid s) (allocs s) (hws s) (rootdir s).
Definition set_last_pid i s := mk_ps (p_cpu s) (pcbs s) (pcb_table s) (current s) (queues s) i (allocs s) (hws s) (rootdir s).
Definition set_allocs a s := mk_ps (p_cpu s) (pcbs s) (pcb_table s) (current s) (queues s) (last_pid s) a (hws s) (rootdir s).
Definition set_hw h s := mk_ps (p_cpu s) (pcbs s) (pcb_table s) (current s) (queues s) (last_pid s) (allocs s) h (rootdir s).

Definition p_on_cpu {A} (m : M cpu A) : M ps A := zoom p_cpu set_pcpu m.

Definition pcb_get (p : Z) : M ps pcb := s ← get_st; deref (pcbs s !! p).
Definition pcb_upd (p : Z) (f : pcb → pcb) : M ps unit :=
  b ← pcb_get p; modify (λ s, set_pcbs (<[p := f b]> (pcbs s)) s).

(** Field updates of a block. *)
Definition with_reg r b := mk_pcb (pid b) (args b) (el b) r (reg_backup b) (sp_el0 b) (sp_el0_backup b) (pc b)
  (stack1 b) (state b) (wait_q b) (pstate b) (code b) (wait_data b) (sig_handler b) (signal_queue b) (sections b)
  (ttbr b) (cur_dir b) (fd_table b) (fd_bitmap b).
Definition with_backup r sp b := mk_pcb (pid b) (args b) (el b) (reg b) r (sp_el0 b) sp (pc b)
  (stack1 b) (state b) (wait_q b) (pstate b) (code b) (wait_data b) (sig_handler b) (signal_queue b) (sections b)
  (ttbr b) (cur_dir b) (fd_table b) (fd_bitmap b).
Definition with_sp_el0 sp b := mk_pcb (pid b) (args b) (el b) (reg b) (reg_backup b) sp (sp_el0_backup b) (pc b)
  (stack1 b) (state b) (wait_q b) (pstate b) (code b) (wait_data b) (sig_handler b) (signal_queue b) (sections b)
  (ttbr b) (cur_dir b) (fd_table b) (fd_bitmap b).
Definition with_pc c b := mk_pcb (pid b) (args b) (el b) (reg b) (reg_backup b) (sp_el0 b) (sp_el0_backup b) c
  (stack1 b) (state b) (wait_q b) (pstate b) (code b) (wait_data b) (sig_handler b) (signal_queue b) (sections b)
  (ttbr b) (cur_dir b) (fd_table b) (fd_bitmap b).
Definition with_state st b := mk_pcb (pid b) (args b) (el b) (reg b) (reg_backup b) (sp_el0 b) (sp_el0_backup b) (pc b)
  (stack1 b) st (wait_q b) (pstate b) (code b) (wait_data b) (sig_handler b) (signal_queue b) (sections b)
  (ttbr b) (cur_dir b) (fd_table b) (fd_bitmap b).
Definition with_wait q d b := mk_pcb (pid b) (args b) (el b) (reg b) (reg_backup b) (sp_el0 b) (sp_el0_backup b) (pc b)
  (stack1 b) (state b) q (pstate b) (code b) d (sig_handler b) (signal_queue b) (sections b)
  (ttbr b) (cur_dir b) (fd_table b) (fd_bitmap b).
Definition with_pstate v b := mk_pcb (pid b) (args b) (el b) (reg b) (reg_backup b) (sp_el0 b) (sp_el0_backup b) (pc b)
  (stack1 b) (state b) (wait_q b) v (code b) (wait_data b) (sig_handler b) (signal_queue b) (sections b)
  (ttbr b) (cur_dir b) (fd_table b) (fd_bitmap b).
Definition with_handlers h b := mk_pcb (pid b) (args b) (el b) (reg b) (reg_backup b) (sp_el0 b) (sp_el0_backup b) (pc b)
  (stack1 b) (state b) (wait_q b) (pstate b) (code b) (wait_data b) h (signal_queue b) (sections b)
  (ttbr b) (cur_dir b) (fd_table b) (fd_bitmap b).
Definition with_signals l b := mk_pcb (pid b) (args b) (el b) (reg b) (reg_backup b) (sp_el0 b) (sp_el0_backup b) (pc b)
  (stack1 b) (state b) (wait_q b) (pstate b) (code b) (wait_data b) (sig_handler b) l (sections b)
  (ttbr b) (cur_dir b) (fd_table b) (fd_bitmap b).
Definition with_sections l b := mk_pcb (pid b) (args b) (el b) (reg b) (reg_backup b) (sp_el0 b) (sp_el0_backup b) (pc b)
  (stack1 b) (state b) (wait_q b) (pstate b) (code b) (wait_data b) (sig_handler b) (signal_queue b) l
  (ttbr b) (cur_dir b) (fd_table b) (fd_bitmap b).

(** ** Queues *)

Definition queue (s : ps) (q : qid) : list Z := default [] (queues s !! q).
Definition set_queue (q : qid) (l : list Z) (s : ps) : ps := set_queues (<[q := l]> (queues s)) s.

Definition list_empty (q : qid) : M ps bool := s ← get_st; mret (bool_decide (queue s q = [])).
Definition list_push (q : qid) (ptr : Z) : M ps unit := modify (λ s, set_queue q (queue s q ++ [ptr]) s).
Definition list_pop (q : qid) : M ps Z :=
  s ← get_st;
  match queue s q with
  | [] => mret 0
  | p :: l => modify (set_queue q l) ;; mret p
  end.

Definition list_delete (q : qid) (ptr : Z) : M ps unit :=
  s ← get_st;
  match remove_first ptr (queue s q) with
  | Some l => modify (set_queue q l)
  | None => p_on_cpu (err ("Node not found" +:+ crlf))
  end.

(** [list_rm_and_process]: the elements that stay. *)
Fixpoint rm_loop (l : list Z) (match_ : Z → M ps bool) (op : Z → M ps unit) : M ps (list Z) :=
  match l with
  | [] => mret []
  | p :: l' =>
      m ← match_ p;
      (if (m : bool) then op p else mret tt) ;;
      rest ← rm_loop l' match_ op;
      mret (if (m : bool) then rest else p :: rest)
  end.

Definition list_rm_and_process (q : qid) (match_ : Z → M ps bool) (op : Z → M ps unit) : M ps unit :=
  s ← get_st;
  l ← rm_loop (queue s q) match_ op;
  modify (set_queue q l).

(** ** process.c *)

Section Alloc.
Context `{!NodeAlloc}.

(** [malloc] and [calloc]: an address that is not in use. *)
Definition p_malloc : M ps Z :=
  s ← get_st;
  let a := fresh_addr (allocs s) in
  modify (set_allocs ({[a]} ∪ allocs s)) ;; mret a.

Definition p_free (a : Z) : M ps unit :=
  s ← get_st;
  assert (bool_decide (a ∈ allocs s)) ;;
  modify (set_allocs (allocs s ∖ {[a]})).

Definition table_get (i : Z) : M ps Z := s ← get_st; deref (pcb_table s !! i).
Definition table_set (i p : Z) : M ps unit := _ ← table_get i; modify (λ s, set_table (<[i := p]> (pcb_table s)) s).

(** The search for a free slot in [thread_create]. *)
Fixpoint find_pid (fuel : nat) (pid last : Z) : M ps (option Z) :=
  match fuel with
  | O => spin
  | S fuel' =>
      e ← table_get pid;
      if e =? 0 then mret (Some pid)
      else if pid =? last then mret None
      else find_pid fuel' (pid + 1) last
  end.

Definition zero_regs : regs := mk_regs (replicate 10 0) 0 C_null 0.

(** The block of a new kernel thread. *)
Definition new_thread (pid : Z) (func : code_ptr) (args ttbr1 stack root : Z) : pcb :=
  mk_pcb pid args 1 (mk_regs (replicate 10 0) stack (C_fn "exit") stack) zero_regs 0 0 func stack READY None
    EL1H_W_DAIF 0 0 (replicate 64 SIG_DFL) [] [] ttbr1 root (replicate 16 0) 0.

Definition thread_create (func : code_ptr) (args : Z) : M ps Z :=
  p_on_cpu disable_int ;;
  last ← gets last_pid;
  r ← find_pid 1025 (Z.rem (last + 1) MAX_PROC) last;
  match r with
  | None => p_on_cpu enable_int ;; p_on_cpu (err ("Cannot create more threads" +:+ crlf)) ;; mret (-1)
  | Some pid =>
      p ← p_malloc;
      stack ← p_malloc;
      s ← get_st;
      modify (set_pcbs (<[p := new_thread pid func args (h_ttbr1 (hws s)) (stack + STACK_EL1_SIZE) (rootdir s)]> (pcbs s))) ;;
      table_set pid p ;;
      modify (set_last_pid pid) ;;
      list_push Ready p ;;
      p_on_cpu enable_int ;;
      mret pid
  end.

(** The block of the boot thread; [uart] is the console's open file, if
    [vfs_open] succeeded. *)
Definition init_pcb (estack fp : Z) (uart : option Z) : M ps unit :=
  p ← p_malloc;
  s ← get_st;
  let fds := match uart with Some f => f :: f :: f :: replicate 13 0 | None => replicate 16 0 end in
  let bm := match uart with Some _ => 7 | None => 0 end in
  modify (set_pcbs (<[p := mk_pcb 0 0 1 (mk_regs (replicate 10 0) fp (C_fn "exit") estack) zero_regs 0 0
    (C_fn "idle") estack RUN None EL1H_W_DAIF 0 0 (replicate 64 SIG_DFL) [] [] (h_ttbr1 (hws s)) (rootdir s) fds bm]> (pcbs s))) ;;
  table_set 0 p ;;
  modify (set_cur p).

(** The start of [main]: the boot process, which becomes the shell, and the
    idle thread. *)
Definition start_processes (estack fp : Z) (uart : option Z) : M ps Z :=
  init_pcb estack fp uart ;;
  thread_create (C_fn "idle") 0.
End Alloc.

(** ** Context switches (thread.S) *)

Definition hw_upd (f : hw → hw) : M ps unit := modify (λ s, set_hw (f (hws s)) s).

(** [save_regs] with the values it is given for fp, lr and sp. *)
Definition save_regs (p fp sp : Z) (lr : code_ptr) : M ps unit :=
  s ← get_st;
  pcb_upd p (with_reg (mk_regs (r_x (h_reg (hws s))) fp lr sp)).

Definition load_regs (r : regs) (next_pc : code_ptr) (next_pstat next_args next_ttbr : Z) : M ps unit :=
  hw_upd (λ h, mk_hw r next_pc next_pstat next_args next_ttbr (h_ttbr1 h) (h_sp_el0 h)).

Definition switch_to (prev : Z) (next : pcb) : M ps unit :=
  s ← get_st;
  pcb_upd prev (with_reg (h_reg (hws s))) ;;
  load_regs (reg next) (pc next) (pstate next) (args next) (ttbr next).

(** [default_sig_handler] *)
Definition default_sig_handler (signo : Z) : code_ptr := if signo =? 9 then C_fn "exit" else C_null.

(** Entering a handler: the registers of the block are kept in its backup. *)
Definition enter_handler (prev nextp : Z) (next : pcb) (ret handler : code_ptr) (pstat : Z) : M ps unit :=
  s ← get_st;
  save_regs prev (r_fp (h_reg (hws s))) (r_sp (h_reg (hws s))) out_label ;;
  next ← pcb_get nextp;
  let r := mk_regs (r_x (reg next)) (r_fp (reg next)) ret (r_sp (reg next)) in
  pcb_upd nextp (with_reg r) ;;
  p_on_cpu enable_int ;;
  load_regs r handler pstat 0 (ttbr next).

Definition switch_to_next (prev : Z) : M ps unit :=
  nextp ← list_pop Ready;
  p_on_cpu disable_int ;;
  pcb_upd prev (with_pc out_label) ;;
  pcb_upd nextp (with_state RUN) ;;
  modify (set_cur nextp) ;;
  next ← pcb_get nextp;
  (if el next =? 0 then hw_upd (λ h, mk_hw (h_reg h) (h_pc h) (h_pstate h) (h_args h) (h_ttbr0 h) (h_ttbr1 h) (sp_el0 next))
   else mret tt) ;;
  match signal_queue next with
  | [] => p_on_cpu enable_int ;; switch_to prev next
  | signo :: rest =>
      pcb_upd nextp (with_signals rest) ;;
      handler ← deref (if bool_decide (0 ≤ signo) then sig_handler next !! Z.to_nat signo else None);
      pcb_upd nextp (with_backup (reg next) (sp_el0 next)) ;;
      if handler =? SIG_DFL then
        enter_handler prev nextp next (C_fn "sigreturn") (default_sig_handler signo) EL1H_W_DAIF
      else if handler =? SIG_IGN then
        p_on_cpu enable_int ;; switch_to prev next
      else
        enter_handler prev nextp next (C_fn "_sigreturn") (C_usr handler) EL0_W_DAIF
  end.

(** What [schedule], [wait] save of a user process before it leaves. *)
Definition leave_el0 (p : Z) : M ps unit :=
  b ← pcb_get p;
  s ← get_st;
  (if el b =? 0 then pcb_upd p (with_sp_el0 (h_sp_el0 (hws s))) else mret tt) ;;
  pcb_upd p (with_pstate EL1H_W_DAIF).

Definition schedule : M ps unit :=
  e ← list_empty Ready;
  if (e : bool) then mret tt
  else
    p_on_cpu disable_int ;;
    prev ← gets current;
    pcb_upd prev (with_state READY) ;;
    list_push Ready prev ;;
    leave_el0 prev ;;
    p_on_cpu enable_int ;;
    switch_to_next prev.

Definition wait (e : event) (data : Z) : M ps unit :=
  p ← gets current;
  p_on_cpu disable_int ;;
  pcb_upd p (λ b, with_wait (Some e) data (with_state WAIT b)) ;;
  list_push (Wait e) p ;;
  leave_el0 p ;;
  p_on_cpu enable_int ;;
  none ← list_empty Ready;
  if (none : bool) then mret tt else switch_to_next p.

Definition wait_to_ready (p : Z) : M ps unit :=
  p_on_cpu disable_int ;;
  pcb_upd p (λ b, with_wait None 0 (with_state READY b)) ;;
  list_push Ready p ;;
  p_on_cpu enable_int.

(** The wake-up in [tx_int_task] and [rx_int_task]: the first waiter, if
    [avail] bytes are enough for it. *)
Definition wake_first (e : event) (avail : Z) : M ps unit :=
  none ← list_empty (Wait e);
  if (none : bool) then mret tt
  else
    s ← get_st;
    b ← pcb_get (hd 0 (queue s (Wait e)));
    if wait_data b <=? avail then p ← list_pop (Wait e); wait_to_ready p else mret tt.

(** ** syscall.c: exit and kill *)

Definition match_pid (pid : Z) (p : Z) : M ps bool :=
  b ← pcb_get p; mret (i32 (wait_data b) =? pid).

Definition die (q : option qid) (p : Z) : M ps unit :=
  (match q with Some q => list_delete q p | None => mret tt end) ;;
  pcb_upd p (with_state DEAD) ;;
  list_push Dead p ;;
  b ← pcb_get p;
  list_rm_and_process (Wait PROC) (match_pid (pid b)) wait_to_ready.

(** The result says whether control went to another context. *)
Definition exit : M ps bool :=
  p ← gets current;
  b ← pcb_get p;
  if decide (state b = DEAD) then mret false
  else
    p_on_cpu disable_int ;;
    die None p ;;
    p_on_cpu enable_int ;;
    none ← list_empty Ready;
    if (none : bool) then mret false else switch_to_next p ;; mret true.

Definition kill (pid : Z) : M ps unit :=
  p ← table_get pid;
  if p =? 0 then p_on_cpu (err ("No such process" +:+ crlf))
  else
    p_on_cpu disable_int ;;
    b ← pcb_get p;
    match state b with
    | RUN =>
        p_on_cpu enable_int ;;
        away ← exit;
        if (away : bool) then mret tt else p_on_cpu enable_int
    | READY => die (Some Ready) p ;; p_on_cpu enable_int
    | WAIT => e ← deref (wait_q b); die (Some (Wait e)) p ;; p_on_cpu enable_int
    | DEAD => p_on_cpu enable_int
    end.

(** ** signal.c *)

Definition signal (signo handler : Z) : M ps unit :=
  p ← gets current;
  b ← pcb_get p;
  _ ← deref (if bool_decide (0 ≤ signo) then sig_handler b !! Z.to_nat signo else None);
  pcb_upd p (with_handlers (<[Z.to_nat signo := handler]> (sig_handler b))).

Definition signal_kill (pid signo : Z) : M ps unit :=
  p ← table_get pid;
  if p =? 0 then p_on_cpu (err ("No such process" +:+ crlf))
  else pcb_upd p (λ b, with_signals (signal_queue b ++ [signo]) b).

Definition sigreturn : M ps unit :=
  p ← gets current;
  pcb_upd p (λ b, with_reg (reg_backup b) (with_sp_el0 (sp_el0_backup b) b)) ;;
  b ← pcb_get p;
  hw_upd (λ h, mk_hw (h_reg h) (h_pc h) (h_pstate h) (h_args h) (h_ttbr0 h) (h_ttbr1 h) (sp_el0 b)) ;;
  load_regs (reg b) (pc b) (pstate b) (args b) (ttbr b).

(** ** kill_zombies *)

(** The processes together with the memory their address spaces use. *)
Section Reap.
Context {V : Type}.

Record sys := mk_sys { y_ps : ps; y_vm : V }.
Definition set_yps (p : ps) (y : sys) : sys := mk_sys p (y_vm y).
Definition set_yvm (v : V) (y : sys) : sys := mk_sys (y_ps y) v.
Definition on_ps {A} (m : M ps A) : M sys A := zoom y_ps set_yps m.
Definition on_vm {A} (m : M V A) : M sys A := zoom y_vm set_yvm m.

(** [free_sections] and [free_page_table] on that memory. *)
Variable free_sections : list section → Z → M V unit.
Variable free_page_table : Z → M V unit.

Definition release_space (b : pcb) : M V unit :=
  free_sections (sections b) (ttbr b) ;;
  if el b =? 0 then free_page_table (ttbr b) else mret tt.

Fixpoint kill_zombies (fuel : nat) : M sys unit :=
  match fuel with
  | O => spin
  | S fuel' =>
      p ← on_ps (list_pop Dead);
      if p =? 0 then mret tt
      else
        b ← on_ps (pcb_get p);
        on_vm (release_space b) ;;
        on_ps (p_free (stack1 b - STACK_EL1_SIZE)) ;;
        on_ps (table_set (pid b) 0) ;;
        on_ps (p_free p) ;;
        on_ps (modify (λ s, set_pcbs (delete p (pcbs s)) s)) ;;
        kill_zombies fuel'
  end.

(** One round of [idle]. *)
Definition idle_round (fuel : nat) : M sys unit := kill_zombies fuel ;; on_ps schedule.
End Reap.
Arguments sys : clear implicits.
