(* ===== verification/ProcessInv.v ===== *)
(** * The process invariant

    Every block is in the table under its pid, and in exactly the queue its
    state names; one process runs.  [core] is the invariant with the running
    process as a parameter, [None] between two processes. *)

From S2P Require Import Prelude Cpu KList Process.

(** The queue a block belongs to. *)
Definition place (b : pcb) : option qid :=
  match state b with
  | RUN => None
  | READY => Some Ready
  | DEAD => Some Dead
  | WAIT => Wait <$> wait_q b
  end.

Record pcb_ok (b : pcb) : Prop := mk_pcb_ok {
  po_wait : state b = WAIT → is_Some (wait_q b);
  po_sig : length (sig_handler b) = 64%nat;
  po_signo x : x ∈ signal_queue b → 0 ≤ x < NSIG;
  po_shell : pid b = 0 → state b ≠ DEAD;
  po_idle : pid b = 1 → state b = RUN ∨ state b = READY;
}.

Record core (s : ps) (run : option Z) : Prop := mk_core {
  c_cpu : cpu_ok (p_cpu s);
  c_table i : is_Some (pcb_table s !! i) ↔ 0 ≤ i < MAX_PROC;
  c_slot i p : pcb_table s !! i = Some p → p ≠ 0 → ∃ b, pcbs s !! p = Some b ∧ pid b = i;
  c_pcb p b : pcbs s !! p = Some b → p ≠ 0 ∧ p ∈ allocs s ∧ pcb_table s !! pid b = Some p ∧ pcb_ok b;
  c_run p b : pcbs s !! p = Some b → (state b = RUN ↔ run = Some p);
  c_nodup q : NoDup (queue s q);
  c_queue q p : p ∈ queue s q ↔ ∃ b, pcbs s !! p = Some b ∧ place b = Some q;
  c_stack p b : pcbs s !! p = Some b → pid b ≠ 0 → (stack1 b - STACK_EL1_SIZE) ∈ allocs s ∧ pcbs s !! (stack1 b - STACK_EL1_SIZE) = None;
  c_stacks p q b c : pcbs s !! p = Some b → pcbs s !! q = Some c → pid b ≠ 0 → pid c ≠ 0 → stack1 b = stack1 c → p = q;
  c_last : 0 ≤ last_pid s < MAX_PROC;
  c_shell : ∃ p b, pcbs s !! p = Some b ∧ pid b = 0;
  c_idle : last_pid s ≠ 0 → ∃ p b, pcbs s !! p = Some b ∧ pid b = 1;
}.

(** The state of the running system: the boot process (pid 0, the shell) may
    wait but does not die, and the idle thread, the first one created (pid 1),
    exists and is running or ready. *)
Definition proc_wf (s : ps) : Prop :=
  core s (Some (current s)) ∧ last_pid s ≠ 0 ∧ ∃ b, pcbs s !! current s = Some b ∧ state b = RUN.

Lemma ps_ext s s' : p_cpu s = p_cpu s' → pcbs s = pcbs s' → pcb_table s = pcb_table s' → current s = current s' →
  queues s = queues s' → last_pid s = last_pid s' → allocs s = allocs s' → hws s = hws s' → rootdir s = rootdir s' → s = s'.
Proof. destruct s, s'. simpl. congruence. Qed.

(** ** Frames *)

(** What a change of a block's other fields keeps. *)
Record same_pcb (b b' : pcb) : Prop := mk_same_pcb {
  sp_pid : pid b' = pid b;
  sp_stack : stack1 b' = stack1 b;
  sp_state : state b' = state b;
  sp_wait : wait_q b' = wait_q b;
  sp_data : wait_data b' = wait_data b;
  sp_el : el b' = el b;
  sp_hand : length (sig_handler b') = length (sig_handler b);
  sp_sig : signal_queue b' ⊆ signal_queue b;
}.

Definition same_blocks (m m' : gmap Z pcb) : Prop :=
  ∀ x, match m !! x, m' !! x with
       | Some b, Some b' => same_pcb b b'
       | None, None => True
       | _, _ => False
       end.

Record quiet (s s' : ps) : Prop := mk_quiet {
  q_cpu : p_cpu s' = p_cpu s;
  q_blocks : same_blocks (pcbs s) (pcbs s');
  q_table : pcb_table s' = pcb_table s;
  q_cur : current s' = current s;
  q_queues : queues s' = queues s;
  q_last : last_pid s' = last_pid s;
  q_allocs : allocs s' = allocs s;
}.

Lemma same_pcb_refl b : same_pcb b b.
Proof. by split. Qed.

Lemma same_pcb_trans a b c : same_pcb a b → same_pcb b c → same_pcb a c.
Proof. intros [] []. split; try congruence. set_solver. Qed.

Lemma same_blocks_refl m : same_blocks m m.
Proof. intros x. destruct (m !! x); [apply same_pcb_refl|done]. Qed.

Lemma same_blocks_insert m p b b' : m !! p = Some b → same_pcb b b' → same_blocks m (<[p := b']> m).
Proof.
  intros Hp H x. destruct (decide (x = p)) as [->|].
  - by rewrite lookup_insert_eq, Hp.
  - rewrite lookup_insert_ne by done. destruct (m !! x); [apply same_pcb_refl|done].
Qed.

Lemma same_blocks_Some m m' x b : same_blocks m m' → m !! x = Some b → ∃ b', m' !! x = Some b' ∧ same_pcb b b'.
Proof. intros H E. specialize (H x). rewrite E in H. destruct (m' !! x) as [b'|]; [eauto|done]. Qed.

Lemma same_blocks_back m m' x b' : same_blocks m m' → m' !! x = Some b' → ∃ b, m !! x = Some b ∧ same_pcb b b'.
Proof. intros H E. specialize (H x). rewrite E in H. destruct (m !! x) as [b|]; [eauto|done]. Qed.

Lemma same_place b b' : same_pcb b b' → place b' = place b.
Proof. intros [_ _ Hs Hw _ _ _ _]. unfold place. by rewrite Hs, Hw. Qed.

Lemma same_ok b b' : same_pcb b b' → pcb_ok b → pcb_ok b'.
Proof.
  intros [H1 _ H3 H4 _ _ H6 H7] [O1 O2 O3 O4 O5]. split.
  - by rewrite H3, H4.
  - by rewrite H6.
  - intros x Hx. apply O3. set_solver.
  - by rewrite H1, H3.
  - by rewrite H1, H3.
Qed.

Lemma quiet_refl s : quiet s s.
Proof. split; try done. apply same_blocks_refl. Qed.

Lemma quiet_trans s1 s2 s3 : quiet s1 s2 → quiet s2 s3 → quiet s1 s3.
Proof.
  intros [] []. split; try congruence. intros x. specialize (q_blocks0 x). specialize (q_blocks1 x).
  destruct (pcbs s1 !! x), (pcbs s2 !! x), (pcbs s3 !! x); try done. by eapply same_pcb_trans.
Qed.

Lemma quiet_queue s s' q : quiet s s' → queue s' q = queue s q.
Proof. intros []. unfold queue. by rewrite q_queues0. Qed.

Lemma core_quiet s s' run : core s run → quiet s s' → core s' run.
Proof.
  intros [H1 H2 H3 H4 H5 H6 H7 H8 H9 H10 H11 H12] Hq. pose proof Hq as [Q1 Q2 Q3 Q4 Q5 Q6 Q7]. split.
  - by rewrite Q1.
  - intros i. by rewrite Q3.
  - intros i p. rewrite Q3. intros Hi Hp. destruct (H3 i p Hi Hp) as (b & Hb & Hpid).
    destruct (same_blocks_Some _ _ _ _ Q2 Hb) as (b' & Hb' & S). exists b'. split; [done|]. by rewrite (sp_pid _ _ S).
  - intros p b' Hb'. destruct (same_blocks_back _ _ _ _ Q2 Hb') as (b & Hb & S).
    rewrite Q3, Q7, (sp_pid _ _ S). destruct (H4 p b Hb) as (? & ? & ? & ?). split_and!; [done..|]. by eapply same_ok.
  - intros p b' Hb'. destruct (same_blocks_back _ _ _ _ Q2 Hb') as (b & Hb & S). rewrite (sp_state _ _ S). by apply (H5 p b).
  - intros q. rewrite (quiet_queue s s') by done. apply H6.
  - intros q p. rewrite (quiet_queue s s'), H7 by done. split.
    + intros (b & Hb & Hpl). destruct (same_blocks_Some _ _ _ _ Q2 Hb) as (b' & Hb' & S). exists b'.
      split; [done|]. by rewrite (same_place _ _ S).
    + intros (b' & Hb' & Hpl). destruct (same_blocks_back _ _ _ _ Q2 Hb') as (b & Hb & S). exists b.
      split; [done|]. by rewrite <- (same_place _ _ S).
  - intros p b' Hb'. destruct (same_blocks_back _ _ _ _ Q2 Hb') as (b & Hb & S).
    rewrite (sp_pid _ _ S), (sp_stack _ _ S), Q7. intros Hpid. destruct (H8 p b Hb Hpid) as [Ha Hn]. split; [done|].
    specialize (Q2 (stack1 b - STACK_EL1_SIZE)). rewrite Hn in Q2. by destruct (pcbs s' !! _).
  - intros p q b' c' Hb' Hc'. destruct (same_blocks_back _ _ _ _ Q2 Hb') as (b & Hb & Sb).
    destruct (same_blocks_back _ _ _ _ Q2 Hc') as (c & Hc & Sc).
    rewrite (sp_pid _ _ Sb), (sp_stack _ _ Sb), (sp_pid _ _ Sc), (sp_stack _ _ Sc). by apply H9.
  - by rewrite Q6.
  - destruct H11 as (p & b & Hb & Hpid). destruct (same_blocks_Some _ _ _ _ Q2 Hb) as (b' & Hb' & S).
    exists p, b'. by rewrite (sp_pid _ _ S).
  - rewrite Q6. intros Hl. destruct (H12 Hl) as (p & b & Hb & Hpid). destruct (same_blocks_Some _ _ _ _ Q2 Hb) as (b' & Hb' & S).
    exists p, b'. by rewrite (sp_pid _ _ S).
Qed.

(** ** Moving one process to another place *)

Section Move.
Context (s s' : ps) (run run' : option Z) (p : Z) (b b' : pcb).
Hypothesis Hcore : core s run.
Hypothesis Hb : pcbs s !! p = Some b.
Hypothesis Hcpu : cpu_ok (p_cpu s').
Hypothesis Hpcbs : pcbs s' = <[p := b']> (pcbs s).
Hypothesis Htable : pcb_table s' = pcb_table s.
Hypothesis Hallocs : allocs s' = allocs s.
Hypothesis Hlast : last_pid s' = last_pid s.
Hypothesis Hpid : pid b' = pid b.
Hypothesis Hstack : stack1 b' = stack1 b.
Hypothesis Hok : pcb_ok b'.
Hypothesis Hnodup : ∀ q, NoDup (queue s' q).
Hypothesis Hqueue : ∀ q x, x ∈ queue s' q ↔ (x ≠ p ∧ x ∈ queue s q) ∨ (x = p ∧ place b' = Some q).
Hypothesis Hrun : state b' = RUN ↔ run' = Some p.
Hypothesis Hothers : ∀ x, x ≠ p → run' = Some x ↔ run = Some x.

Lemma core_move : core s' run'.
Proof.
  destruct Hcore as [H1 H2 H3 H4 H5 H6 H7 H8 H9 H10 H11 H12].
  assert (Hkeep : ∀ i, (∃ x c, pcbs s !! x = Some c ∧ pid c = i) → ∃ x c, pcbs s' !! x = Some c ∧ pid c = i).
  { intros i (x & c & Hc & Hcp). destruct (decide (x = p)) as [->|].
    - exists p, b'. rewrite Hpcbs, lookup_insert_eq, Hpid. rewrite Hb in Hc. injection Hc as <-. done.
    - exists x, c. by rewrite Hpcbs, lookup_insert_ne. }
  split.
  - done.
  - intros i. by rewrite Htable.
  - intros i x. rewrite Htable, Hpcbs. intros Hi Hx. destruct (H3 i x Hi Hx) as (c & Hc & Hcp).
    destruct (decide (x = p)) as [->|]; [|by rewrite lookup_insert_ne; eauto].
    exists b'. rewrite lookup_insert_eq. split; [done|]. rewrite Hb in Hc. injection Hc as <-. by rewrite Hpid.
  - intros x c. rewrite Hpcbs, Htable, Hallocs. intros [[<- <-]|[Hx Hc]]%lookup_insert_Some; [|by apply H4].
    rewrite Hpid. destruct (H4 _ _ Hb) as (? & ? & ? & _). done.
  - intros x c. rewrite Hpcbs. intros [[<- <-]|[Hx Hc]]%lookup_insert_Some; [done|].
    rewrite Hothers by done. by apply H5.
  - done.
  - intros q x. rewrite Hqueue, H7, Hpcbs. destruct (decide (x = p)) as [->|Hx].
    + rewrite lookup_insert_eq. naive_solver.
    + rewrite lookup_insert_ne by done. naive_solver.
  - intros x c. rewrite Hpcbs, Hallocs. intros [[<- <-]|[Hx Hc]]%lookup_insert_Some; intros Hcp.
    + rewrite Hpid in Hcp. rewrite Hstack. destruct (H8 _ _ Hb Hcp) as [Ha Hn]. split; [done|].
      rewrite lookup_insert_ne; [done|]. intros E. rewrite <- E, Hb in Hn. done.
    + destruct (H8 _ _ Hc Hcp) as [Ha Hn]. split; [done|]. rewrite lookup_insert_ne; [done|]. intros E. rewrite <- E, Hb in Hn. done.
  - intros x y c d. rewrite Hpcbs. intros [[<- <-]|[Hx Hc]]%lookup_insert_Some [[<- <-]|[Hy Hd]]%lookup_insert_Some;
      rewrite ?Hpid, ?Hstack; [done|by apply H9|by apply H9|by apply H9].
  - by rewrite Hlast.
  - by apply Hkeep.
  - rewrite Hlast. intros Hl. by apply Hkeep, H12.
Qed.
End Move.

(** ** Queue facts *)

Lemma queue_set s q l q' : queue (set_queue q l s) q' = if decide (q' = q) then l else queue s q'.
Proof.
  unfold queue, set_queue. simpl. case_decide as E; [subst; by rewrite lookup_insert_eq|by rewrite lookup_insert_ne].
Qed.

Section Facts.
Context (s : ps) (run : option Z).
Hypothesis Hcore : core s run.

Lemma queue_block q p : p ∈ queue s q → ∃ b, pcbs s !! p = Some b ∧ place b = Some q.
Proof. apply (c_queue _ _ Hcore). Qed.

Lemma block_place p b q : pcbs s !! p = Some b → p ∈ queue s q ↔ place b = Some q.
Proof. intros Hb. rewrite (c_queue _ _ Hcore). split; [|by eauto]. intros (c & Hc & ?). congruence. Qed.

Lemma run_place p b : pcbs s !! p = Some b → run = Some p → place b = None.
Proof. intros Hb Hr. apply (c_run _ _ Hcore p b Hb) in Hr. unfold place. by rewrite Hr. Qed.

Lemma wait_place e b : place b = Some (Wait e) ↔ state b = WAIT ∧ wait_q b = Some e.
Proof. unfold place. destruct (state b), (wait_q b); simpl; naive_solver. Qed.
End Facts.

(** ** Symbolic execution *)

Lemma wp_p_disable (Q : unit → ps → Prop) s : Q tt (set_pcpu (enter (p_cpu s)) s) → wp (p_on_cpu disable_int) Q s.
Proof. done. Qed.
Lemma wp_p_enable (Q : unit → ps → Prop) s : Q tt (set_pcpu (leave (p_cpu s)) s) → wp (p_on_cpu enable_int) Q s.
Proof. done. Qed.
Lemma wp_pcb_get p b (Q : pcb → ps → Prop) s : pcbs s !! p = Some b → Q b s → wp (pcb_get p) Q s.
Proof. intros H ?. unfold pcb_get. wp_step. apply wp_get_st. by apply (wp_deref _ b). Qed.
Lemma wp_pcb_upd p b f (Q : unit → ps → Prop) s :
  pcbs s !! p = Some b → Q tt (set_pcbs (<[p := f b]> (pcbs s)) s) → wp (pcb_upd p f) Q s.
Proof. intros H ?. unfold pcb_upd. wp_step. by apply (wp_pcb_get _ b). Qed.

(** An update that keeps what the invariant looks at. *)
Lemma wp_upd_same p b f (Q : unit → ps → Prop) s :
  pcbs s !! p = Some b → same_pcb b (f b) → (∀ s', quiet s s' → pcbs s' !! p = Some (f b) → Q tt s') → wp (pcb_upd p f) Q s.
Proof.
  intros Hb Hf HQ. apply (wp_pcb_upd p b f Q s Hb). apply HQ; [|apply lookup_insert_eq].
  split; try done. by apply (same_blocks_insert _ _ b).
Qed.

Lemma wp_hw_upd f (Q : unit → ps → Prop) s : (∀ s', quiet s s' → pcbs s' = pcbs s → Q tt s') → wp (hw_upd f) Q s.
Proof. intros HQ. apply HQ; [|done]. split; try done. apply same_blocks_refl. Qed.

Lemma core_cpu s run c : core s run → cpu_ok c → core (set_pcpu c s) run.
Proof. intros [] Hc. by split. Qed.
