(* ===== verification/ProcessThm.v ===== *)
(** * The scheduler keeps the invariant: lemmas

    The operations of the scheduler, and the creation and reaping of processes. *)

From S2P Require Import Prelude Cpu KList Process ProcessInv.

(** ** Context switches *)

Lemma quiet_cpu s s' c : quiet s s' → quiet (set_pcpu c s) (set_pcpu c s').
Proof. intros []. by split. Qed.

Lemma quiet_Some s s' p : quiet s s' → is_Some (pcbs s !! p) → is_Some (pcbs s' !! p).
Proof. intros Hq [b Hb]. destruct (same_blocks_Some _ _ _ _ (q_blocks _ _ Hq) Hb) as (b' & ? & _). eauto. Qed.

Lemma wp_save_regs p fp sp lr (Q : unit → ps → Prop) s :
  is_Some (pcbs s !! p) → (∀ s', quiet s s' → Q tt s') → wp (save_regs p fp sp lr) Q s.
Proof. intros [b Hb] HQ. unfold save_regs. wp_step. apply wp_get_st. apply (wp_upd_same _ b); [done|by split|]. auto. Qed.

Lemma wp_load_regs r a b c d (Q : unit → ps → Prop) s : (∀ s', quiet s s' → Q tt s') → wp (load_regs r a b c d) Q s.
Proof. intros HQ. apply wp_hw_upd. auto. Qed.

Lemma wp_switch_to prev next (Q : unit → ps → Prop) s :
  is_Some (pcbs s !! prev) → (∀ s', quiet s s' → Q tt s') → wp (switch_to prev next) Q s.
Proof.
  intros [b Hb] HQ. unfold switch_to. wp_step. apply wp_get_st. wp_step. apply (wp_upd_same _ b); [done|by split|].
  intros s1 H1 _. apply wp_load_regs. intros s2 H2. apply HQ. by eapply quiet_trans.
Qed.

Lemma wp_enter_handler prev n next ret h v (Q : unit → ps → Prop) s :
  is_Some (pcbs s !! prev) → is_Some (pcbs s !! n) →
  (∀ s', quiet (set_pcpu (leave (p_cpu s)) s) s' → Q tt s') → wp (enter_handler prev n next ret h v) Q s.
Proof.
  intros Hp Hn HQ. unfold enter_handler. wp_step. apply wp_get_st. wp_step. apply wp_save_regs; [done|]. intros s1 H1.
  destruct (quiet_Some _ _ _ H1 Hn) as [b Hb]. wp_step. apply (wp_pcb_get _ b); [done|].
  wp_step. apply (wp_upd_same _ b); [done|by split|]. intros s2 H2 _. wp_step. apply wp_p_enable.
  apply wp_load_regs. intros s3 H3. apply HQ. eapply quiet_trans; [|exact H3].
  pose proof (quiet_trans _ _ _ H1 H2) as H12. rewrite (q_cpu _ _ H12). by apply quiet_cpu.
Qed.

(** What [switch_to_next] leaves alone. *)
Record kept (s s' : ps) : Prop := mk_kept {
  k_cpu' : p_cpu s' = p_cpu s;
  k_table : pcb_table s' = pcb_table s;
  k_last : last_pid s' = last_pid s;
  k_allocs : allocs s' = allocs s;
}.

Lemma quiet_kept s s' : quiet s s' → kept s s'.
Proof. intros []. by split. Qed.
Lemma kept_trans s1 s2 s3 : kept s1 s2 → kept s2 s3 → kept s1 s3.
Proof. intros [] []. split; congruence. Qed.

Lemma wp_switch_to_next prev n rest (Q : unit → ps → Prop) s :
  core s None → is_Some (pcbs s !! prev) → queue s Ready = n :: rest →
  (∀ s', core s' (Some n) → current s' = n → is_Some (pcbs s' !! n) → kept s s' →
     (∀ q, queue s' q = if decide (q = Ready) then rest else queue s q) → Q tt s') →
  wp (switch_to_next prev) Q s.
Proof.
  intros Hcore [bp Hbp] Hready HQ. unfold switch_to_next. wp_step. unfold list_pop. wp_step. apply wp_get_st. rewrite Hready.
  wp_step. apply wp_modify. wp_step. wp_step. apply wp_p_disable. wp_step. apply (wp_pcb_upd _ bp); [done|].
  set (t := set_pcbs (<[prev := with_pc out_label bp]> (pcbs s)) s).
  assert (Ht : quiet s t) by (split; try done; by apply (same_blocks_insert _ _ bp)).
  pose proof (core_quiet _ _ _ Hcore Ht) as Hct.
  assert (Hin : n ∈ queue t Ready) by (change (queue t Ready) with (queue s Ready); rewrite Hready; by left).
  destruct (queue_block _ _ Hct _ _ Hin) as (bn & Hbn & Hpl).
  wp_step. apply (wp_pcb_upd _ bn); [exact Hbn|]. wp_step. apply wp_modify.
  set (s5 := set_cur _ _).
  assert (Hst : state bn = READY).
  { unfold place in Hpl. destruct (state bn), (wait_q bn); simpl in Hpl; naive_solver. }
  assert (Hqs : ∀ q, queue s5 q = if decide (q = Ready) then rest else queue s q) by (intros q; apply queue_set).
  destruct (c_pcb _ _ Hct _ _ Hbn) as (Hn0 & _ & _ & Hok).
  assert (Hc5 : core s5 (Some n)).
  { eapply (core_move t s5 None (Some n) n bn (with_state RUN bn)); [done|done| |done..| | | | |].
    - apply enter_ok. apply Hct.
    - destruct Hok. by split; simpl; auto.
    - intros q. rewrite Hqs. pose proof (c_nodup _ _ Hct q) as Hnd. change (queue t q) with (queue s q) in Hnd.
      case_decide as E; [subst q|done]. rewrite Hready in Hnd. by apply NoDup_cons in Hnd as [_ ?].
    - intros q x. rewrite Hqs. change (queue t q) with (queue s q). pose proof (c_nodup _ _ Hct q) as Hnd.
      change (queue t q) with (queue s q) in Hnd. split.
      + intros Hx. left. case_decide as E; [subst q|].
        * rewrite Hready in Hnd |- *. apply NoDup_cons in Hnd as [Hni _]. split; [by intros ->|by right].
        * split; [|done]. intros ->. apply E. apply (block_place _ _ Hct n bn) in Hx; congruence.
      + intros [[Hne Hx]|[_ [=]]]. case_decide as E; [subst q|done].
        rewrite Hready in Hx. apply elem_of_cons in Hx as [?|?]; done.
    - done.
    - intros x Hx. naive_solver. }
  assert (Hn5 : is_Some (pcbs s5 !! n)) by (simpl; rewrite lookup_insert_eq; eauto).
  assert (Hp5 : is_Some (pcbs s5 !! prev)).
  { simpl. destruct (decide (n = prev)) as [->|]; [rewrite lookup_insert_eq|rewrite lookup_insert_ne, lookup_insert_eq by done]; eauto. }
  assert (Hend : ∀ s', quiet (set_pcpu (leave (p_cpu s5)) s5) s' → Q tt s').
  { intros s' Hq. assert (E : leave (p_cpu s5) = p_cpu s) by (apply leave_enter, Hcore). rewrite E in Hq.
    assert (Hc : core s' (Some n)) by (eapply core_quiet; [|exact Hq]; apply core_cpu; [done|apply Hcore]).
    apply HQ; [done|by rewrite (q_cur _ _ Hq)|by eapply quiet_Some| |].
    - destruct Hq. by split.
    - intros q. rewrite (quiet_queue _ _ q Hq). apply Hqs. }
  clearbody s5. destruct Hn5 as [b5 Hb5]. wp_step. apply (wp_pcb_get _ b5); [done|].
  assert (Hsteps : ∀ s6, quiet s5 s6 → (∀ s', quiet (set_pcpu (leave (p_cpu s6)) s6) s' → Q tt s')).
  { intros s6 H6 s' Hq. apply Hend. eapply quiet_trans; [|exact Hq]. rewrite (q_cpu _ _ H6). by apply quiet_cpu. }
  wp_step. apply (wp_mono _ (λ _ s6, quiet s5 s6 ∧ pcbs s6 = pcbs s5)).
  { destruct (el b5 =? 0); [apply wp_hw_upd; by split|wp_step; split; [apply quiet_refl|done]]. }
  intros _ s6 [H6 E6]. rewrite <- E6 in Hb5, Hp5. destruct (signal_queue b5) as [|signo sigs] eqn:Hsig.
  { wp_step. apply wp_p_enable. apply wp_switch_to; [done|]. by apply Hsteps. }
  destruct (c_pcb _ _ (core_quiet _ _ _ Hc5 H6) _ _ Hb5) as (_ & _ & _ & [_ Ho2 Ho3 _ _]).
  wp_step. apply (wp_upd_same _ b5); [done| |].
  { split; try done. simpl. rewrite Hsig. set_solver. }
  intros s7 H7 Hb7. assert (Hsr : 0 ≤ signo < 64) by (apply Ho3; rewrite Hsig; by left).
  destruct (lookup_lt_is_Some_2 (sig_handler b5) (Z.to_nat signo) ltac:(lia)) as [h Hh].
  wp_step. rewrite bool_decide_true by lia. apply (wp_deref _ h); [done|].
  wp_step. apply (wp_upd_same _ (with_signals sigs b5)); [done|by split|]. intros s8 H8 Hb8.
  assert (H58 : quiet s5 s8) by (eapply quiet_trans; [exact H6|]; by eapply quiet_trans).
  assert (Hp8 : is_Some (pcbs s8 !! prev)) by (eapply quiet_Some; [exact H8|]; by eapply quiet_Some).
  assert (Hn8 : is_Some (pcbs s8 !! n)) by eauto.
  destruct (h =? SIG_DFL); [|destruct (h =? SIG_IGN)].
  - apply wp_enter_handler; [done|done|]. by apply Hsteps.
  - wp_step. apply wp_p_enable. apply wp_switch_to; [done|]. by apply Hsteps.
  - apply wp_enter_handler; [done|done|]. by apply Hsteps.
Qed.

(** ** Parking and moving *)

Lemma core_push s p b b' q :
  core s (Some p) → pcbs s !! p = Some b → pid b' = pid b → stack1 b' = stack1 b → pcb_ok b' → place b' = Some q →
  core (set_queue q (queue s q ++ [p]) (set_pcbs (<[p := b']> (pcbs s)) s)) None.
Proof.
  intros Hcore Hb Hpid Hst Hok Hpl.
  assert (Hout : ∀ q', p ∉ queue s q').
  { intros q' Hin. apply (block_place _ _ Hcore p b) in Hin; [|done]. by rewrite (run_place _ _ Hcore p b) in Hin. }
  eapply (core_move s _ (Some p) None p b b'); [done|done|apply Hcore|done|done|done|done|done|done|done| | | |].
  - intros q'. rewrite queue_set. case_decide; [|apply Hcore]. apply NoDup_app. split_and!; [apply Hcore| |apply NoDup_singleton].
    intros x Hx. rewrite list_elem_of_singleton. intros ->. by apply (Hout q).
  - intros q' x. rewrite queue_set. change (queue (set_pcbs _ s) q') with (queue s q').
    case_decide as E; [subst q'; rewrite elem_of_app, list_elem_of_singleton|].
    + split; [|naive_solver]. intros [Hx|Hx]; [left|naive_solver]. split; [|done]. intros ->. by apply (Hout q).
    + split; [|intros [[_ ?]|[_ ?]]; [done|congruence]]. intros Hx. left. split; [|done]. intros ->. by apply (Hout q').
  - split; [|done]. intros E. unfold place in Hpl. by rewrite E in Hpl.
  - intros x Hx. naive_solver.
Qed.

Lemma core_shift s run p b b' q1 q2 l1 l2 :
  core s run → pcbs s !! p = Some b → queue s q1 = l1 ++ p :: l2 → pid b' = pid b → stack1 b' = stack1 b → pcb_ok b' →
  place b' = Some q2 → q1 ≠ q2 →
  core (set_queue q2 (queue s q2 ++ [p]) (set_pcbs (<[p := b']> (pcbs s)) (set_queue q1 (l1 ++ l2) s))) run.
Proof.
  intros Hcore Hb Hq1 Hpid Hst Hok Hpl Hne.
  assert (Hpl1 : place b = Some q1) by (apply (block_place _ _ Hcore p b); [done|]; rewrite Hq1; set_solver).
  assert (Hout : ∀ q', q' ≠ q1 → p ∉ queue s q').
  { intros q' Hq' Hin. apply (block_place _ _ Hcore p b) in Hin; [|done]. congruence. }
  assert (Hnr : run ≠ Some p).
  { intros E. by rewrite (run_place _ _ Hcore p b) in Hpl1. }
  pose proof (c_nodup _ _ Hcore q1) as Hnd. rewrite Hq1 in Hnd.
  pose proof (NoDup_Permutation_proper _ _ (Permutation_middle l1 l2 p)) as Hperm. apply Hperm in Hnd.
  apply NoDup_cons in Hnd as [Hni Hnd].
  assert (Hqs : ∀ q, queue (set_queue q2 (queue s q2 ++ [p]) (set_pcbs (<[p := b']> (pcbs s)) (set_queue q1 (l1 ++ l2) s))) q =
    if decide (q = q2) then queue s q2 ++ [p] else if decide (q = q1) then l1 ++ l2 else queue s q).
  { intros q. rewrite queue_set. case_decide; [done|]. apply queue_set. }
  eapply (core_move s _ run run p b b'); [done|done|apply Hcore|done|done|done|done|done|done|done| | | |done].
  - intros q. rewrite Hqs. case_decide; [|case_decide; [done|apply Hcore]]. apply NoDup_app.
    split_and!; [apply Hcore| |apply NoDup_singleton].
    intros x Hx. rewrite list_elem_of_singleton. intros ->. by apply (Hout q2).
  - intros q x. rewrite Hqs. case_decide as E2; [|case_decide as E1].
    + subst q. rewrite elem_of_app, list_elem_of_singleton. split; [|naive_solver].
      intros [Hx|Hx]; [left|naive_solver]. split; [|done]. intros ->. by apply (Hout q2).
    + subst q. rewrite Hq1. split; [|set_solver]. intros Hx. left. split; [by intros ->|set_solver].
    + split; [|intros [[_ ?]|[_ ?]]; [done|congruence]]. intros Hx. left. split; [|done]. intros ->. by apply (Hout q).
  - split; [|done]. intros E. unfold place in Hpl. by rewrite E in Hpl.
Qed.

Lemma wp_leave_el0 p (Q : unit → ps → Prop) s :
  is_Some (pcbs s !! p) → (∀ s', quiet s s' → Q tt s') → wp (leave_el0 p) Q s.
Proof.
  intros [b Hb] HQ. unfold leave_el0. wp_step. apply (wp_pcb_get _ b); [done|]. wp_step. apply wp_get_st.
  wp_step. apply (wp_mono _ (λ _ s1, quiet s s1)).
  - destruct (el b =? 0); [|wp_step; apply quiet_refl]. apply (wp_upd_same _ b); [done|by split|done].
  - intros _ s1 H1. destruct (quiet_Some _ _ _ H1 ltac:(eauto)) as [b1 Hb1]. apply (wp_upd_same _ b1); [done|by split|].
    intros s2 H2 _. apply HQ. by eapply quiet_trans.
Qed.

(** ** schedule, wait, wait_to_ready *)

Definition after_switch (s s' : ps) (qs : qid → list Z) (n : Z) : Prop :=
  proc_wf s' ∧ current s' = n ∧ kept s s' ∧ ∀ q, queue s' q = qs q.

Lemma core_wf s n : core s (Some n) → current s = n → last_pid s ≠ 0 → is_Some (pcbs s !! n) → proc_wf s.
Proof. intros Hc <- Hl [b Hb]. split; [done|]. split; [done|]. exists b. split; [done|]. by apply (c_run _ _ Hc _ b Hb). Qed.

(** The end of every switch: [prev] was parked in [q], the next one runs. *)
Lemma wp_park s t prev b b' q n rest (Q : unit → ps → Prop) :
  core s (Some prev) → last_pid s ≠ 0 → pcbs s !! prev = Some b → pid b' = pid b → stack1 b' = stack1 b → pcb_ok b' → place b' = Some q →
  let s1 := set_queue q (queue s q ++ [prev]) (set_pcbs (<[prev := b']> (pcbs s)) s) in
  quiet (set_pcpu (enter (p_cpu s)) s1) t → queue s1 Ready = n :: rest →
  (∀ s', after_switch s s' (λ q', if decide (q' = Ready) then rest else queue s1 q') n → Q tt s') →
  wp (switch_to_next prev) Q (set_pcpu (leave (p_cpu t)) t).
Proof.
  intros Hcore Hlp Hb Hpid Hst Hok Hpl s1 Ht Hn HQ.
  assert (Hc1 : core s1 None) by (by apply (core_push s prev b b' q)).
  assert (Hq : quiet s1 (set_pcpu (leave (p_cpu t)) t)).
  { rewrite (q_cpu _ _ Ht). pose proof (quiet_cpu _ _ (leave (enter (p_cpu s))) Ht) as Hq.
    rewrite leave_enter in Hq by apply Hcore. cbn [p_cpu set_pcpu]. rewrite leave_enter by apply Hcore.
    eapply quiet_trans; [|exact Hq]. split; try done. apply same_blocks_refl. }
  eapply (wp_switch_to_next prev n rest); [by eapply core_quiet| | |].
  - eapply quiet_Some; [exact Hq|]. eexists. apply lookup_insert_eq.
  - by rewrite (quiet_queue _ _ _ Hq).
  - intros s' Hc' Hcur Hin Hk Hq'. apply HQ. split.
    { eapply core_wf; [done|done| |done]. rewrite (k_last _ _ Hk). simpl. by rewrite (q_last _ _ Ht). }
    split; [done|]. split.
    + apply (kept_trans _ s1); [by split|]. eapply kept_trans; [by apply quiet_kept|exact Hk].
    + intros q'. rewrite Hq'. case_decide; [done|]. by rewrite (quiet_queue _ _ _ Hq).
Qed.

Lemma wf_current s : proc_wf s → ∃ b, pcbs s !! current s = Some b ∧ state b = RUN ∧ pcb_ok b ∧ core s (Some (current s)).
Proof. intros [Hc (_ & b & Hb & Hr)]. exists b. split_and!; [done|done| |done]. by destruct (c_pcb _ _ Hc _ _ Hb) as (_ & _ & _ & ?). Qed.

Lemma with_state_ok b st : pcb_ok b → st = RUN ∨ st = READY → pcb_ok (with_state st b).
Proof. intros [H1 H2 H3 H4 H5] Hst. split; simpl; [destruct Hst; congruence|done|done|destruct Hst; congruence|tauto]. Qed.

Lemma schedule_run s : proc_wf s →
  match queue s Ready with
  | [] => schedule s = Ok (tt, s)
  | n :: rest => wp schedule (λ _ s', after_switch s s' (λ q, if decide (q = Ready) then rest ++ [current s] else queue s q) n) s
  end.
Proof.
  intros Hwf. destruct (wf_current s Hwf) as (b & Hb & Hr & Hok & Hcore).
  destruct (queue s Ready) as [|n rest] eqn:Hready.
  { unfold schedule, list_empty, mbind, M_bind, get_st. rewrite Hready. done. }
  unfold schedule. wp_step. unfold list_empty. wp_step. apply wp_get_st. wp_step. rewrite Hready. rewrite bool_decide_false by done.
  wp_step. apply wp_p_disable. wp_step. apply wp_gets. wp_step. apply (wp_pcb_upd _ b); [done|]. wp_step. apply wp_modify.
  wp_step. apply wp_leave_el0; [eexists; apply lookup_insert_eq|]. intros t Ht. wp_step. apply wp_p_enable.
  eapply (wp_park s t (current s) b (with_state READY b) Ready n (rest ++ [current s])); [done|apply Hwf|done|done|done| |done|exact Ht| |].
  - apply with_state_ok; auto.
  - rewrite queue_set, decide_True by done. by rewrite Hready.
  - intros s' Ha. destruct Ha as (H1 & H2 & H3 & H4). split_and!; [done..|]. intros q. rewrite H4.
    case_decide; [done|]. rewrite queue_set. by rewrite decide_False.
Qed.

Lemma wait_run s e data n rest : proc_wf s → queue s Ready = n :: rest →
  (∀ b, pcbs s !! current s = Some b → pid b ≠ 1) →
  wp (wait e data) (λ _ s', after_switch s s' (λ q, if decide (q = Ready) then rest
    else if decide (q = Wait e) then queue s q ++ [current s] else queue s q) n) s.
Proof.
  intros Hwf Hready Hid. destruct (wf_current s Hwf) as (b & Hb & Hr & Hok & Hcore).
  unfold wait. wp_step. apply wp_gets. wp_step. apply wp_p_disable. wp_step. apply (wp_pcb_upd _ b); [done|]. wp_step. apply wp_modify.
  wp_step. apply wp_leave_el0; [eexists; apply lookup_insert_eq|]. intros t Ht.
  set (b' := with_wait _ _ _) in *. pose proof (Hid b Hb) as Hpid.
  assert (Hok' : pcb_ok b') by (destruct Hok; split; simpl; eauto; by intros ?).
  wp_step. apply wp_p_enable. wp_step. unfold list_empty. wp_step. apply wp_get_st. wp_step.
  assert (Hq : queue t Ready = n :: rest) by (rewrite (quiet_queue _ _ _ Ht), queue_set; by rewrite decide_False).
  change (queue (set_pcpu _ t) Ready) with (queue t Ready). rewrite Hq. rewrite bool_decide_false by done.
  eapply (wp_park s t (current s) b b' (Wait e) n rest); [done|apply Hwf|done..|exact Ht| |].
  - rewrite queue_set. by rewrite decide_False.
  - intros s' (H1 & H2 & H3 & H4). split_and!; [done..|]. intros q. rewrite H4.
    case_decide; [done|]. rewrite queue_set. case_decide; [by subst|done].
Qed.

(** ** Waking the waiters of a process *)

Definition waits_for (s : ps) (id p : Z) : bool :=
  match pcbs s !! p with Some b => i32 (wait_data b) =? id | None => false end.

Definition woken (b : pcb) : pcb := with_wait None 0 (with_state READY b).

Lemma woken_ok b : pcb_ok b → pcb_ok (woken b).
Proof. intros [H1 H2 H3 H4 H5]. split; simpl; auto; done. Qed.

Lemma wp_wait_to_ready p b (Q : unit → ps → Prop) s :
  cpu_ok (p_cpu s) → pcbs s !! p = Some b →
  Q tt (set_queue Ready (queue s Ready ++ [p]) (set_pcbs (<[p := woken b]> (pcbs s)) s)) → wp (wait_to_ready p) Q s.
Proof.
  intros Hc Hb HQ. unfold wait_to_ready. wp_step. apply wp_p_disable. wp_step. apply (wp_pcb_upd _ b); [done|].
  wp_step. apply wp_modify. apply wp_p_enable. cbn [p_cpu set_pcbs set_queue set_queues set_pcpu].
  rewrite leave_enter by done. exact HQ.
Qed.

Lemma core_wake s run p b e l1 l2 :
  core s run → pcbs s !! p = Some b → queue s (Wait e) = l1 ++ p :: l2 →
  core (set_queue (Wait e) (l1 ++ l2) (set_queue Ready (queue s Ready ++ [p]) (set_pcbs (<[p := woken b]> (pcbs s)) s))) run.
Proof.
  intros Hcore Hb Hq. destruct (c_pcb _ _ Hcore _ _ Hb) as (_ & _ & _ & Hok).
  pose proof (core_shift s run p b (woken b) (Wait e) Ready l1 l2 Hcore Hb Hq eq_refl eq_refl (woken_ok b Hok) eq_refl ltac:(done)) as H.
  match goal with |- core ?t _ => match type of H with core ?u _ => assert (t = u) as -> end end; [|exact H].
  unfold set_queue, set_queues, set_pcbs. simpl. by rewrite insert_insert_ne.
Qed.

Lemma wp_rm_pcbs id run : ∀ l pre s, core (set_queue (Wait PROC) (pre ++ l) s) run →
  wp (rm_loop l (match_pid id) wait_to_ready) (λ rest s', core (set_queue (Wait PROC) (pre ++ rest) s') run ∧
    rest = List.filter (λ p, negb (waits_for s id p)) l ∧
    queue s' Ready = queue s Ready ++ List.filter (waits_for s id) l ∧
    (∀ q, q ≠ Ready → queue s' q = queue s q) ∧ current s' = current s ∧ kept s s' ∧
    (∀ x, x ∉ l → pcbs s' !! x = pcbs s !! x)) s.
Proof.
  induction l as [|p l IH]; intros pre s Hc; cbn [rm_loop].
  { wp_step. simpl. split_and!; [done|done|by rewrite app_nil_r|done|done|by split|done]. }
  assert (Hpq : queue (set_queue (Wait PROC) (pre ++ p :: l) s) (Wait PROC) = pre ++ p :: l) by (by rewrite queue_set, decide_True).
  destruct (queue_block _ _ Hc (Wait PROC) p ltac:(rewrite Hpq; set_solver)) as (b & Hb & _). simpl in Hb.
  pose proof (c_nodup _ _ Hc (Wait PROC)) as Hnd. rewrite Hpq in Hnd. apply NoDup_app in Hnd as (_ & _ & [Hpl _]%NoDup_cons).
  wp_step. unfold match_pid. wp_step. apply (wp_pcb_get _ b); [done|]. wp_step.
  assert (Hw : waits_for s id p = (i32 (wait_data b) =? id)) by (unfold waits_for; by rewrite Hb).
  cbn [List.filter]. rewrite Hw. destruct (i32 (wait_data b) =? id); simpl negb; cbv iota.
  - wp_step. apply (wp_wait_to_ready p b); [apply Hc|done|]. wp_step.
    set (s1 := set_queue Ready _ _).
    assert (Hc1 : core (set_queue (Wait PROC) (pre ++ l) s1) run).
    { pose proof (core_wake _ _ p b PROC pre l Hc Hb Hpq) as H.
      rewrite (queue_set s (Wait PROC) _ Ready), decide_False in H by done.
      match goal with |- core ?t _ => match type of H with core ?u _ => assert (t = u) as -> end end; [|exact H].
      unfold s1, set_queue, set_queues, set_pcbs. simpl. f_equal.
      rewrite (insert_insert_ne _ Ready (Wait PROC)) by done. rewrite insert_insert_eq.
      rewrite (insert_insert_ne _ (Wait PROC) Ready) by done. done. }
    assert (Hsame : ∀ x, x ∈ l → waits_for s1 id x = waits_for s id x).
    { intros x Hx. unfold waits_for, s1. simpl. rewrite lookup_insert_ne; [done|]. by intros ->. }
    eapply wp_mono; [apply (IH pre s1 Hc1)|]. intros rest s' (H1 & H2 & H3 & H4 & H5 & H6 & H7). wp_step.
    assert (F1 : List.filter (λ p, negb (waits_for s1 id p)) l = List.filter (λ p, negb (waits_for s id p)) l).
    { apply filter_ext_in. intros x Hx. rewrite Hsame; [done|]. by apply list_elem_of_In. }
    assert (F2 : List.filter (waits_for s1 id) l = List.filter (waits_for s id) l).
    { apply filter_ext_in. intros x Hx. rewrite Hsame; [done|]. by apply list_elem_of_In. }
    split_and!.
    + exact H1.
    + by rewrite H2.
    + rewrite H3, F2. unfold s1. rewrite queue_set, decide_True by done. by rewrite <- app_assoc.
    + intros q Hq. rewrite H4 by done. unfold s1. by rewrite queue_set, decide_False.
    + by rewrite H5.
    + eapply kept_trans; [|exact H6]. by split.
    + intros x Hx. rewrite not_elem_of_cons in Hx. destruct Hx as [Hx1 Hx2]. rewrite H7 by done.
      unfold s1. simpl. by rewrite lookup_insert_ne.
  - wp_step. wp_step. wp_step. assert (Hc1 : core (set_queue (Wait PROC) ((pre ++ [p]) ++ l) s) run) by (by rewrite <- app_assoc).
    eapply wp_mono; [apply (IH (pre ++ [p]) s Hc1)|]. intros rest s' (H1 & H2 & H3 & H4 & H5 & H6 & H7). wp_step.
    rewrite <- app_assoc in H1. split_and!; [exact H1|by rewrite H2|done|done|done|done|]. intros x Hx. apply H7. set_solver.
Qed.

(** ** Dying *)

(** The queues after the waiters of [id] were woken. *)
Definition woke (s : ps) (id : Z) (q : qid) : list Z :=
  if decide (q = Ready) then queue s Ready ++ List.filter (waits_for s id) (queue s (Wait PROC))
  else if decide (q = Wait PROC) then List.filter (λ p, negb (waits_for s id p)) (queue s (Wait PROC))
  else queue s q.

Lemma set_queue_same s q : is_Some (queues s !! q) → set_queue q (queue s q) s = s.
Proof.
  intros [l Hl]. unfold set_queue, queue, set_queues. rewrite Hl. simpl. rewrite insert_id by done. by destruct s.
Qed.

Lemma core_set_same s q run : core s run ↔ core (set_queue q (queue s q) s) run.
Proof.
  assert (E : ∀ q', queue (set_queue q (queue s q) s) q' = queue s q').
  { intros q'. rewrite queue_set. by case_decide; subst. }
  split; intros [H1 H2 H3 H4 H5 H6 H7 H8 H9 H10 H11 H12]; split; try done; intros q'; specialize (E q').
  - by rewrite E.
  - intros p. by rewrite E.
  - specialize (H6 q'). by rewrite E in H6.
  - intros p. specialize (H7 q' p). by rewrite E in H7.
Qed.

Lemma wp_wake_waiters id run s (Q : unit → ps → Prop) :
  core s run →
  (∀ s', core s' run → (∀ q, queue s' q = woke s id q) → current s' = current s → kept s s' →
     (∀ x, x ∉ queue s (Wait PROC) → pcbs s' !! x = pcbs s !! x) → Q tt s') →
  wp (list_rm_and_process (Wait PROC) (match_pid id) wait_to_ready) Q s.
Proof.
  intros Hc HQ. unfold list_rm_and_process. wp_step. apply wp_get_st. wp_step.
  eapply wp_mono; [apply (wp_rm_pcbs id run _ [] s); by apply core_set_same|].
  intros rest s' (H1 & H2 & H3 & H4 & H5 & H6 & H7). apply wp_modify. apply HQ.
  - exact H1.
  - intros q. unfold woke. rewrite queue_set. destruct (decide (q = Wait PROC)) as [->|Hq].
    + rewrite decide_False by done. exact H2.
    + destruct (decide (q = Ready)) as [->|Hq2]; [exact H3|by apply H4].
  - done.
  - eapply kept_trans; [exact H6|]. by split.
  - exact H7.
Qed.

Lemma dead_ok b : pcb_ok b → 1 < pid b → pcb_ok (with_state DEAD b).
Proof. intros [H1 H2 H3 H4 H5] Hp. split; simpl; [done|done|done|lia|lia]. Qed.

(** Some process is ready whenever the idle thread does not run. *)
Lemma ready_nonempty s b : proc_wf s → pcbs s !! current s = Some b → pid b ≠ 1 → queue s Ready ≠ [].
Proof.
  intros (Hc & Hl & _) Hb Hp E. destruct (c_idle _ _ Hc Hl) as (i & c & Hi & Hi0).
  destruct (c_pcb _ _ Hc _ _ Hi) as (_ & _ & _ & Hok). destruct (po_idle _ Hok Hi0) as [Hr|Hr].
  - apply (c_run _ _ Hc _ _ Hi) in Hr. injection Hr as <-. congruence.
  - assert (i ∈ queue s Ready) as Hin by (apply (block_place _ _ Hc i c); [done|]; unfold place; by rewrite Hr).
    rewrite E in Hin. by apply elem_of_nil in Hin.
Qed.

Lemma waits_for_other s s' id l : (∀ x, x ∈ l → pcbs s' !! x = pcbs s !! x) →
  List.filter (waits_for s' id) l = List.filter (waits_for s id) l ∧
  List.filter (λ p, negb (waits_for s' id p)) l = List.filter (λ p, negb (waits_for s id p)) l.
Proof.
  intros H. split; apply filter_ext_in; intros x Hx%list_elem_of_In; unfold waits_for; by rewrite H.
Qed.

Lemma exit_run s b n rest : proc_wf s → pcbs s !! current s = Some b → 1 < pid b → queue s Ready = n :: rest →
  wp exit (λ away s', away = true ∧ after_switch s s' (λ q,
    if decide (q = Ready) then rest ++ List.filter (waits_for s (pid b)) (queue s (Wait PROC))
    else if decide (q = Dead) then queue s Dead ++ [current s] else woke s (pid b) q) n) s.
Proof.
  intros Hwf Hb Hpid Hready. destruct (wf_current s Hwf) as (b' & Hb' & Hr & Hok & Hcore).
  assert (b' = b) as -> by congruence. clear Hb'. set (p := current s) in *.
  unfold exit. wp_step. apply wp_gets. fold p. wp_step. apply (wp_pcb_get _ b); [done|].
  rewrite decide_False by (rewrite Hr; done). wp_step. apply wp_p_disable. wp_step. unfold die.
  wp_step. wp_step. wp_step. apply (wp_pcb_upd _ b); [done|]. wp_step. apply wp_modify.
  wp_step. apply (wp_pcb_get _ (with_state DEAD b)); [apply lookup_insert_eq|].
  assert (Hc1 : core (set_queue Dead (queue s Dead ++ [p]) (set_pcbs (<[p := with_state DEAD b]> (pcbs s)) s)) None)
    by (apply (core_push s p b); [done|done|done|done|by apply dead_ok|done]).
  set (s1 := set_queue Dead (queue s Dead ++ [p]) (set_pcbs (<[p := with_state DEAD b]> (pcbs s)) (set_pcpu (enter (p_cpu s)) s))).
  match goal with |- wp _ _ ?t => change t with s1 end.
  apply (wp_wake_waiters _ None); [exact (core_cpu _ _ _ Hc1 (enter_ok _ (c_cpu _ _ Hcore)))|].
  intros s2 Hc2 Hq2 Hcur2 Hk2 Ho2. wp_step. apply wp_p_enable.
  assert (Hwp : p ∉ queue s (Wait PROC)).
  { intros Hin. apply (block_place _ _ Hcore p b) in Hin; [|done]. by rewrite (run_place _ _ Hcore p b) in Hin. }
  assert (Hq1 : ∀ q, queue s1 q = if decide (q = Dead) then queue s Dead ++ [p] else queue s q)
    by (intros q; unfold s1; by rewrite queue_set).
  assert (Hm : ∀ x, x ∈ queue s (Wait PROC) → pcbs s1 !! x = pcbs s !! x).
  { intros x Hx. unfold s1. simpl. apply lookup_insert_ne. by intros ->. }
  destruct (waits_for_other s s1 (pid b) _ Hm) as [F1 F2].
  assert (Hq1w : queue s1 (Wait PROC) = queue s (Wait PROC)) by (rewrite Hq1; by rewrite decide_False).
  assert (Hq1r : queue s1 Ready = queue s Ready) by (rewrite Hq1; by rewrite decide_False).
  set (s3 := set_pcpu _ _). assert (Hc3 : core s3 None).
  { apply core_cpu; [done|]. rewrite (k_cpu' _ _ Hk2). simpl. rewrite leave_enter by apply Hcore. apply Hcore. }
  assert (Hqs : ∀ q, queue s3 q = if decide (q = Ready) then queue s Ready ++ List.filter (waits_for s (pid b)) (queue s (Wait PROC))
    else if decide (q = Dead) then queue s Dead ++ [p] else woke s (pid b) q).
  { intros q. change (queue s3 q) with (queue s2 q). rewrite Hq2. unfold woke. simpl (pid (with_state _ _)).
    rewrite Hq1w, Hq1r, F1, F2. destruct (decide (q = Ready)) as [->|]; [done|].
    destruct (decide (q = Wait PROC)) as [->|]; [by rewrite decide_False|]. apply Hq1. }
  wp_step. unfold list_empty. wp_step. apply wp_get_st. wp_step. rewrite Hqs, decide_True, Hready by done.
  rewrite bool_decide_false by done. wp_step.
  eapply (wp_switch_to_next p n); [exact Hc3| |rewrite Hqs, decide_True, Hready by done; done|].
  { change (pcbs s3) with (pcbs s2). rewrite Ho2; [|by rewrite Hq1, decide_False].
    unfold s1. simpl. rewrite lookup_insert_eq. eauto. }
  assert (Hl3 : last_pid s3 ≠ 0) by (change (last_pid s2 ≠ 0); rewrite (k_last _ _ Hk2); apply Hwf).
  intros s' Hc' Hcur Hin Hk Hq'. wp_step. split; [done|]. split; [eapply core_wf; [done|done|by rewrite (k_last _ _ Hk)|done]|]. split; [done|]. split.
  - destruct Hk as [K1 K2 K3 K4], Hk2 as [L1 L2 L3 L4]. split; [|etrans; [exact K2|exact L2]|etrans; [exact K3|exact L3]|etrans; [exact K4|exact L4]].
    rewrite K1. simpl. rewrite L1. simpl. apply leave_enter, Hcore.
  - intros q. rewrite Hq'. case_decide; [done|]. rewrite Hqs. by rewrite decide_False.
Qed.

(** The queues after [p] was killed. *)
Definition without (s : ps) (p : Z) (q : qid) : list Z := default (queue s q) (remove_first p (queue s q)).
Definition killed (s : ps) (id p : Z) (q : qid) : list Z :=
  if decide (q = Ready) then without s p Ready ++ List.filter (waits_for s id) (without s p (Wait PROC))
  else if decide (q = Wait PROC) then List.filter (λ x, negb (waits_for s id x)) (without s p (Wait PROC))
  else if decide (q = Dead) then queue s Dead ++ [p]
  else without s p q.

Lemma without_other s run p b q q' : core s run → pcbs s !! p = Some b → place b = Some q → q' ≠ q → without s p q' = queue s q'.
Proof.
  intros Hc Hb Hpl Hne. unfold without. assert (remove_first p (queue s q') = None) as ->; [|done].
  apply remove_first_None. intros Hin. apply (block_place _ _ Hc p b) in Hin; [|done]. congruence.
Qed.

Lemma die_run s p b q : proc_wf s → pcbs s !! p = Some b → 1 < pid b → place b = Some q → q ≠ Dead →
  wp (die (Some q) p ;; p_on_cpu enable_int) (λ _ s', proc_wf s' ∧ current s' = current s ∧ kept s s' ∧
    ∀ q', queue s' q' = killed s (pid b) p q') (set_pcpu (enter (p_cpu s)) s).
Proof.
  intros Hwf Hb Hpid Hpl Hqd. destruct (wf_current s Hwf) as (bc & Hbc & Hrc & Hokc & Hcore).
  assert (Hpc : p ≠ current s).
  { intros ->. pose proof (run_place _ _ Hcore _ _ Hbc eq_refl). congruence. }
  destruct (c_pcb _ _ Hcore _ _ Hb) as (_ & _ & _ & Hok).
  assert (Hin : p ∈ queue s q) by (by apply (block_place _ _ Hcore p b)).
  destruct (remove_first p (queue s q)) as [l|] eqn:Hl; [|by apply remove_first_None in Hl].
  destruct (remove_first_Some _ _ _ Hl) as (l1 & l2 & Hq & -> & _).
  wp_step. unfold die. wp_step. unfold list_delete. wp_step. apply wp_get_st.
  change (queue (set_pcpu _ s) q) with (queue s q). rewrite Hl. apply wp_modify.
  wp_step. apply (wp_pcb_upd _ b); [done|]. wp_step. apply wp_modify.
  wp_step. apply (wp_pcb_get _ (with_state DEAD b)); [apply lookup_insert_eq|].
  pose proof (core_shift s _ p b (with_state DEAD b) q Dead l1 l2 Hcore Hb Hq eq_refl eq_refl (dead_ok b Hok Hpid) eq_refl Hqd) as Hc1.
  set (s1 := set_queue Dead (queue s Dead ++ [p]) (set_pcbs (<[p := with_state DEAD b]> (pcbs s)) (set_queue q (l1 ++ l2) (set_pcpu (enter (p_cpu s)) s)))).
  match goal with |- wp _ _ ?t => assert (t = s1) as -> end.
  { unfold s1. f_equal. f_equal. change (queue (set_queue q (l1 ++ l2) (set_pcpu (enter (p_cpu s)) s)) Dead = queue s Dead). rewrite queue_set. by rewrite decide_False. }
  apply (wp_wake_waiters _ (Some (current s))); [exact (core_cpu _ _ _ Hc1 (enter_ok _ (c_cpu _ _ Hcore)))|].
  intros s2 Hc2 Hq2 Hcur2 Hk2 Ho2. apply wp_p_enable. simpl (pid (with_state _ _)) in *.
  assert (Hq1 : ∀ q', queue s1 q' = if decide (q' = Dead) then queue s Dead ++ [p] else without s p q').
  { intros q'. unfold s1. rewrite queue_set. case_decide; [done|].
    change (queue (set_queue q (l1 ++ l2) (set_pcpu (enter (p_cpu s)) s)) q' = without s p q'). rewrite queue_set.
    case_decide as E; [subst q'; unfold without; by rewrite Hl|]. exact (eq_sym (without_other s _ p b q q' Hcore Hb Hpl E)). }
  assert (Hq1w : queue s1 (Wait PROC) = without s p (Wait PROC)) by (rewrite Hq1; by rewrite decide_False).
  assert (Hq1r : queue s1 Ready = without s p Ready) by (rewrite Hq1; by rewrite decide_False).
  assert (Hm : ∀ x, x ∈ without s p (Wait PROC) → pcbs s1 !! x = pcbs s !! x).
  { intros x Hx. unfold s1. simpl. apply lookup_insert_ne. intros <-. rewrite <- Hq1w in Hx.
    apply (queue_block _ _ (core_cpu _ _ _ Hc1 (enter_ok _ (c_cpu _ _ Hcore)))) in Hx as (c & Hc & Hplc).
    simpl in Hc. rewrite lookup_insert_eq in Hc. by injection Hc as <-. }
  destruct (waits_for_other s s1 (pid b) _ Hm) as [F1 F2].
  assert (Hcpu : leave (p_cpu s2) = p_cpu s) by (rewrite (k_cpu' _ _ Hk2); simpl; apply leave_enter, Hcore).
  assert (Hcw : current s ∉ queue s1 (Wait PROC)).
  { rewrite Hq1w. intros Hx. pose proof (Hm _ Hx) as E. rewrite <- Hq1w in Hx.
    apply (queue_block _ _ (core_cpu _ _ _ Hc1 (enter_ok _ (c_cpu _ _ Hcore)))) in Hx as (c & Hc & Hplc).
    change (pcbs s1 !! current s = Some c) in Hc. rewrite E, Hbc in Hc. injection Hc as <-.
    by rewrite (run_place _ _ Hcore _ _ Hbc eq_refl) in Hplc. }
  split_and!.
  - eapply core_wf; [apply core_cpu; [exact Hc2|rewrite Hcpu; apply Hcore]|exact Hcur2|cbn [last_pid set_pcpu]; rewrite (k_last _ _ Hk2); apply Hwf|].
    change (is_Some (pcbs s2 !! current s)). rewrite Ho2 by done. unfold s1. simpl. rewrite lookup_insert_ne by done. eauto.
  - exact Hcur2.
  - destruct Hk2 as [L1 L2 L3 L4]. split; [exact Hcpu|exact L2|exact L3|exact L4].
  - intros q'. change (queue (set_pcpu _ s2) q') with (queue s2 q'). rewrite Hq2. unfold woke, killed.
    rewrite Hq1w, Hq1r, F1, F2. case_decide; [done|]. case_decide; [done|]. apply Hq1.
Qed.

Lemma kill_run s id p b : proc_wf s → pcb_table s !! id = Some p → pcbs s !! p = Some b → 1 < id → p ≠ current s →
  wp (kill id) (λ _ s', proc_wf s' ∧ current s' = current s ∧ kept s s' ∧
    ∀ q, queue s' q = if decide (state b = DEAD) then queue s q else killed s id p q) s.
Proof.
  intros Hwf Ht Hb Hid Hpc. destruct (wf_current s Hwf) as (bc & Hbc & Hrc & Hokc & Hcore).
  destruct (c_pcb _ _ Hcore _ _ Hb) as (Hp0 & _ & _ & Hok).
  destruct (c_slot _ _ Hcore _ _ Ht Hp0) as (b' & Hb' & Hpid). assert (b' = b) as -> by congruence.
  unfold kill. wp_step. unfold table_get. wp_step. apply wp_get_st. apply (wp_deref _ p); [done|].
  destruct (Z.eqb_spec p 0); [done|]. wp_step. apply wp_p_disable. wp_step. apply (wp_pcb_get _ b); [done|].
  rewrite <- Hpid in Hid |- *.
  destruct (state b) eqn:Hst.
  - apply (c_run _ _ Hcore _ _ Hb) in Hst. congruence.
  - apply (die_run s p b Ready); [done|done|done|unfold place; by rewrite Hst|done].
  - destruct (po_wait _ Hok Hst) as [e He]. wp_step. apply (wp_deref _ e); [done|].
    apply (die_run s p b (Wait e)); [done|done|done|unfold place; by rewrite Hst, He|done].
  - apply wp_p_enable. cbn [p_cpu set_pcpu]. rewrite leave_enter by apply Hcore.
    change (set_pcpu (p_cpu s) (set_pcpu (enter (p_cpu s)) s)) with (set_pcpu (p_cpu s) s).
    split; [eapply core_wf; [apply core_cpu; [exact Hcore|apply Hcore]|done|apply Hwf|eauto]|].
    split; [done|]. split; [by split|]. intros q. done.
Qed.

(** ** The search for a pid *)

Lemma wp_table_get i p (Q : Z → ps → Prop) s : pcb_table s !! i = Some p → Q p s → wp (table_get i) Q s.
Proof. intros H HQ. unfold table_get. wp_step. apply wp_get_st. by apply (wp_deref _ p). Qed.

Lemma wp_table_set i p q (Q : unit → ps → Prop) s :
  pcb_table s !! i = Some q → Q tt (set_table (<[i := p]> (pcb_table s)) s) → wp (table_set i p) Q s.
Proof. intros H HQ. unfold table_set. wp_step. by apply (wp_table_get _ q). Qed.

Lemma find_pid_run s last r : ∀ fuel pid, pid ≤ r → (Z.to_nat (r - pid) < fuel)%nat → pcb_table s !! r = Some 0 →
  (∀ i, pid ≤ i < r → i ≠ last ∧ ∃ p, pcb_table s !! i = Some p ∧ p ≠ 0) →
  find_pid fuel pid last s = Ok (Some r, s).
Proof.
  induction fuel as [|fuel IH]; intros pid Hle Hf Hr Hbusy; [lia|]. cbn [find_pid].
  destruct (decide (pid = r)) as [->|Hne].
  - unfold table_get, mbind, M_bind, get_st. by rewrite Hr.
  - destruct (Hbusy pid ltac:(lia)) as (Hl & p & Hp & Hp0). unfold mbind at 1, M_bind at 1.
    unfold table_get, mbind, M_bind, get_st. rewrite Hp. cbn.
    destruct (Z.eqb_spec p 0); [done|]. destruct (Z.eqb_spec pid last); [done|].
    apply IH; [lia|lia|done|]. intros i Hi. apply Hbusy. lia.
Qed.

Lemma find_pid_overrun s last : ∀ fuel pid, last < pid ≤ MAX_PROC → (Z.to_nat (MAX_PROC - pid) < fuel)%nat →
  pcb_table s !! MAX_PROC = None → (∀ i, pid ≤ i < MAX_PROC → ∃ p, pcb_table s !! i = Some p ∧ p ≠ 0) →
  find_pid fuel pid last s = Ub.
Proof.
  induction fuel as [|fuel IH]; intros pid Hle Hf Hend Hbusy; [lia|]. cbn [find_pid].
  destruct (decide (pid = MAX_PROC)) as [->|Hne].
  - unfold table_get, mbind, M_bind, get_st. by rewrite Hend.
  - destruct (Hbusy pid ltac:(lia)) as (p & Hp & Hp0).
    unfold table_get, mbind, M_bind, get_st. rewrite Hp. cbn.
    destruct (Z.eqb_spec p 0); [done|]. destruct (Z.eqb_spec pid last); [lia|].
    apply IH; [lia|lia|done|]. intros i Hi. apply Hbusy. lia.
Qed.

Section Alloc.
Context `{!NodeAlloc}.

Lemma wp_p_malloc (Q : Z → ps → Prop) s :
  (let a := fresh_addr (allocs s) in Q a (set_allocs ({[a]} ∪ allocs s) s)) → wp p_malloc Q s.
Proof. done. Qed.

(** A new block joins: the idle thread, or one after it. *)
Lemma core_create s run id p stack b :
  core s run → pcb_table s !! id = Some 0 → p ∉ allocs s → stack ∉ allocs s → p ≠ stack → p ≠ 0 →
  pid b = id → stack1 b = stack + STACK_EL1_SIZE → state b = READY → pcb_ok b → run ≠ Some p →
  id = 1 ∨ (∃ x c, pcbs s !! x = Some c ∧ pid c = 1) →
  core (set_queue Ready (queue s Ready ++ [p]) (set_last_pid id (set_table (<[id := p]> (pcb_table s))
    (set_pcbs (<[p := b]> (pcbs s)) (set_allocs ({[stack]} ∪ ({[p]} ∪ allocs s)) s))))) run.
Proof.
  intros Hc Ht Hp Hs Hps Hp0 Hpid Hst Hr Hok Hrun Hidle. pose proof Hc as [H1 H2 H3 H4 H5 H6 H7 H8 H9 H10 H11 _].
  assert (Hnew : pcbs s !! p = None).
  { destruct (pcbs s !! p) as [c|] eqn:E; [|done]. by destruct (H4 p c E) as (_ & ? & _). }
  assert (Hid : 0 ≤ id < MAX_PROC) by (apply H2; eauto).
  assert (Hpl : place b = Some Ready) by (unfold place; by rewrite Hr).
  assert (Hout : ∀ q, p ∉ queue s q) by (intros q (c & Hc' & _)%H7; congruence).
  split.
  - done.
  - intros i. simpl. rewrite lookup_insert_is_Some'. rewrite H2. naive_solver.
  - intros i x. simpl. intros [[<- <-]|[Hi Hx]]%lookup_insert_Some Hx0.
    + exists b. by rewrite lookup_insert_eq.
    + destruct (H3 i x Hx Hx0) as (c & Hc' & ?). exists c. rewrite lookup_insert_ne by congruence. done.
  - intros x c. simpl. intros [[<- <-]|[Hx Hc']]%lookup_insert_Some.
    + rewrite Hpid, lookup_insert_eq. split_and!; [done|set_solver|done|done].
    + destruct (H4 x c Hc') as (? & ? & Htc & ?). split_and!; [done|set_solver| |done].
      rewrite lookup_insert_ne; [done|]. intros E. rewrite <- E, Ht in Htc. congruence.
  - intros x c. simpl. intros [[<- <-]|[Hx Hc']]%lookup_insert_Some; [|by apply H5]. rewrite Hr. by split.
  - intros q. rewrite queue_set. case_decide; [|apply H6]. apply NoDup_app. split_and!; [apply H6| |apply NoDup_singleton].
    intros x Hx. rewrite list_elem_of_singleton. intros ->. by apply (Hout Ready).
  - intros q x. rewrite queue_set. simpl. change (queue _ q) with (queue s q) at 1.
    destruct (decide (x = p)) as [->|Hx].
    + rewrite lookup_insert_eq. case_decide as E.
      * subst q. split; [by eauto|]. set_solver.
      * split; [by intros ?%Hout|]. intros (c & [= <-] & ?). congruence.
    + rewrite lookup_insert_ne by done. rewrite <- H7. case_decide as E; [subst q|done].
      rewrite elem_of_app, list_elem_of_singleton. naive_solver.
  - intros x c. simpl. intros [[<- <-]|[Hx Hc']]%lookup_insert_Some Hcp.
    + rewrite Hst. replace (stack + STACK_EL1_SIZE - STACK_EL1_SIZE) with stack by lia. split; [set_solver|].
      rewrite lookup_insert_ne by done. destruct (pcbs s !! stack) as [c|] eqn:E; [|done]. by destruct (H4 _ c E) as (_ & ? & _).
    + destruct (H8 x c Hc' Hcp) as [Ha Hn]. split; [set_solver|]. rewrite lookup_insert_ne; [done|]. intros ->. done.
  - intros x y c d. simpl. intros [[<- <-]|[Hx Hcx]]%lookup_insert_Some [[<- <-]|[Hy Hdy]]%lookup_insert_Some Hcp Hdp E; [done| | |by eapply H9].
    + destruct (H8 y d Hdy Hdp) as [Ha _]. rewrite <- E, Hst in Ha. replace (stack + STACK_EL1_SIZE - STACK_EL1_SIZE) with stack in Ha by lia. done.
    + destruct (H8 x c Hcx Hcp) as [Ha _]. rewrite E, Hst in Ha. replace (stack + STACK_EL1_SIZE - STACK_EL1_SIZE) with stack in Ha by lia. done.
  - simpl. lia.
  - destruct H11 as (x & c & Hc' & Hc0). exists x, c. simpl. rewrite lookup_insert_ne by congruence. done.
  - intros _. simpl. destruct Hidle as [Hi|(x & c & Hc' & Hc1)].
    + exists p, b. rewrite lookup_insert_eq, Hpid. done.
    + exists x, c. rewrite lookup_insert_ne by congruence. done.
Qed.

(** The slots between the last pid given out and [r] are taken, [r] is free. *)
Definition next_pid (s : ps) (r : Z) : Prop :=
  Z.rem (last_pid s + 1) MAX_PROC ≤ r < MAX_PROC ∧ pcb_table s !! r = Some 0 ∧
  ∀ i, Z.rem (last_pid s + 1) MAX_PROC ≤ i < r → ∃ p, pcb_table s !! i = Some p ∧ p ≠ 0.

(** A new pid is never the shell's; it is the idle thread's, or the idle
    thread is there. *)
Lemma new_pid s run r : core s run → next_pid s r → 0 < r ∧ (r = 1 ∨ ∃ x c, pcbs s !! x = Some c ∧ pid c = 1).
Proof.
  intros Hc ([Hs1 Hs2] & Hr & Hbusy). pose proof (c_last _ _ Hc) as Hlast.
  assert (Hr0 : r ≠ 0).
  { intros ->. destruct (c_shell _ _ Hc) as (x & c & Hx & Hx0). destruct (c_pcb _ _ Hc _ _ Hx) as (? & _ & Ht & _). congruence. }
  assert (Hrem : 0 ≤ Z.rem (last_pid s + 1) MAX_PROC) by (apply Z.rem_nonneg; unfold MAX_PROC in *; lia).
  split; [lia|]. destruct (decide (last_pid s = 0)) as [E|Hne]; [|right; by apply (c_idle _ _ Hc)].
  rewrite E in Hs1, Hbusy. change (Z.rem (0 + 1) MAX_PROC) with 1 in *. destruct (decide (r = 1)) as [|Hr1]; [by left|right].
  destruct (Hbusy 1 ltac:(lia)) as (x & Hx & Hx0). destruct (c_slot _ _ Hc _ _ Hx Hx0) as (c & ? & ?). eauto.
Qed.

Lemma create_run s func args r : core s (Some (current s)) → is_Some (pcbs s !! current s) → next_pid s r →
  let p := fresh_addr (allocs s) in let stack := fresh_addr ({[p]} ∪ allocs s) in
  let b := new_thread r func args (h_ttbr1 (hws s)) (stack + STACK_EL1_SIZE) (rootdir s) in
  let s' := set_queue Ready (queue s Ready ++ [p]) (set_last_pid r (set_table (<[r := p]> (pcb_table s))
    (set_pcbs (<[p := b]> (pcbs s)) (set_allocs ({[stack]} ∪ ({[p]} ∪ allocs s)) s)))) in
  thread_create func args s = Ok (r, s') ∧ proc_wf s' ∧ pcbs s !! p = None.
Proof.
  intros Hcore [bc Hbc] Hnext p stack b s'. pose proof Hnext as ([Hs1 Hs2] & Hr & Hbusy).
  destruct (new_pid _ _ _ Hcore Hnext) as [Hpos Hidle].
  pose proof (c_last _ _ Hcore) as Hlast.
  assert (Hp : p ∉ allocs s) by apply fresh_addr_new.
  assert (Hst : stack ∉ {[p]} ∪ allocs s) by apply fresh_addr_new.
  assert (Hp0 : p ≠ 0) by apply fresh_addr_nonnull.
  assert (Hnew : pcbs s !! p = None).
  { destruct (pcbs s !! p) as [c|] eqn:E; [|done]. by destruct (c_pcb _ _ Hcore p c E) as (_ & ? & _). }
  assert (Hne : current s ≠ p) by congruence.
  assert (Hrem : 0 ≤ Z.rem (last_pid s + 1) MAX_PROC) by (apply Z.rem_nonneg; unfold MAX_PROC in *; lia).
  split; [|split; [|exact Hnew]].
  - enough (wp (thread_create func args) (λ x t, x = r ∧ t = s') s) as (x & t & -> & -> & ->)%wp_run by done.
    unfold thread_create. wp_step. apply wp_p_disable. wp_step. apply wp_gets. wp_step.
    eapply wp_eq; [apply (find_pid_run _ _ r)|]; [exact Hs1|cbn [last_pid set_pcpu]; unfold MAX_PROC in *; lia|done| |]; cbn [last_pid set_pcpu].
    { intros i Hi. split; [|by apply Hbusy]. simpl in Hi |- *. intros ->. unfold MAX_PROC in *.
      destruct (decide (last_pid s = 1023)) as [E|]; [rewrite E in *; lia|]. rewrite Z.rem_small in Hi by lia. lia. }
    cbn beta iota. wp_step. apply wp_p_malloc. cbn zeta. wp_step. apply wp_p_malloc. cbn zeta. wp_step. apply wp_get_st. wp_step. apply wp_modify.
    wp_step. apply (wp_table_set _ _ 0); [done|]. wp_step. apply wp_modify. wp_step. apply wp_modify.
    wp_step. apply wp_p_enable. wp_step. split; [done|].
    apply ps_ext; [apply leave_enter, Hcore|reflexivity..].
  - eapply core_wf; [| | |].
    + apply (core_create s (Some (current s)) r p stack b); [exact Hcore|done|done| | |done|done|done|done| |congruence|exact Hidle].
      * set_solver.
      * set_solver.
      * split; simpl; [done|done|by intros x ?%elem_of_nil|done|auto].
    + done.
    + simpl. lia.
    + simpl. rewrite lookup_insert_ne by done. eauto.
Qed.
End Alloc.

(** ** Reaping *)

(** A dead block leaves. *)
Definition reaped (p : Z) (b : pcb) (rest : list Z) (s : ps) : ps :=
  set_pcbs (delete p (pcbs s)) (set_allocs (allocs s ∖ {[stack1 b - STACK_EL1_SIZE]} ∖ {[p]})
    (set_table (<[pid b := 0]> (pcb_table s)) (set_queue Dead rest s))).

Lemma core_reap s run p b rest :
  core s run → queue s Dead = p :: rest → pcbs s !! p = Some b → core (reaped p b rest s) run ∧ 1 < pid b.
Proof.
  intros Hc Hq Hb. pose proof Hc as [H1 H2 H3 H4 H5 H6 H7 H8 H9 H10 H11 H12].
  assert (Hpl : place b = Some Dead) by (apply (block_place _ _ Hc p b); [done|]; rewrite Hq; by left).
  destruct (H4 p b Hb) as (Hp0 & Hpa & Hpt & Hok).
  assert (Hst : state b = DEAD) by (unfold place in Hpl; destruct (state b), (wait_q b); simpl in Hpl; naive_solver).
  assert (Hid : 1 < pid b).
  { assert (0 ≤ pid b < MAX_PROC) by (apply H2; eauto).
    assert (pid b ≠ 0) by (intros E; by apply (po_shell _ Hok E)).
    assert (pid b ≠ 1) by (intros E; destruct (po_idle _ Hok E); congruence). lia. }
  destruct (H8 p b Hb ltac:(lia)) as [Hsa Hsn]. pose proof (H6 Dead) as Hnd. rewrite Hq in Hnd. apply NoDup_cons in Hnd as [Hni Hnd].
  assert (Hqs : ∀ q, queue (reaped p b rest s) q = if decide (q = Dead) then rest else queue s q) by (intros q; apply queue_set).
  split; [|done]. split.
  - done.
  - intros i. simpl. rewrite lookup_insert_is_Some'. rewrite H2. split; [|by right].
    intros [<-|?]; [|done]. apply H2. eauto.
  - intros i x. simpl. intros [[<- <-]|[Hi Hx]]%lookup_insert_Some Hx0; [done|].
    destruct (H3 i x Hx Hx0) as (c & Hc' & Hci). exists c. rewrite lookup_delete_ne; [done|]. intros ->. congruence.
  - intros x c. simpl. intros [Hx Hc']%lookup_delete_Some. destruct (H4 x c Hc') as (? & Hxa & Hxt & ?).
    split_and!; [done| |rewrite lookup_insert_ne; [done|congruence]|done].
    assert (x ≠ stack1 b - STACK_EL1_SIZE) by (intros ->; congruence). set_solver.
  - intros x c. simpl. intros [Hx Hc']%lookup_delete_Some. by apply H5.
  - intros q. rewrite Hqs. case_decide; [done|apply H6].
  - intros q x. rewrite Hqs. simpl. destruct (decide (x = p)) as [->|Hx].
    + rewrite lookup_delete_eq. split; [|naive_solver]. intros Hin. case_decide as E; [done|].
      apply (block_place _ _ Hc p b) in Hin; congruence.
    + rewrite lookup_delete_ne, <- H7 by done. case_decide as E; [subst q|done]. rewrite Hq. set_solver.
  - intros x c. simpl. intros [Hx Hc']%lookup_delete_Some Hcp. destruct (H8 x c Hc' Hcp) as [Ha Hn]. split.
    + assert (stack1 c - STACK_EL1_SIZE ≠ stack1 b - STACK_EL1_SIZE) by (intros E; apply Hx, (H9 p x b c); (done || lia)).
      assert (stack1 c - STACK_EL1_SIZE ≠ p) by (intros E; rewrite E in Hn; congruence). set_solver.
    + apply lookup_delete_None. by right.
  - intros x y c d. simpl. intros [_ Hcx]%lookup_delete_Some [_ Hdy]%lookup_delete_Some. by apply H9.
  - done.
  - destruct H11 as (x & c & Hc' & Hc0). exists x, c. simpl. rewrite lookup_delete_ne; [done|]. intros ->. assert (c = b) by congruence. subst. lia.
  - simpl. intros Hl. destruct (H12 Hl) as (x & c & Hc' & Hc0). exists x, c. rewrite lookup_delete_ne; [done|]. intros ->. assert (c = b) by congruence. subst. lia.
Qed.

Section Reap.
Context {V : Type} (free_sections : list section → Z → M V unit) (free_page_table : Z → M V unit).

Definition blocks (s : ps) (l : list Z) : list pcb := omap (λ p, pcbs s !! p) l.

Lemma wp_kill_zombies run v' : ∀ l fuel (y : sys V), core (y_ps y) run → queue (y_ps y) Dead = l → (length l < fuel)%nat →
  for_each (blocks (y_ps y) l) (release_space free_sections free_page_table) (y_vm y) = Ok (tt, v') →
  wp (kill_zombies free_sections free_page_table fuel) (λ _ y', y_vm y' = v' ∧ core (y_ps y') run ∧
    current (y_ps y') = current (y_ps y) ∧ last_pid (y_ps y') = last_pid (y_ps y) ∧ p_cpu (y_ps y') = p_cpu (y_ps y) ∧
    (∀ q, queue (y_ps y') q = if decide (q = Dead) then [] else queue (y_ps y) q) ∧
    (∀ x, pcbs (y_ps y') !! x = if decide (x ∈ l) then None else pcbs (y_ps y) !! x)) y.
Proof.
  induction l as [|p l IH]; intros fuel y Hc Hq Hf Hv; (destruct fuel as [|fuel]; [simpl in Hf; lia|]); cbn [kill_zombies].
  - wp_step. apply wp_zoom. unfold list_pop. wp_step. apply wp_get_st. rewrite Hq. wp_step. simpl. wp_step.
    injection Hv as Hv. destruct y as [s v]. simpl in *. split_and!; [done|done|done|done|done| |].
    + intros q. case_decide; [by subst|done].
    + done.
  - destruct (queue_block _ _ Hc Dead p ltac:(rewrite Hq; by left)) as (b & Hb & _).
    destruct (c_pcb _ _ Hc _ _ Hb) as (Hp0 & Hpa & Hpt & _).
    destruct (core_reap _ _ p b l Hc Hq Hb) as [Hc' Hid]. destruct (c_stack _ _ Hc _ _ Hb ltac:(lia)) as [Hsa Hsn].
    unfold blocks in Hv. simpl omap in Hv. rewrite Hb in Hv. cbn [for_each] in Hv.
    unfold mbind, M_bind in Hv. destruct (release_space _ _ b (y_vm y)) as [[[] v1]| |] eqn:Er; [|done..].
    wp_step. apply wp_zoom. unfold list_pop. wp_step. apply wp_get_st. rewrite Hq. wp_step. apply wp_modify. wp_step.
    destruct (Z.eqb_spec p 0); [done|]. wp_step. apply wp_zoom. apply (wp_pcb_get _ b); [done|].
    wp_step. apply wp_zoom. simpl (y_vm _). eapply wp_eq; [exact Er|].
    wp_step. apply wp_zoom. unfold p_free. wp_step. apply wp_get_st. wp_step. apply wp_assert; [by apply bool_decide_eq_true|]. apply wp_modify.
    wp_step. apply wp_zoom. apply (wp_table_set _ _ p); [exact Hpt|].
    wp_step. apply wp_zoom. wp_step. apply wp_get_st. wp_step. apply wp_assert.
    { apply bool_decide_eq_true. simpl. assert (p ≠ stack1 b - STACK_EL1_SIZE) by (intros ->; congruence). set_solver. }
    apply wp_modify. wp_step. apply wp_zoom. apply wp_modify.
    set (y1 := set_yps _ _). assert (Ey : y1 = mk_sys (reaped p b l (y_ps y)) v1) by reflexivity.
    assert (Hqs : ∀ q, queue (reaped p b l (y_ps y)) q = if decide (q = Dead) then l else queue (y_ps y) q) by (intros q; apply queue_set).
    pose proof (c_nodup _ _ Hc Dead) as Hnd. rewrite Hq in Hnd. apply NoDup_cons in Hnd as [Hni _].
    rewrite Ey. eapply wp_mono; [apply (IH fuel (mk_sys (reaped p b l (y_ps y)) v1))|].
    + exact Hc'.
    + simpl. rewrite Hqs. by rewrite decide_True.
    + simpl in Hf. lia.
    + simpl. rewrite <- Hv. f_equal. unfold blocks. clear -Hni. induction l as [|x l IH]; [done|].
      rewrite not_elem_of_cons in Hni. destruct Hni as [Hne Hni]. simpl. rewrite lookup_delete_ne by done.
      destruct (pcbs (y_ps y) !! x); [f_equal|]; by apply IH.
    + intros _ y' (R1 & R2 & R3 & Rl & R4 & R5 & R6). simpl in *. split_and!; [done|done|done|done|done| |].
      * intros q. rewrite R5. case_decide; [done|]. rewrite Hqs. by rewrite decide_False.
      * intros x. rewrite R6. destruct (decide (x = p)) as [->|Hx].
        -- rewrite lookup_delete_eq. rewrite (decide_True _ _ (P := p ∈ p :: l)) by (by left). by case_decide.
        -- rewrite lookup_delete_ne by done. do 2 case_decide; set_solver.
Qed.
End Reap.
