(* ===== verification/ProcessProps.v ===== *)
(** * Properties of processes and the scheduler

    The steps of the system from boot and their invariant; waiting, exit,
    kill, creation and reaping; round-robin; concrete runs. *)

From S2P Require Import Prelude Cpu KList Process ProcessInv ProcessThm.

(** ** The boot state *)

(** Before [init_pcb]: an empty table and empty queues. *)
Definition no_procs (h : hw) (root : Z) : ps :=
  mk_ps (mk_cpu 1 true []) ∅ (list_to_map ((λ i, (i, 0)) <$> zseq 0 1024)) 0 ∅ 0 ∅ h root.

Lemma no_procs_table h root i : pcb_table (no_procs h root) !! i = if decide (0 ≤ i < MAX_PROC) then Some 0 else None.
Proof.
  unfold no_procs. cbn [pcb_table]. case_decide as Hi.
  - apply elem_of_list_to_map_1'.
    + by intros y (j & [= _ ->] & _)%list_elem_of_fmap.
    + apply list_elem_of_fmap. exists i. split; [done|]. apply elem_of_zseq. unfold MAX_PROC in Hi. lia.
  - apply not_elem_of_list_to_map_1. rewrite <- list_fmap_compose. intros (j & -> & Hj%elem_of_zseq)%list_elem_of_fmap.
    unfold MAX_PROC in Hi. simpl in Hi. lia.
Qed.

Section Alloc.
Context `{!NodeAlloc}.

Lemma init_pcb_wf h root estack fp uart :
  ∃ s, init_pcb estack fp uart (no_procs h root) = Ok (tt, s) ∧ core s (Some (current s)) ∧ is_Some (pcbs s !! current s) ∧
    (∀ q, queue s q = []) ∧ (∀ i, 0 < i < MAX_PROC → pcb_table s !! i = Some 0) ∧ last_pid s = 0.
Proof.
  apply wp_unit. unfold init_pcb. wp_step. apply wp_p_malloc. cbn zeta. wp_step. apply wp_get_st. cbn zeta.
  wp_step. apply wp_modify. wp_step. apply (wp_table_set _ _ 0); [by vm_compute|]. apply wp_modify.
  set (a := fresh_addr _). pose proof (fresh_addr_nonnull (allocs (no_procs h root))) as Ha. fold a in Ha.
  match goal with |- context [mk_pcb 0 0 1 ?r _ _ _ _ _ _ _ _ _ _ _ _ _ _ _ ?f ?b] => set (blk := mk_pcb 0 0 1 r zero_regs 0 0
    (C_fn "idle") estack RUN None EL1H_W_DAIF 0 0 (replicate 64 SIG_DFL) [] [] (h_ttbr1 h) root f b) end.
  match goal with |- core ?t _ ∧ _ => assert (E1 : pcbs t = {[a := blk]}) by reflexivity;
    assert (E2 : ∀ i, pcb_table t !! i = if decide (i = 0) then Some a else pcb_table (no_procs h root) !! i);
    [intros i; destruct (decide (i = 0)) as [->|]; [apply lookup_insert_eq|by apply lookup_insert_ne]|];
    assert (E3 : ∀ q, queue t q = []) by reflexivity;
    assert (E4 : allocs t = {[a]} ∪ ∅) by reflexivity;
    assert (E5 : current t = a) by reflexivity; assert (E6 : p_cpu t = mk_cpu 1 true []) by reflexivity;
    assert (E7 : last_pid t = 0) by reflexivity; set (s := t) in * end.
  clearbody s. assert (Hblk : pcb_ok blk) by (split; simpl; [done|done|by intros x ?%elem_of_nil|done|auto]).
  split_and!; [|rewrite E1, E5, lookup_singleton_eq; eauto|done| |done].
  - rewrite E5. split.
    + rewrite E6. by split.
    + intros i. rewrite E2, no_procs_table. clear. unfold MAX_PROC.
      destruct (decide (i = 0)), (decide (0 ≤ i < 1024)); split; (lia || (intros _; eauto; lia) || (intros [? [=]])).
    + intros i p. rewrite E2, no_procs_table, E1. case_decide as Hi.
      * intros [= <-] _. exists blk. by rewrite lookup_singleton_eq, Hi.
      * case_decide; [intros [= <-] Hp0; by destruct Hp0|intros [=]].
    + intros p b. rewrite E1, E2, E4. intros [<- <-]%lookup_singleton_Some. clear -Ha Hblk.
      split; [exact Ha|]. split; [set_solver|]. split; [by rewrite decide_True|exact Hblk].
    + intros p b. rewrite E1. intros [<- <-]%lookup_singleton_Some. split; intros _; reflexivity.
    + intros q. rewrite E3. constructor.
    + intros q p. rewrite E3, E1. split; [by intros ?%elem_of_nil|]. by intros (b & [<- <-]%lookup_singleton_Some & ?).
    + intros p b. rewrite E1. intros [<- <-]%lookup_singleton_Some Hp0. by destruct Hp0.
    + intros p q b c. rewrite E1. intros [<- <-]%lookup_singleton_Some _ Hp0. by destruct Hp0.
    + rewrite E7. unfold MAX_PROC. lia.
    + exists a, blk. by rewrite E1, lookup_singleton_eq.
    + by rewrite E7.
  - intros i Hi. rewrite E2, decide_False, no_procs_table by lia. rewrite decide_True by lia. done.
Qed.

Lemma start_processes_wf h root estack fp uart :
  ∃ s, start_processes estack fp uart (no_procs h root) = Ok (1, s) ∧ proc_wf s ∧
    last_pid s = 1 ∧ (∀ i, 1 < i < MAX_PROC → pcb_table s !! i = Some 0).
Proof.
  destruct (init_pcb_wf h root estack fp uart) as (s0 & E0 & Hc & Hb & _ & Ht & Hl).
  assert (Hn : next_pid s0 1).
  { unfold next_pid. rewrite Hl. change (Z.rem (0 + 1) MAX_PROC) with 1. split; [unfold MAX_PROC; lia|].
    split; [apply Ht; unfold MAX_PROC; lia|]. intros i Hi. lia. }
  destruct (create_run s0 (C_fn "idle") 0 1 Hc Hb Hn) as (E & Hwf & _). eexists. split.
  { unfold start_processes. rewrite (bind_Ok _ _ _ _ _ E0). exact E. }
  split; [exact Hwf|]. split; [done|]. intros i Hi.
  cbn [last_pid set_queue set_queues set_last_pid pcb_table set_table set_pcbs set_allocs].
  rewrite lookup_insert_ne by lia. apply Ht. lia.
Qed.

(** ** Further operations *)

Lemma quiet_wf s s' : proc_wf s → quiet s s' → proc_wf s'.
Proof.
  intros [Hc (Hl & b & Hb & Hr)] Hq. split; [rewrite (q_cur _ _ Hq); by eapply core_quiet|].
  split; [by rewrite (q_last _ _ Hq)|].
  destruct (same_blocks_Some _ _ _ _ (q_blocks _ _ Hq) Hb) as (b' & Hb' & S).
  exists b'. rewrite (q_cur _ _ Hq), (sp_state _ _ S). done.
Qed.

(** The first waiter, if there is enough for it. *)
Definition wakes (s : ps) (e : event) (avail : Z) : option Z :=
  match queue s (Wait e) with
  | [] => None
  | p :: _ => match pcbs s !! p with Some b => if wait_data b <=? avail then Some p else None | None => None end
  end.

Lemma wake_run s e avail : proc_wf s →
  ∃ s', wake_first e avail s = Ok (tt, s') ∧ proc_wf s' ∧ current s' = current s ∧ kept s s' ∧
    match wakes s e avail with
    | None => s' = s
    | Some p => ∀ q, queue s' q = if decide (q = Wait e) then tail (queue s (Wait e))
                  else if decide (q = Ready) then queue s Ready ++ [p] else queue s q
    end.
Proof.
  intros Hwf. destruct (wf_current s Hwf) as (bc & Hbc & Hrc & _ & Hcore).
  unfold wakes. destruct (queue s (Wait e)) as [|p l] eqn:Hq.
  { exists s. unfold wake_first, list_empty, mbind, M_bind, get_st. rewrite Hq. by split_and!. }
  destruct (queue_block _ _ Hcore (Wait e) p ltac:(rewrite Hq; by left)) as (b & Hb & Hpl). rewrite Hb.
  apply wp_unit. unfold wake_first. wp_step. unfold list_empty. wp_step. apply wp_get_st. wp_step. rewrite Hq, bool_decide_false by done.
  wp_step. apply wp_get_st. rewrite Hq. simpl hd. wp_step. apply (wp_pcb_get _ b); [done|].
  destruct (wait_data b <=? avail); [|wp_step; by split_and!].
  wp_step. unfold list_pop. wp_step. apply wp_get_st. rewrite Hq. wp_step. apply wp_modify. wp_step.
  apply (wp_wait_to_ready p b); [apply Hcore|done|].
  pose proof (core_wake s _ p b e [] l Hcore Hb Hq) as Hc. simpl app in Hc.
  set (t := set_queue Ready _ _). assert (Et : t = set_queue (Wait e) l (set_queue Ready (queue s Ready ++ [p]) (set_pcbs (<[p := woken b]> (pcbs s)) s))).
  { unfold t. apply ps_ext; try reflexivity. rewrite (queue_set s), decide_False by done. simpl. by rewrite insert_insert_ne. }
  assert (Hqs : ∀ q, queue t q = if decide (q = Wait e) then l else if decide (q = Ready) then queue s Ready ++ [p] else queue s q).
  { intros q. rewrite Et, !queue_set. done. }
  split_and!; [|done|by split|exact Hqs].
  eapply core_wf; [rewrite Et; exact Hc|reflexivity|apply Hwf|]. unfold t. cbn [pcbs set_queue set_queues set_pcbs].
  destruct (decide (current s = p)) as [<-|]; [rewrite lookup_insert_eq|rewrite lookup_insert_ne by done]; eauto.
Qed.

Lemma signal_kill_run s id p signo : proc_wf s → pcb_table s !! id = Some p → p ≠ 0 → 0 ≤ signo < NSIG →
  ∃ s', signal_kill id signo s = Ok (tt, s') ∧ proc_wf s'.
Proof.
  intros Hwf Ht Hp Hs. destruct (wf_current s Hwf) as (bc & Hbc & Hrc & _ & Hcore).
  destruct (c_slot _ _ Hcore _ _ Ht Hp) as (b & Hb & Hid).
  apply wp_unit. unfold signal_kill. wp_step. apply (wp_table_get _ p); [done|]. destruct (Z.eqb_spec p 0); [done|].
  apply (wp_pcb_upd _ b); [done|]. set (b' := with_signals _ b).
  destruct (c_pcb _ _ Hcore _ _ Hb) as (_ & _ & _ & Hok).
  assert (Hok' : pcb_ok b').
  { destruct Hok as [O1 O2 O3 O4 O5]. split; simpl; [done|done| |done|done]. intros x [?| ->%list_elem_of_singleton]%elem_of_app; auto. }
  assert (Hb'' : is_Some (<[p := b']> (pcbs s) !! current s)).
  { destruct (decide (p = current s)) as [->|]; [rewrite lookup_insert_eq|rewrite lookup_insert_ne by done]; eauto. }
  eapply core_wf; [|reflexivity|apply Hwf|exact Hb'']. simpl current.
  eapply (core_move s _ (Some (current s)) (Some (current s)) p b b'); [done|done|apply Hcore|done..|apply Hcore| |by apply (c_run _ _ Hcore p b)|done].
  intros q x. change (queue (set_pcbs _ s) q) with (queue s q). split.
  - intros Hx. destruct (decide (x = p)) as [->|]; [right|by left]. split; [done|]. by apply (block_place _ _ Hcore p b) in Hx.
  - intros [[_ ?]|[-> ?]]; [done|]. by apply (block_place _ _ Hcore p b).
Qed.

Lemma signal_run s signo handler : proc_wf s → 0 ≤ signo < NSIG →
  ∃ s', signal signo handler s = Ok (tt, s') ∧ proc_wf s'.
Proof.
  intros Hwf Hs. destruct (wf_current s Hwf) as (b & Hb & Hrc & Hok & Hcore). unfold NSIG in Hs.
  destruct (lookup_lt_is_Some_2 (sig_handler b) (Z.to_nat signo) ltac:(rewrite (po_sig _ Hok); lia)) as [h Hh].
  apply wp_unit. unfold signal. wp_step. apply wp_gets. wp_step. apply (wp_pcb_get _ b); [done|].
  wp_step. rewrite bool_decide_true by lia. apply (wp_deref _ h); [done|]. apply (wp_upd_same _ b); [done| |].
  - split; try done. simpl. apply length_insert.
  - intros s' Hq _. by eapply quiet_wf.
Qed.

(** ** The scheduler as a transition system *)

(** The process of pid [id] runs: 0 is the boot process, which is the shell,
    1 the idle thread, the first thread [main] creates. *)
Definition runs (id : Z) (s : ps) : Prop := ∃ b, pcbs s !! current s = Some b ∧ pid b = id.

(** One operation of the current process or of an interrupt handler.  [idle]
    only reaps and schedules: it does not wait.  Neither the idle thread nor
    the shell exits, and nobody kills them. *)
Inductive sched_step : ps → ps → Prop :=
  | step_create s s' func args r : next_pid s r → thread_create func args s = Ok (r, s') → sched_step s s'
  | step_schedule s s' : schedule s = Ok (tt, s') → sched_step s s'
  | step_wait s s' e data : ¬ runs 1 s → wait e data s = Ok (tt, s') → sched_step s s'
  | step_wake s s' e avail : wake_first e avail s = Ok (tt, s') → sched_step s s'
  | step_exit s s' away : ¬ runs 0 s → ¬ runs 1 s → exit s = Ok (away, s') → sched_step s s'
  | step_kill s s' id p : 1 < id → pcb_table s !! id = Some p → p ≠ current s → kill id s = Ok (tt, s') → sched_step s s'
  | step_signal s s' signo handler : 0 ≤ signo < NSIG → signal signo handler s = Ok (tt, s') → sched_step s s'
  | step_signal_kill s s' id signo : 0 ≤ id < MAX_PROC → 0 ≤ signo < NSIG → signal_kill id signo s = Ok (tt, s') → sched_step s s'
  | step_reap s s' fuel : (length (queue s Dead) < fuel)%nat →
      kill_zombies (λ _ _, mret tt) (λ _, mret tt) fuel (mk_sys s tt) = Ok (tt, mk_sys s' tt) → sched_step s s'.

Inductive reachable : ps → Prop :=
  | reach_boot h root estack fp uart s : start_processes estack fp uart (no_procs h root) = Ok (1, s) → reachable s
  | reach_step s s' : reachable s → sched_step s s' → reachable s'.

Lemma not_runs i s b : ¬ runs i s → pcbs s !! current s = Some b → pid b ≠ i.
Proof. intros Hn Hb E. apply Hn. by exists b. Qed.

Lemma pid_nonneg s p b : proc_wf s → pcbs s !! p = Some b → 0 ≤ pid b.
Proof. intros [Hc _] Hb. destruct (c_pcb _ _ Hc _ _ Hb) as (_ & _ & Ht & _). apply (c_table _ _ Hc (pid b)). eauto. Qed.

Lemma ready_next s : proc_wf s → ¬ runs 1 s → ∃ n rest, queue s Ready = n :: rest.
Proof.
  intros Hwf Hn. destruct (wf_current s Hwf) as (b & Hb & _).
  pose proof (ready_nonempty s b Hwf Hb (not_runs 1 s b Hn Hb)). destruct (queue s Ready); [done|eauto].
Qed.

Lemma release_nothing l : for_each l (release_space (λ _ _, mret tt) (λ _, mret tt)) tt = Ok (tt, tt).
Proof.
  induction l as [|b l IH]; [done|]. cbn [for_each]. unfold mbind at 1, M_bind at 1.
  assert (release_space (λ _ _, mret tt) (λ _, mret tt) b tt = Ok (tt, tt)) as -> by (unfold release_space; by case_match). exact IH.
Qed.


Lemma create_wf s func args r x s' : proc_wf s → next_pid s r → thread_create func args s = Ok (x, s') → proc_wf s'.
Proof.
  intros Hwf Hn E. destruct (wf_current s Hwf) as (b & Hb & _ & _ & Hc).
  destruct (create_run s func args r Hc ltac:(eauto) Hn) as (E' & HW & _). congruence.
Qed.

Lemma step_wf s s' : proc_wf s → sched_step s s' → proc_wf s'.
Proof.
  intros Hwf Hstep. destruct Hstep as [s s' func args r Hn E|s s' E|s s' e data Hi E|s s' e n E|s s' away H0 Hi E|s s' id p Hid Ht Hp E
    |s s' signo h Hs E|s s' id signo Hid Hs E|s s' fuel Hf E].
  - by eapply create_wf.
  - pose proof (schedule_run s Hwf) as HW. destruct (queue s Ready) as [|n rest]; [by assert (s' = s) as -> by congruence|].
    unfold wp in HW. rewrite E in HW. by destruct HW.
  - destruct (wf_current s Hwf) as (b & Hb & _). destruct (ready_next s Hwf Hi) as (n & rest & Hr).
    pose proof (wait_run s e data n rest Hwf Hr ltac:(intros b' Hb'; by apply (not_runs 1 s))) as HW.
    unfold wp in HW. rewrite E in HW. by destruct HW.
  - destruct (wake_run s e n Hwf) as (t & E' & HW & _). by assert (s' = t) as -> by congruence.
  - destruct (wf_current s Hwf) as (b & Hb & _). destruct (ready_next s Hwf Hi) as (n & rest & Hr).
    pose proof (pid_nonneg _ _ _ Hwf Hb). pose proof (not_runs _ _ _ H0 Hb). pose proof (not_runs _ _ _ Hi Hb).
    pose proof (exit_run s b n rest Hwf Hb ltac:(lia) Hr) as HW.
    unfold wp in HW. rewrite E in HW. by destruct HW as (_ & ? & _).
  - destruct (wf_current s Hwf) as (bc & Hbc & _ & _ & Hcore). destruct (decide (p = 0)) as [->|Hp0].
    { assert (s' = set_pcpu (say_err ("No such process" +:+ crlf) (p_cpu s)) s) as ->.
      { unfold kill, table_get, mbind, M_bind, get_st in E. rewrite Ht in E. cbn in E. by injection E as <-. }
      eapply core_wf; [apply core_cpu; [exact Hcore|apply say_err_ok, Hcore]|done|apply Hwf|eauto]. }
    destruct (c_slot _ _ Hcore _ _ Ht Hp0) as (b & Hb & _).
    pose proof (kill_run s id p b Hwf Ht Hb Hid Hp) as HW. unfold wp in HW. rewrite E in HW. by destruct HW.
  - destruct (signal_run s signo h Hwf Hs) as (t & E' & HW). by assert (s' = t) as -> by congruence.
  - destruct (wf_current s Hwf) as (bc & Hbc & _ & _ & Hcore).
    destruct (proj2 (c_table _ _ Hcore id) Hid) as [p Ht]. destruct (decide (p = 0)) as [->|Hp0].
    { assert (s' = set_pcpu (say_err ("No such process" +:+ crlf) (p_cpu s)) s) as ->.
      { unfold signal_kill, table_get, mbind, M_bind, get_st in E. rewrite Ht in E. cbn in E. by injection E as <-. }
      eapply core_wf; [apply core_cpu; [exact Hcore|apply say_err_ok, Hcore]|done|apply Hwf|eauto]. }
    destruct (signal_kill_run s id p signo Hwf Ht Hp0 Hs) as (t & E' & HW). by assert (s' = t) as -> by congruence.
  - destruct (wf_current s Hwf) as (b & Hb & Hrc & _ & Hcore).
    pose proof (wp_kill_zombies (λ _ _, mret tt) (λ _, mret tt) (Some (current s)) tt (queue s Dead) fuel (mk_sys s tt)
      Hcore eq_refl Hf (release_nothing _)) as HW.
    unfold wp in HW. rewrite E in HW. destruct HW as (_ & Hc' & Hcur & Hl' & _ & _ & Hx). simpl in *.
    rewrite <- Hcur in Hc'. eapply core_wf; [exact Hc'|done|rewrite Hl'; apply Hwf|]. rewrite Hx, Hcur, decide_False; [eauto|].
    intros Hin. apply (block_place _ _ Hcore _ b) in Hin; [|done]. by rewrite (run_place _ _ Hcore _ b Hb eq_refl) in Hin.
Qed.

(** Repeating an operation. *)
Fixpoint iterate (n : nat) (m : M ps unit) : M ps unit :=
  match n with O => mret tt | S n' => m ;; iterate n' m end.

Lemma rounds_run : ∀ k s l, proc_wf s → queue s Ready = l → (k ≤ length l)%nat →
  ∃ s', iterate k schedule s = Ok (tt, s') ∧ proc_wf s' ∧
    current s' :: queue s' Ready = drop k (current s :: l) ++ take k (current s :: l) ∧
    (∀ q, q ≠ Ready → queue s' q = queue s q).
Proof.
  intros k. induction k as [|k IH] using nat_ind; intros s l Hwf Hl Hk.
  { exists s. rewrite Hl. simpl. rewrite app_nil_r. by split_and!. }
  destruct l as [|n rest]; [simpl in Hk; lia|]. pose proof (schedule_run s Hwf) as HS. rewrite Hl in HS.
  destruct (wp_unit _ _ _ HS) as (s1 & E1 & Hwf1 & Hcur1 & _ & Hq1).
  assert (Hr1 : queue s1 Ready = rest ++ [current s]) by (rewrite Hq1; by rewrite decide_True).
  destruct (IH s1 (rest ++ [current s]) Hwf1 Hr1) as (s' & E & Hwf' & Hq' & Ho).
  { rewrite length_app. simpl in *. lia. }
  exists s'. split; [cbn [iterate]; by rewrite (bind_Ok _ _ _ _ _ E1)|]. split; [done|]. split.
  - rewrite Hq', Hcur1. simpl in Hk. simpl. destruct k as [|k]; simpl; [by rewrite app_nil_r|].
    rewrite drop_app_le, take_app_le, <- app_assoc by lia. done.
  - intros q Hq. rewrite Ho, Hq1 by done. by rewrite decide_False.
Qed.

(** ** Claims *)


(** C36: Round robin: [schedule] called [k] times rotates the sequence of the
    running and the ready processes by [k], so every ready process gets the
    processor after as many calls as its position in the queue, and nothing
    is lost or duplicated. *)
Theorem schedule_round_robin s k p :
  proc_wf s → queue s Ready !! k = Some p →
  ∃ s', iterate (S k) schedule s = Ok (tt, s') ∧ proc_wf s' ∧ current s' = p ∧
    queue s' Ready = drop (S k) (queue s Ready) ++ current s :: take k (queue s Ready).
Proof.
  intros Hwf Hp. pose proof (lookup_lt_Some _ _ _ Hp) as Hlt.
  destruct (rounds_run (S k) s _ Hwf eq_refl ltac:(lia)) as (s' & E & Hwf' & Hq & _).
  exists s'. split; [done|]. split; [done|]. cbn [drop take] in Hq. rewrite (drop_S _ p k Hp) in Hq. simpl in Hq.
  by injection Hq.
Qed.

(** [wait] by any process but the idle thread puts it at the end of the
    event's queue with the state to match, and the first ready process runs;
    it always finds one. *)
Theorem wait_correct s e data b :
  proc_wf s → pcbs s !! current s = Some b → pid b ≠ 1 →
  ∃ n rest s', queue s Ready = n :: rest ∧ wait e data s = Ok (tt, s') ∧ proc_wf s' ∧ current s' = n ∧
    queue s' Ready = rest ∧ queue s' (Wait e) = queue s (Wait e) ++ [current s] ∧ p_cpu s' = p_cpu s.
Proof.
  intros Hwf Hb Hid.
  pose proof (ready_nonempty s b Hwf Hb Hid) as Hne. destruct (queue s Ready) as [|n rest] eqn:Hr; [done|].
  destruct (wp_unit _ _ _ (wait_run s e data n rest Hwf Hr ltac:(congruence))) as (s' & E & Hwf' & Hcur & Hk & Hq).
  exists n, rest, s'. split_and!; [done|done|done|done| | |apply Hk].
  - by rewrite Hq, decide_True.
  - rewrite Hq, decide_False by done. by rewrite decide_True.
Qed.

(** C25: [exit] by any process but the shell and the idle thread (pid above 1), in
    a state the program reaches (proc_wf, C5): the process becomes a zombie,
    exactly the processes that wait for its pid leave the queue of waiting
    processes and join the ready ones, in order, behind those that were ready;
    the process that was ready first runs, waiting readers and writers stay,
    and the invariant and the interrupt state are kept. *)
Theorem exit_correct s b :
  proc_wf s → pcbs s !! current s = Some b → 1 < pid b →
  ∃ n rest s', queue s Ready = n :: rest ∧ exit s = Ok (true, s') ∧ proc_wf s' ∧ current s' = n ∧
    queue s' Dead = queue s Dead ++ [current s] ∧
    queue s' Ready = rest ++ List.filter (waits_for s (pid b)) (queue s (Wait PROC)) ∧
    queue s' (Wait PROC) = List.filter (λ p, negb (waits_for s (pid b) p)) (queue s (Wait PROC)) ∧
    queue s' (Wait R) = queue s (Wait R) ∧ queue s' (Wait W) = queue s (Wait W) ∧ p_cpu s' = p_cpu s.
Proof.
  intros Hwf Hb Hid.
  pose proof (ready_nonempty s b Hwf Hb ltac:(lia)) as Hne. destruct (queue s Ready) as [|n rest] eqn:Hr; [done|].
  destruct (proj1 (wp_run _ _ _) (exit_run s b n rest Hwf Hb Hid Hr)) as (away & s' & E & -> & Hwf' & Hcur & Hk & Hq).
  exists n, rest, s'. split_and!; [done|done|done|done|rewrite Hq; reflexivity..|apply Hk].
Qed.

(** [kill] of another process (neither the shell nor the idle thread) that is ready or waiting takes it out of its
    queue, makes it a zombie and wakes the processes waiting for it; the
    caller goes on running.  Killing a zombie changes nothing. *)
Theorem kill_correct s id p b :
  proc_wf s → pcb_table s !! id = Some p → pcbs s !! p = Some b → 1 < id → p ≠ current s →
  ∃ s', kill id s = Ok (tt, s') ∧ proc_wf s' ∧ current s' = current s ∧ p_cpu s' = p_cpu s ∧
    ∀ q, queue s' q = if decide (state b = DEAD) then queue s q else killed s id p q.
Proof.
  intros Hwf Ht Hb Hid Hp.
  destruct (wp_unit _ _ _ (kill_run s id p b Hwf Ht Hb Hid Hp)) as (s' & E & Hwf' & Hcur & Hk & Hq).
  exists s'. split_and!; [done|done|done|apply Hk|done].
Qed.

(** [thread_create] gives the first free pid after the last one given out,
    and appends a fresh ready thread to the ready queue; nothing else
    changes. *)
Theorem thread_create_correct s func args r :
  proc_wf s → next_pid s r →
  ∃ s' p b, thread_create func args s = Ok (r, s') ∧ proc_wf s' ∧
    pcbs s !! p = None ∧ pcbs s' = <[p := b]> (pcbs s) ∧ pid b = r ∧ pc b = func ∧ state b = READY ∧
    pcb_table s' = <[r := p]> (pcb_table s) ∧ last_pid s' = r ∧ current s' = current s ∧ p_cpu s' = p_cpu s ∧
    ∀ q, queue s' q = if decide (q = Ready) then queue s Ready ++ [p] else queue s q.
Proof.
  intros Hwf Hn. destruct (wf_current s Hwf) as (bc & Hbc & _ & _ & Hcore).
  destruct (create_run s func args r Hcore ltac:(eauto) Hn) as (E & Hwf' & Hnew).
  do 3 eexists. split; [exact E|]. split; [exact Hwf'|]. split; [exact Hnew|].
  split_and!; try reflexivity. intros q. rewrite queue_set. reflexivity.
Qed.

(** The pid search has no wrap-around: when every slot above the last pid
    is taken it reads past the end of the table, even if lower slots are
    free. *)
Theorem thread_create_overrun s func args :
  (∀ i, is_Some (pcb_table s !! i) ↔ 0 ≤ i < MAX_PROC) → 0 ≤ last_pid s < MAX_PROC - 1 →
  (∀ i, last_pid s < i < MAX_PROC → ∃ p, pcb_table s !! i = Some p ∧ p ≠ 0) →
  thread_create func args s = Ub.
Proof.
  intros Htab Hl Hbusy. unfold thread_create.
  unfold mbind at 1, M_bind at 1. change (p_on_cpu disable_int s) with (@Ok (unit * ps) (tt, set_pcpu (enter (p_cpu s)) s)).
  cbv iota beta. unfold mbind at 1, M_bind at 1. unfold gets. cbv iota beta. unfold mbind at 1, M_bind at 1.
  cbn [last_pid set_pcpu]. rewrite Z.rem_small by (unfold MAX_PROC in *; lia).
  rewrite (find_pid_overrun _ (last_pid s)); [done|unfold MAX_PROC in *; lia|unfold MAX_PROC in *; lia| |].
  - apply eq_None_not_Some. intros [? ?]%Htab. lia.
  - intros i Hi. apply Hbusy. lia.
Qed.
End Alloc.

(** [kill_zombies] empties the queue of dead processes, releases the address
    space of each in order, and removes exactly their blocks and table
    entries; the invariant is kept, so their pids can be used again. *)
Theorem kill_zombies_correct {V} fs fpt (y : sys V) v' fuel :
  proc_wf (y_ps y) → (length (queue (y_ps y) Dead) < fuel)%nat →
  for_each (blocks (y_ps y) (queue (y_ps y) Dead)) (release_space fs fpt) (y_vm y) = Ok (tt, v') →
  ∃ s', kill_zombies fs fpt fuel y = Ok (tt, mk_sys s' v') ∧ proc_wf s' ∧ queue s' Dead = [] ∧
    current s' = current (y_ps y) ∧
    (∀ q, q ≠ Dead → queue s' q = queue (y_ps y) q) ∧
    (∀ p, pcbs s' !! p = if decide (p ∈ queue (y_ps y) Dead) then None else pcbs (y_ps y) !! p) ∧
    ∀ i p, pcb_table s' !! i = Some p → p ∈ queue (y_ps y) Dead → p = 0.
Proof.
  intros Hwf Hf Hv. destruct (wf_current _ Hwf) as (b & Hb & _ & _ & Hcore).
  destruct (wp_unit _ _ _ (wp_kill_zombies fs fpt _ v' _ fuel y Hcore eq_refl Hf Hv)) as ([s' v] & E & Ev & Hc' & Hcur & Hl' & _ & Hq & Hx).
  simpl in *. subst v. exists s'. split; [done|]. split_and!; [|by rewrite Hq, decide_True|done| |done|].
  - rewrite <- Hcur in Hc'. eapply core_wf; [exact Hc'|done|rewrite Hl'; apply Hwf|]. rewrite Hx, Hcur, decide_False; [eauto|].
    intros Hin. apply (block_place _ _ Hcore _ b) in Hin; [|done]. by rewrite (run_place _ _ Hcore _ b Hb eq_refl) in Hin.
  - intros q Hne. by rewrite Hq, decide_False.
  - intros i p Hi Hin. destruct (decide (p = 0)) as [|Hp0]; [done|]. exfalso.
    destruct (c_slot _ _ Hc' _ _ Hi Hp0) as (c & Hc & _). by rewrite Hx, decide_True in Hc.
Qed.

(** A process whose pending signal has the default action, for any signal
    but 9, is resumed in privileged mode at address 0: the table of default
    handlers holds NULL there and nobody checks. *)
Theorem default_signal_jumps_to_null prev s n rest b signo sigs :
  is_Some (pcbs s !! prev) → queue s Ready = n :: rest → prev ≠ n → 0 ≤ signo →
  pcbs s !! n = Some b → signal_queue b = signo :: sigs → signo ≠ 9 →
  sig_handler b !! Z.to_nat signo = Some SIG_DFL →
  ∃ s', switch_to_next prev s = Ok (tt, s') ∧ current s' = n ∧ h_pc (hws s') = C_null ∧ h_pstate (hws s') = EL1H_W_DAIF.
Proof.
  intros [bp Hbp] Hr Hne Hs0 Hb Hsig H9 Hh.
  apply wp_unit. unfold switch_to_next. wp_step. unfold list_pop. wp_step. apply wp_get_st. rewrite Hr. wp_step. apply wp_modify.
  wp_step. wp_step. apply wp_p_disable. wp_step. apply (wp_pcb_upd _ bp); [done|].
  wp_step. apply (wp_pcb_upd _ b); [cbn [pcbs set_pcbs]; rewrite lookup_insert_ne by done; exact Hb|]. wp_step. apply wp_modify.
  wp_step. apply (wp_pcb_get _ (with_state RUN b)); [apply lookup_insert_eq|].
  wp_step. apply (wp_mono _ (λ _ t, pcbs t !! n = Some (with_state RUN b) ∧ is_Some (pcbs t !! prev) ∧ current t = n)).
  { assert (is_Some (<[n := with_state RUN b]> (<[prev := with_pc out_label bp]> (pcbs s)) !! prev)) as Hp.
    { rewrite lookup_insert_ne, lookup_insert_eq by done. eauto. }
    destruct (el _ =? 0); (split; [apply lookup_insert_eq|by split]). }
  intros _ t (Hn & [bt Hp] & Hcur). simpl (signal_queue _). rewrite Hsig.
  wp_step. apply (wp_pcb_upd _ (with_state RUN b)); [done|].
  wp_step. rewrite bool_decide_true by lia. apply (wp_deref _ SIG_DFL); [exact Hh|].
  wp_step. eapply wp_pcb_upd; [apply lookup_insert_eq|]. change (SIG_DFL =? SIG_DFL) with true. cbv iota.
  unfold enter_handler, save_regs, load_regs, hw_upd. wp_step. apply wp_get_st. wp_step. wp_step. apply wp_get_st.
  eapply wp_pcb_upd; [cbn [pcbs set_pcbs]; rewrite !lookup_insert_ne by done; exact Hp|].
  wp_step. eapply wp_pcb_get; [cbn [pcbs set_pcbs]; rewrite lookup_insert_ne by done; apply lookup_insert_eq|].
  wp_step. eapply wp_pcb_upd; [cbn [pcbs set_pcbs]; rewrite lookup_insert_ne by done; apply lookup_insert_eq|].
  wp_step. apply wp_p_enable. apply wp_modify. split; [exact Hcur|]. split; [|reflexivity].
  cbn [hws set_hw h_pc]. unfold default_sig_handler. by destruct (Z.eqb_spec signo 9).
Qed.

(** ** Witnesses: a boot with two threads *)

Definition after {A} (m : M ps A) (s : ps) : ps := match m s with Ok (_, s') => s' | _ => s end.

Lemma after_wp {A} (m : M ps A) (P : ps → Prop) s : wp m (λ _ s', P s') s → P (after m s).
Proof. unfold wp, after. destruct (m s) as [[a s']| |]; done. Qed.

Lemma wf_after {A} (m : M ps A) s x s' : m s = Ok (x, s') → proc_wf s' → proc_wf (after m s).
Proof. unfold after. by intros ->. Qed.

Definition hw0 : hw := mk_hw zero_regs C_null 0 0 0 0x1000 0.
(** The shell (block 1) and the idle thread (block 2). *)
Definition booted : ps := after (start_processes (H := above_alloc) 0x80000 0 None) (no_procs hw0 0x900).
(** Two threads more: pid 2 (block 4) and pid 3 (block 6). *)
Definition one_thread : ps := after (thread_create (H := above_alloc) (C_fn "a") 0) booted.
Definition two_threads : ps := after (thread_create (H := above_alloc) (C_fn "b") 0) one_thread.
(** The shell waits for pid 2, the idle thread gets the processor and gives it
    to pid 2, which waits for pid 3. *)
Definition shell_waits : ps := after (wait PROC 2) two_threads.
Definition first_runs : ps := after schedule shell_waits.
Definition second_runs : ps := after (wait PROC 3) first_runs.

Lemma booted_ok : proc_wf booted ∧ next_pid booted 2 ∧ ∀ i, 1 < i < MAX_PROC → pcb_table booted !! i = Some 0.
Proof.
  destruct (start_processes_wf (H := above_alloc) hw0 0x900 0x80000 0 None) as (s & E & Hwf & Hl & Ht).
  unfold booted, after. rewrite E. split; [exact Hwf|]. split; [|exact Ht]. unfold next_pid. rewrite Hl.
  change (Z.rem (1 + 1) MAX_PROC) with 2. split; [unfold MAX_PROC; lia|].
  split; [apply Ht; unfold MAX_PROC; lia|]. intros i Hi. lia.
Qed.

Lemma wf_block s : proc_wf s → is_Some (pcbs s !! current s).
Proof. intros Hwf. destruct (wf_current s Hwf) as (b & Hb & _). eauto. Qed.

Lemma one_thread_ok : proc_wf one_thread ∧ next_pid one_thread 3.
Proof.
  destruct booted_ok as (Hwf & Hn & Ht).
  destruct (create_run (H := above_alloc) booted (C_fn "a") 0 2 (proj1 Hwf) (wf_block _ Hwf) Hn) as (E & Hwf' & _).
  unfold one_thread, after. rewrite E. split; [exact Hwf'|]. unfold next_pid. cbn [last_pid set_queue set_queues set_last_pid pcb_table set_table set_pcbs set_allocs].
  change (Z.rem (2 + 1) MAX_PROC) with 3. split; [unfold MAX_PROC; lia|]. split; [|intros i Hi; lia].
  rewrite lookup_insert_ne by lia. apply Ht. unfold MAX_PROC. lia.
Qed.

Lemma two_threads_wf : proc_wf two_threads.
Proof.
  destruct one_thread_ok as (Hwf & Hn).
  destruct (create_run (H := above_alloc) one_thread (C_fn "b") 0 3 (proj1 Hwf) (wf_block _ Hwf) Hn) as (E & Hwf' & _).
  eapply wf_after; [exact E|exact Hwf'].
Qed.

Lemma two_threads_ready : queue two_threads Ready = [2; 4; 6] ∧ current two_threads = 1 ∧ pid <$> pcbs two_threads !! 1 = Some 0.
Proof. vm_compute. done. Qed.

Lemma two_threads_block : ∃ b, pcbs two_threads !! current two_threads = Some b ∧ pid b = 0.
Proof.
  destruct two_threads_ready as (_ & Hc & Hb). apply fmap_Some in Hb as (b & Hb & Hid). exists b. rewrite Hc. split; [exact Hb|symmetry; exact Hid].
Qed.

Lemma wait_wf s e d b n rest : proc_wf s → queue s Ready = n :: rest → pcbs s !! current s = Some b → pid b ≠ 1 →
  proc_wf (after (wait e d) s).
Proof.
  intros Hwf Hr Hb Hid. apply (after_wp _ proc_wf). eapply wp_mono; [eapply wait_run; [done|exact Hr|]|].
  - intros b' Hb'. congruence.
  - intros u s' HA. exact (proj1 HA).
Qed.

Lemma shell_waits_wf : proc_wf shell_waits.
Proof.
  destruct two_threads_block as (b & Hb & Hid).
  exact (wait_wf two_threads PROC 2 b 2 [4; 6] two_threads_wf (proj1 two_threads_ready) Hb ltac:(rewrite Hid; discriminate)).
Qed.

Lemma shell_waits_queues : queue shell_waits Ready = [4; 6] ∧ current shell_waits = 2.
Proof. vm_compute. done. Qed.

Lemma first_runs_wf : proc_wf first_runs.
Proof.
  pose proof (schedule_run shell_waits shell_waits_wf) as HS. rewrite (proj1 shell_waits_queues) in HS.
  apply (after_wp schedule proc_wf). eapply wp_mono; [exact HS|]. intros u s' HA. exact (proj1 HA).
Qed.

Lemma first_runs_queues : queue first_runs Ready = [6; 2] ∧ queue first_runs (Wait PROC) = [1] ∧ current first_runs = 4 ∧
  pid <$> pcbs first_runs !! 4 = Some 2 ∧ wait_data <$> pcbs first_runs !! 1 = Some 2.
Proof. vm_compute. done. Qed.

Lemma first_runs_block : ∃ b, pcbs first_runs !! current first_runs = Some b ∧ pid b = 2.
Proof.
  destruct first_runs_queues as (_ & _ & Hc & Hb & _). apply fmap_Some in Hb as (b & Hb & Hid). exists b. rewrite Hc. split; [exact Hb|symmetry; exact Hid].
Qed.

Lemma second_runs_wf : proc_wf second_runs.
Proof.
  destruct first_runs_block as (b & Hb & Hid).
  exact (wait_wf first_runs PROC 3 b 6 [2] first_runs_wf (proj1 first_runs_queues) Hb ltac:(rewrite Hid; discriminate)).
Qed.

Lemma second_runs_queues : queue second_runs (Wait PROC) = [1; 4] ∧ queue second_runs Ready = [2] ∧ current second_runs = 6 ∧
  pcb_table second_runs !! 2 = Some 4 ∧ wait_data <$> pcbs second_runs !! 1 = Some 2 ∧ wait_data <$> pcbs second_runs !! 4 = Some 3.
Proof. vm_compute. done. Qed.

Lemma second_runs_block : ∃ b, pcbs second_runs !! 4 = Some b ∧ state b = WAIT.
Proof.
  destruct second_runs_queues as (Hw & _).
  destruct (queue_block second_runs _ (proj1 second_runs_wf) (Wait PROC) 4 ltac:(rewrite Hw; right; by left)) as (b & Hb & Hp).
  exists b. split; [exact Hb|]. by apply wait_place in Hp as [? _].
Qed.


Lemma schedule_round_robin_witness : ∃ s', iterate 2 schedule two_threads = Ok (tt, s') ∧ current s' = 4 ∧ queue s' Ready = [6; 1; 2].
Proof.
  destruct two_threads_ready as [Hr [Hc _]].
  destruct (schedule_round_robin two_threads 1 4 two_threads_wf) as (s' & E & _ & Hcur & Hq); [rewrite Hr; reflexivity|].
  exists s'. split; [exact E|]. split; [exact Hcur|]. rewrite Hq, Hr, Hc. reflexivity.
Defined.

Lemma wait_correct_witness : ∃ s', wait PROC 2 two_threads = Ok (tt, s') ∧ current s' = 2 ∧ queue s' (Wait PROC) = [1].
Proof.
  destruct two_threads_block as (b & Hb & Hid). destruct two_threads_ready as (Hr & Hc & _).
  destruct (wait_correct two_threads PROC 2 b two_threads_wf Hb) as (n & rest & s' & Hn & E & _ & Hcur & _ & Hw & _); [lia|].
  exists s'. rewrite Hr in Hn. injection Hn as <- <-. split; [exact E|]. split; [exact Hcur|]. rewrite Hw, Hc. vm_compute. reflexivity.
Defined.

Lemma exit_correct_witness : ∃ s', exit first_runs = Ok (true, s') ∧ current s' = 6 ∧ queue s' Ready = [2; 1] ∧ queue s' Dead = [4].
Proof.
  destruct first_runs_block as (b & Hb & Hid). destruct first_runs_queues as (Hr & Hw & Hc & _).
  destruct (exit_correct first_runs b first_runs_wf Hb) as (n & rest & s' & Hn & E & _ & Hcur & Hd & Hq & _); [rewrite Hid; lia|].
  exists s'. rewrite Hr in Hn. injection Hn as <- <-. split; [exact E|]. split; [exact Hcur|]. split.
  - rewrite Hq, Hid, Hw. vm_compute. reflexivity.
  - rewrite Hd, Hc. vm_compute. reflexivity.
Defined.

Lemma kill_correct_witness : ∃ s', kill 2 second_runs = Ok (tt, s') ∧ queue s' Dead = [4] ∧ queue s' (Wait PROC) = [] ∧ queue s' Ready = [2; 1].
Proof.
  destruct second_runs_queues as (_ & _ & Hc & Ht & _). destruct second_runs_block as (b & Hb & Hst).
  destruct (kill_correct second_runs 2 4 b second_runs_wf Ht Hb) as (s' & E & _ & _ & _ & Hq); [lia|rewrite Hc; lia|].
  exists s'. split; [exact E|]. rewrite !Hq, !decide_False by (rewrite Hst; done).
  repeat split; vm_compute; reflexivity.
Defined.

Lemma thread_create_correct_witness : ∃ s', thread_create (H := above_alloc) (C_fn "b") 0 one_thread = Ok (3, s') ∧ last_pid s' = 3.
Proof.
  destruct one_thread_ok as (Hwf & Hn).
  destruct (thread_create_correct (H := above_alloc) one_thread (C_fn "b") 0 3 Hwf Hn) as (s' & p & b & E & _ & _ & _ & _ & _ & _ & _ & Hl & _).
  exists s'. split; [exact E|exact Hl].
Defined.

(** A table whose slots above the last pid are all taken. *)
Definition full_above : ps :=
  set_table (list_to_map ((λ i, (i, if i =? 1 then 0 else 2)) <$> zseq 0 1024)) (set_last_pid 1 booted).

Lemma full_above_table i : pcb_table full_above !! i = if decide (0 ≤ i < MAX_PROC) then Some (if i =? 1 then 0 else 2) else None.
Proof.
  unfold full_above. cbn [pcb_table set_table]. case_decide as Hi.
  - apply elem_of_list_to_map_1'.
    + by intros y (j & [= -> ->] & _)%list_elem_of_fmap.
    + apply list_elem_of_fmap. exists i. split; [reflexivity|]. apply elem_of_zseq. unfold MAX_PROC in Hi. lia.
  - apply not_elem_of_list_to_map_1. rewrite <- list_fmap_compose. intros (j & -> & Hj%elem_of_zseq)%list_elem_of_fmap.
    unfold MAX_PROC in Hi. simpl in Hi. lia.
Qed.

Lemma thread_create_overrun_witness : thread_create (H := above_alloc) (C_fn "a") 0 full_above = Ub ∧ pcb_table full_above !! 1 = Some 0.
Proof.
  split; [|rewrite full_above_table; reflexivity].
  apply (thread_create_overrun (H := above_alloc)).
  - intros i. rewrite full_above_table. case_decide as Hi; (split; [intros [? E]|intros Hi']); [exact Hi|eexists; reflexivity|discriminate E|destruct (Hi Hi')].
  - change (last_pid full_above) with 1. unfold MAX_PROC. lia.
  - intros i. change (last_pid full_above) with 1. intros Hi. exists 2. rewrite full_above_table.
    rewrite decide_True by lia. destruct (Z.eqb_spec i 1); [lia|]. split; [reflexivity|lia].
Defined.

(** After the kill of [kill_correct_witness]: one zombie. *)
Definition one_dead : ps := after (kill 2) second_runs.

Lemma one_dead_wf : proc_wf one_dead.
Proof.
  destruct second_runs_queues as (_ & _ & Hc & Ht & _). destruct second_runs_block as (b & Hb & _).
  apply (after_wp (kill 2) proc_wf). eapply wp_mono; [apply (kill_run second_runs 2 4 b second_runs_wf Ht Hb)|]; [lia|rewrite Hc; lia|].
  intros u s' HA. exact (proj1 HA).
Qed.

Lemma one_dead_queue : queue one_dead Dead = [4].
Proof. vm_compute. done. Qed.

Lemma kill_zombies_correct_witness : ∃ s',
  kill_zombies (λ _ _, modify (Z.add 1)) (λ _, mret tt) 2 (mk_sys one_dead 0) = Ok (tt, mk_sys s' 1) ∧ queue s' Dead = [].
Proof.
  destruct (kill_zombies_correct (λ _ _, modify (Z.add 1)) (λ _, mret tt) (mk_sys one_dead 0) 1 2 one_dead_wf) as (s' & E & _ & Hd & _).
  - cbn [y_ps]. rewrite one_dead_queue. simpl. lia.
  - cbn [y_ps y_vm]. rewrite one_dead_queue. vm_compute. reflexivity.
  - exists s'. split; [exact E|exact Hd].
Defined.

(** Thread 2 (block 4), next in line, with signal 2 pending. *)
Definition signalled : ps := after (signal_kill 2 2) shell_waits.

Lemma signalled_block : ∃ b, pcbs signalled !! 4 = Some b ∧ signal_queue b = [2] ∧ sig_handler b !! Z.to_nat 2 = Some SIG_DFL.
Proof. eexists. split; [vm_compute; reflexivity|]. split; reflexivity. Qed.

Lemma signalled_queue : queue signalled Ready = [4; 6] ∧ is_Some (pcbs signalled !! 2).
Proof. split; [vm_compute; reflexivity|]. eexists. vm_compute. reflexivity. Qed.

Lemma default_signal_jumps_to_null_witness : ∃ s', switch_to_next 2 signalled = Ok (tt, s') ∧ h_pc (hws s') = C_null.
Proof.
  destruct signalled_block as (b & Hb & Hsig & Hh). destruct signalled_queue as [Hq H1].
  destruct (default_signal_jumps_to_null 2 signalled 4 [6] b 2 [] H1 Hq) as (s' & E & _ & Hpc & _);
    [lia|lia|exact Hb|exact Hsig|lia|exact Hh|].
  exists s'. split; [exact E|exact Hpc].
Defined.
