(* ===== verification/Syscall.v ===== *)
(** * System calls: the dispatcher (src/kernel/syscall.c, include/kernel/syscall.h)

    [syscall_entry] on the registers the exception entry saved.  They lie on
    the kernel stack of the caller, in memory that the called functions reach
    too (fork copies the stack), so [frame] is their address and every access
    goes through the state.  The functions called are verified with their
    components; here they are an interface, [Handlers], over any kernel state.
    A function that does not come back to its caller (the process ended, or
    runs something else now) returns [None].

    Also [getpid] and [ps] on the processes. *)

From S2P Require Import Prelude Cpu KList Process ProcessInv ProcessThm ProcessProps.

Definition TRAP_FRAME_REGS : nat := 34.

Inductive syscall :=
  | GET_PID | UART_READ | UART_WRITE | EXEC | FORK | EXIT | MBOX_CALL | KILL | SIGNAL | SIGNAL_KILL | MMAP
  | OPEN | CLOSE | WRITE | READ | MKDIR | MOUNT | CHDIR | LSEEK | IOCTL | SYNC | SIGRET.

#[export] Instance syscall_eq_dec : EqDecision syscall.
Proof. solve_decision. Defined.

Definition syscalls : list syscall :=
  [GET_PID; UART_READ; UART_WRITE; EXEC; FORK; EXIT; MBOX_CALL; KILL; SIGNAL; SIGNAL_KILL; MMAP;
   OPEN; CLOSE; WRITE; READ; MKDIR; MOUNT; CHDIR; LSEEK; IOCTL; SYNC; SIGRET].

(** [(syscall)nr]: the enumeration is an [unsigned int]. *)
Definition to_syscall (nr : Z) : option syscall := syscalls !! Z.to_nat (u32 nr).

(** The saved registers at an address of the kernel stack, the register x0 as
    compiled code left it, and the functions the dispatcher calls, with the
    parameters of their C types. *)
Class Handlers (S : Type) := {
  h_cpu : ∀ {A}, M cpu A → M S A;
  h_frame : Z → M S (list Z);
  h_set_frame : Z → list Z → M S unit;
  h_x0 : M S Z;
  h_getpid : M S (option Z);
  h_uart_read : Z → Z → M S (option Z);
  h_uart_write : Z → Z → M S (option Z);
  h_exec : Z → Z → M S (option Z);
  h_fork : M S (option Z);
  h_exit : M S (option unit);
  h_mbox_call : Z → Z → M S (option Z);
  h_kill : Z → M S (option unit);
  h_signal : Z → Z → M S (option unit);
  h_signal_kill : Z → Z → M S (option unit);
  h_mmap : Z → Z → Z → Z → Z → Z → M S (option Z);
  h_open : Z → Z → M S (option Z);
  h_close : Z → M S (option Z);
  h_write : Z → Z → Z → M S (option Z);
  h_read : Z → Z → Z → M S (option Z);
  h_mkdir : Z → Z → M S (option Z);
  h_mount : Z → Z → Z → Z → Z → M S (option Z);
  h_chdir : Z → M S (option Z);
  h_lseek64 : Z → Z → Z → M S (option Z);
  h_ioctl : Z → Z → Z → M S (option Z);
  h_sync : M S (option unit);
  h_sigreturn : M S (option unit);
}.

Section Dispatch.
Context {S : Type} `{!Handlers S}.

(** [frame->regs[i]] *)
Definition arg (regs : list Z) (i : nat) : Z := nth i regs 0.

(** [frame->RET = (size_t)v], on the frame as the call left it. *)
Definition ret (frame : Z) (m : M S (option Z)) : M S (option unit) :=
  r ← m;
  match r with
  | None => mret None
  | Some v => regs ← h_frame frame; h_set_frame frame (<[0%nat := u64 v]> regs) ;; mret (Some tt)
  end.

(** The switch. *)
Definition dispatch (frame : Z) : M S (option unit) :=
  regs ← h_frame frame;
  let a := arg regs in
  match to_syscall (a 8%nat) with
  | Some GET_PID => ret frame h_getpid
  | Some UART_READ => ret frame (h_uart_read (a 0%nat) (a 1%nat))
  | Some UART_WRITE => ret frame (h_uart_write (a 0%nat) (a 1%nat))
  | Some EXEC => ret frame (h_exec (a 0%nat) (a 1%nat))
  | Some FORK => ret frame h_fork
  | Some EXIT => h_exit
  | Some MBOX_CALL => ret frame (h_mbox_call (u8 (a 0%nat)) (a 1%nat))
  | Some KILL => h_kill (i32 (a 0%nat))
  | Some SIGNAL => h_signal (i32 (a 0%nat)) (a 1%nat)
  | Some SIGNAL_KILL => h_signal_kill (i32 (a 0%nat)) (i32 (a 1%nat))
  | Some MMAP => ret frame (h_mmap (a 0%nat) (a 1%nat) (i32 (a 2%nat)) (i32 (a 3%nat)) (i32 (a 4%nat)) (i32 (a 5%nat)))
  | Some OPEN => ret frame (h_open (a 0%nat) (i32 (a 1%nat)))
  | Some CLOSE => ret frame (h_close (i32 (a 0%nat)))
  | Some WRITE => ret frame (h_write (i32 (a 0%nat)) (a 1%nat) (a 2%nat))
  | Some READ => ret frame (h_read (i32 (a 0%nat)) (a 1%nat) (a 2%nat))
  | Some MKDIR => ret frame (h_mkdir (a 0%nat) (u32 (a 1%nat)))
  | Some MOUNT => ret frame (h_mount (a 0%nat) (a 1%nat) (a 2%nat) (a 3%nat) (a 4%nat))
  | Some CHDIR => ret frame (h_chdir (a 0%nat))
  | Some LSEEK => ret frame (h_lseek64 (i32 (a 0%nat)) (i64 (a 1%nat)) (i32 (a 2%nat)))
  | Some IOCTL => ret frame (h_ioctl (i32 (a 0%nat)) (a 1%nat) (a 2%nat))
  | Some SYNC => h_sync
  | Some SIGRET => h_sigreturn
  | None => h_cpu (err ("Unknown syscall" +:+ crlf)) ;; mret (Some tt)
  end.

(** [None] if the call does not return to the caller. *)
Definition syscall_entry (frame : Z) : M S (option unit) :=
  h_cpu enable_int ;;
  r ← dispatch frame;
  match r with
  | None => mret None
  | Some _ => h_cpu disable_int ;; mret (Some tt)
  end.

(** [syscall_handler] for [svc], once the registers are saved at [frame]: the
    processor masked interrupts and keeps the caller's mask in SPSR; the
    caller resumes with the registers of the frame ([load_all_wo_x0]), but
    with the x0 that [syscall_entry] left. *)
Definition syscall_handler (frame : Z) : M S (option (list Z)) :=
  c ← h_cpu get_st;
  h_cpu disable_int ;;
  r ← syscall_entry frame;
  match r with
  | None => mret None
  | Some _ =>
      x0 ← h_x0;
      h_cpu (modify (λ c', mk_cpu (irq_nested_count c' - 1) (daif_masked c) (console c'))) ;;
      regs ← h_frame frame;
      mret (Some (<[0%nat := x0]> regs))
  end.
End Dispatch.

(** ** getpid and ps *)

Definition getpid : M ps Z := s ← get_st; b ← pcb_get (current s); mret (pid b).

(** [%d] of a table index. *)
Fixpoint dec_digits (fuel : nat) (n : Z) (acc : string) : string :=
  match fuel with
  | O => acc
  | S fuel' =>
      let acc := String (Ascii.ascii_of_nat (Z.to_nat (48 + n mod 10))) acc in
      if n / 10 =? 0 then acc else dec_digits fuel' (n / 10) acc
  end.
Definition ps_line (i : Z) (st : stat) : string :=
  dec_digits 10 i "" +:+ (match st with RUN | READY => "(R) " | WAIT => "(S) " | DEAD => "(Z) " end).

Fixpoint ps_loop (l : list Z) : M ps unit :=
  match l with
  | [] => mret tt
  | i :: l' =>
      s ← get_st;
      p ← deref (pcb_table s !! i);
      (if p =? 0 then mret tt else b ← pcb_get p; p_on_cpu (printf (ps_line i (state b)))) ;;
      ps_loop l'
  end.
Definition ps_command : M ps unit := ps_loop (zseq 0 (Z.to_nat MAX_PROC)) ;; p_on_cpu (printf crlf).

(** ** ps *)

(** The line of a process, if there is one with this number. *)
Definition ps_entry (s : ps) (i : Z) : option string :=
  p ← pcb_table s !! i; if p =? 0 then None else b ← pcbs s !! p; Some (ps_line i (state b)).

Definition says (l : list string) (s : ps) : ps :=
  set_pcpu (mk_cpu (irq_nested_count (p_cpu s)) (daif_masked (p_cpu s)) (console (p_cpu s) ++ l)) s.

Lemma says_app a b s : says b (says a s) = says (a ++ b) s.
Proof. unfold says. simpl. by rewrite <- app_assoc. Qed.

Lemma ps_loop_run l : ∀ s, core s (Some (current s)) → Forall (λ i, 0 ≤ i < MAX_PROC) l → ps_loop l s = Ok (tt, says (omap (ps_entry s) l) s).
Proof.
  induction l as [|i l IH]; intros s Hc Hl; cbn [ps_loop].
  { unfold says. simpl. rewrite app_nil_r. by destruct s as [[]]. }
  apply Forall_cons in Hl as [Hi Hl]. destruct (proj2 (c_table _ _ Hc i) Hi) as [p Hp]. erewrite bind_Ok by done. rewrite Hp. erewrite bind_Ok by done.
  cbn [omap list_omap]. unfold ps_entry at 1. rewrite Hp. cbn [mbind option_bind].
  destruct (Z.eqb_spec p 0) as [->|Hne]; [erewrite bind_Ok by done; by apply IH|].
  destruct (c_slot _ _ Hc i p Hp Hne) as (b & Hb & _).
  assert (E : (b ← pcb_get p; p_on_cpu (printf (ps_line i (state b)))) s = Ok (tt, says [ps_line i (state b)] s)).
  { unfold pcb_get, mbind, M_bind, get_st, deref. by rewrite Hb. }
  erewrite bind_Ok by exact E. rewrite IH; [|destruct Hc; by split|done].
  rewrite Hb. cbn [mbind option_bind]. f_equal. f_equal. apply says_app.
Qed.

(** [ps] prints one entry for every process there is, in the order of their
    numbers, with the letter of its state, and changes nothing else. *)
Theorem ps_correct s : proc_wf s →
  ps_command s = Ok (tt, says (omap (ps_entry s) (zseq 0 1024) ++ [crlf]) s) ∧
  ∀ i, is_Some (ps_entry s i) ↔ ∃ p b, pcbs s !! p = Some b ∧ pid b = i.
Proof.
  intros [Hc _]. split.
  - unfold ps_command. change (Z.to_nat MAX_PROC) with 1024%nat. erewrite bind_Ok; [|apply ps_loop_run; [done|]].
    + rewrite <- says_app. generalize (omap (ps_entry s) (zseq 0 1024)). done.
    + apply Forall_forall. intros i Hi. apply elem_of_zseq in Hi. unfold MAX_PROC. lia.
  - intros i. unfold ps_entry. split.
    + destruct (pcb_table s !! i) as [p|] eqn:Hp; [|intros [? [=]]]. cbn. destruct (Z.eqb_spec p 0) as [|Hne]; [intros [? [=]]|]. intros _.
      destruct (c_slot _ _ Hc i p Hp Hne) as (b & ? & ?). eauto.
    + intros (p & b & Hb & <-). destruct (c_pcb _ _ Hc p b Hb) as (Hne & _ & Ht & _). rewrite Ht. cbn.
      rewrite (proj2 (Z.eqb_neq _ _) Hne), Hb. by eexists.
Qed.

(** ** Concrete runs *)

Lemma ps_correct_witness : ∃ s', ps_command two_threads = Ok (tt, s') ∧ is_Some (ps_entry two_threads 0).
Proof.
  destruct (ps_correct two_threads two_threads_wf) as [E H]. eexists. split; [exact E|]. apply H.
  destruct (c_shell _ _ (proj1 two_threads_wf)) as (p & b & Hb & Hp). exists p, b. split; [exact Hb|exact Hp].
Defined.
