(* ===== verification/Uspace.v ===== *)
(** * User address spaces

    Sections, page faults and copy-on-write (interrupt.c), mmap (vmem.c), exec
    and fork (syscall.c), on the processes of [Process] together with the
    memory of [Vmem].  The reference counts and write permissions are those of
    mem.c, as in [PageRef], here with the page frames of [Vmem] instead of the
    buddy system: a frame is "the start of a used block" when it was handed out
    on its own, or is the first of the block [u_blocks] records. *)

From S2P Require Import Prelude Cpu Buddy KList Vmem Process.

Definition STACK_EL0_SIZE : Z := Z.shiftl 1 14.
Definition USR_CODE_START : Z := 0.
Definition USR_STACK_START : Z := 0xffffffffb000.
Definition USR_STACK_END : Z := 0xfffffffff000.
Definition EC_MASK : Z := 0xfc000000.
Definition EC_DATA_ABORT : Z := 36.
Definition EC_INSTRUCTION_ABORT : Z := 32.
Definition DFSC_MASK : Z := 0x3c.
Definition DFSC_TRANSLATION : Z := 1.
Definition DFSC_PERMISSION : Z := 3.
Definition PROT_NONE : Z := 0.
Definition PROT_WRITE : Z := 2.
Definition PROT_EXEC : Z := 4.
Definition MAP_POPULATE : Z := 0x8000.

(** The memory of all processes: page frames, reference counts of pages, pages
    of larger blocks by their first frame, words of the kernel stacks, and the
    reference counts of open files. *)
Record uvm := mk_uvm {
  u_vm : vst;
  u_refs : gmap Z Z;
  u_blocks : gmap Z Z;
  u_stack : gmap Z Z;
  u_files : gmap Z Z;
}.

Definition set_uvm v u := mk_uvm v (u_refs u) (u_blocks u) (u_stack u) (u_files u).
Definition set_refs r u := mk_uvm (u_vm u) r (u_blocks u) (u_stack u) (u_files u).
Definition set_ublocks b u := mk_uvm (u_vm u) (u_refs u) b (u_stack u) (u_files u).
Definition set_ustack k u := mk_uvm (u_vm u) (u_refs u) (u_blocks u) k (u_files u).
Definition set_ufiles f u := mk_uvm (u_vm u) (u_refs u) (u_blocks u) (u_stack u) f.

Abbreviation usys := (sys uvm).

(** The memory as [Vmem] sees it, with the registers of the running process. *)
Definition vm_of (y : usys) : vst :=
  let v := u_vm (y_vm y) in
  mk_vst (words v) (frames v) (h_ttbr0 (hws (y_ps y))) (h_ttbr1 (hws (y_ps y))) (v_usable1 v) (v_perm v).
Definition put_vm (v : vst) (y : usys) : usys :=
  let o := u_vm (y_vm y) in
  set_yvm (set_uvm (mk_vst (words v) (frames v) (ttbr0_el1 o) (ttbr1_el1 o) (v_usable1 v) (v_perm v)) (y_vm y)) y.
Definition on_mem {A} (m : M vst A) : M usys A := zoom vm_of put_vm m.
Definition on_u {A} (m : M uvm A) : M usys A := on_vm m.
Definition u_on_cpu {A} (m : M cpu A) : M usys A := on_ps (p_on_cpu m).

(** [%lx] *)
Fixpoint hex_digits (fuel : nat) (z : Z) (acc : string) : string :=
  match fuel with
  | O => acc
  | S fuel' =>
      let d := z mod 16 in
      let c := if d <? 10 then 48 + d else 87 + d in
      let acc := String (Ascii.ascii_of_nat (Z.to_nat c)) acc in
      if z / 16 =? 0 then acc else hex_digits fuel' (z / 16) acc
  end.
Definition hex (z : Z) : string := hex_digits 16 z "".

(** What [malloc] of several pages promises; 0 is NULL. *)
Class BlockAlloc := {
  new_block : gset Z → Z → Z;
  new_block_ok F n : 0 < n → new_block F n = 0 ∨
    0 < new_block F n ∧ new_block F n + 4096 * n ≤ 2 ^ 47 ∧ new_block F n mod 4096 = 0 ∧ ∀ k, 0 ≤ k < n → new_block F n + 4096 * k ∉ F;
}.

(** ** Page references (mem.c) *)

Section Pages.

Definition at_page {A} (ptr : Z) (err_ret : A) (body : Z → M usys A) : M usys A :=
  u_on_cpu disable_int ;;
  let idx := ptr / PAGE_SIZE in
  if negb (ptr mod PAGE_SIZE =? 0) then
    u_on_cpu (printf ("Not start of a page" +:+ crlf)) ;;
    u_on_cpu enable_int ;; mret err_ret
  else
    r ← body idx;
    u_on_cpu enable_int ;; mret r.

Definition ref_get (idx : Z) : M usys Z := y ← get_st; deref (u_refs (y_vm y) !! idx).
Definition ref_set (idx c : Z) : M usys unit :=
  _ ← ref_get idx; on_u (modify (λ u, set_refs (<[idx := c]> (u_refs u)) u)).
Definition perm_get (idx : Z) : M usys Z := y ← get_st; deref (v_perm (u_vm (y_vm y)) !! idx).
Definition perm_clear (idx : Z) : M usys unit :=
  _ ← perm_get idx; on_mem (modify (λ v, set_perm (<[idx := 0]> (v_perm v)) v)).

Definition get_w_permission (ptr : Z) : M usys bool :=
  at_page ptr false (λ idx, p ← perm_get idx; mret (negb (p =? 0))).

Definition get_ref_count (ptr : Z) : M usys Z :=
  at_page ptr (u16 (Z.lnot 0)) (λ idx, ref_get idx).

Definition ref_page (ptr : Z) : M usys unit :=
  at_page ptr tt (λ idx, c ← ref_get idx; ref_set idx (u16 (c + 1))).

(** The frame lies inside a block that starts before it. *)
Definition inside_block (u : uvm) (ptr : Z) : bool :=
  existsb (λ b, (b.1 <? ptr) && (ptr <? b.1 + PAGE_SIZE * b.2)) (map_to_list (u_blocks u)).

(** [buddy_free] when the page is the start of a used block. *)
Definition free_if_start (ptr : Z) : M usys unit :=
  y ← get_st;
  match u_blocks (y_vm y) !! ptr with
  | Some n =>
      for_each (zseq 0 (Z.to_nat n)) (λ i, on_mem (free_page (p2v_trans_kernel (ptr + PAGE_SIZE * i)))) ;;
      on_u (modify (λ u, set_ublocks (delete ptr (u_blocks u)) u))
  | None =>
      if bool_decide (ptr ∈ frames (u_vm (y_vm y))) && negb (inside_block (y_vm y) ptr)
      then on_mem (free_page (p2v_trans_kernel ptr)) else mret tt
  end.

Definition deref_page (ptr : Z) : M usys unit :=
  at_page ptr tt (λ idx,
    c ← ref_get idx;
    if 0 <? c then
      let c := u16 (c - 1) in
      ref_set idx c ;;
      if c =? 0 then perm_clear idx ;; free_if_start ptr else mret tt
    else mret tt).
End Pages.

(** ** Sections (process.c) *)

Definition add_section (p : Z) (type : sec) (base len : Z) : M usys unit :=
  on_ps (pcb_upd p (λ b, with_sections (sections b ++ [mk_section type base len]) b)).

Definition in_section (addr : Z) (s : section) : bool := (s_base s <=? addr) && (addr <? u64 (s_base s + s_size s)).

(** The offsets of the pages of a section. *)
Definition page_offs (size : Z) : list Z := (λ k, PAGE_SIZE * k) <$> zseq 0 (Z.to_nat ((size + (PAGE_SIZE - 1)) / PAGE_SIZE)).

Fixpoint free_sections (l : list section) (ttbr : Z) : M usys unit :=
  match l with
  | [] => mret tt
  | s :: l' =>
      base ← on_mem (v2p_trans (s_base s) ttbr);
      for_each (page_offs (s_size s)) (λ i, deref_page (u64 (base + i))) ;;
      free_sections l' ttbr
  end.

Definition list_find (l : list section) (addr : Z) : M usys (option section) :=
  u_on_cpu disable_int ;; u_on_cpu enable_int ;; mret (List.find (in_section addr) l).

(** ** Page faults (interrupt.c) *)

Section Fault.
Context `{!PageAlloc}.

Definition copy_page (v_dst v_src : Z) : M vst unit :=
  for_each (zseq 0 512) (λ i, x ← load (v_src + 8 * i); store (v_dst + 8 * i) x).

(** [false] stands for the jump to [seg_fault]. *)
Definition map_section (b : pcb) (s : section) (v_fault_addr : Z) : M usys bool :=
  let v_ttbr := p2v_trans_kernel (ttbr b) in
  match s_type s with
  | TEXT =>
      let s_page_idx := USR_CODE_START / PAGE_SIZE in
      let e_page_idx := s_page_idx + u64 (s_size s - 1) / PAGE_SIZE + 1 in
      on_mem (fill_page_table v_ttbr s_page_idx e_page_idx (code b) (Z.lor PD_USER_ACCESS PD_ACCESS)) ;;
      for_each (page_offs (s_size s)) (λ i, ref_page (u64 (code b + i))) ;;
      mret true
  | STACK | HEAP =>
      let s_page_idx := v_fault_addr / PAGE_SIZE in
      v ← on_mem malloc_page;
      let physical_addr := v2p_trans_kernel v in
      on_mem (fill_page_table v_ttbr s_page_idx (s_page_idx + 1) physical_addr (Z.lor (Z.lor PD_NX_EL0 PD_USER_ACCESS) PD_ACCESS)) ;;
      ref_page physical_addr ;;
      mret true
  | DEVICE => mret false
  end.

Definition translation_fault (v_fault_addr : Z) : M usys bool :=
  p ← on_ps (gets current);
  b ← on_ps (pcb_get p);
  s ← list_find (sections b) v_fault_addr;
  match s with
  | None => mret false
  | Some s =>
      ok ← map_section b s v_fault_addr;
      if (ok : bool) then
        u_on_cpu enable_int ;;
        u_on_cpu (printf ("[Translation fault]: 0x" +:+ hex v_fault_addr +:+ crlf)) ;;
        u_on_cpu disable_int ;;
        mret true
      else mret false
  end.

Definition permission_fault (v_fault_addr : Z) : M usys bool :=
  fault_addr ← on_mem (v2p_trans v_fault_addr 0);
  let fault_page := Z.land fault_addr (u64 (Z.lnot (PAGE_SIZE - 1))) in
  w ← get_w_permission fault_page;
  if (w : bool) then
    c ← get_ref_count fault_page;
    (if 1 <? c then
       let v_fault_page := p2v_trans_kernel fault_page in
       v_new_page ← on_mem malloc_page;
       let new_page := v2p_trans_kernel v_new_page in
       on_mem (copy_page v_new_page v_fault_page) ;;
       on_mem (replace_page_entry 0 v_fault_addr new_page true) ;;
       deref_page fault_page ;;
       ref_page new_page ;;
       u_on_cpu enable_int ;;
       u_on_cpu (printf ("[Copy-on-write]: 0x" +:+ hex v_fault_addr +:+ crlf)) ;;
       u_on_cpu disable_int
     else on_mem (replace_page_entry 0 v_fault_addr fault_addr true)) ;;
    mret true
  else mret false.

(** [exit] may go to another context and not come back. *)
Definition seg_fault : M usys unit :=
  u_on_cpu enable_int ;;
  u_on_cpu (printf ("[Segmentation fault]: Kill Process" +:+ crlf)) ;;
  away ← on_ps exit;
  if (away : bool) then mret tt else u_on_cpu disable_int.

(** The registers esr_el1 and far_el1 are arguments. *)
Definition exception_entry (esr far : Z) : M usys unit :=
  let ec := Z.shiftr (Z.land esr EC_MASK) 26 in
  if (ec =? EC_DATA_ABORT) || (ec =? EC_INSTRUCTION_ABORT) then
    let dfsc := Z.shiftr (Z.land esr DFSC_MASK) 2 in
    ok ← (if dfsc =? DFSC_TRANSLATION then translation_fault far
          else if dfsc =? DFSC_PERMISSION then permission_fault far
          else mret false);
    if (ok : bool) then mret tt else seg_fault
  else
    u_on_cpu enable_int ;;
    u_on_cpu (printf ("ESR: 0x" +:+ hex esr +:+ crlf +:+ "EC: 0x" +:+ hex ec +:+ crlf)) ;;
    u_on_cpu disable_int.

(** ** mmap (vmem.c) *)

(** The loop over candidate addresses. *)
Fixpoint mmap_search (fuel : nat) (i addr continuous_pages num_pages : Z) : M vst Z :=
  if continuous_pages <? num_pages then
    match fuel with
    | O => spin
    | S fuel' =>
        pa ← v2p_trans i 0;
        if negb (pa =? 0) then mmap_search fuel' (u64 (i + PAGE_SIZE)) addr 0 num_pages
        else mmap_search fuel' (u64 (i + PAGE_SIZE)) (if continuous_pages =? 0 then i else addr) (continuous_pages + 1) num_pages
    end
  else mret addr.

Context `{!BlockAlloc}.

(** [malloc(n * PAGE_SIZE)]: the kernel virtual address, or NULL. *)
Definition malloc_block (n : Z) : M usys Z :=
  y ← get_st;
  let f := new_block (frames (u_vm (y_vm y))) n in
  if f =? 0 then mret 0
  else
    let fs := (λ k, f + PAGE_SIZE * k) <$> zseq 0 (Z.to_nat n) in
    on_mem (modify (λ v, set_words (foldr (λ g w, frame_words g stale ∪ w) (words v) fs)
                           (set_frames (list_to_set fs ∪ frames v) v))) ;;
    on_u (modify (λ u, set_ublocks (<[f := n]> (u_blocks u)) u)) ;;
    mret (p2v_trans_kernel f).

(** The inner loop; [fuel] is at least the number of pages that are left. *)
Fixpoint populate_blocks (fuel : nat) (ttbr s_page_idx e_page_idx pages pte_flags : Z) : M usys Z :=
  if pages <=? e_page_idx - s_page_idx then
    match fuel with
    | O => spin
    | S fuel' =>
        address ← malloc_block pages;
        if address =? 0 then mret s_page_idx
        else
          on_mem (fill_page_table (p2v_trans_kernel ttbr) s_page_idx (s_page_idx + pages) (v2p_trans_kernel address) pte_flags) ;;
          populate_blocks fuel' ttbr (s_page_idx + pages) e_page_idx pages pte_flags
    end
  else mret s_page_idx.

(** The outer loop: [pages] has at most 64 bits. *)
Fixpoint populate (fuel : nat) (ttbr s_page_idx e_page_idx pages pte_flags : Z) : M usys Z :=
  if (s_page_idx <? e_page_idx) && (0 <? pages) then
    match fuel with
    | O => spin
    | S fuel' =>
        s ← populate_blocks (S (Z.to_nat (e_page_idx - s_page_idx))) ttbr s_page_idx e_page_idx pages pte_flags;
        populate fuel' ttbr s e_page_idx (Z.shiftr pages 1) pte_flags
    end
  else mret s_page_idx.

Definition mmap_flags (prot : Z) : Z :=
  let f := PD_ACCESS in
  let f := if Z.land prot PROT_NONE =? 0 then Z.lor f PD_USER_ACCESS else f in
  let f := if Z.land prot PROT_EXEC =? 0 then Z.lor f PD_NX_EL0 else f in
  if Z.land prot PROT_WRITE =? 0 then Z.lor f PD_RDONLY else f.

(** [fd] and [file_offset] are not used. *)
Definition mmap (fuel : nat) (addr len prot flags : Z) : M usys Z :=
  p ← on_ps (gets current);
  y ← get_st;
  let ttbr := h_ttbr0 (hws (y_ps y)) in
  let num_pages := len / PAGE_SIZE + (if 0 <? len mod PAGE_SIZE then 1 else 0) in
  addr ← on_mem (mmap_search fuel (u64 (addr - addr mod PAGE_SIZE)) addr 0 num_pages);
  add_section p HEAP addr (u64 (num_pages * PAGE_SIZE)) ;;
  if negb (Z.land flags MAP_POPULATE =? 0) then
    let s_page_idx := addr / PAGE_SIZE in
    let e_page_idx := s_page_idx + num_pages in
    s ← populate 65 ttbr s_page_idx e_page_idx num_pages (mmap_flags prot);
    if s <? e_page_idx then u_on_cpu (err ("No enough space" +:+ crlf)) ;; mret 0
    else mret addr
  else mret addr.

(** ** exec and fork (syscall.c) *)

Definition with_space el' pstate' code' sp ttbr' lr b :=
  mk_pcb (pid b) (args b) el' (mk_regs (r_x (reg b)) (r_fp (reg b)) lr (r_sp (reg b))) (reg_backup b) sp (sp_el0_backup b) (pc b)
    (stack1 b) (state b) (wait_q b) pstate' code' (wait_data b) (sig_handler b) (signal_queue b) (sections b)
    ttbr' (cur_dir b) (fd_table b) (fd_bitmap b).

(** [prog] is what [load_prog] returned: address and size. *)
Definition exec (prog : option (Z * Z)) : M usys Z :=
  p ← on_ps (gets current);
  match prog with
  | None =>
      u_on_cpu (printf ("File not found" +:+ crlf)) ;;
      on_ps exit ;; mret (-1)
  | Some (prog_addr, prog_size) =>
      u_on_cpu disable_int ;;
      b ← on_ps (pcb_get p);
      (if el b =? 0 then
         on_ps (pcb_upd p (with_sections [])) ;;
         free_sections (sections b) (ttbr b) ;;
         on_mem (free_page_table (ttbr b) 3)
       else mret tt) ;;
      t ← on_mem init_ttbr;
      on_ps (pcb_upd p (with_space 0 EL0_W_DAIF (v2p_trans_kernel prog_addr) USR_STACK_END t (C_fn "_exit"))) ;;
      add_section p TEXT USR_CODE_START prog_size ;;
      add_section p STACK USR_STACK_START STACK_EL0_SIZE ;;
      u_on_cpu enable_int ;;
      on_ps (hw_upd (λ h, mk_hw (h_reg h) (C_usr USR_CODE_START) 0 (h_args h) t (h_ttbr1 h) USR_STACK_END)) ;;
      mret 0
  end.

Definition add_ref_sections (l : list section) (ttbr : Z) : M usys unit :=
  for_each l (λ s,
    if decide (s_type s = DEVICE) then mret tt
    else for_each (page_offs (s_size s)) (λ i, ptr ← on_mem (v2p_trans (u64 (s_base s + i)) ttbr); ref_page ptr)).

(** A word of a kernel stack. *)
Definition stack_get (a : Z) : M usys Z := y ← get_st; deref (u_stack (y_vm y) !! a).
Definition stack_set (a x : Z) : M usys unit :=
  _ ← stack_get a; on_u (modify (λ u, set_ustack (<[a := x]> (u_stack u)) u)).

(** [memcpy] of a whole kernel stack, given the tops; the new one was just
    allocated and its words hold anything. *)
Definition stack_put (a x : Z) : M usys unit := on_u (modify (λ u, set_ustack (<[a := x]> (u_stack u)) u)).
Definition copy_stack (new_top top : Z) : M usys unit :=
  for_each (zseq 0 1024) (λ i, x ← stack_get (top - STACK_EL1_SIZE + 8 * i); stack_put (new_top - STACK_EL1_SIZE + 8 * i) x).

(** The saved frame pointers of the copy, from [tmp] on. *)
Fixpoint update_fps (fuel : nat) (new_top top tmp : Z) : M usys unit :=
  if tmp <? new_top then
    match fuel with
    | O => spin
    | S fuel' =>
        x ← stack_get tmp;
        let update_fp := u64 (new_top - (top - x)) in
        if (update_fp <=? tmp) || (new_top <? update_fp) then mret tt
        else stack_set tmp update_fp ;; update_fps fuel' new_top top update_fp
    end
  else mret tt.

(** The open files are shared: each descriptor counts. *)
Definition share_files (fds : list Z) : M usys unit :=
  for_each fds (λ f,
    if f =? 0 then mret tt
    else y ← get_st; c ← deref (u_files (y_vm y) !! f); on_u (modify (λ u, set_ufiles (<[f := c + 1]> (u_files u)) u))).

Definition inherit (b nb : pcb) : pcb :=
  mk_pcb (pid nb) (args nb) (el b) (reg nb) (reg_backup nb) (sp_el0 nb) (sp_el0_backup nb) (pc nb) (stack1 nb) (state nb) (wait_q nb)
    (pstate nb) (code nb) (wait_data nb) (sig_handler b) (signal_queue nb) (sections nb) (ttbr nb) (cur_dir b)
    (zip_with (λ f g, if f =? 0 then g else f) (fd_table b) (fd_table nb)) (fd_bitmap b).

Definition share_space (b : pcb) (t sp : Z) (nb : pcb) : pcb :=
  mk_pcb (pid nb) (args nb) (el nb) (reg nb) (reg_backup nb) sp (sp_el0_backup nb) (pc nb) (stack1 nb) (state nb) (wait_q nb)
    (pstate nb) (code b) (wait_data nb) (sig_handler nb) (signal_queue nb) (sections nb ++ sections b) t (cur_dir nb) (fd_table nb) (fd_bitmap nb).

(** The part for user processes: the address space. *)
Definition fork_space (b : pcb) (new_pcb : Z) : M usys unit :=
  add_ref_sections (sections b) (ttbr b) ;;
  t ← on_mem init_ttbr;
  on_mem (page_table_fork t (ttbr b) 3) ;;
  y ← get_st;
  on_ps (pcb_upd new_pcb (share_space b t (h_sp_el0 (hws (y_ps y))))).

(** The result in the parent; the child runs from the label [out] on. *)
Definition fork `{!NodeAlloc} (ret_addr : code_ptr) : M usys Z :=
  p ← on_ps (gets current);
  u_on_cpu disable_int ;;
  b ← on_ps (pcb_get p);
  new_pid ← on_ps (thread_create (C_fn "fork.out") (args b));
  new_pcb ← on_ps (table_get new_pid);
  on_ps (pcb_upd new_pcb (inherit b)) ;;
  share_files (fd_table b) ;;
  (if el b =? 0 then fork_space b new_pcb else mret tt) ;;
  nb ← on_ps (pcb_get new_pcb);
  copy_stack (stack1 nb) (stack1 b) ;;
  y ← get_st;
  let r := h_reg (hws (y_ps y)) in
  let frame_ptr := u64 (stack1 nb - (stack1 b - r_fp r)) in
  let stack_ptr := u64 (stack1 nb - (stack1 b - r_sp r)) in
  update_fps 1025 (stack1 nb) (stack1 b) frame_ptr ;;
  on_ps (save_regs new_pcb frame_ptr stack_ptr ret_addr) ;;
  u_on_cpu enable_int ;;
  mret new_pid.
End Fault.
