(* ===== verification/UspaceProps.v ===== *)
(** * User address spaces: page references and page faults

    The operations on reference counts as equations, the copy of a page, and
    what [exception_entry] does to the translations of the running process, to
    the contents of pages and to their reference counts. *)

From S2P Require Import Prelude Cpu Buddy KList Vmem VmemRep VmemThm VmemProps VmemForkThm Process ProcessInv ProcessThm ProcessProps Uspace.

Implicit Types y : usys.

(** ** Running on parts of the state *)

Lemma wp_on_vst {A} (m : M vst A) (Q : A → usys → Prop) y :
  wp m (λ a v, Q a (put_vm v y)) (vm_of y) → wp (on_mem m) Q y.
Proof. apply wp_zoom. Qed.

Lemma wp_on_ps {A} (m : M ps A) (Q : A → usys → Prop) y :
  wp m (λ a p, Q a (set_yps p y)) (y_ps y) → wp (on_ps m) Q y.
Proof. apply wp_zoom. Qed.

Lemma wp_on_u {A} (m : M uvm A) (Q : A → usys → Prop) y :
  wp m (λ a u, Q a (set_yvm u y)) (y_vm y) → wp (on_u m) Q y.
Proof. apply wp_zoom. Qed.

Definition u_cpu y : cpu := p_cpu (y_ps y).
Definition with_cpu c y : usys := set_yps (set_pcpu c (y_ps y)) y.
Definition entered y : usys := with_cpu (enter (u_cpu y)) y.
Definition left_ y : usys := with_cpu (leave (u_cpu y)) y.

Lemma wp_u_disable (Q : unit → usys → Prop) y : Q tt (entered y) → wp (u_on_cpu disable_int) Q y.
Proof. intros HQ. exact HQ. Qed.
Lemma wp_u_enable (Q : unit → usys → Prop) y : Q tt (left_ y) → wp (u_on_cpu enable_int) Q y.
Proof. intros HQ. exact HQ. Qed.
Lemma wp_u_printf msg (Q : unit → usys → Prop) y : Q tt (with_cpu (say msg (u_cpu y)) y) → wp (u_on_cpu (printf msg)) Q y.
Proof. intros HQ. exact HQ. Qed.

Lemma with_cpu_id y : with_cpu (u_cpu y) y = y.
Proof. destruct y as [[] u]. done. Qed.

(** The state around a change of the memory inside a critical section. *)
Lemma left_vm u y : cpu_ok (u_cpu y) → left_ (set_yvm u (entered y)) = set_yvm u y.
Proof.
  intros Hc. unfold left_, entered. change (u_cpu (set_yvm u (with_cpu (enter (u_cpu y)) y))) with (enter (u_cpu y)). rewrite leave_enter by done.
  unfold with_cpu, set_yvm, set_yps, u_cpu, set_pcpu. by destruct y as [[] ?].
Qed.

Lemma left_same y : cpu_ok (u_cpu y) → left_ (entered y) = y.
Proof. intros Hc. pose proof (left_vm (y_vm y) y Hc) as E. replace (set_yvm (y_vm y) y) with y in E by (by destruct y). exact E. Qed.

Lemma wp_at_upage {A} ptr (e : A) body (Q : A → usys → Prop) y :
  ptr mod PAGE_SIZE = 0 → wp (body (ptr / PAGE_SIZE)) (λ r z, Q r (left_ z)) (entered y) → wp (at_page ptr e body) Q y.
Proof.
  intros Hp H. unfold at_page. rewrite Hp. cbn [negb Z.eqb]. wp_step. apply wp_u_disable. wp_step.
  eapply wp_mono; [exact H|]. intros r z HQ. wp_step. apply wp_u_enable. by wp_step.
Qed.

(** ** Page references *)

Definition with_ref (idx c : Z) y : usys := set_yvm (set_refs (<[idx := c]> (u_refs (y_vm y))) (y_vm y)) y.

Lemma wp_ref_get idx c (Q : Z → usys → Prop) y : u_refs (y_vm y) !! idx = Some c → Q c y → wp (ref_get idx) Q y.
Proof. intros E HQ. unfold ref_get. wp_step. apply wp_get_st. by apply (wp_deref _ c). Qed.
Lemma wp_ref_set idx c x (Q : unit → usys → Prop) y : u_refs (y_vm y) !! idx = Some c → Q tt (with_ref idx x y) → wp (ref_set idx x) Q y.
Proof. intros E HQ. unfold ref_set. wp_step. apply (wp_ref_get _ c); [done|]. apply wp_on_u. by wp_step. Qed.
Lemma wp_perm_get idx c (Q : Z → usys → Prop) y : v_perm (u_vm (y_vm y)) !! idx = Some c → Q c y → wp (perm_get idx) Q y.
Proof. intros E HQ. unfold perm_get. wp_step. apply wp_get_st. by apply (wp_deref _ c). Qed.

Section Refs.
Context (y : usys) (ptr : Z).
Hypothesis Hcpu : cpu_ok (u_cpu y).
Hypothesis Hptr : ptr mod PAGE_SIZE = 0.

Lemma wp_get_w p (Q : bool → usys → Prop) : v_perm (u_vm (y_vm y)) !! (ptr / PAGE_SIZE) = Some p → Q (negb (p =? 0)) y → wp (get_w_permission ptr) Q y.
Proof. intros E HQ. apply wp_at_upage; [done|]. wp_step. apply (wp_perm_get _ p); [done|]. wp_step. by rewrite left_same. Qed.

Lemma wp_get_ref c (Q : Z → usys → Prop) : u_refs (y_vm y) !! (ptr / PAGE_SIZE) = Some c → Q c y → wp (get_ref_count ptr) Q y.
Proof. intros E HQ. apply wp_at_upage; [done|]. apply (wp_ref_get _ c); [done|]. by rewrite left_same. Qed.

Lemma wp_ref_page c (Q : unit → usys → Prop) :
  u_refs (y_vm y) !! (ptr / PAGE_SIZE) = Some c → Q tt (with_ref (ptr / PAGE_SIZE) (u16 (c + 1)) y) → wp (ref_page ptr) Q y.
Proof.
  intros E HQ. apply wp_at_upage; [done|]. wp_step. apply (wp_ref_get _ c); [done|]. apply (wp_ref_set _ c); [done|]. unfold with_ref in *.
  by rewrite (left_vm _ y).
Qed.

(** A page that others still use. *)
Lemma wp_deref_shared c (Q : unit → usys → Prop) :
  u_refs (y_vm y) !! (ptr / PAGE_SIZE) = Some c → 1 < c < 2 ^ 16 → Q tt (with_ref (ptr / PAGE_SIZE) (c - 1) y) → wp (deref_page ptr) Q y.
Proof.
  intros E Hc HQ. apply wp_at_upage; [done|]. wp_step. apply (wp_ref_get _ c); [done|]. destruct (Z.ltb_spec 0 c); [|lia].
  assert (u16 (c - 1) = c - 1) as -> by (apply Z.mod_small; lia). cbv zeta. wp_step. apply (wp_ref_set _ c); [done|].
  destruct (Z.eqb_spec (c - 1) 0); [lia|]. wp_step. unfold with_ref in *. by rewrite (left_vm _ y).
Qed.
End Refs.

(** ** Copying a page *)

Lemma wp_copy_page s h f (Q : unit → vst → Prop) :
  0 ≤ h < 2 ^ 47 → 0 ≤ f < 2 ^ 47 → h mod 4096 = 0 → f mod 4096 = 0 → h ≠ f →
  (∀ j, 0 ≤ j < 512 → is_Some (word s h j)) → (∀ j, 0 ≤ j < 512 → is_Some (word s f j)) →
  (∀ s', (∀ j, 0 ≤ j < 512 → word s' h j = word s f j) →
     (∀ c j, c ≠ h → c mod 4096 = 0 → 0 ≤ j < 512 → word s' c j = word s c j) → frames s' = frames s → same_regs s s' → Q tt s') →
  wp (copy_page (p2v_trans_kernel h) (p2v_trans_kernel f)) Q s.
Proof.
  intros Hh Hf Hha Hfa Hne Hwh Hwf HQ. unfold copy_page.
  eapply wp_mono; [apply (wp_for_each (λ l s', (∀ j, 0 ≤ j < 512 → j ∉ l → word s' h j = word s f j) ∧ (∀ j, j ∈ l → 0 ≤ j < 512) ∧
    (∀ j, 0 ≤ j < 512 → is_Some (word s' h j)) ∧
    (∀ c j, c ≠ h → c mod 4096 = 0 → 0 ≤ j < 512 → word s' c j = word s c j) ∧ frames s' = frames s ∧ same_regs s s'))|].
  - split_and!; try done; [intros j Hj Hn; destruct Hn; apply elem_of_zseq; lia|intros j Hj%elem_of_zseq; lia].
  - intros i l s1 (H1 & H2 & H3 & H4 & H5 & H6). assert (Hi : 0 ≤ i < 512) by (apply H2; by left).
    destruct (Hwf i Hi) as [x Hx]. wp_step. apply (wp_load _ (f + 8 * i) x); [apply v2p_p2v; lia|by rewrite <- Hx, <- (H4 f i)|].
    apply (wp_store _ (h + 8 * i)); [apply v2p_p2v; lia|by apply H3|]. split_and!; try done.
    + intros j Hj Hn. unfold word at 1. simpl. destruct (decide (j = i)) as [->|]; [by rewrite lookup_insert_eq|]. rewrite lookup_insert_ne by lia.
      apply H1; [done|]. rewrite elem_of_cons. tauto.
    + intros j Hj. apply H2. by right.
    + intros j Hj. unfold word. simpl. rewrite lookup_insert_is_Some'. right. by apply H3.
    + intros c j Hc Ha Hj. unfold word at 1. simpl. rewrite lookup_insert_ne; [by apply H4|]. intros E. by destruct (cell_inj h c i j) as [-> _].
  - intros [] s' (H1 & _ & _ & H4 & H5 & H6). apply HQ; try done. intros j Hj. apply H1; [done|]. set_solver.
Qed.


(** The exception is a data abort of the kind [kind]. *)
Definition data_abort (esr kind : Z) : Prop :=
  Z.shiftr (Z.land esr EC_MASK) 26 = EC_DATA_ABORT ∧ Z.shiftr (Z.land esr DFSC_MASK) 2 = kind.

(** A data abort or an instruction abort. *)
Definition abort (esr kind : Z) : Prop :=
  (Z.shiftr (Z.land esr EC_MASK) 26 = EC_DATA_ABORT ∨ Z.shiftr (Z.land esr EC_MASK) 26 = EC_INSTRUCTION_ABORT) ∧
  Z.shiftr (Z.land esr DFSC_MASK) 2 = kind.

Lemma data_abort_abort esr kind : data_abort esr kind → abort esr kind.
Proof. intros [? ?]. split; [by left|done]. Qed.

Lemma abort_class esr kind : abort esr kind →
  (Z.shiftr (Z.land esr EC_MASK) 26 =? EC_DATA_ABORT) || (Z.shiftr (Z.land esr EC_MASK) 26 =? EC_INSTRUCTION_ABORT) = true.
Proof. by intros [[->| ->] _]. Qed.

(** Inside the handler: one more level of masked interrupts than outside. *)
Definition in_handler (c : cpu) : Prop := cpu_ok c ∧ 1 ≤ irq_nested_count c.

(** The running process has mapped the address it writes to, by [e]. *)
Record mapped y root P far e : Prop := mk_mapped {
  mp_cpu : in_handler (u_cpu y);
  mp_root : h_ttbr0 (hws (y_ps y)) = root;
  mp_wf : pt_wf (vm_of y) root P;
  mp_far : 0 ≤ far < 2 ^ 48;
  mp_entry : translate (vm_of y) root (far / 4096) = Some e;
  mp_frame : Z.land e TABLE_ADDR_MASK ∈ frames (vm_of y);
  mp_page : P !! Z.land e TABLE_ADDR_MASK = None;
  mp_range : Z.land e TABLE_ADDR_MASK < 2 ^ 47;
  mp_words j : 0 ≤ j < 512 → is_Some (word (vm_of y) (Z.land e TABLE_ADDR_MASK) j);
  mp_perm : ∃ w, v_perm (vm_of y) !! (Z.land e TABLE_ADDR_MASK / PAGE_SIZE) = Some w ∧ w ≠ 0;
}.

(** ** Lemmas *)

Lemma vm_of_put v y : same_regs (vm_of y) v → vm_of (put_vm v y) = v.
Proof. intros (H1 & H2 & _ & _). unfold vm_of. simpl in *. rewrite <- H1, <- H2. by destruct v. Qed.

Lemma put_vm_of y : put_vm (vm_of y) y = y.
Proof. by destruct y as [p [[] r b k fl]]. Qed.

Lemma put_put v w y : put_vm v (put_vm w y) = put_vm v y.
Proof. done. Qed.

(** A tree of tables depends only on the words of its tables. *)
Lemma pt_wf_frame s s' root P : pt_wf s root P → frames s ⊆ frames s' →
  (∀ c ρ j, P !! c = Some ρ → 0 ≤ j < 512 → word s' c j = word s c j) → pt_wf s' root P.
Proof.
  intros [H1 H2 H3 H4 H5 H6] Hf Hw. split; [done| | |done| |].
  - intros f π Hp. destruct (H2 f π Hp) as (? & ? & ? & ?). split_and!; try lia. set_solver.
  - intros f π i Hp Hi. rewrite (Hw f π) by done. by eapply H3.
  - intros f π i e Hp Hl Hi. rewrite (Hw f π) by done. by apply H5.
  - intros c π i Hc. destruct (H6 c π i Hc) as (Hi & f & e & Hp & He & Hv & Hm). split; [done|]. exists f, e. by rewrite (Hw f π).
Qed.

Lemma translate_frame s s' root P p : pt_wf s root P →
  (∀ c ρ j, P !! c = Some ρ → 0 ≤ j < 512 → word s' c j = word s c j) → translate s' root p = translate s root p.
Proof.
  intros Hwf Hw. unfold translate.
  enough (H : ∀ idxs f ρ, P !! f = Some ρ → (length ρ + length idxs = 4)%nat → in_range idxs → resolve s' f idxs = resolve s f idxs).
  { apply (H _ root []); [apply Hwf|done|intros j; apply indices_range]. }
  induction idxs as [|i [|j rest] IH]; intros f ρ Hf Hl Hr; [done| |]; assert (Hi : 0 ≤ i < 512) by (apply Hr; by left); cbn [resolve]; rewrite (Hw f ρ) by done; [done|].
  destruct (word s f i) as [e|] eqn:He; [|done]. simpl. destruct (valid e) eqn:Hv; [|done].
  destruct (pt_next _ _ _ Hwf f ρ i e Hf ltac:(simpl in Hl; lia) Hi He Hv) as [_ Hn].
  apply (IH _ _ Hn); [rewrite length_app; simpl in *; lia|]. intros k Hk. apply Hr. by right.
Qed.

Lemma page_of_addr f o : 0 ≤ f < 2 ^ 48 → f mod 4096 = 0 → 0 ≤ o < 4096 → Z.land (Z.lor f o) (u64 (Z.lnot (PAGE_SIZE - 1))) = f.
Proof.
  intros Hf Ha Ho. change (u64 (Z.lnot (PAGE_SIZE - 1))) with (Z.shiftl (Z.ones 52) 12). apply mod0_divide in Ha as Hd; [|lia].
  apply Z.bits_inj'. intros b Hb. rewrite Z.land_spec, Z.lor_spec, Z.shiftl_spec by lia. destruct (Z.lt_ge_cases b 12) as [Hl|Hl].
  - rewrite (Z.testbit_neg_r _ (b - 12)), andb_false_r by lia. destruct Hd as [q ->]. change 4096 with (2 ^ 12). by rewrite Z.mul_pow2_bits_low by lia.
  - assert (Z.testbit o b = false) as ->. { rewrite <- (Z.mod_small o (2 ^ 12)) by lia. apply Z.mod_pow2_bits_high. lia. } rewrite orb_false_r.
    destruct (Z.lt_ge_cases (b - 12) 52); [rewrite Z.ones_spec_low by lia; apply andb_true_r|].
    rewrite <- (Z.mod_small f (2 ^ 48)) by lia. by rewrite Z.mod_pow2_bits_high by lia.
Qed.

Lemma say_in_handler msg c : in_handler c → enter (say msg (leave c)) = say msg c.
Proof.
  intros [[H1 H2] H3]. destruct c as [n m l]. simpl in *. unfold enter, say, leave. simpl. f_equal; [lia|].
  rewrite H2. symmetry. apply bool_decide_eq_true. lia.
Qed.

(** [enable_int], a message, [disable_int]. *)
Lemma wp_report msg (Q : unit → usys → Prop) y :
  in_handler (u_cpu y) → Q tt (with_cpu (say msg (u_cpu y)) y) → wp (u_on_cpu enable_int ;; u_on_cpu (printf msg) ;; u_on_cpu disable_int) Q y.
Proof.
  intros Hc HQ. wp_step. apply wp_u_enable. wp_step. apply wp_u_printf. apply wp_u_disable. unfold entered, left_.
  assert (E : with_cpu (enter (say msg (leave (u_cpu y)))) y = with_cpu (say msg (u_cpu y)) y) by (by rewrite say_in_handler).
  rewrite <- E in HQ. exact HQ.
Qed.

Lemma wp_report_true msg (Q : bool → usys → Prop) y :
  in_handler (u_cpu y) → Q true (with_cpu (say msg (u_cpu y)) y) → wp (u_on_cpu enable_int ;; u_on_cpu (printf msg) ;; u_on_cpu disable_int ;; mret true) Q y.
Proof.
  intros Hc HQ. pose proof (wp_report msg (λ _, Q true) y Hc HQ) as H. unfold wp, mbind, M_bind in *.
  destruct (u_on_cpu enable_int y) as [[? y1]| |]; [|done..]. destruct (u_on_cpu (printf msg) y1) as [[? y2]| |]; [|done..].
  by destruct (u_on_cpu disable_int y2) as [[? y3]| |].
Qed.

(** The bits of an entry outside the address. *)
Lemma page_entry_bit pa fl b : 0 ≤ pa < 2 ^ 47 → pa mod 4096 = 0 → 0 ≤ b < 12 ∨ 48 ≤ b →
  Z.testbit (page_entry 0 pa fl) b = Z.testbit (Z.lor (Z.lor (Z.lor PD_USER_ACCESS (Z.shiftl MAIR_IDX_NORMAL_NOCACHE 2)) PD_PAGE) fl) b.
Proof.
  intros Hp Ha Hb. unfold page_entry. change (PAGE_SIZE * 0 + pa) with pa. rewrite u64_small by lia. rewrite !Z.lor_spec.
  assert (Z.testbit pa b = false) as ->; [|done]. apply mod0_divide in Ha as [q ->]; [|lia]. destruct Hb as [Hb|Hb].
  - change 4096 with (2 ^ 12). by rewrite Z.mul_pow2_bits_low by lia.
  - rewrite <- (Z.mod_small (q * 4096) (2 ^ 48)) by lia. by rewrite Z.mod_pow2_bits_high by lia.
Qed.

Section Fault.
Context `{!PageAlloc}.

Lemma exception_permission esr far y y' :
  data_abort esr DFSC_PERMISSION → permission_fault far y = Ok (true, y') → exception_entry esr far y = Ok (tt, y').
Proof. intros [H1 H2] E. unfold exception_entry. rewrite H1, H2. cbn. unfold mbind, M_bind. by rewrite E. Qed.

Lemma exception_translation esr far y y' :
  abort esr DFSC_TRANSLATION → translation_fault far y = Ok (true, y') → exception_entry esr far y = Ok (tt, y').
Proof. intros Ha E. unfold exception_entry. cbv zeta. rewrite (abort_class _ _ Ha), (proj2 Ha). cbn. unfold mbind, M_bind. by rewrite E. Qed.

(** What the handler finds out about the page. *)
Lemma wp_permission_start y root P far e c (Q : bool → usys → Prop) (f := Z.land e TABLE_ADDR_MASK) :
  mapped y root P far e → u_refs (y_vm y) !! (f / PAGE_SIZE) = Some c →
  wp ((if 1 <? c then
         v_new_page ← on_mem malloc_page;
         on_mem (copy_page v_new_page (p2v_trans_kernel f)) ;;
         on_mem (replace_page_entry 0 far (v2p_trans_kernel v_new_page) true) ;;
         deref_page f ;; ref_page (v2p_trans_kernel v_new_page) ;;
         u_on_cpu enable_int ;; u_on_cpu (printf ("[Copy-on-write]: 0x" +:+ hex far +:+ crlf)) ;; u_on_cpu disable_int
       else on_mem (replace_page_entry 0 far (Z.lor f (far mod 4096)) true)) ;; mret true) Q y →
  wp (permission_fault far) Q y.
Proof.
  intros [M1 M2 M3 M4 M5 M6 M7 M8 M9 (w & M10 & M11)] Hc HQ. fold f in M6, M7, M8, M9, M10.
  destruct (translate_range _ _ _ M3 _ _ M5) as [Her _]. destruct (mask_frame e Her) as [Hfr Hfa]. fold f in Hfr, Hfa.
  unfold permission_fault. wp_step. apply wp_on_vst. eapply wp_eq; [apply (v2p_trans_run _ root P M3); [done|by right]|].
  rewrite M5. cbn [phys]. rewrite put_vm_of. fold f. cbv zeta. rewrite page_of_addr; [|done|done|apply Z.mod_pos_bound; lia].
  wp_step. apply (wp_get_w _ _ (proj1 M1) Hfa w); [done|]. destruct (Z.eqb_spec w 0); [done|]. cbn [negb].
  wp_step. apply (wp_get_ref _ _ (proj1 M1) Hfa c); [done|].
  exact HQ.
Qed.

(** The state after the copy of the page [f] of [y] to the new frame [h]: the
    tables are as before, and the words of [h] are those of [f]. *)
Lemma wp_copy_fresh {B} y root P far e (K : Z → M usys B) (Q : B → usys → Prop) (f := Z.land e TABLE_ADDR_MASK) (h := new_frame (frames (vm_of y))) :
  mapped y root P far e → room (vm_of y) 1 →
  (∀ s, pt_wf s root P → (∀ p, translate s root p = translate (vm_of y) root p) → (∀ j, 0 ≤ j < 512 → word s h j = word (vm_of y) f j) →
     (∀ c j, c ≠ h → c mod 4096 = 0 → 0 ≤ j < 512 → word s c j = word (vm_of y) c j) → frames s = {[h]} ∪ frames (vm_of y) → same_regs (vm_of y) s →
     wp (K (p2v_trans_kernel h)) Q (put_vm s y)) →
  wp (v ← on_mem malloc_page; on_mem (copy_page v (p2v_trans_kernel f)) ;; K v) Q y.
Proof.
  intros [M1 M2 M3 M4 M5 M6 M7 M8 M9 _] Hroom HQ. fold f in M6, M7, M8, M9.
  destruct (translate_range _ _ _ M3 _ _ M5) as [Her _]. destruct (mask_frame e Her) as [Hfr Hfa]. fold f in Hfr, Hfa.
  pose proof (new_frame_range (frames (vm_of y))) as Hhr. pose proof (new_frame_aligned (frames (vm_of y))) as Hha.
  pose proof (new_frame_fresh (frames (vm_of y)) ltac:(unfold room in Hroom; lia)) as Hhf. fold h in Hhr, Hha, Hhf.
  assert (Hne : h ≠ f) by congruence.
  wp_step. apply wp_on_vst, wp_raw_page; [done|]. fold h. intros s1 F1 W1 O1 R1. wp_step.
  apply wp_on_vst. rewrite vm_of_put by done. apply wp_copy_page; [lia|lia|done|done|done|done| |].
  { intros j Hj. rewrite O1 by done. by apply M9. }
  intros s2 C2 O2 F2 R2. rewrite put_put.
  assert (Ho : ∀ c j, c ≠ h → c mod 4096 = 0 → 0 ≤ j < 512 → word s2 c j = word (vm_of y) c j) by (intros c j ? ? ?; rewrite O2 by done; by apply O1).
  assert (Hp : ∀ c ρ j, P !! c = Some ρ → 0 ≤ j < 512 → word s2 c j = word (vm_of y) c j).
  { intros c ρ j Hc Hj. destruct (pt_frame _ _ _ M3 c ρ Hc) as (_ & Hcf & _ & Hca). apply Ho; [|done|done]. congruence. }
  apply HQ; [apply (pt_wf_frame (vm_of y)); [done|set_solver|done]|intros p; by apply (translate_frame _ _ _ P)| |done|by rewrite F2|by eapply same_regs_trans].
  intros j Hj. rewrite C2 by done. by apply O1.
Qed.

(** The copy-on-write step, when others use the page too. *)
Lemma wp_permission_shared y root P far e c (f := Z.land e TABLE_ADDR_MASK) (h := new_frame (frames (vm_of y))) :
  mapped y root P far e → u_refs (y_vm y) !! (f / PAGE_SIZE) = Some c → 1 < c < 2 ^ 16 → room (vm_of y) 1 → u_refs (y_vm y) !! (h / PAGE_SIZE) = Some 0 →
  wp (permission_fault far) (λ ok y', ok = true ∧ y_ps y' = set_pcpu (say ("[Copy-on-write]: 0x" +:+ hex far +:+ crlf) (u_cpu y)) (y_ps y) ∧
    u_refs (y_vm y') = <[h / PAGE_SIZE := 1]> (<[f / PAGE_SIZE := c - 1]> (u_refs (y_vm y))) ∧ pt_wf (vm_of y') root P ∧ frames (vm_of y') = {[h]} ∪ frames (vm_of y) ∧
    (∀ q, 0 ≤ q < 2 ^ 36 → translate (vm_of y') root q = if decide (q = far / 4096) then Some (new_entry e h true) else translate (vm_of y) root q) ∧
    (∀ j, 0 ≤ j < 512 → word (vm_of y') h j = word (vm_of y) f j) ∧
    ∀ c j, c ≠ h → P !! c = None → c mod 4096 = 0 → 0 ≤ j < 512 → word (vm_of y') c j = word (vm_of y) c j) y.
Proof.
  intros HM Hc Hcr Hroom Hh. pose proof HM as [M1 M2 M3 M4 M5 M6 M7 M8 M9 _]. fold f in M6, M7, M8, M9.
  destruct (translate_range _ _ _ M3 _ _ M5) as [Her _]. destruct (mask_frame e Her) as [Hfr Hfa]. fold f in Hfr, Hfa.
  pose proof (new_frame_range (frames (vm_of y))) as Hhr. pose proof (new_frame_aligned (frames (vm_of y))) as Hha.
  pose proof (new_frame_fresh (frames (vm_of y)) ltac:(unfold room in Hroom; lia)) as Hhf. fold h in Hhr, Hha, Hhf.
  assert (Hne : h / PAGE_SIZE ≠ f / PAGE_SIZE). { change PAGE_SIZE with 4096. assert (h ≠ f) by congruence. Z.div_mod_to_equations. lia. }
  apply (wp_permission_start y root P far e c); [done|done|]. destruct (Z.ltb_spec 1 c); [|lia]. fold f. wp_step.
  apply (wp_copy_fresh y root P far e); [done|done|]. fold f h. intros s1 W1 T1 C1 O1 F1 R1. rewrite v2p_p2v_0 by lia. wp_step.
  apply wp_on_vst. rewrite vm_of_put by done.
  eapply wp_mono; [apply (wp_replace s1 root P far 0 h true W1 M4); right; split; [done|]; transitivity (ttbr0_el1 (vm_of y)); [apply R1|done]|].
  intros _ s2 (W2 & R2 & F2 & T2 & O2). rewrite put_put. set (y2 := put_vm s2 y).
  assert (R : same_regs (vm_of y) s2) by (by eapply same_regs_trans).
  wp_step. apply (wp_deref_shared y2 f (proj1 M1) Hfa c); [done|done|]. set (y3 := with_ref _ _ y2).
  wp_step. apply (wp_ref_page y3 h (proj1 M1) Hha 0).
  { unfold y3, with_ref. simpl. by rewrite lookup_insert_ne. }
  apply wp_report; [done|]. wp_step.
  assert (Ev : vm_of y2 = s2) by (by apply vm_of_put). split; [done|]. split; [by destruct y as [[] ?]|]. split; [done|].
  change (vm_of (with_cpu _ _)) with (vm_of y2). rewrite Ev. split_and!; [done|by rewrite F2| | |].
  - intros q Hq. rewrite T2 by done. rewrite T1. case_decide as Hq'; [|done]. by rewrite Hq', M5.
  - intros j Hj. rewrite O2; [by apply C1|done|done|]. eapply (g_new (vm_of y)); [exact M3|exact Hhf].
  - intros c' j ? ? ? ?. rewrite O2 by done. by apply O1.
Qed.
(** The step when nobody else uses the page: it becomes writable again. *)
Lemma wp_permission_sole y root P far e c (f := Z.land e TABLE_ADDR_MASK) :
  mapped y root P far e → u_refs (y_vm y) !! (f / PAGE_SIZE) = Some c → c ≤ 1 →
  wp (permission_fault far) (λ ok y', ok = true ∧ y_ps y' = y_ps y ∧ u_refs (y_vm y') = u_refs (y_vm y) ∧ pt_wf (vm_of y') root P ∧
    frames (vm_of y') = frames (vm_of y) ∧
    (∀ q, 0 ≤ q < 2 ^ 36 → translate (vm_of y') root q = if decide (q = far / 4096) then Some (new_entry e f true) else translate (vm_of y) root q) ∧
    ∀ c j, P !! c = None → c mod 4096 = 0 → 0 ≤ j < 512 → word (vm_of y') c j = word (vm_of y) c j) y.
Proof.
  intros HM Hc Hcr. pose proof HM as [M1 M2 M3 M4 M5 M6 M7 M8 M9 _]. fold f in M6, M7, M8, M9.
  destruct (translate_range _ _ _ M3 _ _ M5) as [Her _]. destruct (mask_frame e Her) as [Hfr Hfa]. fold f in Hfr, Hfa.
  apply (wp_permission_start y root P far e c); [done|done|]. destruct (Z.ltb_spec 1 c); [lia|]. fold f. wp_step.
  apply wp_on_vst. eapply wp_mono; [apply (wp_replace (vm_of y) root P far 0 (Z.lor f (far mod 4096)) true M3 M4); right; done|].
  intros _ s2 (W2 & R2 & F2 & T2 & O2). wp_step. split; [done|]. split; [done|]. split; [done|]. rewrite vm_of_put by done.
  split_and!; [done|done| |intros; by apply O2]. intros q Hq. rewrite T2 by done. case_decide as Hq'; [|done]. rewrite Hq', M5. simpl. f_equal.
  unfold new_entry. f_equal. rewrite mask_entry; [|done|done|].
  - symmetry. rewrite <- (Z.lor_0_r f) at 1. by apply mask_entry.
  - pose proof (Z.mod_pos_bound far 4096 ltac:(lia)). rewrite Z.land_comm. apply (land_low_zero _ 12); [lia|done|by exists (TABLE_ADDR_MASK / 4096)].
Qed.

(** ** Translation faults *)

Lemma wp_list_find l addr (Q : option section → usys → Prop) y : cpu_ok (u_cpu y) → Q (List.find (in_section addr) l) y → wp (list_find l addr) Q y.
Proof. intros Hc HQ. unfold list_find. wp_step. apply wp_u_disable. wp_step. apply wp_u_enable. wp_step. by rewrite left_same. Qed.

(** The running process is [b], with the tables at [root]. *)
Record running y root P b : Prop := mk_running {
  rn_cpu : in_handler (u_cpu y);
  rn_pcb : pcbs (y_ps y) !! current (y_ps y) = Some b;
  rn_ttbr : ttbr b = root;
  rn_wf : pt_wf (vm_of y) root P;
}.

Lemma wp_translation_start y root P b far s (Q : bool → usys → Prop) :
  running y root P b → List.find (in_section far) (sections b) = s →
  wp (match s with
      | None => mret false
      | Some s => ok ← map_section b s far;
          if (ok : bool) then u_on_cpu enable_int ;; u_on_cpu (printf ("[Translation fault]: 0x" +:+ hex far +:+ crlf)) ;; u_on_cpu disable_int ;; mret true
          else mret false
      end) Q y → wp (translation_fault far) Q y.
Proof.
  intros [R1 R2 R3 R4] Hs HQ. unfold translation_fault. wp_step. apply wp_on_ps, wp_gets. wp_step. apply wp_on_ps, (wp_pcb_get _ b); [done|].
  wp_step. apply wp_list_find; [apply R1|]. rewrite Hs. replace (set_yps _ _) with y by (by destruct y). exact HQ.
Qed.

(** A page of the stack or of a mapping. *)
Lemma wp_map_page y root P b s far (h := new_frame (frames (vm_of y))) :
  running y root P b → s_type s = STACK ∨ s_type s = HEAP → 0 ≤ far < 2 ^ 48 → room (vm_of y) 4 → u_refs (y_vm y) !! (h / PAGE_SIZE) = Some 0 →
  wp (map_section b s far) (λ ok y', ok = true ∧ y_ps y' = y_ps y ∧ u_refs (y_vm y') = <[h / PAGE_SIZE := 1]> (u_refs (y_vm y)) ∧
    ∃ P', pt_wf (vm_of y') root P' ∧ P ⊆ P' ∧ ∀ q, 0 ≤ q < 2 ^ 36 → translate (vm_of y') root q =
      if decide (q = far / 4096) then Some (page_entry 0 h (Z.lor (Z.lor PD_NX_EL0 PD_USER_ACCESS) PD_ACCESS)) else translate (vm_of y) root q) y.
Proof.
  intros [R1 R2 R3 R4] Hs Hfar Hroom Hh. pose proof (new_frame_range (frames (vm_of y))) as Hhr. pose proof (new_frame_aligned (frames (vm_of y))) as Hha.
  pose proof (new_frame_fresh (frames (vm_of y)) ltac:(unfold room in Hroom; lia)) as Hhf. fold h in Hhr, Hha, Hhf.
  assert (Hbody : ∀ Q : bool → usys → Prop,
    wp (v ← on_mem malloc_page;
        let physical_addr := v2p_trans_kernel v in
        on_mem (fill_page_table (p2v_trans_kernel (ttbr b)) (far / PAGE_SIZE) (far / PAGE_SIZE + 1) physical_addr (Z.lor (Z.lor PD_NX_EL0 PD_USER_ACCESS) PD_ACCESS)) ;;
        ref_page physical_addr ;; mret true) Q y → wp (map_section b s far) Q y).
  { intros Q HQ. unfold map_section. destruct Hs as [-> | ->]; exact HQ. }
  apply Hbody. clear Hbody. wp_step. apply wp_on_vst, wp_raw_page; [unfold room in *; lia|]. fold h. intros s1 F1 W1 O1 S1. cbv zeta. rewrite v2p_p2v_0 by lia.
  assert (Hp : ∀ c ρ j, P !! c = Some ρ → 0 ≤ j < 512 → word s1 c j = word (vm_of y) c j).
  { intros c ρ j Hc Hj. destruct (pt_frame _ _ _ R4 c ρ Hc) as (_ & Hcf & _ & Hca). apply O1; [|done|done]. congruence. }
  assert (W : pt_wf s1 root P) by (apply (pt_wf_frame (vm_of y)); [done|set_solver|done]).
  assert (Hfp : 0 ≤ far / 4096 < 2 ^ 36) by (Z.div_mod_to_equations; lia). change PAGE_SIZE with 4096 in *. rewrite R3.
  wp_step. apply wp_on_vst. rewrite vm_of_put by done.
  eapply wp_mono; [apply (wp_fill_page_table root P s1 (far / 4096) (far / 4096 + 1) h _ W)|]; [by apply (room_spend (vm_of y) s1 h)|lia|lia| |by vm_compute|].
  { pose proof (ix_range (far / 4096) 0). lia. }
  intros _ s2 (P' & W2 & HP & S2 & T2). rewrite put_put. wp_step. apply (wp_ref_page _ h) with (c := 0); [apply R1|done|done|]. wp_step.
  split; [done|]. split; [done|]. split; [done|]. exists P'. change (vm_of (with_ref _ _ _)) with (vm_of (put_vm s2 y)). rewrite vm_of_put by (by eapply same_regs_trans).
  split_and!; [done|done|]. intros q Hq. rewrite T2 by done. destruct (decide (q = far / 4096)) as [->|].
  - rewrite decide_True by lia. by rewrite Z.sub_diag.
  - rewrite decide_False by lia. by apply (translate_frame _ _ _ P).
Qed.
(** One more reference for each of [n] pages from [base] on. *)
Definition refs_up (base : Z) (n : Z) (R R' : gmap Z Z) : Prop :=
  ∀ k, R' !! k = if decide (base / 4096 ≤ k < base / 4096 + n) then (λ c, u16 (c + 1)) <$> R !! k else R !! k.

Definition section_pages (size : Z) : Z := (size + (PAGE_SIZE - 1)) / PAGE_SIZE.

Lemma wp_ref_pages y base size (Q : unit → usys → Prop) :
  cpu_ok (u_cpu y) → 0 ≤ base → 0 ≤ size → base mod 4096 = 0 → base + 4096 * section_pages size ≤ 2 ^ 64 →
  (∀ k, base / 4096 ≤ k < base / 4096 + section_pages size → is_Some (u_refs (y_vm y) !! k)) →
  (∀ R', refs_up base (section_pages size) (u_refs (y_vm y)) R' → Q tt (set_yvm (set_refs R' (y_vm y)) y)) →
  wp (for_each (page_offs size) (λ i, ref_page (u64 (base + i)))) Q y.
Proof.
  intros Hcpu Hb Hsz Ha Hend HR HQ. set (n := section_pages size) in *. set (R := u_refs (y_vm y)) in *. set (B := base / 4096) in *.
  assert (Hn : 0 ≤ n) by (unfold n, section_pages; apply Z.div_pos; change PAGE_SIZE with 4096; lia).
  assert (Hl : ∀ i, i ∈ page_offs size ↔ ∃ j, 0 ≤ j < n ∧ i = 4096 * j).
  { intros i. unfold page_offs. rewrite list_elem_of_fmap. setoid_rewrite elem_of_zseq. fold (section_pages size). fold n. rewrite Z2Nat.id by lia. change PAGE_SIZE with 4096. naive_solver lia. }
  assert (Hnd : NoDup (page_offs size)).
  { unfold page_offs. apply NoDup_fmap_2; [intros a b; change PAGE_SIZE with 4096; lia|]. apply NoDup_zseq. }
  eapply wp_mono; [apply (wp_for_each (λ l y', NoDup l ∧ (∀ i, i ∈ l → i ∈ page_offs size) ∧ ∃ R', y' = set_yvm (set_refs R' (y_vm y)) y ∧
    ∀ k, R' !! k = if decide (B ≤ k < B + n ∧ 4096 * (k - B) ∉ l) then (λ c, u16 (c + 1)) <$> R !! k else R !! k))|].
  - split; [done|]. split; [done|]. exists R. split; [by destruct y as [? []]|]. intros k. rewrite decide_False; [done|]. intros [Hk Hnk]. apply Hnk, Hl. exists (k - B). lia.
  - intros i l y' ([Hi Hnd']%NoDup_cons & Hsub & R' & -> & HR'). destruct (proj1 (Hl i) (Hsub i ltac:(by left))) as (j & Hj & ->).
    assert (Hcell : (base + 4096 * j) / 4096 = B + j) by (unfold B; rewrite (Z.mul_comm 4096), Z.div_add by lia; lia).
    destruct (HR (B + j) ltac:(lia)) as [c Hc]. rewrite u64_small by lia.
    apply (wp_ref_page _ (base + 4096 * j)) with (c := c); [exact Hcpu| | |].
    { change PAGE_SIZE with 4096. rewrite (Z.mul_comm 4096), Z.mod_add by lia. done. }
    { change PAGE_SIZE with 4096. rewrite Hcell. simpl. rewrite HR', decide_False; [done|]. intros [_ Hn']. apply Hn'. replace (B + j - B) with j by lia. by left. }
    split; [done|]. split; [intros i Hi'; apply Hsub; by right|]. change PAGE_SIZE with 4096. rewrite Hcell. eexists. split; [reflexivity|]. intros k. simpl.
    destruct (decide (k = B + j)) as [->|Hk].
    + rewrite lookup_insert_eq, decide_True; [by rewrite Hc|]. split; [lia|]. by replace (B + j - B) with j by lia.
    + rewrite lookup_insert_ne, HR' by done. apply decide_ext. rewrite elem_of_cons. split; [naive_solver|]. intros [? ?]. split; [done|]. intros [?|?]; [lia|done].
  - intros [] y' (_ & _ & R' & -> & HR'). apply HQ. intros k. rewrite HR'. apply decide_ext. set_solver.
Qed.

(** The program itself. *)
Lemma wp_map_text y root P b s far :
  running y root P b → s_type s = TEXT → room (vm_of y) 3 → 0 < s_size s ≤ 0x200000 → 0 ≤ code b → code b mod 4096 = 0 → code b + s_size s < 2 ^ 48 →
  (∀ k, code b / 4096 ≤ k < code b / 4096 + section_pages (s_size s) → is_Some (u_refs (y_vm y) !! k)) →
  wp (map_section b s far) (λ ok y', ok = true ∧ y_ps y' = y_ps y ∧ refs_up (code b) (section_pages (s_size s)) (u_refs (y_vm y)) (u_refs (y_vm y')) ∧
    ∃ P', pt_wf (vm_of y') root P' ∧ P ⊆ P' ∧ ∀ q, 0 ≤ q < 2 ^ 36 → translate (vm_of y') root q =
      if decide (q < section_pages (s_size s)) then Some (page_entry q (code b) (Z.lor PD_USER_ACCESS PD_ACCESS)) else translate (vm_of y) root q) y.
Proof.
  intros [R1 R2 R3 R4] Hs Hroom Hsz Hc0 Hca Hend HR. unfold map_section. rewrite Hs, R3. change (USR_CODE_START / PAGE_SIZE) with 0. rewrite u64_small by lia.
  assert (Hpg : (s_size s - 1) / PAGE_SIZE + 1 = section_pages (s_size s)).
  { unfold section_pages. change PAGE_SIZE with 4096. Z.div_mod_to_equations. lia. }
  rewrite Z.add_0_l, Hpg. assert (Hn : 0 < section_pages (s_size s) ≤ 512) by (unfold section_pages; change PAGE_SIZE with 4096; Z.div_mod_to_equations; lia).
  assert (Hn' : 4096 * section_pages (s_size s) ≤ s_size s + 4095) by (unfold section_pages; change PAGE_SIZE with 4096; Z.div_mod_to_equations; lia).
  wp_step. apply wp_on_vst.
  eapply wp_mono; [apply (wp_fill_page_table root P (vm_of y) 0 (section_pages (s_size s)) (code b) _ R4 Hroom)|]; [lia|lia| |by vm_compute|].
  { change (ix 0 0) with 0. lia. }
  intros _ s2 (P' & W2 & HP & S2 & T2). wp_step. apply wp_ref_pages; [apply R1|lia|lia|done|lia|done|].
  intros R' HR'. wp_step. split; [done|]. split; [done|]. split; [done|]. exists P'. change (vm_of (set_yvm _ _)) with (vm_of (put_vm s2 y)). rewrite vm_of_put by done.
  split_and!; [done|done|]. intros q Hq. rewrite T2, Z.sub_0_r by done. apply decide_ext. lia.
Qed.

(** ** Illegal accesses *)

Lemma wp_seg_fault y b : in_handler (u_cpu y) → proc_wf (y_ps y) → pcbs (y_ps y) !! current (y_ps y) = Some b → 1 < pid b →
  ∃ n rest s', queue (y_ps y) Ready = n :: rest ∧ seg_fault y = Ok (tt, mk_sys s' (y_vm y)) ∧ proc_wf s' ∧ current s' = n ∧
    queue s' Dead = queue (y_ps y) Dead ++ [current (y_ps y)] ∧ ∀ e, e ≠ PROC → queue s' (Wait e) = queue (y_ps y) (Wait e).
Proof.
  intros [[Hc1 Hc2] Hc3] Hwf Hb Hid.
  pose proof (ready_nonempty _ b Hwf Hb ltac:(lia)) as Hne. destruct (queue (y_ps y) Ready) as [|n rest] eqn:Hr; [done|].
  set (c := say ("[Segmentation fault]: Kill Process" +:+ crlf) (leave (u_cpu y))).
  assert (Hok : cpu_ok c).
  { unfold c. apply say_ok. destruct (u_cpu y) as [k m l] eqn:Ec. simpl in *. split; simpl; [lia|]. rewrite Hc2.
    destruct (Z.eqb_spec (k - 1) 0) as [E|E]; [by rewrite E|]. rewrite !bool_decide_true by lia. done. }
  set (p := set_pcpu c (y_ps y)). assert (Hwf' : proc_wf p) by (destruct Hwf as [H1 H2]; split; [by apply core_cpu|done]).
  destruct (proj1 (wp_run _ _ _) (exit_run p b n rest Hwf' Hb Hid Hr)) as (r & s' & E & -> & Hs' & Hcur & _ & Hq).
  exists n, rest, s'. split; [done|]. split; [|split_and!; [done|done| |]].
  - unfold seg_fault. unfold mbind, M_bind. unfold u_on_cpu, on_ps, zoom at 1.
    change (p_on_cpu enable_int (y_ps y)) with (@Ok (unit * ps) (tt, set_pcpu (leave (u_cpu y)) (y_ps y))). cbv iota beta.
    unfold zoom at 1. change (p_on_cpu (printf ("[Segmentation fault]: Kill Process" +:+ crlf)) (y_ps (set_yps (set_pcpu (leave (u_cpu y)) (y_ps y)) y))) with (@Ok (unit * ps) (tt, p)).
    cbv iota beta. unfold zoom at 1. simpl (y_ps (set_yps _ _)). rewrite E. done.
  - by rewrite Hq.
  - intros e He. rewrite Hq. destruct e; done.
Qed.
End Fault.
