(* ===== verification/UspaceFault.v ===== *)
(** * Page faults

    The theorems about [exception_entry]: copy-on-write, pages on demand, and
    accesses that are not allowed. *)

From S2P Require Import Prelude Cpu Buddy KList Vmem VmemRep VmemThm VmemProps VmemForkThm Process ProcessInv ProcessThm ProcessProps Uspace UspaceProps.

Implicit Types y : usys.

(** Other address spaces do not see a change. *)
Definition isolated (s s' : vst) (P : gmap Z (list Z)) : Prop :=
  ∀ root' P', pt_wf s root' P' → P' ##ₘ P → pt_wf s' root' P' ∧ ∀ p, translate s' root' p = translate s root' p.

Lemma isolated_intro s s' P : frames s ⊆ frames s' →
  (∀ c j, c ∈ frames s → P !! c = None → c mod 4096 = 0 → 0 ≤ j < 512 → word s' c j = word s c j) → isolated s s' P.
Proof.
  intros Hf Hw root' P' Hwf Hd.
  assert (H : ∀ c ρ j, P' !! c = Some ρ → 0 ≤ j < 512 → word s' c j = word s c j).
  { intros c ρ j Hc Hj. destruct (pt_frame _ _ _ Hwf c ρ Hc) as (_ & Hcf & _ & Hca). apply Hw; try done. by eapply map_disjoint_Some_l. }
  split; [by apply (pt_wf_frame s)|]. intros p. by apply (translate_frame _ _ _ P').
Qed.

(** Why an access (a load, a store or an instruction fetch) is not allowed: no section holds the address, the section is
    one of device memory, the page is not writable, or the fault is neither
    of translation nor of permission. *)
Inductive illegal y (root : Z) (b : pcb) (esr far : Z) : Prop :=
  | outside : abort esr DFSC_TRANSLATION → List.find (in_section far) (sections b) = None → illegal y root b esr far
  | device s : abort esr DFSC_TRANSLATION → List.find (in_section far) (sections b) = Some s → s_type s = DEVICE → illegal y root b esr far
  | readonly e : abort esr DFSC_PERMISSION → h_ttbr0 (hws (y_ps y)) = root → 0 ≤ far < 2 ^ 48 → translate (vm_of y) root (far / 4096) = Some e →
      v_perm (vm_of y) !! (Z.land e TABLE_ADDR_MASK / PAGE_SIZE) = Some 0 → illegal y root b esr far
  | other k : abort esr k → k ≠ DFSC_TRANSLATION → k ≠ DFSC_PERMISSION → illegal y root b esr far.

Section Fault.
Context `{!PageAlloc}.

Lemma exception_refused k esr far y :
  abort esr k → (if k =? DFSC_TRANSLATION then translation_fault far else if k =? DFSC_PERMISSION then permission_fault far else mret false) y = Ok (false, y) →
  exception_entry esr far y = seg_fault y.
Proof. intros Ha E. unfold exception_entry. cbv zeta. rewrite (abort_class _ _ Ha), (proj2 Ha). unfold mbind at 1, M_bind at 1. by rewrite E. Qed.

Lemma illegal_refused y root P b esr far : running y root P b → illegal y root b esr far → exception_entry esr far y = seg_fault y.
Proof.
  intros HR [Ha Hs|s Ha Hs Ht|e Ha Hroot Hfar He Hp|k Ha H1 H2].
  - apply (exception_refused _ _ _ _ Ha). simpl. destruct (proj1 (wp_run _ (λ r z, r = false ∧ z = y) _) ltac:(eapply (wp_translation_start y root P b far None); [done|done|by wp_step])) as (? & ? & E & -> & ->). done.
  - apply (exception_refused _ _ _ _ Ha). simpl. destruct (proj1 (wp_run _ (λ r z, r = false ∧ z = y) _) ltac:(eapply (wp_translation_start y root P b far (Some s)); [done|done|unfold map_section; rewrite Ht; by apply wp_bind, wp_ret])) as (? & ? & E & -> & ->). done.
  - apply (exception_refused _ _ _ _ Ha). destruct HR as [R1 R2 R3 R4]. destruct (translate_range _ _ _ R4 _ _ He) as [Her _]. destruct (mask_frame e Her) as [Hfr Hfa].
    destruct (proj1 (wp_run (permission_fault far) (λ r z, r = false ∧ z = y) y)) as (? & ? & E & -> & ->); [|done].
    unfold permission_fault. wp_step. apply wp_on_vst. eapply wp_eq; [apply (v2p_trans_run _ root P R4); [done|by right]|]. rewrite He. cbn [phys]. rewrite put_vm_of.
    cbv zeta. rewrite page_of_addr; [|done|done|apply Z.mod_pos_bound; lia]. wp_step. apply (wp_get_w _ _ (proj1 R1) Hfa 0); [done|]. change (negb (0 =? 0)) with false. cbv iota. by wp_step.
  - apply (exception_refused _ _ _ _ Ha). destruct (Z.eqb_spec k DFSC_TRANSLATION); [done|]. by destruct (Z.eqb_spec k DFSC_PERMISSION).
Qed.

(** C6: Copy-on-write: a write to a page that [c] processes share gives the writer
    a frame of its own with the same contents, writable, at the same address;
    the counts become [c - 1] and 1.  No page of data changes, and no address
    space with other tables, so none of the sharers can see the write. *)
Theorem copy_on_write_isolates y root P far e c esr (f := Z.land e TABLE_ADDR_MASK) (h := new_frame (frames (vm_of y))) :
  data_abort esr DFSC_PERMISSION → mapped y root P far e → u_refs (y_vm y) !! (f / PAGE_SIZE) = Some c → 1 < c < 2 ^ 16 →
  room (vm_of y) 1 → u_refs (y_vm y) !! (h / PAGE_SIZE) = Some 0 →
  ∃ y' e', exception_entry esr far y = Ok (tt, y') ∧ pt_wf (vm_of y') root P ∧
    translate (vm_of y') root (far / 4096) = Some e' ∧ Z.land e' TABLE_ADDR_MASK = h ∧ Z.testbit e' 7 = false ∧
    (∀ q, 0 ≤ q < 2 ^ 36 → q ≠ far / 4096 → translate (vm_of y') root q = translate (vm_of y) root q) ∧
    (∀ j, 0 ≤ j < 512 → word (vm_of y') h j = word (vm_of y) f j) ∧
    u_refs (y_vm y') = <[h / PAGE_SIZE := 1]> (<[f / PAGE_SIZE := c - 1]> (u_refs (y_vm y))) ∧
    (∀ g j, g ∈ frames (vm_of y) → P !! g = None → g mod 4096 = 0 → 0 ≤ j < 512 → word (vm_of y') g j = word (vm_of y) g j) ∧
    isolated (vm_of y) (vm_of y') P.
Proof.
  intros Ha HM Hc Hcr Hroom Hh. pose proof (mp_far _ _ _ _ _ HM) as Hfar. destruct (translate_range _ _ _ (mp_wf _ _ _ _ _ HM) _ _ (mp_entry _ _ _ _ _ HM)) as [Her Hev].
  destruct (proj1 (wp_run _ _ _) (wp_permission_shared y root P far e c HM Hc Hcr Hroom Hh)) as (r & y' & E & -> & _ & H1 & H2 & H3 & H4 & H5 & H6).
  fold f h in H1, H3, H4, H5, H6. destruct (new_entry_ok e h true Her Hev) as (_ & _ & K1 & K2).
  pose proof (new_frame_range (frames (vm_of y))) as Hhr. pose proof (new_frame_aligned (frames (vm_of y))) as Hha.
  pose proof (new_frame_fresh (frames (vm_of y)) ltac:(unfold room in Hroom; lia)) as Hhf. fold h in Hhr, Hha, Hhf.
  assert (Hw : ∀ g j, g ∈ frames (vm_of y) → P !! g = None → g mod 4096 = 0 → 0 ≤ j < 512 → word (vm_of y') g j = word (vm_of y) g j).
  { intros g j Hg Hp Hga Hj. apply H6; try done. congruence. }
  exists y', (new_entry e h true). split; [by apply exception_permission|]. split_and!; try done.
  - rewrite H4, decide_True; [done|done|Z.div_mod_to_equations; lia].
  - rewrite K1. rewrite <- (Z.lor_0_r h) at 1. apply mask_entry; [lia|done|done].
  - intros q Hq Hne. by rewrite H4, decide_False.
  - apply isolated_intro; [set_solver|done].
Qed.

(** A write to a page nobody else uses any more makes the page writable in
    place, without a copy. *)
Theorem last_user_writes y root P far e c esr (f := Z.land e TABLE_ADDR_MASK) :
  data_abort esr DFSC_PERMISSION → mapped y root P far e → u_refs (y_vm y) !! (f / PAGE_SIZE) = Some c → c ≤ 1 →
  ∃ y' e', exception_entry esr far y = Ok (tt, y') ∧ pt_wf (vm_of y') root P ∧ frames (vm_of y') = frames (vm_of y) ∧
    translate (vm_of y') root (far / 4096) = Some e' ∧ Z.land e' TABLE_ADDR_MASK = f ∧ Z.testbit e' 7 = false ∧
    (∀ q, 0 ≤ q < 2 ^ 36 → q ≠ far / 4096 → translate (vm_of y') root q = translate (vm_of y) root q) ∧
    u_refs (y_vm y') = u_refs (y_vm y) ∧ isolated (vm_of y) (vm_of y') P.
Proof.
  intros Ha HM Hc Hcr. pose proof (mp_far _ _ _ _ _ HM) as Hfar. destruct (translate_range _ _ _ (mp_wf _ _ _ _ _ HM) _ _ (mp_entry _ _ _ _ _ HM)) as [Her Hev].
  destruct (mask_frame e Her) as [Hfr Hfa]. fold f in Hfr, Hfa.
  destruct (proj1 (wp_run _ _ _) (wp_permission_sole y root P far e c HM Hc Hcr)) as (r & y' & E & -> & _ & H1 & H2 & H3 & H4 & H5).
  fold f in H4. destruct (new_entry_ok e f true Her Hev) as (_ & _ & K1 & K2).
  exists y', (new_entry e f true). split; [by apply exception_permission|]. split_and!; try done.
  - rewrite H4, decide_True; [done|done|Z.div_mod_to_equations; lia].
  - rewrite K1. rewrite <- (Z.lor_0_r f) at 1. apply mask_entry; [lia|done|done].
  - intros q Hq Hne. by rewrite H4, decide_False.
  - apply isolated_intro; [set_solver|]. intros. by apply H5.
Qed.

(** C35: Pages on demand: the first access to a page of the stack or of a mapping
    gives it a new frame, not executable, with one reference; other pages
    keep their translation. *)
Theorem page_on_demand y root P b s far esr (h := new_frame (frames (vm_of y))) :
  data_abort esr DFSC_TRANSLATION → running y root P b → List.find (in_section far) (sections b) = Some s → s_type s = STACK ∨ s_type s = HEAP →
  0 ≤ far < 2 ^ 48 → room (vm_of y) 4 → u_refs (y_vm y) !! (h / PAGE_SIZE) = Some 0 →
  ∃ y' P' e', exception_entry esr far y = Ok (tt, y') ∧ pt_wf (vm_of y') root P' ∧ P ⊆ P' ∧
    translate (vm_of y') root (far / 4096) = Some e' ∧ Z.land e' TABLE_ADDR_MASK = h ∧ Z.testbit e' 7 = false ∧ Z.testbit e' 54 = true ∧
    (∀ q, 0 ≤ q < 2 ^ 36 → q ≠ far / 4096 → translate (vm_of y') root q = translate (vm_of y) root q) ∧
    u_refs (y_vm y') = <[h / PAGE_SIZE := 1]> (u_refs (y_vm y)).
Proof.
  intros Ha HR Hs Ht Hfar Hroom Hh.
  pose proof (new_frame_range (frames (vm_of y))) as Hhr. pose proof (new_frame_aligned (frames (vm_of y))) as Hha. fold h in Hhr, Hha.
  destruct (proj1 (wp_run (translation_fault far) (λ ok y', ok = true ∧ u_refs (y_vm y') = <[h / PAGE_SIZE := 1]> (u_refs (y_vm y)) ∧
    ∃ P', pt_wf (vm_of y') root P' ∧ P ⊆ P' ∧ ∀ q, 0 ≤ q < 2 ^ 36 → translate (vm_of y') root q =
      if decide (q = far / 4096) then Some (page_entry 0 h (Z.lor (Z.lor PD_NX_EL0 PD_USER_ACCESS) PD_ACCESS)) else translate (vm_of y) root q) y))
    as (r & y' & E & -> & H1 & P' & H2 & H3 & H4).
  { apply (wp_translation_start y root P b far (Some s)); [done|done|]. wp_step. eapply wp_mono; [by apply (wp_map_page y root P b s far)|].
    intros ok z (-> & Hps & Hrefs & P' & W & HP & T). apply (wp_report_true ("[Translation fault]: 0x" +:+ hex far +:+ crlf)); [unfold u_cpu; rewrite Hps; apply HR|].
    split; [done|]. split; [done|]. exists P'. done. }
  exists y', P', (page_entry 0 h (Z.lor (Z.lor PD_NX_EL0 PD_USER_ACCESS) PD_ACCESS)). split; [by apply exception_translation; [apply data_abort_abort|]|]. split_and!; try done.
  - rewrite H4, decide_True; [done|done|Z.div_mod_to_equations; lia].
  - rewrite page_entry_phys; [lia|lia|lia|lia|done|done].
  - rewrite page_entry_bit; [done|lia|done|lia].
  - rewrite page_entry_bit; [done|lia|done|lia].
  - intros q Hq Hne. by rewrite H4, decide_False.
Qed.

(** The first access to a program maps all of it, executable, to the frames
    [exec] loaded it to, with one more reference for each. *)
Theorem program_on_demand y root P b s far esr :
  abort esr DFSC_TRANSLATION → running y root P b → List.find (in_section far) (sections b) = Some s → s_type s = TEXT →
  room (vm_of y) 3 → 0 < s_size s ≤ 0x200000 → 0 ≤ code b → code b mod 4096 = 0 → code b + s_size s < 2 ^ 47 →
  (∀ k, code b / 4096 ≤ k < code b / 4096 + section_pages (s_size s) → is_Some (u_refs (y_vm y) !! k)) →
  ∃ y' P', exception_entry esr far y = Ok (tt, y') ∧ pt_wf (vm_of y') root P' ∧ P ⊆ P' ∧
    (∀ q, 0 ≤ q < section_pages (s_size s) → ∃ e, translate (vm_of y') root q = Some e ∧ Z.land e TABLE_ADDR_MASK = code b + 4096 * q) ∧
    (∀ q, section_pages (s_size s) ≤ q < 2 ^ 36 → translate (vm_of y') root q = translate (vm_of y) root q) ∧
    refs_up (code b) (section_pages (s_size s)) (u_refs (y_vm y)) (u_refs (y_vm y')).
Proof.
  intros Ha HR Hs Ht Hroom Hsz Hc0 Hca Hend Hrefs.
  assert (Hn : 0 < section_pages (s_size s) ≤ 512 ∧ 4096 * section_pages (s_size s) ≤ s_size s + 4095) by (unfold section_pages; change PAGE_SIZE with 4096; Z.div_mod_to_equations; lia).
  destruct (proj1 (wp_run (translation_fault far) (λ ok y', ok = true ∧ refs_up (code b) (section_pages (s_size s)) (u_refs (y_vm y)) (u_refs (y_vm y')) ∧
    ∃ P', pt_wf (vm_of y') root P' ∧ P ⊆ P' ∧ ∀ q, 0 ≤ q < 2 ^ 36 → translate (vm_of y') root q =
      if decide (q < section_pages (s_size s)) then Some (page_entry q (code b) (Z.lor PD_USER_ACCESS PD_ACCESS)) else translate (vm_of y) root q) y))
    as (r & y' & E & -> & H1 & P' & H2 & H3 & H4).
  { apply (wp_translation_start y root P b far (Some s)); [done|done|]. wp_step. eapply wp_mono; [apply (wp_map_text y root P b s far); try done; lia|].
    intros ok z (-> & Hps & Hrf & P' & W & HP & T). apply (wp_report_true ("[Translation fault]: 0x" +:+ hex far +:+ crlf)); [unfold u_cpu; rewrite Hps; apply HR|].
    split; [done|]. split; [done|]. exists P'. done. }
  exists y', P'. split; [by apply exception_translation|]. split_and!; try done.
  - intros q Hq. eexists. rewrite H4, decide_True by lia. split; [done|]. by rewrite page_entry_phys by (try done; lia).
  - intros q Hq. by rewrite H4, decide_False by lia.
Qed.

(** C34: An access that is not allowed, by a data abort or an instruction abort,
    ends the process (any but the shell and the idle thread, which have no user
    program): it becomes a zombie, the first ready process runs, and no page
    table, page or reference count changes.  Not allowed is an address outside
    the process's sections or in one of device memory, a page that is mapped
    but was not writable, and any fault that is neither of translation nor of
    permission.  The state is one the program reaches (proc_wf, C5), also while
    the shell waits for its program. *)
Theorem illegal_access_kills y root P b esr far :
  running y root P b → proc_wf (y_ps y) → 1 < pid b → illegal y root b esr far →
  ∃ n rest s', queue (y_ps y) Ready = n :: rest ∧ exception_entry esr far y = Ok (tt, mk_sys s' (y_vm y)) ∧ proc_wf s' ∧ current s' = n ∧
    queue s' Dead = queue (y_ps y) Dead ++ [current (y_ps y)] ∧ ∀ e, e ≠ PROC → queue s' (Wait e) = queue (y_ps y) (Wait e).
Proof. intros HR Hwf Hid Hill. rewrite (illegal_refused y root P b esr far HR Hill). apply (wp_seg_fault y b); [apply HR|done|apply HR|done]. Qed.
End Fault.

(** ** Witnesses: a process with one page *)

(** The thread of [first_runs] with the tables of [one_page]: a program of one
    page, a stack, a mapping that is not populated, and device memory. *)
Definition as_user (b : pcb) : pcb :=
  with_sections [mk_section TEXT 0 0x1000; mk_section HEAP 0x4000 0x2000; mk_section DEVICE 0x8000 0x1000] (with_space 1 (pstate b) 0x10000 0 0x5000 C_null b).

Definition user_runs : ps :=
  after (pcb_upd 4 as_user ;; hw_upd (λ h, mk_hw (h_reg h) (h_pc h) (h_pstate h) (h_args h) 0x5000 (h_ttbr1 h) (h_sp_el0 h))) first_runs.

Definition user_mem : uvm := mk_uvm (set_perm {[16 := 1; 17 := 0]} one_page) {[16 := 2; 17 := 1; 0x1000 := 0]} ∅ ∅ ∅.
Abbreviation user_sys := (mk_sys user_runs user_mem).

Lemma ps_of (p : ps) (u : uvm) : y_ps (mk_sys p u) = p.
Proof. reflexivity. Qed.

Lemma user_runs_ok : proc_wf user_runs ∧ queue user_runs Ready = [6; 2] ∧ in_handler (p_cpu user_runs) ∧ h_ttbr0 (hws user_runs) = 0x5000 ∧ h_ttbr1 (hws user_runs) = 0x1000 ∧
  ∃ b, pcbs user_runs !! current user_runs = Some (as_user b) ∧ pid b = 2.
Proof.
  split; [|split_and!; try (by vm_compute)].
  - destruct first_runs_block as (b & Hb & Hid). destruct first_runs_queues as (_ & _ & Hc & _). rewrite Hc in Hb.
    assert (el b = 1). { assert (E : el <$> pcbs first_runs !! 4 = Some 1) by by vm_compute. rewrite Hb in E. by injection E. }
    apply (after_wp _ proc_wf). wp_step. apply (wp_upd_same _ b); [exact Hb|by split|]. intros s1 Q1 _. apply wp_hw_upd. intros s2 Q2 _.
    eapply quiet_wf; [|exact Q2]. eapply quiet_wf; [|exact Q1]. apply first_runs_wf.
  - destruct first_runs_block as (b & Hb & Hid). exists b. split; [|done]. destruct first_runs_queues as (_ & _ & Hc & _). rewrite Hc in Hb.
    assert (E : current user_runs = 4 ∧ pcbs user_runs !! 4 = as_user <$> pcbs first_runs !! 4) by (split; vm_compute; reflexivity). destruct E as [E1 E2]. rewrite E1, E2, Hb. reflexivity.
Qed.

Lemma user_tables : pt_wf (vm_of user_sys) 0x5000 one_page_tree.
Proof.
  assert (E : words (vm_of user_sys) = words one_page ∧ frames (vm_of user_sys) = frames one_page) by (split; reflexivity). destruct E as [E1 E2].
  apply (pt_wf_frame one_page); [apply (so_wf _ _ _ one_page_source)|by rewrite E2|]. intros c ρ j _ _. unfold word. by rewrite E1.
Qed.

Lemma user_room n : (n ≤ 5)%nat → room (H := low_frames) (vm_of user_sys) n.
Proof. intros Hn. assert (E : size (frames (vm_of user_sys)) = 6%nat) by by vm_compute. unfold room. rewrite E. simpl. lia. Qed.

Lemma user_mapped : mapped user_sys 0x5000 one_page_tree 0x123 0x10003.
Proof.
  destruct user_runs_ok as (_ & _ & Hh & Ht & _). split; [exact Hh|exact Ht|exact user_tables|lia|vm_compute; reflexivity|apply (bool_decide_unpack _); vm_compute; exact I|
    vm_compute; reflexivity|vm_compute; reflexivity| |exists 1; split; [vm_compute; reflexivity|lia]].
  intros j Hj. change (words (vm_of user_sys)) with (words one_page). unfold word. change (words (vm_of user_sys)) with (words one_page). change (Z.land 0x10003 TABLE_ADDR_MASK) with 0x10000. apply lookup_union_is_Some. right. apply frame_words_Some. eauto.
Qed.

Lemma user_running : ∃ b, running user_sys 0x5000 one_page_tree (as_user b) ∧ 1 < pid b.
Proof. destruct user_runs_ok as (_ & _ & Hh & _ & _ & b & Hb & Hid). exists b. split; [|change (1 < pid b); lia]. split; [exact Hh|exact Hb|done|exact user_tables]. Qed.

Lemma copy_on_write_isolates_witness : let _ := low_frames in
  ∃ y' e', exception_entry 0x9000000c 0x123 user_sys = Ok (tt, y') ∧ translate (vm_of y') 0x5000 0 = Some e' ∧ Z.land e' TABLE_ADDR_MASK = 0x1000000 ∧
    word (vm_of y') 0x1000000 3 = Some 0x10018 ∧ u_refs (y_vm y') !! 16 = Some 1.
Proof.
  intros ?. destruct (copy_on_write_isolates (H := low_frames) user_sys 0x5000 one_page_tree 0x123 0x10003 2 0x9000000c) as (y' & e' & E & _ & H1 & H2 & _ & _ & H3 & H4 & _);
    [by vm_compute|exact user_mapped|by vm_compute|lia|apply user_room; lia|by vm_compute|].
  exists y', e'. split; [exact E|]. split; [exact H1|]. split; [rewrite H2; by vm_compute|]. split.
  - change 0x1000000 with (new_frame (PageAlloc := low_frames) (frames (vm_of user_sys))). rewrite H3 by lia. by vm_compute.
  - rewrite H4. by vm_compute.
Defined.

Lemma page_on_demand_witness : let _ := low_frames in
  ∃ y' e', exception_entry 0x90000004 0x5008 user_sys = Ok (tt, y') ∧ translate (vm_of y') 0x5000 5 = Some e' ∧ Z.land e' TABLE_ADDR_MASK = 0x1000000.
Proof.
  intros ?. destruct user_running as (b & HR & _).
  destruct (page_on_demand (H := low_frames) user_sys 0x5000 one_page_tree (as_user b) (mk_section HEAP 0x4000 0x2000) 0x5008 0x90000004) as (y' & P' & e' & E & _ & _ & H1 & H2 & _);
    [by vm_compute|exact HR|reflexivity|by right|lia|apply user_room; lia|by vm_compute|].
  exists y', e'. split; [exact E|]. split; [exact H1|]. rewrite H2. by vm_compute.
Defined.

Lemma program_on_demand_witness : let _ := low_frames in
  ∃ y', exception_entry 0x90000004 0x10 user_sys = Ok (tt, y') ∧ u_refs (y_vm y') !! 16 = Some 3.
Proof.
  intros ?. destruct user_running as (b & HR & _).
  destruct (program_on_demand (H := low_frames) user_sys 0x5000 one_page_tree (as_user b) (mk_section TEXT 0 0x1000) 0x10 0x90000004) as (y' & P' & E & _ & _ & _ & _ & H1);
    [split; [left; reflexivity|reflexivity]|exact HR|reflexivity|reflexivity|apply user_room; lia|simpl; lia|simpl; lia|reflexivity|simpl; lia| |].
  { intros k Hk. change (16 ≤ k < 16 + 1) in Hk. assert (k = 16) as -> by lia. by exists 2. }
  exists y'. split; [exact E|]. rewrite (H1 16). by vm_compute.
Defined.

Lemma illegal_access_kills_witness : let _ := low_frames in
  ∃ s', exception_entry 0x80000004 0x7000 user_sys = Ok (tt, mk_sys s' user_mem) ∧ current s' = 6.
Proof.
  intros ?. destruct user_running as (b & HR & Hid). destruct user_runs_ok as (Hwf & Hr & _).
  assert (Hwf' : proc_wf (y_ps user_sys)) by (rewrite ps_of; exact Hwf).
  assert (Hill : illegal user_sys 0x5000 (as_user b) 0x80000004 0x7000) by (apply outside; [split; [right; reflexivity|reflexivity]|reflexivity]).
  pose proof (illegal_access_kills (H := low_frames) user_sys 0x5000 one_page_tree (as_user b) 0x80000004 0x7000 HR Hwf' Hid Hill) as HK.
  destruct HK as (n & rest & s' & H1 & E & _ & H2 & _).
  exists s'. split; [exact E|]. rewrite ps_of, Hr in H1. injection H1 as <- <-. exact H2.
Defined.
