(* ===== verification/UspaceMap.v ===== *)
(** * mmap, and the stack of a new process

    Which address [mmap] chooses and what it records, and how [fork] moves the
    frame pointers of the copied kernel stack. *)

From S2P Require Import Prelude Cpu Buddy KList Vmem VmemRep VmemThm VmemProps VmemForkThm Process ProcessInv ProcessThm ProcessProps Uspace UspaceProps UspaceFault.

Implicit Types y : usys.

(** ** mmap *)

(** [v2p_trans] says 0 for the page. *)
Definition page_free (s : vst) (root q : Z) : Prop := phys (4096 * q) (translate s root q) = 0.

(** The first run of [n] free pages from page [p] on starts at page [a]. *)
Record first_run (s : vst) (root p n a : Z) : Prop := mk_first_run {
  fr_start : p ≤ a;
  fr_free k : a ≤ k < a + n → page_free s root k;
  fr_first b : p ≤ b < a → ∃ k, b ≤ k < b + n ∧ ¬ page_free s root k;
  fr_range : a + n ≤ 2 ^ 36;
}.

Section Search.
Context (s : vst) (root : Z) (P : gmap Z (list Z)) (p n a : Z).
Hypothesis Hwf : pt_wf s root P.
Hypothesis Hroot : ttbr0_el1 s = root.
Hypothesis Hp : 0 ≤ p.
Hypothesis Hn : 0 < n.
Hypothesis Hrun : first_run s root p n a.

Lemma search_look q : 0 ≤ q < 2 ^ 36 → v2p_trans (4096 * q) 0 s = Ok (phys (4096 * q) (translate s root q), s).
Proof.
  intros Hq. rewrite (v2p_trans_run s root P Hwf) by (try lia; by right).
  replace (4096 * q / 4096) with q; [done|]. rewrite Z.mul_comm, Z.div_mul; lia.
Qed.

Lemma search_from : ∀ fuel q c addr, p ≤ q - c → 0 ≤ c ≤ n → q - c ≤ a → (∀ k, q - c ≤ k < q → page_free s root k) → (0 < c → addr = 4096 * (q - c)) →
  a + n - q < Z.of_nat fuel → mmap_search fuel (4096 * q) addr c n s = Ok (4096 * a, s).
Proof.
  induction fuel as [|fuel IH]; intros q c addr H1 H2 H3 H4 H5 H6; pose proof (fr_range _ _ _ _ _ Hrun) as Hr; cbn [mmap_search].
  { lia. }
  destruct (Z.ltb_spec c n) as [Hc|Hc].
  2: { assert (c = n) as -> by lia. assert (a = q - n) as ->.
       { destruct (Z.eq_dec a (q - n)); [done|]. destruct (fr_first _ _ _ _ _ Hrun (q - n)) as (k & Hk & Hnf); [lia|]. destruct Hnf. apply H4. lia. }
       rewrite H5 by lia. done. }
  unfold mbind, M_bind. rewrite search_look by lia. unfold u64. replace (4096 * q + PAGE_SIZE) with (4096 * (q + 1)) by (change PAGE_SIZE with 4096; lia).
  rewrite Z.mod_small by lia. destruct (Z.eqb_spec (phys (4096 * q) (translate s root q)) 0) as [Hf|Hf]; cbn [negb].
  - apply IH; try lia.
    + intros k Hk. destruct (Z.eq_dec k q) as [->|]; [done|]. apply H4. lia.
    + intros _. destruct (Z.eqb_spec c 0) as [->|]; [f_equal; lia|]. rewrite H5 by lia. f_equal. lia.
  - assert (q < a). { destruct (Z.lt_ge_cases q a); [done|]. destruct Hf. apply (fr_free _ _ _ _ _ Hrun). lia. }
    apply IH; try lia.
Qed.

Lemma search_run fuel addr : a + n - p < Z.of_nat fuel → mmap_search fuel (4096 * p) addr 0 n s = Ok (4096 * a, s).
Proof. intros Hf. pose proof (fr_start _ _ _ _ _ Hrun). apply search_from; lia. Qed.
End Search.

(** The number of pages of a request. *)
Definition num_pages (len : Z) : Z := len / PAGE_SIZE + (if 0 <? len mod PAGE_SIZE then 1 else 0).

Section Mmap.
Context `{!PageAlloc, !BlockAlloc}.

(** What [mmap] does when it need not populate the range: a section. *)
Definition mmapped y addr len : usys :=
  match pcbs (y_ps y) !! current (y_ps y) with
  | Some b => set_yps (set_pcbs (<[current (y_ps y) := with_sections (sections b ++ [mk_section HEAP addr len]) b]> (pcbs (y_ps y))) (y_ps y)) y
  | None => y
  end.

Lemma mmap_run y root P b fuel addr len prot flags a :
  pt_wf (vm_of y) root P → h_ttbr0 (hws (y_ps y)) = root → pcbs (y_ps y) !! current (y_ps y) = Some b →
  Z.land flags MAP_POPULATE = 0 → 0 ≤ addr < 2 ^ 64 → 0 < len → first_run (vm_of y) root (addr / 4096) (num_pages len) a →
  a + num_pages len - addr / 4096 < Z.of_nat fuel →
  mmap fuel addr len prot flags y = Ok (4096 * a, mmapped y (4096 * a) (4096 * num_pages len)).
Proof.
  intros Hwf Hroot Hb Hfl Haddr Hlen Hrun Hfuel.
  assert (Hn : 0 < num_pages len). { unfold num_pages. change PAGE_SIZE with 4096. destruct (Z.ltb_spec 0 (len mod 4096)); Z.div_mod_to_equations; lia. }
  assert (Hstart : u64 (addr - addr mod PAGE_SIZE) = 4096 * (addr / 4096)). { change PAGE_SIZE with 4096. rewrite u64_small; Z.div_mod_to_equations; lia. }
  assert (Hp : 0 ≤ addr / 4096) by (apply Z.div_pos; lia).
  pose proof (fr_range _ _ _ _ _ Hrun). pose proof (fr_start _ _ _ _ _ Hrun).
  destruct (proj1 (wp_run (mmap fuel addr len prot flags) (λ r y', r = 4096 * a ∧ y' = mmapped y (4096 * a) (4096 * num_pages len)) y)) as (r & y' & E & -> & ->); [|done].
  unfold mmap. wp_step. apply wp_on_ps, wp_gets. wp_step. apply wp_get_st. cbv zeta. fold (num_pages len). rewrite Hstart.
  wp_step. apply wp_on_vst. replace (set_yps (y_ps y) y) with y by (by destruct y).
  eapply wp_eq; [by apply (search_run (vm_of y) root P (addr / 4096) (num_pages len) a)|]. rewrite put_vm_of.
  wp_step. unfold add_section. apply wp_on_ps, (wp_pcb_upd _ b); [done|]. rewrite Hfl. change (negb (0 =? 0)) with false. cbv iota.
  wp_step. split; [done|]. unfold mmapped. rewrite Hb. rewrite u64_small by (change PAGE_SIZE with 4096; lia). by rewrite (Z.mul_comm _ PAGE_SIZE).
Qed.

Lemma mmapped_vm y addr len : vm_of (mmapped y addr len) = vm_of y.
Proof. unfold mmapped. by case_match. Qed.

(** [mmap] without MAP_POPULATE returns the start of the first run of unmapped
    pages, from the page of the address asked for on, that holds the request;
    it adds a section for it and changes nothing else. *)
Theorem mmap_first_fit y root P b fuel addr len prot flags a :
  pt_wf (vm_of y) root P → h_ttbr0 (hws (y_ps y)) = root → pcbs (y_ps y) !! current (y_ps y) = Some b →
  Z.land flags MAP_POPULATE = 0 → 0 ≤ addr < 2 ^ 64 → 0 < len → first_run (vm_of y) root (addr / 4096) (num_pages len) a →
  a + num_pages len - addr / 4096 < Z.of_nat fuel →
  ∃ y', mmap fuel addr len prot flags y = Ok (4096 * a, y') ∧ y_vm y' = y_vm y ∧
    pcbs (y_ps y') = <[current (y_ps y) := with_sections (sections b ++ [mk_section HEAP (4096 * a) (4096 * num_pages len)]) b]> (pcbs (y_ps y)) ∧
    4096 * num_pages len < len + 4096.
Proof.
  intros Hwf Hroot Hb Hfl Haddr Hlen Hrun Hfuel. eexists. split; [by eapply mmap_run|]. unfold mmapped. rewrite Hb. split; [done|]. split; [done|].
  unfold num_pages. change PAGE_SIZE with 4096. destruct (Z.ltb_spec 0 (len mod 4096)); Z.div_mod_to_equations; lia.
Qed.

(** Only the page tables are searched, not the sections: a second [mmap] before
    the first access returns the same addresses, and a page of them belongs
    to two sections. *)
Theorem mmap_overlaps y root P b fuel addr len prot flags a :
  pt_wf (vm_of y) root P → h_ttbr0 (hws (y_ps y)) = root → pcbs (y_ps y) !! current (y_ps y) = Some b →
  Z.land flags MAP_POPULATE = 0 → 0 ≤ addr < 2 ^ 64 → 0 < len → first_run (vm_of y) root (addr / 4096) (num_pages len) a →
  a + num_pages len - addr / 4096 < Z.of_nat fuel →
  ∃ y' b', (r1 ← mmap fuel addr len prot flags; r2 ← mmap fuel addr len prot flags; mret (r1, r2)) y = Ok ((4096 * a, 4096 * a), y') ∧
    pcbs (y_ps y') !! current (y_ps y) = Some b' ∧ sections b' = sections b ++ replicate 2 (mk_section HEAP (4096 * a) (4096 * num_pages len)).
Proof.
  intros Hwf Hroot Hb Hfl Haddr Hlen Hrun Hfuel. set (y1 := mmapped y (4096 * a) (4096 * num_pages len)).
  assert (E1 : mmap fuel addr len prot flags y = Ok (4096 * a, y1)) by (by eapply mmap_run).
  set (b1 := with_sections (sections b ++ [mk_section HEAP (4096 * a) (4096 * num_pages len)]) b).
  assert (Hy1 : y1 = set_yps (set_pcbs (<[current (y_ps y) := b1]> (pcbs (y_ps y))) (y_ps y)) y) by (unfold y1, mmapped; by rewrite Hb).
  assert (Hb1 : pcbs (y_ps y1) !! current (y_ps y1) = Some b1) by (rewrite Hy1; apply lookup_insert_eq).
  assert (Hv : vm_of y1 = vm_of y) by apply mmapped_vm.
  exists (mmapped y1 (4096 * a) (4096 * num_pages len)), (with_sections (sections b1 ++ [mk_section HEAP (4096 * a) (4096 * num_pages len)]) b1). split; [|split].
  - unfold mbind, M_bind. rewrite E1. rewrite (mmap_run y1 root P b1 fuel addr len prot flags a); rewrite ?Hv; try done. by rewrite Hy1.
  - unfold mmapped. rewrite Hb1. simpl. rewrite Hy1. apply lookup_insert_eq.
  - simpl. by rewrite <- app_assoc.
Qed.
End Mmap.

(** ** The kernel stack of a new process *)

Definition word_addrs (top : Z) : list Z := (λ k, top - STACK_EL1_SIZE + 8 * k) <$> zseq 0 1024.

(** The chain of saved frame pointers from [fp] on: [l] are the pointers that
    are followed; the chain ends at the top of the stack or at a word that
    does not lead further up, once moved by [d]. *)
Inductive fp_chain (S : gmap Z Z) (top d : Z) : Z → list Z → Prop :=
  | chain_top : fp_chain S top d top []
  | chain_stop fp v : fp ∈ word_addrs top → S !! fp = Some v → u64 (v + d) ≤ fp + d ∨ top + d < u64 (v + d) → fp_chain S top d fp []
  | chain_next fp fp' l : fp ∈ word_addrs top → S !! fp = Some fp' → fp < fp' ≤ top → fp_chain S top d fp' l → fp_chain S top d fp (fp :: l).

Definition with_ustack (S : gmap Z Z) y : usys := set_yvm (set_ustack S (y_vm y)) y.

Lemma elem_of_word_addrs a top : a ∈ word_addrs top ↔ ∃ k, 0 ≤ k < 1024 ∧ a = top - 8192 + 8 * k.
Proof. unfold word_addrs. rewrite list_elem_of_fmap. setoid_rewrite elem_of_zseq. change STACK_EL1_SIZE with 8192. naive_solver lia. Qed.

Lemma NoDup_word_addrs top : NoDup (word_addrs top).
Proof. unfold word_addrs. apply NoDup_fmap_2; [intros a b; lia|apply NoDup_zseq]. Qed.

Section Stack.
Context (S : gmap Z Z) (top d : Z).

Lemma chain_mem fp l : fp_chain S top d fp l → (∀ x, x ∈ l → fp ≤ x ∧ x ∈ word_addrs top) ∧ NoDup l.
Proof.
  induction 1 as [|fp v Hin Hv Hst|fp fp' l Hin Hv Hlt Hc [IH1 IH2]].
  - split; [intros x Hx; by apply elem_of_nil in Hx|constructor].
  - split; [intros x Hx; by apply elem_of_nil in Hx|constructor].
  - split; [|constructor; [intros Hx%IH1; lia|done]].
    intros x [->|Hx]%elem_of_cons; [split; [lia|done]|]. destruct (IH1 x Hx). split; [lia|done].
Qed.

Lemma fp_chain_length fp l : fp_chain S top d fp l → (length l ≤ 1024)%nat.
Proof.
  intros Hc. destruct (chain_mem fp l Hc) as [Hm Hnd]. assert (l ⊆+ word_addrs top) as Hs by (apply NoDup_submseteq; [done|intros x Hx; by apply Hm]).
  apply submseteq_length in Hs. unfold word_addrs in Hs. rewrite length_fmap, length_zseq in Hs. done.
Qed.

Lemma wp_stack_get a x (Q : Z → usys → Prop) y : u_stack (y_vm y) !! a = Some x → Q x y → wp (stack_get a) Q y.
Proof. intros E HQ. unfold stack_get. wp_step. apply wp_get_st. by apply (wp_deref _ x). Qed.

Lemma wp_stack_set a x v (Q : unit → usys → Prop) y : u_stack (y_vm y) !! a = Some x → Q tt (with_ustack (<[a := v]> (u_stack (y_vm y))) y) → wp (stack_set a v) Q y.
Proof. intros E HQ. unfold stack_set. wp_step. apply (wp_stack_get _ x); [done|]. apply wp_on_u. by wp_step. Qed.

Hypothesis Hnew : 0 ≤ top - 8192 + d ∧ top + d < 2 ^ 64.

Lemma update_run fp l : fp_chain S top d fp l → ∀ fuel y, (length l < fuel)%nat →
  (∀ a, a ∈ word_addrs top → fp ≤ a → u_stack (y_vm y) !! (a + d) = S !! a) →
  wp (update_fps fuel (top + d) top (fp + d)) (λ _ y', ∃ S2, y' = with_ustack S2 y ∧
    ∀ k, S2 !! k = if decide (k - d ∈ l) then (λ x, x + d) <$> S !! (k - d) else u_stack (y_vm y) !! k) y.
Proof.
  assert (Hid : ∀ y, with_ustack (u_stack (y_vm y)) y = y) by (by intros [? []]).
  induction 1 as [|fp v Hin Hv Hst|fp fp' l Hin Hv Hlt Hc IH]; intros [|fuel] y Hf Hcopy; try (simpl in Hf; lia); cbn [update_fps].
  - destruct (Z.ltb_spec (top + d) (top + d)); [lia|]. wp_step. eexists. split; [symmetry; apply Hid|]. intros k. by rewrite decide_False by apply not_elem_of_nil.
  - destruct (proj1 (elem_of_word_addrs _ _) Hin) as (k & Hk & Ek). destruct (Z.ltb_spec (fp + d) (top + d)); [|lia].
    wp_step. apply (wp_stack_get _ v); [by rewrite Hcopy by (done || lia)|]. cbv zeta. replace (top + d - (top - v)) with (v + d) by lia.
    destruct (Z.leb_spec (u64 (v + d)) (fp + d)) as [H1|H1]; [|destruct (Z.ltb_spec (top + d) (u64 (v + d))) as [H2|H2]; [|lia]]; cbn [orb];
      (wp_step; eexists; split; [symmetry; apply Hid|]; intros k'; by rewrite decide_False by apply not_elem_of_nil).
  - destruct (proj1 (elem_of_word_addrs _ _) Hin) as (k & Hk & Ek). destruct (Z.ltb_spec (fp + d) (top + d)); [|lia].
    wp_step. apply (wp_stack_get _ fp'); [by rewrite Hcopy by (done || lia)|]. cbv zeta. replace (top + d - (top - fp')) with (fp' + d) by lia. rewrite u64_small by lia.
    destruct (Z.leb_spec (fp' + d) (fp + d)); [lia|]. destruct (Z.ltb_spec (top + d) (fp' + d)); [lia|]. cbn [orb].
    wp_step. apply (wp_stack_set _ fp'); [by rewrite Hcopy by (done || lia)|]. set (y1 := with_ustack _ y).
    eapply wp_mono; [apply (IH fuel y1); [simpl in Hf; lia|]|].
    + intros a Ha Hle. unfold y1. simpl. rewrite lookup_insert_ne by lia. apply Hcopy; [done|lia].
    + intros _ y' (S2 & -> & HS2). exists S2. split; [done|]. intros j. rewrite HS2. unfold y1. simpl.
      destruct (chain_mem _ _ Hc) as [Hm _]. destruct (decide (j - d ∈ l)) as [Hj|Hj]; [by rewrite decide_True by (by right)|].
      destruct (decide (j = fp + d)) as [->|Hne].
      * rewrite lookup_insert_eq. replace (fp + d - d) with fp by lia. rewrite decide_True by (by left). by rewrite Hv.
      * rewrite lookup_insert_ne by done. rewrite decide_False; [done|]. rewrite elem_of_cons. intros [?|?]; [lia|done].
Qed.

(** The copy. *)
Lemma copy_run y : (∀ a, a ∈ word_addrs top → u_stack (y_vm y) !! a = S !! a ∧ is_Some (S !! a)) → (∀ a, a ∈ word_addrs top → a ∉ word_addrs (top + d)) →
  wp (copy_stack (top + d) top) (λ _ y', ∃ S1, y' = with_ustack S1 y ∧
    (∀ k, S1 !! k = if decide (k ∈ word_addrs (top + d)) then S !! (k - d) else u_stack (y_vm y) !! k)) y.
Proof.
  intros HS Hdis. unfold copy_stack. set (U := u_stack (y_vm y)) in *.
  eapply wp_mono; [apply (wp_for_each (λ l y', NoDup l ∧ (∀ i, i ∈ l → 0 ≤ i < 1024) ∧ ∃ S1, y' = with_ustack S1 y ∧
    ∀ k, S1 !! k = if decide (k ∈ word_addrs (top + d) ∧ k ∉ (λ i, top + d - 8192 + 8 * i) <$> l) then S !! (k - d) else U !! k))|].
  - split; [apply NoDup_zseq|]. split; [intros i Hi%elem_of_zseq; lia|]. exists U. split; [by destruct y as [? []]|]. intros k. rewrite decide_False; [done|].
    intros [(i & Hi & ->)%elem_of_word_addrs Hn]. apply Hn, list_elem_of_fmap. exists i. split; [lia|]. apply elem_of_zseq. lia.
  - intros i l y' ([Hil Hnd]%NoDup_cons & Hl & S1 & -> & HS1). assert (Hi : 0 ≤ i < 1024) by (apply Hl; by left). change STACK_EL1_SIZE with 8192.
    assert (Ha : top - 8192 + 8 * i ∈ word_addrs top) by (apply elem_of_word_addrs; eauto). destruct (HS _ Ha) as [E [x Hx]].
    wp_step. apply (wp_stack_get _ x); [simpl; rewrite HS1, decide_False; [by rewrite E|intros [Hin _]; by apply (Hdis _ Ha)]|].
    unfold stack_put. apply wp_on_u, wp_modify. split; [done|]. split; [intros j Hj; apply Hl; by right|]. eexists. split; [reflexivity|]. intros k. simpl.
    destruct (decide (k = top + d - 8192 + 8 * i)) as [->|Hk].
    + rewrite lookup_insert_eq, decide_True; [by replace (top + d - 8192 + 8 * i - d) with (top - 8192 + 8 * i) by lia|].
      split; [apply elem_of_word_addrs; exists i; lia|]. intros (j & Ej & Hj)%list_elem_of_fmap. assert (i = j) as -> by lia. done.
    + rewrite lookup_insert_ne by done. rewrite HS1. apply decide_ext. rewrite fmap_cons, elem_of_cons. naive_solver.
  - intros [] y' (_ & _ & S1 & -> & HS1). exists S1. split; [done|]. intros k. rewrite HS1. apply decide_ext. rewrite elem_of_nil. naive_solver.
Qed.

(** The kernel stack of a new process: [fork] copies the words of the parent's
    stack and adds the distance of the stacks to every saved frame pointer of
    the chain, so that it lies inside the new stack; all other words are as
    they were, the parent's stack included. *)
Theorem fork_stack_correct y fp l :
  fp_chain S top d fp l → (∀ a, a ∈ word_addrs top → u_stack (y_vm y) !! a = S !! a ∧ is_Some (S !! a)) →
  (∀ a, a ∈ word_addrs top → a ∉ word_addrs (top + d)) →
  ∃ S', (copy_stack (top + d) top ;; update_fps 1025 (top + d) top (fp + d)) y = Ok (tt, with_ustack S' y) ∧
    (∀ k, k ∉ word_addrs (top + d) → S' !! k = u_stack (y_vm y) !! k) ∧
    ∀ a, a ∈ word_addrs top → S' !! (a + d) = if decide (a ∈ l) then (λ x, x + d) <$> S !! a else S !! a.
Proof.
  intros Hc HS Hdis. assert (Hsh : ∀ a, a + d ∈ word_addrs (top + d) ↔ a ∈ word_addrs top).
  { intros a. rewrite !elem_of_word_addrs. naive_solver lia. }
  destruct (wp_unit (copy_stack (top + d) top ;; update_fps 1025 (top + d) top (fp + d)) (λ y', ∃ S', y' = with_ustack S' y ∧ (∀ k, k ∉ word_addrs (top + d) → S' !! k = u_stack (y_vm y) !! k) ∧
    ∀ a, a ∈ word_addrs top → S' !! (a + d) = if decide (a ∈ l) then (λ x, x + d) <$> S !! a else S !! a) y) as (y' & E & S' & -> & H1 & H2); [|by exists S'].
  wp_step. eapply wp_mono; [by apply copy_run|]. intros _ y1 (S1 & -> & HS1). destruct (chain_mem fp l Hc) as [Hm _].
  eapply wp_mono; [apply (update_run fp l Hc 1025); [pose proof (fp_chain_length fp l Hc); lia|]|].
  - intros a Ha _. cbn [y_vm with_ustack set_yvm u_stack set_ustack]. rewrite HS1, decide_True by (by apply Hsh). by replace (a + d - d) with a by lia.
  - intros _ y2 (S2 & -> & HS2). exists S2. split; [done|]. simpl in HS2. split.
    + intros k Hk. rewrite HS2, decide_False; [rewrite HS1, decide_False; done|]. intros [_ Hin]%Hm. destruct Hk. replace k with (k - d + d) by lia. by apply Hsh.
    + intros a Ha. rewrite HS2. replace (a + d - d) with a by lia. destruct (decide (a ∈ l)); [done|].
      rewrite HS1, decide_True by (by apply Hsh). by replace (a + d - d) with a by lia.
Qed.
End Stack.

(** ** Witnesses *)

Lemma user_first_run : first_run (vm_of user_sys) 0x5000 0 2 1.
Proof.
  split; [lia| | |lia].
  - intros k Hk. assert (k = 1 ∨ k = 2) as [-> | ->] by lia; vm_compute; reflexivity.
  - intros b Hb. assert (b = 0) as -> by lia. exists 0. split; [lia|]. intros H. vm_compute in H. discriminate.
Qed.

(** A concrete allocator of blocks that never has any. *)
Definition no_blocks : BlockAlloc.
Proof. refine {| new_block := λ _ _, 0 |}. intros F n _. by left. Defined.

Lemma mmap_first_fit_witness : let _ := low_frames in let _ := no_blocks in
  ∃ y', mmap 10 0 0x1800 0 0 user_sys = Ok (0x1000, y') ∧ y_vm y' = user_mem.
Proof.
  intros ? ?. destruct user_runs_ok as (_ & _ & _ & Ht & _ & b & Hb & _).
  destruct (mmap_first_fit (H := low_frames) user_sys 0x5000 one_page_tree (as_user b) 10 0 0x1800 0 0 1 user_tables Ht Hb) as (y' & E & H1 & _);
    [reflexivity|lia|lia|exact user_first_run|vm_compute; reflexivity|]. exists y'. split; [exact E|exact H1].
Defined.

Lemma mmap_overlaps_witness : let _ := low_frames in let _ := no_blocks in
  ∃ y', (r1 ← mmap 10 0 0x1800 0 0; r2 ← mmap 10 0 0x1800 0 0; mret (r1, r2)) user_sys = Ok ((0x1000, 0x1000), y').
Proof.
  intros ? ?. destruct user_runs_ok as (_ & _ & _ & Ht & _ & b & Hb & _).
  destruct (mmap_overlaps (H := low_frames) user_sys 0x5000 one_page_tree (as_user b) 10 0 0x1800 0 0 1 user_tables Ht Hb) as (y' & b' & E & _);
    [reflexivity|lia|lia|exact user_first_run|vm_compute; reflexivity|]. exists y'. exact E.
Defined.

(** A stack at 0x10000 with two frames, the outer one at 0x11fc0. *)
Definition two_frames : gmap Z Z := <[0x11f00 := 0x11fc0]> (list_to_map ((λ a, (a, 0)) <$> word_addrs 0x12000)).

Lemma two_frames_chain : fp_chain two_frames 0x12000 0x4000 0x11f00 [0x11f00].
Proof.
  apply (chain_next _ _ _ _ 0x11fc0); [apply elem_of_word_addrs; exists 992; lia|vm_compute; reflexivity|lia|].
  apply (chain_stop _ _ _ _ 0); [apply elem_of_word_addrs; exists 1016; lia|vm_compute; reflexivity|left; by vm_compute].
Qed.

Lemma fork_stack_correct_witness :
  ∃ S', (copy_stack 0x16000 0x12000 ;; update_fps 1025 0x16000 0x12000 0x15f00) (mk_sys user_runs (set_ustack two_frames user_mem)) =
    Ok (tt, with_ustack S' (mk_sys user_runs (set_ustack two_frames user_mem))) ∧ S' !! 0x15f00 = Some 0x15fc0.
Proof.
  destruct (fork_stack_correct two_frames 0x12000 0x4000 ltac:(lia) (mk_sys user_runs (set_ustack two_frames user_mem)) 0x11f00 [0x11f00] two_frames_chain) as (S' & E & _ & H).
  - intros a Ha. split; [reflexivity|]. unfold two_frames. rewrite lookup_insert_is_Some'. right. apply elem_of_dom. rewrite dom_list_to_map_L, elem_of_list_to_set, <- list_fmap_compose.
    apply list_elem_of_fmap. by exists a.
  - intros a (k & Hk & ->)%elem_of_word_addrs (j & Hj & Ej)%elem_of_word_addrs. lia.
  - exists S'. split; [exact E|]. change 0x15f00 with (0x11f00 + 0x4000). rewrite H by (apply elem_of_word_addrs; exists 992; lia). vm_compute. reflexivity.
Defined.
