(* ===== verification/Mailbox.v ===== *)
(** * The mailbox (src/kernel/mailbox.c, include/kernel/mailbox.h)

    [mbox_call] hands a buffer of tags to the graphics processor and, for a
    process, maps a frame buffer that it was given into its address space.
    The processor is a parameter: its status and read registers, and what it
    writes into the buffer.  Loops that wait for it take fuel.  A buffer is an
    array of words at its physical address. *)

From S2P Require Import Prelude Cpu Buddy Vmem VmemRep VmemThm VmemProps VmemForkThm KList Process ProcessInv ProcessThm Uspace UspaceProps UspaceFault.

Definition MAILBOX_EMPTY : Z := 0x40000000.
Definition MAILBOX_FULL : Z := 0x80000000.
Definition GET_BOARD_REVISION : Z := 0x00010002.
Definition GET_ARM_MEMORY : Z := 0x00010005.
Definition ALLOC_FRAMEBUF : Z := 0x00040001.
Definition REQUEST_CODE : Z := 0.
Definition REQUEST_SUCCEED : Z := 0x80000000.
Definition TAG_REQUEST_CODE : Z := 0.
Definition END_TAG : Z := 0.
Definition MBOX_CH_PROP : Z := 8.
Definition USR_FRAMEBUF_START : Z := 0x30000000.

(** The processor: the two registers that are read, and what a message does to
    the buffer it points to. *)
Class Gpu := {
  gpu : Type;
  g_status : gpu → Z * gpu;
  g_read : gpu → Z * gpu;
  g_write : Z → list Z → gpu → list Z * gpu;
}.

Section Mailbox.
Context `{!PageAlloc, !Gpu}.

(** The processes and their memory, the buffers, the processor, [fb_addr]. *)
Record mbs := mk_mbs { m_sys : usys; m_bufs : gmap Z (list Z); m_gpu : gpu; m_fb : Z }.

Definition set_msys y s := mk_mbs y (m_bufs s) (m_gpu s) (m_fb s).
Definition set_mbufs b s := mk_mbs (m_sys s) b (m_gpu s) (m_fb s).
Definition set_mgpu g s := mk_mbs (m_sys s) (m_bufs s) g (m_fb s).
Definition set_mfb a s := mk_mbs (m_sys s) (m_bufs s) (m_gpu s) a.

Definition on_sys {A} (m : M usys A) : M mbs A := zoom m_sys set_msys m.

Definition status : M mbs Z := λ s, let '(v, g) := g_status (m_gpu s) in Ok (u32 v, set_mgpu g s).
Definition read_reg : M mbs Z := λ s, let '(v, g) := g_read (m_gpu s) in Ok (u32 v, set_mgpu g s).

(** [v_mbox[i]], and its assignment *)
Definition word (p : Z) (i : Z) : M mbs Z := s ← get_st; ws ← deref (m_bufs s !! p); deref (ws !! Z.to_nat i).
Definition word_set (p i v : Z) : M mbs unit :=
  s ← get_st; ws ← deref (m_bufs s !! p); _ ← deref (ws !! Z.to_nat i);
  modify (set_mbufs (<[p := <[Z.to_nat i := u32 v]> ws]> (m_bufs s))).

(** [while (get32(MAILBOX_STATUS) & bit) ;] *)
Fixpoint wait_status (fuel : nat) (bit : Z) : M mbs unit :=
  match fuel with
  | O => spin
  | S fuel' => v ← status; if Z.land v bit =? 0 then mret tt else wait_status fuel' bit
  end.
Fixpoint wait_answer (fuel : nat) (data : Z) : M mbs unit :=
  match fuel with
  | O => spin
  | S fuel' => v ← read_reg; if v =? data then mret tt else wait_answer fuel' data
  end.

(** [set32(MAILBOX_WRITE, data)]: the processor works on the buffer. *)
Definition send (p data : Z) : M mbs unit :=
  s ← get_st; ws ← deref (m_bufs s !! p);
  let '(ws', g) := g_write data ws (m_gpu s) in
  modify (λ s, set_mgpu g (set_mbufs (<[p := ws']> (m_bufs s)) s)).

(** The frame buffer of the tag whose size word is at [idx]. *)
Definition map_framebuf (p idx : Z) : M mbs unit :=
  base ← word p (idx + 2);
  modify (set_mfb (Z.land base 0x3fffffff)) ;;
  s ← get_st;
  let ttbr := h_ttbr0 (hws (y_ps (m_sys s))) in
  let s_page_idx := Z.shiftr USR_FRAMEBUF_START 12 in
  size ← word p (idx + 3);
  let num_pages := u32 (size - 1) / PAGE_SIZE + 1 in
  let e_page_idx := s_page_idx + num_pages in
  on_sys (on_mem (fill_page_table (p2v_trans_kernel ttbr) s_page_idx e_page_idx (Z.land base 0x3fffffff) (Z.lor PD_USER_ACCESS PD_ACCESS))) ;;
  on_sys (add_section (current (y_ps (m_sys s))) DEVICE USR_FRAMEBUF_START (num_pages * PAGE_SIZE)) ;;
  word_set p (idx + 2) USR_FRAMEBUF_START.

Fixpoint tag_loop (fuel : nat) (p idx : Z) : M mbs unit :=
  match fuel with
  | O => spin
  | S fuel' =>
      tag ← word p idx;
      if tag =? END_TAG then mret tt
      else
        let idx := idx + 1 in
        alloc ← (if tag =? ALLOC_FRAMEBUF then code ← word p (idx + 1); mret (negb (Z.land code (Z.shiftl 1 31) =? 0)) else mret false);
        (if (alloc : bool) then map_framebuf p idx else mret tt) ;;
        size ← word p idx;
        tag_loop fuel' p (idx + (size / 4 + 2))
  end.

Definition mbox_call (fuel : nat) (channel mailbox : Z) : M mbs bool :=
  p_mbox ← on_sys (on_mem (v2p_trans mailbox 0));
  let data := u32 (Z.lor (Z.land p_mbox (u64 (Z.lnot 0xf))) channel) in
  wait_status fuel MAILBOX_FULL ;;
  send p_mbox data ;;
  wait_status fuel MAILBOX_EMPTY ;;
  wait_answer fuel data ;;
  s ← get_st;
  let get_current := current (y_ps (m_sys s)) in
  result ← word p_mbox 1;
  if negb (get_current =? 0) && (result =? REQUEST_SUCCEED) then tag_loop fuel p_mbox 2 ;; mret true
  else if get_current =? 0 then mret (result =? REQUEST_SUCCEED)
  else mret false.

(** The array [mailbox] of [mailbox_request]. *)
Definition request (n_buf tag : Z) : list Z :=
  let n := n_buf + 6 in
  [u32 (n * 4); REQUEST_CODE; tag; u32 (n_buf * 4); TAG_REQUEST_CODE] ++ replicate (Z.to_nat n_buf) 0 ++ [END_TAG].

(** [mailbox] is the address of the local array, [p] its physical address; the
    result is what [data] gets. *)
Definition mailbox_request (fuel : nat) (mailbox p : Z) (n_buf tag channel : Z) : M mbs (list Z) :=
  modify (λ s, set_mbufs (<[p := request n_buf tag]> (m_bufs s)) s) ;;
  mbox_call fuel channel mailbox ;;
  s ← get_st;
  ws ← deref (m_bufs s !! p);
  assert (5 + n_buf <=? Z.of_nat (length ws)) ;;
  mret (take (Z.to_nat n_buf) (drop 5 ws)).

Definition m_printf (msg : string) : M mbs unit := on_sys (u_on_cpu (printf msg)).

Definition get_board_revision (fuel : nat) (mailbox p : Z) : M mbs unit :=
  data ← mailbox_request fuel mailbox p 1 GET_BOARD_REVISION MBOX_CH_PROP;
  m_printf ("Board revision: 0x" +:+ hex (hd 0 data) +:+ crlf).

Definition get_memory_info (fuel : nat) (mailbox p : Z) : M mbs unit :=
  data ← mailbox_request fuel mailbox p 2 GET_ARM_MEMORY MBOX_CH_PROP;
  m_printf ("ARM memory base address: 0x" +:+ hex (hd 0 data) +:+ crlf) ;;
  m_printf ("ARM memory size: 0x" +:+ hex (nth 1 data 0) +:+ crlf).

Definition mailbox_info (fuel : nat) (mailbox p : Z) : M mbs unit :=
  m_printf ("Mailbox info:" +:+ crlf) ;;
  get_board_revision fuel mailbox p ;;
  get_memory_info fuel mailbox p.
End Mailbox.

(** ** The processor as documented *)

(** The polls until there is room for a message and until an answer is there,
    the messages to others that are read first, the last message, and the
    answer to a buffer. *)
Record vc := mk_vc { full_polls : nat; empty_polls : nat; others : list Z; msg : Z; reply : list Z → list Z }.

Definition vc_status (c : vc) : Z * vc :=
  (Z.lor (match full_polls c with O => 0 | S _ => MAILBOX_FULL end) (match empty_polls c with O => 0 | S _ => MAILBOX_EMPTY end),
   mk_vc (pred (full_polls c)) (pred (empty_polls c)) (others c) (msg c) (reply c)).
Definition vc_read (c : vc) : Z * vc :=
  match others c with [] => (msg c, c) | x :: l => (x, mk_vc (full_polls c) (empty_polls c) l (msg c) (reply c)) end.
Definition vc_write (data : Z) (ws : list Z) (c : vc) : list Z * vc :=
  (reply c ws, mk_vc (full_polls c) (empty_polls c) (others c) data (reply c)).

Class GpuDoc `{!Gpu} := {
  gview : gpu → vc;
  gview_status : ∀ g, vc_status (gview g) = ((g_status g).1, gview (g_status g).2);
  gview_read : ∀ g, vc_read (gview g) = ((g_read g).1, gview (g_read g).2);
  gview_write : ∀ d ws g, vc_write d ws (gview g) = ((g_write d ws g).1, gview (g_write d ws g).2);
}.

#[export] Instance vc_gpu : Gpu := {| gpu := vc; g_status := vc_status; g_read := vc_read; g_write := vc_write |}.
#[export] Program Instance vc_doc : GpuDoc := {| gview := (λ c : @gpu vc_gpu, c) |}.
Next Obligation. done. Qed.
Next Obligation. intros g. simpl. by destruct (vc_read g). Qed.
Next Obligation. done. Qed.

(** ** Tags *)

Record tag := mk_tag { t_id : Z; t_code : Z; t_vals : list Z }.
Definition enc (t : tag) : list Z := t_id t :: 4 * Z.of_nat (length (t_vals t)) :: t_code t :: t_vals t.

(** An answer that allocates a frame buffer. *)
Definition allocates (t : tag) : bool := (t_id t =? ALLOC_FRAMEBUF) && negb (Z.land (t_code t) (Z.shiftl 1 31) =? 0).

Section Tags.
Context `{!PageAlloc, !Gpu}.

(** [s] with other buffers. *)
Lemma word_run p ws i v s : m_bufs s !! p = Some ws → ws !! Z.to_nat i = Some v → word p i s = Ok (v, s).
Proof. intros H1 H2. unfold word, mbind, M_bind, get_st, deref. rewrite H1. cbn. by rewrite H2. Qed.

Lemma enc_lookup pre t post k v : enc t !! k = Some v → (pre ++ enc t ++ post) !! Z.to_nat (Z.of_nat (length pre) + Z.of_nat k) = Some v.
Proof.
  intros Hk. replace (Z.to_nat _) with (length pre + k)%nat by lia. rewrite lookup_app_r by lia. replace (_ - _)%nat with k by lia.
  rewrite lookup_app_l; [done|]. by eapply lookup_lt_Some.
Qed.

Lemma enc_end pre t : Z.of_nat (length pre) + 1 + (4 * Z.of_nat (length (t_vals t)) / 4 + 2) = Z.of_nat (length (pre ++ enc t)).
Proof. rewrite Z.mul_comm, Z.div_mul by lia. rewrite length_app. simpl. lia. Qed.

(** A tag that allocates nothing is passed over. *)
Lemma tag_skip fuel p pre t post s : m_bufs s !! p = Some (pre ++ enc t ++ post) → t_id t ≠ END_TAG → allocates t = false →
  tag_loop (S fuel) p (Z.of_nat (length pre)) s = tag_loop fuel p (Z.of_nat (length (pre ++ enc t))) s.
Proof.
  intros Hb Hid Ha. cbn [tag_loop]. pose proof (λ k v H, word_run p _ _ v s Hb (enc_lookup pre t post k v H)) as Hw.
  rewrite <- (Z.add_0_r (Z.of_nat (length pre))) at 1. rewrite (bind_Ok _ _ _ _ _ (Hw 0%nat _ eq_refl)). rewrite (proj2 (Z.eqb_neq _ _) Hid).
  erewrite (bind_Ok _ _ s false s).
  - cbv beta iota. erewrite bind_Ok by done. change 1 with (Z.of_nat 1). rewrite (bind_Ok _ _ _ _ _ (Hw 1%nat _ eq_refl)). f_equal. apply enc_end.
  - unfold allocates in Ha. destruct (t_id t =? ALLOC_FRAMEBUF); [|done]. cbn [andb] in Ha. rewrite <- Z.add_assoc. change (1 + 1) with (Z.of_nat 2).
    rewrite (bind_Ok _ _ _ _ _ (Hw 2%nat _ eq_refl)). by rewrite Ha.
Qed.

Definition plain_tag (t : tag) : Prop := t_id t ≠ END_TAG ∧ allocates t = false.

Lemma tags_skip ts : Forall plain_tag ts → ∀ fuel p pre post s, m_bufs s !! p = Some (pre ++ (ts ≫= enc) ++ post) →
  tag_loop (length ts + fuel) p (Z.of_nat (length pre)) s = tag_loop fuel p (Z.of_nat (length (pre ++ (ts ≫= enc)))) s.
Proof.
  induction 1 as [|t ts [Hid Ha] _ IH]; intros fuel p pre post s Hb; [by rewrite app_nil_r|]. rewrite bind_cons, <- app_assoc in Hb.
  cbn [length Nat.add]. rewrite (tag_skip _ _ pre t _ s Hb Hid Ha). rewrite (app_assoc pre) in Hb. rewrite (IH fuel p (pre ++ enc t) post s Hb). by rewrite bind_cons, app_assoc.
Qed.

Lemma tag_end fuel p pre post s : m_bufs s !! p = Some (pre ++ END_TAG :: post) → tag_loop (S fuel) p (Z.of_nat (length pre)) s = Ok (tt, s).
Proof.
  intros Hb. cbn [tag_loop]. rewrite (bind_Ok _ _ _ END_TAG s); [done|]. eapply word_run; [exact Hb|]. by rewrite Nat2Z.id, lookup_app_r, Nat.sub_diag by lia.
Qed.

(** A tag that allocates is mapped, and its address replaced. *)
Definition remapped (t : tag) : tag := mk_tag (t_id t) (t_code t) (<[0%nat := USR_FRAMEBUF_START]> (t_vals t)).
Definition fb_pages (size : Z) : Z := u32 (size - 1) / PAGE_SIZE + 1.

Definition with_fb (p : Z) (ws : list Z) (base size : Z) (v' : vst) (b : pcb) (s : mbs) : mbs :=
  let y := put_vm v' (m_sys s) in
  mk_mbs (set_yps (set_pcbs (<[current (y_ps y) := with_sections (sections b ++ [mk_section DEVICE USR_FRAMEBUF_START (fb_pages size * PAGE_SIZE)]) b]> (pcbs (y_ps y))) (y_ps y)) y)
    (<[p := ws]> (m_bufs s)) (m_gpu s) (Z.land base 0x3fffffff).

Lemma tag_alloc fuel p pre t post base size more b v' s :
  m_bufs s !! p = Some (pre ++ enc t ++ post) → allocates t = true → t_vals t = base :: size :: more →
  pcbs (y_ps (m_sys s)) !! current (y_ps (m_sys s)) = Some b →
  fill_page_table (p2v_trans_kernel (h_ttbr0 (hws (y_ps (m_sys s))))) 0x30000 (0x30000 + fb_pages size) (Z.land base 0x3fffffff) (Z.lor PD_USER_ACCESS PD_ACCESS)
    (vm_of (m_sys s)) = Ok (tt, v') →
  tag_loop (S fuel) p (Z.of_nat (length pre)) s =
    tag_loop fuel p (Z.of_nat (length (pre ++ enc t))) (with_fb p (pre ++ enc (remapped t) ++ post) base size v' b s).
Proof.
  intros Hb Ha Hvals Hcur Hfill. pose proof (λ k v H, word_run p _ _ v s Hb (enc_lookup pre t post k v H)) as Hw.
  unfold allocates in Ha. apply andb_prop in Ha as [Hid Hcode]. apply Z.eqb_eq in Hid as Hid'. cbn [tag_loop].
  rewrite <- (Z.add_0_r (Z.of_nat (length pre))) at 1. rewrite (bind_Ok _ _ _ _ _ (Hw 0%nat _ eq_refl)). rewrite Hid'. change (ALLOC_FRAMEBUF =? END_TAG) with false.
  change (ALLOC_FRAMEBUF =? ALLOC_FRAMEBUF) with true. cbv beta iota zeta.
  rewrite (bind_Ok _ _ s true s).
  2:{ rewrite <- Z.add_assoc. change (1 + 1) with (Z.of_nat 2). rewrite (bind_Ok _ _ _ _ _ (Hw 2%nat _ eq_refl)). by rewrite Hcode. }
  cbv beta iota. rewrite (bind_Ok _ _ s tt (with_fb p (pre ++ enc (remapped t) ++ post) base size v' b s)).
  - rewrite (bind_Ok _ _ _ (4 * Z.of_nat (length (t_vals t))) (with_fb p (pre ++ enc (remapped t) ++ post) base size v' b s)); [f_equal; apply enc_end|].
    eapply word_run; [apply lookup_insert_eq|]. change 1 with (Z.of_nat 1). rewrite (enc_lookup pre (remapped t) post 1 (4 * Z.of_nat (length (t_vals t)))); [done|].
    cbn. by rewrite length_insert.
  - unfold map_framebuf. rewrite <- !Z.add_assoc. change (1 + 2) with (Z.of_nat 3). change (1 + 3) with (Z.of_nat 4).
    assert (H3 : enc t !! 3%nat = Some base) by (unfold enc; rewrite Hvals; done). assert (H4 : enc t !! 4%nat = Some size) by (unfold enc; rewrite Hvals; done).
    rewrite (bind_Ok _ _ _ _ _ (Hw 3%nat _ H3)). erewrite bind_Ok by done. erewrite bind_Ok by done. cbv zeta.
    rewrite (bind_Ok _ _ _ size (set_mfb (Z.land base 0x3fffffff) s)) by (eapply word_run; [exact Hb|by apply enc_lookup]).
    erewrite bind_Ok by (unfold on_sys, on_mem, zoom; cbn [m_sys set_mfb]; change (Z.shiftr USR_FRAMEBUF_START 12) with 0x30000; fold (fb_pages size); by rewrite Hfill).
    erewrite bind_Ok by (unfold on_sys, add_section, on_ps, pcb_upd, pcb_get, zoom, mbind, M_bind, get_st, deref; cbn; by rewrite Hcur).
    unfold word_set. erewrite bind_Ok by done. cbn [m_bufs set_msys set_mfb]. rewrite Hb. erewrite bind_Ok by done. cbn [deref].
    rewrite (enc_lookup pre t post 3 base H3). erewrite bind_Ok by done. unfold modify, with_fb, set_mbufs. cbn. do 4 f_equal.
    replace (Z.to_nat _) with (length pre + 3)%nat by lia. rewrite insert_app_r. f_equal. unfold enc, remapped. cbn. rewrite Hvals. cbn. done.
Qed.
End Tags.

(** ** A call *)

Section Call.
Context `{!PageAlloc, !Gpu, !GpuDoc}.

Lemma status_bits f e : let v := u32 (Z.lor (match f with O => 0 | S _ => MAILBOX_FULL end) (match e with O => 0 | S _ => MAILBOX_EMPTY end)) in
  (Z.land v MAILBOX_FULL =? 0) = (f =? 0)%nat ∧ (Z.land v MAILBOX_EMPTY =? 0) = (e =? 0)%nat.
Proof. by destruct f, e. Qed.

(** The processor after [k] polls. *)
Definition polled (k : nat) (c : vc) : vc := mk_vc (full_polls c - k) (empty_polls c - k) (others c) (msg c) (reply c).

Lemma status_run s : ∃ g, status s = Ok (u32 (vc_status (gview (m_gpu s))).1, set_mgpu g s) ∧ gview g = (vc_status (gview (m_gpu s))).2.
Proof. unfold status. rewrite gview_status. destruct (g_status (m_gpu s)) as [v g]. by exists g. Qed.

Lemma wait_status_run bit n : bit = MAILBOX_FULL ∨ bit = MAILBOX_EMPTY → ∀ s,
  ((if (bit =? MAILBOX_FULL)%Z then full_polls else empty_polls) (gview (m_gpu s)) < n)%nat →
  ∃ g k, wait_status n bit s = Ok (tt, set_mgpu g s) ∧ gview g = polled k (gview (m_gpu s)).
Proof.
  intros Hbit. induction n as [|n IH]; intros s Hn; [lia|]. cbn [wait_status]. destruct (status_run s) as (g & E & Hg). rewrite (bind_Ok _ _ _ _ _ E).
  set (c := gview (m_gpu s)) in *. destruct (status_bits (full_polls c) (empty_polls c)) as [B1 B2].
  assert (Hp : gview g = polled 1 c) by (rewrite Hg; unfold polled, vc_status; cbn; f_equal; lia).
  assert (Hz : (Z.land (u32 (vc_status c).1) bit =? 0) = ((if (bit =? MAILBOX_FULL)%Z then full_polls else empty_polls) c =? 0)%nat)
    by (destruct Hbit as [->| ->]; [exact B1|exact B2]). rewrite Hz.
  destruct (Nat.eqb_spec ((if (bit =? MAILBOX_FULL)%Z then full_polls else empty_polls) c) 0) as [Hq|Hq]; [by exists g, 1%nat|].
  destruct (IH (set_mgpu g s)) as (g' & k & E' & Hg'). { cbn. rewrite Hp. unfold polled. destruct (_ =? _); simpl in *; lia. }
  exists g', (S k). split; [exact E'|]. rewrite Hg'. cbn. rewrite Hp. unfold polled. cbn. f_equal; lia.
Qed.

Lemma wait_answer_run data n : ∀ s, (length (others (gview (m_gpu s))) < n)%nat → msg (gview (m_gpu s)) = data → 0 ≤ data < 2 ^ 32 →
  ∃ g, wait_answer n data s = Ok (tt, set_mgpu g s).
Proof.
  induction n as [|n IH]; intros s Hn Hm Hd; [lia|]. cbn [wait_answer]. pose proof (gview_read (m_gpu s)) as Hr.
  destruct (g_read (m_gpu s)) as [v g] eqn:Eg. cbn in Hr.
  rewrite (bind_Ok _ _ _ (u32 v) (set_mgpu g s)) by (unfold read_reg; by rewrite Eg).
  unfold vc_read in Hr. destruct (others (gview (m_gpu s))) as [|x l] eqn:Eo; injection Hr as <- Hg.
  - rewrite Hm. unfold u32. rewrite Z.mod_small, Z.eqb_refl by lia. by exists g.
  - destruct (u32 x =? data); [by exists g|]. destruct (IH (set_mgpu g s)) as (g' & E'); [cbn; rewrite <- Hg; simpl in *; lia|cbn; by rewrite <- Hg|done|].
    by exists g'.
Qed.

(** The processor is fast enough for [fuel]. *)
Definition prompt (fuel : nat) (c : vc) : Prop := (full_polls c < fuel)%nat ∧ (empty_polls c < fuel)%nat ∧ (length (others c) < fuel)%nat.

(** Up to the answer: the buffer is the processor's answer. *)
Lemma mbox_call_run fuel channel mailbox p ws s : prompt fuel (gview (m_gpu s)) →
  v2p_trans mailbox 0 (vm_of (m_sys s)) = Ok (p, vm_of (m_sys s)) → m_bufs s !! p = Some ws →
  ∃ g, mbox_call fuel channel mailbox s =
    (result ← word p 1;
     if negb (current (y_ps (m_sys s)) =? 0) && (result =? REQUEST_SUCCEED) then tag_loop fuel p 2 ;; mret true
     else if current (y_ps (m_sys s)) =? 0 then mret (result =? REQUEST_SUCCEED) else mret false)
      (mk_mbs (m_sys s) (<[p := reply (gview (m_gpu s)) ws]> (m_bufs s)) g (m_fb s)).
Proof.
  intros (Hf & He & Ho) Hv Hb. unfold mbox_call.
  rewrite (bind_Ok _ _ _ p s) by (unfold on_sys, on_mem, zoom; rewrite Hv, put_vm_of; by destruct s).
  destruct (wait_status_run MAILBOX_FULL fuel ltac:(by left) s Hf) as (g1 & k1 & E1 & G1). rewrite (bind_Ok _ _ _ _ _ E1).
  set (data := u32 _). assert (Hd : 0 ≤ data < 2 ^ 32) by (apply Z.mod_pos_bound; lia).
  pose proof (gview_write data ws g1) as Hw. destruct (g_write data ws g1) as [ws' g2] eqn:Eg. cbn in Hw. unfold vc_write in Hw. injection Hw as <- G2.
  rewrite (bind_Ok _ _ _ tt (mk_mbs (m_sys s) (<[p := reply (gview g1) ws]> (m_bufs s)) g2 (m_fb s))).
  2:{ unfold send, mbind, M_bind, get_st, deref. cbn [m_bufs set_mgpu]. rewrite Hb. cbn. by rewrite Eg. }
  set (s2 := mk_mbs _ _ g2 _). destruct (wait_status_run MAILBOX_EMPTY fuel ltac:(by right) s2) as (g3 & k3 & E3 & G3).
  { cbn. rewrite <- G2. cbn. rewrite G1. cbn. lia. }
  rewrite (bind_Ok _ _ _ _ _ E3). destruct (wait_answer_run data fuel (set_mgpu g3 s2)) as (g4 & E4); [cbn; rewrite G3; cbn; rewrite <- G2; cbn; rewrite G1; cbn; lia|
    cbn; rewrite G3; cbn; by rewrite <- G2|done|].
  rewrite (bind_Ok _ _ _ _ _ E4). erewrite bind_Ok by done. exists g4. unfold s2. rewrite G1. done.
Qed.

(** C24: A process that asks the processor for a frame buffer gets it mapped: the
    call returns true, the pages from USR_FRAMEBUF_START on translate to the
    buffer and the other translations are as before, a section for the range
    is added to the process, and in the answer only the address is changed, to
    the one the process can use; tags before and after are passed over.  The
    buffer may have any size (the 3 MB of the kernel's 1024x768 display too):
    the pages it is mapped at must enter no region that has a page table
    already (a process has none there before its first call), and the
    allocator must have the frames for the tables.  The processor answers
    within the polls [fuel] allows, with the request successful. *)
Theorem mbox_framebuffer fuel channel mailbox p ws w0 pre t post rest base size more b s root P :
  prompt fuel (gview (m_gpu s)) → (length pre + length post + 1 < fuel)%nat →
  v2p_trans mailbox 0 (vm_of (m_sys s)) = Ok (p, vm_of (m_sys s)) → m_bufs s !! p = Some ws →
  reply (gview (m_gpu s)) ws = [w0; REQUEST_SUCCEED] ++ (pre ≫= enc) ++ enc t ++ (post ≫= enc) ++ END_TAG :: rest →
  Forall plain_tag pre → Forall plain_tag post → allocates t = true → t_vals t = base :: size :: more →
  current (y_ps (m_sys s)) ≠ 0 → pcbs (y_ps (m_sys s)) !! current (y_ps (m_sys s)) = Some b →
  pt_wf (vm_of (m_sys s)) root P → h_ttbr0 (hws (y_ps (m_sys s))) = root → 0 < size < 2 ^ 32 →
  fresh_range P 0x30000 (0x30000 + fb_pages size) → room (vm_of (m_sys s)) (3 + tables_for 0x30000 (0x30000 + fb_pages size)) →
  ∃ s' g v', mbox_call fuel channel mailbox s = Ok (true, s') ∧
    s' = with_fb p ([w0; REQUEST_SUCCEED] ++ (pre ≫= enc) ++ enc (remapped t) ++ (post ≫= enc) ++ END_TAG :: rest) base size v' b (set_mgpu g s) ∧
    vm_of (m_sys s') = v' ∧
    ∀ q, 0 ≤ q < 2 ^ 36 → translate v' root q =
      if decide (0x30000 ≤ q < 0x30000 + fb_pages size) then Some (page_entry (q - 0x30000) (Z.land base 0x3fffffff) (Z.lor PD_USER_ACCESS PD_ACCESS))
      else translate (vm_of (m_sys s)) root q.
Proof.
  intros Hpr Hfuel Hv Hb Hrep Hpre Hpost Ha Hvals Hcur Hblk Hwf Hroot Hsize Hfresh Hroom.
  destruct (mbox_call_run fuel channel mailbox p ws s Hpr Hv Hb) as (g & Erun). rewrite Hrep in Erun.
  assert (Hpages : 1 ≤ fb_pages size ≤ 2 ^ 20).
  { unfold fb_pages, u32. change PAGE_SIZE with 4096. rewrite Z.mod_small by lia. pose proof (Z.div_pos (size - 1) 4096 ltac:(lia) ltac:(lia)).
    assert ((size - 1) / 4096 < 2 ^ 20) by (apply Z.div_lt_upper_bound; lia). lia. }
  destruct (wp_unit _ _ _ (wp_fill_range root P (vm_of (m_sys s)) 0x30000 (0x30000 + fb_pages size) (Z.land base 0x3fffffff) (Z.lor PD_USER_ACCESS PD_ACCESS)
    Hwf Hroom ltac:(lia) ltac:(lia) Hfresh ltac:(by vm_compute))) as (v' & Efill & P' & _ & _ & Hregs & Htr).
  set (s1 := mk_mbs _ _ g _) in Erun. set (all := [w0; REQUEST_SUCCEED] ++ _) in *.
  set (h2 := [w0; REQUEST_SUCCEED]) in *.
  assert (Hb1 : m_bufs s1 !! p = Some all) by apply lookup_insert_eq.
  rewrite (bind_Ok _ _ s1 REQUEST_SUCCEED s1) in Erun by (by eapply word_run).
  rewrite (proj2 (Z.eqb_neq _ _) Hcur), Z.eqb_refl in Erun. cbn [negb andb] in Erun. cbv iota in Erun.
  destruct fuel as [|fuel]; [lia|]. replace (S fuel) with (length pre + S (length post + S (fuel - length pre - length post - 1)))%nat in Erun at 2 by lia.
  change 2 with (Z.of_nat (length h2)) in Erun. unfold mbind at 1, M_bind in Erun.
  rewrite (tags_skip pre Hpre _ p h2 (enc t ++ (post ≫= enc) ++ END_TAG :: rest) s1 Hb1) in Erun.
  assert (Hb2 : m_bufs s1 !! p = Some ((h2 ++ (pre ≫= enc)) ++ enc t ++ (post ≫= enc) ++ END_TAG :: rest)) by (by rewrite <- app_assoc).
  erewrite (tag_alloc _ p _ t _ base size more b v' s1 Hb2 Ha Hvals Hblk) in Erun by (cbn; by rewrite Hroot).
  set (s2 := with_fb _ _ _ _ _ _ _) in Erun.
  assert (Hb3 : m_bufs s2 !! p = Some (((h2 ++ (pre ≫= enc)) ++ enc (remapped t)) ++ (post ≫= enc) ++ END_TAG :: rest)).
  { unfold s2, with_fb. cbn [m_bufs]. rewrite lookup_insert_eq. f_equal. by rewrite <- !app_assoc. }
  assert (Hlen : length ((h2 ++ (pre ≫= enc)) ++ enc t) = length ((h2 ++ (pre ≫= enc)) ++ enc (remapped t))).
  { rewrite !length_app. unfold enc, remapped. cbn. by rewrite length_insert. }
  rewrite Hlen, (tags_skip post Hpost _ p _ _ s2 Hb3) in Erun.
  rewrite (app_assoc _ (post ≫= enc)) in Hb3. rewrite (tag_end _ p _ rest s2 Hb3) in Erun.
  exists s2, g, v'. split_and!; [exact Erun| |by apply vm_of_put|exact Htr].
  unfold s2, with_fb, s1. cbn [m_sys m_bufs m_gpu set_mgpu]. f_equal. rewrite insert_insert_eq. done.
Qed.
End Call.

(** ** A concrete call *)

Definition fb_tag : tag := mk_tag ALLOC_FRAMEBUF 0x80000008 [0xfc100000; 0x300000].
Definition depth_tag : tag := mk_tag 0x48005 0x80000004 [32].
Definition fb_reply : list Z := [0; REQUEST_SUCCEED] ++ enc depth_tag ++ enc fb_tag ++ enc depth_tag ++ [END_TAG].

(** The process of user_sys asks with a buffer at 0x120. *)
Definition asking : mbs (H0 := vc_gpu) := mk_mbs (H0 := vc_gpu) user_sys {[0x10120 := replicate 16 0]} (mk_vc 1 2 [7] 0 (λ _, fb_reply)) 0.

(** Its tables all lead to page 0. *)
Lemma user_fresh p e : 0 ≤ p → e ≤ 2 ^ 36 → fresh_range one_page_tree p e.
Proof.
  intros Hp He k i Hk Hi Hd f Hf. assert (Hlen : (length (path k i) ≤ 3)%nat) by (rewrite path_length; lia).
  assert (E : path k i = take (length (path k i)) (indices 0)).
  { unfold one_page_tree in Hf. repeat (apply lookup_insert_Some in Hf as [[_ <-]|[_ Hf]]; [reflexivity|]).
    by apply lookup_singleton_Some in Hf as [_ <-]. }
  rewrite path_length in E by lia. apply path_inj in E as [_ E]; [|lia..].
  rewrite Z.div_0_l in E by (apply Z.pow_nonzero; unfold span; lia). destruct Hd as [c ->].
  assert (0 < 2 ^ span i) by (apply pow2_pos; unfold span; lia). rewrite Z.div_mul in E by lia. lia.
Qed.

Lemma mbox_framebuffer_witness : let _ := low_frames in
  ∃ s', mbox_call (H0 := vc_gpu) 8 8 0x120 asking = Ok (true, s') ∧ m_fb s' = 0x3c100000 ∧
    translate (vm_of (m_sys s')) 0x5000 0x302ff = Some (page_entry 0x2ff 0x3c100000 (Z.lor PD_USER_ACCESS PD_ACCESS)).
Proof.
  intros ?. destruct user_runs_ok as (_ & _ & _ & Ht & _ & b & Hb & _).
  destruct (mbox_framebuffer (H := low_frames) (H0 := vc_gpu) 8 8 0x120 0x10120 (replicate 16 0) 0 [depth_tag] fb_tag [depth_tag] [] 0xfc100000 0x300000 []
    (as_user b) asking 0x5000 one_page_tree) as (s' & g & v' & E & Hs & Hv & Htr).
  - repeat split; simpl; lia.
  - simpl. lia.
  - change (m_sys asking) with user_sys. rewrite (v2p_trans_run (vm_of user_sys) 0x5000 one_page_tree user_tables); [|lia|right; split; [reflexivity|exact Ht]].
    reflexivity.
  - reflexivity.
  - reflexivity.
  - repeat constructor; discriminate.
  - repeat constructor; discriminate.
  - reflexivity.
  - reflexivity.
  - vm_compute. discriminate.
  - exact Hb.
  - exact user_tables.
  - exact Ht.
  - lia.
  - apply user_fresh; [lia|by vm_compute].
  - apply user_room. vm_compute. lia.
  - exists s'. split; [exact E|]. split; [by rewrite Hs|]. rewrite Hv, Htr by lia. rewrite decide_True by (vm_compute; split; [discriminate|reflexivity]). reflexivity.
Defined.
