(* ===== verification/Str.v ===== *)
(** * Strings (src/kernel/string.c, include/kernel/string.h, src/kernel/utils.c)

    A [char] is an integer from 0 to 255: on AArch64 the type is unsigned.
    A pointer into a character array is the list of the cells from there to
    the end of the array, so an access outside the array is undefined.
    Arrays are shorter than 2^31, the range of the [int] indices. *)

From S2P Require Import Prelude.

(** Functions that only compute: [res] alone is their monad. *)
#[export] Instance res_ret : MRet res := λ A a, Ok a.
#[export] Instance res_bind : MBind res := λ A B k m,
  match m with Ok a => k a | Ub => Ub | Spin => Spin end.

Definition ptr_get {A} (o : option A) : res A := match o with Some a => Ok a | None => Ub end.

(** A pure computation inside a stateful one. *)
Definition lift {S A} (r : res A) : M S A := λ s,
  match r with Ok a => Ok (a, s) | Ub => Ub | Spin => Spin end.

Definition NUL : Z := 0.
Definition STRLEN : Z := 256.

(** The characters of a literal. *)
Definition chars (s : string) : list Z := (λ c, Z.of_nat (Ascii.nat_of_ascii c)) <$> String.list_ascii_of_string s.
Definition lit (s : string) : list Z := chars s ++ [NUL].

(** ** Comparison and copying *)

Fixpoint strncmp_loop (str1 str2 : list Z) (i count : Z) : res Z :=
  if i <? count then
    match str1, str2 with
    | a :: str1', b :: str2' =>
        if a <? b then Ok (-1)
        else if b <? a then Ok 1
        else if (a =? NUL) && (b =? NUL) then Ok 0
        else strncmp_loop str1' str2' (i + 1) count
    | _, _ => Ub
    end
  else Ok 0.

Definition strncmp (str1 str2 : list Z) (count : Z) : res Z := strncmp_loop str1 str2 0 count.

Definition strcmp (str1 str2 : list Z) : res Z := strncmp str1 str2 (u64 (Z.lnot 0)).

(** The result is the destination array after the copy. *)
Fixpoint strncpy_loop (dst src : list Z) (i count : Z) {struct src} : res (list Z) :=
  let stop := match dst with [] => Ub | _ :: dst' => Ok (NUL :: dst') end in
  if i <? count then
    match src with
    | [] => Ub
    | c :: src' =>
        if c =? NUL then stop
        else match dst with
             | [] => Ub
             | _ :: dst' => d ← strncpy_loop dst' src' (i + 1) count; mret (c :: d)
             end
    end
  else stop.

Definition strncpy (dst src : list Z) (count : Z) : res (list Z) := strncpy_loop dst src 0 count.

Definition strcpy (dst src : list Z) : res (list Z) := strncpy dst src (u64 (Z.lnot 0)).

Fixpoint strlen_loop (str : list Z) (i : Z) : res Z :=
  match str with
  | [] => Ub
  | c :: str' => if c =? NUL then Ok i else strlen_loop str' (u32 (i + 1))
  end.

Definition strlen (str : list Z) : res Z := strlen_loop str 0.

(** ** Numbers *)

Definition between (lo c hi : Z) : bool := (lo <=? c) && (c <=? hi).

Fixpoint hstr_loop (hstr : list Z) (n : nat) (ret : Z) {struct n} : res Z :=
  match n with
  | O => Ok ret
  | S n' =>
      match hstr with
      | [] => Ub
      | c :: hstr' =>
          let ret := u32 (Z.shiftl ret 4) in
          if between 48 c 57 then hstr_loop hstr' n' (u32 (ret + (c - 48)))
          else if between 65 c 70 then hstr_loop hstr' n' (u32 (ret + (c - 65 + 10)))
          else if between 97 c 102 then hstr_loop hstr' n' (u32 (ret + (c - 97 + 10)))
          else Ok 0
      end
  end.

Definition hstr2u32 (hstr : list Z) (size : Z) : res Z := hstr_loop hstr (Z.to_nat size) 0.

Fixpoint str_loop (str : list Z) (n : nat) (ret : Z) {struct n} : res Z :=
  match n with
  | O => Ok ret
  | S n' =>
      match str with
      | [] => Ub
      | c :: str' =>
          let ret := u32 (ret * 10) in
          if between 48 c 57 then str_loop str' n' (u32 (ret + (c - 48))) else Ok 0
      end
  end.

Definition str2u32 (str : list Z) (size : Z) : res Z := str_loop str (Z.to_nat size) 0.

(** The bytes of a 32-bit word in memory, least significant first. *)
Definition bytes_of_u32 (num : Z) : list Z :=
  (λ i, Z.land (Z.shiftr num (8 * i)) 255) <$> [0; 1; 2; 3].

Definition big2host (num : Z) : Z :=
  fold_left (λ ret b, u32 (u32 (Z.shiftl ret 8) + b)) (bytes_of_u32 num) 0.

(** ** strtok_r *)

Record strtok_ctx := mk_strtok {
  strtok_str : list Z;
  strtok_idx : Z;
  strtok_len : Z;
}.

(** The inner loop compares with the terminator of [delim] too. *)
Definition is_delim (delim : list Z) (c : Z) : res bool :=
  n ← strlen delim;
  mret (existsb (Z.eqb c) (take (S (Z.to_nat n)) delim)).

(** The outer loop: [n] cells remain.  A token is the index of its first
    character in [strtok_str]. *)
Fixpoint strtok_scan (n : nat) (i : Z) (delim : list Z) (ctx : strtok_ctx) : res (option Z * strtok_ctx) :=
  match n with
  | O => mret (None, ctx)
  | S n' =>
      c ← ptr_get (strtok_str ctx !! Z.to_nat i);
      m ← is_delim delim c;
      if (m : bool) then
        mret (Some (strtok_idx ctx), mk_strtok (<[Z.to_nat i := NUL]> (strtok_str ctx)) (i + 1) (strtok_len ctx))
      else strtok_scan n' (i + 1) delim ctx
  end.

(** [fresh] is what [malloc] returns for the context: NULL, or a block with
    arbitrary contents. *)
Definition strtok_r (fresh : option strtok_ctx) (str : option (list Z)) (delim : list Z)
    (ctx : option strtok_ctx) : res (option Z * option strtok_ctx) :=
  ctx ← match str with
        | Some str =>
            match fresh with
            | None => mret None
            | Some c =>
                d ← strcpy (strtok_str c) str;
                n ← strlen str;
                mret (Some (mk_strtok d 0 (i32 (u32 (n + 1)))))
            end
        | None => c ← ptr_get ctx; mret (Some c)
        end;
  match ctx with
  | None => mret (None, None)
  | Some c =>
      '(t, c) ← strtok_scan (Z.to_nat (strtok_len c - strtok_idx c)) (strtok_idx c) delim c;
      mret (t, Some c)
  end.

(** The string a token points to. *)
Definition token_str (ctx : strtok_ctx) (t : Z) : list Z := drop (Z.to_nat t) (strtok_str ctx).
