(* ===== verification/StrThm.v ===== *)
(** * Strings: theorems

    Comparison is the lexicographic order, copying is bounded by the
    destination, numbers parse back to what was printed, and [strtok_r] cuts
    a string at every delimiter. *)

From S2P Require Import Prelude Str.

(** ** Comparison and copying *)

(** Lexicographic comparison; a proper prefix is smaller. *)
Fixpoint lexcmp (a b : list Z) : Z :=
  match a, b with
  | [], [] => 0
  | [], _ :: _ => -1
  | _ :: _, [] => 1
  | x :: a', y :: b' => if x <? y then -1 else if y <? x then 1 else lexcmp a' b'
  end.

Definition text (s : list Z) : Prop := Forall (λ c, 0 < c < 256) s.

Lemma lexcmp_eq a b : lexcmp a b = 0 ↔ a = b.
Proof.
  revert b. induction a as [|x a IH]; intros [|y b]; simpl; try (split; done).
  destruct (Z.ltb_spec x y); [split; [done|intros [= -> ->]; lia]|].
  destruct (Z.ltb_spec y x); [split; [done|intros [= -> ->]; lia]|].
  assert (x = y) as -> by lia. rewrite IH. naive_solver.
Qed.

Lemma strncmp_loop_lex a b x y i n :
  text a → text b →
  strncmp_loop (a ++ NUL :: x) (b ++ NUL :: y) i (i + Z.of_nat n) = Ok (lexcmp (take n a) (take n b)).
Proof.
  intros Ha. revert b i n. induction Ha as [|c a Hc Ha IH]; intros b i n Hb;
    destruct n as [|n]; cbn [strncmp_loop app].
  - destruct (Z.ltb_spec i (i + Z.of_nat 0)); [lia|]. done.
  - destruct (Z.ltb_spec i (i + Z.of_nat (S n))); [|lia].
    destruct Hb as [|d b Hd Hb]; simpl; [done|]. destruct (Z.ltb_spec NUL d); [done|]. unfold NUL in *. lia.
  - destruct (Z.ltb_spec i (i + Z.of_nat 0)); [lia|]. done.
  - destruct (Z.ltb_spec i (i + Z.of_nat (S n))); [|lia].
    destruct Hb as [|d b Hd Hb]; simpl.
    + unfold NUL. destruct (Z.ltb_spec c 0); [lia|]. by destruct (Z.ltb_spec 0 c); [|lia].
    + destruct (Z.ltb_spec c d); [done|]. destruct (Z.ltb_spec d c); [done|].
      unfold NUL at 1. destruct (Z.eqb_spec c 0); [lia|]. simpl.
      replace (i + Z.of_nat (S n)) with (i + 1 + Z.of_nat n) by lia. by apply IH.
Qed.

Lemma strncmp_lex a b x y n :
  text a → text b → 0 ≤ n →
  strncmp (a ++ NUL :: x) (b ++ NUL :: y) n = Ok (lexcmp (take (Z.to_nat n) a) (take (Z.to_nat n) b)).
Proof.
  intros Ha Hb Hn. unfold strncmp. rewrite <- (strncmp_loop_lex a b x y 0 (Z.to_nat n)) by done.
  f_equal. lia.
Qed.

Lemma strcmp_lex a b x y :
  text a → text b → Z.of_nat (length a) < 2 ^ 64 → Z.of_nat (length b) < 2 ^ 64 →
  strcmp (a ++ NUL :: x) (b ++ NUL :: y) = Ok (lexcmp a b).
Proof.
  intros Ha Hb La Lb. unfold strcmp. rewrite strncmp_lex by (done || apply u64_range).
  assert (E : u64 (Z.lnot 0) = 2 ^ 64 - 1) by done.
  by rewrite E, !take_ge by lia.
Qed.

Lemma strncpy_loop_run d s x i n :
  text s →
  strncpy_loop d (s ++ NUL :: x) i (i + Z.of_nat n) =
    if decide (length (take n s) < length d)%nat
    then Ok (take n s ++ NUL :: drop (S (length (take n s))) d) else Ub.
Proof.
  intros Hs. revert d i n. induction Hs as [|c s Hc Hs IH]; intros d i n.
  - cbn [strncpy_loop app]. rewrite take_nil.
    destruct (i <? _), d; done.
  - destruct n as [|n]; cbn [strncpy_loop app].
    + destruct (Z.ltb_spec i (i + Z.of_nat 0)); [lia|].
      by destruct d.
    + destruct (Z.ltb_spec i (i + Z.of_nat (S n))); [|lia].
      unfold NUL at 1. destruct (Z.eqb_spec c 0); [lia|].
      destruct d as [|e d]; [done|].
      replace (i + Z.of_nat (S n)) with (i + 1 + Z.of_nat n) by lia. rewrite IH.
      simpl. repeat case_decide; try lia; done.
Qed.

Lemma strncpy_run d s x n :
  text s → 0 ≤ n →
  strncpy d (s ++ NUL :: x) n =
    let t := take (Z.to_nat n) s in
    if decide (length t < length d)%nat then Ok (t ++ NUL :: drop (S (length t)) d) else Ub.
Proof.
  intros Hs Hn. unfold strncpy. cbv zeta. rewrite <- (strncpy_loop_run d s x 0) by done. f_equal. lia.
Qed.

Lemma strcpy_run d s x :
  text s → (length s < length d)%nat → Z.of_nat (length s) < 2 ^ 64 →
  strcpy d (s ++ NUL :: x) = Ok (s ++ NUL :: drop (S (length s)) d).
Proof.
  intros Hs Hd Hl. unfold strcpy. rewrite strncpy_run by (done || apply u64_range). cbv zeta.
  assert (E : u64 (Z.lnot 0) = 2 ^ 64 - 1) by done. rewrite E, take_ge by lia. by case_decide; [|lia].
Qed.

Lemma strlen_loop_run s x i :
  text s → 0 ≤ i → i + Z.of_nat (length s) < 2 ^ 32 → strlen_loop (s ++ NUL :: x) i = Ok (i + Z.of_nat (length s)).
Proof.
  intros Hs. revert i. induction Hs as [|c s Hc Hs IH]; intros i Hi Hl; simpl.
  - f_equal. lia.
  - simpl in Hl. unfold NUL at 1. destruct (Z.eqb_spec c 0); [lia|].
    unfold u32. rewrite Z.mod_small by lia. rewrite IH by lia. f_equal. lia.
Qed.

Lemma strlen_run s x : text s → Z.of_nat (length s) < 2 ^ 32 → strlen (s ++ NUL :: x) = Ok (Z.of_nat (length s)).
Proof. intros. unfold strlen. by rewrite strlen_loop_run. Qed.

(** ** Numbers *)

(** Value of a list of digits, most significant first. *)
Definition value (b : Z) (ds : list Z) : Z := fold_left (λ v d, v * b + d) ds 0.

Definition dec_digit (d : Z) : Z := 48 + d.
Definition hex_digit (d : Z) : Z := if d <? 10 then 48 + d else 55 + d.

Lemma fold_u32 b ds v :
  fold_left (λ v d, u32 (u32 (v * b) + d)) ds (u32 v) = u32 (fold_left (λ v d, v * b + d) ds v).
Proof.
  revert v. induction ds as [|d ds IH]; intros v; simpl; [done|]. rewrite <- IH. f_equal.
  unfold u32. by rewrite Zplus_mod_idemp_l, Zplus_mod, Zmult_mod_idemp_l, <- Zplus_mod.
Qed.

Lemma between_spec lo c hi : between lo c hi = true ↔ lo ≤ c ≤ hi.
Proof. unfold between. lia. Qed.

Lemma str_loop_digits ds x v :
  Forall (λ d, 0 ≤ d < 10) ds →
  str_loop ((dec_digit <$> ds) ++ x) (length ds) v = Ok (fold_left (λ v d, u32 (u32 (v * 10) + d)) ds v).
Proof.
  intros H. revert v. induction H as [|d ds Hd H IH]; intros v; [done|].
  cbn [fmap list_fmap app length str_loop fold_left].
  replace (between 48 (dec_digit d) 57) with true by (symmetry; apply between_spec; unfold dec_digit; lia).
  replace (dec_digit d - 48) with d by (unfold dec_digit; lia). apply IH.
Qed.

Lemma hstr_loop_digits ds x v :
  Forall (λ d, 0 ≤ d < 16) ds →
  hstr_loop ((hex_digit <$> ds) ++ x) (length ds) v = Ok (fold_left (λ v d, u32 (u32 (v * 16) + d)) ds v).
Proof.
  intros H. revert v. induction H as [|d ds Hd H IH]; intros v; [done|].
  cbn [fmap list_fmap app length hstr_loop fold_left].
  rewrite Z.shiftl_mul_pow2 by lia. change (2 ^ 4) with 16.
  assert (Hc : between 48 (hex_digit d) 57 = true ∧ hex_digit d - 48 = d ∨
    between 48 (hex_digit d) 57 = false ∧ between 65 (hex_digit d) 70 = true ∧ hex_digit d - 65 + 10 = d).
  { unfold hex_digit, between. destruct (Z.ltb_spec d 10); lia. }
  destruct Hc as [[-> ->]|(-> & -> & ->)]; apply IH.
Qed.

Lemma str_loop_bad p c x n v :
  Forall (λ d, 48 ≤ d ≤ 57) p → ¬ 48 ≤ c ≤ 57 → (length p < n)%nat → str_loop (p ++ c :: x) n v = Ok 0.
Proof.
  intros Hp Hc. revert n v. induction Hp as [|d p Hd Hp IH]; intros [|n] v Hn; simpl in *; try lia.
  - replace (between 48 c 57) with false; [done|]. symmetry. apply not_true_iff_false. by rewrite between_spec.
  - replace (between 48 d 57) with true by (symmetry; apply between_spec; lia). apply IH. lia.
Qed.

(** The hexadecimal digits of a number, most significant first. *)
Fixpoint to_hex (n : nat) (v : Z) : list Z :=
  match n with O => [] | S n' => to_hex n' (v / 16) ++ [v mod 16] end.

Lemma to_hex_length n v : length (to_hex n v) = n.
Proof. revert v. induction n; intros v; simpl; [done|]. rewrite length_app, IHn. simpl. lia. Qed.

Lemma to_hex_digits n v : Forall (λ d, 0 ≤ d < 16) (to_hex n v).
Proof.
  revert v. induction n as [|n IH]; intros v; simpl; [constructor|].
  apply Forall_app. split; [apply IH|]. constructor; [|constructor]. apply Z.mod_pos_bound. lia.
Qed.

Lemma to_hex_value n v : 0 ≤ v < 16 ^ Z.of_nat n → value 16 (to_hex n v) = v.
Proof.
  unfold value. revert v. induction n as [|n IH]; intros v Hv; simpl.
  - simpl in Hv. lia.
  - rewrite fold_left_app. simpl. rewrite IH.
    + pose proof (Z.div_mod v 16 ltac:(lia)). lia.
    + rewrite Nat2Z.inj_succ, Z.pow_succ_r in Hv by lia. split; [apply Z.div_pos; lia|].
      apply Z.div_lt_upper_bound; lia.
Qed.

(** ** Tokens *)

(** The first token of [s] and what is behind its delimiter. *)
Fixpoint cut (p : Z → bool) (s : list Z) : list Z * option (list Z) :=
  match s with
  | [] => ([], None)
  | c :: s' => if p c then ([], Some s') else let '(t, r) := cut p s' in (c :: t, r)
  end.

(** All tokens: a string with [n] delimiters has [n + 1] of them. *)
Fixpoint split_by (p : Z → bool) (s : list Z) : list (list Z) :=
  match s with
  | [] => [[]]
  | c :: s' =>
      if p c then [] :: split_by p s'
      else match split_by p s' with t :: ts => (c :: t) :: ts | [] => [] end
  end.

Lemma split_by_cut p s :
  split_by p s = (cut p s).1 :: match (cut p s).2 with Some s' => split_by p s' | None => [] end.
Proof.
  induction s as [|c s IH]; simpl; [done|]. destruct (p c); [done|]. rewrite IH. by destruct (cut p s).
Qed.

Lemma cut_spec p s t r :
  cut p s = (t, r) → Forall (λ c, p c = false) t ∧
  match r with None => s = t | Some s' => ∃ d, p d = true ∧ s = t ++ d :: s' end.
Proof.
  revert t r. induction s as [|c s IH]; intros t r; simpl; [by intros [= <- <-]|].
  destruct (p c) eqn:E; [intros [= <- <-]; split; [constructor|by exists c]|].
  destruct (cut p s) as [t' r'] eqn:Ec. intros [= <- <-]. destruct (IH _ _ eq_refl) as [Ht Hr].
  split; [by constructor|]. destruct r' as [s'|]; [|by f_equal]. destruct Hr as (d & Hd & ->). by exists d.
Qed.

(** The C string at index [i] of the context's buffer is [t]. *)
Definition cstr_at (c : strtok_ctx) (i : Z) (t : list Z) : Prop :=
  0 ≤ i ∧ text t ∧ ∃ x, token_str c i = t ++ NUL :: x.

(** What is left to cut. *)
Definition ctx_at (c : strtok_ctx) (r : option (list Z)) : Prop :=
  0 ≤ strtok_idx c ∧
  match r with
  | Some s => cstr_at c (strtok_idx c) s ∧ strtok_len c = strtok_idx c + Z.of_nat (length s) + 1
  | None => strtok_len c ≤ strtok_idx c
  end.

Definition in_set (d : list Z) (c : Z) : bool := bool_decide (c ∈ d).

Lemma is_delim_run d c : text d → Z.of_nat (length d) < 2 ^ 32 → is_delim (d ++ [NUL]) c = Ok (in_set (NUL :: d) c).
Proof.
  intros Hd Hl. unfold is_delim. rewrite strlen_run by done. cbn [mbind res_bind].
  rewrite Nat2Z.id, take_ge by (rewrite length_app; simpl; lia). unfold mret, res_ret. f_equal.
  apply eq_bool_prop_intro. unfold in_set. rewrite !Is_true_true, bool_decide_eq_true, existsb_exists, elem_of_cons.
  split.
  - intros (y & Hy & ->%Z.eqb_eq). apply list_elem_of_In in Hy. set_solver.
  - intros Hc. exists c. rewrite Z.eqb_refl. split; [|done]. apply list_elem_of_In. set_solver.
Qed.

Lemma scan_step n d i a x c :
  text d → Z.of_nat (length d) < 2 ^ 32 → drop (Z.to_nat i) (strtok_str c) = a :: x →
  strtok_scan (S n) i (d ++ [NUL]) c =
    if in_set (NUL :: d) a
    then Ok (Some (strtok_idx c), mk_strtok (<[Z.to_nat i := NUL]> (strtok_str c)) (i + 1) (strtok_len c))
    else strtok_scan n (i + 1) (d ++ [NUL]) c.
Proof.
  intros Hd Hl Hx. simpl.
  assert (Hc : strtok_str c !! Z.to_nat i = Some a) by (rewrite <- (Nat.add_0_r (Z.to_nat i)), <- lookup_drop; by rewrite Hx).
  rewrite Hc. simpl. by rewrite is_delim_run.
Qed.

Lemma scan_run d s x i c :
  text d → Z.of_nat (length d) < 2 ^ 32 → text s → 0 ≤ i → drop (Z.to_nat i) (strtok_str c) = s ++ NUL :: x →
  let t := (cut (in_set d) s).1 in let e := i + Z.of_nat (length t) in
  strtok_scan (S (length s)) i (d ++ [NUL]) c =
    Ok (Some (strtok_idx c), mk_strtok (<[Z.to_nat e := NUL]> (strtok_str c)) (e + 1) (strtok_len c)).
Proof.
  intros Hd Hl Hs. revert i. induction Hs as [|a s Ha Hs IH]; intros i Hi Hx; cbv zeta.
  - rewrite (scan_step _ _ _ NUL x) by done. unfold in_set at 1. rewrite bool_decide_true by set_solver.
    simpl. by rewrite Z.add_0_r.
  - rewrite (scan_step _ _ _ a (s ++ NUL :: x)) by done.
    assert (E : in_set (NUL :: d) a = in_set d a).
    { unfold in_set. apply bool_decide_ext. rewrite elem_of_cons. unfold NUL. split; [intros [->|]; [lia|done]|by right]. }
    rewrite E. cbn [cut]. destruct (in_set d a); [simpl; by rewrite Z.add_0_r|].
    assert (Hx' : drop (Z.to_nat (i + 1)) (strtok_str c) = s ++ NUL :: x).
    { replace (Z.to_nat (i + 1)) with (Z.to_nat i + 1)%nat by lia. by rewrite <- drop_drop, Hx. }
    cbn [length]. rewrite (IH (i + 1) ltac:(lia) Hx').
    destruct (cut (in_set d) s) as [t r]. simpl. by replace (i + Z.of_nat (S (length t))) with (i + 1 + Z.of_nat (length t)) by lia.
Qed.

Lemma drop_insert_at {A} i k (l : list A) y : drop i (<[(i + k)%nat := y]> l) = <[k := y]> (drop i l).
Proof. revert l. induction i as [|i IH]; intros [|a l]; try done; simpl. apply IH. Qed.

(** Cutting off one token. *)
Lemma strtok_next d s c fresh :
  text d → Z.of_nat (length d) < 2 ^ 32 → ctx_at c (Some s) →
  ∃ c', strtok_r fresh None (d ++ [NUL]) (Some c) = Ok (Some (strtok_idx c), Some c') ∧
    ctx_at c' (cut (in_set d) s).2 ∧ cstr_at c' (strtok_idx c) (cut (in_set d) s).1 ∧
    length (strtok_str c') = length (strtok_str c) ∧
    strtok_idx c + Z.of_nat (length (cut (in_set d) s).1) < strtok_idx c' ∧
    ∀ i t, cstr_at c i t → i + Z.of_nat (length t) < strtok_idx c → cstr_at c' i t.
Proof.
  intros Hd Hl (Hi & (_ & Hs & x & Hx) & Hlen).
  destruct (cut (in_set d) s) as [t r] eqn:Hcut. destruct (cut_spec _ _ _ _ Hcut) as [_ Hr].
  assert (Hrun := scan_run d s x _ c Hd Hl Hs Hi Hx). cbv zeta in Hrun. rewrite Hcut in Hrun. cbn [fst] in Hrun.
  unfold strtok_r. cbn [mbind res_bind ptr_get mret res_ret].
  replace (Z.to_nat (strtok_len c - strtok_idx c)) with (S (length s)) by lia.
  rewrite Hrun. eexists. split; [done|]. cbn [fst snd strtok_idx strtok_len strtok_str].
  set (k := strtok_idx c) in *. set (str' := <[_ := _]> _).
  assert (Hdrop : drop (Z.to_nat k) str' = <[length t := NUL]> (s ++ NUL :: x)).
  { unfold str'. rewrite <- Hx. unfold token_str. rewrite <- drop_insert_at. do 2 f_equal. lia. }
  assert (Htx : text t ∧ ∃ y, drop (Z.to_nat k) str' = t ++ NUL :: y).
  { rewrite Hdrop. destruct r as [s'|].
    - destruct Hr as (e & _ & ->). apply Forall_app in Hs as [Ht _]. split; [done|]. exists (s' ++ NUL :: x).
      rewrite <- app_assoc. by rewrite insert_app_r_alt, Nat.sub_diag by lia.
    - subst s. split; [done|]. exists x. by rewrite insert_app_r_alt, Nat.sub_diag by lia. }
  split_and!.
  - split; [simpl; lia|]. destruct r as [s'|]; simpl.
    + destruct Hr as (e & _ & ->). apply Forall_app in Hs as [_ Hs]. inversion_clear Hs as [|? ? _ Hs'].
      rewrite length_app in Hlen. simpl in Hlen. split; [|lia]. split; [lia|]. split; [done|]. exists x.
      unfold token_str. simpl. replace (Z.to_nat (k + Z.of_nat (length t) + 1)) with (Z.to_nat k + S (length t))%nat by lia.
      rewrite <- drop_drop, Hdrop, <- app_assoc, insert_app_r_alt, Nat.sub_diag by lia. simpl.
      rewrite cons_middle, app_assoc, drop_app_length'; [done|]. rewrite length_app. simpl. lia.
    + subst s. lia.
  - split; [done|]. exact Htx.
  - apply length_insert.
  - lia.
  - intros i u (Hi0 & Hu & y & Hy) Hlt. split; [done|]. split; [done|]. unfold token_str in *. simpl.
    exists (<[Z.to_nat (k + Z.of_nat (length t)) - Z.to_nat i - S (length u) := NUL]> y)%nat. unfold str'.
    replace (Z.to_nat (k + Z.of_nat (length t))) with (Z.to_nat i + (Z.to_nat (k + Z.of_nat (length t)) - Z.to_nat i))%nat at 1 by lia.
    rewrite drop_insert_at, Hy, insert_app_r_alt by lia. f_equal.
    destruct (_ - _ - length u)%nat as [|n] eqn:En; [lia|]. simpl. f_equal. f_equal. lia.
Qed.

Lemma strtok_end d c fresh :
  ctx_at c None → strtok_r fresh None d (Some c) = Ok (None, Some c).
Proof.
  intros [_ Hl]. unfold strtok_r. cbn [mbind res_bind ptr_get mret res_ret].
  by replace (Z.to_nat (strtok_len c - strtok_idx c)) with O by lia.
Qed.

(** The first call copies the string. *)
Lemma strtok_first f s y d ctx :
  text s → (length s < length (strtok_str f))%nat → Z.of_nat (length (strtok_str f)) < 2 ^ 31 →
  ∃ c, ctx_at c (Some s) ∧ length (strtok_str c) = length (strtok_str f) ∧ strtok_idx c = 0 ∧
    strtok_r (Some f) (Some (s ++ NUL :: y)) d ctx = strtok_r None None d (Some c).
Proof.
  intros Hs Hl Hb. exists (mk_strtok (s ++ NUL :: drop (S (length s)) (strtok_str f)) 0 (Z.of_nat (length s) + 1)).
  split_and!; simpl.
  - split; [simpl; lia|]. split; [|simpl; lia]. split; [simpl; lia|]. split; [done|]. by eexists.
  - rewrite length_app. simpl. rewrite length_drop. lia.
  - done.
  - unfold strtok_r at 1. rewrite strcpy_run, strlen_run by (done || lia). cbn [mbind res_bind ptr_get].
    unfold u32. rewrite Z.mod_small by lia. by rewrite i32_small by lia.
Qed.

(** Calling [strtok_r] with a NULL string until it returns NULL: all tokens
    and the context at the end. *)
Fixpoint tokens_from (n : nat) (delim : list Z) (r : res (option Z * option strtok_ctx)) : res (list Z * option strtok_ctx) :=
  match n with
  | O => Spin
  | S n' =>
      '(t, ctx) ← r;
      match t with
      | None => mret ([], ctx)
      | Some i => '(l, ctx) ← tokens_from n' delim (strtok_r None None delim ctx); mret (i :: l, ctx)
      end
  end.

Lemma tokens_run d n c r :
  text d → Z.of_nat (length d) < 2 ^ 32 → ctx_at c r →
  (match r with Some s => length s + 2 | None => 1 end ≤ n)%nat →
  ∃ ps c', tokens_from n (d ++ [NUL]) (strtok_r None None (d ++ [NUL]) (Some c)) = Ok (ps, Some c') ∧
    Forall2 (cstr_at c') ps match r with Some s => split_by (in_set d) s | None => [] end ∧
    ∀ i t, cstr_at c i t → i + Z.of_nat (length t) < strtok_idx c → cstr_at c' i t.
Proof.
  intros Hd Hl. revert c r. induction n as [|n IH]; intros c r Hc Hn; [destruct r; lia|].
  destruct r as [s|].
  - destruct (strtok_next d s c None Hd Hl Hc) as (c' & -> & Hc' & Ht & _ & Hlt & Hold).
    destruct (cut (in_set d) s) as [t r] eqn:Hcut. cbn [fst snd] in *.
    destruct (IH c' r Hc') as (ps & c'' & Hrun & His & Hold').
    { destruct (cut_spec _ _ _ _ Hcut) as [_ Hr]. destruct r as [s'|]; [|lia].
      destruct Hr as (e & _ & ->). rewrite length_app in Hn. simpl in Hn. lia. }
    exists (strtok_idx c :: ps), c''. cbn [tokens_from mbind res_bind]. rewrite Hrun. split; [done|].
    rewrite split_by_cut, Hcut. split; [|intros; apply Hold'; [by apply Hold|lia]].
    constructor; [by apply Hold'|exact His].
  - exists [], c. rewrite strtok_end by done. split; [done|]. split; [constructor|done].
Qed.

(** [strncmp] is the lexicographic comparison of the first [n] characters of
    two strings, whatever is behind their terminators, and [strcmp] that of
    the whole strings; it returns 0 exactly for equal strings. *)
Theorem strncmp_correct a b x y n :
  text a → text b → 0 ≤ n → Z.of_nat (length a) < 2 ^ 31 → Z.of_nat (length b) < 2 ^ 31 →
  strncmp (a ++ NUL :: x) (b ++ NUL :: y) n = Ok (lexcmp (take (Z.to_nat n) a) (take (Z.to_nat n) b)) ∧
  strcmp (a ++ NUL :: x) (b ++ NUL :: y) = Ok (lexcmp a b) ∧
  (strcmp (a ++ NUL :: x) (b ++ NUL :: y) = Ok 0 ↔ a = b).
Proof.
  intros Ha Hb Hn La Lb. rewrite strncmp_lex, strcmp_lex by (done || lia). split; [done|]. split; [done|].
  rewrite <- lexcmp_eq. split; [by intros [=]|by intros ->].
Qed.

(** [strncpy] copies at most [n] characters and always writes a terminator
    behind them, keeping the rest of the destination; it needs room for the
    terminator even when the count is the size of the destination, and
    otherwise writes outside the array. *)
Theorem strncpy_correct d s x n :
  text s → 0 ≤ n →
  let t := take (Z.to_nat n) s in
  strncpy d (s ++ NUL :: x) n =
    if decide (length t < length d)%nat then Ok (t ++ NUL :: drop (S (length t)) d) else Ub.
Proof. intros. by apply strncpy_run. Qed.

Lemma hex_parse v x : 0 ≤ v < 2 ^ 32 → hstr2u32 ((hex_digit <$> to_hex 8 v) ++ x) 8 = Ok v.
Proof.
  intros Hv. unfold hstr2u32. change (Z.to_nat 8) with 8%nat. rewrite <- (to_hex_length 8 v) at 2.
  rewrite hstr_loop_digits by apply to_hex_digits. change 0 with (u32 0). rewrite fold_u32.
  f_equal. change (u32 (value 16 (to_hex 8 v)) = v). rewrite to_hex_value by (simpl; lia).
  unfold u32. rewrite Z.mod_small; lia.
Qed.

(** Parsing numbers: [hstr2u32] reads back every 32-bit number from its eight
    hexadecimal digits; [str2u32] of decimal digits is their value modulo
    2^32, and 0 when some character is not a digit. *)
Theorem numbers_parse v ds bad x :
  0 ≤ v < 2 ^ 32 → Forall (λ d, 0 ≤ d < 10) ds → ¬ 48 ≤ bad ≤ 57 →
  hstr2u32 ((hex_digit <$> to_hex 8 v) ++ x) 8 = Ok v ∧
  str2u32 ((dec_digit <$> ds) ++ x) (Z.of_nat (length ds)) = Ok (u32 (value 10 ds)) ∧
  ∀ n, Z.of_nat (length ds) < n → str2u32 ((dec_digit <$> ds) ++ bad :: x) n = Ok 0.
Proof.
  intros Hv Hds Hbad. split_and!.
  - by apply hex_parse.
  - unfold str2u32. rewrite Nat2Z.id, str_loop_digits by done. change 0 with (u32 0). by rewrite fold_u32.
  - intros n Hn. unfold str2u32. apply str_loop_bad; [|done|rewrite length_fmap; lia].
    apply Forall_fmap. eapply Forall_impl; [exact Hds|]. intros d Hd. unfold compose, dec_digit. simpl in *. lia.
Qed.

Lemma word_bytes a b c d : 0 ≤ a < 256 → 0 ≤ b < 256 → 0 ≤ c < 256 → 0 ≤ d < 256 →
  bytes_of_u32 (a + 256 * b + 65536 * c + 16777216 * d) = [a; b; c; d] ∧
  big2host (a + 256 * b + 65536 * c + 16777216 * d) = d + 256 * c + 65536 * b + 16777216 * a.
Proof.
  intros Ha Hb Hc Hd.
  assert (Hby : bytes_of_u32 (a + 256 * b + 65536 * c + 16777216 * d) = [a; b; c; d]).
  { unfold bytes_of_u32. cbn [fmap list_fmap]. rewrite !Z.shiftr_div_pow2 by lia.
    change 255 with (Z.ones 8). rewrite !Z.land_ones by lia.
    change (2 ^ (8 * 0)) with 1. change (2 ^ (8 * 1)) with 256. change (2 ^ (8 * 2)) with 65536.
    change (2 ^ (8 * 3)) with 16777216. change (2 ^ 8) with 256. rewrite Z.div_1_r.
    assert (D1 : (a + 256 * b + 65536 * c + 16777216 * d) / 256 = b + 256 * c + 65536 * d)
      by (symmetry; apply (Z.div_unique _ _ _ a); lia).
    assert (D2 : (a + 256 * b + 65536 * c + 16777216 * d) / 65536 = c + 256 * d)
      by (symmetry; apply (Z.div_unique _ _ _ (a + 256 * b)); lia).
    assert (D3 : (a + 256 * b + 65536 * c + 16777216 * d) / 16777216 = d)
      by (symmetry; apply (Z.div_unique _ _ _ (a + 256 * b + 65536 * c)); lia).
    rewrite D1, D2, D3. f_equal; [|f_equal; [|f_equal; [|f_equal]]]; symmetry.
    - apply (Z.mod_unique _ _ (b + 256 * c + 65536 * d)); lia.
    - apply (Z.mod_unique _ _ (c + 256 * d)); lia.
    - apply (Z.mod_unique _ _ d); lia.
    - apply (Z.mod_unique _ _ 0); lia. }
  split; [done|]. unfold big2host. rewrite Hby.
  transitivity (fold_left (λ v d, u32 (u32 (v * 256) + d)) [a; b; c; d] (u32 0)); [cbn [fold_left]|].
  - by rewrite !Z.shiftl_mul_pow2 by lia.
  - rewrite fold_u32. cbn [fold_left]. unfold u32. rewrite Z.mod_small; lia.
Qed.

(** [big2host] reverses the bytes of a word, so doing it twice is the
    identity. *)
Theorem big2host_involutive v : 0 ≤ v < 2 ^ 32 → bytes_of_u32 (big2host v) = rev (bytes_of_u32 v) ∧ big2host (big2host v) = v.
Proof.
  intros Hv. pose proof word_bytes as E.
  assert (Ev : v = v mod 256 + 256 * (v / 256 mod 256) + 65536 * (v / 65536 mod 256) + 16777216 * (v / 16777216)).
  { pose proof (Z.div_mod v 256). pose proof (Z.div_mod (v / 256) 256). pose proof (Z.div_mod (v / 65536) 256).
    rewrite !Z.div_div in * by lia. change (256 * 256) with 65536 in *. change (65536 * 256) with 16777216 in *. lia. }
  destruct (E (v mod 256) (v / 256 mod 256) (v / 65536 mod 256) (v / 16777216)) as [E1 E2];
    try (apply Z.mod_pos_bound; lia); [split; [apply Z.div_pos; lia|apply Z.div_lt_upper_bound; lia]|].
  rewrite <- Ev in E1, E2. rewrite E1, E2.
  destruct (E (v / 16777216) (v / 65536 mod 256) (v / 256 mod 256) (v mod 256)) as [E3 E4];
    try (apply Z.mod_pos_bound; lia); [split; [apply Z.div_pos; lia|apply Z.div_lt_upper_bound; lia]|].
  rewrite E3, E4. done.
Qed.

(** [strtok_r] called until it returns NULL cuts a string of up to 255
    characters at every delimiter: the tokens are the pieces between the
    delimiters, empty ones included, and every token pointer still holds its
    piece after the last call. *)
Theorem strtok_r_splits f s d ctx y :
  text s → text d → (length s < length (strtok_str f))%nat → length (strtok_str f) = Z.to_nat STRLEN →
  Z.of_nat (length d) < 2 ^ 32 →
  ∃ ps c, tokens_from (length s + 2) (d ++ [NUL]) (strtok_r (Some f) (Some (s ++ NUL :: y)) (d ++ [NUL]) ctx) = Ok (ps, Some c) ∧
    Forall2 (cstr_at c) ps (split_by (in_set d) s).
Proof.
  intros Hs Hd Hf Hlen Hl. destruct (strtok_first f s y (d ++ [NUL]) ctx) as (c & Hc & _ & _ & ->); [done|done|rewrite Hlen; done|].
  destruct (tokens_run d (length s + 2) c (Some s)) as (ps & c' & ? & ? & _); naive_solver.
Qed.

Definition fresh0 : strtok_ctx := mk_strtok (replicate 256 7) 0 0.

Lemma text_chars s : forallb (λ c, (0 <? c) && (c <? 256)) s = true → text s.
Proof. intros H. apply Forall_forall. intros c Hc. rewrite forallb_forall in H. apply list_elem_of_In, H in Hc. lia. Qed.

Lemma strncmp_correct_witness :
  strcmp (lit "tmpfs") (lit "tmp") = Ok 1 ∧ strncmp (lit "tmpfs") (lit "tmp") 3 = Ok 0.
Proof.
  destruct (strncmp_correct (chars "tmpfs") (chars "tmp") [] [] 3) as (H1 & H2 & _);
    [by apply text_chars|by apply text_chars|lia|done|done|].
  split; [exact H2|exact H1].
Defined.

Lemma strncpy_correct_witness :
  strncpy (replicate 4 9) (lit "abc") 2 = Ok (chars "ab" ++ [NUL; 9]) ∧ strncpy (replicate 3 9) (lit "abcd") 3 = Ub.
Proof.
  split.
  - exact (strncpy_correct (replicate 4 9) (chars "abc") [] 2 (text_chars (chars "abc") eq_refl) ltac:(lia)).
  - exact (strncpy_correct (replicate 3 9) (chars "abcd") [] 3 (text_chars (chars "abcd") eq_refl) ltac:(lia)).
Defined.

Lemma numbers_parse_witness : hstr2u32 (chars "0000D431") 8 = Ok 0xd431 ∧ str2u32 (chars "42x") 2 = Ok 42 ∧ str2u32 (chars "42x") 3 = Ok 0.
Proof.
  assert (Hd : Forall (λ d, 0 ≤ d < 10) [4; 2]) by (repeat constructor; lia).
  destruct (numbers_parse 0xd431 [4; 2] 120 [] ltac:(lia) Hd ltac:(lia)) as (H1 & H2 & H3).
  destruct (numbers_parse 0xd431 [4; 2] 120 [120] ltac:(lia) Hd ltac:(lia)) as (_ & H2' & _).
  split; [exact H1|]. split; [exact H2'|]. apply H3. simpl. lia.
Defined.

Lemma strtok_r_splits_witness :
  ∃ ps c, tokens_from 10 (lit "/") (strtok_r (Some fresh0) (Some (lit "/dev/ua/")) (lit "/") None) = Ok (ps, Some c) ∧
    Forall2 (cstr_at c) ps [[]; chars "dev"; chars "ua"; []].
Proof.
  exact (strtok_r_splits fresh0 (chars "/dev/ua/") (chars "/") None [] (text_chars (chars "/dev/ua/") eq_refl)
    (text_chars (chars "/") eq_refl) ltac:(simpl; lia) eq_refl eq_refl).
Defined.
