(* ===== verification/Shell.v ===== *)
(** * The shell (src/kernel/main.c)

    How a line becomes a command, and the commands that try out the
    allocators.  [ctx] is [ctx_shell], the position in the line; the state is
    that of the dynamic allocator.  What [printf] makes of a pointer with %x
    is [hex32]: the lower 32 bits. *)

From S2P Require Import Prelude Cpu Buddy Dynamic Str.

(** ** Commands *)

Inductive command :=
  | Help | Hello | Mailbox | Reboot | Ls | Cat | MemAlloc | LdProg | SetTimeout | PageAlloc | PageFree
  | Malloc | Free | Thread | ForkTest | Ps | Invalid.

#[export] Instance command_eq_dec : EqDecision command.
Proof. solve_decision. Defined.

(** The names in the order of the comparisons. *)
Definition command_names : list (list Z * command) :=
  [(lit "help", Help); (lit "hello", Hello); (lit "mailbox", Mailbox); (lit "reboot", Reboot); (lit "ls", Ls); (lit "cat", Cat);
   (lit "memAlloc", MemAlloc); (lit "ldProg", LdProg); (lit "setTimeout", SetTimeout); (lit "pageAlloc", PageAlloc);
   (lit "pageFree", PageFree); (lit "malloc", Malloc); (lit "free", Free); (lit "thread", Thread); (lit "forkTest", ForkTest);
   (lit "ps", Ps)].

(** The chain of [else if]. *)
Fixpoint dispatch (names : list (list Z * command)) (arg0 : list Z) : res command :=
  match names with
  | [] => Ok Invalid
  | (name, c) :: names' => r ← strcmp name arg0; if r =? 0 then Ok c else dispatch names' arg0
  end.

Definition shell_space : list Z := lit " ".
Definition shell_rest : list Z := lit "".

(** The first word of the line [cmd]; [fresh] is the new context. *)
Definition read_command (fresh : strtok_ctx) (cmd : list Z) : res (command * strtok_ctx) :=
  '(arg0, ctx) ← strtok_r (Some fresh) (Some cmd) shell_space None;
  ctx ← ptr_get ctx;
  arg0 ← ptr_get arg0;
  c ← dispatch command_names (token_str ctx arg0);
  mret (c, ctx).

(** ** Numbers *)

Definition is_hex (str : list Z) : res bool :=
  c0 ← ptr_get (str !! 0%nat);
  if c0 =? 48 then c1 ← ptr_get (str !! 1%nat); mret ((c1 =? 120) || (c1 =? 88)) else mret false.

Definition number_arg (sz : list Z) : res Z :=
  hex ← is_hex sz;
  if (hex : bool) then n ← strlen (drop 2 sz); hstr2u32 (drop 2 sz) n
  else n ← strlen sz; str2u32 sz n.

Definition pointer_arg (str : list Z) : res Z :=
  hex ← is_hex str;
  if (hex : bool) then n ← strlen (drop 2 str); hstr2u32 (drop 2 str) n
  else n ← strlen str; hstr2u32 str n.

(** %x *)
Definition hex_char (d : Z) : Ascii.ascii := Ascii.ascii_of_nat (Z.to_nat (if d <? 10 then 48 + d else 87 + d)).
Fixpoint hex_digits (fuel : nat) (v : Z) (acc : string) : string :=
  match fuel with
  | O => acc
  | S fuel' => let acc := String (hex_char (v mod 16)) acc in if v / 16 =? 0 then acc else hex_digits fuel' (v / 16) acc
  end.
Definition hex32 (v : Z) : string := hex_digits 8 (u32 v) "".

(** ** The allocator commands *)

Definition say_line (msg : string) : M dmem unit := on_mem (on_cpu (printf (msg +:+ crlf))).

(** The rest of the line. *)
Definition rest_arg (ctx : strtok_ctx) : M dmem (option (list Z)) :=
  '(t, c) ← lift (strtok_r None None shell_rest (Some ctx));
  c ← deref c;
  mret (match t with Some t => Some (token_str c t) | None => None end).

Definition mem_alloc (ctx : strtok_ctx) : M dmem unit :=
  sz ← rest_arg ctx;
  match sz with
  | None => say_line "Invalid argument"
  | Some sz =>
      size ← lift (number_arg sz);
      if size =? 0 then say_line "Invalid number"
      else
        data ← on_mem (simple_malloc size);
        match data with
        | Some data => say_line ("Allocator test: The data allocated from the heap is: 0x" +:+ hex32 data)
        | None => mret tt
        end
  end.

Definition page_alloc (ctx : strtok_ctx) : M dmem unit :=
  sz ← rest_arg ctx;
  match sz with
  | None => say_line "Invalid argument"
  | Some sz =>
      size ← lift (number_arg sz);
      if size =? 0 then say_line "Invalid number"
      else
        p ← on_mem (buddy_malloc size);
        let data := p2v_trans_kernel p in
        if negb (data =? 0) then say_line ("Allocator test: The pages allocated are from 0x" +:+ hex32 data) else mret tt
  end.

(** [v2p_trans] on the page tables in force. *)
Definition page_free (v2p_trans : Z → Z) (ctx : strtok_ctx) : M dmem unit :=
  str ← rest_arg ctx;
  match str with
  | None => say_line "Invalid argument"
  | Some str =>
      ptr ← lift (pointer_arg str);
      let ptr := v2p_trans ptr in
      if negb (ptr =? 0) then on_mem (buddy_free ptr) else on_mem (on_cpu (err ("Invalid page" +:+ crlf)))
  end.

Section Commands.
Context (wide : Z → option Z) (fuel : nat).

Definition _malloc (ctx : strtok_ctx) : M dmem unit :=
  sz ← rest_arg ctx;
  match sz with
  | None => say_line "Invalid argument"
  | Some sz =>
      size ← lift (number_arg sz);
      if size =? 0 then say_line "Invalid number"
      else
        data ← malloc wide fuel size;
        if negb (data =? 0) then say_line ("Allocator test: The pages allocated are from 0x" +:+ hex32 data) else mret tt
  end.

Definition _free (ctx : strtok_ctx) : M dmem unit :=
  str ← rest_arg ctx;
  match str with
  | None => say_line "Invalid argument"
  | Some str => ptr ← lift (pointer_arg str); free wide fuel ptr
  end.
End Commands.

(** ** One round of the shell *)

(** What the shell calls of the other components, on a state [S]. *)
Record shell_ops (S : Type) := mk_shell_ops {
  op_printf : string → M S unit;
  op_read_string : M S (list Z);                 (* uart_read_string(cmd, STRLEN) *)
  op_new_ctx : M S strtok_ctx;                   (* the context strtok_r allocates *)
  op_free_ctx : M S unit;
  op_mailbox_info : M S unit;
  op_reset : Z → M S unit;
  op_ls : option (list Z) → M S unit;
  op_cat : option (list Z) → M S Z;
  op_mem_alloc : strtok_ctx → M S unit;
  op_fork : M S Z;
  op_exec : option (list Z) → M S unit;
  op_wait_proc : Z → M S unit;
  op_set_timeout : strtok_ctx → M S Z;
  op_page_alloc : strtok_ctx → M S unit;
  op_page_free : strtok_ctx → M S unit;
  op_malloc : strtok_ctx → M S unit;
  op_free : strtok_ctx → M S unit;
  op_thread_create_foo : M S unit;
  op_fork_test : M S unit;
  op_ps : M S unit;
}.
Arguments op_printf {S}. Arguments op_read_string {S}. Arguments op_new_ctx {S}. Arguments op_free_ctx {S}.
Arguments op_mailbox_info {S}. Arguments op_reset {S}. Arguments op_ls {S}. Arguments op_cat {S}. Arguments op_mem_alloc {S}.
Arguments op_fork {S}. Arguments op_exec {S}. Arguments op_wait_proc {S}. Arguments op_set_timeout {S}. Arguments op_page_alloc {S}.
Arguments op_page_free {S}. Arguments op_malloc {S}. Arguments op_free {S}. Arguments op_thread_create_foo {S}.
Arguments op_fork_test {S}. Arguments op_ps {S}.

Definition help_text : string :=
  "help" +:+ tab +:+ ": print this help menu" +:+ crlf +:+
  "hello" +:+ tab +:+ ": print Hello World!" +:+ crlf +:+
  "mailbox" +:+ tab +:+ ": print hardware's information" +:+ crlf +:+
  "reboot" +:+ tab +:+ ": reboot the device" +:+ crlf +:+
  "ls <dir>" +:+ tab +:+ ": list all the files under <dir>" +:+ crlf +:+
  "cat <filename>" +:+ tab +:+ ": show the content of <filename>" +:+ crlf +:+
  "memAlloc <size>" +:+ tab +:+ ": allocate <size> bytes data using simple allocator" +:+ crlf +:+
  "ldProg <filename>: execute <filename> in the ramdisk" +:+ crlf +:+
  "setTimeout <msg> <time>: print <msg> after <time> seconds" +:+ crlf +:+
  "pageAlloc <num>" +:+ tab +:+ ": allocate <num> pages from pageframe allocator" +:+ crlf +:+
  "pageFree <ptr>" +:+ tab +:+ ": free pages allocated by pageframe allocator from <ptr>" +:+ crlf +:+
  "malloc <size>" +:+ tab +:+ ": allocate <size> bytes data using dynamic allocator" +:+ crlf +:+
  "free <ptr>" +:+ tab +:+ ": free data allocated by dynamic allocator at <ptr>" +:+ crlf +:+
  "thread" +:+ tab +:+ ": test multi-thread" +:+ crlf +:+
  "forkTest" +:+ tab +:+ ": run fork_test (built-in, at EL1)" +:+ crlf +:+
  "ps" +:+ tab +:+ ": check existing process" +:+ crlf.

Section Round.
Context {S : Type} (ops : shell_ops S).

(** [strtok_r(NULL, "", &ctx_shell)] *)
Definition line_rest (ctx : strtok_ctx) : M S (option (list Z)) :=
  '(t, c) ← lift (strtok_r None None shell_rest (Some ctx));
  c ← deref c;
  mret (match t with Some t => Some (token_str c t) | None => None end).

Definition run_command (c : command) (ctx : strtok_ctx) : M S unit :=
  match c with
  | Help => op_printf ops help_text
  | Hello => op_printf ops ("Hello World!" +:+ crlf)
  | Mailbox => op_mailbox_info ops
  | Reboot => op_reset ops 1
  | Ls => a ← line_rest ctx; op_ls ops a
  | Cat => a ← line_rest ctx; r ← op_cat ops a; if r <? 0 then op_printf ops ("File not found" +:+ crlf) else mret tt
  | MemAlloc => op_mem_alloc ops ctx
  | LdProg =>
      pid ← op_fork ops;
      if pid =? 0 then a ← line_rest ctx; op_exec ops a else op_wait_proc ops pid
  | SetTimeout => r ← op_set_timeout ops ctx; if negb (r =? 0) then op_printf ops ("Invalid argument" +:+ crlf) else mret tt
  | PageAlloc => op_page_alloc ops ctx
  | PageFree => op_page_free ops ctx
  | Malloc => op_malloc ops ctx
  | Free => op_free ops ctx
  | Thread => for_each (zseq 0 5) (λ _, op_thread_create_foo ops)
  | ForkTest => op_fork_test ops
  | Ps => op_ps ops
  | Invalid => op_printf ops ("Invalid command" +:+ crlf)
  end.

Definition shell_round : M S unit :=
  op_printf ops "# " ;;
  cmd ← op_read_string ops;
  fresh ← op_new_ctx ops;
  '(c, ctx) ← lift (read_command fresh cmd);
  run_command c ctx ;;
  op_free_ctx ops.
End Round.
