(* ===== verification/ShellThm.v ===== *)
(** * Theorems about the shell *)

From S2P Require Import Prelude Cpu Buddy Dynamic Str StrThm Shell.

(** ** Commands *)

(** The table of commands. *)
Definition command_table : list (string * command) :=
  [("help", Help); ("hello", Hello); ("mailbox", Mailbox); ("reboot", Reboot); ("ls", Ls); ("cat", Cat); ("memAlloc", MemAlloc);
   ("ldProg", LdProg); ("setTimeout", SetTimeout); ("pageAlloc", PageAlloc); ("pageFree", PageFree); ("malloc", Malloc);
   ("free", Free); ("thread", Thread); ("forkTest", ForkTest); ("ps", Ps)]%string.

Definition command_for (w : list Z) : command :=
  default Invalid (snd <$> List.find (λ nc, bool_decide (chars nc.1 = w)) command_table).

Lemma dispatch_run (l : list (string * command)) w x : text w → (length w < 256)%nat →
  Forall (λ nc, text (chars nc.1) ∧ (length (chars nc.1) < 256)%nat) l →
  dispatch ((λ nc, (lit nc.1, nc.2)) <$> l) (w ++ NUL :: x) =
    Ok (default Invalid (snd <$> List.find (λ nc, bool_decide (chars nc.1 = w)) l)).
Proof.
  intros Hw Lw Hl. induction Hl as [|[a c] l [Ha La] Hl IH]; [done|]. cbn [fmap list_fmap dispatch fst snd List.find].
  change (lit a) with (chars a ++ NUL :: []). rewrite strcmp_lex by (done || (simpl in *; lia)). cbn [mbind res_bind].
  destruct (Z.eqb_spec (lexcmp (chars a) w) 0) as [E|E]; rewrite lexcmp_eq in E.
  - by rewrite bool_decide_true.
  - by rewrite bool_decide_false.
Qed.

Lemma table_names : (λ nc, (lit nc.1, nc.2)) <$> command_table = command_names.
Proof. done. Qed.

Lemma table_text : Forall (λ nc, text (chars nc.1) ∧ (length (chars nc.1) < 256)%nat) command_table.
Proof. repeat constructor; cbv; try lia; done. Qed.

(** C31: The shell looks the first word of the line (up to a space) up in the table
    of commands, whatever the memory of the tokenizer held before; the rest of
    the line is left for the command. *)
Theorem read_command_correct fresh line y :
  text line → (length line < length (strtok_str fresh))%nat → length (strtok_str fresh) = Z.to_nat STRLEN →
  ∃ ctx, read_command fresh (line ++ NUL :: y) = Ok (command_for (cut (in_set (chars " ")) line).1, ctx) ∧
    ctx_at ctx (cut (in_set (chars " ")) line).2.
Proof.
  intros Hl Hlen Hf. change (Z.to_nat STRLEN) with 256%nat in Hf.
  destruct (strtok_first fresh line y shell_space None Hl Hlen ltac:(lia)) as (c & Hc & Hcl & Hc0 & E).
  destruct (strtok_next (chars " ") line c None) as (c' & E' & Hctx & (Hi & Ht & x & Hx) & _); [by repeat constructor|done|done|].
  exists c'. split; [|done]. unfold read_command. rewrite E. unfold shell_space, lit. rewrite E'. cbn [mbind res_bind ptr_get].
  rewrite Hx, <- table_names, dispatch_run; [done|done| |exact table_text].
  destruct (cut (in_set (chars " ")) line) as [t r] eqn:Hcut. destruct (cut_spec _ _ _ _ Hcut) as [_ Hr]. simpl.
  destruct r as [r|]; [destruct Hr as (z & _ & ->)|subst t]; rewrite ?length_app in Hlen; simpl in Hlen; lia.
Qed.

(** ** Pointers *)

Lemma hstr_ok s x : ∀ ret, text s → 0 ≤ ret < 2 ^ 32 → ∃ v, hstr_loop (s ++ x) (length s) ret = Ok v ∧ 0 ≤ v < 2 ^ 32.
Proof.
  induction s as [|c s IH]; intros ret Hs Hr; simpl; [eauto|]. inversion_clear Hs.
  assert (Hu : ∀ z, 0 ≤ u32 z < 2 ^ 32) by (intros z; apply Z.mod_pos_bound; lia).
  repeat (case_match; [by apply IH|]). exists 0. by split; [|lia].
Qed.

Lemma hstr_arg s x : text s → Z.of_nat (length s) < 2 ^ 32 →
  ∃ v, (n ← strlen (s ++ NUL :: x); hstr2u32 (s ++ NUL :: x) n) = Ok v ∧ 0 ≤ v < 2 ^ 32.
Proof.
  intros Hs Hl. rewrite strlen_run by done. cbn [mbind res_bind]. unfold hstr2u32. rewrite Nat2Z.id. apply hstr_ok; [done|lia].
Qed.

Lemma pointer_arg_small s x : text s → Z.of_nat (length s) < 2 ^ 32 → ∃ v, pointer_arg (s ++ NUL :: x) = Ok v ∧ 0 ≤ v < 2 ^ 32.
Proof.
  intros Hs Hl. unfold pointer_arg, is_hex.
  destruct s as [|c0 [|c1 s]]; cbn [app lookup list_lookup ptr_get mbind res_bind].
  - by apply (hstr_arg []).
  - destruct (c0 =? 48); cbn [mbind res_bind]; by apply (hstr_arg [c0]).
  - assert (Hs' : text s) by (inversion_clear Hs as [|? ? _ H]; by inversion_clear H).
    destruct (c0 =? 48); cbn [mbind res_bind]; [|by apply (hstr_arg (c0 :: c1 :: s))].
    destruct ((c1 =? 120) || (c1 =? 88)); [|by apply (hstr_arg (c0 :: c1 :: s))].
    cbn [drop]. apply (hstr_arg s); [done|simpl in Hl; lia].
Qed.

Lemma cut_all s : cut (in_set []) s = (s, None).
Proof. induction s as [|c s IH]; simpl; [done|]. by rewrite IH. Qed.

Lemma rest_arg_run ctx s d : ctx_at ctx (Some s) → ∃ x, rest_arg ctx d = Ok (Some (s ++ NUL :: x), d).
Proof.
  intros Hc. destruct (strtok_next [] s ctx None) as (c' & E & _ & (_ & _ & x & Hx) & _); [constructor|done|done|].
  rewrite cut_all in Hx. cbn [fst] in Hx. exists x. unfold rest_arg. change shell_rest with ([] ++ [NUL]).
  unfold mbind, M_bind, lift. rewrite E. cbn [deref]. by rewrite <- Hx.
Qed.

(** The command free cannot free anything: the number on the line has 32 bits,
    and every pointer malloc returns is above 2^64 - 2^48.  Whatever the line
    says, the allocator reports an invalid pointer and its state does not
    change. *)
Theorem shell_free_rejects wide fuel ctx s (d : dmem) :
  ctx_at ctx (Some s) → Z.of_nat (length s) < 2 ^ 32 → cpu_ok (m_cpu (d_mem d)) → bend (d_mem d) ≤ 2 ^ 48 →
  _free wide fuel ctx d =
    Ok (tt, set_dmem (set_cpu (say ("Invalid pointer" +:+ crlf) (m_cpu (d_mem d))) (d_mem d)) d).
Proof.
  intros Hc Hl Hcpu Hend. destruct (rest_arg_run ctx s d Hc) as [x E]. unfold _free. rewrite (bind_Ok _ _ _ _ _ E).
  destruct Hc as (_ & (_ & Hs & _) & _). destruct (pointer_arg_small s x Hs Hl) as (v & Hv & Hr).
  erewrite bind_Ok by (unfold lift; by rewrite Hv). unfold free. erewrite bind_Ok by done. erewrite bind_Ok by done.
  assert (Hp : v2p_trans_kernel v = v + 2 ^ 48).
  { unfold v2p_trans_kernel, v_kernel_space, u64. change (0xffff000000000000) with (2 ^ 64 - 2 ^ 48).
    replace (v - (2 ^ 64 - 2 ^ 48)) with (v + 2 ^ 48 + (-1) * 2 ^ 64) by lia. rewrite Z.mod_add, Z.mod_small; lia. }
  rewrite Hp. cbn [d_mem set_dmem bend set_cpu].
  destruct (Z.leb_spec (bend (d_mem d)) (v + 2 ^ 48)); [|lia].
  destruct d as [m pool nodes]. cbn [d_mem] in *.
  unfold on_mem, on_cpu, zoom, mbind, M_bind, enable_int, printf, modify. cbn [d_mem set_dmem m_cpu set_cpu].
  change (mk_cpu (irq_nested_count (mk_cpu (irq_nested_count (m_cpu m) + 1) true (console (m_cpu m))) - 1) _ _) with (leave (enter (m_cpu m))).
  rewrite leave_enter by done. done.
Qed.

Lemma read_command_correct_witness :
  ∃ ctx, read_command fresh0 (chars "free 0x10000010" ++ [NUL]) = Ok (Free, ctx) ∧ ctx_at ctx (Some (chars "0x10000010")).
Proof.
  exact (read_command_correct fresh0 (chars "free 0x10000010") [] (text_chars (chars "free 0x10000010") eq_refl) ltac:(simpl; lia) eq_refl).
Defined.

(** An allocator of 16 pages. *)
Definition shell_mem : dmem := mk_dmem (mk_mem (mk_cpu 0 false []) 0 0 0 0 0x10000 4 (mk_bstruct ∅ ∅ ∅)) ∅ ∅.
Definition shell_ctx : strtok_ctx := mk_strtok (lit "10000010") 0 9.

Lemma shell_free_rejects_witness :
  _free (λ _, None) 10 shell_ctx shell_mem =
    Ok (tt, set_dmem (set_cpu (say ("Invalid pointer" +:+ crlf) (mk_cpu 0 false [])) (d_mem shell_mem)) shell_mem).
Proof.
  apply (shell_free_rejects (λ _, None) 10 shell_ctx (chars "10000010") shell_mem).
  - split; [simpl; lia|]. split; [|reflexivity]. split; [simpl; lia|]. split; [exact (text_chars (chars "10000010") eq_refl)|].
    exists []. reflexivity.
  - reflexivity.
  - split; [discriminate|reflexivity].
  - vm_compute. discriminate.
Defined.
