(* ===== verification/Uart.v ===== *)
(** * Console driver (src/kernel/uart.c, include/kernel/uart.h)

    The mini UART behind its two ring buffers.  [io] is the state the driver
    and the interrupt handlers of interrupt.c share: the task queue of
    TaskQueue (which holds the interrupt mask), the processes, the buffers,
    the timers and the device registers.  A configuration register is a cell
    of [mmio]; the data register is separate, since a write sends a byte and a
    read takes the one received. *)

From S2P Require Import Prelude Cpu Buddy RingBuf TaskQueue KList Process.

Definition GPFSEL1 : Z := 0x3f200004 + v_kernel_space.
Definition GPPUD : Z := 0x3f200094 + v_kernel_space.
Definition GPPUDCLK0 : Z := 0x3f200098 + v_kernel_space.
Definition AUXENB : Z := 0x3f215004 + v_kernel_space.
Definition AUX_MU_CNTL_REG : Z := 0x3f215060 + v_kernel_space.
Definition AUX_MU_IER_REG : Z := 0x3f215044 + v_kernel_space.
Definition AUX_MU_LCR_REG : Z := 0x3f21504c + v_kernel_space.
Definition AUX_MU_MCR_REG : Z := 0x3f215050 + v_kernel_space.
Definition AUX_MU_BAUD_REG : Z := 0x3f215068 + v_kernel_space.
Definition AUX_MU_IIR_REG : Z := 0x3f215048 + v_kernel_space.
Definition IRQs1 : Z := 0x3f00b210 + v_kernel_space.

(** ** State *)

(** A variable of a function whose address was taken. *)
Inductive local := L_char (c : Z) | L_timer (e : timer_queue_element).

Record iox := mk_iox {
  i_ps : ps;
  i_r : ring_buf Z;
  i_w : ring_buf Z;
  i_timers : ring_buf timer_queue_element;
  i_cntpct : Z;
  i_tval : Z;
  i_timer_on : bool;
  cntfrq : Z;
  mmio : gmap Z Z;
  io_in : Z;              (* the byte a read of AUX_MU_IO_REG returns *)
  io_out : list Z;        (* the bytes written to AUX_MU_IO_REG *)
  need_schedule : bool;
  locals : gmap Z local;  (* live stack variables *)
  texts : gmap Z (list Z); (* strings in memory from malloc *)
  cntkctl : Z;            (* cntkctl_el1 *)
}.

Abbreviation io := (tqs iox).

Definition set_ips p x := mk_iox p (i_r x) (i_w x) (i_timers x) (i_cntpct x) (i_tval x) (i_timer_on x) (cntfrq x) (mmio x) (io_in x) (io_out x) (need_schedule x) (locals x) (texts x) (cntkctl x).
Definition set_ir r x := mk_iox (i_ps x) r (i_w x) (i_timers x) (i_cntpct x) (i_tval x) (i_timer_on x) (cntfrq x) (mmio x) (io_in x) (io_out x) (need_schedule x) (locals x) (texts x) (cntkctl x).
Definition set_iw r x := mk_iox (i_ps x) (i_r x) r (i_timers x) (i_cntpct x) (i_tval x) (i_timer_on x) (cntfrq x) (mmio x) (io_in x) (io_out x) (need_schedule x) (locals x) (texts x) (cntkctl x).
Definition set_itimer t x := mk_iox (i_ps x) (i_r x) (i_w x) (r_buf (timer_queue t)) (cntpct t) (cntp_tval t) (timer_int_on t) (cntfrq x) (mmio x) (io_in x) (io_out x) (need_schedule x) (locals x) (texts x) (cntkctl x).
Definition set_mmio m x := mk_iox (i_ps x) (i_r x) (i_w x) (i_timers x) (i_cntpct x) (i_tval x) (i_timer_on x) (cntfrq x) m (io_in x) (io_out x) (need_schedule x) (locals x) (texts x) (cntkctl x).
Definition set_out l x := mk_iox (i_ps x) (i_r x) (i_w x) (i_timers x) (i_cntpct x) (i_tval x) (i_timer_on x) (cntfrq x) (mmio x) (io_in x) l (need_schedule x) (locals x) (texts x) (cntkctl x).
Definition set_need b x := mk_iox (i_ps x) (i_r x) (i_w x) (i_timers x) (i_cntpct x) (i_tval x) (i_timer_on x) (cntfrq x) (mmio x) (io_in x) (io_out x) b (locals x) (texts x) (cntkctl x).
Definition set_locals l x := mk_iox (i_ps x) (i_r x) (i_w x) (i_timers x) (i_cntpct x) (i_tval x) (i_timer_on x) (cntfrq x) (mmio x) (io_in x) (io_out x) (need_schedule x) l (texts x) (cntkctl x).
Definition set_texts t x := mk_iox (i_ps x) (i_r x) (i_w x) (i_timers x) (i_cntpct x) (i_tval x) (i_timer_on x) (cntfrq x) (mmio x) (io_in x) (io_out x) (need_schedule x) (locals x) t (cntkctl x).
Definition set_cntkctl v x := mk_iox (i_ps x) (i_r x) (i_w x) (i_timers x) (i_cntpct x) (i_tval x) (i_timer_on x) (cntfrq x) (mmio x) (io_in x) (io_out x) (need_schedule x) (locals x) (texts x) v.

Definition ext_upd (f : iox → iox) : M io unit := modify (λ s, set_qext (f (q_ext s)) s).

(** The parts of the state the components work on; each has the one
    interrupt mask in it. *)
Definition io_cpu (s : io) : cpu := r_cpu (task_queue s).
Definition set_io_cpu (c : cpu) (s : io) : io := set_task_queue (set_rcpu c (task_queue s)) s.
Definition procs (s : io) : ps := set_pcpu (io_cpu s) (i_ps (q_ext s)).
Definition set_procs (p : ps) (s : io) : io := set_qext (set_ips p (q_ext s)) (set_io_cpu (p_cpu p) s).
Definition rbuffer (s : io) : rst Z := mk_rst (io_cpu s) (i_r (q_ext s)).
Definition set_rbuffer (r : rst Z) (s : io) : io := set_qext (set_ir (r_buf r) (q_ext s)) (set_io_cpu (r_cpu r) s).
Definition wbuffer (s : io) : rst Z := mk_rst (io_cpu s) (i_w (q_ext s)).
Definition set_wbuffer (r : rst Z) (s : io) : io := set_qext (set_iw (r_buf r) (q_ext s)) (set_io_cpu (r_cpu r) s).

Definition on_procs {A} (m : M ps A) : M io A := zoom procs set_procs m.
Definition on_r {A} (m : M (rst Z) A) : M io A := zoom rbuffer set_rbuffer m.
Definition on_w {A} (m : M (rst Z) A) : M io A := zoom wbuffer set_wbuffer m.
Definition io_enable_int : M io unit := on_tasks (r_on_cpu enable_int).
Definition io_disable_int : M io unit := on_tasks (r_on_cpu disable_int).

(** ** Registers (utils.h, uart.h) *)

Definition get32 (addr : Z) : M io Z := s ← get_st; deref (mmio (q_ext s) !! addr).
Definition set32 (addr value : Z) : M io unit := _ ← get32 addr; ext_upd (λ x, set_mmio (<[addr := value]> (mmio x)) x).

Definition enable_read_int : M io unit := data ← get32 AUX_MU_IER_REG; set32 AUX_MU_IER_REG (Z.lor data 1).
Definition disable_read_int : M io unit := data ← get32 AUX_MU_IER_REG; set32 AUX_MU_IER_REG (Z.land data (u32 (Z.lnot 1))).
Definition enable_write_int : M io unit := data ← get32 AUX_MU_IER_REG; set32 AUX_MU_IER_REG (Z.lor data 2).
Definition disable_write_int : M io unit := data ← get32 AUX_MU_IER_REG; set32 AUX_MU_IER_REG (Z.land data (u32 (Z.lnot 2))).

(** ** Set-up *)

(** [read_buf] and [write_buf] are what the two arrays hold. *)
Definition enable_uart_int (read_buf write_buf : gmap Z Z) : M io unit :=
  set32 AUX_MU_IER_REG 12 ;;
  data ← get32 IRQs1;
  set32 IRQs1 (Z.lor data (Z.shiftl 1 29)) ;;
  ext_upd (set_ir (ring_buf_init read_buf)) ;;
  ext_upd (set_iw (ring_buf_init write_buf)) ;;
  io_enable_int.

Definition uart_init : M io unit :=
  data ← get32 GPFSEL1;
  let data := Z.land data (u32 (Z.lnot (Z.lor (Z.shiftl 7 12) (Z.shiftl 7 15)))) in
  let data := Z.lor data (Z.lor (Z.shiftl 2 12) (Z.shiftl 2 15)) in
  set32 GPFSEL1 data ;;
  data ← get32 GPPUD;
  set32 GPPUD (Z.land data (u32 (Z.lnot 3))) ;;
  set32 GPPUDCLK0 (Z.lor (Z.shiftl 1 14) (Z.shiftl 1 15)) ;;
  set32 GPPUD 0 ;;
  set32 GPPUDCLK0 0 ;;
  set32 AUXENB 1 ;;
  set32 AUX_MU_CNTL_REG 0 ;;
  set32 AUX_MU_IER_REG 0 ;;
  set32 AUX_MU_LCR_REG 3 ;;
  set32 AUX_MU_MCR_REG 0 ;;
  set32 AUX_MU_BAUD_REG 270 ;;
  set32 AUX_MU_IIR_REG 6 ;;
  set32 AUX_MU_CNTL_REG 3.

(** ** Output *)

Definition uart_write_char (c : Z) : M io Z :=
  on_w (ring_buf_produce c) ;;
  enable_write_int ;;
  mret 0.

(** The loop of [uart_write], and of [printf] on a text without a format. *)
Definition put_chars (buf : list Z) : M io unit := for_each buf (λ c, uart_write_char c ;; mret tt).

(** [wait]: true if another process runs now; the rest of the caller is what
    this process does when it runs again. *)
Definition io_wait (e : event) (data : Z) : M io bool :=
  none ← on_procs (list_empty Ready);
  on_procs (wait e data) ;;
  mret (negb none).

Definition uart_write_rest (buf : list Z) : M io Z := put_chars buf ;; mret (Z.of_nat (length buf)).

(** [None]: the process waits, and goes on with [uart_write_rest]. *)
Definition uart_write (buf : list Z) : M io (option Z) :=
  let size := Z.of_nat (length buf) in
  s ← get_st;
  away ← (if ring_buf_remain_e (r_buf (wbuffer s)) <? size then io_wait W size else mret false);
  if (away : bool) then mret None else n ← uart_write_rest buf; mret (Some n).

(** ** Input *)

(** The characters a loop of [n] rounds puts into the caller's array. *)
Fixpoint get_chars (n : nat) : M io (list Z) :=
  match n with
  | O => mret []
  | S n' => c ← on_r ring_buf_consume; rest ← get_chars n'; mret (c :: rest)
  end.

Definition uart_read_rest (size : Z) : M io (list Z) :=
  l ← get_chars (Z.to_nat size);
  disable_read_int ;;
  mret l.

Definition uart_read (size : Z) : M io (option (list Z)) :=
  enable_read_int ;;
  s ← get_st;
  away ← (if ring_buf_num_e (r_buf (rbuffer s)) <? size then io_wait R size else mret false);
  if (away : bool) then mret None else l ← uart_read_rest size; mret (Some l).

(** [str[i] = c] *)
Definition str_set (str : list Z) (i c : Z) : M io (list Z) :=
  assert (i <? Z.of_nat (length str)) ;; mret (<[Z.to_nat i := c]> str).

(** The line editor: the array and the length of the line. *)
Fixpoint read_string_loop (fuel : nat) (str : list Z) (i size : Z) : M io (list Z * Z) :=
  match fuel with
  | O => spin
  | S fuel' =>
      if i <? u64 (size - 1) then
        c ← on_r ring_buf_consume;
        if (c =? 0x7f) || (c =? 8) then
          i ← (if 0 <? i then put_chars [8; 32; 8] ;; mret (u64 (i - 2)) else mret (u64 (i - 1)));
          read_string_loop fuel' str (u64 (i + 1)) size
        else if c =? 13 then put_chars [13; 10] ;; mret (str, i)
        else if (c =? 0) || (c =? 10) then uart_write_char c ;; mret (str, i)
        else
          uart_write_char c ;;
          str ← str_set str i c;
          read_string_loop fuel' str (u64 (i + 1)) size
      else mret (str, i)
  end.

Definition uart_read_string (str : list Z) (size : Z) : M io (list Z * Z) :=
  enable_read_int ;;
  '(str, i) ← read_string_loop 512 str 0 size;
  str ← str_set str i 0;
  disable_read_int ;;
  mret (str, i).

(** ** The operations of the device file (dev.c) *)

Definition _uart_read (file len : Z) : M io (option (list Z)) := uart_read len.
Definition _uart_write (file : Z) (buf : list Z) : M io (option Z) := uart_write buf.
