(* ===== verification/UartThm.v ===== *)
(** * Theorems about the console driver *)

From S2P Require Import Prelude Cpu RingBuf TaskQueue TaskQueueThm KList Process ProcessInv ProcessThm Uart.

(** [s] with other buffers and registers. *)
Definition devs (r w : ring_buf Z) (m : gmap Z Z) (s : io) : io :=
  set_qext (set_mmio m (set_iw w (set_ir r (q_ext s)))) s.

Lemma devs_same s : devs (i_r (q_ext s)) (i_w (q_ext s)) (mmio (q_ext s)) s = s.
Proof. by destruct s as [? ? []]. Qed.

(** The transmitter's interrupt after the driver buffered [buf]. *)
Definition tx_on (buf : list Z) (m : gmap Z Z) (d : Z) : gmap Z Z :=
  match buf with [] => m | _ => <[AUX_MU_IER_REG := Z.lor d 2]> m end.

Definition tx_ier (buf : list Z) (d : Z) : Z := match buf with [] => d | _ => Z.lor d 2 end.

Lemma tx_on_lookup buf m d : m !! AUX_MU_IER_REG = Some d → tx_on buf m d !! AUX_MU_IER_REG = Some (tx_ier buf d).
Proof. intros. destruct buf; [done|]. apply lookup_insert_eq. Qed.

Lemma lor2_idem d : Z.lor (Z.lor d 2) 2 = Z.lor d 2.
Proof. by rewrite <- Z.lor_assoc. Qed.

Lemma tx_on_app a b m d : tx_on b (tx_on a m d) (tx_ier a d) = tx_on (a ++ b) m d.
Proof.
  destruct a as [|x a], b as [|y b]; simpl; try done. by rewrite lor2_idem, insert_insert_eq.
Qed.
Lemma tx_ier_app a b d : tx_ier b (tx_ier a d) = tx_ier (a ++ b) d.
Proof. destruct a, b; simpl; rewrite ?lor2_idem; try done. Qed.

Section Driver.
Context (s : io) (Hcpu : cpu_ok (io_cpu s)).
Implicit Types (r w : ring_buf Z) (m : gmap Z Z) (l : list Z).

Lemma get32_devs r w m a v : m !! a = Some v → get32 a (devs r w m s) = Ok (v, devs r w m s).
Proof. intros H. unfold get32, mbind, M_bind, get_st. simpl. by rewrite H. Qed.

Lemma set32_devs r w m a v : is_Some (m !! a) → set32 a v (devs r w m s) = Ok (tt, devs r w (<[a := v]> m) s).
Proof. intros [u H]. unfold set32. by erewrite bind_Ok by by apply get32_devs. Qed.

Lemma consume_devs r w m c l : rholds r (c :: l) →
  ∃ r', rholds r' l ∧ on_r ring_buf_consume (devs r w m s) = Ok (c, devs r' w m s).
Proof.
  intros Hr. eexists. split; [by eapply holds_pop|]. unfold on_r, zoom.
  rewrite (consume_run (rbuffer (devs r w m s)) l c Hcpu Hr). by destruct s as [[]].
Qed.

Lemma produce_devs r w m l c : rholds w l → Z.of_nat (length l) < BUFLEN - 1 →
  ∃ w', rholds w' (l ++ [c]) ∧ on_w (ring_buf_produce c) (devs r w m s) = Ok (tt, devs r w' m s).
Proof.
  intros Hw Hl. eexists. split; [by apply (holds_push w l)|]. unfold on_w, zoom.
  rewrite (produce_run (wbuffer (devs r w m s)) l c Hcpu Hw Hl). by destruct s as [[]].
Qed.

Lemma write_char_devs r w m l c d : rholds w l → Z.of_nat (length l) < BUFLEN - 1 → m !! AUX_MU_IER_REG = Some d →
  ∃ w', rholds w' (l ++ [c]) ∧ uart_write_char c (devs r w m s) = Ok (0, devs r w' (tx_on [c] m d) s).
Proof.
  intros Hw Hl Hd. destruct (produce_devs r w m l c Hw Hl) as (w' & Hw' & E). exists w'. split; [done|].
  unfold uart_write_char, enable_write_int. rewrite (bind_Ok _ _ _ _ _ E).
  erewrite bind_Ok; [done|]. erewrite bind_Ok by by apply get32_devs. by apply set32_devs.
Qed.

Lemma put_chars_devs r buf : ∀ w m l d, rholds w l → Z.of_nat (length l + length buf) ≤ BUFLEN - 1 →
  m !! AUX_MU_IER_REG = Some d →
  ∃ w', rholds w' (l ++ buf) ∧ put_chars buf (devs r w m s) = Ok (tt, devs r w' (tx_on buf m d) s).
Proof.
  unfold put_chars. induction buf as [|c buf IH]; intros w m l d Hw Hl Hd; simpl in *.
  { exists w. by rewrite app_nil_r. }
  destruct (write_char_devs r w m l c d Hw ltac:(lia) Hd) as (w1 & Hw1 & E).
  destruct (IH w1 (tx_on [c] m d) (l ++ [c]) (tx_ier [c] d) Hw1) as (w2 & Hw2 & E2).
  { rewrite length_app. simpl. lia. }
  { by apply tx_on_lookup. }
  exists w2. rewrite <- app_assoc in Hw2. split; [done|].
  erewrite bind_Ok by (by rewrite (bind_Ok _ _ _ _ _ E)). rewrite E2. by rewrite tx_on_app.
Qed.

Lemma get_chars_devs w m n : ∀ r l, rholds r l → (n ≤ length l)%nat →
  ∃ r', rholds r' (drop n l) ∧ get_chars n (devs r w m s) = Ok (take n l, devs r' w m s).
Proof.
  induction n as [|n IH]; intros r l Hr Hn.
  { exists r. by rewrite drop_0. }
  destruct l as [|c l]; simpl in Hn; [lia|]. destruct (consume_devs r w m c l Hr) as (r1 & Hr1 & E).
  destruct (IH r1 l Hr1 ltac:(lia)) as (r2 & Hr2 & E2). exists r2. split; [done|]. cbn [get_chars].
  rewrite (bind_Ok _ _ _ _ _ E), (bind_Ok _ _ _ _ _ E2). done.
Qed.
End Driver.

(** ** Output *)

Section Write.
Context (s : io) (l buf : list Z) (d : Z).
Hypothesis Hcpu : cpu_ok (io_cpu s).
Hypothesis Hw : rholds (i_w (q_ext s)) l.
Hypothesis Hd : mmio (q_ext s) !! AUX_MU_IER_REG = Some d.

Lemma uart_write_run : Z.of_nat (length l + length buf) ≤ BUFLEN - 1 →
  ∃ w, rholds w (l ++ buf) ∧
    uart_write buf s = Ok (Some (Z.of_nat (length buf)), devs (i_r (q_ext s)) w (tx_on buf (mmio (q_ext s)) d) s).
Proof.
  intros Hl. destruct (put_chars_devs s Hcpu (i_r (q_ext s)) buf _ _ l d Hw Hl Hd) as (w & Hw' & E).
  rewrite devs_same in E. exists w. split; [done|].
  unfold uart_write, uart_write_rest. erewrite bind_Ok by done. change (r_buf (wbuffer s)) with (i_w (q_ext s)).
  unfold ring_buf_remain_e, u32. rewrite (holds_diff _ l Hw).
  rewrite (Z.mod_small (BUFLEN - 1 - _)) by (unfold BUFLEN in *; lia).
  destruct (Z.ltb_spec (BUFLEN - 1 - Z.of_nat (length l)) (Z.of_nat (length buf))); [lia|].
  erewrite bind_Ok by done. cbn iota. erewrite bind_Ok; [done|]. by rewrite (bind_Ok _ _ _ _ _ E).
Qed.
End Write.

(** ** The line editor *)

Definition is_bs (c : Z) : bool := (c =? 0x7f) || (c =? 8).

(** What a terminal line with [room] places makes of the characters typed:
    the line, the echo and the characters left over; [None] while the line is
    not complete. *)
Fixpoint edit (room : nat) (line input : list Z) : option (list Z * list Z * list Z) :=
  match input with
  | [] => if decide (length line = room) then Some (line, [], []) else None
  | c :: l =>
      if decide (length line = room) then Some (line, [], c :: l)
      else if is_bs c then
        match line with
        | [] => edit room [] l
        | _ => '(k, echo, rest) ← edit room (take (pred (length line)) line) l; Some (k, [8; 32; 8] ++ echo, rest)
        end
      else if c =? 13 then Some (line, [13; 10], l)
      else if (c =? 0) || (c =? 10) then Some (line, [c], l)
      else '(k, echo, rest) ← edit room (line ++ [c]) l; Some (k, c :: echo, rest)
  end.

Lemma edit_full room line input : length line = room → edit room line input = Some (line, [], input).
Proof. intros H. destruct input; simpl; by rewrite decide_True. Qed.

Lemma edit_length room line input k echo rest : (length line ≤ room)%nat →
  edit room line input = Some (k, echo, rest) → (length k ≤ room)%nat ∧ (length rest ≤ length input)%nat.
Proof.
  revert line k echo rest. induction input as [|c l IH]; intros line k echo rest Hl E; simpl in E.
  { case_decide; by simplify_eq. }
  case_decide; [simplify_eq; simpl; lia|]. destruct (is_bs c).
  { destruct line as [|x line]; [apply IH in E; simpl in *; lia|].
    destruct (edit room (take (pred (length (x :: line))) (x :: line)) l) as [[[? ?] ?]|] eqn:E'; [|done]. simpl in E. injection E as <- <- <-.
    apply IH in E'; [simpl; lia|]. rewrite length_take. simpl in *. lia. }
  case_match; [simplify_eq; simpl; lia|]. case_match; [simplify_eq; simpl; lia|].
  destruct (edit room (line ++ [c]) l) as [[[? ?] ?]|] eqn:E'; [|done]. simpl in E. injection E as <- <- <-.
  apply IH in E'; [simpl; lia|]. rewrite length_app. simpl. lia.
Qed.

Section Line.
Context (s : io) (Hcpu : cpu_ok (io_cpu s)) (size : nat).
Hypothesis Hsize : (0 < size)%nat.
Hypothesis Hsize64 : Z.of_nat size < 2 ^ 64.

Lemma below_size i : (Z.of_nat i <? u64 (Z.of_nat size - 1)) = bool_decide (i < pred size)%nat.
Proof. rewrite u64_small by lia. apply eq_true_iff_eq. rewrite Z.ltb_lt, bool_decide_eq_true. lia. Qed.

Lemma back_idx n k : Z.of_nat k ≤ n → n < 2 ^ 64 → u64 (u64 (n - Z.of_nat (S k)) + 1) = n - Z.of_nat k.
Proof. intros. unfold u64. rewrite Zplus_mod_idemp_l, Z.mod_small; lia. Qed.

(** The state of the loop: the line is what the array starts with. *)
Definition line_ok (str line : list Z) : Prop :=
  (size ≤ length str)%nat ∧ (length line ≤ pred size)%nat ∧ take (length line) str = line.

Lemma line_back str line : line_ok str line → line_ok str (take (pred (length line)) line).
Proof.
  intros (H1 & H2 & H3). unfold line_ok. rewrite length_take, Nat.min_l by lia. split_and!; [done|lia|].
  transitivity (take (pred (length line)) (take (length line) str)); [|by rewrite H3].
  rewrite take_take. f_equal. lia.
Qed.

Lemma line_add str line c : line_ok str line → length line ≠ pred size →
  line_ok (<[length line := c]> str) (line ++ [c]).
Proof.
  intros (H1 & H2 & H3) Hne. unfold line_ok. rewrite length_insert, length_app. simpl. split_and!; [done|lia|].
  rewrite Nat.add_1_r. rewrite (take_S_r _ _ c) by (apply list_lookup_insert_eq; lia). rewrite take_insert_ge by lia. by rewrite H3.
Qed.

Lemma read_string_loop_run input : ∀ fuel str line k echo rest r w m l d,
  (length input < fuel)%nat → line_ok str line → edit (pred size) line input = Some (k, echo, rest) →
  rholds r input → rholds w l → Z.of_nat (length l + length echo) ≤ BUFLEN - 1 → m !! AUX_MU_IER_REG = Some d →
  ∃ str' r' w', read_string_loop fuel str (Z.of_nat (length line)) (Z.of_nat size) (devs r w m s) =
      Ok ((str', Z.of_nat (length k)), devs r' w' (tx_on echo m d) s) ∧
    line_ok str' k ∧ length str' = length str ∧ rholds r' rest ∧ rholds w' (l ++ echo).
Proof.
  induction input as [|c input IH]; intros fuel str line k echo rest r w m l d Hf Hline E Hr Hw Hroom Hd;
    (destruct fuel as [|fuel]; [simpl in Hf; lia|]); cbn [read_string_loop]; rewrite below_size; simpl in E;
    pose proof Hline as (Hl1 & Hl2 & Hl3).
  { case_decide as Hfull; [|done]. injection E as <- <- <-. rewrite bool_decide_false by lia.
    exists str, r, w. by rewrite app_nil_r. }
  case_decide as Hfull.
  { injection E as <- <- <-. rewrite bool_decide_false by lia. exists str, r, w. by rewrite app_nil_r. }
  rewrite bool_decide_true by lia. destruct (consume_devs s Hcpu r w m c input Hr) as (r1 & Hr1 & E1).
  rewrite (bind_Ok _ _ _ _ _ E1). fold (is_bs c). simpl in Hf. destruct (is_bs c) eqn:Ebs.
  { destruct line as [|x line].
    - change (Z.of_nat (length [])) with 0. cbn [Z.ltb Z.compare]. erewrite bind_Ok by done.
      change (u64 (u64 (0 - 1) + 1)) with (Z.of_nat (length (@nil Z))).
      by apply (IH fuel str [] k echo rest r1 w m l d); [lia|..].
    - set (ln := x :: line) in *. destruct (edit _ _ input) as [[[k' e'] rest']|] eqn:E'; [|done].
      cbn in E. injection E as <- <- <-. cbn [length app] in Hroom.
      destruct (put_chars_devs s Hcpu r1 [8; 32; 8] w m l d Hw ltac:(simpl; lia) Hd) as (w1 & Hw1 & E2).
      destruct (Z.ltb_spec 0 (Z.of_nat (length ln))); [|simpl in *; lia].
      erewrite bind_Ok by (by rewrite (bind_Ok _ _ _ _ _ E2)).
      replace (u64 (u64 (Z.of_nat (length ln) - 2) + 1)) with (Z.of_nat (length (take (pred (length ln)) ln))).
      2:{ rewrite (back_idx _ 1) by lia. rewrite length_take. simpl. lia. }
      destruct (IH fuel str (take (pred (length ln)) ln) k' e' rest' r1 w1 (tx_on [8; 32; 8] m d) (l ++ [8; 32; 8]) (tx_ier [8; 32; 8] d))
        as (str' & r' & w' & E3 & ? & ? & ? & Hw'); [lia|by apply line_back|done|done|done|rewrite length_app; simpl; lia|by apply tx_on_lookup|].
      exists str', r', w'. rewrite tx_on_app in E3. rewrite <- app_assoc in Hw'. by split_and!. }
  destruct (Z.eqb_spec c 13).
  { injection E as <- <- <-.
    destruct (put_chars_devs s Hcpu r1 [13; 10] w m l d Hw Hroom Hd) as (w1 & Hw1 & E2).
    rewrite (bind_Ok _ _ _ _ _ E2). by exists str, r1, w1. }
  destruct ((c =? 0) || (c =? 10)).
  { injection E as <- <- <-.
    destruct (write_char_devs s Hcpu r1 w m l c d Hw ltac:(simpl in *; lia) Hd) as (w1 & Hw1 & E2).
    rewrite (bind_Ok _ _ _ _ _ E2). by exists str, r1, w1. }
  destruct (edit _ _ input) as [[[k' e'] rest']|] eqn:E'; [|done]. cbn in E. injection E as <- <- <-. cbn [length] in Hroom.
  destruct (write_char_devs s Hcpu r1 w m l c d Hw ltac:(lia) Hd) as (w1 & Hw1 & E2).
  rewrite (bind_Ok _ _ _ _ _ E2). unfold str_set.
  destruct (Z.ltb_spec (Z.of_nat (length line)) (Z.of_nat (length str))); [|lia]. erewrite bind_Ok by done. rewrite Nat2Z.id.
  replace (u64 (Z.of_nat (length line) + 1)) with (Z.of_nat (length (line ++ [c])))
    by (rewrite u64_small, length_app by lia; simpl; lia).
  destruct (IH fuel (<[length line := c]> str) (line ++ [c]) k' e' rest' r1 w1 (tx_on [c] m d) (l ++ [c]) (tx_ier [c] d))
    as (str' & r' & w' & E3 & ? & Hlen & ? & Hw'); [lia|by apply line_add|done|done|done|rewrite length_app; simpl; lia|by apply tx_on_lookup|].
  exists str', r', w'. rewrite tx_on_app in E3. rewrite length_insert in Hlen. rewrite <- app_assoc in Hw'. by split_and!.
Qed.
End Line.

(** The receiver's interrupt is requested while the driver reads. *)
Definition rx_off (d : Z) : Z := Z.land d (u32 (Z.lnot 1)).

Section Read.
Context (s : io) (l : list Z) (d : Z).
Hypothesis Hcpu : cpu_ok (io_cpu s).
Hypothesis Hd : mmio (q_ext s) !! AUX_MU_IER_REG = Some d.

Lemma enable_read_run : enable_read_int s = Ok (tt, devs (i_r (q_ext s)) (i_w (q_ext s)) (<[AUX_MU_IER_REG := Z.lor d 1]> (mmio (q_ext s))) s).
Proof.
  unfold enable_read_int. rewrite <- (devs_same s) at 1. erewrite bind_Ok by by apply get32_devs.
  by apply set32_devs.
Qed.

Lemma disable_read_run r w m v : m !! AUX_MU_IER_REG = Some v →
  disable_read_int (devs r w m s) = Ok (tt, devs r w (<[AUX_MU_IER_REG := rx_off v]> m) s).
Proof. intros. unfold disable_read_int. erewrite bind_Ok by by apply get32_devs. by apply set32_devs. Qed.

Lemma uart_read_run n : rholds (i_r (q_ext s)) l → (n ≤ length l)%nat →
  ∃ r, rholds r (drop n l) ∧
    uart_read (Z.of_nat n) s =
      Ok (Some (take n l), devs r (i_w (q_ext s)) (<[AUX_MU_IER_REG := rx_off (Z.lor d 1)]> (mmio (q_ext s))) s).
Proof.
  intros Hr Hn. unfold uart_read. rewrite (bind_Ok _ _ _ _ _ enable_read_run). set (m := <[_ := _]> (mmio _)).
  destruct (get_chars_devs s Hcpu (i_w (q_ext s)) m n _ l Hr Hn) as (r & Hr' & E).
  exists r. split; [done|]. erewrite bind_Ok by done. change (r_buf (rbuffer (devs _ _ m s))) with (i_r (q_ext s)).
  unfold ring_buf_num_e, u32. rewrite (holds_diff _ l Hr). pose proof (rh_len _ _ Hr).
  rewrite Z.mod_small by (unfold BUFLEN in *; lia).
  destruct (Z.ltb_spec (Z.of_nat (length l)) (Z.of_nat n)); [lia|]. erewrite bind_Ok by done. cbn iota.
  unfold uart_read_rest. rewrite Nat2Z.id. erewrite bind_Ok; [done|]. rewrite (bind_Ok _ _ _ _ _ E).
  erewrite bind_Ok; [done|]. erewrite disable_read_run by apply lookup_insert_eq. unfold m. by rewrite insert_insert_eq.
Qed.

(** C22: [uart_read_string] is the line editor [edit]: on input that completes a
    line, the array starts with the edited line and its terminator, the result
    is the length of the line, the characters typed after it stay in the
    buffer, and exactly the echo is put behind what waits for transmission; a
    backspace on an empty line is ignored, and a line never exceeds the
    array. *)
Theorem uart_read_string_correct (size : nat) str input line echo rest :
  (0 < size ≤ length str)%nat → Z.of_nat size < 2 ^ 64 →
  rholds (i_r (q_ext s)) input → rholds (i_w (q_ext s)) l → Z.of_nat (length l + length echo) ≤ BUFLEN - 1 →
  edit (pred size) [] input = Some (line, echo, rest) →
  ∃ str' r w, rholds r rest ∧ rholds w (l ++ echo) ∧ length str' = length str ∧ (length line < size)%nat ∧
    take (S (length line)) str' = line ++ [0] ∧
    uart_read_string str (Z.of_nat size) s =
      Ok ((str', Z.of_nat (length line)), devs r w (<[AUX_MU_IER_REG := rx_off (tx_ier echo (Z.lor d 1))]> (mmio (q_ext s))) s).
Proof.
  intros Hsize H64 Hr Hw Hroom E. unfold uart_read_string. rewrite (bind_Ok _ _ _ _ _ enable_read_run).
  set (m := <[_ := _]> (mmio _)). assert (Hm : m !! AUX_MU_IER_REG = Some (Z.lor d 1)) by apply lookup_insert_eq.
  pose proof (rh_len _ _ Hr) as Hlen.
  destruct (read_string_loop_run s Hcpu size ltac:(lia) H64 input 512 str [] line echo rest (i_r (q_ext s)) (i_w (q_ext s)) m l (Z.lor d 1))
    as (str' & r & w & E1 & (Hs1 & Hs2 & Hs3) & Hs4 & Hr' & Hw'); [unfold BUFLEN in *; lia|split_and!; simpl; [lia|lia|done]|done..|].
  exists (<[length line := 0]> str'), r, w. rewrite length_insert. split_and!; [done..|lia| |].
  - rewrite (take_S_r _ _ 0) by (apply list_lookup_insert_eq; lia). rewrite take_insert_ge by lia. by rewrite Hs3.
  - change (Z.of_nat (length (@nil Z))) with 0 in E1. rewrite (bind_Ok _ _ _ _ _ E1). unfold str_set.
    destruct (Z.ltb_spec (Z.of_nat (length line)) (Z.of_nat (length str'))); [|lia]. erewrite bind_Ok by done. rewrite Nat2Z.id.
    erewrite bind_Ok; [done|]. erewrite disable_read_run by by apply tx_on_lookup.
    unfold m. destruct echo; cbn [tx_on tx_ier]; by rewrite !insert_insert_eq.
Qed.
End Read.

(** ** A concrete run *)

(** The user types "ab", a backspace, "c" and return. *)
Definition typed : list Z := [97; 98; 127; 99; 13].
Definition typed_ring : ring_buf Z :=
  mk_ring 5 0 (<[4 := 13]> (<[3 := 99]> (<[2 := 127]> (<[1 := 98]> (<[0 := 97]> (rbuf (r_buf (ring_of 0)))))))).

Lemma typed_holds : rholds typed_ring typed.
Proof.
  pose proof (ring_of_holds 0) as H.
  do 5 (match type of H with rholds ?r ?l => match eval cbn in (typed !! length l) with Some ?c =>
    pose proof (holds_push r l H c eq_refl) as H'; clear H; rename H' into H; cbn [app] in H end end).
  exact H.
Qed.
