(* ===== verification/Irq.v ===== *)
(** * Interrupt handlers (src/kernel/interrupt.c, exception.S)

    The handlers of the timer and of the console, the tasks they defer, and
    the timers' callbacks, on the state of Uart.  A function pointer is a
    number; [call_task] and [call_timer] say what is at it.  The data of a
    task is the address of a variable of the handler that queued it: the
    variable is in [locals] until that handler returns.  [irq_handler] is the
    entry of exception.S around them. *)

From S2P Require Import Prelude Cpu Buddy RingBuf TaskQueue KList Process Uart Str.

Definition WRITE_PRIO : Z := 0.
Definition TIMER_PRIO : Z := 1.
Definition READ_PRIO : Z := 2.
Definition TIMER_INT : Z := 10.
Definition CORE0_TIMER_IRQ_CTRL : Z := 0x40000040 + v_kernel_space.

(** Function pointers. *)
Definition FN_tx_int_task : Z := 1.
Definition FN_rx_int_task : Z := 2.
Definition FN_process_timer : Z := 3.
Definition FN_elasped_time : Z := 4.
Definition FN_print_msg : Z := 5.

(** The timers' part of the state. *)
Definition timers (s : io) : tst :=
  let x := q_ext s in mk_tst (mk_rst (io_cpu s) (i_timers x)) (i_cntpct x) (i_tval x) (i_timer_on x).
Definition set_timers (t : tst) (s : io) : io :=
  set_qext (set_itimer t (q_ext s)) (set_io_cpu (r_cpu (timer_queue t)) s).
Definition on_timer {A} (m : M tst A) : M io A := zoom timers set_timers m.

Definition enable_timer_int : M io unit := on_timer (modify (λ t, mk_tst (timer_queue t) (cntpct t) (cntp_tval t) true)).
Definition disable_timer_int : M io unit := on_timer (modify (λ t, mk_tst (timer_queue t) (cntpct t) (cntp_tval t) false)).

Section Irq.
Context `{!NodeAlloc}.

(** ** Variables whose address is taken *)

Definition new_local (v : local) : M io Z :=
  s ← get_st;
  let a := fresh_addr (dom (locals (q_ext s))) in
  ext_upd (λ x, set_locals (<[a := v]> (locals x)) x) ;;
  mret a.
Definition drop_local (a : Z) : M io unit := ext_upd (λ x, set_locals (delete a (locals x)) x).
Definition read_char (a : Z) : M io Z :=
  s ← get_st; deref (match locals (q_ext s) !! a with Some (L_char c) => Some c | _ => None end).
Definition read_timer (a : Z) : M io timer_queue_element :=
  s ← get_st; deref (match locals (q_ext s) !! a with Some (L_timer e) => Some e | _ => None end).

(** ** Callbacks of timers *)

Definition elasped_time (data : Z) : M io unit :=
  s ← get_st;
  on_timer (add_timer FN_elasped_time (Z.shiftr (cntfrq (q_ext s)) 5) 0) ;;
  ext_upd (set_need true).

(** [printf] sends the characters before the terminator, and the newline. *)
Definition print_msg (data : Z) : M io unit :=
  s ← get_st;
  msg ← deref (texts (q_ext s) !! data);
  n ← lift (strlen msg);
  put_chars (take (Z.to_nat n) msg ++ [13; 10]) ;;
  on_procs (p_free data) ;;
  ext_upd (λ x, set_texts (delete data (texts x)) x).

Definition call_timer (handler data : Z) : M io unit :=
  if handler =? FN_elasped_time then elasped_time data
  else if handler =? FN_print_msg then print_msg data
  else ub.

(** ** Tasks *)

Definition process_timer (data : Z) : M io unit :=
  e ← read_timer data;
  call_timer (t_handler e) (t_data e) ;;
  on_timer process_timer_reprogram.

Definition tx_int_task (data : Z) : M io unit :=
  c ← read_char data;
  ext_upd (λ x, set_out (io_out x ++ [c]) x) ;;
  s ← get_st;
  on_procs (wake_first W (ring_buf_remain_e (r_buf (wbuffer s)))) ;;
  s ← get_st;
  if negb (ring_buf_empty (r_buf (wbuffer s))) then enable_write_int else mret tt.

Definition rx_int_task (data : Z) : M io unit :=
  c ← read_char data;
  on_r (ring_buf_produce c) ;;
  s ← get_st;
  on_procs (wake_first R (ring_buf_num_e (r_buf (rbuffer s)))) ;;
  enable_read_int.

Definition call_task (handler data : Z) : M io unit :=
  if handler =? FN_tx_int_task then tx_int_task data
  else if handler =? FN_rx_int_task then rx_int_task data
  else if handler =? FN_process_timer then process_timer data
  else ub.

(** [fuel] bounds the number of tasks run; the queue holds at most 511. *)
Definition FUEL : nat := 513.
Definition run_tasks : M io unit := process_task call_task FUEL None.

(** ** Handlers *)

(** The result is the address of a variable kept alive: the process was
    preempted, and goes on with [timer_int_rest] when it runs again. *)
Definition timer_int_rest (a : Z) : M io unit := io_disable_int ;; drop_local a.

Definition timer_int : M io (option Z) :=
  disable_timer_int ;;
  s ← get_st;
  if ring_buf_empty (r_buf (timer_queue (timers s))) then mret None
  else
    e ← on_timer (on_timers ring_buf_consume);
    a ← new_local (L_timer e);
    add_task call_task FUEL FN_process_timer TIMER_PRIO a ;;
    run_tasks ;;
    s ← get_st;
    if need_schedule (q_ext s) then
      ext_upd (set_need false) ;;
      io_enable_int ;;
      none ← on_procs (list_empty Ready);
      on_procs schedule ;;
      if (none : bool) then timer_int_rest a ;; mret None else mret (Some a)
    else drop_local a ;; mret None.

Definition tx_int : M io unit :=
  disable_write_int ;;
  c ← on_w ring_buf_consume;
  a ← new_local (L_char c);
  add_task call_task FUEL FN_tx_int_task WRITE_PRIO a ;;
  run_tasks ;;
  drop_local a.

Definition rx_int : M io unit :=
  disable_read_int ;;
  s ← get_st;
  a ← new_local (L_char (io_in (q_ext s)));
  add_task call_task FUEL FN_rx_int_task READ_PRIO a ;;
  run_tasks ;;
  drop_local a.

(** ** The interrupt vector (exception.S) *)

(** The handler of the request, from what the two interrupt controllers'
    registers hold. *)
Definition irq_dispatch (core0_irq_source iir : Z) : M io (option Z) :=
  if negb (Z.land core0_irq_source 2 =? 0) then timer_int
  else if Z.land iir 6 =? 2 then tx_int ;; mret None
  else if Z.land iir 6 =? 4 then rx_int ;; mret None
  else mret None.

(** [irq_handler].  The processor saves its mask in SPSR and masks interrupts; [save_all] keeps
    SPSR in the frame, and [load_all] and [eret] restore the mask from there.
    A handler that was preempted by another process comes back with the
    address of its variable, and the frame stays on the preempted process's
    stack. *)
Definition irq_handler (core0_irq_source iir : Z) : M io (option Z) :=
  s ← get_st;
  let spsr := daif_masked (io_cpu s) in
  io_disable_int ;;
  r ← irq_dispatch core0_irq_source iir;
  match r with
  | Some a => mret (Some a)
  | None =>
      s ← get_st;
      let c := io_cpu s in
      modify (set_io_cpu (mk_cpu (irq_nested_count c - 1) spsr (console c))) ;;
      mret None
  end.

(** ** Set-up *)

Definition init_timer_queue (timer_queue_buf : gmap Z timer_queue_element) : M io unit :=
  on_timer (modify (λ t, mk_tst (mk_rst (r_cpu (timer_queue t)) (ring_buf_init timer_queue_buf)) (cntpct t) (cntp_tval t) (timer_int_on t))) ;;
  s ← get_st;
  on_timer (add_timer FN_elasped_time (u64 (cntfrq (q_ext s) `quot` 1000 * TIMER_INT)) 0).

Definition core_timer_enable (timer_queue_buf : gmap Z timer_queue_element) : M io unit :=
  ext_upd (λ x, set_cntkctl (Z.lor (cntkctl x) 1) x) ;;
  enable_timer_int ;;
  init_timer_queue timer_queue_buf ;;
  set32 CORE0_TIMER_IRQ_CTRL 2.

(** ** The shell command *)

Definition space : list Z := lit " ".
Definition no_delim : list Z := lit "".

Definition shell_token (delim : list Z) (ctx : strtok_ctx) : M io (option Z * strtok_ctx) :=
  '(t, ctx) ← lift (strtok_r None None delim (Some ctx)); ctx ← deref ctx; mret (t, ctx).

(** [junk] is what fresh memory holds; [ctx] is [ctx_shell]. *)
Definition set_timeout (junk : Z → list Z) (ctx : strtok_ctx) : M io (Z * strtok_ctx) :=
  '(msg, ctx) ← shell_token space ctx;
  match msg with
  | None => mret (-1, ctx)
  | Some msg =>
      '(sec_str, ctx) ← shell_token space ctx;
      match sec_str with
      | None => mret (-1, ctx)
      | Some sec_str =>
          '(tail, ctx) ← shell_token no_delim ctx;
          match tail with
          | Some _ => mret (-1, ctx)
          | None =>
              n ← lift (strlen (token_str ctx sec_str));
              sec ← lift (str2u32 (token_str ctx sec_str) n);
              if sec =? 0 then mret (-1, ctx)
              else
                len ← lift (strlen (token_str ctx msg));
                data ← on_procs p_malloc;
                text ← lift (strcpy (junk (len + 1)) (token_str ctx msg));
                ext_upd (λ x, set_texts (<[data := text]> (texts x)) x) ;;
                s ← get_st;
                on_timer (add_timer FN_print_msg (u64 (cntfrq (q_ext s) * sec)) data) ;;
                mret (0, ctx)
          end
      end
  end.
End Irq.
