(* ===== verification/IrqProps.v ===== *)
(** * The interrupt handlers: lemmas and properties

    Runs of the handlers' parts, and of whole interrupts through [irq_handler]
    in the state of process code ([thread_ok]); then a character that [uart_write] accepts is
    transmitted, a character that arrives is read, and the tick of the
    scheduler re-arms itself and preempts the running process. *)

From S2P Require Import Prelude Cpu KList RingBuf TaskQueue TaskQueueThm Process ProcessInv ProcessThm ProcessProps Uart UartThm Irq.

(** ** Waking the first waiter *)

(** What [wake_first] does to the processes. *)
Definition wake (e : event) (avail : Z) (t : ps) : ps :=
  match queue t (Wait e) with
  | [] => t
  | p :: l =>
      match pcbs t !! p with
      | Some b =>
          if wait_data b <=? avail
          then set_queue Ready (queue t Ready ++ [p]) (set_pcbs (<[p := woken b]> (pcbs t)) (set_queue (Wait e) l t))
          else t
      | None => t
      end
  end.

Lemma wake_cpu e n c t : wake e n (set_pcpu c t) = set_pcpu c (wake e n t).
Proof.
  unfold wake. change (queue (set_pcpu c t) (Wait e)) with (queue t (Wait e)). destruct (queue t (Wait e)) as [|p l]; [done|].
  change (pcbs (set_pcpu c t)) with (pcbs t). destruct (pcbs t !! p) as [b|]; [|done]. by destruct (wait_data b <=? n).
Qed.

Lemma wake_wf e n t : proc_wf t → proc_wf (wake e n t).
Proof.
  intros Hwf. unfold wake. destruct (queue t (Wait e)) as [|p l] eqn:Hq; [done|].
  pose proof Hwf as [Hcore (Hlp & b0 & Hb0 & Hrun)].
  destruct (queue_block _ _ Hcore (Wait e) p) as (b & Hb & Hpl); [rewrite Hq; by left|]. rewrite Hb.
  destruct (wait_data b <=? n); [|done]. apply wait_place in Hpl as [Hst _].
  pose proof (core_wake t _ p b e [] l Hcore Hb Hq) as H. simpl in H.
  match type of H with core ?u _ => match goal with |- proc_wf ?v => replace v with u end end.
  2:{ unfold set_queue, set_queues, set_pcbs, queue. simpl. by rewrite insert_insert_ne. }
  split; [done|]. split; [done|]. exists b0. split; [|done]. simpl. rewrite lookup_insert_ne; [done|]. intros ->. simplify_eq. congruence.
Qed.

Lemma wake_first_run e n t : cpu_ok (p_cpu t) → (∀ p, p ∈ queue t (Wait e) → is_Some (pcbs t !! p)) →
  wake_first e n t = Ok (tt, wake e n t).
Proof.
  intros Hc Hq. apply wp_exact. unfold wake_first, wake, list_empty. wp_steps.
  destruct (queue t (Wait e)) as [|p l] eqn:E; [by wp_steps|]. rewrite bool_decide_false by done. wp_steps.
  rewrite E. simpl hd. destruct (Hq p ltac:(by left)) as [b Hb]. eapply wp_pcb_get; [done|]. rewrite Hb.
  destruct (wait_data b <=? n); [|by wp_steps]. unfold list_pop. wp_steps. rewrite E. wp_steps.
  eapply wp_wait_to_ready; [done|done|]. split; [done|]. f_equal. unfold queue, set_queue. simpl. by rewrite lookup_insert_ne.
Qed.

Lemma wf_waiters e t : proc_wf t → ∀ p, p ∈ queue t (Wait e) → is_Some (pcbs t !! p).
Proof. intros [Hcore _] p Hp. destruct (queue_block _ _ Hcore _ _ Hp) as (b & -> & _). done. Qed.

(** ** Running one task *)

Section One.
Context {X : Type} (call : Z → Z → M (tqs X) unit).

Lemma no_task fuel l c q p (x : X) : rholds q l → runnable p l = [] →
  process_task call (S fuel) None (mk_tqs (mk_rst c q) p x) = Ok (tt, mk_tqs (mk_rst c q) p x).
Proof.
  intros Hq Hl. apply wp_exact. cbn [process_task]. wp_step. wp_step. wp_step. wp_step. wp_step. cbn [task_queue r_buf].
  rewrite (holds_empty _ _ Hq). destruct l as [|e l]; [by wp_steps|]. rewrite bool_decide_false by done.
  wp_step. unfold on_tasks. wp_step. cbn [task_queue]. eapply wp_cell_get; [by eapply holds_head|]. cbn [cur_priority].
  simpl in Hl. destruct (p <? priority e); [by wp_steps|done].
Qed.

Lemma one_task fuel e l c q p (x x' : X) :
  cpu_ok c → 0 < irq_nested_count c → rholds q l → runnable p l = [] →
  call (k_handler e) (k_data e) (mk_tqs (mk_rst (leave c) q) (priority e) x) =
    Ok (tt, mk_tqs (mk_rst (leave c) q) (priority e) x') →
  process_task call (S (S fuel)) (Some e) (mk_tqs (mk_rst c q) p x) = Ok (tt, mk_tqs (mk_rst c q) p x').
Proof.
  intros Hc Hpos Hq Hl E. apply wp_exact. cbn [process_task]. wp_step. wp_step. wp_step. wp_step. wp_step. wp_step.
  wp_step. apply wp_zoom, wp_r_enable. wp_step.
  eapply wp_eq; [exact E|]. wp_step. apply wp_zoom, wp_r_disable. wp_step. wp_step.
  unfold set_cur_priority, set_task_queue, set_rcpu. cbn [task_queue cur_priority q_ext r_cpu r_buf].
  rewrite cpu_reenter by done. eapply wp_eq; [by apply (no_task fuel l)|]. done.
Qed.

(** [add_task] of a task that preempts, when nothing else may run. *)
Lemma add_one fuel h pr a l c q p (x x' : X) :
  cpu_ok c → 0 < irq_nested_count c → rholds q l → runnable p l = [] → pr < p →
  call h a (mk_tqs (mk_rst (leave c) q) pr x) = Ok (tt, mk_tqs (mk_rst (leave c) q) pr x') →
  add_task call (S (S fuel)) h pr a (mk_tqs (mk_rst c q) p x) = Ok (tt, mk_tqs (mk_rst c q) p x').
Proof.
  intros Hc Hpos Hq Hl Hp E. unfold add_task. erewrite bind_Ok by done. cbn [cur_priority].
  destruct (Z.ltb_spec pr p); [|lia]. by apply (one_task fuel (mk_task h pr a) l).
Qed.
End One.

(** [add_task] of a task that may not preempt, on an empty queue. *)
Lemma add_queued {X} (call : Z → Z → M (tqs X) unit) fuel h pr a c q p (x : X) :
  cpu_ok c → rholds q [] → p ≤ pr →
  ∃ q', rholds q' [mk_task h pr a] ∧
    add_task call fuel h pr a (mk_tqs (mk_rst c q) p x) = Ok (tt, mk_tqs (mk_rst c q') p x).
Proof.
  intros Hc Hq Hp. set (e := mk_task h pr a).
  destruct (insert_run priority (λ y, pr <? priority y) e [] (mk_rst c q)) as (q' & E & Hq');
    [done|done|done|apply sorted_nil|done|].
  exists q'. split; [done|]. unfold add_task. erewrite bind_Ok by done. cbn [cur_priority].
  destruct (Z.ltb_spec pr p); [lia|]. erewrite bind_Ok by done. cbn [task_queue r_buf] in *.
  rewrite (holds_full _ _ Hq), bool_decide_false by done. fold e. unfold mbind, M_bind in E |- *. unfold on_tasks, zoom. cbn [task_queue].
  destruct (ring_buf_produce e (mk_rst c q)) as [[[] s1]| |]; [|done..]. cbn [set_task_queue task_queue]. by rewrite E.
Qed.

(** A task at the front of the queue whose handler goes wrong. *)
Lemma first_task_ub {X} (call : Z → Z → M (tqs X) unit) fuel e l c q p (x : X) :
  cpu_ok c → rholds q (e :: l) → priority e ≤ p →
  (∀ s : tqs X, q_ext s = x → call (k_handler e) (k_data e) s = Ub) →
  process_task call (S fuel) None (mk_tqs (mk_rst c q) p x) = Ub.
Proof.
  intros Hc Hq Hp E. cbn [process_task]. erewrite bind_Ok by done.
  erewrite bind_Ok.
  2:{ erewrite bind_Ok by done. cbn [task_queue r_buf]. rewrite (holds_empty _ _ Hq), bool_decide_false by done.
      erewrite bind_Ok.
      2:{ unfold on_tasks, zoom, cell_get, mbind, M_bind, get_st. cbn [task_queue r_buf]. by rewrite (holds_head _ _ _ Hq). }
      cbn [cur_priority]. destruct (Z.ltb_spec p (priority e)); [lia|]. erewrite bind_Ok.
      2:{ unfold on_tasks, zoom. cbn [set_task_queue task_queue]. by rewrite (consume_run (mk_rst c q) l e). }
      done. }
  cbn beta iota. erewrite bind_Ok by done. erewrite bind_Ok by done. unfold mbind, M_bind. by rewrite E.
Qed.

(** ** The console's interrupts *)

(** A handler's entry: interrupts are masked, no queued task is urgent enough
    to preempt, and the processes are well formed. *)
Record irq_ok (s : io) (tasks : list task_queue_element) : Prop := mk_irq_ok {
  io_cpu_ok : cpu_ok (io_cpu s);
  io_masked : 0 < irq_nested_count (io_cpu s);
  io_tasks : rholds (r_buf (task_queue s)) tasks;
  io_idle : runnable (cur_priority s) tasks = [];
  io_procs : proc_wf (procs s);
}.

(** What the console's handlers leave alone. *)
Record io_same (s s' : io) : Prop := mk_io_same {
  is_tasks : task_queue s' = task_queue s;
  is_prio : cur_priority s' = cur_priority s;
  is_timers : timers s' = timers s;
  is_locals : locals (q_ext s') = locals (q_ext s);
  is_texts : texts (q_ext s') = texts (q_ext s);
  is_need : need_schedule (q_ext s') = need_schedule (q_ext s);
}.

Lemma io_same_trans s1 s2 s3 : io_same s1 s2 → io_same s2 s3 → io_same s1 s3.
Proof. intros [] []. split; congruence. Qed.

Lemma leave_ok c : cpu_ok c → 0 < irq_nested_count c → cpu_ok (leave c).
Proof.
  destruct c as [n m l]. intros [Hn Hm] Hpos; simpl in *. split; simpl; [lia|].
  destruct (Z.eqb_spec (n - 1) 0); [by rewrite bool_decide_false by lia|]. rewrite Hm, !bool_decide_true by lia. done.
Qed.

Lemma proc_wf_cpu c t : proc_wf t → cpu_ok c → proc_wf (set_pcpu c t).
Proof. intros [Hcore Hb] Hc. split; [by apply core_cpu|done]. Qed.

Lemma irq_ok_next s s' tasks : irq_ok s tasks → io_same s s' → proc_wf (procs s') → irq_ok s' tasks.
Proof.
  destruct s as [q p x], s' as [q' p' x']. intros [H1 H2 H3 H4 _] [E1 E2 _ _ _ _] Hp.
  cbn in E1, E2. subst. by split.
Qed.

Section Tasks.
Context `{!NodeAlloc} (c : cpu) (q : ring_buf task_queue_element) (p : Z).
Hypothesis Hc : cpu_ok c.
Abbreviation st := (mk_tqs (mk_rst c q) p).
Implicit Types x : iox.

Lemma on_procs_wake e n x : proc_wf (set_pcpu c (i_ps x)) →
  on_procs (wake_first e n) (st x) = Ok (tt, st (set_ips (set_pcpu c (wake e n (i_ps x))) x)).
Proof.
  intros Hwf. unfold on_procs, zoom. change (procs (st x)) with (set_pcpu c (i_ps x)).
  rewrite wake_first_run; [|done|by apply wf_waiters]. by rewrite wake_cpu.
Qed.

Lemma read_char_run a ch x : locals x !! a = Some (L_char ch) → read_char a (st x) = Ok (ch, st x).
Proof. intros Ha. unfold read_char, mbind, M_bind, get_st. cbn [q_ext]. by rewrite Ha. Qed.

Lemma set32_run a v x : is_Some (mmio x !! a) → set32 a v (st x) = Ok (tt, st (set_mmio (<[a := v]> (mmio x)) x)).
Proof. intros [u Hu]. unfold set32, get32, mbind, M_bind, get_st. cbn [q_ext]. by rewrite Hu. Qed.

Lemma get32_run a v x : mmio x !! a = Some v → get32 a (st x) = Ok (v, st x).
Proof. intros Hu. unfold get32, mbind, M_bind, get_st. cbn [q_ext]. by rewrite Hu. Qed.

Lemma ier_run (f : Z → Z) d x : mmio x !! AUX_MU_IER_REG = Some d →
  (data ← get32 AUX_MU_IER_REG; set32 AUX_MU_IER_REG (f data)) (st x) =
    Ok (tt, st (set_mmio (<[AUX_MU_IER_REG := f d]> (mmio x)) x)).
Proof. intros Hd. erewrite bind_Ok by by apply get32_run. by apply set32_run. Qed.

Lemma tx_task_run a ch l d x : proc_wf (set_pcpu c (i_ps x)) →
  locals x !! a = Some (L_char ch) → rholds (i_w x) l → mmio x !! AUX_MU_IER_REG = Some d →
  tx_int_task a (st x) = Ok (tt, st (set_mmio (tx_on l (mmio x) d)
    (set_ips (set_pcpu c (wake W (BUFLEN - 1 - Z.of_nat (length l)) (i_ps x))) (set_out (io_out x ++ [ch]) x)))).
Proof.
  intros Hwf Ha Hl Hd. pose proof (rh_len _ _ Hl). unfold tx_int_task. erewrite bind_Ok by by apply read_char_run.
  erewrite bind_Ok by done. erewrite bind_Ok by done. cbn [set_qext q_ext task_queue cur_priority].
  change (ring_buf_remain_e _) with (ring_buf_remain_e (i_w x)). unfold ring_buf_remain_e, u32.
  rewrite (holds_diff _ l Hl), Z.mod_small by (unfold BUFLEN in *; lia).
  erewrite bind_Ok by by apply on_procs_wake. erewrite bind_Ok by done.
  change (ring_buf_empty _) with (ring_buf_empty (i_w x)). rewrite (holds_empty _ _ Hl).
  destruct l as [|y l]; simpl negb; cbn iota; [by destruct x|]. by erewrite (ier_run (λ v, Z.lor v 2)).
Qed.

Lemma rx_task_run a ch l d x : proc_wf (set_pcpu c (i_ps x)) →
  locals x !! a = Some (L_char ch) → rholds (i_r x) l → Z.of_nat (length l) < BUFLEN - 1 → mmio x !! AUX_MU_IER_REG = Some d →
  ∃ r, rholds r (l ++ [ch]) ∧ rx_int_task a (st x) = Ok (tt, st (set_mmio (<[AUX_MU_IER_REG := Z.lor d 1]> (mmio x))
    (set_ips (set_pcpu c (wake R (Z.of_nat (length l) + 1) (i_ps x))) (set_ir r x)))).
Proof.
  intros Hwf Ha Hl Hroom Hd. unfold rx_int_task. erewrite bind_Ok by by apply read_char_run.
  eexists. split; [by apply (holds_push _ _ Hl)|]. erewrite bind_Ok.
  2:{ unfold on_r, zoom. by rewrite (produce_run (rbuffer (st x)) l ch). }
  erewrite bind_Ok by done. pose proof (holds_push _ _ Hl ch Hroom) as Hr. set (r := mk_ring _ _ _) in *.
  change (ring_buf_num_e _) with (ring_buf_num_e r). unfold ring_buf_num_e, u32.
  rewrite (holds_diff _ _ Hr), length_app, Z.mod_small by (unfold BUFLEN in *; simpl; lia).
  simpl length. rewrite Nat2Z.inj_add. change (set_rbuffer _ (st x)) with (st (set_ir r x)).
  erewrite bind_Ok by by apply on_procs_wake. by erewrite (ier_run (λ v, Z.lor v 1)).
Qed.
End Tasks.

(** The interrupt request bits of the transmitter and the receiver. *)
Definition tx_off (d : Z) : Z := Z.land d (u32 (Z.lnot 2)).

Section Handlers.
Context `{!NodeAlloc}.

(** A handler that defers one preempting task: the variable it passes is live
    while the task runs, and gone afterwards. *)
Lemma defer_run c q p x h pr v tasks x' :
  cpu_ok c → 0 < irq_nested_count c → rholds q tasks → runnable p tasks = [] → pr < p →
  let a := fresh_addr (dom (locals x)) in
  call_task h a (mk_tqs (mk_rst (leave c) q) pr (set_locals (<[a := v]> (locals x)) x)) =
    Ok (tt, mk_tqs (mk_rst (leave c) q) pr x') → locals x' = <[a := v]> (locals x) →
  (a ← new_local v; add_task call_task FUEL h pr a ;; run_tasks ;; drop_local a) (mk_tqs (mk_rst c q) p x) =
    Ok (tt, mk_tqs (mk_rst c q) p (set_locals (locals x) x')).
Proof.
  intros Hc Hpos Hq Hl Hp a E Hloc. unfold new_local. erewrite bind_Ok by done. cbn beta. fold a.
  erewrite bind_Ok; [|apply (add_one _ _ h pr a tasks c q p _ x' Hc Hpos Hq Hl Hp E)].
  erewrite bind_Ok; [|by apply (no_task _ _ tasks)].
  unfold drop_local, ext_upd, modify. cbn [q_ext set_qext task_queue cur_priority]. rewrite Hloc, delete_insert_id; [done|].
  apply not_elem_of_dom. apply fresh_addr_new.
Qed.

Lemma tx_int_run s tasks ch l d :
  irq_ok s tasks → WRITE_PRIO < cur_priority s →
  rholds (i_w (q_ext s)) (ch :: l) → mmio (q_ext s) !! AUX_MU_IER_REG = Some d →
  ∃ s', tx_int s = Ok (tt, s') ∧ irq_ok s' tasks ∧ io_same s s' ∧
    io_out (q_ext s') = io_out (q_ext s) ++ [ch] ∧ rholds (i_w (q_ext s')) l ∧ i_r (q_ext s') = i_r (q_ext s) ∧
    mmio (q_ext s') = <[AUX_MU_IER_REG := tx_ier l (tx_off d)]> (mmio (q_ext s)) ∧
    procs s' = wake W (BUFLEN - 1 - Z.of_nat (length l)) (procs s).
Proof.
  destruct s as [[c q] p x]. intros [H1 H2 H3 H4 H5] Hp Hw Hd. cbn [task_queue cur_priority q_ext r_buf io_cpu r_cpu] in *.
  unfold procs in H5. cbn [io_cpu task_queue r_cpu q_ext] in H5.
  unfold tx_int, disable_write_int. erewrite bind_Ok by by apply (ier_run c q p (λ v, tx_off v) d).
  set (m1 := <[AUX_MU_IER_REG := tx_off d]> (mmio x)). erewrite bind_Ok.
  2:{ unfold on_w, zoom. by rewrite (consume_run (wbuffer _) l ch). }
  set (w := mk_ring _ _ _). assert (Hw' : rholds w l) by by eapply holds_pop.
  change (set_wbuffer _ _) with (mk_tqs (mk_rst c q) p (set_iw w (set_mmio m1 x))).
  assert (Hm1 : m1 !! AUX_MU_IER_REG = Some (tx_off d)) by apply lookup_insert_eq.
  pose proof (leave_ok c H1 H2) as Hlv. set (n := BUFLEN - 1 - Z.of_nat (length l)).
  erewrite defer_run; [|done..| |]; [|eapply (tx_task_run (leave c) q WRITE_PRIO Hlv _ ch l)|done]; simpl; [|by apply (proc_wf_cpu (leave c)) in H5|by rewrite lookup_insert_eq|done|done].
  eexists. split; [done|]. set (s' := mk_tqs _ _ _).
  assert (Hpr : procs s' = wake W n (set_pcpu c (i_ps x))).
  { unfold procs, s'. simpl. by rewrite wake_cpu. }
  assert (Hsame : io_same (mk_tqs (mk_rst c q) p x) s') by done.
  split_and!; [|done|done|done|done| |done].
  - apply (irq_ok_next (mk_tqs (mk_rst c q) p x)); [by split|done|]. rewrite Hpr. by apply wake_wf.
  - unfold s'. simpl. unfold m1. destruct l; simpl; by rewrite ?insert_insert_eq.
Qed.

Lemma rx_int_run s tasks l d :
  irq_ok s tasks → READ_PRIO < cur_priority s →
  rholds (i_r (q_ext s)) l → Z.of_nat (length l) < BUFLEN - 1 → mmio (q_ext s) !! AUX_MU_IER_REG = Some d →
  ∃ s', rx_int s = Ok (tt, s') ∧ irq_ok s' tasks ∧ io_same s s' ∧
    rholds (i_r (q_ext s')) (l ++ [io_in (q_ext s)]) ∧ i_w (q_ext s') = i_w (q_ext s) ∧ io_out (q_ext s') = io_out (q_ext s) ∧
    mmio (q_ext s') = <[AUX_MU_IER_REG := Z.lor (rx_off d) 1]> (mmio (q_ext s)) ∧
    procs s' = wake R (Z.of_nat (length l) + 1) (procs s).
Proof.
  destruct s as [[c q] p x]. intros [H1 H2 H3 H4 H5] Hp Hr Hroom Hd. cbn [task_queue cur_priority q_ext r_buf io_cpu r_cpu] in *.
  unfold procs in H5. cbn [io_cpu task_queue r_cpu q_ext] in H5.
  unfold rx_int, disable_read_int. erewrite bind_Ok by by apply (ier_run c q p (λ v, rx_off v) d).
  set (m1 := <[AUX_MU_IER_REG := rx_off d]> (mmio x)). erewrite bind_Ok by done. cbn [q_ext].
  assert (Hm1 : m1 !! AUX_MU_IER_REG = Some (rx_off d)) by apply lookup_insert_eq.
  pose proof (leave_ok c H1 H2) as Hlv. set (x1 := set_mmio m1 x). set (a := fresh_addr (dom (locals x1))).
  destruct (rx_task_run (leave c) q READ_PRIO Hlv a (io_in x) l (rx_off d) (set_locals (<[a := L_char (io_in x)]> (locals x1)) x1))
    as (r & Hr' & E); [by apply (proc_wf_cpu (leave c)) in H5|by simpl; rewrite lookup_insert_eq|done..|].
  erewrite defer_run; [|done..|exact E|done].
  eexists. split; [done|]. set (s' := mk_tqs _ _ _).
  assert (Hpr : procs s' = wake R (Z.of_nat (length l) + 1) (set_pcpu c (i_ps x))).
  { unfold procs, s'. simpl. by rewrite wake_cpu. }
  assert (Hsame : io_same (mk_tqs (mk_rst c q) p x) s') by done.
  split_and!; [|done|done|done|done| |done].
  - apply (irq_ok_next (mk_tqs (mk_rst c q) p x)); [by split|done|]. rewrite Hpr. by apply wake_wf.
  - unfold s'. simpl. unfold m1. by rewrite insert_insert_eq.
Qed.
End Handlers.

(** ** The timer *)

Lemma insert_by_cons {A} (key : A → Z) x l : ∃ y k, insert_by key x l = y :: k.
Proof. destruct l as [|z l]; simpl; [eauto|]. case_match; eauto. Qed.

(** The timers' part of the state, changed. *)
Definition tm_set (r : ring_buf timer_queue_element) (v : Z) (on : bool) (x : iox) : iox :=
  set_itimer (mk_tst (mk_rst (mk_cpu 0 false []) r) (i_cntpct x) v on) x.

Section Timer.
Context `{!NodeAlloc} (c : cpu) (q : ring_buf task_queue_element) (p : Z).
Hypothesis Hc : cpu_ok c.
Abbreviation st := (mk_tqs (mk_rst c q) p).
Implicit Types x : iox.

(** The scheduler's next timer. *)
Definition tick x : timer_queue_element := mk_timer FN_elasped_time (i_cntpct x) (Z.shiftr (cntfrq x) 5) 0.

(** The interval programmed for the first timer of a queue. *)
Definition interval (count : Z) (l : list timer_queue_element) (v : Z) : Z :=
  match l with [] => v | e :: _ => u64 (cur_ticks e + duration_ticks e - count) end.

Lemma elasped_run x l data : rholds (i_timers x) l → Z.of_nat (length l) < BUFLEN - 1 → sorted_by deadline l →
  ∃ r v, rholds r (insert_by deadline (tick x) l) ∧
    elasped_time data (st x) = Ok (tt, st (set_need true (tm_set r v (i_timer_on x) x))).
Proof.
  intros Hr Hlen Hs. destruct (add_timer_run (timers (st x)) l FN_elasped_time (Z.shiftr (cntfrq x) 5) 0) as (r & Hrr & E); [done..|].
  eexists r, _. split; [done|]. unfold elasped_time. erewrite bind_Ok by done. cbn [q_ext]. erewrite bind_Ok; [|unfold on_timer, zoom; by rewrite E].
  done.
Qed.

Lemma reprogram_run x l : rholds (i_timers x) l →
  on_timer process_timer_reprogram (st x) = Ok (tt, st (tm_set (i_timers x) (interval (i_cntpct x) l (i_tval x)) true x)).
Proof.
  intros Hr. set (t := mk_tst (mk_rst c (i_timers x)) (i_cntpct x) (interval (i_cntpct x) l (i_tval x)) true).
  enough (process_timer_reprogram (timers (st x)) = Ok (tt, t)) as E by (unfold on_timer, zoom; by rewrite E).
  apply wp_exact. unfold process_timer_reprogram. wp_step. wp_step. cbn [timers timer_queue r_buf q_ext]. rewrite (holds_empty _ _ Hr).
  destruct l as [|e l].
  { simpl. wp_steps. done. }
  rewrite bool_decide_false by done. simpl negb. cbn iota. wp_step. wp_step. unfold on_timers. wp_step.
  eapply wp_cell_get; [by eapply holds_head|]. wp_steps. done.
Qed.

Lemma process_timer_run x l a e : locals x !! a = Some (L_timer e) → t_handler e = FN_elasped_time →
  rholds (i_timers x) l → Z.of_nat (length l) < BUFLEN - 1 → sorted_by deadline l →
  ∃ r, rholds r (insert_by deadline (tick x) l) ∧
    process_timer a (st x) = Ok (tt, st (tm_set r (interval (i_cntpct x) (insert_by deadline (tick x) l) 0) true (set_need true x))).
Proof.
  intros Ha He Hr Hlen Hs. destruct (elasped_run x l (t_data e) Hr Hlen Hs) as (r & v & Hrr & E).
  exists r. split; [done|]. unfold process_timer, read_timer. erewrite bind_Ok.
  2:{ erewrite bind_Ok by done. cbn [q_ext]. by rewrite Ha. }
  unfold call_timer. rewrite He. cbn [Z.eqb FN_elasped_time Pos.eqb]. erewrite bind_Ok by exact E.
  erewrite reprogram_run by exact Hrr. by destruct (insert_by_cons deadline (tick x) l) as (y & k & ->).
Qed.
End Timer.

Section Props.
Context `{!NodeAlloc}.

(** Process code: interrupts are enabled, nothing is deferred, and the
    processes are well formed. *)
Record thread_ok (s : io) : Prop := mk_thread_ok {
  th_count : irq_nested_count (io_cpu s) = 0;
  th_mask : daif_masked (io_cpu s) = false;
  th_tasks : rholds (r_buf (task_queue s)) [];
  th_prio : cur_priority s = INIT_PRIO;
  th_procs : proc_wf (procs s);
}.

Lemma thread_cpu s : thread_ok s → cpu_ok (io_cpu s).
Proof. intros []. split; [lia|]. by rewrite th_mask0, th_count0. Qed.

Lemma thread_devs r w m s : thread_ok s → thread_ok (devs r w m s).
Proof. by intros []. Qed.

(** What the vector's handlers leave alone: the state of the processor too. *)
Lemma same_thread s s' : thread_ok s → io_same s s' → proc_wf (procs s') → thread_ok s'.
Proof.
  intros [H1 H2 H3 H4 _] [E1 E2 _ _ _ _] Hp. unfold io_cpu in *. rewrite <- E1 in H1, H2, H3. rewrite <- E2 in H4. by split.
Qed.

(** The state a handler runs in. *)
Definition taken (s : io) : io := set_io_cpu (enter (io_cpu s)) s.

Lemma taken_ok s : thread_ok s → irq_ok (taken s) [].
Proof.
  intros Hs. pose proof (thread_cpu s Hs) as Hc. destruct s as [[c q] p x]. destruct Hs as [H1 H2 H3 H4 H5].
  cbn [io_cpu r_cpu task_queue cur_priority] in *. split.
  - by apply enter_ok.
  - change (0 < irq_nested_count c + 1). lia.
  - exact H3.
  - done.
  - apply (proc_wf_cpu (enter c) _ H5). by apply enter_ok.
Qed.

Lemma procs_cpu s : set_pcpu (io_cpu s) (procs s) = procs s.
Proof. done. Qed.

(** The way through the vector to a handler that comes back. *)
Lemma irq_return s s1 t src iir : thread_ok s →
  irq_dispatch src iir (taken s) = Ok (None, s1) → io_same (taken s) s1 → procs s1 = set_pcpu (enter (io_cpu s)) t →
  ∃ s', irq_handler src iir s = Ok (None, s') ∧ io_same s s' ∧ q_ext s' = q_ext s1 ∧ procs s' = set_pcpu (io_cpu s) t.
Proof.
  intros Hth E Hs Hp. destruct s as [[c q] p x], s1 as [[c1 q1] p1 x1]. destruct Hs as [S1 S2 S3 S4 S5 S6].
  unfold taken in *. cbn in S1, S2, S4, S5, S6. injection S1 as -> ->. subst p1.
  exists (mk_tqs (mk_rst c q) p x1). unfold irq_handler. erewrite bind_Ok by done. cbn beta zeta. erewrite bind_Ok by done.
  erewrite bind_Ok by exact E. cbn beta iota. erewrite bind_Ok by done. cbn beta zeta. erewrite bind_Ok by done.
  assert (Ec : mk_cpu (irq_nested_count (enter c) - 1) (daif_masked c) (console (enter c)) = c).
  { destruct c as [n m' k]. unfold enter. simpl. f_equal. lia. }
  split_and!; [|split; try done| |].
  - unfold mret, M_ret. do 3 f_equal. unfold set_io_cpu, set_task_queue, set_rcpu. cbn [task_queue cur_priority q_ext r_buf io_cpu r_cpu]. by rewrite Ec.
  - unfold timers in *. cbn in S3 |- *. injection S3 as -> -> -> ->. done.
  - done.
  - unfold procs in Hp |- *. cbn in Hp |- *. destruct t, (i_ps x1). unfold set_pcpu in *. simpl in *. congruence.
Qed.

(** The transmitter's interrupt, taken in process code. *)
Lemma irq_tx s ch l d : thread_ok s → rholds (i_w (q_ext s)) (ch :: l) → mmio (q_ext s) !! AUX_MU_IER_REG = Some d →
  ∃ s', irq_handler 0 2 s = Ok (None, s') ∧ thread_ok s' ∧ io_same s s' ∧
    io_out (q_ext s') = io_out (q_ext s) ++ [ch] ∧ rholds (i_w (q_ext s')) l ∧ i_r (q_ext s') = i_r (q_ext s) ∧
    mmio (q_ext s') = <[AUX_MU_IER_REG := tx_ier l (tx_off d)]> (mmio (q_ext s)) ∧
    procs s' = wake W (BUFLEN - 1 - Z.of_nat (length l)) (procs s).
Proof.
  intros Hth Hw Hd. set (n := BUFLEN - 1 - Z.of_nat (length l)).
  destruct (tx_int_run (taken s) [] ch l d (taken_ok s Hth)) as (s1 & E & _ & Hs1 & Ho & Hw1 & Hr & Hm & Hp);
    [cbn [taken cur_priority set_io_cpu set_task_queue]; rewrite (th_prio _ Hth); reflexivity|done|done|].
  destruct (irq_return s s1 (wake W n (procs s)) 0 2 Hth) as (s' & E' & Hs' & Hx & Hp');
    [unfold irq_dispatch; simpl; by erewrite bind_Ok by exact E|done|rewrite Hp; exact (wake_cpu W n _ (procs s))|].
  rewrite <- wake_cpu, procs_cpu in Hp'. exists s'. rewrite Hx. split_and!; [done| |done..].
  apply (same_thread s); [done|done|]. rewrite Hp'. apply wake_wf, Hth.
Qed.

(** The receiver's. *)
Lemma irq_rx s l d : thread_ok s → rholds (i_r (q_ext s)) l → Z.of_nat (length l) < BUFLEN - 1 →
  mmio (q_ext s) !! AUX_MU_IER_REG = Some d →
  ∃ s', irq_handler 0 4 s = Ok (None, s') ∧ thread_ok s' ∧ io_same s s' ∧
    rholds (i_r (q_ext s')) (l ++ [io_in (q_ext s)]) ∧ i_w (q_ext s') = i_w (q_ext s) ∧ io_out (q_ext s') = io_out (q_ext s) ∧
    mmio (q_ext s') = <[AUX_MU_IER_REG := Z.lor (rx_off d) 1]> (mmio (q_ext s)) ∧
    procs s' = wake R (Z.of_nat (length l) + 1) (procs s).
Proof.
  intros Hth Hr Hroom Hd. set (n := Z.of_nat (length l) + 1).
  destruct (rx_int_run (taken s) [] l d (taken_ok s Hth)) as (s1 & E & _ & Hs1 & Hr1 & Hw1 & Ho & Hm & Hp);
    [cbn [taken cur_priority set_io_cpu set_task_queue]; rewrite (th_prio _ Hth); reflexivity|done..|].
  destruct (irq_return s s1 (wake R n (procs s)) 0 4 Hth) as (s' & E' & Hs' & Hx & Hp');
    [unfold irq_dispatch; simpl; by erewrite bind_Ok by exact E|done|rewrite Hp; exact (wake_cpu R n _ (procs s))|].
  rewrite <- wake_cpu, procs_cpu in Hp'. exists s'. rewrite Hx. split_and!; [done| |done..].
  apply (same_thread s); [done|done|]. rewrite Hp'. apply wake_wf, Hth.
Qed.

(** The transmitter: its interrupt is taken as long as it is requested and
    interrupts are not masked. *)
Fixpoint transmit (fuel : nat) : M io unit :=
  match fuel with
  | O => spin
  | S fuel' =>
      d ← get32 AUX_MU_IER_REG;
      c ← gets io_cpu;
      if Z.testbit d 1 && negb (daif_masked c) then irq_handler 0 2 ;; transmit fuel' else mret tt
  end.

(** The processes after the interrupts: after each byte the first waiter is
    woken if its request fits. *)
Fixpoint wakes (n : nat) (t : ps) : ps :=
  match n with O => t | S n' => wakes n' (wake W (BUFLEN - 1 - Z.of_nat n') t) end.

Lemma tx_off_idem d : tx_off (tx_off d) = tx_off d.
Proof. unfold tx_off. by rewrite <- Z.land_assoc. Qed.
Lemma tx_off_on d : tx_off (Z.lor d 2) = tx_off d.
Proof.
  unfold tx_off. apply Z.bits_inj'. intros i Hi. rewrite !Z.land_spec, Z.lor_spec.
  destruct (decide (i = 1)) as [->|]; [by rewrite !andb_false_r|].
  replace (Z.testbit 2 i) with false; [by rewrite orb_false_r|]. symmetry.
  change 2 with (2 ^ 1). rewrite Z.pow2_bits_eqb by lia. apply Z.eqb_neq. lia.
Qed.

Lemma tx_off_bit d : Z.testbit (tx_off d) 1 = false.
Proof. unfold tx_off. rewrite Z.land_spec. apply andb_false_r. Qed.
Lemma tx_on_bit d : Z.testbit (Z.lor d 2) 1 = true.
Proof. rewrite Z.lor_spec. apply orb_true_r. Qed.

Lemma transmit_run l : ∀ s d,
  thread_ok s → rholds (i_w (q_ext s)) l → mmio (q_ext s) !! AUX_MU_IER_REG = Some d → Z.testbit d 1 = bool_decide (l ≠ []) →
  ∃ s', transmit (S (length l)) s = Ok (tt, s') ∧ thread_ok s' ∧ io_same s s' ∧
    io_out (q_ext s') = io_out (q_ext s) ++ l ∧ rholds (i_w (q_ext s')) [] ∧ i_r (q_ext s') = i_r (q_ext s) ∧
    mmio (q_ext s') !! AUX_MU_IER_REG = Some (match l with [] => d | _ => tx_off d end) ∧
    procs s' = wakes (length l) (procs s).
Proof.
  induction l as [|ch l IH]; intros s d Hok Hw Hd Hbit; cbn [transmit];
    (erewrite bind_Ok by (unfold get32, mbind, M_bind, get_st; by rewrite Hd)); erewrite bind_Ok by done; rewrite Hbit, (th_mask _ Hok).
  { exists s. rewrite app_nil_r. split_and!; done. }
  rewrite bool_decide_true by done.
  destruct (irq_tx s ch l d Hok Hw Hd) as (s1 & E1 & Hok1 & Hs1 & Ho1 & Hw1 & Hr1 & Hm1 & Hp1).
  destruct (IH s1 (tx_ier l (tx_off d))) as (s2 & E2 & Hok2 & Hs2 & Ho2 & Hw2 & Hr2 & Hm2 & Hp2); [done|done| | |].
  { rewrite Hm1. apply lookup_insert_eq. }
  { destruct l; cbn [tx_ier]; [by rewrite tx_off_bit|by rewrite tx_on_bit]. }
  exists s2. split_and!; [|done|by eapply io_same_trans| |done|congruence| |].
  - cbn [negb andb]. rewrite (bind_Ok _ _ _ _ _ E1). exact E2.
  - rewrite Ho2, Ho1. by rewrite <- app_assoc.
  - rewrite Hm2. destruct l; [done|]. simpl. by rewrite tx_off_on, tx_off_idem.
  - rewrite Hp2, Hp1. done.
Qed.


(** C29: A receiver's interrupt in process code (thread_ok: interrupts enabled,
    no deferred task, the initial priority, so the receiver's task is strictly
    more urgent and runs at once), with room in the buffer: through the vector,
    the byte in the data register goes to the end of the buffer, the first
    reader is woken once enough has arrived, the receiver's interrupt is
    enabled again, and [uart_read] by process code returns all bytes in the
    order of arrival. *)
Theorem rx_int_read s l d :
  thread_ok s → rholds (i_r (q_ext s)) l → Z.of_nat (length l) < BUFLEN - 1 → mmio (q_ext s) !! AUX_MU_IER_REG = Some d →
  ∃ s1 s2, irq_handler 0 4 s = Ok (None, s1) ∧ procs s1 = wake R (Z.of_nat (length l) + 1) (procs s) ∧ thread_ok s1 ∧ io_same s s1 ∧
    mmio (q_ext s1) !! AUX_MU_IER_REG = Some (Z.lor (rx_off d) 1) ∧
    uart_read (Z.of_nat (S (length l))) s1 = Ok (Some (l ++ [io_in (q_ext s)]), s2) ∧ rholds (i_r (q_ext s2)) [] ∧ thread_ok s2.
Proof.
  intros Hok Hr Hroom Hd.
  destruct (irq_rx s l d Hok Hr Hroom Hd) as (s1 & E1 & Hok1 & Hs1 & Hr1 & _ & _ & Hm1 & Hp1).
  destruct (uart_read_run s1 (l ++ [io_in (q_ext s)]) (Z.lor (rx_off d) 1) (thread_cpu _ Hok1)) with (n := S (length l))
    as (r & Hr2 & E2); [rewrite Hm1; apply lookup_insert_eq|done|rewrite length_app; simpl; lia|].
  rewrite take_ge in E2 by (rewrite length_app; simpl; lia). rewrite drop_ge in Hr2 by (rewrite length_app; simpl; lia).
  eexists s1, _. split_and!; [done|done|done|done| |exact E2|done|by apply thread_devs].
  rewrite Hm1. apply lookup_insert_eq.
Qed.

(** C40: A receiver interrupt that arrives while a more urgent task runs (for
    example the transmitter's, which runs with interrupts enabled) queues its
    task with the address of a variable of its own frame and returns: when the
    queue is processed at last, the task reads a variable that no longer
    exists. *)
Theorem rx_int_nested_dangling s d :
  cpu_ok (io_cpu s) → rholds (r_buf (task_queue s)) [] → cur_priority s < READ_PRIO →
  mmio (q_ext s) !! AUX_MU_IER_REG = Some d →
  ∃ s', rx_int s = Ok (tt, s') ∧ run_tasks (set_cur_priority INIT_PRIO s') = Ub.
Proof.
  destruct s as [[c q] p x]. intros Hc Hq Hp Hd. cbn [task_queue cur_priority q_ext r_buf io_cpu r_cpu] in *.
  set (m1 := <[AUX_MU_IER_REG := rx_off d]> (mmio x)). set (x1 := set_mmio m1 x). set (a := fresh_addr (dom (locals x1))).
  destruct (add_queued call_task FUEL FN_rx_int_task READ_PRIO a c q p (set_locals (<[a := L_char (io_in x1)]> (locals x1)) x1))
    as (q' & Hq' & E); [done|done|lia|].
  eexists. split.
  - unfold rx_int, disable_read_int. erewrite bind_Ok by by apply (ier_run c q p (λ v, rx_off v) d).
    erewrite bind_Ok by done. unfold new_local. erewrite bind_Ok by done. fold x1. cbn [q_ext]. fold a.
    erewrite bind_Ok by exact E. erewrite bind_Ok; [done|]. unfold run_tasks, FUEL. apply (no_task _ _ _ _ _ _ _ Hq').
    simpl. destruct (Z.ltb_spec p READ_PRIO); [done|lia].
  - apply (first_task_ub _ _ _ [] _ _ _ _ Hc Hq'); [done|]. intros s Hs.
    unfold call_task. cbn. unfold rx_int_task, read_char, mbind, M_bind, get_st. rewrite Hs. simpl. by rewrite lookup_delete_eq.
Qed.

Lemma sorted_tail {A} (key : A → Z) x l : sorted_by key (x :: l) → sorted_by key l.
Proof. intros Hs i j u v Hij Hu Hv. apply (Hs (S i) (S j) u v); [lia|done|done]. Qed.

(** Up to the decision to reschedule. *)
Lemma timer_task_run c q p x tasks e l :
  cpu_ok c → 0 < irq_nested_count c → rholds q tasks → runnable p tasks = [] → TIMER_PRIO < p →
  rholds (i_timers x) (e :: l) → sorted_by deadline (e :: l) → t_handler e = FN_elasped_time →
  let k := insert_by deadline (tick x) l in
  let a := fresh_addr (dom (locals x)) in
  ∃ r, rholds r k ∧
    timer_int (mk_tqs (mk_rst c q) p x) =
      (ext_upd (set_need false) ;; io_enable_int ;; none ← on_procs (list_empty Ready); on_procs schedule ;;
       if (none : bool) then timer_int_rest a ;; mret None else mret (Some a))
      (mk_tqs (mk_rst c q) p (tm_set r (interval (i_cntpct x) k 0) true (set_need true (set_locals (<[a := L_timer e]> (locals x)) x)))).
Proof.
  intros Hc Hpos Hq Hl Hp Ht Hs He k a. pose proof (rh_len _ _ Ht) as Hlen. simpl in Hlen.
  set (r1 := mk_ring (producer_idx (i_timers x)) (Z.rem (consumer_idx (i_timers x) + 1) BUFLEN) (rbuf (i_timers x))).
  assert (Hr1 : rholds r1 l) by by eapply holds_pop.
  set (x1 := set_locals (<[a := L_timer e]> (locals x)) (tm_set r1 (i_tval x) false x)).
  destruct (process_timer_run (leave c) q TIMER_PRIO (leave_ok c Hc Hpos) x1 l a e) as (r & Hr & E);
    [by simpl; rewrite lookup_insert_eq|done|done|lia|by eapply sorted_tail|].
  exists r. split; [done|]. unfold timer_int, disable_timer_int. erewrite bind_Ok by done. erewrite bind_Ok by done.
  change (ring_buf_empty _) with (ring_buf_empty (i_timers x)). rewrite (holds_empty _ _ Ht), bool_decide_false by done.
  erewrite bind_Ok.
  2:{ unfold on_timer, on_timers, zoom. by rewrite (consume_run (timer_queue (timers _)) l e). }
  unfold new_local. erewrite bind_Ok by done. cbn [q_ext]. change (fresh_addr _) with a.
  erewrite bind_Ok; [|by apply (add_one call_task _ FN_process_timer TIMER_PRIO a tasks c q p x1 _ Hc Hpos Hq Hl Hp E)].
  erewrite bind_Ok; [|by apply (no_task _ _ tasks)]. erewrite bind_Ok by done. done.
Qed.

(** C21: The scheduler's tick: [timer_int] takes the expired timer off the queue,
    arms the next tick (the queue stays sorted by deadline and the hardware is
    programmed for its first entry), turns the timer's interrupt on again and
    reschedules: the first ready process runs and the preempted one is the
    last ready one; if no other is ready, the handler returns to the
    interrupted process. *)
Theorem timer_int_preempts s tasks e l :
  irq_ok s tasks → TIMER_PRIO < cur_priority s →
  rholds (i_timers (q_ext s)) (e :: l) → sorted_by deadline (e :: l) → t_handler e = FN_elasped_time →
  let k := insert_by deadline (tick (q_ext s)) l in
  ∃ r s', timer_int s = Ok (r, s') ∧ rholds (i_timers (q_ext s')) k ∧ sorted_by deadline k ∧
    i_timer_on (q_ext s') = true ∧ i_tval (q_ext s') = interval (i_cntpct (q_ext s)) k 0 ∧ need_schedule (q_ext s') = false ∧
    match queue (procs s) Ready with
    | [] => r = None ∧ procs s' = procs s ∧ locals (q_ext s') = locals (q_ext s)
    | n :: rest => (∃ a, r = Some a ∧ locals (q_ext s') !! a = Some (L_timer e)) ∧
        current (procs s') = n ∧ queue (procs s') Ready = rest ++ [current (procs s)] ∧ proc_wf (procs s')
    end.
Proof.
  destruct s as [[c q] p x]. intros [H1 H2 H3 H4 H5] Hp Ht Hs He k. cbn [task_queue cur_priority q_ext r_buf io_cpu r_cpu] in *.
  destruct (timer_task_run c q p x tasks e l H1 H2 H3 H4 Hp Ht Hs He) as (r & Hr & E).
  unfold procs in H5. cbn [io_cpu task_queue r_cpu q_ext] in H5. rewrite E. clear E. fold k. set (a := fresh_addr _).
  assert (Hk : sorted_by deadline k) by (apply sorted_insert; by eapply sorted_tail).
  pose proof (schedule_run (set_pcpu (leave c) (i_ps x)) (proc_wf_cpu (leave c) _ H5 (leave_ok c H1 H2))) as Hsch.
  change (queue (procs (mk_tqs (mk_rst c q) p x)) Ready) with (queue (i_ps x) Ready). change (queue (set_pcpu _ _) Ready) with (queue (i_ps x) Ready) in Hsch.
  erewrite bind_Ok by done. erewrite bind_Ok by done.
  erewrite (bind_Ok (on_procs (list_empty Ready)) _ _ (bool_decide (queue (i_ps x) Ready = []))) by done.
  destruct (queue (i_ps x) Ready) as [|n rest].
  - erewrite bind_Ok; [|unfold on_procs, zoom; change (procs _) with (set_pcpu (leave c) (i_ps x)); by rewrite Hsch]. rewrite bool_decide_true by done.
    eexists None, _. split; [done|]. split_and!; try done.
    + transitivity (set_pcpu (enter (leave c)) (i_ps x)); [done|]. by rewrite cpu_reenter.
    + simpl. rewrite delete_insert_id; [done|]. apply not_elem_of_dom, fresh_addr_new.
  - rewrite bool_decide_false by done. apply wp_run in Hsch as ([] & t & E & Ht1 & Ht2 & Ht3 & Ht4).
    erewrite bind_Ok; [|unfold on_procs, zoom; change (procs _) with (set_pcpu (leave c) (i_ps x)); by rewrite E].
    eexists (Some a), _. split; [done|]. set (s' := set_procs _ _). assert (procs s' = t) as -> by by destruct t.
    split_and!; [done..| |done|by rewrite Ht4|done]. exists a. split; [done|]. apply lookup_insert_eq.
Qed.
End Props.

(** ** A concrete state *)

Definition irq_cpu : cpu := mk_cpu 1 true [].
Definition tick0 : timer_queue_element := mk_timer FN_elasped_time 0 100 0.

(** The ring that holds one element. *)
Definition ring_one {A} (x : A) : ring_buf A := mk_ring 1 0 (rbuf (r_buf (ring_of x))).

Lemma ring_one_holds {A} (x : A) : rholds (ring_one x) [x].
Proof.
  pose proof (holds_push _ _ (ring_of_holds x) x eq_refl) as Hp.
  apply (mk_rholds _ _ (rh_cons _ _ Hp)); [exact (rh_cells _ _ (ring_of_holds x))|vm_compute; discriminate|reflexivity|].
  intros [|i] y Hy; [|done]. injection Hy as <-. reflexivity.
Qed.

(** Two threads, nothing buffered, byte 65 received. *)
Definition io0 : io :=
  mk_tqs (mk_rst irq_cpu (r_buf (ring_of (mk_task 0 0 0)))) INIT_PRIO
    (mk_iox two_threads (r_buf (ring_of 0)) (r_buf (ring_of 0)) (ring_one tick0) 100 0 true 64000
       {[AUX_MU_IER_REG := 12]} 65 [] false ∅ ∅ 0).

Lemma io0_ok : irq_ok io0 [].
Proof.
  split; [split; [discriminate|reflexivity]|reflexivity|exact (ring_of_holds _)|reflexivity|].
  apply (proc_wf_cpu irq_cpu two_threads two_threads_wf). split; [discriminate|reflexivity].
Qed.

(** The same in process code. *)
Definition io_thread : io := set_io_cpu (mk_cpu 0 false []) io0.

Lemma io_thread_ok : thread_ok io_thread.
Proof.
  split; [reflexivity|reflexivity|exact (ring_of_holds _)|reflexivity|].
  apply (proc_wf_cpu (mk_cpu 0 false []) two_threads two_threads_wf). split; [discriminate|reflexivity].
Qed.


Lemma rx_int_read_witness :
  ∃ s1 s2, irq_handler (H := above_alloc) 0 4 io_thread = Ok (None, s1) ∧ uart_read 1 s1 = Ok (Some [65], s2).
Proof.
  destruct (rx_int_read (H := above_alloc) io_thread [] 12) as (s1 & s2 & E1 & _ & _ & _ & _ & E2 & _);
    [exact io_thread_ok|exact (ring_of_holds _)|vm_compute; reflexivity|reflexivity|].
  exists s1, s2. split; [exact E1|exact E2].
Defined.

Lemma rx_int_nested_dangling_witness :
  ∃ s', rx_int (H := above_alloc) (set_cur_priority WRITE_PRIO io0) = Ok (tt, s') ∧
    run_tasks (set_cur_priority INIT_PRIO s') = Ub.
Proof.
  apply (rx_int_nested_dangling (H := above_alloc) (set_cur_priority WRITE_PRIO io0) 12);
    [split; [discriminate|reflexivity]|exact (ring_of_holds _)|reflexivity|reflexivity].
Defined.

Lemma timer_int_preempts_witness :
  ∃ r s', timer_int (H := above_alloc) io0 = Ok (r, s') ∧ rholds (i_timers (q_ext s')) [tick (q_ext io0)] ∧ i_tval (q_ext s') = 2000.
Proof.
  destruct (timer_int_preempts (H := above_alloc) io0 [] tick0 []) as (r & s' & E & H1 & _ & _ & H2 & _);
    [exact io0_ok|reflexivity|exact (ring_one_holds _)| |reflexivity|].
  - intros i j x y Hij Hx Hy. destruct i as [|i]; [|done]. destruct j as [|j]; [|done]. injection Hx as <-. injection Hy as <-. done.
  - exists r, s'. split; [exact E|]. split; [exact H1|exact H2].
Defined.


Lemma uart_read_string_correct_witness :
  ∃ str' s', uart_read_string (replicate 8 0) 8 (devs typed_ring (r_buf (ring_of 0)) {[AUX_MU_IER_REG := 12]} io0) = Ok ((str', 2), s') ∧
    take 3 str' = [97; 99; 0] ∧ rholds (i_w (q_ext s')) [97; 98; 8; 32; 8; 99; 13; 10].
Proof.
  destruct (uart_read_string_correct (devs typed_ring (r_buf (ring_of 0)) {[AUX_MU_IER_REG := 12]} io0) [] 12) with
    (size := 8%nat) (str := replicate 8 0) (input := typed) (line := [97; 99]) (echo := [97; 98; 8; 32; 8; 99; 13; 10]) (rest := @nil Z)
    as (str' & r & w & _ & Hw & _ & _ & Hs & E);
    [split; [discriminate|reflexivity]|reflexivity|simpl; lia|reflexivity|exact typed_holds|exact (ring_of_holds _)|vm_compute; discriminate|reflexivity|].
  exists str'. eexists. split; [exact E|]. split; [exact Hs|exact Hw].
Defined.
