(* ===== verification/Printf.v ===== *)
(** * Formatted output (src/kernel/printf.c)

    The formatter behind [printf]; printf.h defines
    [PRINTF_DISABLE_SUPPORT_FLOAT], so that the floating point conversions are
    not compiled and their letters are printed like any unknown one.  A format
    is the list of the characters from the pointer on, terminator and what
    follows it included, and the variable arguments are a list.  The
    output function is a parameter [out], called with a character and its
    index, as in the code; [buffer] and [maxlen] are part of it. *)

From S2P Require Import Prelude Cpu TaskQueue Str Uart.

Definition PRINTF_NTOA_BUFFER_SIZE : Z := 32.
Definition FLAGS_ZEROPAD : Z := Z.shiftl 1 0.
Definition FLAGS_LEFT : Z := Z.shiftl 1 1.
Definition FLAGS_PLUS : Z := Z.shiftl 1 2.
Definition FLAGS_SPACE : Z := Z.shiftl 1 3.
Definition FLAGS_HASH : Z := Z.shiftl 1 4.
Definition FLAGS_UPPERCASE : Z := Z.shiftl 1 5.
Definition FLAGS_CHAR : Z := Z.shiftl 1 6.
Definition FLAGS_SHORT : Z := Z.shiftl 1 7.
Definition FLAGS_LONG : Z := Z.shiftl 1 8.
Definition FLAGS_LONG_LONG : Z := Z.shiftl 1 9.
Definition FLAGS_PRECISION : Z := Z.shiftl 1 10.

(** [flags & f] as a condition, and [flags &= ~f]. *)
Definition has (flags f : Z) : bool := negb (Z.land flags f =? 0).
Definition clear (flags f : Z) : Z := Z.land flags (u32 (Z.lnot f)).

(** An argument: the 64 bits of an integer or pointer, or a string. *)
Inductive va := A_int (w : Z) | A_str (s : list Z).

Definition next_int (l : list va) : res (Z * list va) :=
  match l with A_int w :: l' => Ok (w, l') | _ => Ub end.
Definition next_str (l : list va) : res (list Z * list va) :=
  match l with A_str s :: l' => Ok (s, l') | _ => Ub end.

(** ** Helpers *)

(** The loop runs over the characters before the terminator, [maxsize] at most. *)
Fixpoint strnlen_loop (str : list Z) (maxsize n : Z) : res Z :=
  match str with
  | [] => Ub
  | c :: str' => if (c =? NUL) || (maxsize =? 0) then Ok n else strnlen_loop str' (maxsize - 1) (n + 1)
  end.
Definition _strnlen_s (str : list Z) (maxsize : Z) : res Z := n ← strnlen_loop str maxsize 0; mret (u32 n).

Definition _is_digit (ch : Z) : bool := (48 <=? ch) && (ch <=? 57).

(** The number and the rest of the string. *)
Fixpoint atoi_loop (str : list Z) (i : Z) : res (Z * list Z) :=
  match str with
  | [] => Ub
  | c :: str' => if _is_digit c then atoi_loop str' (u32 (u32 (i * 10) + (c - 48))) else Ok (i, str)
  end.
Definition _atoi (str : list Z) : res (Z * list Z) := atoi_loop str 0.

Section Out.
Context {S : Type} (out : Z → Z → M S unit).

(** [n] spaces; the result is the next index. *)
Fixpoint spaces (n : nat) (idx : Z) : M S Z :=
  match n with
  | O => mret idx
  | Datatypes.S n' => out 32 idx ;; spaces n' (u64 (idx + 1))
  end.

(** The characters of [l] in order. *)
Fixpoint out_chars (l : list Z) (idx : Z) : M S Z :=
  match l with
  | [] => mret idx
  | c :: l' => out c idx ;; out_chars l' (u64 (idx + 1))
  end.

(** [buf] is the part of the array that is in use. *)
Definition _out_rev (idx : Z) (buf : list Z) (width flags : Z) : M S Z :=
  let start_idx := idx in
  let len := Z.of_nat (length buf) in
  idx ← (if negb (has flags FLAGS_LEFT) && negb (has flags FLAGS_ZEROPAD) then spaces (Z.to_nat (width - len)) idx else mret idx);
  idx ← out_chars (rev buf) idx;
  if has flags FLAGS_LEFT then spaces (Z.to_nat (width - u64 (idx - start_idx))) idx else mret idx.

(** [buf[len++] = c]; the array has 32 cells. *)
Definition push (buf : list Z) (c : Z) : res (list Z) :=
  if Z.of_nat (length buf) <? PRINTF_NTOA_BUFFER_SIZE then Ok (buf ++ [c]) else Ub.

(** [len--] *)
Definition pop (buf : list Z) : list Z := take (pred (length buf)) buf.

Definition room (buf : list Z) : bool := Z.of_nat (length buf) <? PRINTF_NTOA_BUFFER_SIZE.

(** Zeros while [len < limit] and there is room. *)
Fixpoint pad_zeros (fuel : nat) (buf : list Z) (limit : Z) : res (list Z) :=
  match fuel with
  | O => Ok buf
  | Datatypes.S fuel' =>
      if (Z.of_nat (length buf) <? limit) && room buf then buf ← push buf 48; pad_zeros fuel' buf limit else Ok buf
  end.

Definition push_if (b : bool) (buf : list Z) (c : Z) : res (list Z) := if b then push buf c else Ok buf.

(** The prefix for [#]. *)
Definition hash_prefix (buf : list Z) (base prec width flags : Z) : res (list Z) :=
  let len := Z.of_nat (length buf) in
  let buf :=
    if negb (has flags FLAGS_PRECISION) && negb (len =? 0) && ((len =? prec) || (len =? width)) then
      let buf := pop buf in
      if negb (Z.of_nat (length buf) =? 0) && (base =? 16) then pop buf else buf
    else buf in
  buf ← (if (base =? 16) && negb (has flags FLAGS_UPPERCASE) && room buf then push buf 120
         else if (base =? 16) && has flags FLAGS_UPPERCASE && room buf then push buf 88
         else if (base =? 2) && room buf then push buf 98
         else Ok buf);
  push_if (room buf) buf 48.

Definition sign (buf : list Z) (negative : bool) (flags : Z) : res (list Z) :=
  if room buf then
    if negative then push buf 45
    else if has flags FLAGS_PLUS then push buf 43
    else if has flags FLAGS_SPACE then push buf 32
    else Ok buf
  else Ok buf.

Definition _ntoa_format (idx : Z) (buf : list Z) (negative : bool) (base prec width flags : Z) : M S Z :=
  '(buf, width) ← lift (
    if negb (has flags FLAGS_LEFT) then
      let width :=
        if negb (width =? 0) && has flags FLAGS_ZEROPAD && (negative || has flags (Z.lor FLAGS_PLUS FLAGS_SPACE))
        then u32 (width - 1) else width in
      buf ← pad_zeros 32 buf prec;
      buf ← (if has flags FLAGS_ZEROPAD then pad_zeros 32 buf width else Ok buf);
      mret (buf, width)
    else mret (buf, width));
  buf ← lift (if has flags FLAGS_HASH then hash_prefix buf base prec width flags else Ok buf);
  buf ← lift (sign buf negative flags);
  _out_rev idx buf width flags.

Definition digit_char (upper : bool) (digit : Z) : Z := if digit <? 10 then 48 + digit else (if upper then 65 else 97) + digit - 10.

(** The [do] loop. *)
Fixpoint ntoa_digits (fuel : nat) (value base : Z) (upper : bool) (buf : list Z) : res (list Z) :=
  match fuel with
  | O => Ok buf
  | Datatypes.S fuel' =>
      buf ← push buf (digit_char upper (value mod base));
      let value := value / base in
      if negb (value =? 0) && room buf then ntoa_digits fuel' value base upper buf else Ok buf
  end.

Definition _ntoa_long (idx value : Z) (negative : bool) (base prec width flags : Z) : M S Z :=
  let flags := if value =? 0 then clear flags FLAGS_HASH else flags in
  buf ← lift (if negb (has flags FLAGS_PRECISION) || negb (value =? 0)
              then ntoa_digits 32 value base (has flags FLAGS_UPPERCASE) [] else Ok []);
  _ntoa_format idx buf negative (u32 base) prec width flags.

(** [long] and [long long] have the same size: the two functions agree. *)
Definition _ntoa_long_long : Z → Z → bool → Z → Z → Z → Z → M S Z := _ntoa_long.

(** ** Specifiers *)

Fixpoint parse_flags (format : list Z) (flags : Z) : res (Z * list Z) :=
  match format with
  | [] => Ub
  | c :: f' =>
      if c =? 48 then parse_flags f' (Z.lor flags FLAGS_ZEROPAD)
      else if c =? 45 then parse_flags f' (Z.lor flags FLAGS_LEFT)
      else if c =? 43 then parse_flags f' (Z.lor flags FLAGS_PLUS)
      else if c =? 32 then parse_flags f' (Z.lor flags FLAGS_SPACE)
      else if c =? 35 then parse_flags f' (Z.lor flags FLAGS_HASH)
      else Ok (flags, format)
  end.

Definition parse_width (format : list Z) (flags : Z) (args : list va) : res (Z * Z * list Z * list va) :=
  c ← ptr_get (head format);
  if _is_digit c then '(w, format) ← _atoi format; mret (w, flags, format, args)
  else if c =? 42 then
    '(w, args) ← next_int args;
    let w := i32 w in
    if w =? - 2 ^ 31 then Ub
    else if w <? 0 then mret (- w, Z.lor flags FLAGS_LEFT, tail format, args)
    else mret (w, flags, tail format, args)
  else mret (0, flags, format, args).

Definition parse_precision (format : list Z) (flags : Z) (args : list va) : res (Z * Z * list Z * list va) :=
  c ← ptr_get (head format);
  if c =? 46 then
    let flags := Z.lor flags FLAGS_PRECISION in
    let format := tail format in
    c ← ptr_get (head format);
    if _is_digit c then '(p, format) ← _atoi format; mret (p, flags, format, args)
    else if c =? 42 then
      '(p, args) ← next_int args;
      let p := i32 p in
      mret (if 0 <? p then p else 0, flags, tail format, args)
    else mret (0, flags, format, args)
  else mret (0, flags, format, args).

(** [ptrdiff_t], [intmax_t] and [size_t] are [long]. *)
Definition parse_length (format : list Z) (flags : Z) : res (Z * list Z) :=
  c ← ptr_get (head format);
  if c =? 108 then
    c2 ← ptr_get (head (tail format));
    if c2 =? 108 then mret (Z.lor (Z.lor flags FLAGS_LONG) FLAGS_LONG_LONG, tail (tail format)) else mret (Z.lor flags FLAGS_LONG, tail format)
  else if c =? 104 then
    c2 ← ptr_get (head (tail format));
    if c2 =? 104 then mret (Z.lor (Z.lor flags FLAGS_SHORT) FLAGS_CHAR, tail (tail format)) else mret (Z.lor flags FLAGS_SHORT, tail format)
  else if (c =? 116) || (c =? 106) || (c =? 122) then mret (Z.lor flags FLAGS_LONG, tail format)
  else mret (flags, format).

Definition is_signed (c : Z) : bool := (c =? 105) || (c =? 100).

(** The magnitude of a signed value of [bits] bits; [0 - value] overflows for
    the smallest one. *)
Definition magnitude (bits value : Z) : res Z :=
  if 0 <? value then Ok value else if value =? - 2 ^ (bits - 1) then Ub else Ok (0 - value).

(** d i u x X o b *)
Definition fmt_int (c idx flags width precision : Z) (args : list va) : M S (Z * list va) :=
  let base := if (c =? 120) || (c =? 88) then 16 else if c =? 111 then 8 else if c =? 98 then 2 else 10 in
  let flags := if base =? 10 then clear flags FLAGS_HASH else flags in
  let flags := if c =? 88 then Z.lor flags FLAGS_UPPERCASE else flags in
  let flags := if is_signed c then flags else clear flags (Z.lor FLAGS_PLUS FLAGS_SPACE) in
  let flags := if has flags FLAGS_PRECISION then clear flags FLAGS_ZEROPAD else flags in
  '(w, args) ← lift (next_int args);
  idx ← (if is_signed c then
           if has flags FLAGS_LONG_LONG then
             let value := i64 w in
             m ← lift (magnitude 64 value); _ntoa_long_long idx m (value <? 0) base precision width flags
           else if has flags FLAGS_LONG then
             let value := i64 w in
             m ← lift (magnitude 64 value); _ntoa_long idx m (value <? 0) base precision width flags
           else
             let value := if has flags FLAGS_CHAR then u8 w else if has flags FLAGS_SHORT then (u16 (w + 32768) - 32768) else i32 w in
             m ← lift (magnitude 32 value); _ntoa_long idx m (value <? 0) base precision width flags
         else
           if has flags FLAGS_LONG_LONG then _ntoa_long_long idx (u64 w) false base precision width flags
           else if has flags FLAGS_LONG then _ntoa_long idx (u64 w) false base precision width flags
           else
             let value := if has flags FLAGS_CHAR then u8 w else if has flags FLAGS_SHORT then u16 w else u32 w in
             _ntoa_long idx value false base precision width flags);
  mret (idx, args).

Definition fmt_char (idx flags width : Z) (args : list va) : M S (Z * list va) :=
  let pad := Z.to_nat (width - 1) in
  idx ← (if negb (has flags FLAGS_LEFT) then spaces pad idx else mret idx);
  '(w, args) ← lift (next_int args);
  out (u8 w) idx ;;
  idx ← (if has flags FLAGS_LEFT then spaces pad (u64 (idx + 1)) else mret (u64 (idx + 1)));
  mret (idx, args).

(** The characters [%s] copies. *)
Fixpoint str_chars (p : list Z) (limited : bool) (precision : Z) : res (list Z) :=
  match p with
  | [] => Ub
  | c :: p' =>
      if (c =? NUL) || (limited && (precision =? 0)) then Ok []
      else rest ← str_chars p' limited (precision - 1); mret (c :: rest)
  end.

Definition fmt_str (idx flags width precision : Z) (args : list va) : M S (Z * list va) :=
  '(p, args) ← lift (next_str args);
  l ← lift (_strnlen_s p (if precision =? 0 then u64 (-1) else precision));
  let l := if has flags FLAGS_PRECISION then (if l <? precision then l else precision) else l in
  let pad := Z.to_nat (width - l) in
  idx ← (if negb (has flags FLAGS_LEFT) then spaces pad idx else mret idx);
  cs ← lift (str_chars p (has flags FLAGS_PRECISION) precision);
  idx ← out_chars cs idx;
  idx ← (if has flags FLAGS_LEFT then spaces pad idx else mret idx);
  mret (idx, args).

Definition fmt_pointer (idx flags precision : Z) (args : list va) : M S (Z * list va) :=
  let flags := Z.lor flags (Z.lor FLAGS_ZEROPAD FLAGS_UPPERCASE) in
  '(w, args) ← lift (next_int args);
  idx ← _ntoa_long_long idx (u64 w) false 16 precision 16 flags;
  mret (idx, args).

Definition is_int (c : Z) : bool :=
  (c =? 100) || (c =? 105) || (c =? 117) || (c =? 120) || (c =? 88) || (c =? 111) || (c =? 98).

(** One conversion, from after the [%]. *)
Definition conversion (format : list Z) (idx : Z) (args : list va) : M S (list Z * Z * list va) :=
  '(flags, format) ← lift (parse_flags format 0);
  '(width, flags, format, args) ← lift (parse_width format flags args);
  '(precision, flags, format, args) ← lift (parse_precision format flags args);
  '(flags, format) ← lift (parse_length format flags);
  c ← lift (ptr_get (head format));
  '(idx, args) ← (if is_int c then fmt_int c idx flags width precision args
                  else if c =? 99 then fmt_char idx flags width args
                  else if c =? 115 then fmt_str idx flags width precision args
                  else if c =? 112 then fmt_pointer idx flags precision args
                  else out c idx ;; mret (u64 (idx + 1), args));
  mret (tail format, idx, args).

(** The loop over the format; every round consumes a character. *)
Fixpoint vsn_loop (fuel : nat) (format : list Z) (idx : Z) (args : list va) : M S Z :=
  match fuel with
  | O => spin
  | Datatypes.S fuel' =>
      c ← lift (ptr_get (head format));
      if c =? NUL then mret idx
      else if negb (c =? 37) then out c idx ;; vsn_loop fuel' (tail format) (u64 (idx + 1)) args
      else '(format, idx, args) ← conversion (tail format) idx args; vsn_loop fuel' format idx args
  end.

Definition _vsnprintf (maxlen : Z) (format : list Z) (args : list va) : M S Z :=
  idx ← vsn_loop (length format + 1) format 0 args;
  out NUL (if idx <? maxlen then idx else u64 (maxlen - 1)) ;;
  mret (i32 idx).
End Out.

(** ** The functions callers use *)

(** [_out_buffer] on a caller's array; [_out_null] for a NULL one. *)
Definition _out_buffer (maxlen character idx : Z) : M (list Z) unit :=
  let idx := u64 idx in
  if idx <? maxlen then
    s ← get_st; assert (idx <? Z.of_nat (length s)) ;; modify (λ s, <[Z.to_nat idx := character]> s)
  else mret tt.
Definition _out_null {S} (character idx : Z) : M S unit := mret tt.

(** [buffer] says whether the pointer is not NULL. *)
Definition vsnprintf_ (buffer : bool) (count : Z) (format : list Z) (args : list va) : M (list Z) Z :=
  _vsnprintf (if buffer then _out_buffer count else _out_null) count format args.
Definition snprintf_ : bool → Z → list Z → list va → M (list Z) Z := vsnprintf_.
Definition sprintf_ (buffer : bool) (format : list Z) (args : list va) : M (list Z) Z := vsnprintf_ buffer (u64 (-1)) format args.

(** *** The console *)

Definition _putchar (c : Z) : M io unit := uart_write_char c ;; mret tt.
Definition _out_char (character idx : Z) : M io unit := if negb (character =? 0) then _putchar character else mret tt.

Definition printf_ (format : list Z) (args : list va) : M io Z := _vsnprintf _out_char (u64 (-1)) format args.
Definition vprintf_ : list Z → list va → M io Z := printf_.

(** [fct] is the function with its argument. *)
Definition _out_fct {S} (fct : Z → M S unit) (character idx : Z) : M S unit := if negb (character =? 0) then fct character else mret tt.
Definition fctprintf {S} (fct : Z → M S unit) (format : list Z) (args : list va) : M S Z := _vsnprintf (_out_fct fct) (u64 (-1)) format args.
