(* ===== verification/PrintfThm.v ===== *)
(** * Theorems about formatted output

    A reference semantics of formats: the segments a format is written from,
    the text each stands for, and that [vsnprintf] prints the text of the
    segments, through any output function.  It is instantiated with the array
    of [snprintf] and with the console.  What is printed is parsed back by the
    functions of string.c. *)

From S2P Require Import Prelude Cpu RingBuf TaskQueue TaskQueueThm KList Process ProcessInv ProcessThm ProcessProps Str StrThm Uart UartThm Irq IrqProps Printf.

(** ** Digits *)

(** The digits of [v] in base [b], most significant first. *)
Fixpoint digits (fuel : nat) (b v : Z) : list Z :=
  match fuel with
  | O => []
  | S fuel' => (if v / b =? 0 then [] else digits fuel' b (v / b)) ++ [v mod b]
  end.

Lemma value_snoc b ds d : value b (ds ++ [d]) = value b ds * b + d.
Proof. unfold value. by rewrite fold_left_app. Qed.

Lemma rev_replicate {A} n (x : A) : rev (replicate n x) = replicate n x.
Proof. rewrite rev_alt. apply reverse_replicate. Qed.

Lemma wp_lift_pure {S A} (r : res A) a (Q : A → S → Prop) s : r = Ok a → Q a s → wp (lift r) Q s.
Proof. by intros -> H. Qed.
Lemma wp_bind_inv {S A B} (m : M S A) (k : A → M S B) Q s : wp (m ≫= k) Q s → wp m (λ a s', wp (k a) Q s') s.
Proof. unfold wp, mbind, M_bind. by destruct (m s) as [[a s']| |]. Qed.

Section Digits.
Context (b : Z) (Hb : 2 ≤ b).

Lemma div_bound v (n : nat) : 0 ≤ v < b ^ Z.of_nat (S n) → 0 ≤ v / b < b ^ Z.of_nat n.
Proof.
  intros Hv. split; [apply Z.div_pos; lia|]. apply Z.div_lt_upper_bound; [lia|].
  rewrite Nat2Z.inj_succ, Z.pow_succ_r in Hv by lia. lia.
Qed.

Lemma digits_range n v : Forall (λ d, 0 ≤ d < b) (digits n b v).
Proof.
  revert v. induction n as [|n IH]; intros v; cbn [digits]; [constructor|]. apply Forall_app. split.
  - destruct (_ =? _); [constructor|apply IH].
  - constructor; [|constructor]. apply Z.mod_pos_bound. lia.
Qed.

Lemma digits_value n v : 0 ≤ v < b ^ Z.of_nat n → value b (digits n b v) = v.
Proof.
  revert v. induction n as [|n IH]; intros v Hv; cbn [digits]. { change (b ^ Z.of_nat 0) with 1 in Hv. unfold value. simpl. lia. }
  rewrite value_snoc. pose proof (Z.div_mod v b ltac:(lia)) as Hd.
  destruct (Z.eqb_spec (v / b) 0) as [E|E]; [unfold value; simpl; lia|]. rewrite IH by by apply div_bound. lia.
Qed.

Lemma digits_length n v : (length (digits n b v) ≤ n)%nat.
Proof. revert v. induction n as [|n IH]; intros v; cbn [digits]; [done|]. rewrite length_app. destruct (_ =? _); simpl; [lia|]. specialize (IH (v / b)). lia. Qed.

Lemma digits_head n v : 0 < v < b ^ Z.of_nat n → ∃ d ds, digits n b v = d :: ds ∧ 0 < d < b.
Proof.
  revert v. induction n as [|n IH]; intros v Hv; cbn [digits]. { change (b ^ Z.of_nat 0) with 1 in Hv. lia. }
  pose proof (Z.div_mod v b ltac:(lia)) as Hd. pose proof (Z.mod_pos_bound v b ltac:(lia)).
  pose proof (div_bound v n ltac:(lia)). destruct (Z.eqb_spec (v / b) 0) as [E|E].
  - exists (v mod b), []. split; [done|]. nia.
  - destruct (IH (v / b)) as (d & ds & -> & ?); [lia|]. by exists d, (ds ++ [v mod b]).
Qed.

Lemma digits_fuel n : ∀ m v, (0 < n)%nat → (0 < m)%nat → 0 ≤ v < b ^ Z.of_nat n → v < b ^ Z.of_nat m → digits n b v = digits m b v.
Proof.
  induction n as [|n IH]; intros [|m] v Hn Hm Hv Hv'; [lia..|]. cbn [digits]. destruct (Z.eqb_spec (v / b) 0) as [E|E]; [done|].
  pose proof (div_bound v n Hv) as H1. pose proof (div_bound v m ltac:(lia)) as H2. f_equal.
  apply IH; [| |done|lia]; [destruct n|destruct m]; simpl in H1, H2; lia.
Qed.

Lemma push_ok buf c : (length buf < 32)%nat → push buf c = Ok (buf ++ [c]).
Proof. intros H. unfold push, PRINTF_NTOA_BUFFER_SIZE. by destruct (Z.ltb_spec (Z.of_nat (length buf)) 32); [|lia]. Qed.

Lemma room_true buf : (length buf < 32)%nat → room buf = true.
Proof. unfold room, PRINTF_NTOA_BUFFER_SIZE. lia. Qed.

Lemma ntoa_run up n : ∀ v buf, (0 < n)%nat → 0 ≤ v < b ^ Z.of_nat n → (length buf + n ≤ 32)%nat →
  ntoa_digits n v b up buf = Ok (buf ++ rev (digit_char up <$> digits n b v)).
Proof.
  induction n as [|n IH]; intros v buf Hf Hv Hl; [lia|]. cbn [ntoa_digits digits].
  rewrite push_ok by lia. cbn [mbind res_bind]. rewrite fmap_app, rev_app_distr. cbn [fmap list_fmap rev app].
  destruct (Z.eqb_spec (v / b) 0) as [E|E]; cbn [negb andb fmap list_fmap rev]; [done|].
  pose proof (div_bound v n Hv) as Hq. assert (0 < n)%nat by (destruct n; [simpl in Hq; lia|lia]).
  rewrite room_true by (rewrite length_app; simpl; lia). rewrite IH by (rewrite ?length_app; simpl; lia). by rewrite <- app_assoc.
Qed.
End Digits.

(** ** The reference semantics *)

(** What a conversion prints: an integer with its letter, whether it is
    [long], and its 64 bits; a string; a character. *)
Inductive conv := CInt (c : Z) (lng : bool) (w : Z) | CStr (s : list Z) | CChar (c : Z).

(** A piece of a format: a character, [%%], or a conversion with the flags [-]
    and [0] and a width. *)
Inductive seg := Text (c : Z) | Percent | Conv (lj zero : bool) (width : nat) (k : conv).

Definition base_of (c : Z) : Z := if (c =? 120) || (c =? 88) then 16 else if c =? 111 then 8 else if c =? 98 then 2 else 10.
Definition int_value (c : Z) (lng : bool) (w : Z) : Z :=
  if is_signed c then (if lng then i64 w else i32 w) else (if lng then u64 w else u32 w).

(** The digits of a number, its sign, and the padding: on the right with [-],
    zeros after the sign with [0], on the left otherwise. *)
Definition int_text (lj zero : bool) (width : nat) (sgn ds : list Z) : list Z :=
  let n := (width - (length sgn + length ds))%nat in
  if lj then sgn ++ ds ++ replicate n 32
  else if zero then sgn ++ replicate n 48 ++ ds
  else replicate n 32 ++ sgn ++ ds.

Definition str_text (lj : bool) (width : nat) (s : list Z) : list Z :=
  let pad := replicate (width - length s) 32 in if lj then s ++ pad else pad ++ s.

Definition number (c v : Z) : list Z := digit_char (c =? 88) <$> digits 32 (base_of c) (Z.abs v).

Definition seg_text (g : seg) : list Z :=
  match g with
  | Text c => [c]
  | Percent => [37]
  | Conv lj zero width (CInt c lng w) =>
      let v := int_value c lng w in int_text lj zero width (if v <? 0 then [45] else []) (number c v)
  | Conv lj zero width (CStr s) => str_text lj width s
  | Conv lj zero width (CChar c) => str_text lj width [c]
  end.

Definition conv_letters (k : conv) : list Z :=
  match k with CInt c lng _ => (if lng then [108] else []) ++ [c] | CStr _ => [115] | CChar _ => [99] end.
Definition width_text (width : nat) : list Z := if (width =? 0)%nat then [] else dec_digit <$> digits 32 10 (Z.of_nat width).
Definition seg_format (g : seg) : list Z :=
  match g with
  | Text c => [c]
  | Percent => [37; 37]
  | Conv lj zero width k =>
      37 :: (if lj then [45] else []) ++ (if zero then [48] else []) ++ width_text width ++ conv_letters k
  end.
Definition seg_args (g : seg) : list va :=
  match g with
  | Conv _ _ _ (CInt _ _ w) => [A_int w]
  | Conv _ _ _ (CStr s) => [A_str (s ++ [NUL])]
  | Conv _ _ _ (CChar c) => [A_int c]
  | _ => []
  end.

(** The segments the reference covers: the magnitude of the smallest signed
    number is not defined, 64 binary digits do not fit, and the padding of a
    number is limited by the array of the conversion. *)
Definition seg_ok (g : seg) : Prop :=
  match g with
  | Text c => c ≠ 0 ∧ c ≠ 37
  | Percent => True
  | Conv _ _ width (CInt c lng w) =>
      c ∈ [100; 105; 117; 120; 88; 111; 98] ∧ (c = 98 → lng = false) ∧ (width < 32)%nat ∧
      (is_signed c = true → int_value c lng w ≠ (if lng then - 2 ^ 63 else - 2 ^ 31))
  | Conv _ _ width (CStr s) => text s ∧ Z.of_nat (length s) < 2 ^ 32 ∧ Z.of_nat width < 2 ^ 32
  | Conv _ _ width (CChar c) => 0 < c < 256 ∧ Z.of_nat width < 2 ^ 32
  end.

Abbreviation gtext := (mbind seg_text).
Abbreviation gformat := (mbind seg_format).
Abbreviation gargs := (mbind seg_args).

(** ** The pure parts *)

(** The flags of a number that only [-], [0] and the letter set. *)
Definition int_flags (lj zero up : bool) (flags : Z) : Prop :=
  has flags FLAGS_LEFT = lj ∧ has flags FLAGS_ZEROPAD = zero ∧ has flags FLAGS_UPPERCASE = up ∧ has flags FLAGS_HASH = false ∧
  has flags FLAGS_PRECISION = false ∧ has flags FLAGS_PLUS = false ∧ has flags FLAGS_SPACE = false ∧
  has flags (Z.lor FLAGS_PLUS FLAGS_SPACE) = false.

Lemma pad_zeros_run fuel lim : lim ≤ 32 → ∀ buf, lim - Z.of_nat (length buf) ≤ Z.of_nat fuel →
  pad_zeros fuel buf lim = Ok (buf ++ replicate (Z.to_nat (lim - Z.of_nat (length buf))) 48).
Proof.
  intros Hl. induction fuel as [|fuel IH]; intros buf Hf; cbn [pad_zeros].
  { replace (Z.to_nat _) with O by lia. by rewrite app_nil_r. }
  destruct (Z.ltb_spec (Z.of_nat (length buf)) lim) as [H|H]; cbn [andb].
  - rewrite room_true by lia. rewrite push_ok by lia. cbn [mbind res_bind]. rewrite IH by (rewrite length_app; cbn [length]; lia).
    rewrite <- app_assoc. cbn [app]. do 3 f_equal. rewrite length_app. cbn [length].
    replace (Z.to_nat (lim - Z.of_nat (length buf))) with (Datatypes.S (Z.to_nat (lim - Z.of_nat (length buf + 1)))) by lia. done.
  - replace (Z.to_nat _) with O by lia. by rewrite app_nil_r.
Qed.

Lemma sign_run buf (neg : bool) flags : (length buf + (if neg then 1 else 0) ≤ 32)%nat →
  has flags FLAGS_PLUS = false → has flags FLAGS_SPACE = false → sign buf neg flags = Ok (buf ++ (if neg then [45] else [])).
Proof.
  intros Hl Hp Hs. unfold sign. rewrite Hp, Hs. destruct neg; [by rewrite room_true, push_ok by lia|].
  rewrite app_nil_r. by destruct (room buf).
Qed.

(** The flags a conversion is read with, and those [fmt_int] leaves. *)
Definition fl (lj zero lng : bool) : Z := Z.lor (Z.lor (if lj then 2 else 0) (if zero then 1 else 0)) (if lng then 256 else 0).
Definition int_fl (c flags : Z) : Z :=
  let flags := if base_of c =? 10 then clear flags FLAGS_HASH else flags in
  let flags := if c =? 88 then Z.lor flags FLAGS_UPPERCASE else flags in
  let flags := if is_signed c then flags else clear flags (Z.lor FLAGS_PLUS FLAGS_SPACE) in
  if has flags FLAGS_PRECISION then clear flags FLAGS_ZEROPAD else flags.

Definition letters : list Z := [100; 105; 117; 120; 88; 111; 98].

Lemma int_fl_ok c lj zero lng : c ∈ letters → let f := int_fl c (fl lj zero lng) in
  int_flags lj zero (c =? 88) f ∧ int_flags lj zero (c =? 88) (clear f FLAGS_HASH) ∧
  has f FLAGS_LONG_LONG = false ∧ has f FLAGS_LONG = lng ∧ has f FLAGS_CHAR = false ∧ has f FLAGS_SHORT = false.
Proof.
  intros H. unfold letters in H. repeat (apply elem_of_cons in H as [->|H]); [..|by apply elem_of_nil in H];
    destruct lj, zero, lng; vm_compute; tauto.
Qed.

Lemma base_ok c : 2 ≤ base_of c < 2 ^ 32.
Proof. unfold base_of. destruct (_ || _), (c =? 111), (c =? 98); lia. Qed.

Lemma magnitude_run bits v : v ≠ - 2 ^ (bits - 1) → magnitude bits v = Ok (Z.abs v).
Proof.
  intros H. unfold magnitude. destruct (Z.ltb_spec 0 v); [by rewrite Z.abs_eq by lia|].
  destruct (Z.eqb_spec v (- 2 ^ (bits - 1))); [done|]. by rewrite Z.abs_neq by lia.
Qed.

Lemma i32_range w : - 2 ^ 31 ≤ i32 w < 2 ^ 31.
Proof. unfold i32. pose proof (Z.mod_pos_bound (w + 2 ^ 31) (2 ^ 32)). lia. Qed.

Lemma i64_range w : - 2 ^ 63 ≤ i64 w < 2 ^ 63.
Proof. unfold i64. pose proof (Z.mod_pos_bound (w + 2 ^ 63) (2 ^ 64)). lia. Qed.

(** The digits of the value fit. *)
Lemma int_fits c lng w : c ∈ letters → (c = 98 → lng = false) →
  ∃ n, (0 < n)%nat ∧ (n + (if (int_value c lng w <? 0)%Z then 1 else 0) ≤ 32)%nat ∧ Z.abs (int_value c lng w) < base_of c ^ Z.of_nat n.
Proof.
  intros Hc Hb. assert (Hr : Z.abs (int_value c lng w) < 2 ^ (if lng then 64 else 32) ∧ (is_signed c = false → 0 ≤ int_value c lng w)).
  { unfold int_value, u64, u32. pose proof (i32_range w). pose proof (i64_range w).
    pose proof (Z.mod_pos_bound w (2 ^ 32)). pose proof (Z.mod_pos_bound w (2 ^ 64)). destruct (is_signed c), lng; lia. }
  destruct Hr as [Hr H0]. set (v := int_value c lng w) in *. clearbody v.
  destruct (decide (c = 98)) as [->|Hne].
  - rewrite Hb in Hr by done. specialize (H0 eq_refl). exists 32%nat. destruct (Z.ltb_spec v 0); [lia|]. split_and!; [lia..|exact Hr].
  - exists 22%nat. split_and!; [lia|destruct (v <? 0); lia|]. apply Z.lt_le_trans with (2 ^ 64); [destruct lng; lia|].
    unfold letters in Hc. repeat (apply elem_of_cons in Hc as [->|Hc]); [vm_compute; discriminate..|done|by apply elem_of_nil in Hc].
Qed.

Lemma strnlen_run str x : text str → ∀ m n, Z.of_nat (length str) ≤ m → strnlen_loop (str ++ NUL :: x) m n = Ok (n + Z.of_nat (length str)).
Proof.
  induction 1 as [|c str Hc Hs IH]; intros m n Hm; cbn [app strnlen_loop length] in *; [by rewrite Z.add_0_r|].
  unfold NUL at 1. destruct (Z.eqb_spec c 0), (Z.eqb_spec m 0); [lia..|]. cbn [orb]. rewrite IH by lia. f_equal. lia.
Qed.

Lemma str_chars_run str x n : text str → str_chars (str ++ NUL :: x) false n = Ok str.
Proof.
  intros H. revert n. induction H as [|c str Hc Hs IH]; intros n; cbn [app str_chars]; [done|].
  unfold NUL at 1. destruct (Z.eqb_spec c 0); [lia|]. cbn [orb andb]. by rewrite IH.
Qed.

Definition flag_char (c : Z) : bool := (c =? 48) || (c =? 45) || (c =? 43) || (c =? 32) || (c =? 35).

Lemma parse_flags_run (lj zero : bool) c f : flag_char c = false →
  parse_flags ((if lj then [45] else []) ++ (if zero then [48] else []) ++ c :: f) 0 = Ok (fl lj zero false, c :: f).
Proof.
  intros Hc. unfold flag_char in Hc. rewrite !orb_false_iff in Hc. destruct Hc as [[[[H1 H2] H3] H4] H5].
  destruct lj, zero; cbn [app parse_flags]; change (45 =? 48) with false; change (45 =? 45) with true; change (48 =? 48) with true; cbn match;
    by rewrite H1, H2, H3, H4, H5.
Qed.

Lemma atoi_run ds c f : Forall (λ d, 0 ≤ d < 10) ds → _is_digit c = false → ∀ i,
  atoi_loop ((dec_digit <$> ds) ++ c :: f) i = Ok (fold_left (λ v d, u32 (u32 (v * 10) + d)) ds i, c :: f).
Proof.
  intros Hds Hc. induction Hds as [|d ds Hd Hds IH]; intros i; cbn [fmap list_fmap app atoi_loop fold_left]; [by rewrite Hc|].
  replace (_is_digit (dec_digit d)) with true by (unfold _is_digit, dec_digit; lia).
  replace (dec_digit d - 48) with d by (unfold dec_digit; lia). apply IH.
Qed.

(** What follows a width. *)
Definition plain (c : Z) : bool := negb (flag_char c || _is_digit c || (c =? 42) || (c =? 46)).

Lemma width_run width c f flags args : Z.of_nat width < 2 ^ 32 → plain c = true →
  parse_width (width_text width ++ c :: f) flags args = Ok (Z.of_nat width, flags, c :: f, args) ∧
  ∃ d f', width_text width ++ c :: f = d :: f' ∧ flag_char d = false.
Proof.
  intros Hw Hp. unfold plain in Hp. rewrite negb_true_iff, !orb_false_iff in Hp. destruct Hp as [[[Hf Hd] H42] H46].
  unfold width_text. destruct (Nat.eqb_spec width 0) as [->|Hne].
  { cbn [app]. split; [|eauto]. unfold parse_width. cbn [head ptr_get mbind res_bind]. by rewrite Hd, H42. }
  assert (Hlt : 0 ≤ Z.of_nat width < 10 ^ Z.of_nat 32) by lia.
  destruct (digits_head 10 ltac:(lia) 32 (Z.of_nat width)) as (d & ds & E & Hdr); [lia|]. split.
  - pose proof (atoi_run _ c f (digits_range 10 ltac:(lia) 32 (Z.of_nat width)) Hd 0) as H. change 0 with (u32 0) in H at 2.
    rewrite fold_u32 in H. fold (value 10 (digits 32 10 (Z.of_nat width))) in H. rewrite digits_value in H by (done || lia).
    unfold u32 in H. rewrite Z.mod_small in H by lia. revert H. rewrite E. unfold parse_width, _atoi. cbn [fmap list_fmap app head ptr_get mbind res_bind].
    replace (_is_digit (dec_digit d)) with true by (unfold _is_digit, dec_digit; lia). by intros ->.
  - rewrite E. eexists _, _. split; [done|]. unfold flag_char, dec_digit. lia.
Qed.

Lemma length_run k f flags : (∃ lj zero width, seg_ok (Conv lj zero width k)) →
  parse_length (conv_letters k ++ f) flags =
    Ok (if k is CInt _ true _ then Z.lor flags FLAGS_LONG else flags, (if k is CInt c _ _ then c else if k is CStr _ then 115 else 99) :: f) ∧
  ∃ c f', conv_letters k ++ f = c :: f' ∧ plain c = true.
Proof.
  intros (lj & zero & width & Hok). destruct k as [c lng w|str|c]; [|by split; eauto..]. destruct Hok as [Hc _].
  repeat (apply elem_of_cons in Hc as [->|Hc]); [..|by apply elem_of_nil in Hc]; destruct lng; split; eauto; done.
Qed.

Lemma fl_long lj zero : Z.lor (fl lj zero false) FLAGS_LONG = fl lj zero true.
Proof. by destruct lj, zero. Qed.

Lemma digit_char_nz up b n v : 2 ≤ b → Forall (λ c, c ≠ 0) (digit_char up <$> digits n b v).
Proof.
  intros Hb. apply Forall_fmap. eapply Forall_impl; [by apply digits_range|]. intros d [Hd _]. unfold digit_char, compose.
  destruct up, (Z.ltb_spec d 10); lia.
Qed.

(** ** Through an output function *)

Section Render.
Context {S : Type} (out : Z → Z → M S unit) (R : list Z → S → Prop) (limit : nat) (Hlim : Z.of_nat limit < 2 ^ 64).

(** [R l s]: the characters [l] have been put out.  The next one can be, up to
    [limit] of them. *)
Hypothesis Hout : ∀ l c s, R l s → c ≠ 0 → (length l < limit)%nat → wp (out c (Z.of_nat (length l))) (λ _, R (l ++ [c])) s.

(** A piece of code that takes the index and puts out [cs]. *)
Definition emits (m : Z → M S Z) (cs : list Z) : Prop := ∀ l s,
  R l s → (length l + length cs ≤ limit)%nat →
  wp (m (Z.of_nat (length l))) (λ i s', i = Z.of_nat (length (l ++ cs)) ∧ R (l ++ cs) s') s.

Lemma emits_ret : emits mret [].
Proof. intros l s HR _. apply wp_ret. by rewrite app_nil_r. Qed.

Lemma emits_bind m1 m2 a b : emits m1 a → emits m2 b → emits (λ i, m1 i ≫= m2) (a ++ b).
Proof.
  intros H1 H2 l s HR Hl. rewrite length_app in Hl. apply wp_bind.
  eapply wp_mono; [apply H1; [done|lia]|]. intros i s' [-> HR']. rewrite (app_assoc l a b). apply H2; [done|]. rewrite length_app. lia.
Qed.

Lemma emits_cons c m cs : c ≠ 0 → emits m cs → emits (λ i, out c i ;; m (u64 (i + 1))) (c :: cs).
Proof using Hout Hlim.
  intros Hc H l s HR Hl. cbn [length] in Hl. apply wp_bind. eapply wp_mono; [apply Hout; [done..|lia]|]. intros [] s' HR'.
  replace (u64 (Z.of_nat (length l) + 1)) with (Z.of_nat (length (l ++ [c])))
    by (rewrite length_app; unfold u64; rewrite Z.mod_small; cbn [length]; lia).
  change (c :: cs) with ([c] ++ cs). rewrite (app_assoc l [c] cs). apply H; [done|]. rewrite length_app. cbn [length]. lia.
Qed.

Lemma out_chars_emits cs : Forall (λ c, c ≠ 0) cs → emits (out_chars out cs) cs.
Proof using Hout Hlim. induction 1; [apply emits_ret|by apply emits_cons]. Qed.

Lemma spaces_emits n : emits (spaces out n) (replicate n 32).
Proof using Hout Hlim. induction n; [apply emits_ret|by apply emits_cons]. Qed.

Lemma if_emits (b : bool) m cs : emits m cs → emits (λ i, if b then m i else mret i) (if b then cs else []).
Proof. destruct b; [done|]. intros _. apply emits_ret. Qed.

(** *** Integers *)

Lemma out_rev_emits buf width flags : Forall (λ c, c ≠ 0) buf → Z.of_nat width < 2 ^ 32 →
  emits (λ i, _out_rev out i buf (Z.of_nat width) flags)
    ((if negb (has flags FLAGS_LEFT) && negb (has flags FLAGS_ZEROPAD) then replicate (width - length buf) 32 else []) ++ rev buf ++
     (if has flags FLAGS_LEFT then replicate (width - length buf) 32 else [])).
Proof using Hout Hlim.
  intros Hbuf Hw. unfold _out_rev. replace (Z.to_nat _) with (width - length buf)%nat by lia.
  destruct (has flags FLAGS_LEFT); cbn [negb andb].
  - intros l s HR Hl. wp_steps. rewrite !length_app, length_rev in Hl. simpl in Hl.
    eapply wp_mono; [apply (out_chars_emits (rev buf)); [by apply Forall_rev|done|rewrite length_rev; lia]|]. intros i s' [-> HR']. cbn beta.
    rewrite length_app, length_rev. replace (u64 _) with (Z.of_nat (length buf)) by (unfold u64; rewrite Z.mod_small; lia).
    replace (Z.to_nat _) with (width - length buf)%nat by lia. rewrite <- (length_rev buf) at 2. rewrite <- length_app.
    cbn [app]. rewrite (app_assoc l). apply spaces_emits; [done|]. rewrite length_app, length_rev. lia.
  - rewrite app_nil_r. apply (emits_bind (λ i, if negb (has flags FLAGS_ZEROPAD) then _ else _) (λ i, _ ≫= λ j, mret j)).
    + apply (if_emits _ (spaces out _)), spaces_emits.
    + rewrite <- (app_nil_r (rev buf)). apply (emits_bind (out_chars out _) mret); [|apply emits_ret].
      rewrite app_nil_r. by apply out_chars_emits, Forall_rev.
Qed.

Lemma emits_lift {A} (r : res A) a (k : Z → A → M S Z) cs : r = Ok a → emits (λ i, k i a) cs → emits (λ i, lift r ≫= k i) cs.
Proof. intros -> H l s. apply H. Qed.

Lemma ntoa_format_emits ds (neg : bool) base (width : nat) lj zero up flags :
  int_flags lj zero up flags → Forall (λ c, c ≠ 0) ds → (length ds + (if neg then 1 else 0) ≤ 32)%nat → (width < 32)%nat →
  emits (λ i, _ntoa_format out i (rev ds) neg base 0 (Z.of_nat width) flags) (int_text lj zero width (if neg then [45] else []) ds).
Proof using Hout Hlim.
  intros (HL & HZ & _ & HH & HP & Hplus & Hsp & Hps) Hds Hl Hw. unfold _ntoa_format. rewrite HL, HZ, HH, Hps, orb_false_r.
  set (sg := if neg then [45] else []). assert (Hsg : length sg = if neg then 1%nat else 0%nat) by (unfold sg; by destruct neg).
  assert (Hsr : rev sg = sg) by (unfold sg; by destruct neg). assert (Hs0 : Forall (λ c, c ≠ 0) sg) by (unfold sg; destruct neg; auto).
  set (z := if negb lj && zero then (width - (length sg + length ds))%nat else O).
  set (width' := if negb lj && zero && neg then pred width else width).
  eapply (emits_lift _ (rev ds ++ replicate z 48, Z.of_nat width')).
  { destruct lj; cbn [negb andb]; [by rewrite app_nil_r|]. rewrite pad_zeros_run by lia. cbn [mbind res_bind].
    replace (Z.to_nat (0 - _)) with O by lia. cbn [replicate]. rewrite app_nil_r. destruct zero; cbn [negb andb] in *.
    - assert (Hw' : (if negb (Z.of_nat width =? 0) && true && neg then u32 (Z.of_nat width - 1) else Z.of_nat width) = Z.of_nat width').
      { unfold width', u32. destruct neg, (Z.eqb_spec (Z.of_nat width) 0); cbn [negb andb]; rewrite ?Z.mod_small by lia; lia. }
      rewrite Hw', pad_zeros_run by (rewrite ?length_rev; unfold width'; destruct neg; lia). cbn [mbind res_bind]. unfold mret, res_ret. do 4 f_equal.
      rewrite length_rev. unfold z, width'. rewrite Hsg. destruct neg; lia.
    - cbn [mbind res_bind]. unfold z. rewrite andb_false_r. cbn [andb]. by rewrite app_nil_r. }
  cbn beta iota. eapply (emits_lift _ _ _ _ eq_refl). cbn beta.
  assert (Hz : (length ds + z + length sg ≤ 32)%nat).
  { unfold z. rewrite !Hsg. clear -Hl Hw. destruct lj, zero, neg; cbn [negb andb] in *; lia. }
  eapply (emits_lift _ _ _ _ (sign_run (rev ds ++ replicate z 48) neg flags ltac:(rewrite length_app, length_rev, length_replicate; rewrite Hsg in Hz; lia) Hplus Hsp)). cbn beta.
  pose proof (out_rev_emits ((rev ds ++ replicate z 48) ++ sg) width' flags) as H. rewrite HL, HZ in H.
  rewrite !length_app, length_rev, length_replicate, !rev_app_distr, rev_involutive, Hsr, rev_replicate in H.
  replace (int_text _ _ _ _ _) with ((if negb lj && negb zero then replicate (width' - (length ds + z + length sg)) 32 else []) ++
    (sg ++ replicate z 48 ++ ds) ++ (if lj then replicate (width' - (length ds + z + length sg)) 32 else [])).
  { apply H; [|clear -Hw; unfold width'; destruct (_ && neg); lia]. apply Forall_app. split; [apply Forall_app; split; [by apply Forall_rev|by apply Forall_replicate]|done]. }
  unfold int_text, z, width'. destruct lj, zero; cbn [negb andb replicate app]; rewrite ?app_nil_r, <- ?app_assoc; try done;
    rewrite ?Nat.add_0_r, (Nat.add_comm (length ds)); done.
Qed.

Lemma ntoa_emits n v (neg : bool) b (width : nat) lj zero up flags :
  int_flags lj zero up flags → int_flags lj zero up (clear flags FLAGS_HASH) → 2 ≤ b < 2 ^ 32 →
  (0 < n)%nat → (n + (if neg then 1 else 0) ≤ 32)%nat → 0 ≤ v < b ^ Z.of_nat n → (width < 32)%nat →
  emits (λ i, _ntoa_long out i v neg b 0 (Z.of_nat width) flags)
    (int_text lj zero width (if neg then [45] else []) (digit_char up <$> digits 32 b v)).
Proof using Hout Hlim.
  intros Hf Hf' Hb Hn0 Hn Hv Hw. unfold _ntoa_long. set (flags' := if v =? 0 then _ else flags).
  assert (Hfl : int_flags lj zero up flags') by (unfold flags'; by destruct (v =? 0)). clearbody flags'.
  destruct Hfl as (HL & HZ & HU & HH & HP & Hrest) eqn:Hfl'. rewrite HP, HU.
  assert (Hv32 : 0 ≤ v < b ^ Z.of_nat 32) by (split; [lia|]; eapply Z.lt_le_trans; [apply Hv|apply Z.pow_le_mono_r; lia]).
  eapply emits_lift; [apply (ntoa_run b ltac:(lia)); [lia|done|done]|]. cbn beta. cbn [app].
  assert (Hlen : (length (digits 32 b v) ≤ n)%nat) by (rewrite (digits_fuel b ltac:(lia) 32 n) by (lia || done); apply digits_length).
  eapply ntoa_format_emits; [done|by apply digit_char_nz; lia|rewrite length_fmap; lia|done].
Qed.

Abbreviation done_with l cs args := (λ (r : Z * list va) s', r.1 = Z.of_nat (length (l ++ cs)) ∧ r.2 = args ∧ R (l ++ cs) s').

Lemma fmt_int_wp lj zero width c lng w args l s : let cs := seg_text (Conv lj zero width (CInt c lng w)) in
  seg_ok (Conv lj zero width (CInt c lng w)) → R l s → (length l + length cs ≤ limit)%nat →
  wp (fmt_int out c (Z.of_nat (length l)) (fl lj zero lng) (Z.of_nat width) 0 (A_int w :: args)) (done_with l cs args) s.
Proof using Hout Hlim.
  intros cs (Hc & Hb & Hw & Hmin) HR Hl. destruct (int_fits c lng w Hc Hb) as (n & Hn0 & Hn & Hv).
  destruct (int_fl_ok c lj zero lng Hc) as (Hf & Hf' & Hll & Hlong & Hch & Hsh).
  pose proof (ntoa_emits n (Z.abs (int_value c lng w)) (int_value c lng w <? 0) (base_of c) width lj zero (c =? 88) (int_fl c (fl lj zero lng))
    Hf Hf' (base_ok c) Hn0 Hn ltac:(lia) Hw) as He. fold (number c (int_value c lng w)) in He. specialize (He l s HR Hl).
  unfold fmt_int. fold (base_of c). change (if has _ FLAGS_PRECISION then _ else _) with (int_fl c (fl lj zero lng)). cbn zeta.
  rewrite Hll, Hlong, Hch, Hsh. cbn [next_int].
  assert (Hrun : ∀ m, (∀ t, m t = _ntoa_long out (Z.of_nat (length l)) (Z.abs (int_value c lng w)) (int_value c lng w <? 0) (base_of c) 0 (Z.of_nat width) (int_fl c (fl lj zero lng)) t) →
    wp (m ≫= λ idx, mret (idx, args)) (done_with l cs args) s).
  { intros m Hm. apply wp_bind. unfold wp at 1. rewrite Hm. revert He. unfold wp at 1. destruct (_ntoa_long _ _ _ _ _ _ _ _ s) as [[i s']| |]; [|done..].
    intros [-> HR']. by apply wp_ret. }
  unfold int_value in *. destruct (is_signed c) eqn:Hs; [specialize (Hmin eq_refl)|]; destruct lng; apply Hrun; intros t.
  - by rewrite (magnitude_run 64) by exact Hmin.
  - by rewrite (magnitude_run 32) by exact Hmin.
  - pose proof (Z.mod_pos_bound w (2 ^ 64) ltac:(lia)) as Hu. fold (u64 w) in Hu.
    by rewrite Z.abs_eq, (proj2 (Z.ltb_ge _ _)) by lia.
  - pose proof (Z.mod_pos_bound w (2 ^ 32) ltac:(lia)) as Hu. fold (u32 w) in Hu.
    by rewrite Z.abs_eq, (proj2 (Z.ltb_ge _ _)) by lia.
Qed.

(** *** Strings and characters *)

Lemma padded_emits (lj : bool) pad m cs : emits m cs →
  emits (λ i, i ← (if negb lj then spaces out pad i else mret i); i ← m i; if lj then spaces out pad i else mret i)
    (if lj then cs ++ replicate pad 32 else replicate pad 32 ++ cs).
Proof using Hout Hlim.
  intros Hm. destruct lj; cbn [negb].
  - apply (emits_bind mret (λ i, m i ≫= _) [] (cs ++ _)); [apply emits_ret|]. apply (emits_bind m); [done|apply spaces_emits].
  - apply (emits_bind (spaces out pad) (λ i, m i ≫= mret)); [apply spaces_emits|]. rewrite <- (app_nil_r cs).
    apply (emits_bind m mret); [done|apply emits_ret].
Qed.

Lemma fmt_str_wp lj zero width str args l s : let cs := seg_text (Conv lj zero width (CStr str)) in
  seg_ok (Conv lj zero width (CStr str)) → R l s → (length l + length cs ≤ limit)%nat →
  wp (fmt_str out (Z.of_nat (length l)) (fl lj zero false) (Z.of_nat width) 0 (A_str (str ++ [NUL]) :: args)) (done_with l cs args) s.
Proof using Hout Hlim.
  intros cs (Ht & Hl32 & Hw) HR Hl. unfold fmt_str. cbn [next_str].
  assert (HF : has (fl lj zero false) FLAGS_PRECISION = false ∧ has (fl lj zero false) FLAGS_LEFT = lj) by (by destruct lj, zero).
  destruct HF as [-> ->]. change (0 =? 0) with true. cbn match.
  assert (Hn : _strnlen_s (str ++ [NUL]) (u64 (-1)) = Ok (Z.of_nat (length str))).
  { unfold _strnlen_s. rewrite strnlen_run by (done || (change (u64 (-1)) with (2 ^ 64 - 1); lia)). unfold mbind, res_bind, mret, res_ret, u32.
    by rewrite Z.mod_small by lia. }
  pose proof (padded_emits lj (width - length str) (out_chars out str) str) as He.
  specialize (He (out_chars_emits str ltac:(eapply Forall_impl; [done|]; simpl; lia)) l s HR Hl).
  apply wp_bind, (wp_lift_pure _ _ _ _ eq_refl), wp_bind. eapply wp_lift_pure; [exact Hn|]. cbn zeta.
  replace (Z.to_nat _) with (width - length str)%nat by lia.
  apply wp_bind. eapply wp_mono; [exact (wp_bind_inv _ _ _ _ He)|]. intros i s1 H1. cbn beta in H1.
  apply wp_bind. eapply wp_lift_pure; [by apply str_chars_run|]. apply wp_bind. eapply wp_mono; [exact (wp_bind_inv _ _ _ _ H1)|]. intros i2 s2 H2.
  apply wp_bind. eapply wp_mono; [exact H2|]. intros i3 s3 [-> HR3]. by apply wp_ret.
Qed.

Lemma fmt_char_wp lj zero width c args l s : let cs := seg_text (Conv lj zero width (CChar c)) in
  seg_ok (Conv lj zero width (CChar c)) → R l s → (length l + length cs ≤ limit)%nat →
  wp (fmt_char out (Z.of_nat (length l)) (fl lj zero false) (Z.of_nat width) (A_int c :: args)) (done_with l cs args) s.
Proof using Hout Hlim.
  intros cs (Hc & Hw) HR Hl. unfold fmt_char.
  assert (HF : has (fl lj zero false) FLAGS_LEFT = lj) by (by destruct lj, zero). rewrite HF.
  assert (Hu : u8 c = c) by (unfold u8; rewrite Z.mod_small; lia).
  pose proof (padded_emits lj (width - 1) (λ i, out c i ;; mret (u64 (i + 1))) [c] (emits_cons c mret [] ltac:(lia) emits_ret) l s HR Hl) as He.
  replace (Z.to_nat _) with (width - 1)%nat by lia.
  apply wp_bind. eapply wp_mono; [exact (wp_bind_inv _ _ _ _ He)|]. intros i s1 H1. cbn beta in H1.
  apply wp_bind. eapply wp_lift_pure; [done|]. cbv beta iota. rewrite Hu. apply wp_bind_inv, wp_bind_inv in H1. apply wp_bind.
  eapply wp_mono; [exact H1|]. intros i2 s2 H2. cbn beta in H2.
  apply wp_bind. eapply wp_mono; [exact H2|]. intros i3 s3 [-> HR3]. by apply wp_ret.
Qed.

Lemma conversion_wp lj zero width k f args l s : let g := Conv lj zero width k in
  seg_ok g → R l s → (length l + length (seg_text g) ≤ limit)%nat →
  wp (conversion out (tail (seg_format g) ++ f) (Z.of_nat (length l)) (seg_args g ++ args))
    (λ '(f', i, args') s', f' = f ∧ i = Z.of_nat (length (l ++ seg_text g)) ∧ args' = args ∧ R (l ++ seg_text g) s') s.
Proof using Hout Hlim.
  intros g Hok HR Hl. unfold conversion, g. cbn [seg_format tail]. rewrite <- !app_assoc.
  assert (Hw : Z.of_nat width < 2 ^ 32) by (destruct k; simpl in Hok; lia).
  destruct (length_run k f (fl lj zero false)) as (Hlen & c & f' & Ef & Hp); [eauto|]. rewrite Ef in *.
  destruct (width_run width c f' (fl lj zero false) (seg_args g ++ args) Hw Hp) as (Hwid & d & f2 & Ew & Hd). rewrite Ew in *.
  apply wp_bind. eapply wp_lift_pure; [by apply parse_flags_run|]. cbv beta iota.
  apply wp_bind. eapply wp_lift_pure; [exact Hwid|]. cbv beta iota.
  apply wp_bind. eapply wp_lift_pure.
  { unfold parse_precision. cbn [head ptr_get mbind res_bind]. unfold plain in Hp. rewrite negb_true_iff, !orb_false_iff in Hp. by rewrite (proj2 Hp). }
  cbv beta iota. apply wp_bind. eapply wp_lift_pure; [exact Hlen|]. cbv beta iota. apply wp_bind. eapply wp_lift_pure; [done|]. apply wp_bind.
  destruct k as [c0 lng w|str|c0]; cbn [head tail].
  - assert (Hi : is_int c0 = true) by (destruct Hok as [Hc0 _]; clear -Hc0; by repeat (apply elem_of_cons in Hc0 as [->|Hc0]); [..|apply elem_of_nil in Hc0]).
    rewrite Hi. replace (if lng then _ else _) with (fl lj zero lng) by (destruct lng; [symmetry; apply fl_long|done]).
    eapply wp_mono; [by apply fmt_int_wp|]. intros [i a] s' (Ei & Ea & HR'). cbn [fst snd] in *. subst. by apply wp_ret.
  - eapply wp_mono; [by apply fmt_str_wp|]. intros [i a] s' (Ei & Ea & HR'). cbn [fst snd] in *. subst. by apply wp_ret.
  - eapply wp_mono; [by apply fmt_char_wp|]. intros [i a] s' (Ei & Ea & HR'). cbn [fst snd] in *. subst. by apply wp_ret.
Qed.

Lemma percent_wp f args l s : R l s → (length l < limit)%nat →
  wp (conversion out (37 :: f) (Z.of_nat (length l)) args)
    (λ '(f', i, args') s', f' = f ∧ i = Z.of_nat (length (l ++ [37])) ∧ args' = args ∧ R (l ++ [37]) s') s.
Proof using Hout Hlim.
  intros HR Hl. unfold conversion. do 5 (apply wp_bind; eapply wp_lift_pure; [done|]; cbv beta iota). apply wp_bind, wp_bind. cbn [head].
  eapply wp_mono; [apply Hout; [done..|lia]|]. intros [] s' HR'. apply wp_ret. cbv beta iota. apply wp_ret. split_and!; [done| |done..].
  rewrite length_app. unfold u64. rewrite Z.mod_small; cbn [length]; lia.
Qed.

Lemma vsn_run gs x args : Forall seg_ok gs → ∀ fuel l s, (length (gformat gs) < fuel)%nat → R l s → (length l + length (gtext gs) ≤ limit)%nat →
  wp (vsn_loop out fuel (gformat gs ++ NUL :: x) (Z.of_nat (length l)) (gargs gs ++ args))
    (λ i s', i = Z.of_nat (length (l ++ gtext gs)) ∧ R (l ++ gtext gs) s') s.
Proof using Hout Hlim.
  intros Hok. induction Hok as [|g gs Hg Hok IH]; intros [|fuel] l s Hf HR Hl; try (simpl in Hf; lia).
  { cbn [vsn_loop]. cbn. by rewrite app_nil_r. }
  rewrite !bind_cons in *. rewrite length_app in Hf, Hl. rewrite <- (app_assoc (seg_format g)), <- (app_assoc (seg_args g)), (app_assoc l).
  destruct g as [c| |lj zero width k]; cbn [vsn_loop].
  - destruct Hg as [H0 H37]. apply wp_bind. eapply wp_lift_pure; [done|]. cbn [seg_format seg_text seg_args app head tail].
    unfold NUL at 1. destruct (Z.eqb_spec c 0), (Z.eqb_spec c 37); [done..|]. cbn [negb]. simpl in Hf, Hl. apply wp_bind.
    eapply wp_mono; [apply Hout; [done..|lia]|]. intros [] s' HR'.
    replace (u64 _) with (Z.of_nat (length (l ++ [c]))) by (rewrite length_app; unfold u64; rewrite Z.mod_small; cbn [length]; lia).
    apply IH; [lia|done|]. rewrite length_app. cbn [length]. lia.
  - apply wp_bind. eapply wp_lift_pure; [done|]. cbn [seg_format seg_text seg_args app head tail]. simpl in Hf, Hl. change (37 =? NUL) with false.
    change (negb (37 =? 37)) with false. cbn match. apply wp_bind. eapply wp_mono; [apply percent_wp; [done|lia]|].
    intros [[f' i] a] s' (-> & -> & -> & HR'). apply IH; [lia|done|]. rewrite length_app. cbn [length]. lia.
  - apply wp_bind. eapply wp_lift_pure; [done|]. cbn [seg_format app head]. change (37 =? NUL) with false. change (negb (37 =? 37)) with false. cbn match.
    apply wp_bind. cbn [tail]. eapply wp_mono; [apply (conversion_wp lj zero width k); [done|done|lia]|].
    intros [[f' i] a] s' (-> & -> & -> & HR'). apply IH; [cbn [seg_format length app] in Hf; lia|done|]. rewrite length_app. lia.
Qed.

(** The segments are printed in order, then the terminator at its index. *)
Lemma vsnprintf_run gs x args maxlen s (Q : S → Prop) : let n := Z.of_nat (length (gtext gs)) in
  Forall seg_ok gs → R [] s → (length (gtext gs) ≤ limit)%nat →
  (∀ s', R (gtext gs) s' → wp (out NUL (if n <? maxlen then n else u64 (maxlen - 1))) (λ _, Q) s') →
  wp (_vsnprintf out maxlen (gformat gs ++ NUL :: x) (gargs gs ++ args)) (λ r s', r = i32 n ∧ Q s') s.
Proof using Hout Hlim.
  intros n Hok HR Hl Hend. unfold _vsnprintf. apply wp_bind.
  eapply wp_mono; [apply (vsn_run gs x args Hok _ [] s); [rewrite !length_app; simpl; lia|done|done]|]. intros i s' [-> HR'].
  apply wp_bind. eapply wp_mono; [by apply Hend|]. intros [] s'' HQ. by apply wp_ret.
Qed.
End Render.

(** ** Into an array *)

Section Array.
Context (arr : list Z) (count : nat) (Hc : (0 < count ≤ length arr)%nat) (Hc64 : Z.of_nat count < 2 ^ 64).

(** The array after [l] was put out. *)
Definition filled (l s : list Z) : Prop := s = take count l ++ drop (length (take count l)) arr.

Lemma filled_length l s : filled l s → length s = length arr.
Proof using Hc. intros ->. rewrite length_app, length_drop, length_take. lia. Qed.

Lemma out_buffer_wp l c s : filled l s → Z.of_nat (length l) < 2 ^ 64 → wp (_out_buffer (Z.of_nat count) c (Z.of_nat (length l))) (λ _, filled (l ++ [c])) s.
Proof using Hc.
  intros Hs H64. pose proof (filled_length l s Hs) as Hlen. unfold _out_buffer, u64. rewrite Z.mod_small by lia. cbn zeta.
  destruct (Z.ltb_spec (Z.of_nat (length l)) (Z.of_nat count)).
  - wp_steps. apply wp_assert; [lia|]. apply wp_modify. unfold filled in *. subst s. rewrite Nat2Z.id.
    rewrite !take_ge, length_app by (rewrite ?length_app; simpl; lia). simpl.
    rewrite (insert_app_r_alt l) by lia. rewrite Nat.sub_diag, <- app_assoc. f_equal.
    destruct (drop (length l) arr) as [|y d] eqn:E; [apply (f_equal length) in E; rewrite length_drop in E; simpl in E; lia|].
    simpl. f_equal. by rewrite <- drop_drop, E.
  - apply wp_ret. unfold filled in *. by rewrite take_app_le by lia.
Qed.

Lemma filled_end l s : filled l s → let k := (if (length l <? count)%nat then length l else count - 1)%nat in
  <[k := NUL]> s = take (count - 1) l ++ NUL :: drop (Datatypes.S (length (take (count - 1) l))) arr.
Proof using Hc.
  intros Hs k. pose proof (filled_length l s Hs) as Hlen. rewrite insert_take_drop by (unfold k; destruct (Nat.ltb_spec (length l) count); lia).
  unfold filled in Hs. subst s. rewrite !length_take. unfold k. destruct (Nat.ltb_spec (length l) count) as [H|H].
  - rewrite (take_ge l count), (take_ge l (count - 1)), take_app_length, !Nat.min_r by lia. do 2 f_equal.
    rewrite drop_app_ge, drop_drop by lia. f_equal. lia.
  - rewrite take_app_le, take_take by (rewrite length_take; lia). rewrite !Nat.min_l by lia. do 2 f_equal.
    rewrite drop_app_ge, drop_drop, length_take by (rewrite length_take; lia). f_equal. lia.
Qed.
End Array.

(** C20: For the formats described by [seg_ok], [snprintf] stores the text of the
    format, cut to [count - 1] characters, and a terminator, leaves the rest of
    the array alone and returns the length of the whole text.  These formats
    are sequences of plain characters, %%, and conversions with the flags - and
    0 and a width: d i u x X o b for int arguments and, except b, with l for
    long ones (width below 32; not the smallest number of a signed type, whose
    negation overflows), s of a string, and c of a character that is not NUL.
    Not covered are precisions, the flags + space
    and #, the lengths h, hh, ll, j, z, t, and p. *)
Theorem snprintf_renders gs x args arr (count : nat) :
  Forall seg_ok gs → (0 < count ≤ length arr)%nat → Z.of_nat count < 2 ^ 64 → Z.of_nat (length (gtext gs)) < 2 ^ 64 →
  snprintf_ true (Z.of_nat count) (gformat gs ++ NUL :: x) (gargs gs ++ args) arr =
    let stored := take (count - 1) (gtext gs) in
    Ok (i32 (Z.of_nat (length (gtext gs))), stored ++ NUL :: drop (S (length stored)) arr).
Proof.
  intros Hok Hc Hc64 Hl. apply wp_exact. unfold snprintf_, vsnprintf_.
  eapply (vsnprintf_run _ (filled arr count) (length (gtext gs)) Hl); [|done|by unfold filled; rewrite take_nil|done|].
  - intros l c s HR _ Hlt. apply out_buffer_wp; [done..|lia].
  - intros s' Hs. pose proof (filled_length _ _ Hc _ _ Hs) as Hlen. pose proof (filled_end _ _ Hc _ _ Hs) as He. cbn zeta in He.
    set (k := if _ <? _ then _ else u64 _).
    assert (Hk : k = Z.of_nat (if (length (gtext gs) <? count)%nat then length (gtext gs) else count - 1)).
    { unfold k, u64. destruct (Z.ltb_spec (Z.of_nat (length (gtext gs))) (Z.of_nat count)), (Nat.ltb_spec (length (gtext gs)) count); try lia.
      rewrite Z.mod_small; lia. }
    clearbody k. subst k. rewrite <- He. unfold _out_buffer, u64. rewrite Z.mod_small by (destruct (_ <? _)%nat; lia). cbn zeta.
    destruct (Nat.ltb_spec (length (gtext gs)) count);
      (rewrite (proj2 (Z.ltb_lt _ _)) by lia); wp_steps; (apply wp_assert; [apply Z.ltb_lt; lia|]); apply wp_modify; by rewrite Nat2Z.id.
Qed.

(** ** On the console *)

Section Console.
Context (s : io) (l0 : list Z) (d : Z) (Hcpu : cpu_ok (io_cpu s)) (Hw : rholds (i_w (q_ext s)) l0).
Context (Hd : mmio (q_ext s) !! AUX_MU_IER_REG = Some d).

(** The characters [l] are in the transmit buffer. *)
Definition printed (l : list Z) (s' : io) : Prop :=
  ∃ w, rholds w (l0 ++ l) ∧ s' = devs (i_r (q_ext s)) w (tx_on l (mmio (q_ext s)) d) s.

Lemma out_char_wp l c s' : printed l s' → c ≠ 0 → Z.of_nat (length l0 + length l) < BUFLEN - 1 → ∀ idx, wp (_out_char c idx) (λ _, printed (l ++ [c])) s'.
Proof using Hcpu Hd.
  intros (w & Hw' & ->) Hc Hl idx. unfold _out_char. rewrite (proj2 (Z.eqb_neq _ _) Hc). cbn [negb]. unfold _putchar.
  edestruct (write_char_devs s Hcpu (i_r (q_ext s)) w (tx_on l (mmio (q_ext s)) d) (l0 ++ l) c) as (w2 & Hw2 & E);
    [done|by rewrite length_app|by apply tx_on_lookup|].
  apply wp_bind. eapply wp_eq; [exact E|]. apply wp_ret. exists w2. rewrite app_assoc, tx_on_app. done.
Qed.
End Console.

(** The text is queued for transmission and the transmit interrupt turned on. *)
Lemma printf_run gs x args s l d :
  cpu_ok (io_cpu s) → rholds (i_w (q_ext s)) l → mmio (q_ext s) !! AUX_MU_IER_REG = Some d →
  Forall seg_ok gs → Z.of_nat (length l + length (gtext gs)) ≤ BUFLEN - 1 →
  ∃ w, rholds w (l ++ gtext gs) ∧
    printf_ (gformat gs ++ NUL :: x) (gargs gs ++ args) s =
      Ok (Z.of_nat (length (gtext gs)), devs (i_r (q_ext s)) w (tx_on (gtext gs) (mmio (q_ext s)) d) s).
Proof.
  intros Hcpu Hw Hd Hok Hl. unfold BUFLEN in Hl.
  assert (Hrun : wp (printf_ (gformat gs ++ NUL :: x) (gargs gs ++ args)) (λ r s', r = i32 (Z.of_nat (length (gtext gs))) ∧ printed s l d (gtext gs) s') s).
  { eapply (vsnprintf_run _ (printed s l d) (length (gtext gs))); [lia| |done| |done|].
    - intros t c s' HR Hc Ht. eapply out_char_wp; [done..|]. unfold BUFLEN. lia.
    - exists (i_w (q_ext s)). by rewrite app_nil_r, devs_same.
    - intros s' HR. by apply wp_ret. }
  apply wp_run in Hrun as (r & s' & E & -> & w & Hw' & ->). exists w. split; [done|]. rewrite E. do 2 f_equal. unfold i32. rewrite Z.mod_small; lia.
Qed.

(** C19: For the formats C20 describes ([seg_ok]: plain characters, %%, and the
    conversions d i u x X o b, also with l but for b, s and c, with the flags
    - and 0 and a width; no smallest number of a signed type), [printf] in process code (thread_ok), with
    room for the text beside what waits in the buffer and only the transmitter
    interrupting afterwards, returns the length of the text of its format, and
    the transmitter's interrupts, taken through the vector, send what was
    waiting and then exactly that text, in order; then the buffer is empty and
    the interrupt is off. *)
Theorem printf_delivered `{!NodeAlloc} gs x args s l d :
  thread_ok s → rholds (i_w (q_ext s)) l → mmio (q_ext s) !! AUX_MU_IER_REG = Some d →
  Forall seg_ok gs → Z.of_nat (length l + length (gtext gs)) ≤ BUFLEN - 1 → gtext gs ≠ [] →
  ∃ s1 s2, printf_ (gformat gs ++ NUL :: x) (gargs gs ++ args) s = Ok (Z.of_nat (length (gtext gs)), s1) ∧
    transmit (S (length l + length (gtext gs))) s1 = Ok (tt, s2) ∧
    io_out (q_ext s2) = io_out (q_ext s) ++ l ++ gtext gs ∧ rholds (i_w (q_ext s2)) [] ∧
    mmio (q_ext s2) !! AUX_MU_IER_REG = Some (tx_off d) ∧ thread_ok s2 ∧ io_same s s2.
Proof.
  intros Hok Hw Hd Hgs Hroom Hne. destruct (printf_run gs x args s l d (thread_cpu _ Hok) Hw Hd Hgs Hroom) as (w & Hw' & E).
  set (t := gtext gs) in *. set (s1 := devs _ _ _ s) in E.
  destruct (transmit_run (l ++ t) s1 (tx_ier t d)) as (s2 & E2 & Hok2 & Hs2 & Ho2 & Hw2 & _ & Hm2 & _);
    [by apply thread_devs|done|by apply tx_on_lookup| |].
  { rewrite bool_decide_true by (destruct l; done). destruct t; [done|]. apply tx_on_bit. }
  rewrite length_app in E2. exists s1, s2. split_and!; [done|done|done|done| |done|].
  - rewrite Hm2. destruct t; [done|]. destruct l; simpl; by rewrite tx_off_on.
  - eapply io_same_trans; [|exact Hs2]. done.
Qed.

(** ** Parsed back *)

Lemma hstr_lower ds x v : Forall (λ d, 0 ≤ d < 16) ds →
  hstr_loop ((digit_char false <$> ds) ++ x) (length ds) v = Ok (fold_left (λ v d, u32 (u32 (v * 16) + d)) ds v).
Proof.
  intros H. revert v. induction H as [|d ds Hd H IH]; intros v; [done|].
  cbn [fmap list_fmap app length hstr_loop fold_left].
  rewrite Z.shiftl_mul_pow2 by lia. change (2 ^ 4) with 16.
  assert (Hc : between 48 (digit_char false d) 57 = true ∧ digit_char false d - 48 = d ∨ between 48 (digit_char false d) 57 = false ∧
    between 65 (digit_char false d) 70 = false ∧ between 97 (digit_char false d) 102 = true ∧ digit_char false d - 97 + 10 = d).
  { unfold digit_char, between. destruct (Z.ltb_spec d 10); lia. }
  destruct Hc as [[-> ->]|(-> & -> & -> & ->)]; apply IH.
Qed.

Lemma dec_digits_char up ds : Forall (λ d, 0 ≤ d < 10) ds → digit_char up <$> ds = dec_digit <$> ds.
Proof. induction 1 as [|d ds Hd _ IH]; [done|]. cbn [fmap list_fmap]. f_equal; [|done]. unfold digit_char, dec_digit. destruct (Z.ltb_spec d 10); lia. Qed.

(** A 32-bit number printed with [%u] or [%x] is read back by the parsers of
    string.c. *)
Theorem printf_parse_back v arr : 0 ≤ v < 2 ^ 32 → (16 ≤ length arr)%nat →
  (∃ n arr', snprintf_ true 16 (lit "%u") [A_int v] arr = Ok (n, arr') ∧ str2u32 arr' n = Ok v) ∧
  (∃ n arr', snprintf_ true 16 (lit "%x") [A_int v] arr = Ok (n, arr') ∧ hstr2u32 arr' n = Ok v).
Proof.
  intros Hv Ha. assert (Hu : u32 v = v) by (unfold u32; rewrite Z.mod_small; lia).
  assert (Hrun : ∀ c, c ∈ [117; 120] → snprintf_ true 16 [37; c; 0] [A_int v] arr =
    Ok (Z.of_nat (length (number c v)), number c v ++ NUL :: drop (S (length (number c v))) arr) ∧
    Z.of_nat (length (number c v)) < 16).
  { intros c Hc. assert (Hlen : (length (number c v) ≤ 10)%nat).
    { unfold number. rewrite length_fmap, Z.abs_eq by lia. pose proof (base_ok c).
      rewrite (digits_fuel (base_of c) ltac:(lia) 32 10); [apply digits_length|lia..| |];
        repeat (apply elem_of_cons in Hc as [->|Hc]); try (by apply elem_of_nil in Hc); unfold base_of; simpl; lia. }
    split; [|lia]. pose proof (snprintf_renders [Conv false false 0 (CInt c false v)] [] [] arr 16) as H.
    cbn [mbind list_bind seg_format seg_args app seg_text conv_letters width_text Nat.eqb] in H. rewrite !app_nil_r in H.
    assert (Hs : is_signed c = false) by (by repeat (apply elem_of_cons in Hc as [->|Hc]); [..|apply elem_of_nil in Hc]).
    assert (Ht : int_text false false 0 (if int_value c false v <? 0 then [45] else []) (number c (int_value c false v)) = number c v).
    { unfold int_value, int_text. rewrite Hs, Hu, (proj2 (Z.ltb_ge v 0)) by lia. by replace (0 - _)%nat with O by lia. }
    rewrite Ht, take_ge in H by lia. cbn zeta in H. change 16 with (Z.of_nat 16). change 0 with NUL at 1. rewrite H; [|..|lia|lia]; [do 2 f_equal; unfold i32; rewrite Z.mod_small; lia| |lia].
    constructor; [|constructor]. cbn. rewrite Hs. split_and!; [set_solver|set_solver|lia|done]. }
  destruct (Hrun 117) as [E1 L1]; [set_solver|]. destruct (Hrun 120) as [E2 L2]; [set_solver|].
  split; eexists _, _; (split; [eassumption|]).
  - unfold str2u32, number. change (base_of 117) with 10. rewrite length_fmap, Nat2Z.id, Z.abs_eq by lia. rewrite dec_digits_char by (apply digits_range; lia).
    rewrite str_loop_digits by (apply digits_range; lia). change 0 with (u32 0). rewrite fold_u32.
    f_equal. change (u32 (value 10 (digits 32 10 v)) = v). rewrite digits_value; [done|lia..].
  - unfold hstr2u32, number. change (base_of 120) with 16. change (120 =? 88) with false. rewrite length_fmap, Nat2Z.id, Z.abs_eq by lia.
    rewrite hstr_lower by (apply digits_range; lia). change 0 with (u32 0). rewrite fold_u32.
    f_equal. change (u32 (value 16 (digits 32 16 v)) = v). rewrite digits_value; [done|lia..].
Qed.

(** ** Any format *)

(** A pure step that does not loop forever and whose result satisfies [P]. *)
Definition rpost {A} (P : A → Prop) (r : res A) : Prop := match r with Ok a => P a | Ub => True | Spin => False end.

Lemma rpost_bind {A B} (P : A → Prop) (Q : B → Prop) r k : rpost P r → (∀ a, P a → rpost Q (k a)) → rpost Q (r ≫= k).
Proof. destruct r; simpl; auto. Qed.
Lemma rpost_mono {A} (P Q : A → Prop) r : rpost P r → (∀ a, P a → Q a) → rpost Q r.
Proof. destruct r; simpl; auto. Qed.
Lemma rpost_ptr {A} (o : option A) : rpost (λ a, o = Some a) (ptr_get o).
Proof. by destruct o. Qed.

Abbreviation any := (λ _, True).

Lemma push_post buf c : rpost any (push buf c).
Proof. unfold push. by destruct (_ <? _). Qed.
Lemma pad_post fuel buf lim : rpost any (pad_zeros fuel buf lim).
Proof. revert buf. induction fuel; intros buf; simpl; [done|]. destruct (_ && _); [|done]. eapply rpost_bind; [apply push_post|auto]. Qed.
Lemma ntoa_post fuel v b up buf : rpost any (ntoa_digits fuel v b up buf).
Proof. revert v buf. induction fuel; intros v buf; simpl; [done|]. eapply rpost_bind; [apply push_post|]. intros a _. by destruct (_ && _). Qed.
Lemma hash_post buf base prec width flags : rpost any (hash_prefix buf base prec width flags).
Proof.
  unfold hash_prefix, push_if. eapply (rpost_bind any); [|intros a _; destruct (room a); [apply push_post|done]].
  repeat case_match; by try apply push_post.
Qed.
Lemma sign_post buf neg flags : rpost any (sign buf neg flags).
Proof. unfold sign. repeat case_match; by try apply push_post. Qed.
Lemma next_int_post l : rpost any (next_int l).
Proof. by destruct l as [|[]]. Qed.
Lemma next_str_post l : rpost any (next_str l).
Proof. by destruct l as [|[]]. Qed.
Lemma magnitude_post bits v : rpost any (magnitude bits v).
Proof. unfold magnitude. by repeat case_match. Qed.
Lemma strnlen_post str n : rpost any (_strnlen_s str n).
Proof.
  unfold _strnlen_s. apply (rpost_bind any); [|done]. generalize 0. revert n. induction str; intros n m; simpl; [done|]. by case_match.
Qed.
Lemma str_chars_post p b n : rpost any (str_chars p b n).
Proof. revert n. induction p; intros n; simpl; [done|]. case_match; [done|]. by eapply rpost_bind. Qed.

(** What is left of a format is not longer than it was. *)
Lemma flags_post f flags : rpost (λ r, (length r.2 ≤ length f)%nat) (parse_flags f flags).
Proof.
  revert flags. induction f as [|c f IH]; intros flags; cbn [parse_flags]; [done|].
  repeat (case_match; [eapply rpost_mono; [apply IH|]; simpl; lia|]). simpl. lia.
Qed.
Lemma atoi_post f i : rpost (λ r, (length r.2 ≤ length f)%nat) (atoi_loop f i).
Proof. revert i. induction f as [|c f IH]; intros i; cbn [atoi_loop]; [done|]. case_match; [|simpl; lia]. eapply rpost_mono; [apply IH|]. simpl. lia. Qed.
Lemma length_tail {A} (f : list A) : (length (tail f) ≤ length f)%nat.
Proof. destruct f; simpl; lia. Qed.
Lemma width_post f flags args : rpost (λ r, (length r.1.2 ≤ length f)%nat) (parse_width f flags args).
Proof.
  unfold parse_width. eapply rpost_bind; [apply rpost_ptr|]. intros c _. pose proof (length_tail f). case_match.
  - eapply rpost_bind; [apply atoi_post|]. by intros [w f'].
  - case_match; [|simpl; lia]. eapply rpost_bind; [apply next_int_post|]. intros [w args'] _. repeat case_match; simpl; lia || done.
Qed.
Lemma precision_post f flags args : rpost (λ r, (length r.1.2 ≤ length f)%nat) (parse_precision f flags args).
Proof.
  unfold parse_precision. eapply rpost_bind; [apply rpost_ptr|]. intros c _. pose proof (length_tail f). pose proof (length_tail (tail f)). case_match; [|simpl; lia].
  eapply rpost_bind; [apply rpost_ptr|]. intros c2 _. case_match.
  - eapply rpost_bind; [apply atoi_post|]. intros [w f'] ?. simpl in *. lia.
  - case_match; [|simpl; lia]. eapply rpost_bind; [apply next_int_post|]. intros [w args'] _. simpl. lia.
Qed.
Lemma plength_post f flags : rpost (λ r, (length r.2 ≤ length f)%nat) (parse_length f flags).
Proof.
  unfold parse_length. eapply rpost_bind; [apply rpost_ptr|]. intros c _. pose proof (length_tail f). pose proof (length_tail (tail f)).
  case_match; [|case_match; [|case_match; simpl; lia]]; (eapply rpost_bind; [apply rpost_ptr|]; intros c2 _; case_match; simpl; lia).
Qed.

#[local] Create HintDb post.
#[local] Hint Resolve push_post pad_post ntoa_post hash_post sign_post next_int_post next_str_post magnitude_post strnlen_post str_chars_post : post.

Section Both.
Context {S1 S2 : Type} (out1 : Z → Z → M S1 unit) (out2 : Z → Z → M S2 unit) (I : S1 → Prop).

(** The two runs agree: both return the same value and [I] still holds, or
    both are undefined; neither loops forever. *)
Definition agree {A} (P : A → Prop) (m1 : M S1 A) (m2 : M S2 A) : Prop := ∀ s1 s2, I s1 →
  match m1 s1, m2 s2 with
  | Ok (a, s1'), Ok (b, _) => a = b ∧ P a ∧ I s1'
  | Ub, Ub => True
  | _, _ => False
  end.

Hypothesis Hout : ∀ c i, agree any (out1 c i) (out2 c i).

Lemma agree_ret {A} (P : A → Prop) a : P a → agree P (mret a) (mret a).
Proof. by intros H s1 s2 HI. Qed.
Lemma agree_bind {A B} (P : A → Prop) (Q : B → Prop) m1 m2 k1 k2 :
  agree P m1 m2 → (∀ a, P a → agree Q (k1 a) (k2 a)) → agree Q (m1 ≫= k1) (m2 ≫= k2).
Proof.
  intros Hm Hk s1 s2 HI. specialize (Hm s1 s2 HI). unfold mbind, M_bind. destruct (m1 s1) as [[a s1']| |], (m2 s2) as [[b s2']| |]; try done.
  destruct Hm as (-> & HP & HI'). by apply Hk.
Qed.
Lemma agree_lift {A} (P : A → Prop) r : rpost P r → agree P (lift r) (lift r).
Proof. by destruct r. Qed.
Lemma agree_any {A} (P : A → Prop) m1 m2 : agree P m1 m2 → agree any m1 m2.
Proof. intros H s1 s2 HI. specialize (H s1 s2 HI). repeat case_match; naive_solver. Qed.

Ltac agree_step :=
  match goal with
  | |- agree _ (mret _) _ => by apply agree_ret
  | |- agree _ (lift _) _ => apply agree_lift; auto with post
  | |- agree _ (_ ≫= _) _ => apply (agree_bind any); [|intros ? _]
  | |- agree _ (if ?b then _ else _) _ => destruct b
  | |- agree _ (match ?x with _ => _ end) _ => destruct x
  | |- rpost _ (_ ≫= _) => apply (rpost_bind any); [|intros ? _]
  | |- rpost _ (if ?b then _ else _) => destruct b
  | |- rpost _ _ => by auto with post
  end.
Ltac agree_auto := repeat agree_step; auto.

Lemma spaces_agree n i : agree any (spaces out1 n i) (spaces out2 n i).
Proof using Hout. revert i. induction n; intros i; cbn [spaces]; agree_auto. Qed.
Lemma out_chars_agree l i : agree any (out_chars out1 l i) (out_chars out2 l i).
Proof using Hout. revert i. induction l; intros i; cbn [out_chars]; agree_auto. Qed.
#[local] Hint Resolve spaces_agree out_chars_agree : core.

Lemma ntoa_agree i v neg b prec width flags : agree any (_ntoa_long out1 i v neg b prec width flags) (_ntoa_long out2 i v neg b prec width flags).
Proof using Hout. unfold _ntoa_long, _ntoa_format, _out_rev. cbn zeta. agree_auto. Qed.
#[local] Hint Resolve ntoa_agree : core.

Lemma fmt_agree c i flags width prec args :
  agree any (fmt_int out1 c i flags width prec args) (fmt_int out2 c i flags width prec args) ∧
  agree any (fmt_char out1 i flags width args) (fmt_char out2 i flags width args) ∧
  agree any (fmt_str out1 i flags width prec args) (fmt_str out2 i flags width prec args) ∧
  agree any (fmt_pointer out1 i flags prec args) (fmt_pointer out2 i flags prec args).
Proof using Hout. unfold fmt_int, fmt_char, fmt_str, fmt_pointer, _ntoa_long_long. cbn zeta. split_and!; agree_auto. Qed.

Lemma conversion_agree f i args :
  agree (λ r, (length r.1.1 < length f)%nat) (conversion out1 f i args) (conversion out2 f i args).
Proof using Hout.
  unfold conversion.
  eapply agree_bind; [apply agree_lift, flags_post|]. intros [flags f1] L1.
  eapply agree_bind; [apply agree_lift, width_post|]. intros [[[width flags2] f2] args2] L2.
  eapply agree_bind; [apply agree_lift, precision_post|]. intros [[[prec flags3] f3] args3] L3.
  eapply agree_bind; [apply agree_lift, plength_post|]. intros [flags4 f4] L4.
  eapply agree_bind; [apply agree_lift, rpost_ptr|]. intros c Hc.
  apply (agree_bind any).
  - destruct (fmt_agree c i flags4 width prec args3) as (? & ? & ? & ?). repeat (case_match; [done|]). agree_auto.
  - intros [i' args'] _. apply agree_ret. destruct f4; [done|]. simpl in *. lia.
Qed.

Lemma vsn_agree fuel : ∀ f i args, (length f < fuel)%nat → agree any (vsn_loop out1 fuel f i args) (vsn_loop out2 fuel f i args).
Proof using Hout.
  induction fuel as [|fuel IH]; intros f i args Hf; [lia|]. cbn [vsn_loop]. eapply agree_bind; [apply agree_lift, rpost_ptr|]. intros c Hc.
  destruct f as [|c' f]; [done|]. simpl in Hf. cbn [tail]. case_match; [by apply agree_ret|]. case_match.
  - apply (agree_bind any); [done|]. intros _ _. apply IH. lia.
  - eapply agree_bind; [apply conversion_agree|]. intros [[f' i'] args'] Hl. apply IH. simpl in Hl. lia.
Qed.

Lemma vsnprintf_agree maxlen f args : agree any (_vsnprintf out1 maxlen f args) (_vsnprintf out2 maxlen f args).
Proof using Hout.
  unfold _vsnprintf. apply (agree_bind any); [apply vsn_agree; lia|]. intros i _. apply (agree_bind any); [done|]. intros _ _. by apply agree_ret.
Qed.
End Both.

(** C26: Whatever the format and the arguments, [snprintf] returns what it returns
    for a NULL pointer, which is the size needed, or both are undefined, and it
    changes no cell of the array at or after [count]. *)
Theorem snprintf_bounds f args arr (count : nat) : (count ≤ length arr)%nat →
  match snprintf_ true (Z.of_nat count) f args arr, snprintf_ false (Z.of_nat count) f args arr with
  | Ok (n, arr'), Ok (n', _) => n = n' ∧ length arr' = length arr ∧ drop count arr' = drop count arr
  | Ub, Ub => True
  | _, _ => False
  end.
Proof.
  intros Hc. pose proof (vsnprintf_agree (_out_buffer (Z.of_nat count)) (@_out_null (list Z)) (λ s, length s = length arr ∧ drop count s = drop count arr)) as H.
  unfold snprintf_, vsnprintf_. unshelve epose proof (H _ (Z.of_nat count) f args arr arr (conj eq_refl eq_refl)) as H'; [|repeat case_match; naive_solver].
  intros c i s1 s2 [Hl Hd]. unfold _out_buffer, _out_null. pose proof (Z.mod_pos_bound i (2 ^ 64) ltac:(lia)) as Hi. fold (u64 i) in Hi.
  destruct (Z.ltb_spec (u64 i) (Z.of_nat count)) as [Hlt|]; [|done]. unfold get_st, assert, modify, mbind, M_bind, mret, M_ret. cbn zeta.
  rewrite (proj2 (Z.ltb_lt _ _)) by lia. split_and!; [done..|by rewrite length_insert|]. rewrite drop_insert_lt; [done|lia].
Qed.

(** ** Concrete runs *)

(** "fd %d, %08x|%-4s|%c%%" *)
Definition sample : list seg :=
  (Text <$> chars "fd ") ++ [Conv false false 0 (CInt 100 false (u32 (-3)))] ++ (Text <$> chars ", ") ++
  [Conv false true 8 (CInt 120 false 0xbeef); Text 124; Conv true false 4 (CStr (chars "ab")); Text 124; Conv false false 0 (CChar 33); Percent].

Lemma sample_ok : Forall seg_ok sample.
Proof. repeat constructor; simpl; try lia; try done; try set_solver. Qed.

Example sample_text : gformat sample = chars "fd %d, %08x|%-4s|%c%%" ∧ gtext sample = chars "fd -3, 0000beef|ab  |!%".
Proof. by vm_compute. Qed.

Lemma snprintf_renders_witness :
  snprintf_ true 10 (chars "fd %d, %08x|%-4s|%c%%" ++ [NUL]) (gargs sample) (replicate 12 1) = Ok (23, chars "fd -3, 00" ++ [0; 1; 1]).
Proof.
  rewrite <- (proj1 sample_text), <- (app_nil_r (gargs sample)). change 10 with (Z.of_nat 10).
  rewrite (snprintf_renders sample [] [] (replicate 12 1) 10 sample_ok); [by vm_compute|simpl; lia|lia|by vm_compute].
Defined.

Lemma snprintf_bounds_witness : ∃ arr', snprintf_ true 3 (lit "%u") [A_int 12345] [7; 7; 7; 7] = Ok (5, arr') ∧ drop 3 arr' = [7].
Proof.
  pose proof (snprintf_bounds (lit "%u") [A_int 12345] [7; 7; 7; 7] 3 ltac:(simpl; lia)) as H.
  change (Z.of_nat 3) with 3 in H. destruct (snprintf_ true 3 _ _ _) as [[n arr']| |] eqn:E; vm_compute in E; [|done..].
  injection E as <- <-. destruct (snprintf_ false 3 _ _ _) as [[]| |]; [|done..]. destruct H as (_ & _ & H). eauto.
Defined.

Lemma printf_parse_back_witness : ∃ n arr', snprintf_ true 16 (lit "%x") [A_int 0xc0de] (replicate 16 0) = Ok (n, arr') ∧ hstr2u32 arr' n = Ok 0xc0de.
Proof. apply (printf_parse_back 0xc0de (replicate 16 0)); [lia|simpl; lia]. Defined.

Lemma printf_delivered_witness :
  ∃ s1 s2, printf_ (chars "fd %d, %08x|%-4s|%c%%" ++ [NUL]) (gargs sample) io_thread = Ok (23, s1) ∧ transmit (H := above_alloc) 24 s1 = Ok (tt, s2) ∧
    io_out (q_ext s2) = chars "fd -3, 0000beef|ab  |!%".
Proof.
  destruct (printf_delivered (H := above_alloc) sample [] [] io_thread [] 12) as (s1 & s2 & E1 & E2 & E3 & _);
    [exact io_thread_ok|exact (ring_of_holds _)|reflexivity|exact sample_ok|vm_compute; discriminate|discriminate|].
  exists s1, s2. rewrite app_nil_r, (proj1 sample_text) in E1. split; [exact E1|]. split; [exact E2|].
  rewrite E3, (proj2 sample_text). reflexivity.
Defined.
