(* ===== verification/Dtb.v ===== *)
(** * Device tree (src/kernel/device_tree.c)

    The traversal of the flattened tree the boot loader leaves in memory, and
    the callbacks that look for a property by its path: those of ramdisk.c
    and [mem_region] of mem.c.  The tree is the list of its bytes from
    [dtb_addr] on; a pointer into it is an offset, and a read past its end is
    undefined. *)

From S2P Require Import Prelude Cpu Buddy Str.

Definition FDT_BEGIN_NODE : Z := 1.
Definition FDT_END_NODE : Z := 2.
Definition FDT_PROP : Z := 3.
Definition FDT_NOP : Z := 4.
Definition FDT_END : Z := 9.
Definition INITRD_START_DTB_PATH : list Z := lit "/chosen/linux,initrd-start".
Definition INITRD_END_DTB_PATH : list Z := lit "/chosen/linux,initrd-end".
Definition USABLE_MEM_DTB_PATH : list Z := lit "/memory/reg".

(** The variables the callbacks set, and the position each file keeps. *)
Record dts := mk_dts {
  d_cpu : cpu;
  ramdisk_saddr : Z;
  ramdisk_eaddr : Z;
  usable_memory : Z * Z;
  rd_str_idx : Z;    (* dtb_str_idx of ramdisk.c *)
  mem_str_idx : Z;   (* dtb_str_idx of mem.c *)
}.

Definition set_dcpu c s := mk_dts c (ramdisk_saddr s) (ramdisk_eaddr s) (usable_memory s) (rd_str_idx s) (mem_str_idx s).
Definition set_saddr a s := mk_dts (d_cpu s) a (ramdisk_eaddr s) (usable_memory s) (rd_str_idx s) (mem_str_idx s).
Definition set_eaddr a s := mk_dts (d_cpu s) (ramdisk_saddr s) a (usable_memory s) (rd_str_idx s) (mem_str_idx s).
Definition set_usable u s := mk_dts (d_cpu s) (ramdisk_saddr s) (ramdisk_eaddr s) u (rd_str_idx s) (mem_str_idx s).
Definition set_rd_idx i s := mk_dts (d_cpu s) (ramdisk_saddr s) (ramdisk_eaddr s) (usable_memory s) i (mem_str_idx s).
Definition set_mem_idx i s := mk_dts (d_cpu s) (ramdisk_saddr s) (ramdisk_eaddr s) (usable_memory s) (rd_str_idx s) i.

Section Blob.
Context (dtb : list Z).

(** Bytes from a pointer on. *)
Definition at_off (o : Z) : list Z := drop (Z.to_nat o) dtb.
Definition rd8 (o : Z) : res Z := if o <? 0 then Ub else ptr_get (dtb !! Z.to_nat o).

(** [*(uint32_t* )] on a little-endian machine. *)
Definition rd32 (o : Z) : res Z :=
  b0 ← rd8 o; b1 ← rd8 (o + 1); b2 ← rd8 (o + 2); b3 ← rd8 (o + 3);
  mret (b0 + 256 * b1 + 65536 * b2 + 16777216 * b3).

Definition rd_big (o : Z) : res Z := w ← rd32 o; mret (big2host w).

(** [name] of a node, up to the terminator or the unit address; the array has
    32 cells. *)
Fixpoint node_name (fuel : nat) (o i : Z) : res (list Z) :=
  match fuel with
  | O => Ub
  | S fuel' =>
      c ← rd8 (o + i);
      if (c =? NUL) || (c =? 64) then mret [NUL]
      else rest ← node_name fuel' o (i + 1); mret (c :: rest)
  end.

Fixpoint str_end (fuel : nat) (o i : Z) : res Z :=
  match fuel with
  | O => Spin
  | S fuel' => c ← rd8 (o + i); if c =? NUL then mret i else str_end fuel' o (i + 1)
  end.

(** The loop; [func] is called with the component and its name. *)
Fixpoint fdt_loop (fuel : nat) (func : Z → list Z → M dts bool) (p : Z) : M dts unit :=
  match fuel with
  | O => spin
  | S fuel' =>
      token ← lift (rd_big p);
      if token =? FDT_BEGIN_NODE then
        name ← lift (node_name 32 (p + 4) 0);
        found ← func p name;
        if (found : bool) then mret tt
        else
          i ← lift (str_end (length dtb) (p + 4) 0);
          fdt_loop fuel' func (p + Z.land (u64 (4 + (i + 1) + 3)) (u64 (Z.lnot 3)))
      else if token =? FDT_PROP then
        off_dt_strings ← lift (rd_big 12);
        nameoff ← lift (rd_big (p + 8));
        found ← func p (at_off (off_dt_strings + nameoff));
        if (found : bool) then mret tt
        else
          len ← lift (rd_big (p + 4));
          let total_len := u32 (4 + 8 + len) in
          fdt_loop fuel' func (p + Z.land (u32 (total_len + 3)) (u32 (Z.lnot 3)))
      else if (token =? FDT_END_NODE) || (token =? FDT_NOP) then fdt_loop fuel' func (p + 4)
      else if token =? FDT_END then func p (lit "") ;; mret tt
      else zoom d_cpu set_dcpu (err ("Invalid fdt token" +:+ crlf)) ;; fdt_loop fuel' func p
  end.

Definition fdt_traverse (fuel : nat) (func : Z → list Z → M dts bool) : M dts unit :=
  magic ← lift (rd_big 0);
  (if negb (magic =? 0xd00dfeed) then zoom d_cpu set_dcpu (err ("Invalid .dtb file" +:+ crlf)) else mret tt) ;;
  p ← lift (rd_big 8);
  fdt_loop fuel func p.

Definition dtb_get_len : res Z := rd_big 4.

(** ** Paths *)

(** The end of the component at [i], and whether it is the last. *)
Fixpoint component_end (fuel : nat) (path : list Z) (i : Z) : res (Z * bool) :=
  match fuel with
  | O => Ub
  | S fuel' =>
      c ← ptr_get (path !! Z.to_nat i);
      if c =? 47 then mret (i, false)
      else if c =? NUL then mret (i, true)
      else component_end fuel' path (i + 1)
  end.

(** One call of a callback: the index after it, and whether the last component
    was found. *)
Definition path_step (path : list Z) (idx : Z) (name : list Z) : res (Z * bool) :=
  c ← ptr_get (path !! Z.to_nat idx);
  let idx := if (idx =? 0) && (c =? 47) then idx + 1 else idx in
  '(i, last) ← component_end (length path) path idx;
  let path := <[Z.to_nat i := NUL]> path in
  r ← strcmp (drop (Z.to_nat idx) path) name;
  if r =? 0 then mret (i + 1, last) else mret (idx, false).

Definition initramfs_process_node (path : list Z) (set_addr : Z → dts → dts) (p : Z) (name : list Z) : M dts bool :=
  token ← lift (rd_big p);
  if token =? FDT_END then modify (set_rd_idx 0) ;; mret false
  else if negb (token =? FDT_BEGIN_NODE) && negb (token =? FDT_PROP) then mret false
  else
    idx ← gets rd_str_idx;
    '(idx, found) ← lift (path_step path idx name);
    modify (set_rd_idx idx) ;;
    if (found : bool) then
      value ← lift (rd_big (p + 4 + 8));
      modify (set_addr (p2v_trans_kernel value)) ;;
      modify (set_rd_idx 0) ;;
      mret true
    else mret false.

Definition initramfs_start : Z → list Z → M dts bool := initramfs_process_node INITRD_START_DTB_PATH set_saddr.
Definition initramfs_end : Z → list Z → M dts bool := initramfs_process_node INITRD_END_DTB_PATH set_eaddr.

Definition mem_region (p : Z) (name : list Z) : M dts bool :=
  token ← lift (rd_big p);
  if token =? FDT_END then modify (set_mem_idx 0) ;; mret false
  else if negb (token =? FDT_BEGIN_NODE) && negb (token =? FDT_PROP) then mret false
  else
    idx ← gets mem_str_idx;
    '(idx, found) ← lift (path_step USABLE_MEM_DTB_PATH idx name);
    modify (set_mem_idx idx) ;;
    if (found : bool) then
      start ← lift (rd_big (p + 4 + 8));
      end_ ← lift (rd_big (p + 4 + 8 + 4));
      modify (set_usable (start, end_)) ;;
      modify (set_mem_idx 0) ;;
      mret true
    else mret false.
End Blob.
