(* ===== verification/DtbThm.v ===== *)
(** * Device tree: theorems

    A flattened tree is a sequence of tokens; the traversal calls its callback
    on the nodes and properties in order, until one says it found what it
    looks for.  The callbacks find a property by the names on its path. *)

From S2P Require Import Prelude Cpu Buddy Str StrThm Dtb.

(** ** Tokens *)

(** A node has a name and a unit address; a property has the offset of its
    name in the strings block, and a value. *)
Inductive tok :=
  | TBegin (name unit_addr : list Z)
  | TProp (nameoff : Z) (data : list Z)
  | TEnd
  | TNop.

Definition be32 (v : Z) : list Z := [v / 16777216; v / 65536 mod 256; v / 256 mod 256; v mod 256].
Definition pad4 (n : nat) : list Z := replicate (Z.to_nat ((- Z.of_nat n) mod 4)) 0.

Definition tok_bytes (t : tok) : list Z :=
  match t with
  | TBegin name u => be32 FDT_BEGIN_NODE ++ name ++ u ++ [NUL] ++ pad4 (length name + length u + 1)
  | TProp off data => be32 FDT_PROP ++ be32 (Z.of_nat (length data)) ++ be32 off ++ data ++ pad4 (length data)
  | TEnd => be32 FDT_END_NODE
  | TNop => be32 FDT_NOP
  end.

Definition tok_size (t : tok) : Z := Z.of_nat (length (tok_bytes t)).
Definition struct_bytes (l : list tok) : list Z := concat (tok_bytes <$> l) ++ be32 FDT_END.

Section Blob.
Context (dtb : list Z).

(** The bytes at an offset. *)
Definition holds (o : Z) (bs : list Z) : Prop := 0 ≤ o ∧ bs `prefix_of` at_off dtb o.

Lemma holds_app o a b : holds o (a ++ b) → holds o a ∧ holds (o + Z.of_nat (length a)) b.
Proof.
  intros [Ho [r Hr]]. split; [split; [done|]; exists (b ++ r); by rewrite app_assoc|]. split; [lia|]. exists r.
  unfold at_off in *. rewrite Z2Nat.inj_add, Nat2Z.id, <- drop_drop, Hr by lia. by rewrite <- app_assoc, drop_app_length.
Qed.

Lemma rd8_holds o b bs : holds o (b :: bs) → rd8 dtb o = Ok b.
Proof.
  intros [Ho [r Hr]]. unfold rd8. destruct (Z.ltb_spec o 0); [lia|]. unfold at_off in Hr.
  assert (E : drop (Z.to_nat o) dtb !! 0%nat = Some b) by (by rewrite Hr). rewrite lookup_drop, Nat.add_0_r in E. by rewrite E.
Qed.

Lemma holds_tail o b bs : holds o (b :: bs) → holds (o + 1) bs.
Proof. intros H. by apply (holds_app o [b] bs). Qed.

Lemma rd_big_holds o v : 0 ≤ v < 2 ^ 32 → holds o (be32 v) → rd_big dtb o = Ok v.
Proof.
  intros Hv H0. unfold rd_big, rd32. pose proof (holds_tail _ _ _ H0) as H1. pose proof (holds_tail _ _ _ H1) as H2. pose proof (holds_tail _ _ _ H2) as H3.
  replace (o + 1 + 1 + 1) with (o + 3) in H3 by lia. replace (o + 1 + 1) with (o + 2) in H2 by lia.
  rewrite (rd8_holds _ _ _ H0), (rd8_holds _ _ _ H1), (rd8_holds _ _ _ H2), (rd8_holds _ _ _ H3). cbn [mbind res_bind mret res_ret]. f_equal.
  destruct (word_bytes (v / 16777216) (v / 65536 mod 256) (v / 256 mod 256) (v mod 256)) as [_ ->]; try (apply Z.mod_pos_bound; lia).
  - split; [apply Z.div_pos; lia|apply Z.div_lt_upper_bound; lia].
  - pose proof (Z.div_mod v 256). pose proof (Z.div_mod (v / 256) 256). pose proof (Z.div_mod (v / 65536) 256).
    rewrite !Z.div_div in * by lia. change (256 * 256) with 65536 in *. change (65536 * 256) with 16777216 in *. lia.
Qed.

(** The name of a node, and its end. *)
Lemma node_name_run name u : ∀ o i n, text name → 64 ∉ name → holds (o + i) (name ++ u ++ [NUL]) → (u = [] ∨ ∃ r, u = 64 :: r) → (length name < n)%nat →
  node_name dtb n o i = Ok (name ++ [NUL]).
Proof.
  induction name as [|c name IH]; intros o i [|n] Ht Hat Hh Hu Hn; try (simpl in Hn; lia); cbn [node_name].
  - destruct Hu as [->|[r ->]]; simpl in Hh; rewrite (rd8_holds _ _ _ Hh); reflexivity.
  - apply Forall_cons in Ht as [Hc Ht]. apply not_elem_of_cons in Hat as [Hne Hat]. simpl in Hh. rewrite (rd8_holds _ _ _ Hh). cbn [mbind res_bind].
    destruct (Z.eqb_spec c NUL) as [E|_]; [unfold NUL in E; lia|]. destruct (Z.eqb_spec c 64) as [E|_]; [congruence|]. cbn [orb].
    rewrite IH; [done|done|done| |done|simpl in Hn; lia]. replace (o + (i + 1)) with (o + i + 1) by lia. by apply (holds_tail _ c).
Qed.

Lemma str_end_run s : ∀ o i n, text s → holds (o + i) (s ++ [NUL]) → (length s < n)%nat → str_end dtb n o i = Ok (i + Z.of_nat (length s)).
Proof.
  induction s as [|c s IH]; intros o i [|n] Ht Hh Hn; try (simpl in Hn; lia); cbn [str_end]; simpl in Hh; rewrite (rd8_holds _ _ _ Hh); cbn [mbind res_bind].
  - simpl. f_equal. lia.
  - apply Forall_cons in Ht as [Hc Ht]. destruct (Z.eqb_spec c NUL) as [E|_]; [unfold NUL in E; lia|].
    rewrite IH; [simpl; f_equal; lia|done| |simpl in Hn; lia]. replace (o + (i + 1)) with (o + i + 1) by lia. by apply (holds_tail _ c).
Qed.

Lemma holds_length o bs : holds o bs → o + Z.of_nat (length bs) ≤ Z.of_nat (length dtb) ∨ bs = [].
Proof.
  intros [Ho [r Hr]]. destruct bs as [|b bs]; [by right|left]. unfold at_off in Hr. apply (f_equal length) in Hr. rewrite length_drop, length_app in Hr. simpl in *. lia.
Qed.

(** Rounding up to a multiple of 4, as the code does it. *)
Lemma round4 (w : Z → Z) k n : (w = u32 ∧ k = 32) ∨ (w = u64 ∧ k = 64) → 0 ≤ n → n + 3 < 2 ^ k →
  Z.land (w (n + 3)) (w (Z.lnot 3)) = n + (- n) mod 4.
Proof.
  intros Hw Hn Hb. assert (E : w (n + 3) = n + 3 ∧ w (Z.lnot 3) = Z.shiftl (Z.ones (k - 2)) 2).
  { destruct Hw as [[-> ->]|[-> ->]]; unfold u32, u64; (split; [apply Z.mod_small; lia|reflexivity]). } destruct E as [-> ->].
  assert (Z.land (n + 3) (Z.shiftl (Z.ones (k - 2)) 2) = (n + 3) / 4 * 4) as ->.
  { assert (Hk : 2 ≤ k) by (destruct Hw as [[_ ->]|[_ ->]]; lia).
    rewrite <- (Z.shiftl_mul_pow2 _ 2) by lia. change 4 with (2 ^ 2). rewrite <- Z.shiftr_div_pow2 by lia. apply Z.bits_inj'. intros b Hb'.
    rewrite Z.land_spec, !Z.shiftl_spec by lia. destruct (Z.lt_ge_cases b 2).
    - rewrite !(Z.testbit_neg_r _ (b - 2)) by lia. apply andb_false_r.
    - rewrite Z.shiftr_spec by lia. replace (b - 2 + 2) with b by lia. destruct (Z.lt_ge_cases b k).
      + rewrite Z.ones_spec_low by lia. apply andb_true_r.
      + rewrite <- (Z.mod_small (n + 3) (2 ^ k)) by lia. by rewrite Z.mod_pow2_bits_high by lia. }
  Z.div_mod_to_equations. lia.
Qed.
End Blob.

Lemma lift_bind {S A B} (r : res A) a (k : A → M S B) s : r = Ok a → (lift r ≫= k) s = k a s.
Proof. by intros ->. Qed.

(** ** The traversal *)

(** What the traversal does, on tokens: [T] is the offset of the strings. *)
Fixpoint visit (dtb : list Z) (T : Z) (func : Z → list Z → M dts bool) (p : Z) (l : list tok) : M dts unit :=
  match l with
  | [] => func p (lit "") ;; mret tt
  | t :: l' =>
      found ← match t with
              | TBegin name _ => func p (name ++ [NUL])
              | TProp off _ => func p (at_off dtb (T + off))
              | _ => mret false
              end;
      if (found : bool) then mret tt else visit dtb T func (p + tok_size t) l'
  end.

Definition tok_ok (t : tok) : Prop :=
  match t with
  | TBegin name u => text name ∧ (64 ∉ name) ∧ (length name < 32)%nat ∧ text u ∧ (u = [] ∨ ∃ r, u = 64 :: r) ∧ Z.of_nat (length name + length u) < 2 ^ 32
  | TProp off data => 0 ≤ off < 2 ^ 32 ∧ Z.of_nat (length data) < 2 ^ 32 - 16
  | _ => True
  end.

Record dtb_wf (dtb : list Z) (S T : Z) (l : list tok) : Prop := mk_dtb_wf {
  dw_magic : holds dtb 0 (be32 0xd00dfeed);
  dw_struct : 0 ≤ S < 2 ^ 32 ∧ holds dtb 8 (be32 S);
  dw_strings : 0 ≤ T < 2 ^ 32 ∧ holds dtb 12 (be32 T);
  dw_tokens : holds dtb S (struct_bytes l);
  dw_ok : Forall tok_ok l;
}.

Section Traverse.
Context (dtb : list Z) (T : Z) (func : Z → list Z → M dts bool).
Hypothesis HT : 0 ≤ T < 2 ^ 32 ∧ holds dtb 12 (be32 T).

Lemma pad4_length n : Z.of_nat (length (pad4 n)) = (- Z.of_nat n) mod 4.
Proof. unfold pad4. rewrite length_replicate, Z2Nat.id; [done|]. apply Z.mod_pos_bound. lia. Qed.

Lemma begin_size name u : tok_size (TBegin name u) = 4 + (Z.of_nat (length (name ++ u)) + 1) + (- (4 + (Z.of_nat (length (name ++ u)) + 1))) mod 4.
Proof.
  unfold tok_size. cbn [tok_bytes]. rewrite !length_app, !Nat2Z.inj_add, pad4_length. cbn [length be32]. rewrite !Nat2Z.inj_add.
  rewrite <- (Z.mod_add (- (4 + _)) 1 4) by lia. replace (- (4 + (Z.of_nat (length name) + Z.of_nat (length u) + 1)) + 1 * 4) with (- (Z.of_nat (length name) + Z.of_nat (length u) + Z.of_nat 1)) by lia. lia.
Qed.

Lemma prop_size off data : tok_size (TProp off data) = 12 + Z.of_nat (length data) + (- (12 + Z.of_nat (length data))) mod 4.
Proof.
  unfold tok_size. cbn [tok_bytes]. rewrite !length_app, !Nat2Z.inj_add, pad4_length. cbn [length be32].
  rewrite <- (Z.mod_add (- (12 + _)) 3 4) by lia. replace (- (12 + Z.of_nat (length data)) + 3 * 4) with (- Z.of_nat (length data)) by lia. lia.
Qed.

Lemma struct_cons p t l : holds dtb p (struct_bytes (t :: l)) → holds dtb p (tok_bytes t) ∧ holds dtb (p + tok_size t) (struct_bytes l).
Proof. unfold struct_bytes. rewrite fmap_cons. cbn [concat]. rewrite <- app_assoc. intros H. by apply holds_app. Qed.

Lemma loop_visit : ∀ l fuel p s, holds dtb p (struct_bytes l) → Forall tok_ok l → (length l < fuel)%nat → fdt_loop dtb fuel func p s = visit dtb T func p l s.
Proof.
  induction l as [|t l IH]; intros [|fuel] p s Hh Hok Hf; try (simpl in Hf; lia); cbn [fdt_loop visit].
  { rewrite (lift_bind _ FDT_END) by (by apply rd_big_holds). reflexivity. }
  apply Forall_cons in Hok as [Ht Hok]. destruct (struct_cons _ _ _ Hh) as [Hb Hl]. assert (Hf' : (length l < fuel)%nat) by (simpl in Hf; lia).
  destruct t as [name u|off data| |]; cbn [tok_bytes] in Hb.
  - destruct Ht as (H1 & H2 & H3 & H4 & H5 & H6). apply holds_app in Hb as [Hb0 Hb1]. change (Z.of_nat (length (be32 FDT_BEGIN_NODE))) with 4 in Hb1.
    rewrite (lift_bind _ FDT_BEGIN_NODE) by (by apply rd_big_holds). change (FDT_BEGIN_NODE =? FDT_BEGIN_NODE) with true. cbv iota.
    assert (Hs : holds dtb (p + 4) ((name ++ u) ++ [NUL])) by (apply (holds_app dtb _ _ (pad4 (length name + length u + 1))); by rewrite <- !app_assoc).
    rewrite (lift_bind _ (name ++ [NUL])) by (apply (node_name_run dtb name u); try done; by rewrite Z.add_0_r, app_assoc).
    unfold mbind at 1 3, M_bind at 1 3. destruct (func p (name ++ [NUL]) s) as [[[] s1]| |]; try done.
    rewrite (lift_bind _ (Z.of_nat (length (name ++ u)))).
    2: { apply (str_end_run dtb (name ++ u)); [by apply Forall_app|by rewrite Z.add_0_r|]. destruct (holds_length _ _ _ Hs) as [E|E]; [|by destruct name, u]. rewrite !length_app in *. simpl in E. destruct Hs as [? _]. lia. }
    rewrite (round4 u64 64); [|by right|lia|rewrite length_app; lia]. rewrite <- begin_size. by apply IH.
  - destruct Ht as (H1 & H2). apply holds_app in Hb as [Hb0 Hb1]. apply holds_app in Hb1 as [Hb1 Hb2]. apply holds_app in Hb2 as [Hb2 _].
    change (Z.of_nat (length (be32 FDT_PROP))) with 4 in *. change (Z.of_nat (length (be32 (Z.of_nat (length data))))) with 4 in *. replace (p + 4 + 4) with (p + 8) in Hb2 by lia.
    rewrite (lift_bind _ FDT_PROP) by (by apply rd_big_holds). cbn [Z.eqb FDT_PROP FDT_BEGIN_NODE Pos.eqb].
    rewrite (lift_bind _ T) by (destruct HT; by apply rd_big_holds). rewrite (lift_bind _ off) by (by apply rd_big_holds).
    unfold mbind at 1 3, M_bind at 1 3. destruct (func p (at_off dtb (T + off)) s) as [[[] s1]| |]; try done.
    rewrite (lift_bind _ (Z.of_nat (length data))) by (apply rd_big_holds; [lia|done]). cbv zeta.
    assert (u32 (4 + 8 + Z.of_nat (length data)) = 12 + Z.of_nat (length data)) as -> by (apply Z.mod_small; lia).
    rewrite (round4 u32 32); [|by left|lia|lia]. rewrite <- prop_size with (off := off). by apply IH.
  - rewrite (lift_bind _ FDT_END_NODE) by (by apply rd_big_holds). cbn. by apply IH.
  - rewrite (lift_bind _ FDT_NOP) by (by apply rd_big_holds). cbn. by apply IH.
Qed.
End Traverse.

Lemma fdt_traverse_visit dtb S T l func fuel s :
  dtb_wf dtb S T l → (length l < fuel)%nat → fdt_traverse dtb fuel func s = visit dtb T func S l s.
Proof.
  intros [H1 H2 H3 H4 H5] Hf. unfold fdt_traverse. rewrite (lift_bind _ 0xd00dfeed) by (apply rd_big_holds; [lia|done]).
  change (negb (0xd00dfeed =? 0xd00dfeed)) with false. cbv iota. unfold mbind at 1, M_bind at 1. cbn [mret M_ret].
  rewrite (lift_bind _ S) by (destruct H2; by apply rd_big_holds). by apply loop_visit.
Qed.

(** C28: On a well-formed tree, [fdt_traverse] calls its callback on the nodes and
    properties in the order of the tree, with the name up to the unit
    address, until the callback answers true, and at the end of the tree;
    the loop ends after as many rounds as there are tokens. *)
Theorem fdt_traverse_correct dtb S T l func fuel s :
  dtb_wf dtb S T l → (length l < fuel)%nat → fdt_traverse dtb fuel func s = visit dtb T func S l s.
Proof. apply fdt_traverse_visit. Qed.

(** A token that is none of the five makes the traversal print its message for
    ever: the pointer does not move. *)
Theorem fdt_traverse_bad_token dtb p func v :
  0 ≤ v < 2 ^ 32 → holds dtb p (be32 v) → v ∉ [FDT_BEGIN_NODE; FDT_END_NODE; FDT_PROP; FDT_NOP; FDT_END] →
  ∀ fuel s, fdt_loop dtb fuel func p s = Spin.
Proof.
  intros Hv Hh Hn. rewrite !not_elem_of_cons in Hn. destruct Hn as (N1 & N2 & N3 & N4 & N5 & _).
  induction fuel as [|fuel IH]; intros s; [done|]. cbn [fdt_loop]. rewrite (lift_bind _ v) by (by apply rd_big_holds).
  destruct (Z.eqb_spec v FDT_BEGIN_NODE); [done|]. destruct (Z.eqb_spec v FDT_PROP); [done|]. destruct (Z.eqb_spec v FDT_END_NODE); [done|].
  destruct (Z.eqb_spec v FDT_NOP); [done|]. destruct (Z.eqb_spec v FDT_END); [done|]. cbn [orb]. unfold mbind, M_bind. exact (IH _).
Qed.

(** ** Paths *)

Definition path_of (cs : list (list Z)) : list Z := concat (cons 47 <$> cs) ++ [NUL].
Definition before (cs : list (list Z)) (k : nat) : list Z := concat (cons 47 <$> take k cs) ++ [47].
Definition start (cs : list (list Z)) (k : nat) : Z := Z.of_nat (length (before cs k)).

Definition comp_ok (c : list Z) : Prop := text c ∧ (47 ∉ c) ∧ Z.of_nat (length c) < 2 ^ 32.

Lemma path_split cs k c : cs !! k = Some c → ∃ post, path_of cs = before cs k ++ c ++ (if decide (S k = length cs) then NUL else 47) :: post.
Proof.
  intros Hk. pose proof (take_drop_middle cs k c Hk) as E. pose proof (lookup_lt_Some _ _ _ Hk) as Hl. destruct (decide (S k = length cs)) as [He|He].
  - exists []. unfold path_of, before. rewrite <- E at 1. rewrite drop_ge by lia. rewrite fmap_app, concat_app. simpl. by rewrite app_nil_r, <- !app_assoc.
  - destruct (drop (S k) cs) as [|c' rest] eqn:Ed; [apply (f_equal length) in Ed; rewrite length_drop in Ed; simpl in Ed; lia|].
    exists (c' ++ concat (cons 47 <$> rest) ++ [NUL]). unfold path_of, before. rewrite <- E at 1. rewrite fmap_app, concat_app. simpl. repeat (rewrite <- app_assoc; simpl). done.
Qed.

Lemma before_succ cs k c : cs !! k = Some c → before cs (S k) = before cs k ++ c ++ [47].
Proof.
  intros Hk. unfold before. rewrite (take_S_r _ _ c Hk), fmap_app, concat_app. simpl. by rewrite <- !app_assoc, app_nil_r.
Qed.

Lemma component_end_run c d post : comp_ok c → d = 47 ∨ d = NUL → ∀ pre n, (length c < n)%nat →
  component_end n (pre ++ c ++ d :: post) (Z.of_nat (length pre)) = Ok (Z.of_nat (length pre) + Z.of_nat (length c), bool_decide (d = NUL)).
Proof.
  intros (Ht & Hs & _) Hd. induction c as [|x c IH]; intros pre [|n] Hn; try (simpl in Hn; lia); cbn [component_end]; rewrite Nat2Z.id, lookup_app_r, Nat.sub_diag by lia.
  - simpl. rewrite Z.add_0_r. by destruct Hd as [-> | ->].
  - apply Forall_cons in Ht as [Hx Ht]. apply not_elem_of_cons in Hs as [Hne Hs]. cbn [app lookup list_lookup ptr_get mbind res_bind].
    destruct (Z.eqb_spec x 47) as [E|_]; [congruence|]. destruct (Z.eqb_spec x NUL) as [E|_]; [unfold NUL in E; lia|].
    specialize (IH Ht Hs (pre ++ [x]) n ltac:(simpl in Hn; lia)). rewrite length_app in IH. simpl in IH. rewrite <- app_assoc in IH. simpl in IH.
    replace (Z.of_nat (length pre) + 1) with (Z.of_nat (length pre + 1)) by lia. rewrite IH. f_equal. f_equal. simpl. lia.
Qed.

(** The index when component [k] is the next one. *)
Definition at_comp (cs : list (list Z)) (k : nat) (idx : Z) : Prop := idx = start cs k ∨ k = 0%nat ∧ idx = 0.

Lemma path_step_run cs k c idx n rest : Forall comp_ok cs → cs !! k = Some c → at_comp cs k idx → text n → Z.of_nat (length n) < 2 ^ 64 →
  path_step (path_of cs) idx (n ++ NUL :: rest) =
    Ok (if decide (n = c) then (start cs (S k), bool_decide (S k = length cs)) else (start cs k, false)).
Proof.
  intros Hcs Hk Hat Hn Hl. destruct (path_split cs k c Hk) as [post E]. assert (Hc : comp_ok c) by (by eapply Forall_lookup_1).
  assert (Hfirst : ∃ x, path_of cs !! Z.to_nat idx = Some x ∧ (if (idx =? 0) && (x =? 47) then idx + 1 else idx) = start cs k).
  { assert (Hst : 1 ≤ start cs k) by (unfold start, before; rewrite length_app; simpl; lia). destruct Hat as [->|[-> ->]].
    - unfold start at 1. rewrite Nat2Z.id, E, lookup_app_r, Nat.sub_diag by lia. destruct (Z.eqb_spec (start cs k) 0); [lia|]. destruct c; eexists; split; reflexivity.
    - exists 47. rewrite E. unfold before. rewrite take_0. split; [reflexivity|]. reflexivity. }
  destruct Hfirst as (x & Hx & Hi). unfold path_step. rewrite Hx. cbn [ptr_get mbind res_bind]. rewrite Hi. clear x Hx Hi.
  assert (Hd : (if decide (S k = length cs) then NUL else 47) = 47 ∨ (if decide (S k = length cs) then NUL else 47) = NUL) by (case_decide; auto).
  rewrite E. unfold start at 1. rewrite (component_end_run c _ post Hc Hd) by (rewrite !length_app; simpl; lia). cbn [mbind res_bind].
  rewrite Z2Nat.inj_add, !Nat2Z.id by lia. rewrite insert_app_r. rewrite <- (Nat.add_0_r (length c)), insert_app_r. cbn [list_insert insert].
  unfold start at 1. rewrite Nat2Z.id, drop_app_length. destruct Hc as (Ht & _ & Hcl). rewrite strcmp_lex by (done || lia). cbn [mbind res_bind].
  destruct (Z.eqb_spec (lexcmp c n) 0) as [El|El].
  - apply lexcmp_eq in El. destruct (decide (n = c)) as [_|Hne]; [|congruence]. f_equal. f_equal.
    + unfold start. rewrite (before_succ _ _ _ Hk), !length_app. simpl. lia.
    + apply bool_decide_ext. case_decide; split; done.
  - destruct (decide (n = c)) as [->|_]; [|done]. by destruct El; apply lexcmp_eq.
Qed.

(** ** The callbacks *)

(** The name a callback sees. *)
Definition named (dtb : list Z) (T : Z) (t : tok) (n : option (list Z)) : Prop :=
  match t with
  | TBegin name _ => n = Some name
  | TProp off _ => ∃ name rest, n = Some name ∧ text name ∧ Z.of_nat (length name) < 2 ^ 64 ∧ at_off dtb (T + off) = name ++ NUL :: rest
  | _ => n = None
  end.

(** The first token whose name completes the path, when each component is
    looked for after the previous one. *)
Fixpoint seek (cs : list (list Z)) (l : list (tok * option (list Z))) : option tok :=
  match l with
  | [] => None
  | (t, None) :: l' => seek cs l'
  | (t, Some n) :: l' =>
      match cs with
      | [] => None
      | c :: cs' => if decide (n = c) then match cs' with [] => Some t | _ => seek cs' l' end else seek cs l'
      end
  end.

(** A property whose value starts with the word [v]. *)
Definition value_is (t : tok) (v : Z) : Prop := ∃ off rest, t = TProp off (be32 v ++ rest) ∧ 0 ≤ v < 2 ^ 32.

Section Find.
Context (dtb : list Z) (T : Z) (cs : list (list Z)) (set_addr : Z → dts → dts).
Hypothesis Hcs : Forall comp_ok cs.
Hypothesis Hcomm : ∀ a i s, set_addr a (set_rd_idx i s) = set_rd_idx i (set_addr a s).

Lemma tok_word p t : holds dtb p (tok_bytes t) → rd_big dtb p = Ok (match t with TBegin _ _ => FDT_BEGIN_NODE | TProp _ _ => FDT_PROP | TEnd => FDT_END_NODE | TNop => FDT_NOP end).
Proof. intros H. destruct t; cbn [tok_bytes] in H; apply rd_big_holds; try done; by apply holds_app in H as [? _]. Qed.

Lemma tok_value p t v : holds dtb p (tok_bytes t) → value_is t v → rd_big dtb (p + 4 + 8) = Ok v.
Proof.
  intros H (off & rest & -> & Hv). cbn [tok_bytes] in H. apply holds_app in H as [_ H]. apply holds_app in H as [_ H]. apply holds_app in H as [_ H].
  rewrite <- app_assoc in H. apply holds_app in H as [H _]. apply rd_big_holds; [done|]. change (p + 4 + 4 + 4) with (p + 4 + 4 + 4) in H.
  replace (p + 4 + 8) with (p + 4 + 4 + 4) by lia. exact H.
Qed.

(** One call at a node or a property. *)
Lemma process_run p t n rest k c s : holds dtb p (tok_bytes t) → (match t with TBegin _ _ | TProp _ _ => True | _ => False end) → text n → Z.of_nat (length n) < 2 ^ 64 →
  cs !! k = Some c → at_comp cs k (rd_str_idx s) →
  (n = c → S k = length cs → ∃ v, value_is t v) →
  initramfs_process_node dtb (path_of cs) set_addr p (n ++ NUL :: rest) s =
    if decide (n = c) then
      if decide (S k = length cs) then
        match rd_big dtb (p + 4 + 8) with Ok v => Ok (true, set_rd_idx 0 (set_addr (p2v_trans_kernel v) s)) | Ub => Ub | Spin => Spin end
      else Ok (false, set_rd_idx (start cs (S k)) s)
    else Ok (false, set_rd_idx (start cs k) s).
Proof.
  intros Hh Ht Hn Hl Hk Hat Hval. unfold initramfs_process_node. rewrite (lift_bind _ _ _ _ (tok_word p t Hh)).
  assert (E : ∀ (a b : M dts bool), (if (match t with TBegin _ _ => FDT_BEGIN_NODE | TProp _ _ => FDT_PROP | TEnd => FDT_END_NODE | TNop => FDT_NOP end) =? FDT_END then a
    else if negb (match t with TBegin _ _ => FDT_BEGIN_NODE | TProp _ _ => FDT_PROP | TEnd => FDT_END_NODE | TNop => FDT_NOP end =? FDT_BEGIN_NODE) &&
      negb (match t with TBegin _ _ => FDT_BEGIN_NODE | TProp _ _ => FDT_PROP | TEnd => FDT_END_NODE | TNop => FDT_NOP end =? FDT_PROP) then mret false else b) = b) by (by destruct t).
  rewrite E. clear E. unfold mbind at 1, M_bind at 1. unfold gets. rewrite (lift_bind _ _ _ _ (path_step_run cs k c _ n rest Hcs Hk Hat Hn Hl)).
  destruct (decide (n = c)) as [->|]; [|reflexivity]. destruct (decide (S k = length cs)) as [He|He].
  - destruct (Hval eq_refl He) as [v Hv]. rewrite (tok_value p t v Hh Hv). rewrite bool_decide_true by done. unfold mbind at 1, M_bind at 1. unfold modify at 1. cbv beta iota.
    unfold mbind, M_bind, modify. cbn [lift]. rewrite Hcomm. reflexivity.
  - rewrite bool_decide_false by done. reflexivity.
Qed.

Definition found_in (l : list (tok * option (list Z))) (k : nat) s : dts :=
  match seek (drop k cs) l with
  | Some (TProp _ (b0 :: b1 :: b2 :: b3 :: _)) => set_rd_idx 0 (set_addr (p2v_trans_kernel (b3 + 256 * b2 + 65536 * b1 + 16777216 * b0)) s)
  | _ => set_rd_idx 0 s
  end.

Lemma found_idx l k i s : found_in l k (set_rd_idx i s) = found_in l k s.
Proof. unfold found_in. repeat case_match; try done. by rewrite Hcomm. Qed.

Lemma be32_value v b0 b1 b2 b3 : be32 v = [b0; b1; b2; b3] → 0 ≤ v < 2 ^ 32 → b3 + 256 * b2 + 65536 * b1 + 16777216 * b0 = v.
Proof.
  intros [= <- <- <- <-] Hv. pose proof (Z.div_mod v 256). pose proof (Z.div_mod (v / 256) 256). pose proof (Z.div_mod (v / 65536) 256).
  rewrite !Z.div_div in * by lia. change (256 * 256) with 65536 in *. change (65536 * 256) with 16777216 in *. lia.
Qed.

Lemma find_run : ∀ l p k s, holds dtb p (struct_bytes l.*1) → Forall tok_ok l.*1 → Forall (λ x, named dtb T x.1 x.2) l → (k < length cs)%nat → at_comp cs k (rd_str_idx s) →
  (∀ t, seek (drop k cs) l = Some t → ∃ v, value_is t v) →
  visit dtb T (initramfs_process_node dtb (path_of cs) set_addr) p l.*1 s = Ok (tt, found_in l k s).
Proof.
  induction l as [|[t nm] l IH]; intros p k s Hh Hok Hnm Hk Hat Hval.
  { simpl in Hh |- *. unfold initramfs_process_node. unfold mbind at 1, M_bind at 1. rewrite (lift_bind _ FDT_END) by (by apply rd_big_holds). cbn. unfold found_in. by destruct (drop k cs). }
  destruct (lookup_lt_is_Some_2 cs k Hk) as [c Hc]. rewrite fmap_cons in *. cbn [fst] in *. apply Forall_cons in Hok as [Ht Hok]. apply Forall_cons in Hnm as [Hn Hnm]. simpl in Hn.
  destruct (struct_cons _ _ _ _ Hh) as [Hb Hl]. rewrite (drop_S _ _ _ Hc) in Hval. cbn [visit].
  assert (Hstep : ∀ n rest, nm = Some n → (match t with TBegin _ _ | TProp _ _ => True | _ => False end) → text n → Z.of_nat (length n) < 2 ^ 64 →
    (found ← initramfs_process_node dtb (path_of cs) set_addr p (n ++ NUL :: rest);
     if (found : bool) then mret tt else visit dtb T (initramfs_process_node dtb (path_of cs) set_addr) (p + tok_size t) l.*1) s = Ok (tt, found_in ((t, nm) :: l) k s)).
  { intros n rest -> Htk Htx Hln. unfold mbind, M_bind. cbn [seek] in Hval. rewrite (process_run p t n rest k c s Hb Htk Htx Hln Hc Hat).
    2: { intros -> He. apply Hval. rewrite decide_True by done. by rewrite (drop_ge cs (S k)) by lia. }
    unfold found_in at 1. rewrite (drop_S _ _ _ Hc). cbn [seek]. destruct (decide (n = c)) as [->|Hne].
    - destruct (decide (S k = length cs)) as [He|He].
      + rewrite (drop_ge cs (S k)) in * by lia. destruct (Hval t eq_refl) as (v & Hv). rewrite (tok_value p t v Hb Hv). destruct Hv as (off & r & -> & Hv).
        destruct (be32 v) as [|b0 [|b1 [|b2 [|b3 [|]]]]] eqn:Eb; try done. simpl. by rewrite (be32_value v b0 b1 b2 b3).
      + destruct (drop (S k) cs) as [|c' cs'] eqn:Ed; [apply (f_equal length) in Ed; rewrite length_drop in Ed; simpl in Ed; lia|].
        rewrite (IH _ (S k)); try done; [by rewrite found_idx; unfold found_in; rewrite Ed|lia|by left|by rewrite Ed].
    - rewrite (IH _ k); try done; [rewrite found_idx; unfold found_in; by rewrite (drop_S _ _ _ Hc)|by left|by rewrite (drop_S _ _ _ Hc)]. }
  destruct t as [name u|off data| |]; simpl in Hn.
  - apply (Hstep name []); [done|done|apply Ht|]. destruct Ht as (_ & _ & ? & _). lia.
  - destruct Hn as (name & rest & -> & H1 & H2 & H3). rewrite H3. by apply Hstep.
  - subst nm. unfold mbind, M_bind. cbn [mret M_ret]. rewrite (IH _ k); try done. by rewrite (drop_S _ _ _ Hc).
  - subst nm. unfold mbind, M_bind. cbn [mret M_ret]. rewrite (IH _ k); try done. by rewrite (drop_S _ _ _ Hc).
Qed.
End Find.

(** ** The position of the ramdisk *)

Definition initrd_start_path : list (list Z) := [chars "chosen"; chars "linux,initrd-start"].
Definition initrd_end_path : list (list Z) := [chars "chosen"; chars "linux,initrd-end"].

Lemma initrd_paths_ok : Forall comp_ok initrd_start_path ∧ Forall comp_ok initrd_end_path.
Proof.
  assert (H : ∀ c, forallb (λ x, (0 <? x) && (x <? 256) && negb (x =? 47)) c = true → Z.of_nat (length c) < 2 ^ 32 → comp_ok c).
  { intros c Hc Hl. rewrite forallb_forall in Hc. split; [|split; [|done]].
    - apply Forall_forall. intros x Hx. apply list_elem_of_In, Hc in Hx. lia.
    - intros Hx. apply list_elem_of_In, Hc in Hx. lia. }
  split; (constructor; [|constructor; [|constructor]]); apply H; by vm_compute.
Qed.

(** The traversal with [initramfs_start] and the one with [initramfs_end] put
    the values of the two properties into [ramdisk_saddr] and
    [ramdisk_eaddr], as kernel addresses: those of the first token called
    linux,initrd-start, or -end, after the first one called chosen. *)
Theorem initrd_found dtb S T l fuel s off1 v1 r1 off2 v2 r2 :
  dtb_wf dtb S T l.*1 → (length l < fuel)%nat → Forall (λ x, named dtb T x.1 x.2) l → rd_str_idx s = 0 →
  seek initrd_start_path l = Some (TProp off1 (be32 v1 ++ r1)) → 0 ≤ v1 < 2 ^ 32 →
  seek initrd_end_path l = Some (TProp off2 (be32 v2 ++ r2)) → 0 ≤ v2 < 2 ^ 32 →
  (fdt_traverse dtb fuel (initramfs_start dtb) ;; fdt_traverse dtb fuel (initramfs_end dtb)) s =
    Ok (tt, set_eaddr (p2v_trans_kernel v2) (set_saddr (p2v_trans_kernel v1) s)).
Proof.
  intros Hwf Hf Hnm Hi S1 V1 S2 V2. destruct initrd_paths_ok as [P1 P2]. assert (Hf' : (length l.*1 < fuel)%nat) by (by rewrite length_fmap).
  assert (E1 : fdt_traverse dtb fuel (initramfs_start dtb) s = Ok (tt, set_saddr (p2v_trans_kernel v1) s)).
  { rewrite (fdt_traverse_visit dtb S T l.*1 _ fuel s Hwf Hf'). change (initramfs_start dtb) with (initramfs_process_node dtb (path_of initrd_start_path) set_saddr).
    rewrite (find_run dtb T initrd_start_path set_saddr P1 ltac:(done) l S 0 s); [|apply Hwf|apply Hwf|done|simpl; lia|by right|].
    - unfold found_in. rewrite drop_0, S1. cbn [be32 app]. rewrite (be32_value v1 _ _ _ _ eq_refl V1). destruct s. simpl in *. by subst.
    - rewrite drop_0, S1. intros t [= <-]. exists v1, off1, r1. done. }
  unfold mbind, M_bind. rewrite E1. rewrite (fdt_traverse_visit dtb S T l.*1 _ fuel _ Hwf Hf'). change (initramfs_end dtb) with (initramfs_process_node dtb (path_of initrd_end_path) set_eaddr).
  rewrite (find_run dtb T initrd_end_path set_eaddr P2 ltac:(done) l S 0); [|apply Hwf|apply Hwf|done|simpl; lia|by right|].
  - unfold found_in. rewrite drop_0, S2. cbn [be32 app]. rewrite (be32_value v2 _ _ _ _ eq_refl V2). destruct s. simpl in *. by subst.
  - rewrite drop_0, S2. intros t [= <-]. exists v2, off2, r2. done.
Qed.

(** ** Witnesses *)

(** A tree with a memory node and a chosen node. *)
Definition demo_strings : list Z := lit "reg" ++ lit "linux,initrd-start" ++ lit "linux,initrd-end".
Definition demo_toks : list (tok * option (list Z)) :=
  [(TBegin [] [], Some []); (TBegin (chars "memory") (chars "@0"), Some (chars "memory"));
   (TProp 0 (be32 0 ++ be32 0x3b400000), Some (chars "reg")); (TEnd, None); (TNop, None);
   (TBegin (chars "chosen") [], Some (chars "chosen"));
   (TProp 23 (be32 0x8001000), Some (chars "linux,initrd-end")); (TProp 4 (be32 0x8000000), Some (chars "linux,initrd-start"));
   (TEnd, None); (TEnd, None)].
Definition demo_struct : list Z := struct_bytes demo_toks.*1.
Definition demo_off : Z := Z.of_nat (40 + length demo_struct).
Definition demo_dtb : list Z :=
  be32 0xd00dfeed ++ be32 (demo_off + Z.of_nat (length demo_strings)) ++ be32 40 ++ be32 demo_off ++ concat (be32 <$> [40; 17; 16; 0; Z.of_nat (length demo_strings); Z.of_nat (length demo_struct)]) ++
  demo_struct ++ demo_strings.

Lemma holds_intro dtb o bs : 0 ≤ o → at_off dtb o = bs ++ drop (length bs) (at_off dtb o) → holds dtb o bs.
Proof. intros Ho E. split; [done|]. by exists (drop (length bs) (at_off dtb o)). Qed.

Definition tok_check (t : tok) : bool :=
  match t with
  | TBegin name u =>
      forallb (λ x, (0 <? x) && (x <? 256)) name && bool_decide (64 ∉ name) && bool_decide (length name < 32)%nat && forallb (λ x, (0 <? x) && (x <? 256)) u &&
      bool_decide (u = [] ∨ head u = Some 64) && bool_decide (Z.of_nat (length name + length u) < 2 ^ 32)
  | TProp off data => bool_decide (0 ≤ off < 2 ^ 32) && bool_decide (Z.of_nat (length data) < 2 ^ 32 - 16)
  | _ => true
  end.

Lemma tok_check_ok t : tok_check t = true → tok_ok t.
Proof.
  destruct t as [name u|off data| |]; simpl; [|by rewrite andb_true_iff, !bool_decide_eq_true|done..].
  rewrite !andb_true_iff, !bool_decide_eq_true. intros (((((H1 & H2) & H3) & H4) & H5) & H6). split_and!; try done; try (by apply text_chars).
  destruct H5 as [->|H5]; [by left|right]. destruct u as [|x r]; [done|]. injection H5 as ->. eauto.
Qed.

Lemma demo_ok : dtb_wf demo_dtb 40 demo_off demo_toks.*1.
Proof.
  split.
  - apply holds_intro; [lia|vm_compute; reflexivity].
  - split; [lia|]. apply holds_intro; [lia|vm_compute; reflexivity].
  - split; [by vm_compute|]. apply holds_intro; [lia|vm_compute; reflexivity].
  - apply holds_intro; [lia|vm_compute; reflexivity].
  - assert (H : forallb tok_check demo_toks.*1 = true) by (vm_compute; reflexivity). rewrite forallb_forall in H.
    apply Forall_forall. intros t Ht. by apply tok_check_ok, H, list_elem_of_In.
Qed.

Lemma demo_named : Forall (λ x, named demo_dtb demo_off x.1 x.2) demo_toks.
Proof.
  assert (H : ∀ off (s : string), forallb (λ x, (0 <? x) && (x <? 256)) (chars s) = true → Z.of_nat (length (chars s)) < 2 ^ 64 →
    at_off demo_dtb (demo_off + off) = chars s ++ NUL :: drop (S (length (chars s))) (at_off demo_dtb (demo_off + off)) → ∀ d, named demo_dtb demo_off (TProp off d) (Some (chars s))).
  { intros off s H1 H2 H3 d. exists (chars s), (drop (S (length (chars s))) (at_off demo_dtb (demo_off + off))). split; [done|]. split; [by apply text_chars|]. split; [exact H2|exact H3]. }
  repeat (constructor; [first [reflexivity|apply H; vm_compute; reflexivity]|]). constructor.
Qed.

Definition dts0 : dts := mk_dts (mk_cpu 0 false []) 0 0 (0, 0) 0 0.

Lemma fdt_traverse_correct_witness :
  fdt_traverse demo_dtb 20 (mem_region demo_dtb) dts0 = Ok (tt, set_usable (0, 0x3b400000) dts0).
Proof. rewrite (fdt_traverse_correct demo_dtb 40 demo_off demo_toks.*1 (mem_region demo_dtb) 20 dts0 demo_ok); [vm_compute; reflexivity|simpl; lia]. Defined.

Lemma initrd_found_witness :
  (fdt_traverse demo_dtb 20 (initramfs_start demo_dtb) ;; fdt_traverse demo_dtb 20 (initramfs_end demo_dtb)) dts0 =
    Ok (tt, set_eaddr (p2v_trans_kernel 0x8001000) (set_saddr (p2v_trans_kernel 0x8000000) dts0)).
Proof.
  apply (initrd_found demo_dtb 40 demo_off demo_toks 20 dts0 4 0x8000000 [] 23 0x8001000 [] demo_ok); [simpl; lia|exact demo_named|reflexivity|vm_compute; reflexivity|lia|vm_compute; reflexivity|lia].
Defined.

Lemma fdt_traverse_bad_token_witness : fdt_loop (be32 7) 100 (λ _ _, mret false) 0 dts0 = Spin.
Proof.
  apply (fdt_traverse_bad_token (be32 7) 0 (λ _ _, mret false) 7); [lia|apply holds_intro; [lia|vm_compute; reflexivity]|]. apply (bool_decide_unpack _). vm_compute. exact I.
Defined.
