(* ===== verification/VfsData.v ===== *)
(** * Virtual file system: data (include/kernel/vfs.h)

    The heap objects of the file system as maps from addresses: NULL is 0.
    The children of a vnode are the sequence their linked list stands for
    (KListThm); file contents are byte arrays, and [internal] points into
    one.  [cur_dir], [fd_table] and [fd_bitmap] are the fields of the running
    process's control block.  [sd], [f_datas] and [fat] belong to FAT32: the
    blocks of the card, the [internal] objects of its vnodes, and the volume. *)

From S2P Require Import Prelude Cpu Str.

(** ** FAT32 (fat32.h, and the struct at the top of fat32.c) *)

(** [content_cache] lists the addresses of the cached sectors. *)
Record fat32_f_data := mk_fdata { dirty : bool; clus_idx : Z; content_cache : list Z }.

Record fat32_data := mk_fat32 {
  start_blk_idx : Z;
  end_of_file : Z;
  BPB_BytsPerSec : Z;
  BPB_SecPerClus : Z;
  BPB_RsvdSecCnt : Z;
  BPB_NumFATs : Z;
  BPB_FATSz32 : Z;
  BPB_RootClus : Z;
  fat_cache : list Z;
  fat_mount_point : Z;
}.

(** ** The virtual file system *)

Inductive file_type := FILE | DIR | DEV | LINK.

#[export] Instance file_type_eq_dec : EqDecision file_type.
Proof. solve_decision. Defined.

(** The functions whose addresses are stored in the operation tables. *)
Inductive fn :=
  | F_tmpfs_lookup | F_tmpfs_create | F_tmpfs_mkdir
  | F_tmpfs_write | F_tmpfs_read | F_tmpfs_open | F_tmpfs_close | F_tmpfs_lseek64
  | F_tmpfs_setup_mount | F_initramfs_setup_mount | F_fat32_setup_mount
  | F_fat32_create | F_fat32_mkdir | F_fat32_write | F_fat32_read
  | F_uart_read | F_uart_write | F_fb_write | F_fb_ioctl.

#[export] Instance fn_eq_dec : EqDecision fn.
Proof. solve_decision. Defined.

(** Where file contents are: a byte of an array. *)
Inductive data_ptr := D_null | D_at (block off : Z).

Record mount := mk_mount { m_root : Z; m_fs : Z; m_flags : Z }.

Record file_operations := mk_fops {
  fo_write : option fn;
  fo_read : option fn;
  fo_open : option fn;
  fo_close : option fn;
  fo_lseek64 : option fn;
  fo_ioctl : option fn;
}.

Record vnode_operations := mk_vops {
  vo_lookup : option fn;
  vo_create : option fn;
  vo_mkdir : option fn;
}.

Record vnode := mk_vnode {
  v_mount : Z;
  v_ops : Z;
  v_fops : Z;
  children : list Z;
  hidden : bool;
  v_mode : Z;
  v_parent : Z;
  v_type : file_type;
  v_name : list Z;
  file_size : Z;
  internal : data_ptr;
}.

Record filesystem := mk_filesystem { fs_name : list Z; setup_mount : fn }.

Record file := mk_file { fl_vnode : Z; f_pos : Z; fl_fops : Z; f_flags : Z; fl_refs : Z }.

Definition MAX_FILE_SZ : Z := 4096.
Definition MAX_NUM_FD : Z := 16.
Definition O_RDONLY : Z := 0.
Definition O_WRONLY : Z := 1.
Definition O_CREAT : Z := 64.
Definition SEEK_SET : Z := 0.
Definition SEEK_CUR : Z := 1.
Definition SEEK_END : Z := 2.
Definition MS_RDONLY : Z := 1.

(** The kernel heap as this code sees it: [new_addr] gives the address of a
    new object, 0 when memory is exhausted; the contents of new objects and
    of uninitialised local variables are arbitrary. *)
Class FsHeap := {
  new_addr : gset Z → Z;
  new_addr_ok X : new_addr X = 0 ∨ 0 < new_addr X ∧ new_addr X ∉ X;
  junk_vnode : vnode;
  junk_vnode_name : length (v_name junk_vnode) = Z.to_nat STRLEN;
  junk_ctx : strtok_ctx;
  junk_ctx_str : length (strtok_str junk_ctx) = Z.to_nat STRLEN;
  junk_name : list Z;
  junk_name_length : length junk_name = Z.to_nat STRLEN;
  junk_bytes : list Z;
  junk_bytes_length : length junk_bytes = Z.to_nat MAX_FILE_SZ;
  junk_buf : Z → list Z;
  junk_buf_length n : 0 ≤ n → length (junk_buf n) = Z.to_nat n;
  junk_ptr : Z;
}.

Record fs := mk_fs {
  f_cpu : cpu;
  heap : gset Z;
  vnodes : gmap Z vnode;
  mounts : gmap Z mount;
  vopss : gmap Z vnode_operations;
  fopss : gmap Z file_operations;
  files : gmap Z file;
  filesystems : gmap Z filesystem;
  blocks : gmap Z (list Z);
  fs_list : list Z;
  rootfs : Z;
  cur_dir : Z;
  fd_table : list Z;
  fd_bitmap : Z;
  sd : gmap Z (list Z);
  f_datas : gmap Z fat32_f_data;
  fat : fat32_data;
}.

Definition set_fcpu c s := mk_fs c (heap s) (vnodes s) (mounts s) (vopss s) (fopss s) (files s) (filesystems s) (blocks s) (fs_list s) (rootfs s) (cur_dir s) (fd_table s) (fd_bitmap s) (sd s) (f_datas s) (fat s).
Definition set_heap h s := mk_fs (f_cpu s) h (vnodes s) (mounts s) (vopss s) (fopss s) (files s) (filesystems s) (blocks s) (fs_list s) (rootfs s) (cur_dir s) (fd_table s) (fd_bitmap s) (sd s) (f_datas s) (fat s).
Definition set_vnodes m s := mk_fs (f_cpu s) (heap s) m (mounts s) (vopss s) (fopss s) (files s) (filesystems s) (blocks s) (fs_list s) (rootfs s) (cur_dir s) (fd_table s) (fd_bitmap s) (sd s) (f_datas s) (fat s).
Definition set_mounts m s := mk_fs (f_cpu s) (heap s) (vnodes s) m (vopss s) (fopss s) (files s) (filesystems s) (blocks s) (fs_list s) (rootfs s) (cur_dir s) (fd_table s) (fd_bitmap s) (sd s) (f_datas s) (fat s).
Definition set_vopss m s := mk_fs (f_cpu s) (heap s) (vnodes s) (mounts s) m (fopss s) (files s) (filesystems s) (blocks s) (fs_list s) (rootfs s) (cur_dir s) (fd_table s) (fd_bitmap s) (sd s) (f_datas s) (fat s).
Definition set_fopss m s := mk_fs (f_cpu s) (heap s) (vnodes s) (mounts s) (vopss s) m (files s) (filesystems s) (blocks s) (fs_list s) (rootfs s) (cur_dir s) (fd_table s) (fd_bitmap s) (sd s) (f_datas s) (fat s).
Definition set_files m s := mk_fs (f_cpu s) (heap s) (vnodes s) (mounts s) (vopss s) (fopss s) m (filesystems s) (blocks s) (fs_list s) (rootfs s) (cur_dir s) (fd_table s) (fd_bitmap s) (sd s) (f_datas s) (fat s).
Definition set_filesystems m s := mk_fs (f_cpu s) (heap s) (vnodes s) (mounts s) (vopss s) (fopss s) (files s) m (blocks s) (fs_list s) (rootfs s) (cur_dir s) (fd_table s) (fd_bitmap s) (sd s) (f_datas s) (fat s).
Definition set_blocks m s := mk_fs (f_cpu s) (heap s) (vnodes s) (mounts s) (vopss s) (fopss s) (files s) (filesystems s) m (fs_list s) (rootfs s) (cur_dir s) (fd_table s) (fd_bitmap s) (sd s) (f_datas s) (fat s).
Definition set_fs_list l s := mk_fs (f_cpu s) (heap s) (vnodes s) (mounts s) (vopss s) (fopss s) (files s) (filesystems s) (blocks s) l (rootfs s) (cur_dir s) (fd_table s) (fd_bitmap s) (sd s) (f_datas s) (fat s).
Definition set_rootfs r s := mk_fs (f_cpu s) (heap s) (vnodes s) (mounts s) (vopss s) (fopss s) (files s) (filesystems s) (blocks s) (fs_list s) r (cur_dir s) (fd_table s) (fd_bitmap s) (sd s) (f_datas s) (fat s).
Definition set_cur_dir d s := mk_fs (f_cpu s) (heap s) (vnodes s) (mounts s) (vopss s) (fopss s) (files s) (filesystems s) (blocks s) (fs_list s) (rootfs s) d (fd_table s) (fd_bitmap s) (sd s) (f_datas s) (fat s).
Definition set_fds t b s := mk_fs (f_cpu s) (heap s) (vnodes s) (mounts s) (vopss s) (fopss s) (files s) (filesystems s) (blocks s) (fs_list s) (rootfs s) (cur_dir s) t b (sd s) (f_datas s) (fat s).
Definition set_sd d s := mk_fs (f_cpu s) (heap s) (vnodes s) (mounts s) (vopss s) (fopss s) (files s) (filesystems s) (blocks s) (fs_list s) (rootfs s) (cur_dir s) (fd_table s) (fd_bitmap s) d (f_datas s) (fat s).
Definition set_fdatas d s := mk_fs (f_cpu s) (heap s) (vnodes s) (mounts s) (vopss s) (fopss s) (files s) (filesystems s) (blocks s) (fs_list s) (rootfs s) (cur_dir s) (fd_table s) (fd_bitmap s) (sd s) d (fat s).
Definition set_fat v s := mk_fs (f_cpu s) (heap s) (vnodes s) (mounts s) (vopss s) (fopss s) (files s) (filesystems s) (blocks s) (fs_list s) (rootfs s) (cur_dir s) (fd_table s) (fd_bitmap s) (sd s) (f_datas s) v.

Definition f_on_cpu {A} (m : M cpu A) : M fs A := zoom f_cpu set_fcpu m.

(** Reads and writes through a pointer. *)
Definition vnode_get (p : Z) : M fs vnode := s ← get_st; deref (vnodes s !! p).
Definition vnode_upd (p : Z) (f : vnode → vnode) : M fs unit :=
  n ← vnode_get p; modify (λ s, set_vnodes (<[p := f n]> (vnodes s)) s).
Definition mount_get (p : Z) : M fs mount := s ← get_st; deref (mounts s !! p).
Definition mount_upd (p : Z) (f : mount → mount) : M fs unit :=
  n ← mount_get p; modify (λ s, set_mounts (<[p := f n]> (mounts s)) s).
Definition file_get (p : Z) : M fs file := s ← get_st; deref (files s !! p).
Definition file_upd (p : Z) (f : file → file) : M fs unit :=
  n ← file_get p; modify (λ s, set_files (<[p := f n]> (files s)) s).
Definition vops_get (p : Z) : M fs vnode_operations := s ← get_st; deref (vopss s !! p).
Definition fops_get (p : Z) : M fs file_operations := s ← get_st; deref (fopss s !! p).
Definition filesystem_get (p : Z) : M fs filesystem := s ← get_st; deref (filesystems s !! p).

(** Field updates. *)
Definition with_mount m n := mk_vnode m (v_ops n) (v_fops n) (children n) (hidden n) (v_mode n) (v_parent n) (v_type n) (v_name n) (file_size n) (internal n).
Definition with_ops vo fo n := mk_vnode (v_mount n) vo fo (children n) (hidden n) (v_mode n) (v_parent n) (v_type n) (v_name n) (file_size n) (internal n).
Definition with_children l n := mk_vnode (v_mount n) (v_ops n) (v_fops n) l (hidden n) (v_mode n) (v_parent n) (v_type n) (v_name n) (file_size n) (internal n).
Definition with_hidden h n := mk_vnode (v_mount n) (v_ops n) (v_fops n) (children n) h (v_mode n) (v_parent n) (v_type n) (v_name n) (file_size n) (internal n).
Definition with_mode m n := mk_vnode (v_mount n) (v_ops n) (v_fops n) (children n) (hidden n) m (v_parent n) (v_type n) (v_name n) (file_size n) (internal n).
Definition with_parent p n := mk_vnode (v_mount n) (v_ops n) (v_fops n) (children n) (hidden n) (v_mode n) p (v_type n) (v_name n) (file_size n) (internal n).
Definition with_type t n := mk_vnode (v_mount n) (v_ops n) (v_fops n) (children n) (hidden n) (v_mode n) (v_parent n) t (v_name n) (file_size n) (internal n).
Definition with_name l n := mk_vnode (v_mount n) (v_ops n) (v_fops n) (children n) (hidden n) (v_mode n) (v_parent n) (v_type n) l (file_size n) (internal n).
Definition with_size z n := mk_vnode (v_mount n) (v_ops n) (v_fops n) (children n) (hidden n) (v_mode n) (v_parent n) (v_type n) (v_name n) z (internal n).
Definition with_internal d n := mk_vnode (v_mount n) (v_ops n) (v_fops n) (children n) (hidden n) (v_mode n) (v_parent n) (v_type n) (v_name n) (file_size n) d.

Definition with_pos z f := mk_file (fl_vnode f) z (fl_fops f) (f_flags f) (fl_refs f).
Definition with_refs z f := mk_file (fl_vnode f) (f_pos f) (fl_fops f) (f_flags f) z.

(** A list of characters as text for the console, up to its terminator. *)
Fixpoint str_of (l : list Z) : string :=
  match l with
  | [] => ""
  | c :: l' => if c =? NUL then "" else String (Ascii.ascii_of_nat (Z.to_nat c)) (str_of l')
  end.

Definition f_free (a : Z) : M fs unit :=
  s ← get_st;
  (if a =? 0 then mret tt
   else assert (bool_decide (a ∈ heap s)) ;; modify (λ s, set_heap (heap s ∖ {[a]}) s)).

(** [free] of a vnode, a mount or a file: the object is gone. *)
Definition free_vnode (a : Z) : M fs unit :=
  f_free a ;; modify (λ s, set_vnodes (delete a (vnodes s)) s).
Definition free_mount (a : Z) : M fs unit :=
  f_free a ;; modify (λ s, set_mounts (delete a (mounts s)) s).
Definition free_file (a : Z) : M fs unit :=
  f_free a ;; modify (λ s, set_files (delete a (files s)) s).

Section Heap.
Context `{!FsHeap}.

(** [malloc]: the address is not in use, or NULL. *)
Definition f_malloc : M fs Z :=
  s ← get_st;
  let a := new_addr (heap s) in
  (if a =? 0 then mret tt else modify (λ s, set_heap ({[a]} ∪ heap s) s)) ;;
  mret a.

Definition malloc_vnode : M fs Z :=
  a ← f_malloc;
  (if a =? 0 then mret tt else modify (λ s, set_vnodes (<[a := junk_vnode]> (vnodes s)) s)) ;;
  mret a.

Definition malloc_bytes : M fs data_ptr :=
  a ← f_malloc;
  if a =? 0 then mret D_null
  else modify (λ s, set_blocks (<[a := junk_bytes]> (blocks s)) s) ;; mret (D_at a 0).
End Heap.

(** [memcpy] from and to a byte array; its size parameter is 32 bits wide.
    An empty copy touches nothing. *)
Definition copy_out (p : data_ptr) (pos size : Z) : M fs (list Z) :=
  let n := u32 size in
  if n =? 0 then mret []
  else
    match p with
    | D_null => ub
    | D_at b o =>
        s ← get_st;
        l ← deref (blocks s !! b);
        let k := u64 (o + pos) in
        assert (k + n <=? Z.of_nat (length l)) ;;
        mret (take (Z.to_nat n) (drop (Z.to_nat k) l))
    end.

Definition copy_in (p : data_ptr) (pos : Z) (buf : list Z) (size : Z) : M fs unit :=
  let n := u32 size in
  if n =? 0 then mret tt
  else
    match p with
    | D_null => ub
    | D_at b o =>
        s ← get_st;
        l ← deref (blocks s !! b);
        let k := u64 (o + pos) in
        assert (k + n <=? Z.of_nat (length l)) ;;
        assert (n <=? Z.of_nat (length buf)) ;;
        modify (λ s, set_blocks (<[b := take (Z.to_nat k) l ++ take (Z.to_nat n) buf ++ drop (Z.to_nat (k + n)) l]> (blocks s)) s)
    end.
