(* ===== verification/Tmpfs.v ===== *)
(** * Memory file system (src/kernel/tmpfs.c, and init_vnode of vfs.c)

    The read-only initial ramdisk and FAT32 use several of these operations
    for their own tables. *)

From S2P Require Import Prelude Cpu Str VfsData.

Definition list_push (dir node : Z) : M fs unit := vnode_upd dir (λ n, with_children (children n ++ [node]) n).

(** ** init_vnode (vfs.c) *)

Definition init_vnode (dir_node node : Z) (type : file_type) (component_name : list Z) : M fs Z :=
  f_on_cpu disable_int ;;
  if node =? 0 then
    f_on_cpu enable_int ;; f_on_cpu (err ("Failed to allocate vnode" +:+ crlf)) ;; mret (-1)
  else
    (if negb (dir_node =? 0) then
       d ← vnode_get dir_node;
       vnode_upd node (with_mount (v_mount d)) ;;
       vnode_upd node (with_ops (v_ops d) (v_fops d)) ;;
       list_push dir_node node
     else mret tt) ;;
    vnode_upd node (with_parent dir_node) ;;
    vnode_upd node (with_type type) ;;
    vnode_upd node (with_hidden false) ;;
    vnode_upd node (with_children []) ;;
    n ← vnode_get node;
    name ← lift (strcpy (v_name n) component_name);
    vnode_upd node (with_name name) ;;
    vnode_upd node (with_size 0) ;;
    f_on_cpu enable_int ;;
    mret 0.

(** ** Files *)

(** [buf] is what the caller's buffer holds. *)
Definition tmpfs_write (file : Z) (buf : list Z) (len : Z) : M fs Z :=
  f ← file_get file;
  n ← vnode_get (fl_vnode f);
  let write_sz := if MAX_FILE_SZ <? u64 (f_pos f + len) then u64 (MAX_FILE_SZ - f_pos f) else len in
  (if file_size n <? u64 (f_pos f + write_sz)
   then vnode_upd (fl_vnode f) (with_size (u64 (f_pos f + write_sz))) else mret tt) ;;
  copy_in (internal n) (f_pos f) buf write_sz ;;
  file_upd file (with_pos (u64 (f_pos f + write_sz))) ;;
  mret (i64 write_sz).

(** The result and the bytes that were copied to the caller's buffer. *)
Definition tmpfs_read (file : Z) (len : Z) : M fs (Z * list Z) :=
  f ← file_get file;
  n ← vnode_get (fl_vnode f);
  let read_sz := Z.min len (u64 (file_size n - f_pos f)) in
  bytes ← copy_out (internal n) (f_pos f) read_sz;
  file_upd file (with_pos (u64 (f_pos f + read_sz))) ;;
  mret (i64 read_sz, bytes).

Definition invalid_seek (msg : string) : M fs Z := f_on_cpu (err (msg +:+ crlf)) ;; mret (-1).

(** [offset] is a [long]; the comparisons are made in [size_t]. *)
Definition tmpfs_lseek64 (file offset whence : Z) : M fs Z :=
  f ← file_get file;
  n ← vnode_get (fl_vnode f);
  if whence =? SEEK_SET then
    if (offset <? 0) || (file_size n <? u64 offset) then invalid_seek "Invalid offset"
    else file_upd file (with_pos (u64 offset)) ;; mret 0
  else if whence =? SEEK_CUR then
    if (u64 (f_pos f + offset) <? 0) || (file_size n <? u64 (f_pos f + offset)) then invalid_seek "Invalid offset"
    else file_upd file (with_pos (u64 (f_pos f + offset))) ;; mret 0
  else if whence =? SEEK_END then
    if (0 <? offset) || (u64 (file_size n + offset) <? 0) then invalid_seek "Invalid offset"
    else file_upd file (with_pos (u64 (file_size n + offset))) ;; mret 0
  else invalid_seek "Invalid whence".

Definition tmpfs_close (file : Z) : M fs Z :=
  file_upd file (λ f, with_refs (i32 (fl_refs f - 1)) f) ;;
  f ← file_get file;
  (if fl_refs f =? 0 then free_file file else mret tt) ;;
  mret 0.

(** ** Directories *)

(** [list_find] over the children with [vfs_tree_child]; 0 when there is none. *)
Fixpoint find_child (l : list Z) (component_name : list Z) : M fs Z :=
  match l with
  | [] => mret 0
  | p :: l' =>
      n ← vnode_get p;
      if hidden n then find_child l' component_name
      else
        r ← lift (strcmp (v_name n) component_name);
        if r =? 0 then mret p else find_child l' component_name
  end.

(** Returns what is stored in [*target]. *)
Definition tmpfs_lookup (dir_node : Z) (component_name : list Z) : M fs Z :=
  d ← vnode_get dir_node; find_child (children d) component_name.

Section Heap.
Context `{!FsHeap}.

(** The result and, in [*target], the new file. *)
Definition tmpfs_open (file_node flags : Z) : M fs (Z * option Z) :=
  a ← f_malloc;
  if a =? 0 then mret (-1, None)
  else
    n ← vnode_get file_node;
    modify (λ s, set_files (<[a := mk_file file_node 0 (v_fops n) flags 1]> (files s)) s) ;;
    mret (0, Some a).

Definition tmpfs_init_vnode (dir_node node : Z) (type : file_type) (component_name : list Z) : M fs Z :=
  r ← init_vnode dir_node node type component_name;
  if negb (r =? 0) then mret (-1)
  else if decide (type = FILE) then
    d ← malloc_bytes;
    vnode_upd node (with_internal d) ;;
    match d with D_null => mret (-1) | _ => mret 0 end
  else mret 0.

Definition tmpfs_create (dir_node : Z) (component_name : list Z) (type : file_type) : M fs (Z * Z) :=
  target ← malloc_vnode;
  r ← tmpfs_init_vnode dir_node target type component_name;
  mret (r, target).

Definition tmpfs_mkdir (dir_node : Z) (component_name : list Z) : M fs (Z * Z) :=
  target ← malloc_vnode;
  r ← tmpfs_init_vnode dir_node target DIR component_name;
  mret (r, target).

Definition tmpfs_setup_mount (mount dir_node : Z) (component : list Z) : M fs Z :=
  m ← mount_get mount;
  let root := m_root m in
  vo ← f_malloc;
  n ← vnode_get root;
  vnode_upd root (with_ops vo (v_fops n)) ;;
  if vo =? 0 then mret (-1)
  else
    fo ← f_malloc;
    vnode_upd root (with_ops vo fo) ;;
    if fo =? 0 then f_free vo ;; mret (-1)
    else
      r ← tmpfs_init_vnode 0 root DIR component;
      if negb (r =? 0) then mret (-1)
      else
        (if negb (dir_node =? 0) then list_push dir_node root else mret tt) ;;
        vnode_upd root (with_parent dir_node) ;;
        modify (λ s, set_vopss (<[vo := mk_vops (Some F_tmpfs_lookup) (Some F_tmpfs_create) (Some F_tmpfs_mkdir)]> (vopss s)) s) ;;
        modify (λ s, set_fopss (<[fo := mk_fops (Some F_tmpfs_write) (Some F_tmpfs_read) (Some F_tmpfs_open)
          (Some F_tmpfs_close) (Some F_tmpfs_lseek64) None]> (fopss s)) s) ;;
        vnode_upd root (with_mount mount) ;;
        mret 0.
End Heap.
