(* ===== verification/Vfs.v ===== *)
(** * Virtual file system (src/kernel/vfs.c)

    Path resolution, mounting, and the operations that go through the tables
    of function pointers.  The functions of the other drivers (FAT32, UART,
    framebuffer, initial ramdisk) reach this code only through these tables;
    they are the methods of [Drivers], with [uart_write] for file.c. *)

From S2P Require Import Prelude Cpu Str VfsData Tmpfs.

Class Drivers := {
  drv_create : fn → Z → list Z → file_type → M fs (Z * Z);
  drv_mkdir : fn → Z → list Z → M fs (Z * Z);
  drv_write : fn → Z → list Z → Z → M fs Z;
  drv_read : fn → Z → Z → M fs (Z * list Z);
  drv_ioctl : fn → Z → Z → Z → M fs Z;
  drv_setup_mount : fn → Z → Z → Z → list Z → M fs Z;
  drv_uart_write : list Z → Z → M fs Z;
}.

Section Vfs.
Context `{!FsHeap, !Drivers}.

(** ** Calls through function pointers; [None] is a NULL pointer *)

Definition call_lookup (f : option fn) (dir : Z) (comp : list Z) : M fs Z :=
  match f with Some F_tmpfs_lookup => tmpfs_lookup dir comp | _ => ub end.

Definition call_create (f : option fn) (dir : Z) (comp : list Z) (type : file_type) : M fs (Z * Z) :=
  match f with
  | None => ub
  | Some F_tmpfs_create => tmpfs_create dir comp type
  | Some g => drv_create g dir comp type
  end.

Definition call_mkdir (f : option fn) (dir : Z) (comp : list Z) : M fs (Z * Z) :=
  match f with
  | None => ub
  | Some F_tmpfs_mkdir => tmpfs_mkdir dir comp
  | Some g => drv_mkdir g dir comp
  end.

Definition call_open (f : option fn) (node flags : Z) : M fs (Z * option Z) :=
  match f with Some F_tmpfs_open => tmpfs_open node flags | _ => ub end.

Definition call_close (f : option fn) (file : Z) : M fs Z :=
  match f with Some F_tmpfs_close => tmpfs_close file | _ => ub end.

Definition call_lseek64 (f : option fn) (file offset whence : Z) : M fs Z :=
  match f with Some F_tmpfs_lseek64 => tmpfs_lseek64 file offset whence | _ => ub end.

Definition call_write (f : option fn) (file : Z) (buf : list Z) (len : Z) : M fs Z :=
  match f with
  | None => ub
  | Some F_tmpfs_write => tmpfs_write file buf len
  | Some g => drv_write g file buf len
  end.

Definition call_read (f : option fn) (file len : Z) : M fs (Z * list Z) :=
  match f with
  | None => ub
  | Some F_tmpfs_read => tmpfs_read file len
  | Some g => drv_read g file len
  end.

Definition call_setup_mount (f : fn) (fsp mnt dir : Z) (comp : list Z) : M fs Z :=
  match f with
  | F_tmpfs_setup_mount => tmpfs_setup_mount mnt dir comp
  | g => drv_setup_mount g fsp mnt dir comp
  end.

(** [p->mount->root->v_ops] of a vnode's mount. *)
Definition mount_vops (mnt : Z) : M fs vnode_operations :=
  m ← mount_get mnt; r ← vnode_get (m_root m); vops_get (v_ops r).

(** ** Path resolution *)

Definition slash : list Z := lit "/".

Definition next_token (ctx : strtok_ctx) : M fs (option Z * strtok_ctx) :=
  '(t, c) ← lift (strtok_r None None slash (Some ctx));
  c ← deref c;
  mret (t, c).

(** The condition of the loop: is there a next component, and which. *)
Definition next_component (skip : bool) (comp : Z) (ctx : strtok_ctx) : M fs (bool * Z * strtok_ctx) :=
  if skip then mret (true, comp, ctx)
  else
    '(tmp, ctx) ← next_token ctx;
    match tmp with
    | None => mret (false, comp, ctx)
    | Some t =>
        n ← lift (strlen (token_str ctx t));
        mret (if 0 <? n then (true, t, ctx) else (false, comp, ctx))
    end.

(** The loop; [None] is the error exit.  The result is [cur], [parent], the
    last component and the context. *)
Fixpoint path_walk (fuel : nat) (skip : bool) (comp cur parent mnt : Z) (ctx : strtok_ctx) :
    M fs (option (Z * Z * Z * strtok_ctx)) :=
  match fuel with
  | O => spin
  | S fuel' =>
      '(more, comp, ctx) ← next_component skip comp ctx;
      if negb more then mret (Some (cur, parent, comp, ctx))
      else
        vo ← mount_vops mnt;
        node ← call_lookup (vo_lookup vo) cur (token_str ctx comp);
        if node =? 0 then
          '(t, ctx) ← next_token ctx;
          match t with
          | Some _ =>
              f_on_cpu enable_int ;;
              f_on_cpu (err (str_of (token_str ctx comp) +:+ ": No such directory" +:+ crlf)) ;;
              mret None
          | None => mret (Some (0, cur, comp, ctx))
          end
        else
          n ← vnode_get node;
          path_walk fuel' false comp node cur (v_mount n) ctx
  end.

(** [None] is the result -1; otherwise [*node], [*parent_vnode] and the
    caller's array [component]. *)
Definition find_parent_vnode (pathname : list Z) : M fs (option (Z * Z * list Z)) :=
  f_on_cpu disable_int ;;
  a ← f_malloc;
  '(comp, ctx) ← lift (strtok_r (if a =? 0 then None else Some junk_ctx) (Some pathname) slash None);
  comp ← deref comp;
  ctx ← deref ctx;
  let str := token_str ctx comp in
  empty ← lift (strcmp (lit "") str);
  dotdot ← lift (strcmp (lit "..") str);
  dot ← lift (strcmp (lit ".") str);
  s ← get_st;
  '(cur, skip) ← (if empty =? 0 then m ← mount_get (rootfs s); mret (m_root m, false)
                  else if dotdot =? 0 then d ← vnode_get (cur_dir s); mret (v_parent d, false)
                  else if dot =? 0 then mret (cur_dir s, false)
                  else mret (cur_dir s, true));
  n ← vnode_get cur;
  r ← path_walk (Z.to_nat STRLEN + 2) skip comp cur (v_parent n) (v_mount n) ctx;
  match r with
  | None => mret None
  | Some (cur, parent, comp, ctx) =>
      component ← lift (strcpy junk_name (token_str ctx comp));
      f_free a ;;
      f_on_cpu enable_int ;;
      mret (Some (cur, parent, component))
  end.

(** ** Registration and mounting *)

Definition vfs_init : M fs unit := modify (set_fs_list []).

(** [list_find] with [same_fs_name]. *)
Fixpoint find_fs (l : list Z) (name : list Z) : M fs Z :=
  match l with
  | [] => mret 0
  | p :: l' =>
      x ← filesystem_get p;
      r ← lift (strcmp (fs_name x) name);
      if r =? 0 then mret p else find_fs l' name
  end.

Definition register_filesystem (p : Z) : M fs Z :=
  s ← get_st;
  x ← filesystem_get p;
  old ← find_fs (fs_list s) (fs_name x);
  if negb (old =? 0) then
    f_on_cpu (err ("Invalid file system name (already exists)" +:+ crlf)) ;; mret (-1)
  else modify (λ s, set_fs_list (fs_list s ++ [p]) s) ;; mret 0.

(** Where to mount: the parent and the component, or the error. *)
Definition mount_point (mnt : Z) (target : list Z) : M fs (option (Z * list Z)) :=
  root ← lift (strcmp (lit "/") target);
  if root =? 0 then
    modify (set_rootfs mnt) ;;
    component ← lift (strcpy junk_name (lit ""));
    mret (Some (0, component))
  else
    r ← find_parent_vnode target;
    match r with
    | None => mret None
    | Some (node, parent, component) =>
        ok ← (if node =? 0 then mret false else n ← vnode_get node; mret (bool_decide (v_type n = DIR)));
        if negb ok then
          f_on_cpu (err (str_of component +:+ ": No such directory" +:+ crlf)) ;; mret None
        else vnode_upd node (with_hidden true) ;; mret (Some (parent, component))
    end.

Definition vfs_mount (target name : list Z) (flags : Z) : M fs Z :=
  s ← get_st;
  p ← find_fs (fs_list s) name;
  if p =? 0 then f_on_cpu (err ("File system not registered" +:+ crlf)) ;; mret (-1)
  else
    mnt ← f_malloc;
    if mnt =? 0 then mret (-1)
    else
      root ← malloc_vnode;
      modify (λ s, set_mounts (<[mnt := mk_mount root p flags]> (mounts s)) s) ;;
      if root =? 0 then free_mount mnt ;; mret (-1)
      else
        r ← mount_point mnt target;
        match r with
        | None => free_vnode root ;; free_mount mnt ;; mret (-1)
        | Some (parent, component) =>
            x ← filesystem_get p;
            f_on_cpu disable_int ;;
            ret ← call_setup_mount (setup_mount x) p mnt parent component;
            f_on_cpu enable_int ;;
            mret ret
        end.

(** ** Operations on paths; an option is what is stored in [*target] *)

Definition vfs_lookup (pathname : list Z) : M fs (Z * option Z) :=
  f_on_cpu disable_int ;;
  r ← find_parent_vnode pathname;
  f_on_cpu enable_int ;;
  match r with
  | None => mret (-1, None)
  | Some (node, _, _) => mret (0, Some node)
  end.

Definition vfs_create (pathname : list Z) (type : file_type) : M fs (Z * option Z) :=
  f_on_cpu disable_int ;;
  r ← find_parent_vnode pathname;
  match r with
  | None => f_on_cpu enable_int ;; mret (-1, None)
  | Some (node, parent, component) =>
      if negb (node =? 0) then
        f_on_cpu enable_int ;; f_on_cpu (err ("File exists" +:+ crlf)) ;; mret (-1, None)
      else
        p ← vnode_get parent;
        vo ← mount_vops (v_mount p);
        '(r, target) ← call_create (vo_create vo) parent component type;
        f_on_cpu enable_int ;;
        mret (if r <? 0 then -1 else 0, Some target)
  end.

Definition vfs_mkdir (pathname : list Z) : M fs (Z * option Z) :=
  f_on_cpu disable_int ;;
  r ← find_parent_vnode pathname;
  match r with
  | None => f_on_cpu enable_int ;; mret (-1, None)
  | Some (node, parent, component) =>
      if negb (node =? 0) then
        f_on_cpu enable_int ;; f_on_cpu (err ("Directoty exists" +:+ crlf)) ;; mret (-1, None)
      else
        p ← vnode_get parent;
        vo ← mount_vops (v_mount p);
        '(r, target) ← call_mkdir (vo_mkdir vo) parent component;
        f_on_cpu enable_int ;;
        mret (if r <? 0 then -1 else 0, Some target)
  end.

Definition vfs_open (pathname : list Z) (flags : Z) : M fs (Z * option Z) :=
  '(r, node) ← vfs_lookup pathname;
  if r <? 0 then mret (-1, None)
  else
    node ← deref node;
    found ← (if node =? 0 then
               if negb (Z.land flags O_CREAT =? 0) then
                 '(_, t) ← vfs_create pathname FILE; mret (Some (default node t))
               else f_on_cpu (err ("File not found" +:+ crlf)) ;; mret None
             else mret (Some node));
    match found with
    | None => mret (-1, None)
    | Some node =>
        f_on_cpu disable_int ;;
        n ← vnode_get node;
        fo ← fops_get (v_fops n);
        '(ret, target) ← call_open (fo_open fo) node flags;
        f_on_cpu enable_int ;;
        mret (ret, target)
    end.

(** ** Operations on open files *)

Definition vfs_close (file : Z) : M fs Z :=
  f_on_cpu disable_int ;;
  f ← file_get file;
  fo ← fops_get (fl_fops f);
  ret ← call_close (fo_close fo) file;
  f_on_cpu enable_int ;;
  mret ret.

Definition denied : M fs unit := f_on_cpu (err ("Permission denied" +:+ crlf)).

Definition vfs_write (file : Z) (buf : list Z) (len : Z) : M fs Z :=
  f ← file_get file;
  n ← vnode_get (fl_vnode f);
  m ← mount_get (v_mount n);
  if negb (Z.land (m_flags m) MS_RDONLY =? 0) || negb (Z.land (f_flags f) O_RDONLY =? 0)
  then denied ;; mret (-1)
  else fo ← fops_get (fl_fops f); call_write (fo_write fo) file buf len.

Definition vfs_read (file len : Z) : M fs (Z * list Z) :=
  f ← file_get file;
  if negb (Z.land (f_flags f) O_WRONLY =? 0) then denied ;; mret (-1, [])
  else fo ← fops_get (fl_fops f); call_read (fo_read fo) file len.

Definition vfs_lseek64 (file offset whence : Z) : M fs Z :=
  f_on_cpu disable_int ;;
  f ← file_get file;
  fo ← fops_get (fl_fops f);
  ret ← call_lseek64 (fo_lseek64 fo) file offset whence;
  f_on_cpu enable_int ;;
  mret (i32 ret).

Definition vfs_ioctl (file request data : Z) : M fs Z :=
  f_on_cpu disable_int ;;
  f ← file_get file;
  fo ← fops_get (fl_fops f);
  g ← deref (fo_ioctl fo);
  ret ← drv_ioctl g file request data;
  f_on_cpu enable_int ;;
  mret ret.

(** ** tmpfs_init (tmpfs.c) *)

Definition tmpfs_init : M fs unit :=
  p ← f_malloc;
  if p =? 0 then mret tt
  else
    modify (λ s, set_filesystems (<[p := mk_filesystem (lit "tmpfs") F_tmpfs_setup_mount]> (filesystems s)) s) ;;
    register_filesystem p ;;
    vfs_mount (lit "/") (lit "tmpfs") 0 ;;
    mret tt.
End Vfs.
