(* ===== verification/File.v ===== *)
(** * System calls on files (src/kernel/file.c) *)

From S2P Require Import Prelude Cpu Buddy Str VfsData Tmpfs Vfs.

(** [__builtin_ctz] of a 32-bit value: the lowest set bit. *)
Fixpoint ctz (n : nat) (i x : Z) : Z :=
  match n with
  | O => i
  | S n' => if Z.testbit x i then i else ctz n' (i + 1) x
  end.

(** A cell of [fd_table], which has [MAX_NUM_FD] cells. *)
Definition fd_get (fd : Z) : M fs Z :=
  s ← get_st; assert (0 <=? fd) ;; deref (fd_table s !! Z.to_nat fd).

Definition fd_set (fd p : Z) : M fs unit :=
  _ ← fd_get fd; modify (λ s, set_fds (<[Z.to_nat fd := p]> (fd_table s)) (fd_bitmap s) s).

Definition shl1_64 (i : Z) : Z := u64 (Z.shiftl 1 i).

Section File.
Context `{!FsHeap, !Drivers}.

(** The complement is taken after promotion to [int]. *)
Definition open (pathname : list Z) (flags : Z) : M fs Z :=
  s ← get_st;
  if i32 (Z.lnot (fd_bitmap s)) =? 0 then
    f_on_cpu (err ("Fd table is full" +:+ crlf)) ;; mret (-1)
  else
    '(_, f) ← vfs_open pathname flags;
    s ← get_st;
    let idx := ctz 32 0 (u32 (Z.lnot (fd_bitmap s))) in
    fd_set idx (default junk_ptr f) ;;
    modify (λ s, set_fds (fd_table s) (u16 (Z.lor (fd_bitmap s) (shl1_64 idx))) s) ;;
    mret idx.

Definition close (fd : Z) : M fs Z :=
  f ← fd_get fd;
  if f =? 0 then f_on_cpu (err ("Invalid fd" +:+ crlf)) ;; mret (-1)
  else
    fd_set fd 0 ;;
    modify (λ s, set_fds (fd_table s) (u16 (Z.land (fd_bitmap s) (u64 (Z.lnot (shl1_64 fd))))) s) ;;
    vfs_close f.

Definition write (fd : Z) (buf : list Z) (count : Z) : M fs Z :=
  f ← fd_get fd; vfs_write f buf count.

Definition read (fd count : Z) : M fs (Z * list Z) :=
  f ← fd_get fd; vfs_read f count.

Definition mkdir (pathname : list Z) (mode : Z) : M fs Z :=
  '(r, node) ← vfs_mkdir pathname;
  if r <? 0 then mret (-1)
  else
    let node := default 0 node in
    if node =? 0 then mret (-1) else vnode_upd node (with_mode mode) ;; mret 0.

Definition mount (target name : list Z) (flags : Z) : M fs Z :=
  r ← vfs_mount target name (u32 flags);
  mret (if r <? 0 then -1 else 0).

Definition chdir (path : list Z) : M fs Z :=
  r ← find_parent_vnode path;
  match r with
  | None => mret (-1)
  | Some (node, _, _) => modify (set_cur_dir node) ;; mret 0
  end.

Definition lseek64 (fd offset whence : Z) : M fs Z :=
  f ← fd_get fd; r ← vfs_lseek64 f offset whence; mret r.

Definition ls (dirname : option (list Z)) : M fs unit :=
  dirname ← match dirname with
            | Some d => mret d
            | None => s ← get_st; n ← vnode_get (cur_dir s); mret (v_name n)
            end;
  r ← find_parent_vnode dirname;
  match r with
  | Some (node, _, _) =>
      if node =? 0 then f_on_cpu (err ("No such directory" +:+ crlf))
      else
        d ← vnode_get node;
        for_each (children d) (λ p,
          n ← vnode_get p;
          if hidden n then mret tt else f_on_cpu (printf (str_of (v_name n) +:+ crlf)))
  | None => f_on_cpu (err ("No such directory" +:+ crlf))
  end.

(** The file at a path, for [cat] and [load_prog]. *)
Definition file_node (filename : list Z) : M fs Z :=
  r ← find_parent_vnode filename;
  let node := match r with Some (node, _, _) => node | None => 0 end in
  (if node =? 0 then f_on_cpu (err ("File not exists" +:+ crlf)) else mret tt) ;;
  mret node.

(** Opening, reading [size] bytes and closing: the bytes that were read. *)
Definition slurp (filename : list Z) (size : Z) : M fs (list Z) :=
  '(_, f) ← vfs_open filename O_RDONLY;
  let f := default junk_ptr f in
  '(_, bytes) ← vfs_read f size;
  vfs_close f ;;
  mret bytes.

Definition cat (filename : list Z) : M fs Z :=
  node ← file_node filename;
  if node =? 0 then mret (-1)
  else
    n ← vnode_get node;
    bytes ← slurp filename (file_size n);
    let buf := bytes ++ drop (length bytes) (junk_buf (file_size n)) in
    n ← vnode_get node;
    drv_uart_write buf (file_size n) ;;
    f_on_cpu (printf crlf) ;;
    mret 0.

(** The kernel's [malloc] returns NULL for 0 bytes. *)
Definition load_prog (filename : list Z) : M fs (Z * Z) :=
  node ← file_node filename;
  if node =? 0 then mret (0, 0)
  else
    n ← vnode_get node;
    let pages := u64 (file_size n / PAGE_SIZE + (if 0 <? file_size n mod PAGE_SIZE then 1 else 0)) in
    prog_addr ← (if pages =? 0 then mret 0 else f_malloc);
    if prog_addr =? 0 then mret (0, 0)
    else
      modify (λ s, set_blocks (<[prog_addr := junk_buf (pages * PAGE_SIZE)]> (blocks s)) s) ;;
      n ← vnode_get node;
      let prog_size := file_size n in
      bytes ← slurp filename prog_size;
      copy_in (D_at prog_addr 0) 0 bytes (Z.of_nat (length bytes)) ;;
      mret (prog_addr, prog_size).
End File.
