(* ===== verification/VfsInv.v ===== *)
(** * Virtual file system: invariant and path resolution

    The well-formedness of the vnode graph, the reference definition of path
    resolution, and the run of [find_parent_vnode] against it. *)

From S2P Require Import Prelude Cpu Str StrThm VfsData Tmpfs Vfs.

(** ** Names *)

Fixpoint until_nul (l : list Z) : list Z :=
  match l with [] => [] | c :: l' => if c =? NUL then [] else c :: until_nul l' end.

Lemma until_nul_text t x : text t → until_nul (t ++ NUL :: x) = t.
Proof. induction 1 as [|c t Hc Ht IH]; simpl; [done|]. unfold NUL in *. destruct (Z.eqb_spec c 0); [lia|]. by f_equal. Qed.

Lemma str_of_until l : str_of l = str_of (until_nul l).
Proof. induction l as [|c l IH]; simpl; [done|]. destruct (c =? NUL) eqn:E; simpl; [done|]. by rewrite E, IH. Qed.

Lemma STRLEN_nat : Z.to_nat STRLEN = 256%nat.
Proof. done. Qed.

(** A character array of [STRLEN] cells that holds the string [t]. *)
Definition array_of (l t : list Z) : Prop := text t ∧ length l = Z.to_nat STRLEN ∧ ∃ x, l = t ++ NUL :: x.

Lemma array_of_until l t : array_of l t → until_nul l = t.
Proof. intros (Ht & _ & x & ->). by apply until_nul_text. Qed.

Lemma array_short l t : array_of l t → (length t < 256)%nat.
Proof. intros (_ & Hl & x & ->). rewrite length_app, STRLEN_nat in Hl. cbn [length] in Hl. lia. Qed.

Lemma strcpy_array d t x : length d = Z.to_nat STRLEN → text t → (length t < 256)%nat →
  ∃ l, strcpy d (t ++ NUL :: x) = Ok l ∧ array_of l t.
Proof.
  rewrite STRLEN_nat. intros Hd Ht Hl. eexists. rewrite strcpy_run by (done || lia). split; [done|]. split; [done|].
  split; [|by eexists]. rewrite length_app, STRLEN_nat. cbn [length]. rewrite length_drop, Hd. lia.
Qed.

(** ** Directories *)

Definition name_of (n : vnode) : list Z := until_nul (v_name n).

Definition child_named (s : fs) (nm : list Z) (p : Z) : bool :=
  match vnodes s !! p with
  | Some n => negb (hidden n) && bool_decide (name_of n = nm)
  | None => false
  end.

Definition lookup_in (s : fs) (dir : Z) (nm : list Z) : option Z :=
  match vnodes s !! dir with Some d => List.find (child_named s nm) (children d) | None => None end.

(** ** Invariant *)

Definition uses_tmpfs_lookup (s : fs) (mnt : Z) : Prop :=
  ∃ m r vo, mounts s !! mnt = Some m ∧ vnodes s !! m_root m = Some r ∧
    vopss s !! v_ops r = Some vo ∧ vo_lookup vo = Some F_tmpfs_lookup.

Record fs_wf (s : fs) : Prop := mk_fs_wf {
  fw_cpu : cpu_ok (f_cpu s);
  fw_pos p : p ∈ heap s → 0 < p;
  fw_vnodes p : is_Some (vnodes s !! p) → p ∈ heap s;
  fw_files p : is_Some (files s !! p) → p ∈ heap s;
  fw_blocks p : is_Some (blocks s !! p) → p ∈ heap s;
  fw_name p n : vnodes s !! p = Some n → array_of (v_name n) (name_of n);
  fw_child p n q : vnodes s !! p = Some n → q ∈ children n → ∃ c, vnodes s !! q = Some c ∧ v_parent c = p;
  fw_nodup p n : vnodes s !! p = Some n → NoDup (children n);
  fw_mount p n : vnodes s !! p = Some n → uses_tmpfs_lookup s (v_mount n);
  fw_root : ∃ m, mounts s !! rootfs s = Some m ∧ is_Some (vnodes s !! m_root m);
}.

(** The heap can give [k] more objects. *)
Definition fs_room `{!FsHeap} (s : fs) (k : nat) : Prop :=
  ∀ X, heap s ⊆ X → (size X < size (heap s) + k)%nat → new_addr X ≠ 0.

(** ** Reference definition of path resolution *)

Inductive walk_res :=
  | W_found (node parent : Z) (comp : list Z)
  | W_missing (parent : Z) (comp : list Z)
  | W_error (comp : list Z).

(** From [cur] along the components; an empty component ends the path. *)
Fixpoint walk (s : fs) (cur parent : Z) (comp : list Z) (cs : list (list Z)) : walk_res :=
  match cs with
  | [] => W_found cur parent comp
  | c :: cs' =>
      if decide (c = []) then W_found cur parent comp
      else
        match lookup_in s cur c with
        | Some n => walk s n cur c cs'
        | None => if decide (cs' = []) then W_missing cur c else W_error c
        end
  end.

Definition components (path : list Z) : list (list Z) := split_by (in_set (chars "/")) path.

(** Where a path starts: the vnode and what is left to walk. *)
Definition path_start (s : fs) (path : list Z) : option (Z * list Z * list (list Z)) :=
  match components path with
  | [] => None
  | c :: cs =>
      if decide (c = []) then m ← mounts s !! rootfs s; Some (m_root m, c, cs)
      else if decide (c = chars "..") then d ← vnodes s !! cur_dir s; Some (v_parent d, c, cs)
      else if decide (c = chars ".") then Some (cur_dir s, c, cs)
      else Some (cur_dir s, c, c :: cs)
  end.

(** [None] when the starting vnode does not exist. *)
Definition resolve (s : fs) (path : list Z) : option walk_res :=
  '(start, c, cs) ← path_start s path;
  n ← vnodes s !! start;
  Some (walk s start (v_parent n) c cs).

(** ** Basic runs *)

Section Runs.
Implicit Types s : fs.

Lemma wp_f_disable (Q : unit → fs → Prop) s : Q tt (set_fcpu (enter (f_cpu s)) s) → wp (f_on_cpu disable_int) Q s.
Proof. intros. by apply wp_zoom. Qed.
Lemma wp_f_enable (Q : unit → fs → Prop) s : Q tt (set_fcpu (leave (f_cpu s)) s) → wp (f_on_cpu enable_int) Q s.
Proof. intros. by apply wp_zoom. Qed.
Lemma wp_f_err msg (Q : unit → fs → Prop) s : Q tt (set_fcpu (say_err msg (f_cpu s)) s) → wp (f_on_cpu (err msg)) Q s.
Proof. intros. by apply wp_zoom. Qed.
Lemma wp_vnode_get p n (Q : vnode → fs → Prop) s : vnodes s !! p = Some n → Q n s → wp (vnode_get p) Q s.
Proof. intros E ?. unfold vnode_get. wp_steps. by apply (wp_deref _ n). Qed.
Lemma wp_vnode_upd p n f (Q : unit → fs → Prop) s :
  vnodes s !! p = Some n → Q tt (set_vnodes (<[p := f n]> (vnodes s)) s) → wp (vnode_upd p f) Q s.
Proof. intros E ?. unfold vnode_upd. wp_step. apply (wp_vnode_get _ n); [done|]. by wp_steps. Qed.
Lemma wp_mount_get p m (Q : mount → fs → Prop) s : mounts s !! p = Some m → Q m s → wp (mount_get p) Q s.
Proof. intros E ?. unfold mount_get. wp_steps. by apply (wp_deref _ m). Qed.
Lemma wp_file_get p f (Q : file → fs → Prop) s : files s !! p = Some f → Q f s → wp (file_get p) Q s.
Proof. intros E ?. unfold file_get. wp_steps. by apply (wp_deref _ f). Qed.
Lemma wp_file_upd p f g (Q : unit → fs → Prop) s :
  files s !! p = Some f → Q tt (set_files (<[p := g f]> (files s)) s) → wp (file_upd p g) Q s.
Proof. intros E ?. unfold file_upd. wp_step. apply (wp_file_get _ f); [done|]. by wp_steps. Qed.
Lemma wp_vops_get p x (Q : vnode_operations → fs → Prop) s : vopss s !! p = Some x → Q x s → wp (vops_get p) Q s.
Proof. intros E ?. unfold vops_get. wp_steps. by apply (wp_deref _ x). Qed.
Lemma wp_fops_get p x (Q : file_operations → fs → Prop) s : fopss s !! p = Some x → Q x s → wp (fops_get p) Q s.
Proof. intros E ?. unfold fops_get. wp_steps. by apply (wp_deref _ x). Qed.
Lemma wp_lift {A} (r : res A) a (Q : A → fs → Prop) s : r = Ok a → Q a s → wp (lift r) Q s.
Proof. by intros ->. Qed.

Lemma find_child_run s l nm x :
  text nm → (length nm < 256)%nat →
  (∀ p, p ∈ l → ∃ n, vnodes s !! p = Some n ∧ array_of (v_name n) (name_of n)) →
  wp (find_child l (nm ++ NUL :: x)) (λ r s', r = default 0 (List.find (child_named s nm) l) ∧ s' = s) s.
Proof.
  intros Hn Hl. induction l as [|p l IH]; intros Hp; simpl; [by wp_steps|].
  destruct (Hp p) as (n & E & Ha); [by left|]. wp_step. apply (wp_vnode_get _ n); [done|].
  assert (Hrest := IH ltac:(intros q Hq; apply Hp; by right)).
  unfold child_named at 1. rewrite E. destruct (hidden n); simpl; [exact Hrest|].
  pose proof (array_short _ _ Ha) as Hs. destruct Ha as (Ht & _ & y & Ey).
  wp_step. apply (wp_lift _ (lexcmp (name_of n) nm)); [rewrite Ey at 1; apply strcmp_lex; (done || lia)|].
  destruct (Z.eqb_spec (lexcmp (name_of n) nm) 0) as [Ec|Ec].
  - rewrite bool_decide_true by by apply lexcmp_eq. by wp_step.
  - rewrite bool_decide_false by by rewrite <- lexcmp_eq. exact Hrest.
Qed.

Lemma lookup_run s d nm x :
  fs_wf s → is_Some (vnodes s !! d) → text nm → (length nm < 256)%nat →
  wp (tmpfs_lookup d (nm ++ NUL :: x)) (λ r s', r = default 0 (lookup_in s d nm) ∧ s' = s) s.
Proof.
  intros Hw [n E] Hn Hl. unfold tmpfs_lookup, lookup_in. rewrite E. wp_step. apply (wp_vnode_get _ n); [done|].
  apply find_child_run; [done|done|]. intros p Hp. destruct (fw_child _ Hw _ _ _ E Hp) as (c & Ec & _).
  exists c. split; [done|]. by apply (fw_name _ Hw p).
Qed.

Lemma lookup_in_Some s d nm p :
  fs_wf s → lookup_in s d nm = Some p → ∃ n, vnodes s !! p = Some n ∧ v_parent n = d ∧ name_of n = nm ∧ hidden n = false.
Proof.
  intros Hw. unfold lookup_in. destruct (vnodes s !! d) as [dn|] eqn:E; [|done]. intros Hf.
  apply List.find_some in Hf as [Hin Hc]. apply list_elem_of_In in Hin.
  destruct (fw_child _ Hw _ _ _ E Hin) as (n & En & Hp). exists n. split; [done|]. split; [done|].
  unfold child_named in Hc. rewrite En in Hc. apply andb_prop in Hc as [Hh Hb]. apply bool_decide_eq_true in Hb.
  by destruct (hidden n).
Qed.
End Runs.
