(* ===== verification/VfsPath.v ===== *)
(** * Virtual file system: the run of path resolution

    [find_parent_vnode] computes the reference definition [resolve]. *)

From S2P Require Import Prelude Cpu Str StrThm VfsData Tmpfs Vfs VfsInv.

Definition comps (r : option (list Z)) : list (list Z) := match r with Some s => components s | None => [] end.

(** The context is usable: it holds what is left of the path. *)
Definition ctx_ok (c : strtok_ctx) (r : option (list Z)) : Prop :=
  length (strtok_str c) = Z.to_nat STRLEN ∧ ctx_at c r.

(** A token that later calls leave alone. *)
Definition kept (c : strtok_ctx) (i : Z) (t : list Z) : Prop :=
  cstr_at c i t ∧ i + Z.of_nat (length t) < strtok_idx c.

Lemma cstr_short c i t : length (strtok_str c) = Z.to_nat STRLEN → cstr_at c i t → (length t < 256)%nat.
Proof.
  rewrite STRLEN_nat. intros Hl (_ & _ & x & Hx). unfold token_str in Hx.
  assert (E : length (drop (Z.to_nat i) (strtok_str c)) = length (t ++ NUL :: x)) by by rewrite Hx.
  rewrite length_drop, length_app in E. cbn [length] in E. lia.
Qed.

Lemma slash_text : text (chars "/").
Proof. by apply text_chars. Qed.

Lemma comps_cut s : comps (Some s) = (cut (in_set (chars "/")) s).1 :: comps (cut (in_set (chars "/")) s).2.
Proof. unfold comps, components. rewrite split_by_cut. by destruct (cut _ s) as [t [r|]]. Qed.

Section Runs.
Implicit Types s : fs.

(** One call of [strtok_r] on the way. *)
Lemma next_token_run s c r :
  ctx_ok c r →
  match comps r with
  | [] => next_token c s = Ok ((None, c), s)
  | t :: ts => ∃ c' r', next_token c s = Ok ((Some (strtok_idx c), c'), s) ∧ ctx_ok c' r' ∧ comps r' = ts ∧
      kept c' (strtok_idx c) t ∧ ∀ i u, kept c i u → kept c' i u
  end.
Proof.
  intros [Hl Hc]. destruct r as [rest|]; cycle 1.
  - unfold next_token. change slash with (chars "/" ++ [NUL]). cbn [comps]. unfold mbind, M_bind, lift.
    by rewrite strtok_end.
  - rewrite comps_cut. destruct (strtok_next (chars "/") rest c None slash_text eq_refl Hc) as
      (c' & Hrun & Hc' & Ht & Hl' & Hlt & Hold).
    exists c', (cut (in_set (chars "/")) rest).2. split; [|split; [by split; [rewrite Hl'|]|split; [done|split; [by split|]]]].
    + unfold next_token. change slash with (chars "/" ++ [NUL]). unfold mbind, M_bind, lift. by rewrite Hrun.
    + intros i u [Hu Hb]. split; [by apply Hold|lia].
Qed.

(** The loop condition. *)
Lemma next_component_run s c r comp :
  ctx_ok c r →
  match comps r with
  | [] => next_component false comp c s = Ok ((false, comp, c), s)
  | t :: ts => ∃ c' r', next_component false comp c s =
        Ok ((if decide (t = []) then (false, comp, c') else (true, strtok_idx c, c')), s) ∧
      ctx_ok c' r' ∧ comps r' = ts ∧ kept c' (strtok_idx c) t ∧ ∀ i u, kept c i u → kept c' i u
  end.
Proof.
  intros Hc. pose proof (next_token_run s c r Hc) as Hn. unfold next_component.
  destruct (comps r) as [|t ts].
  - by rewrite (bind_Ok _ _ _ _ _ Hn).
  - destruct Hn as (c' & r' & Hn & Hc' & Hr' & Ht & Hold). exists c', r'. split; [|done].
    rewrite (bind_Ok _ _ _ _ _ Hn). cbn beta iota.
    pose proof (cstr_short _ _ _ (proj1 Hc') (proj1 Ht)) as Hs. destruct Ht as [(_ & Htx & x & Hx) _].
    unfold mbind, M_bind, lift. rewrite Hx, strlen_run by (done || lia). by destruct t.
Qed.

Lemma mount_vops_run s p n :
  fs_wf s → vnodes s !! p = Some n →
  ∃ vo, vo_lookup vo = Some F_tmpfs_lookup ∧ mount_vops (v_mount n) s = Ok (vo, s).
Proof.
  intros Hw E. destruct (fw_mount _ Hw _ _ E) as (m & r & vo & Hm & Hr & Hvo & Hlk). exists vo. split; [done|].
  unfold mount_vops, mbind, M_bind, mount_get, vnode_get, vops_get, get_st, mbind, M_bind.
  rewrite Hm. simpl. rewrite Hr. simpl. by rewrite Hvo.
Qed.

(** What [path_walk] returns for a result of the reference walk. *)
Definition walk_post (s : fs) (w : walk_res) (r : option (Z * Z * Z * strtok_ctx)) (s' : fs) : Prop :=
  match w with
  | W_found node parent comp => ∃ i c, r = Some (node, parent, i, c) ∧ cstr_at c i comp ∧ s' = s ∧ length (strtok_str c) = Z.to_nat STRLEN
  | W_missing parent comp => ∃ i c, r = Some (0, parent, i, c) ∧ cstr_at c i comp ∧ s' = s ∧ length (strtok_str c) = Z.to_nat STRLEN
  | W_error comp => r = None ∧
      s' = set_fcpu (say_err (str_of comp +:+ ": No such directory" +:+ crlf) (leave (f_cpu s))) s
  end.

(** The lookup of one component and what follows. *)
Lemma walk_once fuel skip s cur n parent name comp ctx i c ctx' r cs :
  fs_wf s → vnodes s !! cur = Some n → next_component skip comp ctx s = Ok ((true, i, ctx'), s) →
  c ≠ [] → kept ctx' i c → ctx_ok ctx' r → comps r = cs →
  (∀ node nn, vnodes s !! node = Some nn →
    wp (path_walk fuel false i node cur (v_mount nn) ctx') (walk_post s (walk s node cur c cs)) s) →
  wp (path_walk (S fuel) skip comp cur parent (v_mount n) ctx) (walk_post s (walk s cur parent name (c :: cs))) s.
Proof.
  intros Hw En Hnext Hne [Hi Hlt] Hc' Hr Hrest. cbn [path_walk walk]. rewrite decide_False by done.
  wp_step. apply (wp_eq _ _ _ _ _ Hnext). cbn beta iota.
  destruct (mount_vops_run s cur n Hw En) as (vo & Hlk & Hvo). cbn [negb].
  wp_step. apply (wp_eq _ _ _ _ _ Hvo). rewrite Hlk. cbn [call_lookup].
  pose proof (cstr_short _ _ _ (proj1 Hc') Hi) as Hs. destruct (id Hi) as (_ & Htx & x & Hx). rewrite Hx.
  wp_step. eapply wp_mono; [apply lookup_run; [done|by rewrite En|done|done]|]. intros node s' [-> ->].
  destruct (lookup_in s cur c) as [node|] eqn:El; cbn [from_option id].
  - destruct (lookup_in_Some _ _ _ _ Hw El) as (nn & Enn & _).
    assert (0 < node) by (apply (fw_pos _ Hw), (fw_vnodes _ Hw); by rewrite Enn).
    destruct (Z.eqb_spec node 0); [lia|]. wp_step. apply (wp_vnode_get _ nn); [done|]. by apply Hrest.
  - pose proof (next_token_run s ctx' r Hc') as Hn. rewrite Hr in Hn. change (0 =? 0) with true. cbn iota.
    destruct cs as [|t ts].
    + wp_step. apply (wp_eq _ _ _ _ _ Hn). cbn beta iota. rewrite decide_True by done. wp_step.
      exists i, ctx'. split_and!; try done. apply Hc'.
    + destruct Hn as (c'' & r' & Hn & Hc'' & _ & _ & Hold). wp_step. apply (wp_eq _ _ _ _ _ Hn).
      cbn beta iota. rewrite decide_False by done. wp_step. apply wp_f_enable. wp_step. apply wp_f_err. wp_step.
      split; [done|]. destruct (Hold i c (conj Hi Hlt)) as [(_ & _ & y & Hy) _]. rewrite Hy.
      rewrite (str_of_until (c ++ NUL :: y)), (str_of_until c), until_nul_text by done.
      assert (E : until_nul c = c).
      { clear -Htx. induction Htx as [|a l Ha Hl IH]; simpl; [done|]. unfold NUL. destruct (Z.eqb_spec a 0); [lia|]. by f_equal. }
      by rewrite E.
Qed.

Lemma path_walk_run fuel s cur n parent comp name ctx r :
  fs_wf s → vnodes s !! cur = Some n → kept ctx comp name → ctx_ok ctx r → (length (comps r) < fuel)%nat →
  wp (path_walk fuel false comp cur parent (v_mount n) ctx) (walk_post s (walk s cur parent name (comps r))) s.
Proof.
  intros Hw. revert cur n parent comp name ctx r.
  induction fuel as [|fuel IH]; intros cur n parent comp name ctx r En Hk Hc Hf; [lia|].
  pose proof (next_component_run s ctx r comp Hc) as Hn. destruct (comps r) as [|t ts] eqn:Er.
  - cbn [path_walk]. wp_step. apply (wp_eq _ _ _ _ _ Hn). cbn. exists comp, ctx. split_and!; try done; [apply Hk|apply Hc].
  - destruct Hn as (ctx' & r' & Hn & Hc' & Hr' & Ht & Hold). case_decide as Et.
    + cbn [path_walk walk]. rewrite decide_True by done. wp_step. apply (wp_eq _ _ _ _ _ Hn). cbn.
      exists comp, ctx'. split_and!; try done; [by apply Hold|apply Hc'].
    + eapply walk_once; try done. intros node nn Enn. rewrite <- Hr'. apply IH; try done. rewrite Hr'. simpl in Hf. lia.
Qed.

Lemma walk_ext s t cur parent name cs : vnodes s = vnodes t → walk s cur parent name cs = walk t cur parent name cs.
Proof.
  intros E. assert (El : ∀ d c, lookup_in s d c = lookup_in t d c).
  { intros d c. unfold lookup_in. rewrite E. destruct (vnodes t !! d) as [n|]; [|done].
    induction (children n) as [|p l IH]; simpl; [done|]. unfold child_named at 1 3. rewrite E, IH. done. }
  revert cur parent name. induction cs as [|c cs IH]; intros cur parent name; simpl; [done|].
  rewrite El. case_decide; [done|]. destruct (lookup_in t cur c); [apply IH|done].
Qed.

Lemma fs_wf_heap s h c : fs_wf s → heap s ⊆ h → (∀ p, p ∈ h → 0 < p) → cpu_ok c → fs_wf (set_heap h (set_fcpu c s)).
Proof. intros [] Hh Hp Hc. split; simpl; try done; intros; set_solver. Qed.

Lemma length_split p l : (length (split_by p l) ≤ S (length l))%nat.
Proof.
  induction l as [|c l IH]; simpl; [lia|]. destruct (p c); simpl; [lia|]. destruct (split_by p l); simpl in *; lia.
Qed.

Lemma lit_cmp a c x : forallb (λ c, (0 <? c) && (c <? 256)) (chars a) = true → (length (chars a) <? 256)%nat = true →
  text c → (length c < 256)%nat → strcmp (lit a) (c ++ NUL :: x) = Ok (lexcmp (chars a) c).
Proof. intros Ha La%Nat.ltb_lt Hc Lc. apply (strcmp_lex (chars a) c [] x); [by apply text_chars|done|lia|lia]. Qed.

Lemma text_app_inv a b : text (a ++ b) → text a ∧ text b.
Proof. apply Forall_app. Qed.
End Runs.

Section Find.
Context `{!FsHeap}.
Implicit Types s : fs.

Lemma first_token s path y :
  text path → (length path < 256)%nat →
  ∃ (i : Z) (c : strtok_ctx) (r : option (list Z)) (t : list Z) (ts : list (list Z)),
    strtok_r (Some junk_ctx) (Some (path ++ NUL :: y)) slash None = Ok (Some i, Some c) ∧
    ctx_ok c r ∧ components path = t :: ts ∧ comps r = ts ∧ kept c i t.
Proof.
  intros Hp Hl. pose proof junk_ctx_str as Hj. rewrite STRLEN_nat in Hj.
  destruct (strtok_first junk_ctx path y slash None Hp) as (c & Hc & Hcl & _ & Hrun); [lia|lia|].
  assert (Hok : ctx_ok c (Some path)) by (split; [by rewrite Hcl, Hj|done]).
  pose proof (next_token_run s c _ Hok) as Hn. cbn [comps] in Hn. destruct (components path) as [|t ts] eqn:E.
  - unfold components in E. by rewrite split_by_cut in E.
  - destruct Hn as (c' & r' & Hn & Hc' & Hr' & Ht & _). exists (strtok_idx c), c', r', t, ts. split; [|done].
    rewrite Hrun. unfold next_token, mbind, M_bind, lift in Hn.
    destruct (strtok_r None None slash (Some c)) as [[o [c1|]]| |]; try done. simpl in Hn. by inversion Hn.
Qed.

Definition leaked s : fs := set_heap ({[new_addr (heap s)]} ∪ heap s) s.

Definition find_post s (w : walk_res) (r : option (Z * Z * list Z)) (s' : fs) : Prop :=
  match w with
  | W_found node parent comp => ∃ l, r = Some (node, parent, l) ∧ array_of l comp ∧ s' = s
  | W_missing parent comp => ∃ l, r = Some (0, parent, l) ∧ array_of l comp ∧ s' = s
  | W_error comp => r = None ∧
      s' = set_fcpu (say_err (str_of comp +:+ ": No such directory" +:+ crlf) (f_cpu s)) (leaked s)
  end.

Lemma room_addr s : fs_room s 1 → 0 < new_addr (heap s) ∧ new_addr (heap s) ∉ heap s.
Proof. intros Hr. destruct (new_addr_ok (heap s)) as [E|E]; [|done]. exfalso. apply (Hr (heap s)); [done|lia|done]. Qed.

Lemma f_malloc_run s : fs_room s 1 → f_malloc s = Ok (new_addr (heap s), leaked s).
Proof.
  intros Hr. destruct (room_addr s Hr) as [Ha _]. unfold f_malloc, mbind, M_bind, get_st.
  by destruct (Z.eqb_spec (new_addr (heap s)) 0); [lia|].
Qed.

(** After the walk: the component is copied, the context released. *)
Lemma find_finish s (node parent i : Z) c (comp : list Z) :
  cpu_ok (f_cpu s) → fs_room s 1 → cstr_at c i comp → length (strtok_str c) = Z.to_nat STRLEN →
  wp (component ← lift (strcpy junk_name (token_str c i));
      f_free (new_addr (heap s)) ;; f_on_cpu enable_int ;; mret (Some (node, parent, component)))
    (λ (r : option (Z * Z * list Z)) s', ∃ l, r = Some (node, parent, l) ∧ array_of l comp ∧ s' = s)
    (leaked (set_fcpu (enter (f_cpu s)) s)).
Proof.
  intros Hcpu Hroom Hi Hl. destruct (room_addr s Hroom) as [Ha Hn]. pose proof (cstr_short _ _ _ Hl Hi) as Hs.
  destruct Hi as (_ & Ht & x & Hx). rewrite Hx.
  destruct (strcpy_array junk_name comp x junk_name_length Ht Hs) as (l & Hcp & Hal).
  wp_step. apply (wp_lift _ l); [done|]. wp_step. unfold f_free. wp_steps. cbn [heap leaked set_heap set_fcpu].
  destruct (Z.eqb_spec (new_addr (heap s)) 0); [lia|].
  wp_step. apply wp_assert; [apply bool_decide_eq_true; simpl; set_solver|].
  wp_steps. apply wp_f_enable. wp_step. exists l. split; [done|]. split; [done|].
  destruct s. cbn in *. unfold set_fcpu, set_heap. simpl. rewrite leave_enter by done. f_equal. set_solver.
Qed.

Lemma find_rest s start n skip i c r t :
  fs_wf s → fs_room s 1 → vnodes s !! start = Some n → (skip = true → t ≠ []) → ctx_ok c r → kept c i t →
  (length (comps r) ≤ 256)%nat →
  wp (n ← vnode_get start;
      r ← path_walk (Z.to_nat STRLEN + 2) skip i start (v_parent n) (v_mount n) c;
      match r with
      | None => mret None
      | Some (cur, parent, comp, ctx) =>
          component ← lift (strcpy junk_name (token_str ctx comp));
          f_free (new_addr (heap s)) ;; f_on_cpu enable_int ;; mret (Some (cur, parent, component))
      end)
    (find_post s (walk s start (v_parent n) t (if skip then t :: comps r else comps r)))
    (leaked (set_fcpu (enter (f_cpu s)) s)).
Proof.
  intros Hw Hroom En Hne Hc Hk Hlen. destruct (room_addr s Hroom) as [Ha Hn].
  set (s1 := leaked _).
  assert (Hw1 : fs_wf s1).
  { apply fs_wf_heap; [done|set_solver| |apply enter_ok, Hw]. intros p [->%elem_of_singleton|Hh]%elem_of_union; [done|by apply (fw_pos _ Hw)]. }
  wp_step. apply (wp_vnode_get _ n); [done|]. wp_step.
  rewrite <- (walk_ext s1 s) by done. rewrite STRLEN_nat.
  eapply wp_mono with (P := walk_post s1 (walk s1 start (v_parent n) t (if skip then t :: comps r else comps r))).
  - destruct skip; [|apply path_walk_run; try done; lia].
    eapply walk_once; [done|done|reflexivity|by apply Hne|done|done|done|].
    intros node nn Enn. apply path_walk_run; try done. lia.
  - intros r' s' Hpost. destruct (walk _ _ _ _ _) as [node parent comp|parent comp|comp]; simpl in Hpost.
    + destruct Hpost as (j & c' & -> & Hj & -> & Hl). apply find_finish; [apply Hw|done..].
    + destruct Hpost as (j & c' & -> & Hj & -> & Hl). apply find_finish; [apply Hw|done..].
    + destruct Hpost as [-> ->]. wp_step. split; [done|]. pose proof (fw_cpu _ Hw) as Hcpu. destruct s. simpl in *.
      unfold set_fcpu, set_heap, leaked. simpl. by rewrite leave_enter.
Qed.

Lemma find_parent_run s path y w :
  fs_wf s → fs_room s 1 → text path → (length path < 256)%nat → resolve s path = Some w →
  wp (find_parent_vnode (path ++ NUL :: y)) (find_post s w) s.
Proof.
  intros Hw Hroom Hp Hl Hres. destruct (room_addr s Hroom) as [Ha Hn].
  destruct (first_token s path y Hp Hl) as (i & c & r & t & ts & Htok & Hc & Hcs & Hr & Hk).
  unfold find_parent_vnode. wp_step. apply wp_f_disable.
  wp_step. apply (wp_eq _ _ _ _ _ (f_malloc_run (set_fcpu (enter (f_cpu s)) s) Hroom)). cbn [heap set_fcpu].
  assert (Eb : (new_addr (heap s) =? 0) = false) by lia. rewrite Eb.
  wp_step. apply (wp_lift _ (Some i, Some c)); [exact Htok|]. cbn beta iota. wp_step. apply (wp_deref _ i); [done|].
  wp_step. apply (wp_deref _ c); [done|].
  pose proof (cstr_short _ _ _ (proj1 Hc) (proj1 Hk)) as Hs. destruct (id (proj1 Hk)) as (_ & Htx & x & Hx). rewrite Hx.
  wp_step. apply (wp_lift _ (lexcmp (chars "") t)); [by apply lit_cmp|].
  wp_step. apply (wp_lift _ (lexcmp (chars "..") t)); [by apply lit_cmp|].
  wp_step. apply (wp_lift _ (lexcmp (chars ".") t)); [by apply lit_cmp|].
  assert (Hlen : (length (comps r) ≤ 256)%nat).
  { pose proof (length_split (in_set (chars "/")) path) as Hsp. unfold components in Hcs. rewrite Hcs, <- Hr in Hsp. simpl in Hsp. lia. }
  unfold resolve, path_start in Hres. rewrite Hcs in Hres.
  wp_step. wp_step. wp_step.
  destruct (Z.eqb_spec (lexcmp (chars "") t) 0) as [E0|E0]; [apply lexcmp_eq in E0|rewrite lexcmp_eq in E0].
  { rewrite decide_True in Hres by (by rewrite <- E0). destruct (fw_root _ Hw) as (m & Em & n & En). rewrite Em in Hres.
    simpl in Hres. rewrite En in Hres. injection Hres as Hres. wp_step. apply (wp_mount_get _ m); [done|]. wp_step.
    rewrite <- Hres, <- Hr. exact (find_rest s _ n false i c r t Hw Hroom En (λ e : false = true, ltac:(done)) Hc Hk Hlen). }
  rewrite decide_False in Hres by (intros ->; by apply E0).
  destruct (Z.eqb_spec (lexcmp (chars "..") t) 0) as [E1|E1]; [apply lexcmp_eq in E1|rewrite lexcmp_eq in E1].
  { rewrite decide_True in Hres by done. destruct (vnodes s !! cur_dir s) as [d|] eqn:Ed; [|done]. simpl in Hres.
    destruct (vnodes s !! v_parent d) as [n|] eqn:En; [|done]. injection Hres as Hres.
    wp_step. apply (wp_vnode_get _ d); [done|]. wp_step. rewrite <- Hres, <- Hr. exact (find_rest s _ n false i c r t Hw Hroom En (λ e : false = true, ltac:(done)) Hc Hk Hlen). }
  rewrite decide_False in Hres by (intros ->; by apply E1).
  destruct (Z.eqb_spec (lexcmp (chars ".") t) 0) as [E2|E2]; [apply lexcmp_eq in E2|rewrite lexcmp_eq in E2].
  { rewrite decide_True in Hres by done. simpl in Hres. destruct (vnodes s !! cur_dir s) as [n|] eqn:En; [|done].
    injection Hres as Hres. wp_step. rewrite <- Hres, <- Hr. exact (find_rest s _ n false i c r t Hw Hroom En (λ e : false = true, ltac:(done)) Hc Hk Hlen). }
  rewrite decide_False in Hres by (intros ->; by apply E2). simpl in Hres.
  destruct (vnodes s !! cur_dir s) as [n|] eqn:En; [|done]. injection Hres as Hres.
  wp_step. rewrite <- Hres, <- Hr.
  exact (find_rest s _ n true i c r t Hw Hroom En (λ _ e, E0 (eq_sym e)) Hc Hk Hlen).
Qed.
End Find.
