(* ===== verification/VfsThm.v ===== *)
(** * Virtual file system: creating nodes, and runs of the path operations

    The effect of [tmpfs_create] and [tmpfs_mkdir] on the vnode graph, the
    operations on paths that use them, and lookup, creation and opening as
    equations on the state. *)

From S2P Require Import Prelude Cpu Str StrThm VfsData Tmpfs Vfs VfsInv VfsPath.

(** [node] is a new child [comp] of [dir]; [b] holds its contents. *)
Definition new_vnode `{!FsHeap} (d : vnode) (dir : Z) (type : file_type) (l : list Z) (content : data_ptr) : vnode :=
  mk_vnode (v_mount d) (v_ops d) (v_fops d) [] false (v_mode junk_vnode) dir type l 0 content.

Definition add_child (node : Z) (d : vnode) : vnode := with_children (children d ++ [node]) d.

Lemma wp_vnode_last p n m f (Q : unit → fs → Prop) (s : fs) :
  vnodes s = <[p := n]> m →
  Q tt (set_vnodes (<[p := f n]> m) s) → wp (vnode_upd p f) Q s.
Proof. intros E HQ. apply (wp_vnode_upd _ n); [by rewrite E, lookup_insert_eq|]. by rewrite E, insert_insert_eq. Qed.

Lemma set_vnodes_twice m1 m2 s : set_vnodes m2 (set_vnodes m1 s) = set_vnodes m2 s.
Proof. done. Qed.

(** One more update of the vnode written last. *)
Ltac vnode_upd_again :=
  eapply wp_vnode_last; [cbn [vnodes set_vnodes set_fcpu set_heap set_blocks]; reflexivity|]; rewrite ?set_vnodes_twice.


Section Create.
Context `{!FsHeap}.
Implicit Types s : fs.

Definition with_vnode s dir d node n : fs :=
  set_vnodes (<[node := n]> (<[dir := add_child node d]> (vnodes s))) s.

Lemma wp_init_vnode s dir d node j type comp x :
  cpu_ok (f_cpu s) → 0 < node → 0 < dir → node ≠ dir → vnodes s !! dir = Some d → vnodes s !! node = Some j →
  length (v_name j) = Z.to_nat STRLEN → text comp → (length comp < 256)%nat →
  wp (init_vnode dir node type (comp ++ NUL :: x))
    (λ r s', ∃ l, r = 0 ∧ array_of l comp ∧ s' = with_vnode s dir d node
      (mk_vnode (v_mount d) (v_ops d) (v_fops d) [] false (v_mode j) dir type l 0 (internal j))) s.
Proof.
  intros Hcpu Hn Hdir Hne Ed Ej Hj Ht Hl. unfold init_vnode. wp_step. apply wp_f_disable.
  destruct (Z.eqb_spec node 0); [lia|]. destruct (Z.eqb_spec dir 0); [lia|]. cbn [negb].
  destruct (strcpy_array (v_name j) comp x Hj Ht Hl) as (l & Hcp & Hal).
  wp_steps. apply (wp_vnode_get _ d); [done|].
  wp_step. apply (wp_vnode_upd _ j); [done|]. wp_step. vnode_upd_again.
  unfold list_push. apply (wp_vnode_upd _ d); [simpl; by rewrite lookup_insert_ne|].
  assert (E : ∀ a b (m : gmap Z vnode), <[dir := b]> (<[node := a]> m) = <[node := a]> (<[dir := b]> m)).
  { intros. apply insert_insert_ne. done. }
  cbn [vnodes set_vnodes]. rewrite E.
  wp_step. vnode_upd_again. wp_step. vnode_upd_again.
  wp_step. vnode_upd_again. wp_step. vnode_upd_again.
  wp_step. eapply wp_vnode_get; [simpl; by rewrite lookup_insert_eq|].
  wp_step. apply (wp_lift _ l); [exact Hcp|].
  wp_step. vnode_upd_again. wp_step. vnode_upd_again.
  wp_step. apply wp_f_enable. wp_step. exists l. split; [done|]. split; [done|].
  unfold with_vnode, set_vnodes, set_fcpu. cbn [f_cpu]. rewrite leave_enter by done. destruct s. reflexivity.
Qed.

Definition content_ptr (s : fs) (node : Z) (type : file_type) : data_ptr :=
  if decide (type = FILE) then D_at (new_addr ({[node]} ∪ heap s)) 0 else internal junk_vnode.

(** The state after a successful creation. *)
Definition created s dir d type l : fs :=
  let node := new_addr (heap s) in
  let b := new_addr ({[node]} ∪ heap s) in
  let s1 := with_vnode s dir d node (new_vnode d dir type l (content_ptr s node type)) in
  if decide (type = FILE)
  then set_blocks (<[b := junk_bytes]> (blocks s)) (set_heap ({[b]} ∪ ({[node]} ∪ heap s)) s1)
  else set_heap ({[node]} ∪ heap s) s1.

Lemma room_weaken s k j : (j ≤ k)%nat → fs_room s k → fs_room s j.
Proof. intros Hj Hr X HX Hs. apply Hr; [done|lia]. Qed.

Lemma room_after s k : fs_room s (S k) → fs_room (leaked s) k.
Proof.
  intros Hr X HX Hs. simpl in *. destruct (room_addr s) as [_ Hn]; [eapply room_weaken; [|done]; lia|].
  apply Hr; [set_solver|]. rewrite size_union, size_singleton in Hs by set_solver. lia.
Qed.

Lemma wp_create s dir d type comp x :
  fs_wf s → fs_room s 2 → vnodes s !! dir = Some d → text comp → (length comp < 256)%nat →
  wp (tmpfs_create dir (comp ++ NUL :: x) type)
    (λ r s', ∃ l, r = (0, new_addr (heap s)) ∧ array_of l comp ∧ s' = created s dir d type l) s.
Proof.
  intros Hw Hroom Ed Ht Hl. assert (Hroom1 : fs_room s 1) by (eapply room_weaken; [|exact Hroom]; lia).
  destruct (room_addr s Hroom1) as [Ha Hn]. set (node := new_addr (heap s)) in *.
  assert (Hnd : vnodes s !! node = None) by (apply eq_None_not_Some; intros ?; by apply Hn, (fw_vnodes _ Hw)).
  assert (Hdir : 0 < dir) by (apply (fw_pos _ Hw), (fw_vnodes _ Hw); by rewrite Ed).
  unfold tmpfs_create, malloc_vnode. wp_steps. apply (wp_eq _ _ _ _ _ (f_malloc_run s Hroom1)).
  assert (Eb : (node =? 0) = false) by lia. fold node. rewrite Eb. wp_steps.
  unfold tmpfs_init_vnode. wp_step. eapply wp_mono.
  { apply (wp_init_vnode _ dir d node junk_vnode type comp x); cbn; try done.
    - apply Hw.
    - intros ->. by rewrite Ed in Hnd.
    - rewrite lookup_insert_ne; [done|]. intros ->. by rewrite Ed in Hnd.
    - by rewrite lookup_insert_eq.
    - apply junk_vnode_name. }
  intros r s' (l & -> & Hal & ->). cbn [Z.eqb negb].
  unfold with_vnode. cbn [vnodes set_vnodes set_heap].
  assert (Em : ∀ n, <[node := n]> (<[dir := add_child node d]> (<[node := junk_vnode]> (vnodes s))) = <[node := n]> (<[dir := add_child node d]> (vnodes s))).
  { intros n. rewrite (insert_insert_ne _ dir node); [|intros ->; by rewrite Ed in Hnd]. by rewrite insert_insert_eq. }
  rewrite Em. unfold created, content_ptr. fold node. destruct (decide (type = FILE)) as [->|Hty].
  - unfold malloc_bytes. wp_steps.
    match goal with |- wp f_malloc _ ?t => set (t1 := t) end.
    assert (Hroom' : fs_room t1 1) by exact (room_after s 1 Hroom).
    apply (wp_eq _ _ _ _ _ (f_malloc_run t1 Hroom')). destruct (room_addr t1 Hroom') as [Hb _].
    destruct (Z.eqb_spec (new_addr (heap t1)) 0); [lia|]. wp_steps.
    vnode_upd_again. wp_steps. by exists l.
  - wp_steps. by exists l.
Qed.

(** The vnodes of the new state. *)
Lemma created_vnodes s dir d type l :
  vnodes (created s dir d type l) =
    let node := new_addr (heap s) in
    <[node := new_vnode d dir type l (content_ptr s node type)]> (<[dir := add_child node d]> (vnodes s)).
Proof. unfold created. by case_decide. Qed.

Lemma created_same s dir d type l :
  let s' := created s dir d type l in
  mounts s' = mounts s ∧ vopss s' = vopss s ∧ fopss s' = fopss s ∧ files s' = files s ∧ filesystems s' = filesystems s ∧
  fs_list s' = fs_list s ∧ rootfs s' = rootfs s ∧ cur_dir s' = cur_dir s ∧ fd_table s' = fd_table s ∧
  fd_bitmap s' = fd_bitmap s ∧ f_cpu s' = f_cpu s ∧ heap s ⊆ heap s' ∧ new_addr (heap s) ∈ heap s' ∧
  ∀ p, p ∈ heap s → blocks s' !! p = blocks s !! p ∨ new_addr ({[new_addr (heap s)]} ∪ heap s) = p.
Proof.
  unfold created. case_decide; simpl; (split_and!; try done; try set_solver).
  intros p Hp.
  destruct (decide (new_addr ({[new_addr (heap s)]} ∪ heap s) = p)); [by right|left]. by rewrite lookup_insert_ne.
Qed.

Section Created.
Context (s : fs) (dir : Z) (d : vnode) (type : file_type) (l comp : list Z) (Hw : fs_wf s) (Hroom : fs_room s 2) (Ed : vnodes s !! dir = Some d) (Hl : array_of l comp).
#[local] Abbreviation node := (new_addr (heap s)).
#[local] Abbreviation s' := (created s dir d type l).

Lemma node_fresh : 0 < node ∧ node ∉ heap s ∧ vnodes s !! node = None ∧ (node ≠ dir).
Proof.
  destruct (room_addr s) as [Ha Hn]; [eapply room_weaken; [|done]; lia|].
  assert (vnodes s !! node = None) by (apply eq_None_not_Some; intros ?; by apply Hn, (fw_vnodes _ Hw)).
  split; [done|]. split; [done|]. split; [done|]. intros E. by rewrite E, Ed in *.
Qed.

Lemma block_fresh : new_addr ({[node]} ∪ heap s) ∉ {[node]} ∪ heap s ∧ 0 < new_addr ({[node]} ∪ heap s).
Proof. destruct (room_addr (leaked s)) as [Ha Hn]; [apply (room_after s 1 Hroom)|]. done. Qed.

(** A vnode of the new state is the new one, the parent, or an old one. *)
Lemma created_lookup p n' :
  vnodes s' !! p = Some n' →
  (p = node) ∧ n' = new_vnode d dir type l (content_ptr s node type) ∨
  p = dir ∧ n' = add_child node d ∨
  (p ≠ node) ∧ p ≠ dir ∧ vnodes s !! p = Some n'.
Proof.
  rewrite created_vnodes. cbv zeta. destruct node_fresh as (_ & _ & _ & Hne).
  destruct (decide (p = node)) as [->|]; [rewrite lookup_insert_eq; intros [= <-]; by left|].
  rewrite lookup_insert_ne by done. destruct (decide (p = dir)) as [->|]; [|rewrite lookup_insert_ne by done; by right; right].
  rewrite lookup_insert_eq. intros [= <-]. by right; left.
Qed.

Lemma created_old p n :
  vnodes s !! p = Some n → ∃ n', vnodes s' !! p = Some n' ∧ v_parent n' = v_parent n ∧ v_mount n' = v_mount n ∧
    v_ops n' = v_ops n ∧ v_fops n' = v_fops n ∧ name_of n' = name_of n ∧ hidden n' = hidden n ∧
    children n' = if decide (p = dir) then children n ++ [node] else children n.
Proof.
  intros E. rewrite created_vnodes. cbv zeta. destruct node_fresh as (_ & _ & Hf & Hne).
  rewrite lookup_insert_ne by (intros <-; by rewrite E in Hf). destruct (decide (p = dir)) as [->|].
  - rewrite lookup_insert_eq. rewrite Ed in E. injection E as ->. by eexists.
  - rewrite lookup_insert_ne by done. by exists n.
Qed.

Lemma created_uses mnt : uses_tmpfs_lookup s mnt → uses_tmpfs_lookup s' mnt.
Proof.
  intros (m & r & vo & Hm & Hr & Hvo & Hlk). destruct (created_same s dir d type l) as (Em & Evo & _).
  destruct (created_old _ _ Hr) as (r' & Hr' & _ & _ & Ho & _). exists m, r', vo. by rewrite Em, Evo, Ho.
Qed.

Lemma created_wf : fs_wf s'.
Proof.
  destruct node_fresh as (Ha & Hn & Hf & Hne). destruct block_fresh as [Hb Hb0].
  destruct (created_same s dir d type l) as (Em & Evo & Efo & Efi & Efs & _ & Ert & _ & _ & _ & Ec & Hh & Hnode & _).
  assert (Hd := fw_child _ Hw). split.
  - rewrite Ec. apply Hw.
  - intros p Hp. unfold created in Hp. revert Hp. case_decide; simpl; intros Hp;
      repeat (apply elem_of_union in Hp as [->%elem_of_singleton|Hp]; [done|]); by apply (fw_pos _ Hw).
  - intros p [n' E]. destruct (created_lookup _ _ E) as [[-> _]|[[-> _]|(_ & _ & E')]]; [done| |].
    + apply Hh, (fw_vnodes _ Hw). by rewrite Ed.
    + apply Hh, (fw_vnodes _ Hw). by rewrite E'.
  - intros p. rewrite Efi. intros Hp. by apply Hh, (fw_files _ Hw).
  - intros p. unfold created. case_decide; simpl.
    + intros Hp. destruct (decide (p = new_addr ({[node]} ∪ heap s))) as [->|]; [set_solver|].
      rewrite lookup_insert_ne in Hp by done. apply (fw_blocks _ Hw) in Hp. set_solver.
    + intros Hp. apply (fw_blocks _ Hw) in Hp. set_solver.
  - intros p n' E. destruct (created_lookup _ _ E) as [[-> ->]|[[-> ->]|(_ & _ & E')]].
    + unfold name_of. simpl. by rewrite (array_of_until _ _ Hl).
    + apply (fw_name _ Hw _ _ Ed).
    + apply (fw_name _ Hw _ _ E').
  - intros p n' q E Hq. destruct (created_lookup _ _ E) as [[-> ->]|[[-> ->]|(Hp1 & Hp2 & E')]].
    + simpl in Hq. set_solver.
    + simpl in Hq. apply elem_of_app in Hq as [Hq|Hq].
      * destruct (Hd _ _ q Ed Hq) as (c & Ec' & Hc). destruct (created_old _ _ Ec') as (c' & Ec'' & Hp & _).
        exists c'. by rewrite Hp.
      * apply list_elem_of_singleton in Hq as ->. eexists. rewrite created_vnodes. cbv zeta. by rewrite lookup_insert_eq.
    + destruct (Hd _ _ q E' Hq) as (c & Ec' & Hc). destruct (created_old _ _ Ec') as (c' & Ec'' & Hp & _).
      exists c'. by rewrite Hp.
  - intros p n' E. destruct (created_lookup _ _ E) as [[-> ->]|[[-> ->]|(Hp1 & Hp2 & E')]].
    + simpl. constructor.
    + simpl. apply NoDup_app. split; [by apply (fw_nodup _ Hw _ _ Ed)|]. split; [|apply NoDup_singleton].
      intros q Hq ->%list_elem_of_singleton. destruct (Hd _ _ _ Ed Hq) as (c & Ec' & _). by rewrite Ec' in Hf.
    + by apply (fw_nodup _ Hw _ _ E').
  - intros p n' E. apply created_uses. destruct (created_lookup _ _ E) as [[-> ->]|[[-> ->]|(Hp1 & Hp2 & E')]].
    + simpl. by apply (fw_mount _ Hw dir).
    + simpl. by apply (fw_mount _ Hw dir).
    + by apply (fw_mount _ Hw p).
  - rewrite Em, Ert. destruct (fw_root _ Hw) as (m & Hm & n & En). exists m. split; [done|].
    destruct (created_old _ _ En) as (n' & En' & _). by rewrite En'.
Qed.

Lemma child_named_old nm p : is_Some (vnodes s !! p) → child_named s' nm p = child_named s nm p.
Proof.
  intros [n E]. destruct (created_old _ _ E) as (n' & E' & _ & _ & _ & _ & Hnm & Hh & _).
  unfold child_named. by rewrite E, E', Hnm, Hh.
Qed.

Lemma find_app_last f (cs : list Z) q : List.find f (cs ++ [q]) = match List.find f cs with Some p => Some p | None => if f q then Some q else None end.
Proof. induction cs as [|c cs IH]; simpl; [done|]. by destruct (f c). Qed.

Lemma find_same f g (cs : list Z) : (∀ p, p ∈ cs → f p = g p) → List.find f cs = List.find g cs.
Proof.
  induction cs as [|c cs IH]; simpl; [done|]. intros He. rewrite He by by left. rewrite IH; [done|]. intros. apply He. by right.
Qed.

(** Name lookups in the new state. *)
Lemma created_lookup_in p nm :
  is_Some (vnodes s !! p) →
  lookup_in s' p nm = match lookup_in s p nm with
    | Some q => Some q
    | None => if decide (p = dir ∧ nm = comp) then Some node else None
    end.
Proof.
  intros [n E]. destruct (created_old _ _ E) as (n' & E' & _ & _ & _ & _ & _ & _ & Hc).
  unfold lookup_in. rewrite E, E', Hc.
  assert (Hsame : List.find (child_named s' nm) (children n) = List.find (child_named s nm) (children n)).
  { apply find_same. intros q Hq. apply child_named_old. destruct (fw_child _ Hw _ _ _ E Hq) as (c & -> & _). done. }
  destruct (decide (p = dir)) as [->|Hp].
  - rewrite find_app_last, Hsame. destruct (List.find (child_named s nm) (children n)); [done|]. unfold child_named. rewrite created_vnodes. cbv zeta.
    rewrite lookup_insert_eq. unfold name_of. simpl. rewrite (array_of_until _ _ Hl).
    destruct (decide (nm = comp)) as [->|Hnm]; [rewrite bool_decide_true, decide_True by done; done|].
    rewrite bool_decide_false, decide_False by naive_solver. done.
  - rewrite Hsame. destruct (List.find (child_named s nm) (children n)); [done|]. rewrite decide_False by naive_solver. done.
Qed.

Lemma created_walk cur parent name cs :
  is_Some (vnodes s !! cur) → walk s cur parent name cs = W_missing dir comp → walk s' cur parent name cs = W_found node dir comp.
Proof.
  revert cur parent name. induction cs as [|c cs IH]; intros cur parent name Hs; simpl; [done|].
  case_decide; [done|]. rewrite created_lookup_in by done. destruct (lookup_in s cur c) as [n|] eqn:El.
  - apply IH. destruct (lookup_in_Some _ _ _ _ Hw El) as (x & -> & _). done.
  - destruct (decide (cs = [])) as [->|]; [|done]. intros [= Hc1 Hc2]. rewrite decide_True by done. simpl. by rewrite Hc1, Hc2.
Qed.

(** The path that was missing now leads to the new vnode. *)
Lemma created_resolve path : resolve s path = Some (W_missing dir comp) → resolve s' path = Some (W_found node dir comp).
Proof.
  unfold resolve. destruct (created_same s dir d type l) as (Em & _ & _ & _ & _ & _ & Ert & Ecd & _).
  assert (Hst : ∀ r, path_start s path = Some r → path_start s' path = Some r).
  { intros r. unfold path_start. rewrite Em, Ert, Ecd. destruct (components path) as [|c cs]; [done|].
    repeat case_decide; try done. destruct (vnodes s !! cur_dir s) as [n|] eqn:En; [|done].
    destruct (created_old _ _ En) as (n' & -> & Hp & _). simpl. by rewrite Hp. }
  destruct (path_start s path) as [[[start c] cs]|]; [|done]. rewrite (Hst _ eq_refl). simpl.
  destruct (vnodes s !! start) as [n|] eqn:En; [|done]. destruct (created_old _ _ En) as (n' & -> & Hp & _). simpl.
  intros [= Hwk]. rewrite Hp. f_equal. apply created_walk; [by rewrite En|done].
Qed.
End Created.
End Create.

Definition tmpfs_vops : vnode_operations := mk_vops (Some F_tmpfs_lookup) (Some F_tmpfs_create) (Some F_tmpfs_mkdir).
Definition tmpfs_fops : file_operations :=
  mk_fops (Some F_tmpfs_write) (Some F_tmpfs_read) (Some F_tmpfs_open) (Some F_tmpfs_close) (Some F_tmpfs_lseek64) None.

(** The vnode [n] belongs to a mounted tmpfs. *)
Definition on_tmpfs (s : fs) (n : vnode) : Prop :=
  fopss s !! v_fops n = Some tmpfs_fops ∧
  ∃ m r, mounts s !! v_mount n = Some m ∧ vnodes s !! m_root m = Some r ∧ vopss s !! v_ops r = Some tmpfs_vops.

Definition path_arg (path : list Z) : Prop := text path ∧ (length path < 256)%nat.

Definition said (msg : string) (s : fs) : fs := set_fcpu (say_err msg (f_cpu s)) s.

Lemma leave_say_err msg c : cpu_ok c → leave (say_err msg (enter c)) = say_err msg c.
Proof. intros Hc. change (leave (say_err msg (enter c))) with (say_err msg (leave (enter c))). by rewrite leave_enter. Qed.

Section Props.
Context `{!FsHeap, !Drivers}.
Implicit Types s : fs.

Definition masked s : fs := set_fcpu (enter (f_cpu s)) s.

Lemma masked_wf s : fs_wf s → fs_wf (masked s).
Proof. intros Hw. apply (fs_wf_heap s (heap s) (enter (f_cpu s)) Hw); [done|apply Hw|apply enter_ok, Hw]. Qed.

Lemma masked_room s k : fs_room s k → fs_room (masked s) k.
Proof. done. Qed.

Lemma masked_resolve s path : resolve (masked s) path = resolve s path.
Proof. unfold resolve. change (path_start (masked s) path) with (path_start s path). destruct (path_start s path) as [[[a b] c]|]; [|done].
  simpl. destruct (vnodes s !! a); simpl; [|done]. f_equal. by apply walk_ext. Qed.

Lemma unmask s : cpu_ok (f_cpu s) → set_fcpu (leave (enter (f_cpu s))) s = s.
Proof. intros Hc. rewrite leave_enter by done. by destruct s. Qed.

(** Running a body between [disable_int] and path resolution. *)
Lemma wp_find_parent s path y w (Q : option (Z * Z * list Z) → fs → Prop) :
  fs_wf s → fs_room s 1 → path_arg path → resolve s path = Some w →
  (∀ r t, find_post (masked s) w r t → Q r t) →
  wp (find_parent_vnode (path ++ NUL :: y)) Q (masked s).
Proof.
  intros Hw Hr [Ht Hl] Hres HQ. eapply wp_mono; [|exact HQ].
  apply find_parent_run; [by apply masked_wf|done|done|done|by rewrite masked_resolve].
Qed.

(** What the result of path resolution means for the caller: 0 and the node
    (NULL for a missing last component), or -1. *)
Definition lookup_result (w : walk_res) : Z * option Z :=
  match w with
  | W_found node _ _ => (0, Some node)
  | W_missing _ _ => (0, Some 0)
  | W_error _ => (-1, None)
  end.

Definition after_lookup s (w : walk_res) : fs :=
  match w with
  | W_error comp => said (str_of comp +:+ ": No such directory" +:+ crlf) (leaked s)
  | _ => s
  end.

Lemma vfs_lookup_run s path y w :
  fs_wf s → fs_room s 1 → path_arg path → resolve s path = Some w →
  vfs_lookup (path ++ NUL :: y) s = Ok (lookup_result w, after_lookup s w).
Proof.
  intros Hw Hr Hp Hres. pose proof (fw_cpu _ Hw) as Hc.
  enough (wp (vfs_lookup (path ++ NUL :: y)) (λ r t, r = lookup_result w ∧ t = after_lookup s w) s) as (r & t & -> & -> & ->)%wp_run by done.
  unfold vfs_lookup. wp_step. apply wp_f_disable. wp_step. eapply wp_find_parent; [done..|].
  intros r t Hpost. wp_step. apply wp_f_enable. destruct w as [node parent comp|parent comp|comp]; simpl in Hpost.
  - destruct Hpost as (l & -> & _ & ->). wp_step. split; [done|]. by apply (unmask s).
  - destruct Hpost as (l & -> & _ & ->). wp_step. split; [done|]. by apply (unmask s).
  - destruct Hpost as (-> & ->). wp_step. split; [done|]. unfold after_lookup, said, leaked. simpl.
    by rewrite leave_say_err by done.
Qed.

(** A NULL vnode does not exist. *)
Lemma no_null s : fs_wf s → vnodes s !! 0 = None.
Proof. intros Hw. apply eq_None_not_Some. intros Hs. apply (fw_vnodes _ Hw), (fw_pos _ Hw) in Hs. lia. Qed.

Lemma walk_dirs s cur parent name cs node d comp :
  fs_wf s → is_Some (vnodes s !! cur) →
  (walk s cur parent name cs = W_found node d comp → is_Some (vnodes s !! node)) ∧
  (walk s cur parent name cs = W_missing d comp → is_Some (vnodes s !! d) ∧ lookup_in s d comp = None ∧ comp ≠ []).
Proof.
  intros Hw. revert cur parent name. induction cs as [|c cs IH]; intros cur parent name Hs; simpl.
  - split; [by intros [= <- _ _]|done].
  - case_decide; [split; [by intros [= <- _ _]|done]|]. destruct (lookup_in s cur c) as [n|] eqn:El.
    + apply IH. destruct (lookup_in_Some _ _ _ _ Hw El) as (x & -> & _). done.
    + case_decide; [|split; done]. split; [done|]. by intros [= <- <-].
Qed.

Lemma resolve_dirs s path node d comp :
  fs_wf s →
  (resolve s path = Some (W_found node d comp) → is_Some (vnodes s !! node)) ∧
  (resolve s path = Some (W_missing d comp) → is_Some (vnodes s !! d) ∧ lookup_in s d comp = None ∧ comp ≠ []).
Proof.
  intros Hw. unfold resolve. destruct (path_start s path) as [[[a b] c]|]; [|by split]. simpl.
  destruct (vnodes s !! a) as [n|] eqn:En; [|by split]. simpl.
  destruct (walk_dirs s a (v_parent n) b c node d comp Hw ltac:(by rewrite En)) as [H1 H2].
  split; intros [= Hwk]; auto.
Qed.

Lemma created_mask s dir d type l c : set_fcpu c (created s dir d type l) = created (set_fcpu c s) dir d type l.
Proof. unfold created. by case_decide. Qed.

Lemma call_create_run s dir d type comp x :
  fs_wf s → fs_room s 2 → vnodes s !! dir = Some d → text comp → (length comp < 256)%nat → on_tmpfs s d →
  ∃ l, array_of l comp ∧ mount_vops (v_mount d) s = Ok (tmpfs_vops, s) ∧
    tmpfs_create dir (comp ++ NUL :: x) type s = Ok ((0, new_addr (heap s)), created s dir d type l).
Proof.
  intros Hw Hr Ed Ht Hl (_ & m & r & Hm & Hrt & Hvo).
  pose proof (wp_create s dir d type comp x Hw Hr Ed Ht Hl) as (p & t & Hrun & l & -> & Hal & ->)%wp_run.
  exists l. split; [done|]. split; [|done]. unfold mount_vops, mount_get, vnode_get, vops_get, get_st, mbind, M_bind.
  rewrite Hm. simpl. rewrite Hrt. simpl. by rewrite Hvo.
Qed.

(** [vfs_create] of a missing last component in a directory on a tmpfs. *)
Lemma vfs_create_run s path y dir d comp type :
  fs_wf s → fs_room s 2 → path_arg path → resolve s path = Some (W_missing dir comp) →
  vnodes s !! dir = Some d → on_tmpfs s d →
  ∃ l, array_of l comp ∧
    vfs_create (path ++ NUL :: y) type s = Ok ((0, Some (new_addr (heap s))), created s dir d type l) ∧
    (type = DIR → vfs_mkdir (path ++ NUL :: y) s = Ok ((0, Some (new_addr (heap s))), created s dir d type l)).
Proof.
  intros Hw Hr Hp Hres Ed Ht. pose proof (fw_cpu _ Hw) as Hc.
  assert (Hr1 : fs_room s 1) by (eapply room_weaken; [|exact Hr]; lia).
  pose proof (wp_find_parent s path y _ (find_post (masked s) _) Hw Hr1 Hp Hres ltac:(done)) as (r & t & Hfind & Hpost)%wp_run.
  destruct Hpost as (l0 & -> & Hal & ->). destruct (id Hal) as (Htx & _ & x & ->). pose proof (array_short _ _ Hal) as Hl.
  destruct (call_create_run (masked s) dir d type comp x (masked_wf _ Hw) Hr Ed Htx Hl Ht) as (l & Hal' & Hvo & Hcr).
  assert (Hend : set_fcpu (leave (enter (f_cpu s))) (created (masked s) dir d type l) = created s dir d type l).
  { rewrite created_mask. f_equal. by apply (unmask s). }
  assert (Hcpu : f_cpu (created (masked s) dir d type l) = enter (f_cpu s)) by apply created_same.
  exists l. split; [done|]. split; [|intros ->].
  - unfold vfs_create. erewrite bind_Ok by reflexivity. rewrite (bind_Ok _ _ _ _ _ Hfind). cbn [Z.eqb negb].
    erewrite (bind_Ok (vnode_get dir)) by (unfold vnode_get, mbind, M_bind, get_st; simpl; by rewrite Ed).
    rewrite (bind_Ok _ _ _ _ _ Hvo). simpl call_create. rewrite (bind_Ok _ _ _ _ _ Hcr). cbn [Z.ltb].
    unfold f_on_cpu, enable_int, zoom, modify, mbind, M_bind, mret, M_ret. rewrite Hcpu. by rewrite <- Hend.
  - unfold vfs_mkdir. erewrite bind_Ok by reflexivity. rewrite (bind_Ok _ _ _ _ _ Hfind). cbn [Z.eqb negb].
    erewrite (bind_Ok (vnode_get dir)) by (unfold vnode_get, mbind, M_bind, get_st; simpl; by rewrite Ed).
    rewrite (bind_Ok _ _ _ _ _ Hvo). simpl call_mkdir. rewrite (bind_Ok (tmpfs_mkdir _ _) _ _ _ _ Hcr). cbn [Z.ltb].
    unfold f_on_cpu, enable_int, zoom, modify, mbind, M_bind, mret, M_ret. rewrite Hcpu. by rewrite <- Hend.
Qed.

Lemma created_node s dir d type l comp :
  fs_wf s → fs_room s 2 → vnodes s !! dir = Some d → on_tmpfs s d → array_of l comp →
  let s' := created s dir d type l in
  ∃ n, vnodes s' !! new_addr (heap s) = Some n ∧ v_type n = type ∧ file_size n = 0 ∧ children n = [] ∧
    v_parent n = dir ∧ on_tmpfs s' n ∧
    (type = FILE → ∃ b, internal n = D_at b 0 ∧ (b ∉ heap s) ∧ blocks s' !! b = Some junk_bytes).
Proof.
  intros Hw Hr Ed (Hfo & m & r & Hm & Hrt & Hvo) Hal. cbv zeta.
  destruct (created_same s dir d type l) as (Em & Evo & Efo & _).
  eexists. rewrite created_vnodes. cbv zeta. split; [by rewrite lookup_insert_eq|]. split_and!; try done.
  - split; [by rewrite Efo|]. destruct (created_old s dir d type l Hw Hr Ed _ _ Hrt) as (r' & Hr' & _ & _ & Ho & _).
    exists m, r'. rewrite Em, Evo, Ho. done.
  - intros ->. unfold content_ptr, created. rewrite !decide_True by done. eexists. split; [done|].
    destruct (block_fresh s Hr) as [Hb _]. split; [set_solver|]. simpl. by rewrite lookup_insert_eq.
Qed.

Lemma created_mount s dir d type l n : vnodes (created s dir d type l) !! new_addr (heap s) = Some n → v_mount n = v_mount d.
Proof. rewrite created_vnodes. cbv zeta. rewrite lookup_insert_eq. by intros [= <-]. Qed.

Lemma created_frame s dir d type l comp :
  fs_wf s → fs_room s 2 → vnodes s !! dir = Some d → array_of l comp →
  let s' := created s dir d type l in
  (∀ p nm, is_Some (vnodes s !! p) → (p, nm) ≠ (dir, comp) → lookup_in s' p nm = lookup_in s p nm) ∧
  (∀ b, b ∈ heap s → blocks s' !! b = blocks s !! b).
Proof.
  intros Hw Hr Ed Hal. cbv zeta. split.
  - intros p nm Hp Hne. rewrite (created_lookup_in s dir d type l comp) by done.
    destruct (lookup_in s p nm); [done|]. rewrite decide_False; [done|]. by intros [-> ->].
  - intros b Hb. destruct (created_same s dir d type l) as (_ & _ & _ & _ & _ & _ & _ & _ & _ & _ & _ & _ & _ & Hbl).
    destruct (Hbl b Hb) as [|E]; [done|]. destruct (block_fresh s Hr) as [Hf _]. rewrite E in Hf. set_solver.
Qed.

Lemma vfs_create_fails s path y w type :
  fs_wf s → fs_room s 1 → path_arg path → resolve s path = Some w →
  match w with
  | W_found _ _ _ =>
      vfs_create (path ++ NUL :: y) type s = Ok ((-1, None), said ("File exists" +:+ crlf) s) ∧
      vfs_mkdir (path ++ NUL :: y) s = Ok ((-1, None), said ("Directoty exists" +:+ crlf) s)
  | W_error comp =>
      vfs_create (path ++ NUL :: y) type s = Ok ((-1, None), after_lookup s w) ∧
      vfs_mkdir (path ++ NUL :: y) s = Ok ((-1, None), after_lookup s w)
  | W_missing _ _ => True
  end.
Proof.
  intros Hw Hr Hp Hres. pose proof (fw_cpu _ Hw) as Hc.
  pose proof (wp_find_parent s path y w (find_post (masked s) w) Hw Hr Hp Hres ltac:(done)) as (r & t & Hfind & Hpost)%wp_run.
  destruct w as [node parent comp|parent comp|comp]; [|done|].
  - destruct Hpost as (l0 & -> & Hal & ->).
    assert (Hn : node ≠ 0).
    { intros ->. destruct (resolve_dirs s path 0 parent comp Hw) as [Hd _]. destruct (Hd Hres) as [n En]. by rewrite no_null in En. }
    apply Z.eqb_neq in Hn. split.
    + unfold vfs_create. erewrite bind_Ok by reflexivity. rewrite (bind_Ok _ _ _ _ _ Hfind). rewrite Hn. cbn [negb].
      erewrite bind_Ok by reflexivity. cbn [f_cpu set_fcpu masked].
      change (set_fcpu _ (masked s)) with (set_fcpu (leave (enter (f_cpu s))) s). by rewrite unmask.
    + unfold vfs_mkdir. erewrite bind_Ok by reflexivity. rewrite (bind_Ok _ _ _ _ _ Hfind). rewrite Hn. cbn [negb].
      erewrite bind_Ok by reflexivity.
      change (set_fcpu _ (masked s)) with (set_fcpu (leave (enter (f_cpu s))) s). by rewrite unmask.
  - destruct Hpost as [-> ->].
    assert (E : ∀ msg, set_fcpu (leave (say_err msg (enter (f_cpu s)))) (leaked s) = set_fcpu (say_err msg (f_cpu s)) (leaked s))
      by (intros; by rewrite leave_say_err).
    split.
    + unfold vfs_create. erewrite bind_Ok by reflexivity. rewrite (bind_Ok _ _ _ _ _ Hfind). unfold after_lookup, said. rewrite <- E. done.
    + unfold vfs_mkdir. erewrite bind_Ok by reflexivity. rewrite (bind_Ok _ _ _ _ _ Hfind). unfold after_lookup, said. rewrite <- E. done.
Qed.

(** Opening a vnode of a tmpfs. *)
Definition opened s node n flags : fs :=
  set_files (<[new_addr (heap s) := mk_file node 0 (v_fops n) flags 1]> (files s)) (leaked s).

Lemma open_node_run s node n flags :
  cpu_ok (f_cpu s) → fs_room s 1 → vnodes s !! node = Some n → fopss s !! v_fops n = Some tmpfs_fops →
  (f_on_cpu disable_int ;;
   n ← vnode_get node; fo ← fops_get (v_fops n);
   '(ret, target) ← call_open (fo_open fo) node flags;
   f_on_cpu enable_int ;; mret (ret, target)) s = Ok ((0, Some (new_addr (heap s))), opened s node n flags).
Proof.
  intros Hc Hr En Hf. destruct (room_addr s Hr) as [Ha _]. apply Z.lt_neq, not_eq_sym, Z.eqb_neq in Ha.
  erewrite bind_Ok by reflexivity.
  erewrite bind_Ok by (unfold vnode_get, mbind, M_bind, get_st; simpl; by rewrite En).
  erewrite bind_Ok by (unfold fops_get, mbind, M_bind, get_st; simpl; by rewrite Hf).
  simpl call_open. unfold tmpfs_open. unfold mbind at 1, M_bind at 1.
  rewrite (bind_Ok _ _ _ _ _ (f_malloc_run (masked s) Hr)). simpl. rewrite Ha.
  erewrite bind_Ok by (unfold vnode_get, mbind, M_bind, get_st; simpl; by rewrite En).
  unfold opened. rewrite <- (unmask s Hc) at 5. done.
Qed.

Lemma vfs_open_found s path y node parent comp n flags :
  fs_wf s → fs_room s 1 → path_arg path → resolve s path = Some (W_found node parent comp) →
  vnodes s !! node = Some n → fopss s !! v_fops n = Some tmpfs_fops →
  vfs_open (path ++ NUL :: y) flags s = Ok ((0, Some (new_addr (heap s))), opened s node n flags).
Proof.
  intros Hw Hr Hp Hres En Hf. unfold vfs_open. rewrite (bind_Ok _ _ _ _ _ (vfs_lookup_run s path y _ Hw Hr Hp Hres)).
  cbn [lookup_result after_lookup Z.ltb Z.compare]. erewrite bind_Ok by reflexivity.
  assert (Hn0 : (node =? 0) = false). { apply Z.eqb_neq. intros ->. by rewrite no_null in En. }
  rewrite Hn0. erewrite bind_Ok by reflexivity. cbn beta iota. by apply open_node_run; [apply Hw|..].
Qed.

Lemma vfs_open_creates s path y dir d comp flags :
  fs_wf s → fs_room s 3 → path_arg path → resolve s path = Some (W_missing dir comp) → Z.land flags O_CREAT ≠ 0 →
  vnodes s !! dir = Some d → on_tmpfs s d →
  ∃ l n, array_of l comp ∧ let s1 := created s dir d FILE l in
    vfs_create (path ++ NUL :: y) FILE s = Ok ((0, Some (new_addr (heap s))), s1) ∧
    vnodes s1 !! new_addr (heap s) = Some n ∧ on_tmpfs s1 n ∧ fs_wf s1 ∧ fs_room s1 1 ∧
    vfs_open (path ++ NUL :: y) flags s = Ok ((0, Some (new_addr (heap s1))), opened s1 (new_addr (heap s)) n flags).
Proof.
  intros Hw Hr Hp Hres Ef Ed Hon. assert (Hr2 : fs_room s 2) by (eapply room_weaken; [|exact Hr]; lia).
  assert (Hr1 : fs_room s 1) by (eapply room_weaken; [|exact Hr]; lia).
  destruct (vfs_create_run s path y dir d comp FILE Hw Hr2 Hp Hres Ed Hon) as (l & Hal & Hcr & _).
  destruct (created_node s dir d FILE l comp Hw Hr2 Ed Hon Hal) as (n & En & _ & _ & _ & _ & Hont & _).
  pose proof (created_wf s dir d FILE l comp Hw Hr2 Ed Hal) as Hw'.
  assert (Hr' : fs_room (created s dir d FILE l) 1).
  { unfold created. rewrite decide_True by done. exact (room_after (leaked s) 1 (room_after s 2 Hr)). }
  exists l, n. split; [done|]. cbv zeta. split; [exact Hcr|]. split; [exact En|]. split; [done|]. split; [done|]. split; [done|].
  unfold vfs_open. rewrite (bind_Ok _ _ _ _ _ (vfs_lookup_run s path y _ Hw Hr1 Hp Hres)).
  cbn [lookup_result after_lookup Z.ltb Z.compare]. erewrite bind_Ok by reflexivity. cbn [Z.eqb].
  apply Z.eqb_neq in Ef. rewrite Ef. cbn [negb].
  erewrite bind_Ok by (rewrite (bind_Ok _ _ _ _ _ Hcr); reflexivity). cbn beta iota.
  by apply open_node_run; [apply Hw'|..|apply Hont].
Qed.
End Props.
