(* ===== verification/VfsProps.v ===== *)
(** * Virtual file system: properties

    Path resolution against its reference definition, creation of files and
    directories, and opening. *)

From S2P Require Import Prelude Cpu Str StrThm VfsData Tmpfs Vfs File VfsInv VfsPath VfsThm.

Section Props.
Context `{!FsHeap, !Drivers}.
Implicit Types s : fs.

(** C9: [find_parent_vnode] computes the reference resolution of the path, from
    the root, the parent of the current directory or the current directory.
    A path that resolves, or whose last component is missing, changes
    nothing: the temporary context is released and the interrupt state
    restored.  A missing component in the middle prints an error, returns -1
    and leaves the context allocated. *)
Theorem find_parent_vnode_correct s path y w :
  fs_wf s → fs_room s 1 → path_arg path → resolve s path = Some w →
  match w with
  | W_found node parent comp => ∃ l, array_of l comp ∧
      find_parent_vnode (path ++ NUL :: y) s = Ok (Some (node, parent, l), s)
  | W_missing parent comp => ∃ l, array_of l comp ∧
      find_parent_vnode (path ++ NUL :: y) s = Ok (Some (0, parent, l), s)
  | W_error comp =>
      find_parent_vnode (path ++ NUL :: y) s =
        Ok (None, said (str_of comp +:+ ": No such directory" +:+ crlf) (set_heap ({[new_addr (heap s)]} ∪ heap s) s))
  end.
Proof.
  intros Hw Hr [Ht Hl] Hres. pose proof (find_parent_run s path y w Hw Hr Ht Hl Hres) as (r & t & -> & Hp)%wp_run.
  destruct w; simpl in Hp; [destruct Hp as (l & -> & ? & ->); by exists l..|]. by destruct Hp as [-> ->].
Qed.

(** C8: [vfs_create] and [vfs_mkdir] of a path whose last component is missing,
    in a directory on a tmpfs: a new empty node appears, the path resolves to
    it, every other name in every directory resolves as before, existing file
    contents are untouched, and the invariant and the interrupt state are
    kept. *)
Theorem vfs_create_correct s path y dir d comp type :
  fs_wf s → fs_room s 2 → path_arg path → resolve s path = Some (W_missing dir comp) →
  vnodes s !! dir = Some d → on_tmpfs s d →
  ∃ node s' n, vfs_create (path ++ NUL :: y) type s = Ok ((0, Some node), s') ∧
    (type = DIR → vfs_mkdir (path ++ NUL :: y) s = Ok ((0, Some node), s')) ∧
    fs_wf s' ∧ f_cpu s' = f_cpu s ∧ vnodes s !! node = None ∧
    vnodes s' !! node = Some n ∧ v_type n = type ∧ v_parent n = dir ∧ file_size n = 0 ∧ children n = [] ∧ on_tmpfs s' n ∧
    (type = FILE → ∃ b, internal n = D_at b 0 ∧ blocks s !! b = None ∧ blocks s' !! b = Some junk_bytes) ∧
    resolve s' path = Some (W_found node dir comp) ∧
    (∀ p nm, is_Some (vnodes s !! p) → (p, nm) ≠ (dir, comp) → lookup_in s' p nm = lookup_in s p nm) ∧
    ∀ b, is_Some (blocks s !! b) → blocks s' !! b = blocks s !! b.
Proof.
  intros Hw Hr Hp Hres Ed Ht. destruct (vfs_create_run s path y dir d comp type Hw Hr Hp Hres Ed Ht) as (l & Hal & H1 & H2).
  destruct (created_node s dir d type l comp Hw Hr Ed Ht Hal) as (n & En & Hty & Hsz & Hch & Hpar & Hon & Hb).
  destruct (created_frame s dir d type l comp Hw Hr Ed Hal) as [Hf1 Hf2].
  exists (new_addr (heap s)), (created s dir d type l), n. split_and!; try done.
  - by apply (created_wf s dir d type l comp).
  - apply created_same.
  - apply (node_fresh s dir d Hw Hr Ed).
  - intros Hfile. destruct (Hb Hfile) as (b & Hi & Hnb & Hbl). exists b. split_and!; [done| |done].
    apply eq_None_not_Some. intros Hs. by apply Hnb, (fw_blocks _ Hw).
  - by apply (created_resolve s dir d type l comp).
  - intros b Hs. apply Hf2. by apply (fw_blocks _ Hw).
Qed.

(** Creating what exists already, or below a missing directory: -1, an error
    message, and no change to the file system (apart from the context that
    the missing directory leaks). *)
Theorem vfs_create_rejects s path y w type :
  fs_wf s → fs_room s 1 → path_arg path → resolve s path = Some w →
  match w with
  | W_found _ _ _ =>
      vfs_create (path ++ NUL :: y) type s = Ok ((-1, None), said ("File exists" +:+ crlf) s) ∧
      vfs_mkdir (path ++ NUL :: y) s = Ok ((-1, None), said ("Directoty exists" +:+ crlf) s)
  | W_error comp =>
      let s' := said (str_of comp +:+ ": No such directory" +:+ crlf) (set_heap ({[new_addr (heap s)]} ∪ heap s) s) in
      vfs_create (path ++ NUL :: y) type s = Ok ((-1, None), s') ∧ vfs_mkdir (path ++ NUL :: y) s = Ok ((-1, None), s')
  | W_missing _ _ => True
  end.
Proof. intros Hw Hr Hp Hres. pose proof (vfs_create_fails s path y w type Hw Hr Hp Hres) as Hf. by destruct w. Qed.

(** [vfs_open]: an existing node of a tmpfs gives a new handle at position 0
    with one reference; a missing file without [O_CREAT] gives -1 and an
    error; with [O_CREAT] it is created first and the handle refers to the
    new node. *)
Theorem vfs_open_correct s path y w flags :
  fs_wf s → fs_room s 3 → path_arg path → resolve s path = Some w →
  match w with
  | W_found node _ _ => ∀ n, vnodes s !! node = Some n → fopss s !! v_fops n = Some tmpfs_fops →
      ∃ f, vfs_open (path ++ NUL :: y) flags s =
          Ok ((0, Some f), set_files (<[f := mk_file node 0 (v_fops n) flags 1]> (files s)) (set_heap ({[f]} ∪ heap s) s)) ∧
        files s !! f = None
  | W_missing dir comp =>
      if Z.land flags O_CREAT =? 0
      then vfs_open (path ++ NUL :: y) flags s = Ok ((-1, None), said ("File not found" +:+ crlf) s)
      else ∀ d, vnodes s !! dir = Some d → on_tmpfs s d →
        ∃ f node s1 n, vfs_create (path ++ NUL :: y) FILE s = Ok ((0, Some node), s1) ∧ vnodes s1 !! node = Some n ∧
          vfs_open (path ++ NUL :: y) flags s =
            Ok ((0, Some f), set_files (<[f := mk_file node 0 (v_fops n) flags 1]> (files s1)) (set_heap ({[f]} ∪ heap s1) s1)) ∧
          files s1 !! f = None
  | W_error comp => ∃ s', vfs_open (path ++ NUL :: y) flags s = Ok ((-1, None), s') ∧ vnodes s' = vnodes s ∧ files s' = files s
  end.
Proof.
  intros Hw Hr Hp Hres. assert (Hr1 : fs_room s 1) by (eapply room_weaken; [|exact Hr]; lia).
  assert (Hfree : ∀ t, fs_wf t → fs_room t 1 → files t !! new_addr (heap t) = None).
  { intros t Ht Hrt. apply eq_None_not_Some. intros Hs. apply (fw_files _ Ht) in Hs. by destruct (room_addr t Hrt). }
  destruct w as [node parent comp|dir comp|comp].
  - intros n En Hf. exists (new_addr (heap s)). split; [by apply (vfs_open_found s path y node parent comp)|by apply Hfree].
  - destruct (Z.eqb_spec (Z.land flags O_CREAT) 0) as [Ef|Ef].
    + unfold vfs_open. rewrite (bind_Ok _ _ _ _ _ (vfs_lookup_run s path y _ Hw Hr1 Hp Hres)).
      cbn [lookup_result after_lookup Z.ltb Z.compare]. erewrite bind_Ok by reflexivity. cbn [Z.eqb]. by rewrite Ef.
    + intros d Ed Hon.
      destruct (vfs_open_creates s path y dir d comp flags Hw Hr Hp Hres Ef Ed Hon) as (l & n & _ & Hcr & En & _ & Hw1 & Hr' & Ho).
      eexists _, _, _, n. split; [exact Hcr|]. split; [exact En|]. split; [exact Ho|by apply Hfree].
  - eexists. unfold vfs_open. rewrite (bind_Ok _ _ _ _ _ (vfs_lookup_run s path y _ Hw Hr1 Hp Hres)). by split.
Qed.
End Props.
