(* ===== verification/VfsMount.v ===== *)
(** * Virtual file system: mounting the root

    [tmpfs_init] from an empty file system. *)

From S2P Require Import Prelude Cpu Str StrThm VfsData Tmpfs Vfs VfsInv VfsPath VfsThm.
From S2P Require KList.

(** Nothing is registered, mounted or open yet. *)
Record fs_blank (s : fs) : Prop := mk_blank {
  fb_cpu : cpu_ok (f_cpu s);
  fb_pos p : p ∈ heap s → 0 < p;
  fb_vnodes : vnodes s = ∅;
  fb_mounts : mounts s = ∅;
  fb_vopss : vopss s = ∅;
  fb_fopss : fopss s = ∅;
  fb_files : files s = ∅;
  fb_filesystems : filesystems s = ∅;
  fb_blocks : blocks s = ∅;
  fb_list : fs_list s = [];
}.

Section Mount.
Context `{!FsHeap, !Drivers}.
Implicit Types s : fs.

Lemma wp_init_root s node j type comp x :
  cpu_ok (f_cpu s) → 0 < node → vnodes s !! node = Some j →
  length (v_name j) = Z.to_nat STRLEN → text comp → (length comp < 256)%nat →
  wp (init_vnode 0 node type (comp ++ NUL :: x))
    (λ r s', ∃ l, r = 0 ∧ array_of l comp ∧ s' = set_vnodes (<[node :=
      mk_vnode (v_mount j) (v_ops j) (v_fops j) [] false (v_mode j) 0 type l 0 (internal j)]> (vnodes s)) s) s.
Proof.
  intros Hcpu Hn Ej Hj Ht Hl. unfold init_vnode. wp_step. apply wp_f_disable.
  destruct (Z.eqb_spec node 0); [lia|]. cbn [negb Z.eqb].
  destruct (strcpy_array (v_name j) comp x Hj Ht Hl) as (l & Hcp & Hal).
  wp_steps. apply (wp_vnode_upd _ j); [done|].
  wp_step. vnode_upd_again. wp_step. vnode_upd_again. wp_step. vnode_upd_again.
  wp_step. eapply wp_vnode_get; [simpl; by rewrite lookup_insert_eq|].
  wp_step. apply (wp_lift _ l); [exact Hcp|].
  wp_step. vnode_upd_again. wp_step. vnode_upd_again.
  wp_step. apply wp_f_enable. wp_step. exists l. split; [done|]. split; [done|].
  unfold set_vnodes, set_fcpu. cbn [f_cpu]. rewrite leave_enter by done. destruct s. reflexivity.
Qed.

(** The root of a new tmpfs. *)
Definition root_vnode (mnt vo fo : Z) (l : list Z) : vnode :=
  mk_vnode mnt vo fo [] false (v_mode junk_vnode) 0 DIR l 0 (internal junk_vnode).

(** [tmpfs_setup_mount] for a mount whose root was just allocated. *)
Lemma wp_setup_root s mnt root flags p x :
  cpu_ok (f_cpu s) → fs_room s 2 → mounts s !! mnt = Some (mk_mount root p flags) → 0 < root →
  vnodes s !! root = Some junk_vnode →
  let vo := new_addr (heap s) in let fo := new_addr ({[vo]} ∪ heap s) in
  wp (tmpfs_setup_mount mnt 0 (NUL :: x)) (λ r s', ∃ l, r = 0 ∧ array_of l [] ∧ s' =
    set_fopss (<[fo := tmpfs_fops]> (fopss s)) (set_vopss (<[vo := tmpfs_vops]> (vopss s))
      (set_heap ({[fo]} ∪ ({[vo]} ∪ heap s)) (set_vnodes (<[root := root_vnode mnt vo fo l]> (vnodes s)) s)))) s.
Proof.
  intros Hc Hr Em Hroot Er. cbv zeta. set (vo := new_addr (heap s)). set (fo := new_addr ({[vo]} ∪ heap s)).
  assert (Hr1 : fs_room s 1) by (eapply room_weaken; [|exact Hr]; lia).
  assert (Hr2 : fs_room (leaked s) 1) by exact (room_after s 1 Hr).
  assert (Hvo : (vo =? 0) = false) by (destruct (room_addr s Hr1); apply Z.eqb_neq; fold vo; lia).
  assert (Hfo : (fo =? 0) = false) by (destruct (room_addr _ Hr2) as [? _]; apply Z.eqb_neq; unfold fo, vo; simpl in *; lia).
  unfold tmpfs_setup_mount. wp_step. apply (wp_mount_get _ (mk_mount root p flags)); [done|]. cbn [m_root].
  wp_step. apply (wp_eq _ _ _ _ _ (f_malloc_run s Hr1)). fold vo.
  wp_step. apply (wp_vnode_get _ junk_vnode); [done|]. wp_step. apply (wp_vnode_upd _ junk_vnode); [done|]. rewrite Hvo.
  match goal with |- wp _ _ ?t => set (t1 := t) end.
  wp_step. apply (wp_eq _ _ _ _ _ (f_malloc_run t1 Hr2)). change (new_addr (heap t1)) with fo.
  wp_step. vnode_upd_again. rewrite Hfo.
  wp_step. unfold tmpfs_init_vnode. wp_step. eapply wp_mono.
  { apply (wp_init_root _ root (with_ops vo fo (with_ops vo (v_fops junk_vnode) junk_vnode)) DIR [] x); cbn; try done.
    - by rewrite lookup_insert_eq.
    - apply junk_vnode_name.
    - constructor.
    - lia. }
  intros r t (l & -> & Hal & ->). cbn [Z.eqb negb]. rewrite decide_False by done. wp_steps. cbn [Z.eqb negb].
  wp_steps. vnode_upd_again. wp_steps. eapply wp_vnode_last; [cbn [vnodes set_fopss set_vopss set_vnodes]; reflexivity|]. wp_steps.
  exists l. split; [done|]. split; [done|]. unfold t1, leaked.
  cbv [set_fopss set_vopss set_heap set_vnodes f_cpu heap vnodes mounts vopss fopss files filesystems blocks fs_list rootfs cur_dir fd_table fd_bitmap sd f_datas fat].
  rewrite !insert_insert_eq. reflexivity.
Qed.

Lemma find_tmpfs s p :
  filesystems s !! p = Some (mk_filesystem (lit "tmpfs") F_tmpfs_setup_mount) → find_fs [p] (lit "tmpfs") s = Ok (p, s).
Proof. intros E. unfold find_fs, filesystem_get, get_st, mbind, M_bind. by rewrite E. Qed.

(** The state after [tmpfs_init]: [p], [mnt], [root], [vo], [fo] are the five
    objects allocated, in this order. *)
Definition rooted s (p mnt root vo fo : Z) (l : list Z) : fs :=
  mk_fs (f_cpu s) ({[fo]} ∪ ({[vo]} ∪ ({[root]} ∪ ({[mnt]} ∪ ({[p]} ∪ heap s)))))
    {[root := root_vnode mnt vo fo l]} {[mnt := mk_mount root p 0]} {[vo := tmpfs_vops]} {[fo := tmpfs_fops]} ∅
    {[p := mk_filesystem (lit "tmpfs") F_tmpfs_setup_mount]} ∅ [p] mnt (cur_dir s) (fd_table s) (fd_bitmap s) (sd s) (f_datas s) (fat s).

Lemma tmpfs_init_run s :
  fs_blank s → fs_room s 5 →
  ∃ p mnt root vo fo l, tmpfs_init s = Ok (tt, rooted s p mnt root vo fo l) ∧ array_of l [] ∧
    0 < p ∧ 0 < mnt ∧ 0 < root ∧ 0 < vo ∧ 0 < fo.
Proof.
  intros [Hc _ Ev Em Evo Efo Ef Efs Eb El] Hr.
  pose (p := new_addr (heap s)). pose (h1 := {[p]} ∪ heap s). pose (mnt := new_addr h1). pose (h2 := {[mnt]} ∪ h1).
  pose (root := new_addr h2). pose (h3 := {[root]} ∪ h2). pose (vo := new_addr h3). pose (h4 := {[vo]} ∪ h3). pose (fo := new_addr h4).
  pose proof (room_after s 4 Hr) as R1. pose proof (room_after _ 3 R1) as R2. pose proof (room_after _ 2 R2) as R3.
  assert (R0 : fs_room s 1) by (eapply room_weaken; [|exact Hr]; lia).
  assert (R1' : fs_room (leaked s) 1) by (eapply room_weaken; [|exact R1]; lia).
  assert (R2' : fs_room (leaked (leaked s)) 1) by (eapply room_weaken; [|exact R2]; lia).
  assert (R3' : fs_room (leaked (leaked (leaked s))) 1) by (eapply room_weaken; [|exact R3]; lia).
  pose proof (room_after _ 1 R3) as R4.
  destruct (room_addr _ R0) as [P0 _]. destruct (room_addr _ R1') as [P1 _]. destruct (room_addr _ R2') as [P2 _].
  destruct (room_addr _ R3') as [P3 _]. destruct (room_addr _ R4) as [P4 _].
  change (0 < p) in P0. change (0 < mnt) in P1. change (0 < root) in P2. change (0 < vo) in P3. change (0 < fo) in P4.
  enough (wp tmpfs_init (λ _ t, ∃ l, array_of l [] ∧ t = rooted s p mnt root vo fo l) s) as ([] & t & Hrun & l & Hal & ->)%wp_run.
  { by exists p, mnt, root, vo, fo, l. }
  assert (Ep : (p =? 0) = false) by lia. assert (Emn : (mnt =? 0) = false) by lia. assert (Ert : (root =? 0) = false) by lia.
  unfold tmpfs_init. wp_step. apply (wp_eq _ _ _ _ _ (f_malloc_run s R0)). fold p. rewrite Ep.
  wp_steps. unfold register_filesystem. wp_steps. unfold filesystem_get. wp_steps. eapply wp_deref; [apply lookup_insert_eq|].
  cbn [fs_list set_filesystems leaked set_heap]. rewrite El. cbn [find_fs]. wp_steps. cbn [Z.eqb negb]. wp_steps.
  unfold vfs_mount. wp_steps. cbn [fs_list set_fs_list set_filesystems leaked set_heap app]. rewrite ?El. cbn [app].
  eapply wp_eq; [apply find_tmpfs; apply lookup_insert_eq|]. cbn beta. rewrite Ep.
  match goal with |- wp _ _ ?t => set (t1 := t) end.
  wp_step. apply (wp_eq _ _ _ _ _ (f_malloc_run t1 R1')). change (new_addr (heap t1)) with mnt. cbn beta. rewrite Emn.
  unfold malloc_vnode. wp_steps. apply (wp_eq _ _ _ _ _ (f_malloc_run (leaked t1) R2')). change (new_addr (heap (leaked t1))) with root.
  cbn beta. rewrite Ert. wp_steps. rewrite Ert. wp_step.
  unfold mount_point. wp_step. apply (wp_lift _ 0); [done|]. cbn [Z.eqb]. wp_steps.
  destruct (strcpy_array junk_name [] [] junk_name_length) as (l0 & Hcp & Hal0); [constructor|simpl; lia|].
  apply (wp_lift _ l0); [exact Hcp|]. wp_steps. unfold filesystem_get. wp_steps. eapply wp_deref; [apply lookup_insert_eq|].
  cbn [setup_mount call_setup_mount]. destruct (id Hal0) as (_ & _ & x & ->). cbn [app].
  wp_step. apply wp_f_disable. wp_step. eapply wp_mono.
  { apply (wp_setup_root _ mnt root 0 p x); cbn; [by apply enter_ok|exact R3|by rewrite lookup_insert_eq|done|by rewrite lookup_insert_eq]. }
  intros r t (l & -> & Hal & ->). wp_step. apply wp_f_enable. wp_steps. exists l. split; [done|].
  unfold rooted, t1, leaked.
  cbv [set_fopss set_vopss set_heap set_vnodes set_fcpu set_rootfs set_mounts set_fs_list set_filesystems f_cpu heap vnodes mounts vopss fopss files filesystems blocks fs_list rootfs cur_dir fd_table fd_bitmap sd f_datas fat] in *.
  rewrite leave_enter by done. rewrite Ev, Em, Evo, Efo, Ef, Efs, Eb, !insert_insert_eq. reflexivity.
Qed.
End Mount.

Section Init.
Context `{!FsHeap, !Drivers}.

Lemma rooted_wf s p mnt root vo fo l :
  cpu_ok (f_cpu s) → (∀ q, q ∈ heap s → 0 < q) → array_of l [] →
  0 < p → 0 < mnt → 0 < root → 0 < vo → 0 < fo → fs_wf (rooted s p mnt root vo fo l).
Proof.
  intros Hc Hp Hl P0 P1 P2 P3 P4.
  assert (Hroot : ∀ q n, vnodes (rooted s p mnt root vo fo l) !! q = Some n → q = root ∧ n = root_vnode mnt vo fo l).
  { intros q n. simpl. by intros [-> ->]%lookup_singleton_Some. }
  split; simpl.
  - done.
  - intros q Hq. repeat (apply elem_of_union in Hq as [->%elem_of_singleton|Hq]; [done|]). by apply Hp.
  - intros q [n E]. destruct (Hroot q n E) as [-> _]. set_solver.
  - intros q [f E]. by rewrite lookup_empty in E.
  - intros q [f E]. by rewrite lookup_empty in E.
  - intros q n E. destruct (Hroot q n E) as [-> ->]. unfold name_of. simpl. by rewrite (array_of_until _ _ Hl).
  - intros q n r E Hr. destruct (Hroot q n E) as [-> ->]. simpl in Hr. by apply not_elem_of_nil in Hr.
  - intros q n E. destruct (Hroot q n E) as [-> ->]. constructor.
  - intros q n E. destruct (Hroot q n E) as [-> ->]. exists (mk_mount root p 0), (root_vnode mnt vo fo l), tmpfs_vops.
    simpl. by rewrite !lookup_singleton_eq.
  - exists (mk_mount root p 0). simpl. by rewrite !lookup_singleton_eq.
Qed.

(** C37: [tmpfs_init] on an empty system with room for its five objects registers
    the file system and mounts an empty root directory on it: the invariant
    holds, and the path / resolves to the root. *)
Theorem tmpfs_init_correct s :
  fs_blank s → fs_room s 5 →
  ∃ root d s', tmpfs_init s = Ok (tt, s') ∧ fs_wf s' ∧ f_cpu s' = f_cpu s ∧
    vnodes s' !! root = Some d ∧ on_tmpfs s' d ∧ v_type d = DIR ∧ children d = [] ∧
    resolve s' (chars "/") = Some (W_found root 0 []).
Proof.
  intros Hb Hr. destruct (tmpfs_init_run s Hb Hr) as (p & mnt & root & vo & fo & l & Hrun & Hl & P0 & P1 & P2 & P3 & P4).
  exists root, (root_vnode mnt vo fo l), (rooted s p mnt root vo fo l). split; [done|]. split; [apply rooted_wf; [apply Hb|apply Hb|done..]|].
  split; [done|]. split; [by apply lookup_singleton_eq|]. split_and!; try done.
  - split; [by apply lookup_singleton_eq|]. exists (mk_mount root p 0), (root_vnode mnt vo fo l). simpl. by rewrite !lookup_singleton_eq.
  - unfold resolve, path_start. assert (E : components (chars "/") = [[]; []]) by by vm_compute. rewrite E. simpl.
    rewrite lookup_singleton_eq. simpl. by rewrite lookup_singleton_eq.
Qed.
End Init.

(** A concrete heap: addresses in increasing order. *)
#[local] Lemma above_choice X : KList.above X = 0 ∨ 0 < KList.above X ∧ KList.above X ∉ X.
Proof. right. split; [pose proof (KList.above_pos (elements X)); unfold KList.above; lia|apply (KList.fresh_addr_new (NodeAlloc := KList.above_alloc))]. Qed.

#[local] Lemma replicate_len (n : Z) (x : Z) : 0 ≤ n → length (replicate (Z.to_nat n) x) = Z.to_nat n.
Proof. intros _. apply length_replicate. Qed.

Definition heap0 : FsHeap := {|
  new_addr := KList.above;
  new_addr_ok := above_choice;
  junk_vnode := mk_vnode 0 0 0 [] true 9 0 LINK (replicate 256 7) 9 D_null;
  junk_vnode_name := eq_refl;
  junk_ctx := mk_strtok (replicate 256 7) 5 5;
  junk_ctx_str := eq_refl;
  junk_name := replicate 256 7;
  junk_name_length := eq_refl;
  junk_bytes := replicate 4096 7;
  junk_bytes_length := length_replicate 4096 7;
  junk_buf := λ n, replicate (Z.to_nat n) 7;
  junk_buf_length := λ n, replicate_len n 7;
  junk_ptr := 0;
|}.

Definition drivers0 : Drivers :=
  @Build_Drivers (λ _ _ _ _, ub) (λ _ _ _, ub) (λ _ _ _ _, ub) (λ _ _ _, ub) (λ _ _ _ _, ub) (λ _ _ _ _ _, ub) (λ _ _, ub).

Definition fs_none : fs :=
  mk_fs (mk_cpu 0 false []) ∅ ∅ ∅ ∅ ∅ ∅ ∅ ∅ [] 0 3 (replicate 16 0) 0 ∅ ∅ (mk_fat32 0 0 0 0 0 0 0 0 [] 0).

Lemma heap0_room s k : fs_room (H := heap0) s k.
Proof. intros X _ _. apply (KList.fresh_addr_nonnull (NodeAlloc := KList.above_alloc)). Qed.
