(* ===== verification/TmpfsProps.v ===== *)
(** * Memory file system: file contents

    Reading, writing and seeking on an open file, against the sequence of
    bytes the file holds. *)

From S2P Require Import Prelude Cpu Str StrThm VfsData Tmpfs VfsInv.

(** An open handle [p] on a tmpfs file with contents [c]: [f], [n], [b] and
    [l] are the handle, the vnode, and the array with the data. *)
Record tmp_file (s : fs) (p : Z) (f : file) (n : vnode) (b : Z) (l c : list Z) : Prop := mk_tmp_file {
  tf_file : files s !! p = Some f;
  tf_vnode : vnodes s !! fl_vnode f = Some n;
  tf_ptr : internal n = D_at b 0;
  tf_block : blocks s !! b = Some l;
  tf_length : length l = Z.to_nat MAX_FILE_SZ;
  tf_size : 0 ≤ file_size n ≤ MAX_FILE_SZ;
  tf_content : c = take (Z.to_nat (file_size n)) l;
}.

(** The file with [buf] written over its contents from [pos] on. *)
Definition overwrite (c : list Z) (pos : nat) (buf : list Z) : list Z :=
  take pos c ++ buf ++ drop (pos + length buf) c.

Definition written (s : fs) p f n b l (pos w : Z) (buf : list Z) : fs :=
  set_files (<[p := with_pos (pos + w) f]> (files s))
    (set_blocks (<[b := overwrite l (Z.to_nat pos) (take (Z.to_nat w) buf)]> (blocks s))
      (set_vnodes (<[fl_vnode f := with_size (Z.max (file_size n) (pos + w)) n]> (vnodes s)) s)).

Lemma u64_id z : 0 ≤ z < 2 ^ 64 → u64 z = z.
Proof. apply u64_small. Qed.

Lemma i64_id z : 0 ≤ z < 2 ^ 63 → i64 z = z.
Proof. intros. unfold i64. rewrite Z.mod_small; lia. Qed.

Lemma with_size_id n : with_size (file_size n) n = n.
Proof. by destruct n. Qed.

Lemma set_vnodes_id s : set_vnodes (vnodes s) s = s.
Proof. by destruct s. Qed.

Lemma set_blocks_id s : set_blocks (blocks s) s = s.
Proof. by destruct s. Qed.

Lemma MAX_FILE_nat : Z.to_nat MAX_FILE_SZ = 4096%nat.
Proof. done. Qed.

Lemma length_overwrite c pos buf : (pos + length buf ≤ length c)%nat → length (overwrite c pos buf) = length c.
Proof. intros. unfold overwrite. rewrite !length_app, length_take, length_drop. lia. Qed.

Lemma overwrite_take (l : list Z) (size pos : nat) (buf : list Z) :
  (pos ≤ size)%nat → (size ≤ length l)%nat →
  take (Nat.max size (pos + length buf)) (overwrite l pos buf) = overwrite (take size l) pos buf.
Proof.
  intros Hp Hs. unfold overwrite. rewrite take_take, Nat.min_l by done. rewrite skipn_firstn_comm.
  rewrite take_app, length_take, Nat.min_l by lia. rewrite take_ge by (rewrite length_take; lia). f_equal.
  rewrite take_app, take_ge by lia. f_equal. f_equal. lia.
Qed.

Section File.
Context (s : fs) (p : Z) (f : file) (n : vnode) (b : Z) (l c : list Z) (Ht : tmp_file s p f n b l c).
Context (Hpos : 0 ≤ f_pos f ≤ file_size n).

Lemma wp_copy_in (t : fs) (pos w : Z) buf (Q : unit → fs → Prop) :
  blocks t = blocks s → 0 ≤ pos → 0 ≤ w → pos + w ≤ MAX_FILE_SZ → w ≤ Z.of_nat (length buf) →
  Q tt (set_blocks (<[b := overwrite l (Z.to_nat pos) (take (Z.to_nat w) buf)]> (blocks s)) t) →
  wp (copy_in (D_at b 0) pos buf w) Q t.
Proof.
  intros Eb H0 H1 H2 H3 HQ. pose proof (tf_length _ _ _ _ _ _ _ Ht) as Hl. pose proof (tf_block _ _ _ _ _ _ _ Ht) as Hb.
  rewrite MAX_FILE_nat in Hl. unfold MAX_FILE_SZ in *.
  assert (Ew : u32 w = w) by (unfold u32; rewrite Z.mod_small; lia). unfold copy_in. rewrite Ew.
  destruct (Z.eqb_spec w 0) as [->|Hw].
  - wp_step. unfold overwrite in HQ. simpl in HQ. rewrite Nat.add_0_r, take_drop, insert_id, <- Eb, set_blocks_id in HQ by done. done.
  - wp_steps. apply (wp_deref _ l); [by rewrite Eb|]. rewrite Z.add_0_l, u64_id by lia.
    wp_step. apply wp_assert; [lia|]. wp_step. apply wp_assert; [lia|]. wp_step. rewrite Eb.
    unfold overwrite in HQ. rewrite length_take in HQ. replace (Z.to_nat (pos + w)) with (Z.to_nat pos + (Z.to_nat w `min` length buf))%nat by lia.
    exact HQ.
Qed.

Lemma tmpfs_write_run buf len :
  0 ≤ len < 2 ^ 63 → len = Z.of_nat (length buf) →
  let w := Z.min len (MAX_FILE_SZ - f_pos f) in
  tmpfs_write p buf len s = Ok (w, written s p f n b l (f_pos f) w buf).
Proof.
  intros Hlen Hb. cbv zeta. pose proof (tf_size _ _ _ _ _ _ _ Ht) as Hs. unfold MAX_FILE_SZ in *.
  set (w := Z.min len (4096 - f_pos f)).
  enough (wp (tmpfs_write p buf len) (λ r t, r = w ∧ t = written s p f n b l (f_pos f) w buf) s) as (? & ? & -> & -> & ->)%wp_run by done.
  unfold tmpfs_write. wp_step. apply (wp_file_get _ f); [apply Ht|]. wp_step. apply (wp_vnode_get _ n); [apply Ht|].
  rewrite (u64_id (f_pos f + len)) by lia. unfold MAX_FILE_SZ.
  assert (Ew : (if 4096 <? f_pos f + len then u64 (4096 - f_pos f) else len) = w).
  { destruct (Z.ltb_spec 4096 (f_pos f + len)); [rewrite u64_id by lia|]; unfold w; lia. }
  rewrite Ew, (u64_id (f_pos f + w)), (tf_ptr _ _ _ _ _ _ _ Ht) by lia.
  assert (Hend : ∀ t, blocks t = blocks s → files t = files s → vnodes t = <[fl_vnode f := with_size (Z.max (file_size n) (f_pos f + w)) n]> (vnodes s) →
    set_vnodes (vnodes t) s = t →
    wp (copy_in (D_at b 0) (f_pos f) buf w ;; file_upd p (with_pos (f_pos f + w)) ;; mret (i64 w))
      (λ r t, r = w ∧ t = written s p f n b l (f_pos f) w buf) t).
  { intros t Eb Ef Ev Et. wp_step. apply wp_copy_in; unfold MAX_FILE_SZ; [done|lia..|].
    wp_step. apply (wp_file_upd _ f); [simpl; rewrite Ef; apply Ht|]. wp_step. rewrite i64_id by lia. split; [done|].
    unfold written. rewrite <- Ef, <- Eb, <- Ev, Et. done. }
  wp_step. destruct (Z.ltb_spec (file_size n) (f_pos f + w)) as [Hlt|Hge].
  - apply (wp_vnode_upd _ n); [apply Ht|]. apply Hend; try done. simpl. by rewrite Z.max_r by lia.
  - wp_step. apply Hend; try done; [|apply set_vnodes_id]. rewrite Z.max_l, with_size_id, insert_id by (lia || apply Ht). done.
Qed.

Lemma written_file buf len :
  0 ≤ len < 2 ^ 63 → len = Z.of_nat (length buf) →
  let w := Z.min len (MAX_FILE_SZ - f_pos f) in
  tmp_file (written s p f n b l (f_pos f) w buf) p (with_pos (f_pos f + w) f)
    (with_size (Z.max (file_size n) (f_pos f + w)) n) b (overwrite l (Z.to_nat (f_pos f)) (take (Z.to_nat w) buf))
    (overwrite c (Z.to_nat (f_pos f)) (take (Z.to_nat w) buf)).
Proof.
  intros Hlen Hb. cbv zeta. destruct Ht as [Hf Hv Hi Hbl Hl Hs Hc]. rewrite MAX_FILE_nat in Hl. unfold MAX_FILE_SZ in *.
  set (w := Z.min len (4096 - f_pos f)).
  assert (Hw : length (take (Z.to_nat w) buf) = Z.to_nat w) by (rewrite length_take; lia).
  split; simpl; try done.
  - by rewrite lookup_insert_eq.
  - by rewrite lookup_insert_eq.
  - by rewrite lookup_insert_eq.
  - rewrite length_overwrite, Hl by (rewrite Hw, Hl; lia). done.
  - unfold MAX_FILE_SZ. lia.
  - rewrite Hc, <- overwrite_take by (rewrite ?Hw; lia). do 2 f_equal. rewrite Hw. lia.
Qed.

Lemma tmpfs_read_run len :
  0 ≤ len < 2 ^ 63 →
  let r := Z.min len (file_size n - f_pos f) in
  tmpfs_read p len s = Ok ((r, take (Z.to_nat r) (drop (Z.to_nat (f_pos f)) c)),
    set_files (<[p := with_pos (f_pos f + r) f]> (files s)) s).
Proof.
  intros Hlen. cbv zeta. pose proof (tf_size _ _ _ _ _ _ _ Ht) as Hs. pose proof (tf_length _ _ _ _ _ _ _ Ht) as Hl.
  rewrite MAX_FILE_nat in Hl. unfold MAX_FILE_SZ in *. set (r := Z.min len (file_size n - f_pos f)).
  assert (Hread : copy_out (D_at b 0) (f_pos f) r s = Ok (take (Z.to_nat r) (drop (Z.to_nat (f_pos f)) c), s)).
  { enough (wp (copy_out (D_at b 0) (f_pos f) r) (λ x t, x = take (Z.to_nat r) (drop (Z.to_nat (f_pos f)) c) ∧ t = s) s)
      as (? & ? & -> & -> & ->)%wp_run by done.
    unfold copy_out. assert (Er : u32 r = r) by (unfold u32; rewrite Z.mod_small; lia). rewrite Er.
    destruct (Z.eqb_spec r 0) as [->|Hr]; [by wp_step|]. wp_steps. apply (wp_deref _ l); [apply Ht|].
    rewrite Z.add_0_l, u64_id by lia. wp_step. apply wp_assert; [lia|]. wp_step. split; [|done].
    rewrite (tf_content _ _ _ _ _ _ _ Ht), skipn_firstn_comm, take_take. f_equal. lia. }
  enough (wp (tmpfs_read p len) (λ x t, x = (r, take (Z.to_nat r) (drop (Z.to_nat (f_pos f)) c)) ∧
    t = set_files (<[p := with_pos (f_pos f + r) f]> (files s)) s) s) as (? & ? & -> & -> & ->)%wp_run by done.
  unfold tmpfs_read. wp_step. apply (wp_file_get _ f); [apply Ht|]. wp_step. apply (wp_vnode_get _ n); [apply Ht|].
  rewrite (u64_id (file_size n - f_pos f)) by lia. fold r. rewrite (tf_ptr _ _ _ _ _ _ _ Ht).
  wp_step. apply (wp_eq _ _ _ _ _ Hread). wp_step. apply (wp_file_upd _ f); [apply Ht|]. wp_step.
  rewrite u64_id, i64_id by lia. done.
Qed.

Lemma tmpfs_seek_set_run offset :
  0 ≤ offset ≤ file_size n →
  tmpfs_lseek64 p offset SEEK_SET s = Ok (0, set_files (<[p := with_pos offset f]> (files s)) s).
Proof.
  intros Ho. pose proof (tf_size _ _ _ _ _ _ _ Ht) as Hs. unfold MAX_FILE_SZ in *.
  unfold tmpfs_lseek64, file_get, vnode_get, mbind, M_bind, get_st. rewrite (tf_file _ _ _ _ _ _ _ Ht). simpl.
  rewrite (tf_vnode _ _ _ _ _ _ _ Ht). simpl. destruct (Z.ltb_spec offset 0); [lia|]. rewrite u64_id by lia.
  destruct (Z.ltb_spec (file_size n) offset); [lia|]. simpl.
  unfold file_upd, file_get, modify, mbind, M_bind, get_st. cbv beta. by rewrite (tf_file _ _ _ _ _ _ _ Ht).
Qed.

(** The same file seen with the handle at another position. *)
Lemma tmp_file_at pos : tmp_file (set_files (<[p := with_pos pos f]> (files s)) s) p (with_pos pos f) n b l c.
Proof. destruct Ht. split; try done. simpl. by rewrite lookup_insert_eq. Qed.
End File.

(** Writing at a position of the contents and reading there gives the bytes. *)
Lemma overwrite_read (c : list Z) (pos : nat) (buf : list Z) :
  (pos ≤ length c)%nat → take (length buf) (drop pos (overwrite c pos buf)) = buf.
Proof.
  intros Hp. unfold overwrite. rewrite drop_app_length' by (rewrite length_take; lia). by rewrite take_app_length.
Qed.

Section File.
Context (s : fs) (p : Z) (f : file) (n : vnode) (b : Z) (l c : list Z).

(** [tmpfs_write] at a position inside the file copies as many bytes as fit
    below the 4096-byte limit over the contents, returns their number,
    advances the position and extends the file when it went past the end.
    No other handle, node or array changes. *)
Theorem tmpfs_write_correct buf :
  tmp_file s p f n b l c → 0 ≤ f_pos f ≤ file_size n → Z.of_nat (length buf) < 2 ^ 63 →
  let w := Z.min (Z.of_nat (length buf)) (MAX_FILE_SZ - f_pos f) in
  ∃ s' l', tmpfs_write p buf (Z.of_nat (length buf)) s = Ok (w, s') ∧
    tmp_file s' p (with_pos (f_pos f + w) f) (with_size (Z.max (file_size n) (f_pos f + w)) n) b l'
      (overwrite c (Z.to_nat (f_pos f)) (take (Z.to_nat w) buf)) ∧
    f_cpu s' = f_cpu s ∧ (∀ q, q ≠ p → files s' !! q = files s !! q) ∧
    (∀ q, q ≠ fl_vnode f → vnodes s' !! q = vnodes s !! q) ∧ ∀ q, q ≠ b → blocks s' !! q = blocks s !! q.
Proof.
  intros Ht Hp Hb. cbv zeta. eexists _, _. split; [by eapply tmpfs_write_run; [..|lia|]|].
  split; [by eapply written_file; [..|lia|]|]. split_and!; [done|..]; intros q Hq; simpl; by rewrite lookup_insert_ne.
Qed.

(** [tmpfs_read] copies out the bytes of the contents from the position on, at
    most to the end of the file, and advances the position; it changes nothing
    else. *)
Theorem tmpfs_read_correct len :
  tmp_file s p f n b l c → 0 ≤ f_pos f ≤ file_size n → 0 ≤ len < 2 ^ 63 →
  let r := Z.min len (file_size n - f_pos f) in
  tmpfs_read p len s = Ok ((r, take (Z.to_nat r) (drop (Z.to_nat (f_pos f)) c)),
    set_files (<[p := with_pos (f_pos f + r) f]> (files s)) s).
Proof. intros Ht Hp Hl. by apply (tmpfs_read_run s p f n b l c). Qed.

(** Where a seek wants to go. *)
Definition seek_target (offset whence : Z) : Z :=
  offset + if whence =? SEEK_SET then 0 else if whence =? SEEK_CUR then f_pos f else file_size n.

(** [tmpfs_lseek64] moves to the target when it lies inside the file and
    refuses everything else with an error, except a target before the start
    of the file counted from its end: the comparison with 0 is made on an
    unsigned number, so the seek succeeds and the position wraps around. *)
Theorem tmpfs_lseek64_correct offset whence :
  tmp_file s p f n b l c → 0 ≤ f_pos f ≤ file_size n → - 2 ^ 63 ≤ offset < 2 ^ 63 - 4096 →
  whence ∈ [SEEK_SET; SEEK_CUR; SEEK_END] →
  let t := seek_target offset whence in
  tmpfs_lseek64 p offset whence s =
    if decide (0 ≤ t ≤ file_size n) then Ok (0, set_files (<[p := with_pos t f]> (files s)) s)
    else if decide (whence = SEEK_END ∧ t < 0) then Ok (0, set_files (<[p := with_pos (t + 2 ^ 64) f]> (files s)) s)
    else Ok (-1, set_fcpu (say_err ("Invalid offset" +:+ crlf) (f_cpu s)) s).
Proof.
  intros Ht Hp Ho Hwh. cbv zeta. pose proof (tf_size _ _ _ _ _ _ _ Ht) as Hs. unfold MAX_FILE_SZ in Hs.
  assert (Hneg : ∀ z, - 2 ^ 64 ≤ z < 0 → u64 z = z + 2 ^ 64).
  { intros z Hz. unfold u64. symmetry. apply (Z.mod_unique _ _ (-1)); lia. }
  assert (Hget : ∀ k : file → vnode → M fs Z, (f ← file_get p; n ← vnode_get (fl_vnode f); k f n) s = k f n s).
  { intros k. unfold file_get, vnode_get, mbind, M_bind, get_st. rewrite (tf_file _ _ _ _ _ _ _ Ht). simpl.
    by rewrite (tf_vnode _ _ _ _ _ _ _ Ht). }
  assert (Hupd : ∀ z, (file_upd p (with_pos z) ;; mret 0) s = Ok (0, set_files (<[p := with_pos z f]> (files s)) s)).
  { intros z. unfold file_upd, file_get, modify, mbind, M_bind, get_st. by rewrite (tf_file _ _ _ _ _ _ _ Ht). }
  unfold tmpfs_lseek64. rewrite Hget. unfold seek_target.
  apply elem_of_cons in Hwh as [->|[->|[->|Hn%not_elem_of_nil]%elem_of_cons]%elem_of_cons]; [..|done]; unfold SEEK_SET, SEEK_CUR, SEEK_END; cbn [Z.eqb Pos.eqb].
  - rewrite Z.add_0_r. destruct (Z.ltb_spec offset 0); cbn [orb].
    + rewrite decide_False, decide_False by lia. done.
    + rewrite u64_id by lia. destruct (Z.ltb_spec (file_size n) offset).
      * rewrite decide_False, decide_False by lia. done.
      * rewrite decide_True by lia. apply Hupd.
  - rewrite (Z.add_comm offset). destruct (Z.lt_ge_cases (f_pos f + offset) 0).
    + rewrite Hneg by lia. rewrite decide_False, decide_False by lia.
      destruct (Z.ltb_spec (f_pos f + offset + 2 ^ 64) 0); [lia|]. by destruct (Z.ltb_spec (file_size n) (f_pos f + offset + 2 ^ 64)); [|lia].
    + rewrite u64_id by lia. destruct (Z.ltb_spec (f_pos f + offset) 0); [lia|]. cbn [orb].
      destruct (Z.ltb_spec (file_size n) (f_pos f + offset)).
      * rewrite decide_False, decide_False by lia. done.
      * rewrite decide_True by lia. apply Hupd.
  - rewrite (Z.add_comm offset). destruct (Z.ltb_spec 0 offset); cbn [orb].
    + rewrite decide_False, decide_False by lia. done.
    + pose proof (u64_range (file_size n + offset)). destruct (Z.ltb_spec (u64 (file_size n + offset)) 0); [lia|].
      destruct (Z.lt_ge_cases (file_size n + offset) 0).
      * rewrite decide_False, decide_True by lia. rewrite Hneg by lia. apply Hupd.
      * rewrite decide_True by lia. rewrite u64_id by lia. apply Hupd.
Qed.

(** After a seek before the start of the file, counted from its end, which
    succeeds, reading even one byte leaves the file's array. *)
Theorem seek_before_start offset len :
  tmp_file s p f n b l c → 0 ≤ f_pos f ≤ file_size n → - 2 ^ 31 ≤ offset < - file_size n → 0 < len < 2 ^ 31 →
  ∃ s', tmpfs_lseek64 p offset SEEK_END s = Ok (0, s') ∧ tmpfs_read p len s' = Ub.
Proof.
  intros Ht Hp Ho Hlen. pose proof (tf_size _ _ _ _ _ _ _ Ht) as Hs. unfold MAX_FILE_SZ in Hs.
  eexists. split.
  - unfold tmpfs_lseek64, file_get, vnode_get, mbind, M_bind, get_st. rewrite (tf_file _ _ _ _ _ _ _ Ht). simpl.
    rewrite (tf_vnode _ _ _ _ _ _ _ Ht). simpl. destruct (Z.ltb_spec 0 offset); [lia|].
    pose proof (u64_range (file_size n + offset)). destruct (Z.ltb_spec (u64 (file_size n + offset)) 0); [lia|].
    unfold file_upd, file_get, modify, mbind, M_bind, get_st. cbn [orb]. cbv beta. by rewrite (tf_file _ _ _ _ _ _ _ Ht).
  - assert (E : u64 (file_size n + offset) = file_size n + offset + 2 ^ 64).
    { unfold u64. symmetry. apply (Z.mod_unique _ _ (-1)); lia. }
    assert (E2 : u64 (file_size n - (file_size n + offset + 2 ^ 64)) = - offset).
    { unfold u64. symmetry. apply (Z.mod_unique _ _ (-1)); lia. }
    assert (Hz : 2 ^ 63 < file_size n + offset + 2 ^ 64 < 2 ^ 64) by lia.
    set (z := file_size n + offset + 2 ^ 64) in *. clearbody z.
    unfold tmpfs_read, file_get, vnode_get, mbind, M_bind, get_st. simpl. rewrite lookup_insert_eq. simpl.
    rewrite (tf_vnode _ _ _ _ _ _ _ Ht). simpl. rewrite E, E2, (tf_ptr _ _ _ _ _ _ _ Ht).
    unfold copy_out. assert (Er : u32 (Z.min len (- offset)) = Z.min len (- offset)) by (unfold u32; rewrite Z.mod_small; lia).
    rewrite Er. destruct (Z.eqb_spec (Z.min len (- offset)) 0); [lia|].
    unfold mbind, M_bind, get_st. simpl. rewrite (tf_block _ _ _ _ _ _ _ Ht). simpl.
    pose proof (tf_length _ _ _ _ _ _ _ Ht) as Hl. rewrite MAX_FILE_nat in Hl.
    rewrite u64_id by lia. by destruct (Z.leb_spec (0 + z + Z.min len (- offset)) (Z.of_nat (length l))); [lia|].
Qed.

(** What was written is read back: after a write, seeking back to where it
    started and reading as many bytes as were written gives these bytes. *)
Theorem tmpfs_write_read_roundtrip buf :
  tmp_file s p f n b l c → 0 ≤ f_pos f ≤ file_size n → Z.of_nat (length buf) < 2 ^ 63 →
  let w := Z.min (Z.of_nat (length buf)) (MAX_FILE_SZ - f_pos f) in
  ∃ s', (k ← tmpfs_write p buf (Z.of_nat (length buf)); tmpfs_lseek64 p (f_pos f) SEEK_SET ;; tmpfs_read p k) s =
    Ok ((w, take (Z.to_nat w) buf), s').
Proof.
  intros Ht Hp Hb. cbv zeta. pose proof (tf_size _ _ _ _ _ _ _ Ht) as Hs.
  pose proof (tmpfs_write_run s p f n b l c Ht Hp buf (Z.of_nat (length buf)) ltac:(lia) eq_refl) as Hrun. cbv zeta in Hrun.
  pose proof (written_file s p f n b l c Ht Hp buf (Z.of_nat (length buf)) ltac:(lia) eq_refl) as Hf. cbv zeta in Hf.
  set (w := Z.min (Z.of_nat (length buf)) (MAX_FILE_SZ - f_pos f)) in *. unfold MAX_FILE_SZ in *.
  rewrite (bind_Ok _ _ _ _ _ Hrun). set (s1 := written s p f n b l (f_pos f) w buf) in *.
  set (f1 := with_pos (f_pos f + w) f) in *. set (n1 := with_size (Z.max (file_size n) (f_pos f + w)) n) in *.
  rewrite (bind_Ok _ _ _ _ _ (tmpfs_seek_set_run s1 p f1 n1 b _ _ Hf (f_pos f) ltac:(simpl; lia))).
  pose proof (tmp_file_at s1 p f1 n1 b _ _ Hf (f_pos f)) as Hf2.
  eexists. rewrite (tmpfs_read_run _ p _ n1 b _ _ Hf2) by (simpl; lia). cbn [f_pos with_pos].
  assert (Er : Z.min w (file_size n1 - f_pos f) = w) by (simpl; lia). rewrite Er. do 3 f_equal.
  assert (Hc : length c = Z.to_nat (file_size n)).
  { rewrite (tf_content _ _ _ _ _ _ _ Ht), length_take, (tf_length _ _ _ _ _ _ _ Ht), MAX_FILE_nat. lia. }
  rewrite <- (overwrite_read c (Z.to_nat (f_pos f)) (take (Z.to_nat w) buf)) at 2 by lia. do 2 f_equal. rewrite length_take. lia.
Qed.
End File.

(** ** A file of three bytes, its handle at position 1 *)

Definition demo_handle : file := mk_file 2 1 0 0 1.
Definition demo_node : vnode := mk_vnode 0 0 0 [] false 0 0 FILE [] 3 (D_at 3 0).
Definition demo_array : list Z := chars "abc" ++ replicate (Z.to_nat 4093) 0.
Definition demo : fs :=
  mk_fs (mk_cpu 0 false []) {[1; 2; 3]} {[2 := demo_node]} ∅ ∅ ∅ {[1 := demo_handle]} ∅ {[3 := demo_array]} [] 0 0 [] 0 ∅ ∅ (mk_fat32 0 0 0 0 0 0 0 0 [] 0).

#[local] Lemma demo_file : tmp_file demo 1 demo_handle demo_node 3 demo_array (chars "abc").
Proof. by split. Qed.

Lemma tmpfs_write_correct_witness :
  ∃ s' l', tmpfs_write 1 (chars "xyz") 3 demo = Ok (3, s') ∧
    tmp_file s' 1 (with_pos 4 demo_handle) (with_size 4 demo_node) 3 l' (chars "axyz").
Proof.
  destruct (tmpfs_write_correct demo 1 demo_handle demo_node 3 demo_array (chars "abc") (chars "xyz") demo_file) as (s' & l' & H1 & H2 & _);
    [simpl; lia..|]. exists s', l'. exact (conj H1 H2).
Defined.

Lemma tmpfs_read_correct_witness : ∃ s', tmpfs_read 1 10 demo = Ok ((2, chars "bc"), s').
Proof. eexists. apply (tmpfs_read_correct demo 1 demo_handle demo_node 3 demo_array (chars "abc") 10 demo_file); simpl; lia. Defined.

Lemma tmpfs_lseek64_correct_witness :
  tmpfs_lseek64 1 (-1) SEEK_END demo = Ok (0, set_files (<[1 := with_pos 2 demo_handle]> (files demo)) demo).
Proof.
  apply (tmpfs_lseek64_correct demo 1 demo_handle demo_node 3 demo_array (chars "abc") (-1) SEEK_END demo_file); [simpl; lia|lia|].
  by right; right; left.
Defined.

Lemma seek_before_start_witness : ∃ s', tmpfs_lseek64 1 (-4) SEEK_END demo = Ok (0, s') ∧ tmpfs_read 1 1 s' = Ub.
Proof. apply (seek_before_start demo 1 demo_handle demo_node 3 demo_array (chars "abc") (-4) 1 demo_file); simpl; lia. Defined.

Lemma tmpfs_write_read_roundtrip_witness :
  ∃ s', (k ← tmpfs_write 1 (chars "xyz") 3; tmpfs_lseek64 1 1 SEEK_SET ;; tmpfs_read 1 k) demo = Ok ((3, chars "xyz"), s').
Proof. apply (tmpfs_write_read_roundtrip demo 1 demo_handle demo_node 3 demo_array (chars "abc") (chars "xyz") demo_file); simpl; lia. Defined.
