(* ===== verification/FileProps.v ===== *)
(** * System calls on files: properties

    The descriptor table of a process and its bitmap: opening and closing
    descriptors, changing the current directory, and a file written and read
    back through its descriptor. *)

From S2P Require Import Prelude Cpu Str StrThm VfsData Tmpfs Vfs File VfsInv VfsPath VfsThm TmpfsProps.

(** ** Lowest set bit *)

Lemma ctz_spec n i x :
  0 ≤ i → (∃ j, i ≤ j < i + Z.of_nat n ∧ Z.testbit x j = true) →
  let r := ctz n i x in i ≤ r < i + Z.of_nat n ∧ Z.testbit x r = true ∧ ∀ k, i ≤ k < r → Z.testbit x k = false.
Proof.
  revert i. induction n as [|n IH]; intros i Hi (j & Hj & Hb); [lia|]. simpl. destruct (Z.testbit x i) eqn:E.
  - split; [lia|]. split; [done|]. intros; lia.
  - destruct (IH (i + 1)) as (H1 & H2 & H3); [lia| |].
    + exists j. split; [|done]. assert (j ≠ i) by congruence. lia.
    + split; [lia|]. split; [done|]. intros k Hk. destruct (decide (k = i)) as [->|]; [done|]. apply H3. lia.
Qed.

(** ** The table and its bitmap *)

(** Bit [i] is set exactly when descriptor [i] is in use. *)
Record fd_wf (s : fs) : Prop := mk_fd_wf {
  fd_len : length (fd_table s) = Z.to_nat MAX_NUM_FD;
  fd_range : 0 ≤ fd_bitmap s < 2 ^ 16;
  fd_bits i f : 0 ≤ i → fd_table s !! Z.to_nat i = Some f → Z.testbit (fd_bitmap s) i = negb (f =? 0);
}.

Lemma u32_lnot_bit b i : 0 ≤ i < 32 → Z.testbit (u32 (Z.lnot b)) i = negb (Z.testbit b i).
Proof. intros Hi. unfold u32. rewrite Z.mod_pow2_bits_low by lia. apply Z.lnot_spec. lia. Qed.

Lemma shl1_64_eq i : 0 ≤ i < 64 → shl1_64 i = 2 ^ i.
Proof.
  intros Hi. unfold shl1_64. rewrite Z.shiftl_1_l. apply u64_small. split; [lia|]. apply pow2_lt. lia.
Qed.

Lemma bitmap_high b i : 0 ≤ b < 2 ^ 16 → 16 ≤ i → Z.testbit b i = false.
Proof.
  intros Hb Hi. replace b with (b mod 2 ^ 16) by (rewrite Z.mod_small; lia). apply Z.mod_pow2_bits_high. lia.
Qed.

(** The bitmap after taking and after giving back descriptor [i]. *)
Definition take_bit (b i : Z) : Z := u16 (Z.lor b (shl1_64 i)).
Definition drop_bit (b i : Z) : Z := u16 (Z.land b (u64 (Z.lnot (shl1_64 i)))).

Lemma u16_range z : 0 ≤ u16 z < 2 ^ 16.
Proof. unfold u16. apply Z.mod_pos_bound. lia. Qed.

Lemma take_bit_spec b i k : 0 ≤ i < 16 → 0 ≤ k < 16 → Z.testbit (take_bit b i) k = Z.testbit b k || (k =? i).
Proof.
  intros Hi Hk. unfold take_bit, u16. rewrite Z.mod_pow2_bits_low, Z.lor_spec, shl1_64_eq by lia. f_equal.
  rewrite Z.pow2_bits_eqb by lia. apply Z.eqb_sym.
Qed.

Lemma drop_bit_spec b i k : 0 ≤ i < 16 → 0 ≤ k < 16 → Z.testbit (drop_bit b i) k = Z.testbit b k && negb (k =? i).
Proof.
  intros Hi Hk. unfold drop_bit, u16. rewrite Z.mod_pow2_bits_low, Z.land_spec, u64_testbit, Z.lnot_spec, shl1_64_eq by lia.
  rewrite Z.pow2_bits_eqb, (Z.eqb_sym i) by lia. by destruct (Z.ltb_spec k 64); [|lia].
Qed.

Lemma drop_take b i : 0 ≤ b < 2 ^ 16 → 0 ≤ i < 16 → Z.testbit b i = false → drop_bit (take_bit b i) i = b.
Proof.
  intros Hb Hi Hbit. apply Z.bits_inj'. intros k Hk. destruct (Z.lt_ge_cases k 16).
  - rewrite drop_bit_spec, take_bit_spec by lia. destruct (Z.eqb_spec k i) as [->|]; [by rewrite Hbit|].
    by rewrite orb_false_r, andb_true_r.
  - rewrite (bitmap_high b), bitmap_high by (done || apply u16_range). done.
Qed.

(** The first descriptor that is free, counted over all 32 bits. *)
Lemma lowest_free s :
  fd_wf s → let i := ctz 32 0 (u32 (Z.lnot (fd_bitmap s))) in
  0 ≤ i ≤ 16 ∧ Z.testbit (fd_bitmap s) i = false ∧ ∀ k, 0 ≤ k < i → Z.testbit (fd_bitmap s) k = true.
Proof.
  intros [_ Hr _]. cbv zeta. destruct (ctz_spec 32 0 (u32 (Z.lnot (fd_bitmap s)))) as (H1 & H2 & H3); [lia| |].
  - exists 16. split; [lia|]. rewrite u32_lnot_bit, bitmap_high by lia. done.
  - rewrite u32_lnot_bit in H2 by lia. apply negb_true_iff in H2.
    assert (Hle : ctz 32 0 (u32 (Z.lnot (fd_bitmap s))) ≤ 16).
    { destruct (Z.le_gt_cases (ctz 32 0 (u32 (Z.lnot (fd_bitmap s)))) 16); [done|]. specialize (H3 16 ltac:(lia)).
      rewrite u32_lnot_bit, bitmap_high in H3 by lia. done. }
    split; [lia|]. split; [done|]. intros k Hk. specialize (H3 k Hk). rewrite u32_lnot_bit in H3 by lia. by apply negb_false_iff.
Qed.

(** ** Invariants under the operations *)

Lemma fd_wf_same s t : fd_table t = fd_table s → fd_bitmap t = fd_bitmap s → fd_wf s → fd_wf t.
Proof. intros E1 E2 [H1 H2 H3]. split; [by rewrite E1|by rewrite E2|]. intros i f. rewrite E1, E2. apply H3. Qed.

Lemma fd_wf_set s fd p b :
  fd_wf s → 0 ≤ fd < 16 → 0 ≤ b < 2 ^ 16 →
  (∀ k, 0 ≤ k < 16 → Z.testbit b k = if decide (k = fd) then negb (p =? 0) else Z.testbit (fd_bitmap s) k) →
  fd_wf (set_fds (<[Z.to_nat fd := p]> (fd_table s)) b s).
Proof.
  intros [H1 H2 H3] Hfd Hb Hbits. split; simpl; [by rewrite length_insert|done|].
  intros i f Hi E. assert (Hlt : i < 16).
  { apply lookup_lt_Some in E. rewrite length_insert, H1 in E. unfold MAX_NUM_FD in E. lia. }
  rewrite Hbits by lia. apply list_lookup_insert_Some in E as [(E1 & <- & _)|[Hne E]].
  - rewrite decide_True by lia. done.
  - rewrite decide_False by (intros ->; done). by apply H3.
Qed.

(** A descriptor is free when its cell is NULL. *)
Lemma fd_cell s k : fd_wf s → 0 ≤ k < 16 → Z.testbit (fd_bitmap s) k = false → fd_table s !! Z.to_nat k = Some 0.
Proof.
  intros [H1 H2 H3] Hk Hb. destruct (lookup_lt_is_Some_2 (fd_table s) (Z.to_nat k)) as [f E].
  { rewrite H1. unfold MAX_NUM_FD. lia. }
  rewrite E. rewrite (H3 k f) in Hb; [|lia|done]. apply negb_false_iff, Z.eqb_eq in Hb. by subst.
Qed.

Lemma fs_wf_fds s t b : fs_wf s → fs_wf (set_fds t b s).
Proof. intros [H1 H2 H3 H4 H5 H6 H7 H8 H9 H10]. by split. Qed.

Lemma fs_wf_add_file s f x : fs_wf s → 0 < f → fs_wf (set_files (<[f := x]> (files s)) (set_heap ({[f]} ∪ heap s) s)).
Proof.
  intros [H1 H2 H3 H4 H5 H6 H7 H8 H9 H10] Hf. split; simpl; try done.
  - intros p. rewrite elem_of_union, elem_of_singleton. intros [->|Hp]; [done|auto].
  - intros p Hp. apply elem_of_union_r. auto.
  - intros p. destruct (decide (p = f)) as [->|Hne]; [set_solver|]. rewrite lookup_insert_ne by done.
    intros Hp. apply elem_of_union_r. auto.
  - intros p Hp. apply elem_of_union_r. auto.
Qed.

Section Fd.
Context `{!FsHeap, !Drivers}.
Implicit Types s : fs.

(** The lowest free descriptor. *)
Definition free_fd s : Z := ctz 32 0 (u32 (Z.lnot (fd_bitmap s))).

Definition fd_taken s f : fs := set_fds (<[Z.to_nat (free_fd s) := f]> (fd_table s)) (take_bit (fd_bitmap s) (free_fd s)) s.

(** [open], given what [vfs_open] did. *)
Lemma open_run s s1 path flags r f :
  fd_wf s → vfs_open path flags s = Ok ((r, f), s1) → fd_table s1 = fd_table s → fd_bitmap s1 = fd_bitmap s →
  open path flags s = if decide (free_fd s < 16) then Ok (free_fd s, fd_taken s1 (default junk_ptr f)) else Ub.
Proof.
  intros Hfd Hopen Et Eb. unfold open. erewrite bind_Ok by reflexivity.
  pose proof (fd_range s Hfd) as Hr. unfold Z.lnot. rewrite i32_small by lia.
  destruct (Z.eqb_spec (Z.pred (- fd_bitmap s)) 0) as [E|_]; [lia|].
  rewrite (bind_Ok _ _ _ _ _ Hopen). erewrite bind_Ok by reflexivity. cbv zeta.
  change (Z.pred (- fd_bitmap s1)) with (Z.lnot (fd_bitmap s1)). fold (free_fd s1).
  assert (Ef : free_fd s1 = free_fd s) by (unfold free_fd; by rewrite Eb). rewrite Ef.
  destruct (lowest_free s Hfd) as ((Hi0 & Hi16) & Hbit & _). fold (free_fd s) in Hi0, Hi16, Hbit.
  unfold fd_set, fd_get, mbind, M_bind, get_st, assert, modify, mret, M_ret, deref. cbv beta.
  destruct (Z.leb_spec 0 (free_fd s)); [|lia]. rewrite Et.
  case_decide as Hlt.
  - rewrite (fd_cell s (free_fd s) Hfd ltac:(lia) Hbit). unfold fd_taken. rewrite Ef. cbn [mret M_ret fd_table fd_bitmap set_fds]. by rewrite Et.
  - rewrite lookup_ge_None_2; [done|]. rewrite (fd_len s Hfd). unfold MAX_NUM_FD. lia.
Qed.

Lemma free_fd_spec s :
  fd_wf s → 0 ≤ free_fd s ≤ 16 ∧ Z.testbit (fd_bitmap s) (free_fd s) = false ∧
    (∀ k, 0 ≤ k < free_fd s → Z.testbit (fd_bitmap s) k = true) ∧
    (free_fd s < 16 ↔ ∃ k, 0 ≤ k < 16 ∧ fd_table s !! Z.to_nat k = Some 0).
Proof.
  intros Hfd. destruct (lowest_free s Hfd) as (Hi & Hb & Hlow). fold (free_fd s) in *. split; [done|]. split; [done|]. split; [done|].
  split.
  - intros Hlt. exists (free_fd s). split; [lia|]. apply fd_cell; [done|lia|done].
  - intros (k & Hk & E). destruct (Z.lt_ge_cases (free_fd s) 16) as [|Hge]; [done|]. specialize (Hlow k ltac:(lia)).
    rewrite (fd_bits s Hfd k 0) in Hlow; [done|lia|done].
Qed.

Lemma fd_taken_wf s f : fd_wf s → f ≠ 0 → free_fd s < 16 → fd_wf (fd_taken s f).
Proof.
  intros Hfd Hf Hlt. destruct (free_fd_spec s Hfd) as (Hi & Hb & _). apply fd_wf_set; [done|lia|apply u16_range|].
  intros k Hk. rewrite take_bit_spec by lia. apply Z.eqb_neq in Hf. rewrite Hf. case_decide as E.
  - subst k. by rewrite Z.eqb_refl, orb_true_r.
  - apply Z.eqb_neq in E. by rewrite E, orb_false_r.
Qed.

Lemma enable_entered s t :
  cpu_ok (f_cpu s) → f_cpu t = enter (f_cpu s) → f_on_cpu enable_int t = Ok (tt, set_fcpu (f_cpu s) t).
Proof.
  intros Hc E. enough (wp (f_on_cpu enable_int) (λ _ u, u = set_fcpu (f_cpu s) t) t) as ([] & u & -> & ->)%wp_run by done.
  apply wp_f_enable. by rewrite E, leave_enter.
Qed.

Lemma fd_get_run s fd f : 0 ≤ fd → fd_table s !! Z.to_nat fd = Some f → fd_get fd s = Ok (f, s).
Proof. intros Hfd E. unfold fd_get, assert, mbind, M_bind, get_st. destruct (Z.leb_spec 0 fd); [|lia]. by rewrite E. Qed.

Lemma fd_set_run s fd p f :
  0 ≤ fd → fd_table s !! Z.to_nat fd = Some f →
  fd_set fd p s = Ok (tt, set_fds (<[Z.to_nat fd := p]> (fd_table s)) (fd_bitmap s) s).
Proof. intros Hfd E. unfold fd_set. by rewrite (bind_Ok _ _ _ _ _ (fd_get_run s fd f Hfd E)). Qed.

Lemma tmpfs_close_run s f x :
  files s !! f = Some x → fl_refs x = 1 → f ≠ 0 → f ∈ heap s →
  tmpfs_close f s = Ok (0, set_files (delete f (files s)) (set_heap (heap s ∖ {[f]}) s)).
Proof.
  intros Ex Hrefs Hf Hin. apply Z.eqb_neq in Hf.
  enough (wp (tmpfs_close f) (λ r t, r = 0 ∧ t = set_files (delete f (files s)) (set_heap (heap s ∖ {[f]}) s)) s)
    as (r & t & -> & -> & ->)%wp_run by done.
  unfold tmpfs_close. wp_step. apply (wp_file_upd _ x); [done|]. wp_step. eapply wp_file_get; [apply lookup_insert_eq|].
  cbn [fl_refs with_refs]. rewrite Hrefs. change (i32 (1 - 1) =? 0) with true. unfold free_file, f_free. wp_steps. rewrite Hf.
  wp_step. apply wp_assert; [by apply bool_decide_true|]. wp_steps. split; [done|].
  unfold set_files, set_heap. cbn. by rewrite delete_insert_eq.
Qed.

Lemma close_run s f fd x :
  cpu_ok (f_cpu s) → 0 ≤ fd → fd_table s !! Z.to_nat fd = Some f → f ≠ 0 →
  files s !! f = Some x → fopss s !! fl_fops x = Some tmpfs_fops → fl_refs x = 1 → f ∈ heap s →
  close fd s = Ok (0, set_fds (<[Z.to_nat fd := 0]> (fd_table s)) (drop_bit (fd_bitmap s) fd)
    (set_files (delete f (files s)) (set_heap (heap s ∖ {[f]}) s))).
Proof.
  intros Hc Hfd Et Hf Ex Hops Hrefs Hin. pose proof Hf as Hf0. apply Z.eqb_neq in Hf0.
  unfold close. rewrite (bind_Ok _ _ _ _ _ (fd_get_run s fd f Hfd Et)), Hf0.
  rewrite (bind_Ok _ _ _ _ _ (fd_set_run s fd 0 f Hfd Et)). erewrite bind_Ok by reflexivity. cbn [fd_table fd_bitmap set_fds].
  unfold vfs_close. erewrite bind_Ok by reflexivity.
  erewrite bind_Ok by (unfold file_get, mbind, M_bind, get_st, deref; simpl; by rewrite Ex).
  erewrite bind_Ok by (unfold fops_get, mbind, M_bind, get_st, deref; simpl; by rewrite Hops).
  simpl call_close. erewrite bind_Ok by (by apply (tmpfs_close_run _ f x)).
  erewrite bind_Ok by (by apply (enable_entered s)). unfold drop_bit. by destruct s.
Qed.

(** Reading, writing and seeking through a descriptor whose handle is a tmpfs
    file. *)
Section Through.
Context (s : fs) (fd p : Z) (f : file) (n : vnode) (b : Z) (l c : list Z) (Ht : tmp_file s p f n b l c).
Context (Hfd : 0 ≤ fd) (Hcell : fd_table s !! Z.to_nat fd = Some p) (Hops : fopss s !! fl_fops f = Some tmpfs_fops).

Lemma fd_write_run m buf len :
  mounts s !! v_mount n = Some m → Z.land (m_flags m) MS_RDONLY = 0 → write fd buf len s = tmpfs_write p buf len s.
Proof.
  intros Em Hm. unfold write. rewrite (bind_Ok _ _ _ _ _ (fd_get_run s fd p Hfd Hcell)). unfold vfs_write.
  erewrite bind_Ok by (unfold file_get, mbind, M_bind, get_st; by rewrite (tf_file _ _ _ _ _ _ _ Ht)).
  erewrite bind_Ok by (unfold vnode_get, mbind, M_bind, get_st; by rewrite (tf_vnode _ _ _ _ _ _ _ Ht)).
  erewrite bind_Ok by (unfold mount_get, mbind, M_bind, get_st; by rewrite Em).
  rewrite Hm. unfold O_RDONLY. rewrite Z.land_0_r. cbn [Z.eqb negb orb].
  erewrite bind_Ok by (unfold fops_get, mbind, M_bind, get_st; by rewrite Hops). done.
Qed.

Lemma fd_read_run len : Z.land (f_flags f) O_WRONLY = 0 → read fd len s = tmpfs_read p len s.
Proof.
  intros Hfl. unfold read. rewrite (bind_Ok _ _ _ _ _ (fd_get_run s fd p Hfd Hcell)). unfold vfs_read.
  erewrite bind_Ok by (unfold file_get, mbind, M_bind, get_st; by rewrite (tf_file _ _ _ _ _ _ _ Ht)).
  rewrite Hfl. cbn [Z.eqb negb].
  erewrite bind_Ok by (unfold fops_get, mbind, M_bind, get_st; by rewrite Hops). done.
Qed.

Lemma fd_seek_run offset :
  cpu_ok (f_cpu s) → 0 ≤ offset ≤ file_size n →
  lseek64 fd offset SEEK_SET s = Ok (0, set_files (<[p := with_pos offset f]> (files s)) s).
Proof.
  intros Hc Ho. unfold lseek64. rewrite (bind_Ok _ _ _ _ _ (fd_get_run s fd p Hfd Hcell)).
  assert (Hm : tmp_file (masked s) p f n b l c) by by destruct Ht.
  unfold vfs_lseek64. erewrite bind_Ok; [done|]. erewrite bind_Ok by reflexivity.
  erewrite bind_Ok by (unfold file_get, mbind, M_bind, get_st; simpl; by rewrite (tf_file _ _ _ _ _ _ _ Ht)).
  erewrite bind_Ok by (unfold fops_get, mbind, M_bind, get_st; simpl; by rewrite Hops). simpl call_lseek64.
  rewrite (bind_Ok _ _ _ _ _ (tmpfs_seek_set_run (masked s) p f n b l c Hm offset Ho)).
  erewrite bind_Ok by (by apply (enable_entered s)). by destruct s.
Qed.
End Through.
End Fd.

Section Props.
Context `{!FsHeap, !Drivers}.
Implicit Types s : fs.

Lemma opened_new s : fs_wf s → fs_room s 1 →
  0 < new_addr (heap s) ∧ (new_addr (heap s) ∉ heap s) ∧ files s !! new_addr (heap s) = None.
Proof.
  intros Hw Hr. destruct (room_addr s Hr) as [Ha Hn]. split; [done|]. split; [done|].
  apply eq_None_not_Some. intros Hs. by apply Hn, (fw_files _ Hw).
Qed.

Lemma open_found s path y node parent comp n flags :
  fs_wf s → fs_room s 1 → fd_wf s → path_arg path → resolve s path = Some (W_found node parent comp) →
  vnodes s !! node = Some n → fopss s !! v_fops n = Some tmpfs_fops →
  open (path ++ NUL :: y) flags s =
    if decide (free_fd s < 16) then Ok (free_fd s, fd_taken (opened s node n flags) (new_addr (heap s))) else Ub.
Proof.
  intros Hw Hr Hfd Hp Hres En Hf.
  exact (open_run s _ _ flags 0 _ Hfd (vfs_open_found s path y node parent comp n flags Hw Hr Hp Hres En Hf) eq_refl eq_refl).
Qed.

(** [open] of an existing tmpfs file takes the lowest free descriptor for a new
    handle at position 0, and keeps the table, its bitmap and the file system
    well-formed; every other descriptor stays as it was. *)
Theorem open_correct s path y node parent comp n flags :
  fs_wf s → fs_room s 1 → fd_wf s → path_arg path → resolve s path = Some (W_found node parent comp) →
  vnodes s !! node = Some n → fopss s !! v_fops n = Some tmpfs_fops →
  (∃ k, 0 ≤ k < 16 ∧ fd_table s !! Z.to_nat k = Some 0) →
  ∃ fd f s', open (path ++ NUL :: y) flags s = Ok (fd, s') ∧
    0 ≤ fd < 16 ∧ fd_table s !! Z.to_nat fd = Some 0 ∧ (∀ k, 0 ≤ k < fd → fd_table s !! Z.to_nat k ≠ Some 0) ∧
    fd_table s' = <[Z.to_nat fd := f]> (fd_table s) ∧
    files s !! f = None ∧ files s' = <[f := mk_file node 0 (v_fops n) flags 1]> (files s) ∧
    vnodes s' = vnodes s ∧ blocks s' = blocks s ∧ f_cpu s' = f_cpu s ∧ fs_wf s' ∧ fd_wf s'.
Proof.
  intros Hw Hr Hfd Hp Hres En Hf Hfree. destruct (free_fd_spec s Hfd) as (Hi & Hb & Hlow & Hlt). apply Hlt in Hfree.
  pose proof (open_found s path y node parent comp n flags Hw Hr Hfd Hp Hres En Hf) as Ho. rewrite decide_True in Ho by done.
  destruct (opened_new s Hw Hr) as (Ha & Hn & Hnf). exists (free_fd s), (new_addr (heap s)). eexists. split; [exact Ho|].
  split; [lia|]. split; [by apply fd_cell; [|lia|]|]. split.
  { intros k Hk E. specialize (Hlow k Hk). by rewrite (fd_bits s Hfd k 0) in Hlow; [|lia|]. }
  split; [done|]. split; [done|]. split; [done|]. split; [done|]. split; [done|]. split; [done|]. split.
  - by apply fs_wf_fds, (fs_wf_add_file s).
  - apply fd_taken_wf; [by apply (fd_wf_same s)|lia|done].
Qed.

(** When all 16 descriptors are in use, [open] of an existing file does not
    fail: the test of the bitmap's complement for 0 is made on 32 bits, so the
    17th bit counts as a free descriptor and the table is written past its
    end. *)
Theorem open_table_full s path y node parent comp n flags :
  fs_wf s → fs_room s 1 → fd_wf s → path_arg path → resolve s path = Some (W_found node parent comp) →
  vnodes s !! node = Some n → fopss s !! v_fops n = Some tmpfs_fops →
  (∀ k, 0 ≤ k < 16 → fd_table s !! Z.to_nat k ≠ Some 0) →
  open (path ++ NUL :: y) flags s = Ub.
Proof.
  intros Hw Hr Hfd Hp Hres En Hf Hfull. destruct (free_fd_spec s Hfd) as (Hi & Hb & _ & Hlt).
  rewrite (open_found s path y node parent comp n flags) by done. rewrite decide_False; [done|].
  intros (k & Hk & E)%Hlt. by apply (Hfull k).
Qed.

(** Opening an existing file and closing the descriptor again restores the
    state: the handle, the descriptor and its bit in the bitmap are given
    back. *)
Theorem open_close_roundtrip s path y node parent comp n flags :
  fs_wf s → fs_room s 1 → fd_wf s → path_arg path → resolve s path = Some (W_found node parent comp) →
  vnodes s !! node = Some n → fopss s !! v_fops n = Some tmpfs_fops →
  (∃ k, 0 ≤ k < 16 ∧ fd_table s !! Z.to_nat k = Some 0) →
  (fd ← open (path ++ NUL :: y) flags; close fd) s = Ok (0, s).
Proof.
  intros Hw Hr Hfd Hp Hres En Hf Hfree. destruct (free_fd_spec s Hfd) as (Hi & Hb & Hlow & Hlt). apply Hlt in Hfree.
  pose proof (open_found s path y node parent comp n flags Hw Hr Hfd Hp Hres En Hf) as Ho. rewrite decide_True in Ho by done.
  destruct (opened_new s Hw Hr) as (Ha & Hn & Hnf). rewrite (bind_Ok _ _ _ _ _ Ho).
  assert (Hlen : (Z.to_nat (free_fd s) < length (fd_table s))%nat) by (rewrite (fd_len s Hfd); unfold MAX_NUM_FD; lia).
  erewrite (close_run _ (new_addr (heap s)) (free_fd s) (mk_file node 0 (v_fops n) flags 1)).
  2: apply Hw. 2: lia. 2: by apply list_lookup_insert_eq. 2: lia. 2: apply lookup_insert_eq. 2: done. 2: done. 2: set_solver.
  unfold fd_taken. cbn [fd_table fd_bitmap set_fds opened set_files set_heap leaked files heap]. rewrite list_insert_insert_eq.
  change (free_fd (opened s node n flags)) with (free_fd s).
  rewrite drop_take; [|apply Hfd|lia|done]. rewrite list_insert_id by (by apply fd_cell; [|lia|]).
  rewrite delete_insert_id by done. rewrite difference_union_distr_l_L, difference_diag_L, union_empty_l_L, difference_disjoint_L by set_solver.
  by destruct s.
Qed.

(** [chdir]: the current directory becomes the node the path resolves to.  A
    missing directory in the middle of the path is an error.  A missing last
    component is not: the result is 0 and the current directory is NULL, after
    which no relative path resolves. *)
Theorem chdir_correct s path y w :
  fs_wf s → fs_room s 1 → path_arg path → resolve s path = Some w →
  match w with
  | W_found node _ _ => chdir (path ++ NUL :: y) s = Ok (0, set_cur_dir node s)
  | W_missing _ _ => chdir (path ++ NUL :: y) s = Ok (0, set_cur_dir 0 s) ∧
      ∀ c cs rel, components rel = c :: cs → c ≠ [] → resolve (set_cur_dir 0 s) rel = None
  | W_error comp => chdir (path ++ NUL :: y) s =
      Ok (-1, said (str_of comp +:+ ": No such directory" +:+ crlf) (set_heap ({[new_addr (heap s)]} ∪ heap s) s))
  end.
Proof.
  intros Hw Hr [Ht Hl] Hres. pose proof (find_parent_run s path y w Hw Hr Ht Hl Hres) as (r & t & Hrun & Hp)%wp_run.
  unfold chdir. destruct w as [node parent comp|dir comp|comp].
  - destruct Hp as (l & -> & _ & ->). by rewrite (bind_Ok _ _ _ _ _ Hrun).
  - destruct Hp as (l & -> & _ & ->). rewrite (bind_Ok _ _ _ _ _ Hrun). split; [done|]. intros c cs rel E Hc.
    unfold resolve, path_start. rewrite E. rewrite decide_False by done.
    assert (Hnull : vnodes (set_cur_dir 0 s) !! cur_dir (set_cur_dir 0 s) = None) by exact (no_null s Hw).
    case_decide; [by rewrite Hnull|]. case_decide; cbn [mbind option_bind]; by rewrite Hnull.
  - destruct Hp as [-> ->]. by rewrite (bind_Ok _ _ _ _ _ Hrun).
Qed.

(** C12: A file's life on the memory file system: for a path to a missing entry of
    a tmpfs directory whose mount is writable, with a free descriptor and with
    flags that include [O_CREAT] and not [O_WRONLY], [open] creates the file,
    writing at most 4096 bytes through the descriptor, seeking to the start and
    reading as many bytes gives what was written.  (Without a free descriptor
    [open] goes wrong; the heap has room for the new objects.) *)
Theorem create_write_read s path y dir d comp flags m buf :
  fs_wf s → fs_room s 3 → fd_wf s → path_arg path → resolve s path = Some (W_missing dir comp) →
  vnodes s !! dir = Some d → on_tmpfs s d → mounts s !! v_mount d = Some m → Z.land (m_flags m) MS_RDONLY = 0 →
  Z.land flags O_CREAT ≠ 0 → Z.land flags O_WRONLY = 0 → (length buf ≤ 4096)%nat →
  (∃ k, 0 ≤ k < 16 ∧ fd_table s !! Z.to_nat k = Some 0) →
  ∃ s', (fd ← open (path ++ NUL :: y) flags; k ← write fd buf (Z.of_nat (length buf));
         lseek64 fd 0 SEEK_SET ;; read fd k) s = Ok ((Z.of_nat (length buf), buf), s').
Proof.
  intros Hw Hr Hfd Hp Hres Ed Hon Em Hm Hcr Hwr Hbuf Hfree.
  destruct (free_fd_spec s Hfd) as (Hi & Hb & Hlow & Hlt). apply Hlt in Hfree.
  destruct (vfs_open_creates s path y dir d comp flags Hw Hr Hp Hres Hcr Ed Hon) as (l & n & Hal & _ & En & Hont & Hw1 & Hr1 & Ho).
  assert (Hr2 : fs_room s 2) by (eapply room_weaken; [|exact Hr]; lia).
  destruct (created_node s dir d FILE l comp Hw Hr2 Ed Hon Hal) as (n' & En' & _ & Hsz & _ & _ & _ & Hblk).
  destruct (Hblk eq_refl) as (b & Hint & _ & Hbl). rewrite En in En'. injection En' as <-.
  pose proof (created_mount s dir d FILE l n En) as Hmn.
  destruct (created_same s dir d FILE l) as (Emn & _ & _ & _ & _ & _ & _ & _ & Et & Eb & Ec & _).
  set (s1 := created s dir d FILE l) in *. set (node := new_addr (heap s)) in *. set (p := new_addr (heap s1)) in *.
  pose proof (open_run s _ _ flags 0 (Some p) Hfd Ho Et Eb) as Hop. rewrite decide_True in Hop by done.
  rewrite (bind_Ok _ _ _ _ _ Hop). set (s2 := fd_taken (opened s1 node n flags) p) in *.
  assert (Hcell : fd_table s2 !! Z.to_nat (free_fd s) = Some p).
  { change (<[Z.to_nat (free_fd s1) := p]> (fd_table s1) !! Z.to_nat (free_fd s) = Some p).
    assert (E : free_fd s1 = free_fd s) by (unfold free_fd; by rewrite Eb).
    rewrite E, Et. apply list_lookup_insert_eq. rewrite (fd_len s Hfd). unfold MAX_NUM_FD. lia. }
  assert (Hf : tmp_file s2 p (mk_file node 0 (v_fops n) flags 1) n b junk_bytes []).
  { split; try done; [by apply lookup_insert_eq|apply junk_bytes_length|rewrite Hsz; unfold MAX_FILE_SZ; lia|by rewrite Hsz]. }
  assert (Hops : fopss s2 !! v_fops n = Some tmpfs_fops) by apply Hont.
  assert (Emm : mounts s2 !! v_mount n = Some m) by (rewrite Hmn; change (mounts s2) with (mounts s1); by rewrite Emn).
  destruct (free_fd_spec s Hfd) as ((H0fd & _) & _).
  erewrite bind_Ok by (erewrite (fd_write_run s2) by done; by apply (tmpfs_write_run _ _ _ _ _ _ _ Hf); simpl; lia).
  pose proof (written_file _ _ _ _ _ _ _ Hf ltac:(simpl; lia) buf (Z.of_nat (length buf)) ltac:(lia) eq_refl) as Hf3. cbv zeta in Hf3.
  rewrite Z.min_l in * by (simpl; unfold MAX_FILE_SZ; lia). cbn [f_pos] in *.
  erewrite bind_Ok.
  2: { apply (fd_seek_run _ _ _ _ _ _ _ _ Hf3); [done|exact Hcell|done| |simpl; lia].
       change (cpu_ok (f_cpu s1)). rewrite Ec. apply Hw. }
  pose proof (tmp_file_at _ _ _ _ _ _ _ Hf3 0) as Hf4.
  rewrite (fd_read_run _ _ _ _ _ _ _ _ Hf4) by done. eexists.
  rewrite (tmpfs_read_run _ _ _ _ _ _ _ Hf4) by (simpl; lia). cbn [f_pos with_pos file_size with_size].
  rewrite Hsz, Z.add_0_l, Z.max_r, Z.sub_0_r, Z.min_id, Nat2Z.id by lia. do 3 f_equal.
  rewrite firstn_all. by apply (overwrite_read [] 0).
Qed.
End Props.
