(* ===== verification/VfsWitness.v ===== *)
(** * Virtual file system: the properties on a freshly started system

    The state after [tmpfs_init] on a concrete heap, and the theorems of
    VfsProps, VfsMount and FileProps applied to it. *)

From S2P Require Import Prelude Cpu Str StrThm VfsData Tmpfs Vfs File VfsInv VfsPath VfsThm VfsProps VfsMount FileProps TmpfsProps.

#[local] Existing Instances heap0 drivers0.

(** Only the root directory, at address 3. *)
Definition started : fs := rooted fs_none 1 2 3 4 5 (replicate 256 0).

#[local] Lemma started_wf : fs_wf started.
Proof.
  apply rooted_wf; try done. split; [constructor|]. split; [done|]. by exists (replicate 255 0).
Qed.

#[local] Lemma started_fds : fd_wf started.
Proof.
  split; [done|done|]. intros i f Hi E. apply lookup_replicate in E as [-> _]. apply Z.bits_0.
Qed.

#[local] Lemma root_here : vnodes started !! 3 = Some (root_vnode 2 4 5 (replicate 256 0)).
Proof. done. Qed.

#[local] Lemma root_on_tmpfs : on_tmpfs started (root_vnode 2 4 5 (replicate 256 0)).
Proof. split; [done|]. eexists _, _. split_and!; done. Qed.

#[local] Lemma free_here : ∃ k, 0 ≤ k < 16 ∧ fd_table started !! Z.to_nat k = Some 0.
Proof. by exists 0. Qed.

#[local] Lemma path_a : path_arg (chars "/a").
Proof. split; [repeat constructor|simpl; lia]. Qed.

#[local] Lemma path_root : path_arg (chars "/").
Proof. split; [repeat constructor|simpl; lia]. Qed.

#[local] Lemma no_a : resolve started (chars "/a") = Some (W_missing 3 (chars "a")).
Proof. by vm_compute. Qed.

#[local] Lemma the_root : resolve started (chars "/") = Some (W_found 3 0 []).
Proof. by vm_compute. Qed.

Lemma find_parent_vnode_correct_witness :
  ∃ l, array_of l (chars "a") ∧ find_parent_vnode (chars "/a" ++ [NUL]) started = Ok (Some (0, 3, l), started).
Proof. exact (find_parent_vnode_correct started (chars "/a") [] _ started_wf (heap0_room _ _) path_a no_a). Defined.

Lemma vfs_create_correct_witness :
  ∃ node s', vfs_create (chars "/a" ++ [NUL]) FILE started = Ok ((0, Some node), s') ∧ fs_wf s' ∧
    resolve s' (chars "/a") = Some (W_found node 3 (chars "a")).
Proof.
  destruct (vfs_create_correct started (chars "/a") [] 3 _ _ FILE started_wf (heap0_room _ _) path_a no_a root_here root_on_tmpfs)
    as (node & s' & n & H1 & _ & H2 & _ & _ & _ & _ & _ & _ & _ & _ & _ & H3 & _).
  exists node, s'. exact (conj H1 (conj H2 H3)).
Defined.

Lemma vfs_create_rejects_witness :
  vfs_create (chars "/" ++ [NUL]) FILE started = Ok ((-1, None), said ("File exists" +:+ crlf) started) ∧
  vfs_mkdir (chars "/" ++ [NUL]) started = Ok ((-1, None), said ("Directoty exists" +:+ crlf) started).
Proof. exact (vfs_create_rejects started (chars "/") [] _ FILE started_wf (heap0_room _ _) path_root the_root). Defined.

Lemma vfs_open_correct_witness :
  vfs_open (chars "/a" ++ [NUL]) O_RDONLY started = Ok ((-1, None), said ("File not found" +:+ crlf) started).
Proof. exact (vfs_open_correct started (chars "/a") [] _ O_RDONLY started_wf (heap0_room _ _) path_a no_a). Defined.

#[local] Lemma none_blank : fs_blank fs_none.
Proof. by split. Qed.

Lemma tmpfs_init_correct_witness :
  ∃ root d s', tmpfs_init fs_none = Ok (tt, s') ∧ fs_wf s' ∧ f_cpu s' = f_cpu fs_none ∧
    vnodes s' !! root = Some d ∧ on_tmpfs s' d ∧ v_type d = DIR ∧ children d = [] ∧
    resolve s' (chars "/") = Some (W_found root 0 []).
Proof. exact (tmpfs_init_correct fs_none none_blank (heap0_room _ _)). Defined.

Lemma open_correct_witness :
  ∃ f s', open (chars "/" ++ [NUL]) O_RDONLY started = Ok (0, s') ∧ fd_table s' !! 0%nat = Some f ∧ fs_wf s' ∧ fd_wf s'.
Proof.
  destruct (open_correct started (chars "/") [] 3 0 [] _ O_RDONLY started_wf (heap0_room _ _) started_fds path_root the_root root_here eq_refl free_here)
    as (fd & f & s' & Hrun & Hfd & _ & Hlow & Ht & _ & _ & _ & _ & _ & H1 & H2).
  assert (fd = 0) as ->. { destruct (decide (fd = 0)); [done|]. exfalso. by apply (Hlow 0); [lia|]. }
  exists f, s'. rewrite Ht. exact (conj Hrun (conj eq_refl (conj H1 H2))).
Defined.

(** All 16 descriptors in use. *)
Definition crowded : fs := set_fds (replicate 16 9) (2 ^ 16 - 1) started.

#[local] Lemma crowded_fds : fd_wf crowded.
Proof.
  split; [done|by vm_compute|]. intros i f Hi E. pose proof (lookup_lt_Some _ _ _ E) as Hl. apply lookup_replicate in E as [-> _].
  simpl in Hl. change (fd_bitmap crowded) with (Z.ones 16). apply Z.ones_spec_low. lia.
Qed.

Lemma open_table_full_witness : open (chars "/" ++ [NUL]) O_RDONLY crowded = Ub.
Proof.
  apply (open_table_full crowded (chars "/") [] 3 0 [] (root_vnode 2 4 5 (replicate 256 0)) O_RDONLY (fs_wf_fds _ _ _ started_wf)
    (heap0_room _ _) crowded_fds path_root the_root); [done|done|].
  intros k Hk E. by apply lookup_replicate in E as [? _].
Defined.

Lemma open_close_roundtrip_witness : (fd ← open (chars "/" ++ [NUL]) O_RDONLY; close fd) started = Ok (0, started).
Proof.
  exact (open_close_roundtrip started (chars "/") [] 3 0 [] _ O_RDONLY started_wf (heap0_room _ _) started_fds path_root the_root root_here eq_refl free_here).
Defined.

Lemma chdir_correct_witness : chdir (chars "/a" ++ [NUL]) started = Ok (0, set_cur_dir 0 started).
Proof. exact (proj1 (chdir_correct started (chars "/a") [] _ started_wf (heap0_room _ _) path_a no_a)). Defined.

Lemma create_write_read_witness :
  ∃ s', (fd ← open (chars "/a" ++ [NUL]) O_CREAT; k ← write fd (chars "hello") 5;
         lseek64 fd 0 SEEK_SET ;; read fd k) started = Ok ((5, chars "hello"), s').
Proof.
  apply (create_write_read started (chars "/a") [] 3 _ _ O_CREAT (mk_mount 3 1 0) (chars "hello") started_wf (heap0_room _ _)
    started_fds path_a no_a root_here root_on_tmpfs); [done..|simpl; lia|exact free_here].
Defined.
