(* ===== verification/Dev.v ===== *)
(** * Device files (src/kernel/dev.c, and get_fb of mailbox.c)

    [mknod] creates a file whose operations are a copy of its file system's
    with the device's functions in them.  The graphics processor that answers
    the mailbox request is a parameter: from the words of the request to
    whether it succeeded and the words it left.  The frame buffer is the byte
    array at its kernel address. *)

From S2P Require Import Prelude Cpu Buddy Str VfsData Tmpfs Vfs.

Definition DEVDIR : list Z := lit "/dev".

Record framebuffer_info := mk_fbinfo { width : Z; height : Z; pitch : Z; isrgb : Z }.
Definition fb_info0 : framebuffer_info := mk_fbinfo 1024 768 4096 1.

(** The 16 bytes [memcpy] copies. *)
Definition fb_bytes (i : framebuffer_info) : list Z :=
  bytes_of_u32 (width i) ++ bytes_of_u32 (height i) ++ bytes_of_u32 (pitch i) ++ bytes_of_u32 (isrgb i).

(** What [get_fb] leaves: [fb_addr], [fb_info] and the size. *)
Record framebuffer := mk_fb { fb_addr : Z; fb_info : framebuffer_info; fb_size : Z }.

Section Dev.
Context `{!FsHeap, !Drivers}.

(** [junk] is the last word of the array, which is not set. *)
Definition fb_request (junk : Z) : list Z :=
  [35 * 4; 0;
   0x48003; 8; 8; 1024; 768;
   0x48004; 8; 8; 1024; 768;
   0x48009; 8; 8; 0; 0;
   0x48005; 4; 4; 32;
   0x48006; 4; 4; 1;
   0x40001; 8; 8; 4096; 0;
   0x40008; 4; 4; 0;
   0; junk].

Context (mbox_call : list Z → bool * list Z) (junk : Z).

Definition get_fb : M fs framebuffer :=
  let '(ok, mbox) := mbox_call (fb_request junk) in
  depth ← deref (mbox !! 20%nat);
  pointer ← deref (mbox !! 28%nat);
  size ← deref (mbox !! 29%nat);
  if ok && (depth =? 32) && negb (pointer =? 0) then
    w ← deref (mbox !! 5%nat);
    h ← deref (mbox !! 6%nat);
    p ← deref (mbox !! 33%nat);
    rgb ← deref (mbox !! 24%nat);
    mret (mk_fb (Z.land pointer 0x3fffffff) (mk_fbinfo w h p rgb) size)
  else
    f_on_cpu (printf ("Unable to set screen resolution to 1024x768x32" +:+ crlf)) ;;
    mret (mk_fb pointer fb_info0 size).

(** ** Drivers *)

Definition fops_upd (node : Z) (f : file_operations → file_operations) : M fs unit :=
  n ← vnode_get node;
  fo ← fops_get (v_fops n);
  modify (λ s, set_fopss (<[v_fops n := f fo]> (fopss s)) s).

Definition uart_driver (node : Z) : M fs unit :=
  fops_upd node (λ fo, mk_fops (fo_write fo) (Some F_uart_read) (fo_open fo) (fo_close fo) (fo_lseek64 fo) (fo_ioctl fo)) ;;
  fops_upd node (λ fo, mk_fops (Some F_uart_write) (fo_read fo) (fo_open fo) (fo_close fo) (fo_lseek64 fo) (fo_ioctl fo)).

(** Returns the globals that [get_fb] set. *)
Definition framebuffer_driver (node : Z) : M fs framebuffer :=
  fops_upd node (λ fo, mk_fops (fo_write fo) None (fo_open fo) (fo_close fo) (fo_lseek64 fo) (fo_ioctl fo)) ;;
  fops_upd node (λ fo, mk_fops (Some F_fb_write) (fo_read fo) (fo_open fo) (fo_close fo) (fo_lseek64 fo) (fo_ioctl fo)) ;;
  fops_upd node (λ fo, mk_fops (fo_write fo) (fo_read fo) (fo_open fo) (fo_close fo) (fo_lseek64 fo) (Some F_fb_ioctl)) ;;
  fb ← get_fb;
  vnode_upd node (with_size (fb_size fb)) ;;
  mret fb.

(** [dev_list]: the paths and drivers; [dev] is the index. *)
Definition dev_list (dev : Z) : option (list Z * (Z → M fs (option framebuffer))) :=
  if dev =? 0 then Some (lit "/dev/uart", λ n, uart_driver n ;; mret None)
  else if dev =? 1 then Some (lit "/dev/framebuffer", λ n, fb ← framebuffer_driver n; mret (Some fb))
  else None.

Definition mknod (pathname : list Z) (mode dev : Z) : M fs (Z * option framebuffer) :=
  f_ops ← f_malloc;
  '(r, node) ← vfs_create pathname DEV;
  if r <? 0 then f_free f_ops ;; mret (-1, None)
  else
    node ← deref node;
    n ← vnode_get node;
    fo ← fops_get (v_fops n);
    assert (negb (f_ops =? 0)) ;;
    modify (λ s, set_fopss (<[f_ops := fo]> (fopss s)) s) ;;
    vnode_upd node (λ n, with_ops (v_ops n) f_ops n) ;;
    '(_, driver) ← deref (dev_list dev);
    fb ← driver node;
    mret (0, fb).

Definition device_file_init : M fs (option framebuffer) :=
  '(r, _) ← vfs_mkdir DEVDIR;
  if r <? 0 then mret None
  else
    '(path, _) ← deref (dev_list 0);
    '(r, _) ← mknod path 0 0;
    if r <? 0 then mret None
    else
      '(path, _) ← deref (dev_list 1);
      '(_, fb) ← mknod path 0 1;
      mret fb.
End Dev.

(** ** Operations *)

Section Fb.
Context `{!FsHeap, !Drivers}.
Context (fb : framebuffer).

(** The array of the frame buffer. *)
Definition fb_mem : data_ptr := D_at (p2v_trans_kernel (fb_addr fb)) 0.

(** [data] is the address of the caller's array. *)
Definition fb_ioctl (file request data : Z) : M fs Z :=
  (if request =? 0 then copy_in (D_at data 0) 0 (fb_bytes (fb_info fb)) 16 else mret tt) ;;
  mret 0.

Definition fb_write (file : Z) (buf : list Z) (len : Z) : M fs Z :=
  f ← file_get file;
  n ← vnode_get (fl_vnode f);
  let write_sz := if file_size n <? u64 (f_pos f + len) then u64 (file_size n - f_pos f) else len in
  copy_in fb_mem (f_pos f) buf write_sz ;;
  file_upd file (λ f, with_pos (u64 (f_pos f + write_sz)) f) ;;
  mret write_sz.

Definition ioctl (fd request data : Z) : M fs Z :=
  s ← get_st;
  f ← deref (if 0 <=? fd then fd_table s !! Z.to_nat fd else None);
  vfs_ioctl f request data.
End Fb.

(** The operation tables with the frame buffer's functions in them. *)
Definition dev_drivers `{!FsHeap} (fb : framebuffer) (other : Drivers) : Drivers := {|
  drv_create := drv_create (Drivers := other);
  drv_mkdir := drv_mkdir;
  drv_write g := match g with F_fb_write => fb_write fb | _ => drv_write g end;
  drv_read := drv_read;
  drv_ioctl g := match g with F_fb_ioctl => fb_ioctl fb | _ => drv_ioctl g end;
  drv_setup_mount := drv_setup_mount;
  drv_uart_write := drv_uart_write;
|}.
