(* ===== verification/DevThm.v ===== *)
(** * Theorems about device files *)

From S2P Require Import Prelude Cpu Buddy Str StrThm VfsData Tmpfs Vfs VfsInv VfsPath VfsThm VfsMount VfsWitness Dev.

(** ** What path resolution depends on *)

Definition node_key (n : vnode) : list Z * bool * list Z * Z := (children n, hidden n, name_of n, v_parent n).

Section Same.
Context (s t : fs).
Hypothesis Hkey : ∀ p, node_key <$> vnodes s !! p = node_key <$> vnodes t !! p.

Lemma same_child nm p : child_named s nm p = child_named t nm p.
Proof.
  unfold child_named. specialize (Hkey p). destruct (vnodes s !! p), (vnodes t !! p); try done. simpl in Hkey.
  injection Hkey as E1 E2 E3 E4. by rewrite E2, E3.
Qed.

Lemma same_lookup d nm : lookup_in s d nm = lookup_in t d nm.
Proof.
  unfold lookup_in. pose proof (Hkey d) as Hd. destruct (vnodes s !! d) as [v|], (vnodes t !! d) as [v0|]; try done. simpl in Hd.
  injection Hd as E1 _ _ _. rewrite E1. clear E1. induction (children v0) as [|p l IH]; cbn [List.find]; [done|]. by rewrite same_child, IH.
Qed.

Lemma same_walk cur parent name cs : walk s cur parent name cs = walk t cur parent name cs.
Proof.
  revert cur parent name. induction cs as [|c cs IH]; intros cur parent name; simpl; [done|].
  rewrite same_lookup. case_decide; [done|]. destruct (lookup_in t cur c); [apply IH|done].
Qed.

Lemma same_resolve path : mounts s = mounts t → rootfs s = rootfs t → cur_dir s = cur_dir t → resolve s path = resolve t path.
Proof.
  intros E1 E2 E3. unfold resolve. assert (path_start s path = path_start t path) as ->.
  { unfold path_start. rewrite E1, E2, E3. pose proof (Hkey (cur_dir t)) as Hd.
    destruct (components path) as [|c cs]; [done|]. destruct (decide (c = [])); [done|]. destruct (decide (c = chars "..")); [|done].
    destruct (vnodes s !! cur_dir t), (vnodes t !! cur_dir t); try done. simpl in Hd. injection Hd as _ _ _ E4. simpl. by rewrite E4. }
  destruct (path_start t path) as [[[a c] cs]|]; [|done]. simpl. pose proof (Hkey a) as Ha.
  destruct (vnodes s !! a), (vnodes t !! a); try done. simpl in *. injection Ha as _ _ _ E4. by rewrite same_walk, E4.
Qed.
End Same.

(** ** The frame buffer *)

Section Fb.
Context (fb : framebuffer) (s : fs) (fd : Z) (f : file) (n : vnode) (mem buf : list Z).
Hypothesis Hf : files s !! fd = Some f.
Hypothesis Hn : vnodes s !! fl_vnode f = Some n.
Hypothesis Hmem : blocks s !! p2v_trans_kernel (fb_addr fb) = Some mem.
Hypothesis Hsize : file_size n = Z.of_nat (length mem).
Hypothesis Hlen32 : Z.of_nat (length mem) < 2 ^ 32.

(** [fb_write] stays inside the frame buffer: it copies as many bytes as fit
    behind the position, leaves the rest of the memory alone, advances the
    position by that number and returns it; the position never leaves the
    buffer. *)
Theorem fb_write_correct : 0 ≤ f_pos f ≤ file_size n → Z.of_nat (length buf) < 2 ^ 63 →
  let pos := Z.to_nat (f_pos f) in
  let k := Nat.min (length buf) (length mem - pos) in
  fb_write fb fd buf (Z.of_nat (length buf)) s =
    Ok (Z.of_nat k,
        set_files (<[fd := with_pos (Z.of_nat (pos + k)) f]> (files s))
          (set_blocks (if decide (k = 0%nat) then blocks s
                       else <[p2v_trans_kernel (fb_addr fb) := take pos mem ++ take k buf ++ drop (pos + k) mem]> (blocks s)) s)) ∧
  Z.of_nat (pos + k) ≤ file_size n ∧
  length (take pos mem ++ take k buf ++ drop (pos + k) mem) = length mem.
Proof.
  intros Hpos Hbuf pos k.
  assert (Hw : (if file_size n <? u64 (f_pos f + Z.of_nat (length buf)) then u64 (file_size n - f_pos f) else Z.of_nat (length buf)) = Z.of_nat k).
  { rewrite !u64_small by lia. subst k pos. destruct (Z.ltb_spec (file_size n) (f_pos f + Z.of_nat (length buf))); lia. }
  assert (Hk : (pos + k ≤ length mem)%nat) by (subst k pos; lia).
  split; [|split; [lia|]].
  2:{ rewrite !length_app, !length_take, length_drop. subst k. lia. }
  apply wp_exact. unfold fb_write. wp_step. unfold file_get. wp_steps. apply (wp_deref _ f); [done|].
  wp_step. unfold vnode_get. wp_steps. apply (wp_deref _ n); [done|]. rewrite Hw. wp_step.
  unfold copy_in, fb_mem, u32. rewrite Z.mod_small by lia. change (u64 (0 + f_pos f)) with (u64 (f_pos f)).
  rewrite u64_small by lia. destruct (Z.eqb_spec (Z.of_nat k) 0) as [Hk0|Hk0].
  - rewrite decide_True by lia. wp_steps. unfold file_upd, file_get. wp_steps. apply (wp_deref _ f); [done|]. wp_steps.
    split; [done|]. rewrite u64_small by lia. replace (Z.of_nat (pos + k)) with (f_pos f + Z.of_nat k) by lia. by destruct s.
  - rewrite decide_False by lia. wp_steps. apply (wp_deref _ mem); [done|]. wp_step. apply wp_assert; [apply Z.leb_le; lia|].
    wp_step. apply wp_assert; [apply Z.leb_le; lia|]. wp_steps. unfold file_upd, file_get. wp_steps. apply (wp_deref _ f); [done|].
    wp_steps. split; [done|]. rewrite u64_small, Nat2Z.id by lia. replace (Z.of_nat (pos + k)) with (f_pos f + Z.of_nat k) by lia.
    replace (Z.to_nat (f_pos f + Z.of_nat k)) with (pos + k)%nat by lia. done.
Qed.
End Fb.

(** ** Creation *)

(** What [get_fb] makes of the answer. *)
Definition fb_of (ans : bool * list Z) : framebuffer :=
  let w i := nth i (snd ans) 0 in
  if fst ans && (w 20%nat =? 32) && negb (w 28%nat =? 0)
  then mk_fb (Z.land (w 28%nat) 0x3fffffff) (mk_fbinfo (w 5%nat) (w 6%nat) (w 33%nat) (w 24%nat)) (w 29%nat)
  else mk_fb (w 28%nat) fb_info0 (w 29%nat).

(** The operations of the two devices on a tmpfs. *)
Definition dev_ops (dev : Z) : file_operations :=
  let t := tmpfs_fops in
  if dev =? 0 then mk_fops (Some F_uart_write) (Some F_uart_read) (fo_open t) (fo_close t) (fo_lseek64 t) (fo_ioctl t)
  else mk_fops (Some F_fb_write) None (fo_open t) (fo_close t) (fo_lseek64 t) (Some F_fb_ioctl).

Section Mknod.
Context `{!FsHeap, !Drivers} (mbox_call : list Z → bool * list Z) (junk : Z).
Let ans := mbox_call (fb_request junk).

Lemma get_fb_run (t : fs) : length (snd ans) = 36%nat → ∃ c, get_fb mbox_call junk t = Ok (fb_of ans, set_fcpu c t).
Proof.
  intros Hl. unfold get_fb. fold ans. destruct ans as [ok m]. simpl in Hl.
  assert (Hw : ∀ i, (i < 36)%nat → m !! i = Some (nth i m 0)) by (intros i Hi; destruct (lookup_lt_is_Some_2 m i) as [v E]; [lia|by rewrite nth_lookup, E]).
  assert (Hd : ∀ i (k : Z → M fs framebuffer), (i < 36)%nat → (deref (m !! i) ≫= k) t = k (nth i m 0) t)
    by (intros i k Hi; by rewrite Hw).
  rewrite !Hd by lia. unfold fb_of. cbn [fst snd]. case_match.
  - exists (f_cpu t). rewrite !Hd by lia. by destruct t.
  - by eexists.
Qed.

Lemma fops_upd_run node (t : fs) n fo f : vnodes t !! node = Some n → fopss t !! v_fops n = Some fo →
  fops_upd node f t = Ok (tt, set_fopss (<[v_fops n := f fo]> (fopss t)) t).
Proof.
  intros Hn Hfo. unfold fops_upd, vnode_get, fops_get, mbind, M_bind, get_st. rewrite Hn. simpl. by rewrite Hfo.
Qed.

(** A driver on a node with its own copy of the tmpfs operations. *)
Lemma driver_run dev node (t : fs) n : 0 ≤ dev ≤ 1 → length (snd ans) = 36%nat →
  vnodes t !! node = Some n → fopss t !! v_fops n = Some tmpfs_fops →
  ∃ path driver c, dev_list mbox_call junk dev = Some (path, driver) ∧
    driver node t = Ok (if dev =? 0 then None else Some (fb_of ans),
      set_fcpu c (set_vnodes (if dev =? 0 then vnodes t else <[node := with_size (fb_size (fb_of ans)) n]> (vnodes t))
        (set_fopss (<[v_fops n := dev_ops dev]> (fopss t)) t))).
Proof.
  intros Hdev Hl Hn Hfo. assert (dev = 0 ∨ dev = 1) as [-> | ->] by lia.
  - eexists _, _, (f_cpu t). split; [done|]. unfold uart_driver.
    erewrite bind_Ok. 2:{ erewrite bind_Ok by by apply fops_upd_run. apply fops_upd_run; [done|]. apply lookup_insert_eq. }
    cbn [fopss set_fopss]. rewrite insert_insert_eq. by destruct t.
  - pose proof get_fb_run as Hg. eexists _, _. set (t1 := set_fopss (<[v_fops n := dev_ops 1]> (fopss t)) t).
    destruct (Hg t1 Hl) as [c Hfb]. exists c. split; [done|]. cbv beta. erewrite bind_Ok; [done|]. unfold framebuffer_driver.
    erewrite bind_Ok by by apply fops_upd_run. erewrite bind_Ok by (apply fops_upd_run; [done|apply lookup_insert_eq]).
    erewrite bind_Ok by (apply fops_upd_run; [done|apply lookup_insert_eq]). cbn [fopss set_fopss]. rewrite !insert_insert_eq.
    erewrite bind_Ok by exact Hfb. erewrite bind_Ok; [done|]. unfold vnode_upd, vnode_get, mbind, M_bind, get_st. simpl. by rewrite Hn.
Qed.

(** C30: [mknod] of a path to a missing entry of a tmpfs directory, for one of the
    two devices there are (0 the UART, 1 the frame buffer; the code does not
    check the number, and calls what lies behind [dev_list] for another one),
    gives a device file with its own table of operations: the device's
    functions, and those of the file system for the others; the tables of all
    other files are unchanged; the path leads to the new file; the frame
    buffer's file has the size that was granted by the answer to its request. *)
Theorem mknod_correct s path y dir d comp mode dev :
  fs_wf s → fs_room s 3 → path_arg path → resolve s path = Some (W_missing dir comp) →
  vnodes s !! dir = Some d → on_tmpfs s d → (∀ p, is_Some (fopss s !! p) → p ∈ heap s) →
  0 ≤ dev ≤ 1 → length (snd ans) = 36%nat →
  ∃ node s' n, mknod mbox_call junk (path ++ NUL :: y) mode dev s = Ok ((0, if dev =? 0 then None else Some (fb_of ans)), s') ∧
    vnodes s !! node = None ∧ vnodes s' !! node = Some n ∧ v_type n = DEV ∧
    file_size n = (if dev =? 0 then 0 else fb_size (fb_of ans)) ∧
    fopss s !! v_fops n = None ∧ fopss s' = <[v_fops n := dev_ops dev]> (fopss s) ∧
    resolve s' path = Some (W_found node dir comp) ∧
    (∀ p m, p ≠ node → vnodes s !! p = Some m → ∃ m', vnodes s' !! p = Some m' ∧ v_fops m' = v_fops m).
Proof.
  intros Hw Hr Hp Hres Ed Hon Hheap Hdev Hans. pose proof (room_addr s (room_weaken s 3 1 ltac:(lia) Hr)) as [Ha Hnew].
  set (a := new_addr (heap s)) in *. set (s0 := leaked s).
  assert (Hw0 : fs_wf s0).
  { pose proof (fs_wf_heap s ({[a]} ∪ heap s) (f_cpu s) Hw) as Hh. apply Hh; [set_solver| |apply (fw_cpu _ Hw)].
    intros p [->%elem_of_singleton|Hin]%elem_of_union; [done|]. by apply (fw_pos _ Hw). }
  assert (Hr0 : fs_room s0 2) by exact (room_after s 2 Hr).
  assert (Hres0 : resolve s0 path = Some (W_missing dir comp)) by (rewrite <- Hres; by apply same_resolve).
  destruct (vfs_create_run s0 path y dir d comp DEV Hw0 Hr0 Hp Hres0 Ed Hon) as (l & Hal & Hcr & _).
  destruct (created_node s0 dir d DEV l comp Hw0 Hr0 Ed Hon Hal) as (n & En & Hty & Hsz & _ & _ & [Hfo _] & _).
  destruct (created_same s0 dir d DEV l) as (Em & _ & Efo & _ & _ & _ & Ert & Ecd & _).
  pose proof (created_resolve s0 dir d DEV l comp Hw0 Hr0 Ed Hal path Hres0) as Hres1.
  destruct (node_fresh s0 dir d Hw0 Hr0 Ed) as (_ & _ & Hfresh & _).
  set (s1 := created s0 dir d DEV l) in *. set (node := new_addr (heap s0)) in *.
  set (n1 := with_ops (v_ops n) a n).
  set (s2 := set_vnodes (<[node := n1]> (vnodes s1)) (set_fopss (<[a := tmpfs_fops]> (fopss s1)) s1)).
  destruct (driver_run dev node s2 n1 Hdev Hans) as (pt & driver & c & Hlist & Hdrv); [apply lookup_insert_eq|apply lookup_insert_eq|].
  set (n2 := if dev =? 0 then n1 else with_size (fb_size (fb_of ans)) n1).
  eexists node, _, n2. split.
  { unfold mknod. erewrite bind_Ok by by (apply f_malloc_run; eapply room_weaken; [|exact Hr]; lia).
    fold a s0. rewrite (bind_Ok _ _ _ _ _ Hcr). cbn [Z.ltb Z.compare]. erewrite bind_Ok by done.
    erewrite bind_Ok by (unfold vnode_get, mbind, M_bind, get_st; by rewrite En).
    erewrite bind_Ok by (unfold fops_get, mbind, M_bind, get_st; by rewrite Hfo).
    destruct (Z.eqb_spec a 0); [lia|]. erewrite bind_Ok by done. erewrite bind_Ok by done.
    erewrite (bind_Ok _ _ _ tt s2) by (unfold vnode_upd, vnode_get, mbind, M_bind, get_st; cbn [vnodes set_fopss]; by rewrite En).
    rewrite Hlist. erewrite bind_Ok by done. cbv beta iota. rewrite (bind_Ok _ _ _ _ _ Hdrv). done. }
  set (s' := set_fcpu c _).
  assert (Hv : vnodes s' = <[node := n2]> (vnodes s1)).
  { unfold s', n2. simpl. destruct (dev =? 0); [done|]. simpl. by rewrite insert_insert_eq. }
  assert (Hfa : v_fops n2 = a) by (unfold n2; by destruct (dev =? 0)).
  split_and!.
  - exact Hfresh.
  - rewrite Hv. apply lookup_insert_eq.
  - unfold n2. by destruct (dev =? 0).
  - unfold n2. by destruct (dev =? 0).
  - rewrite Hfa. apply eq_None_not_Some. intros Hs. by apply Hnew, Hheap.
  - rewrite Hfa. change (fopss s') with (<[a := dev_ops dev]> (<[a := tmpfs_fops]> (fopss s1))). rewrite insert_insert_eq. by rewrite Efo.
  - rewrite <- Hres1. apply same_resolve; [|done..]. intros p. rewrite Hv. destruct (decide (p = node)) as [->|].
    + rewrite lookup_insert_eq, En. unfold n2. by destruct (dev =? 0).
    + by rewrite lookup_insert_ne.
  - intros p m Hne Hm. destruct (created_old s0 dir d DEV l Hw0 Hr0 Ed p m Hm) as (m' & Hm' & _ & _ & _ & Hf & _).
    exists m'. split; [|done]. rewrite Hv. by rewrite lookup_insert_ne.
Qed.
End Mknod.

(** ** On a started system *)

#[local] Existing Instances heap0 drivers0.

(** A processor that grants 4096 bytes at 0xfc000000 (0x3c000000 for the
    processor that asked). *)
Definition gpu0 (req : list Z) : bool * list Z := (true, <[29%nat := 4096]> (<[28%nat := 0xfc000000]> req)).

Lemma mknod_correct_witness :
  ∃ node s', mknod gpu0 0 (chars "/a" ++ [NUL]) 0 1 started = Ok ((0, Some (mk_fb 0x3c000000 (mk_fbinfo 1024 768 0 1) 4096)), s') ∧
    resolve s' (chars "/a") = Some (W_found node 3 (chars "a")).
Proof.
  destruct (mknod_correct gpu0 0 started (chars "/a") [] 3 (root_vnode 2 4 5 (replicate 256 0)) (chars "a") 0 1)
    as (node & s' & n & E & _ & _ & _ & _ & _ & _ & Hres & _).
  - exact VfsWitness.started_wf.
  - apply heap0_room.
  - exact VfsWitness.path_a.
  - exact VfsWitness.no_a.
  - reflexivity.
  - exact VfsWitness.root_on_tmpfs.
  - intros p [fo Hp]. change (fopss started) with ({[5 := tmpfs_fops]} : gmap Z file_operations) in Hp.
    apply lookup_singleton_Some in Hp as [<- _]. apply (bool_decide_unpack _). vm_compute. exact I.
  - lia.
  - reflexivity.
  - exists node, s'. split; [exact E|exact Hres].
Defined.

(** A frame buffer of four bytes with a file positioned at the third. *)
Definition fb_state : fs :=
  set_files {[7 := mk_file 3 2 5 0 1]}
    (set_vnodes {[3 := with_size 4 (root_vnode 2 4 5 (replicate 256 0))]}
      (set_blocks {[p2v_trans_kernel 0x3c000000 := [1; 2; 3; 4]]} started)).

Lemma fb_write_correct_witness :
  ∃ s', fb_write (mk_fb 0x3c000000 fb_info0 4) 7 [9; 8; 7] 3 fb_state = Ok (2, s') ∧
    blocks s' !! p2v_trans_kernel 0x3c000000 = Some [1; 2; 9; 8].
Proof.
  destruct (fb_write_correct (mk_fb 0x3c000000 fb_info0 4) fb_state 7 (mk_file 3 2 5 0 1)
    (with_size 4 (root_vnode 2 4 5 (replicate 256 0))) [1; 2; 3; 4] [9; 8; 7]) as (E & _ & _);
    [reflexivity|reflexivity|vm_compute; reflexivity|reflexivity|reflexivity|split; vm_compute; discriminate|reflexivity|].
  eexists. split; [exact E|]. vm_compute. reflexivity.
Defined.
