(* ===== verification/Ramdisk.v ===== *)
(** * Initial ramdisk (src/kernel/ramdisk.c)

    The archive the boot loader leaves in memory becomes a read-only file
    system whose files point into the archive.  The memory from
    [ramdisk_saddr] on is the block [rd]; [rd_end] is the distance to
    [ramdisk_eaddr], and a pointer into the archive is an offset. *)

From S2P Require Import Prelude Cpu Str VfsData Tmpfs Vfs.

(** The size of [cpio_newc_header] and the offsets of the fields used. *)
Definition cpio_newc_header : Z := 110.
Definition c_filesize : nat := 54.
Definition c_namesize : nat := 94.
Definition INITRD_MOUNT_POINT : list Z := lit "/initramfs".

(** [(n + 3) & ~3] *)
Definition align4 (n : Z) : Z := Z.land (u64 (n + 3)) (u64 (Z.lnot 3)).
Definition align4_u32 (n : Z) : Z := Z.land (u32 (n + 3)) (u32 (Z.lnot 3)).

Section Ramdisk.
Context `{!FsHeap, !Drivers}.
Context (rd rd_end : Z).

(** What is in memory from an offset of the archive on. *)
Definition rd_at (o : Z) : M fs (list Z) :=
  s ← get_st;
  l ← deref (blocks s !! rd);
  assert ((0 <=? o) && (o <=? Z.of_nat (length l))) ;;
  mret (drop (Z.to_nat o) l).

Definition content_offset (path_size : Z) : Z := align4 (cpio_newc_header + path_size) - cpio_newc_header.

(** The loop over the components of a path. *)
Fixpoint create_loop (fuel : nat) (skip : bool) (comp : Z) (ctx : strtok_ctx) (cur mnt path path_size size : Z) : M fs unit :=
  match fuel with
  | O => spin
  | S fuel' =>
      '(more, comp, ctx) ← (if skip then mret (true, comp, ctx)
                            else
                              '(t, ctx) ← next_token ctx;
                              mret (match t with Some t => (true, t, ctx) | None => (false, comp, ctx) end));
      if negb more then mret tt
      else
        vo ← mount_vops mnt;
        node ← call_lookup (vo_lookup vo) cur (token_str ctx comp);
        if node =? 0 then
          '(t, ctx) ← next_token ctx;
          match t with
          | Some tmp =>
              vo ← mount_vops mnt;
              '(_, dir) ← call_mkdir (vo_mkdir vo) cur (token_str ctx comp);
              create_loop fuel' true tmp ctx dir mnt path path_size size
          | None =>
              vo ← mount_vops mnt;
              '(_, f) ← call_create (vo_create vo) cur (token_str ctx comp) FILE;
              vnode_upd f (with_internal (D_at rd (path + content_offset path_size))) ;;
              vnode_upd f (with_size size)
          end
        else create_loop fuel' false comp ctx node mnt path path_size size
  end.

Definition initramfs_create_recursive (mnt path path_size size : Z) : M fs unit :=
  a ← f_malloc;
  str ← rd_at path;
  '(comp, ctx) ← lift (strtok_r (if a =? 0 then None else Some junk_ctx) (Some str) slash None);
  comp ← deref comp;
  ctx ← deref ctx;
  dot ← lift (strcmp (lit ".") (token_str ctx comp));
  m ← mount_get mnt;
  root ← vnode_get (m_root m);
  create_loop (Z.to_nat STRLEN + 2) (negb (dot =? 0)) comp ctx (m_root m) mnt path path_size size ;;
  f_free a.

(** One record: is it the last? *)
Definition parse_record (mnt addr : Z) (hdr : list Z) (path_size size : Z) : M fs bool :=
  let payload := drop (Z.to_nat cpio_newc_header) hdr in
  magic ← lift (strncmp (lit "070701") hdr 6);
  if negb (magic =? 0) then f_on_cpu (err ("Invalid .cpio record" +:+ crlf)) ;; mret false
  else
    trailer ← lift (strcmp (lit "TRAILER!!!") payload);
    if trailer =? 0 then mret true
    else
      dot ← lift (strcmp (lit ".") payload);
      skip ← (if dot =? 0 then mret true else dotdot ← lift (strcmp (lit "..") payload); mret (dotdot =? 0));
      if (skip : bool) then mret false
      else initramfs_create_recursive mnt (addr + cpio_newc_header) path_size size ;; mret false.

Fixpoint initramfs_parse_cpio (fuel : nat) (mnt addr : Z) : M fs unit :=
  match fuel with
  | O => spin
  | S fuel' =>
      hdr ← rd_at addr;
      path_size ← lift (hstr2u32 (drop c_namesize hdr) 8);
      size ← lift (hstr2u32 (drop c_filesize hdr) 8);
      if rd_end <=? addr then f_on_cpu (err ("No TRAILER record" +:+ crlf))
      else
        last ← parse_record mnt addr hdr path_size size;
        if (last : bool) then mret tt
        else initramfs_parse_cpio fuel' mnt (addr + align4 (cpio_newc_header + path_size) + align4_u32 size)
  end.

Definition initramfs_setup_mount (fuel : nat) (mount dir_node : Z) (component : list Z) : M fs Z :=
  m ← mount_get mount;
  let root := m_root m in
  vo ← f_malloc;
  n ← vnode_get root;
  vnode_upd root (with_ops vo (v_fops n)) ;;
  if vo =? 0 then mret (-1)
  else
    fo ← f_malloc;
    vnode_upd root (with_ops vo fo) ;;
    if fo =? 0 then f_free vo ;; mret (-1)
    else
      r ← tmpfs_init_vnode 0 root DIR component;
      if negb (r =? 0) then mret (-1)
      else
        (if negb (dir_node =? 0) then list_push dir_node root else mret tt) ;;
        vnode_upd root (with_parent dir_node) ;;
        modify (λ s, set_vopss (<[vo := mk_vops (Some F_tmpfs_lookup) (Some F_tmpfs_create) (Some F_tmpfs_mkdir)]> (vopss s)) s) ;;
        modify (λ s, set_fopss (<[fo := mk_fops None (Some F_tmpfs_read) (Some F_tmpfs_open)
          (Some F_tmpfs_close) (Some F_tmpfs_lseek64) None]> (fopss s)) s) ;;
        vnode_upd root (with_mount mount) ;;
        initramfs_parse_cpio fuel mount 0 ;;
        mret 0.

Definition initramfs_init : M fs unit :=
  p ← f_malloc;
  if p =? 0 then mret tt
  else
    modify (λ s, set_filesystems (<[p := mk_filesystem (lit "initramfs") F_initramfs_setup_mount]> (filesystems s)) s) ;;
    register_filesystem p ;;
    vfs_mkdir INITRD_MOUNT_POINT ;;
    vfs_mount INITRD_MOUNT_POINT (lit "initramfs") MS_RDONLY ;;
    mret tt.
End Ramdisk.

(** The operation tables with the ramdisk's function in them. *)
Definition ramdisk_drivers `{!FsHeap} (fuel : nat) (rd rd_end : Z) (other : Drivers) : Drivers := {|
  drv_create := drv_create (Drivers := other);
  drv_mkdir := drv_mkdir;
  drv_write := drv_write;
  drv_read := drv_read;
  drv_ioctl := drv_ioctl;
  drv_setup_mount g := match g with F_initramfs_setup_mount => λ _, initramfs_setup_mount rd rd_end fuel | _ => drv_setup_mount g end;
  drv_uart_write := drv_uart_write;
|}.
