(* ===== verification/RamdiskProps.v ===== *)
(** * Initial ramdisk: archives

    [initramfs_create_recursive] adds a file whose directories exist, with its
    contents inside the archive.  An archive of plain files unpacks to a
    directory that holds exactly those files, and reading one of them gives its
    contents back. *)

From S2P Require Import Prelude Cpu Str StrThm Dtb DtbThm VfsData Tmpfs Vfs VfsInv VfsPath VfsThm VfsMount VfsWitness Ramdisk.

(** The mount point's table holds the operations of tmpfs.c. *)
Definition rd_mounted (s : fs) (mnt root : Z) : Prop :=
  ∃ m r, mounts s !! mnt = Some m ∧ m_root m = root ∧ vnodes s !! root = Some r ∧
    vopss s !! v_ops r = Some (mk_vops (Some F_tmpfs_lookup) (Some F_tmpfs_create) (Some F_tmpfs_mkdir)).

Lemma rd_vops_run s mnt root : rd_mounted s mnt root →
  mount_vops mnt s = Ok (mk_vops (Some F_tmpfs_lookup) (Some F_tmpfs_create) (Some F_tmpfs_mkdir), s).
Proof.
  intros (m & r & Hm & <- & Hr & Hvo). unfold mount_vops, mbind, M_bind, mount_get, vnode_get, vops_get, get_st, mbind, M_bind.
  rewrite Hm. simpl. rewrite Hr. simpl. by rewrite Hvo.
Qed.

(** ** Other contents for a vnode *)

Definition fill (dp : data_ptr) (size : Z) (n : vnode) : vnode := with_size size (with_internal dp n).
Definition filled (s : fs) (p : Z) (dp : data_ptr) (size : Z) : fs := set_vnodes (alter (fill dp size) p (vnodes s)) s.

Section Filled.
Context (s : fs) (p : Z) (dp : data_ptr) (size : Z).

Lemma filled_lookup q : vnodes (filled s p dp size) !! q = (if decide (q = p) then fill dp size else id) <$> vnodes s !! q.
Proof.
  unfold filled. simpl. destruct (decide (q = p)) as [->|]; [by rewrite lookup_alter_eq|]. rewrite lookup_alter_ne by done. by rewrite option_fmap_id.
Qed.

Lemma filled_old q n : vnodes s !! q = Some n → ∃ n', vnodes (filled s p dp size) !! q = Some n' ∧ v_mount n' = v_mount n ∧ v_ops n' = v_ops n ∧ v_fops n' = v_fops n ∧
  children n' = children n ∧ hidden n' = hidden n ∧ v_parent n' = v_parent n ∧ v_name n' = v_name n ∧ v_type n' = v_type n.
Proof. intros E. rewrite filled_lookup, E. simpl. eexists. split; [done|]. by case_decide. Qed.

Lemma filled_inv q n' : vnodes (filled s p dp size) !! q = Some n' → ∃ n, vnodes s !! q = Some n ∧ v_mount n' = v_mount n ∧ v_ops n' = v_ops n ∧ v_fops n' = v_fops n ∧
  children n' = children n ∧ hidden n' = hidden n ∧ v_parent n' = v_parent n ∧ v_name n' = v_name n ∧ v_type n' = v_type n.
Proof. rewrite filled_lookup. intros (n & E & ->)%fmap_Some. exists n. split; [done|]. by case_decide. Qed.

Lemma filled_named nm q : child_named (filled s p dp size) nm q = child_named s nm q.
Proof.
  unfold child_named. destruct (vnodes s !! q) as [n|] eqn:E.
  - destruct (filled_old q n E) as (n' & -> & _ & _ & _ & _ & -> & _ & Hn & _). unfold name_of. by rewrite Hn.
  - by rewrite filled_lookup, E.
Qed.

Lemma filled_lookup_in d nm : lookup_in (filled s p dp size) d nm = lookup_in s d nm.
Proof.
  unfold lookup_in. destruct (vnodes s !! d) as [n|] eqn:E; [|by rewrite filled_lookup, E].
  destruct (filled_old d n E) as (n' & -> & _ & _ & _ & -> & _). apply find_same. intros q _. apply filled_named.
Qed.

Lemma filled_wf : fs_wf s → fs_wf (filled s p dp size).
Proof.
  intros Hw. split; try (apply Hw).
  - intros q [n' E]. destruct (filled_inv q n' E) as (n & En & _). apply (fw_vnodes _ Hw). eauto.
  - intros q n' E. destruct (filled_inv q n' E) as (n & En & _ & _ & _ & _ & _ & _ & Hn & _). unfold name_of. rewrite Hn. by apply (fw_name _ Hw q).
  - intros q n' c E Hc. destruct (filled_inv q n' E) as (n & En & _ & _ & _ & Hch & _). rewrite Hch in Hc.
    destruct (fw_child _ Hw _ _ _ En Hc) as (x & Ex & Hp). destruct (filled_old c x Ex) as (x' & Ex' & _ & _ & _ & _ & _ & Hp' & _). exists x'. by rewrite Hp'.
  - intros q n' E. destruct (filled_inv q n' E) as (n & En & _ & _ & _ & -> & _). by apply (fw_nodup _ Hw q).
  - intros q n' E. destruct (filled_inv q n' E) as (n & En & -> & _). destruct (fw_mount _ Hw _ _ En) as (m & r & vo & Hm & Hr & Hvo & Hl).
    destruct (filled_old _ r Hr) as (r' & Hr' & _ & Ho & _). exists m, r', vo. by rewrite Ho.
  - destruct (fw_root _ Hw) as (m & Hm & r & Hr). exists m. split; [done|]. destruct (filled_old _ r Hr) as (r' & Hr' & _). eauto.
Qed.

Lemma filled_mounted mnt root : rd_mounted s mnt root → rd_mounted (filled s p dp size) mnt root.
Proof. intros (m & r & Hm & Hroot & Hr & Hvo). destruct (filled_old _ r Hr) as (r' & Hr' & _ & Ho & _). exists m, r'. by rewrite Ho. Qed.
End Filled.

(** ** The loop *)

Section Create.
Context `{!FsHeap, !Drivers}.
Context (rd : Z).
Implicit Types s : fs.

(** The state after the file was added to [dir]. *)
Definition planted s dir d l off size : fs := filled (created s dir d FILE l) (new_addr (heap s)) (D_at rd off) size.

Lemma wp_plant s dir d c x off size (Q : unit → fs → Prop) :
  fs_wf s → fs_room s 2 → vnodes s !! dir = Some d → text c → (length c < 256)%nat →
  (∀ l, array_of l c → Q tt (planted s dir d l off size)) →
  wp ('(_, f) ← call_create (Some F_tmpfs_create) dir (c ++ NUL :: x) FILE;
      vnode_upd f (with_internal (D_at rd off)) ;; vnode_upd f (with_size size)) Q s.
Proof.
  intros Hw Hroom Ed Hc Hl HQ. cbn [call_create]. wp_step. eapply wp_mono; [by apply wp_create|]. intros r s' (l & -> & Ha & ->). cbn beta iota.
  specialize (HQ l Ha). set (s1 := created s dir d FILE l) in *. set (node := new_addr (heap s)) in *.
  destruct (vnodes s1 !! node) as [n|] eqn:En; [|unfold s1 in En; rewrite created_vnodes in En; cbv zeta in En; by rewrite lookup_insert_eq in En].
  wp_step. apply (wp_vnode_upd _ n); [done|]. eapply wp_vnode_last; [reflexivity|].
  assert (E : planted s dir d l off size = set_vnodes (<[node := with_size size (with_internal (D_at rd off) n)]> (vnodes s1)) s1).
  { unfold planted, filled. fold s1 node. f_equal. by rewrite (alter_as_insert _ _ _ n). }
  rewrite E in HQ. exact HQ.
Qed.

Lemma loop_run fuel : ∀ s mnt root skip comp ctx r cur parent nm cs dir name path path_size size,
  fs_wf s → fs_room s 2 → rd_mounted s mnt root → is_Some (vnodes s !! cur) → ctx_ok ctx r →
  (if (skip : bool) then ∃ t, kept ctx comp t ∧ cs = t :: comps r else cs = comps r) → Forall (λ c, c ≠ []) cs → (length cs < fuel)%nat →
  walk s cur parent nm cs = W_missing dir name →
  wp (create_loop rd fuel skip comp ctx cur mnt path path_size size)
    (λ _ s', ∃ d l, vnodes s !! dir = Some d ∧ array_of l name ∧ s' = planted s dir d l (path + content_offset path_size) size) s.
Proof.
  induction fuel as [|fuel IH]; intros s mnt root skip comp ctx r cur parent nm cs dir name path path_size size Hw Hroom Hm [n En] Hc Hcs Hne Hf Hwk; [lia|].
  destruct cs as [|c cs]; [done|]. apply Forall_cons in Hne as [Hn0 Hne]. cbn [create_loop].
  assert (Hnext : ∃ i ctx' r', (if skip then mret (true, comp, ctx)
                            else '(t, ctx) ← next_token ctx; mret (match t with Some t => (true, t, ctx) | None => (false, comp, ctx) end)) s = Ok ((true, i, ctx'), s) ∧
    kept ctx' i c ∧ ctx_ok ctx' r' ∧ comps r' = cs).
  { destruct skip; [destruct Hcs as (t & Hk & [= -> ->]); by exists comp, ctx, r|].
    pose proof (next_token_run s ctx r Hc) as Hn. rewrite <- Hcs in Hn. destruct Hn as (c' & r' & Hn & Hc' & Hr' & Hk & _).
    exists (strtok_idx ctx), c', r'. unfold mbind, M_bind. by rewrite Hn. }
  destruct Hnext as (i & ctx' & r' & Hnext & Hk & Hc' & Hr'). wp_step. apply (wp_eq _ _ _ _ _ Hnext). cbn [negb].
  wp_step. apply (wp_eq _ _ _ _ _ (rd_vops_run s mnt root Hm)). cbn [vo_lookup call_lookup].
  pose proof (cstr_short _ _ _ (proj1 Hc') (proj1 Hk)) as Hs. destruct (id (proj1 Hk)) as (_ & Htx & x & Hx). rewrite Hx.
  wp_step. eapply wp_mono; [apply lookup_run; [done|by rewrite En|done|done]|]. intros node s' [-> ->].
  cbn [walk] in Hwk. rewrite decide_False in Hwk by done. destruct (lookup_in s cur c) as [node|] eqn:El; cbn [from_option id].
  - destruct (lookup_in_Some _ _ _ _ Hw El) as (nn & Enn & _). assert (0 < node) by (apply (fw_pos _ Hw), (fw_vnodes _ Hw); by rewrite Enn).
    destruct (Z.eqb_spec node 0); [lia|]. eapply (IH s mnt root false i ctx' r' node cur c cs); try done; simpl in Hf; lia.
  - destruct (decide (cs = [])) as [->|]; [|done]. injection Hwk as -> ->. change (0 =? 0) with true. cbv iota.
    pose proof (next_token_run s ctx' r' Hc') as Hn. rewrite Hr' in Hn. wp_step. apply (wp_eq _ _ _ _ _ Hn). cbn beta iota.
    wp_step. apply (wp_eq _ _ _ _ _ (rd_vops_run s mnt root Hm)). cbn [vo_create]. rewrite Hx.
    apply (wp_plant s dir n); try done. intros l Ha. by exists n, l.
Qed.

(** ** One record *)

Lemma leaked_wf s : fs_wf s → fs_room s 1 → fs_wf (leaked s).
Proof.
  intros Hw Hr. destruct (room_addr s Hr) as [Ha _]. pose proof (fs_wf_heap s ({[new_addr (heap s)]} ∪ heap s) (f_cpu s) Hw ltac:(set_solver)) as HH.
  unfold leaked. replace (set_fcpu (f_cpu s) s) with s in HH by (by destruct s). apply HH; [|apply Hw].
  intros p [->%elem_of_singleton|Hp]%elem_of_union; [done|by apply (fw_pos _ Hw)].
Qed.

Lemma heap_drop_wf t a : fs_wf t → vnodes t !! a = None → files t !! a = None → blocks t !! a = None → fs_wf (set_heap (heap t ∖ {[a]}) t).
Proof.
  intros Hw Hv Hf Hb. split; try apply Hw.
  - intros p [Hp _]%elem_of_difference. by apply (fw_pos _ Hw).
  - intros p [n E]. apply elem_of_difference. split; [apply (fw_vnodes _ Hw); eauto|]. rewrite elem_of_singleton. intros ->. simpl in E. congruence.
  - intros p [n E]. apply elem_of_difference. split; [apply (fw_files _ Hw); eauto|]. rewrite elem_of_singleton. intros ->. simpl in E. congruence.
  - intros p [n E]. apply elem_of_difference. split; [apply (fw_blocks _ Hw); eauto|]. rewrite elem_of_singleton. intros ->. simpl in E. congruence.
Qed.

(** The file [name] of [dir] is new; nothing else has changed. *)
Record file_added s s' dir name off sz node : Prop := mk_file_added {
  fa_wf : fs_wf s';
  fa_room k : fs_room s (S (S k)) → fs_room s' k;
  fa_fresh : vnodes s !! node = None;
  fa_lookup p nm : is_Some (vnodes s !! p) →
    lookup_in s' p nm = match lookup_in s p nm with Some q => Some q | None => if decide (p = dir ∧ nm = name) then Some node else None end;
  fa_node : ∃ n, vnodes s' !! node = Some n ∧ v_type n = FILE ∧ file_size n = sz ∧ internal n = D_at rd off;
  fa_old p n : vnodes s !! p = Some n → ∃ n', vnodes s' !! p = Some n' ∧ v_type n' = v_type n ∧ file_size n' = file_size n ∧ internal n' = internal n;
  fa_blocks p b : blocks s !! p = Some b → blocks s' !! p = Some b;
  fa_files : files s' = files s;
  fa_mounted mnt root : rd_mounted s mnt root → rd_mounted s' mnt root;
}.

Lemma planted_added s dir d l name off sz : fs_wf s → fs_room s 3 → vnodes s !! dir = Some d → array_of l name →
  let t := planted (leaked s) dir d l off sz in
  file_added s (set_heap (heap t ∖ {[new_addr (heap s)]}) t) dir name off sz (new_addr (heap (leaked s))).
Proof.
  intros Hw Hroom Hd Hl t. assert (Hr1 : fs_room s 1) by (eapply room_weaken; [|exact Hroom]; lia). destruct (room_addr s Hr1) as [Ha Hn]. set (a := new_addr (heap s)) in *.
  pose proof (leaked_wf s Hw Hr1) as Hw1. pose proof (room_after s 2 Hroom) as Hr2. set (s1 := leaked s) in *. assert (Hd1 : vnodes s1 !! dir = Some d) by done.
  destruct (node_fresh s1 dir d Hw1 Hr2 Hd1) as (Hn0 & Hnh & Hnv & Hnd). destruct (block_fresh s1 Hr2) as [Hbh Hb0]. set (node := new_addr (heap s1)) in *. set (b := new_addr ({[node]} ∪ heap s1)) in *.
  assert (Hah : a ∈ heap s1) by (unfold s1, leaked; set_solver).
  assert (Hc : fs_wf (created s1 dir d FILE l)) by (by apply (created_wf s1 dir d FILE l name)).
  assert (Hv : vnodes (created s1 dir d FILE l) = <[node := new_vnode d dir FILE l (D_at b 0)]> (<[dir := add_child node d]> (vnodes s))) by (by rewrite created_vnodes).
  assert (Hva : vnodes s !! a = None) by (apply eq_None_not_Some; intros ?; by apply Hn, (fw_vnodes _ Hw)).
  split.
  - apply heap_drop_wf; [by apply filled_wf| | |].
    + unfold t, planted. rewrite filled_lookup, Hv. rewrite lookup_insert_ne by (intros E; rewrite E in Hnh; done). rewrite lookup_insert_ne; [by rewrite Hva|]. intros ->. congruence.
    + apply eq_None_not_Some. intros Hf. by apply Hn, (fw_files _ Hw).
    + simpl. rewrite lookup_insert_ne; [apply eq_None_not_Some; intros Hf; by apply Hn, (fw_blocks _ Hw)|]. intros E. change (b = a) in E. apply Hbh. rewrite E. set_solver.
  - intros k Hk X HX Hs. change (({[b]} ∪ ({[node]} ∪ heap s1)) ∖ {[a]} ⊆ X) in HX. apply Hk; [intros p Hp; apply HX; unfold s1, leaked; simpl; assert (p ≠ a) by congruence; set_solver|]. change (size X < size (({[b]} ∪ ({[node]} ∪ heap s1)) ∖ {[a]}) + k)%nat in Hs.
    assert (E : ({[b]} ∪ ({[node]} ∪ heap s1)) ∖ {[a]} = {[b]} ∪ ({[node]} ∪ heap s)).
    { assert (a ≠ b) by (intros <-; apply Hbh; set_solver). assert (a ≠ node) by (intros <-; done). apply leibniz_equiv. unfold s1, leaked. simpl. fold a. set_solver. }
    rewrite E in Hs. pose proof (size_union_alt {[b]} ({[node]} ∪ heap s)) as E1. pose proof (size_union_alt {[node]} (heap s)) as E2.
    pose proof (subseteq_size (({[node]} ∪ heap s) ∖ {[b]}) ({[node]} ∪ heap s) ltac:(set_solver)). pose proof (subseteq_size (heap s ∖ {[node]}) (heap s) ltac:(set_solver)). rewrite !size_singleton in *. lia.
  - exact Hnv.
  - intros p nm Hp. change (lookup_in _ p nm) with (lookup_in t p nm) at 1. unfold t, planted. rewrite filled_lookup_in. by rewrite (created_lookup_in s1 dir d FILE l name Hw1 Hr2 Hd1 Hl).
  - exists (fill (D_at rd off) sz (new_vnode d dir FILE l (D_at b 0))). split; [|done]. change (vnodes (set_heap _ t)) with (vnodes t). unfold t, planted. rewrite filled_lookup, decide_True by done. by rewrite Hv, lookup_insert_eq.
  - intros p n Hp. change (vnodes (set_heap _ t)) with (vnodes t). unfold t, planted. rewrite filled_lookup, Hv. assert (p ≠ node) by (intros ->; change (vnodes s !! node = None) in Hnv; congruence). rewrite decide_False by done. rewrite lookup_insert_ne by done.
    destruct (decide (p = dir)) as [->|]; [rewrite lookup_insert_eq|rewrite lookup_insert_ne by done; rewrite Hp]; (eexists; split; [done|]); simpl; [|done]. assert (d = n) as -> by congruence. done.
  - intros p x Hp. simpl. rewrite lookup_insert_ne; [done|]. intros E. change (b = p) in E. apply Hbh. rewrite E. apply elem_of_union. right. unfold s1, leaked. simpl. apply elem_of_union. right. apply (fw_blocks _ Hw). eauto.
  - done.
  - intros mnt root Hm. apply (filled_mounted _ node (D_at rd off) sz mnt root). destruct Hm as (m & r & Hm & Hroot & Hr & Hvo).
    destruct (created_old s1 dir d FILE l Hw1 Hr2 Hd1 root r Hr) as (r' & Hr' & _ & _ & Ho & _). exists m, r'. by rewrite Ho.
Qed.

Lemma wp_rd_at s arch o (Q : list Z → fs → Prop) : blocks s !! rd = Some arch → 0 ≤ o ≤ Z.of_nat (length arch) → Q (drop (Z.to_nat o) arch) s → wp (rd_at rd o) Q s.
Proof.
  intros Hb Ho HQ. unfold rd_at. wp_step. apply wp_get_st. wp_step. apply (wp_deref _ arch); [done|]. wp_step. apply wp_assert; [lia|]. by wp_step.
Qed.

(** The components of an archive's path, without a leading dot. *)
Definition rd_components (path : list Z) : list (list Z) :=
  match components path with
  | c :: cs => if decide (c = chars ".") then cs else c :: cs
  | [] => []
  end.

Lemma create_recursive_run s mnt root arch path rest off ps sz parent nm dir name :
  fs_wf s → fs_room s 3 → rd_mounted s mnt root → blocks s !! rd = Some arch → 0 ≤ off ≤ Z.of_nat (length arch) → drop (Z.to_nat off) arch = path ++ NUL :: rest →
  text path → (length path < 256)%nat → Forall (λ c, c ≠ []) (rd_components path) → walk s root parent nm (rd_components path) = W_missing dir name →
  wp (initramfs_create_recursive rd mnt off ps sz) (λ _ s', ∃ node, file_added s s' dir name (off + content_offset ps) sz node) s.
Proof.
  intros Hw Hroom Hm Hb Ho Harch Ht Hl Hne Hwk. assert (Hr1 : fs_room s 1) by (eapply room_weaken; [|exact Hroom]; lia). destruct (room_addr s Hr1) as [Ha Hn].
  unfold initramfs_create_recursive. wp_step. apply (wp_eq _ _ _ _ _ (f_malloc_run s Hr1)). set (a := new_addr (heap s)) in *.
  wp_step. apply (wp_rd_at _ arch); [done|done|]. rewrite Harch. destruct (Z.eqb_spec a 0) as [E|_]; [lia|].
  destruct (first_token s path rest Ht Hl) as (i & c & r & t & ts & Htok & Hc & Hcs & Hr & Hk).
  wp_step. apply (wp_lift _ (Some i, Some c)); [exact Htok|]. cbn beta iota. wp_step. apply (wp_deref _ i); [done|]. wp_step. apply (wp_deref _ c); [done|].
  pose proof (cstr_short _ _ _ (proj1 Hc) (proj1 Hk)) as Hs. destruct (id (proj1 Hk)) as (_ & Htx & x & Hx). rewrite Hx.
  wp_step. apply (wp_lift _ (lexcmp (chars ".") t)); [by apply lit_cmp|]. pose proof Hm as (m & rn & Hmm & Hroot & Hrn & _).
  wp_step. apply (wp_mount_get _ m); [done|]. rewrite Hroot. wp_step. apply (wp_vnode_get _ rn); [done|].
  assert (Hlen : (length (t :: ts) ≤ 257)%nat).
  { pose proof (length_split (in_set (chars "/")) path) as Hsp. unfold components in Hcs. rewrite Hcs in Hsp. lia. }
  unfold rd_components in Hne, Hwk. rewrite Hcs in Hne, Hwk. wp_step.
  eapply wp_mono; [apply (loop_run _ (leaked s) mnt root (negb (lexcmp (chars ".") t =? 0)) i c r root parent nm (if decide (t = chars ".") then ts else t :: ts) dir name)|].
  - by apply leaked_wf.
  - by apply (room_after s 2).
  - exact Hm.
  - exists rn; exact Hrn.
  - done.
  - destruct (Z.eqb_spec (lexcmp (chars ".") t) 0) as [E|E]; cbn [negb].
    + apply lexcmp_eq in E. by rewrite decide_True.
    + rewrite decide_False; [exists t; by rewrite Hr|]. intros ->. apply E. by apply lexcmp_eq.
  - done.
  - rewrite STRLEN_nat. case_decide; simpl in *; lia.
  - rewrite (walk_ext (leaked s) s) by done. exact Hwk.
  - intros _ s' (d & l & Hd & Hal & ->). set (u := planted (leaked s) dir d l (off + content_offset ps) sz).
    unfold f_free. wp_step. apply wp_get_st. destruct (Z.eqb_spec a 0); [lia|]. wp_step. apply wp_assert.
    { apply bool_decide_eq_true. change (heap u) with ({[new_addr ({[new_addr (heap (leaked s))]} ∪ heap (leaked s))]} ∪ ({[new_addr (heap (leaked s))]} ∪ heap (leaked s))). unfold leaked. simpl. fold a. set_solver. }
    apply wp_modify. exists (new_addr (heap (leaked s))). by apply (planted_added s dir d l name).
Qed.
End Create.

(** ** Archives *)

(** A record: its name and data, and the header's fields nobody looks at. *)
Record entry := mk_entry { e_name : list Z; e_data : list Z; e_f1 : list Z; e_f2 : list Z; e_f3 : list Z }.

Definition hex8 (v : Z) : list Z := hex_digit <$> to_hex 8 v.
Definition name_size (e : entry) : Z := Z.of_nat (length (e_name e)) + 1.
Definition data_size (e : entry) : Z := Z.of_nat (length (e_data e)).
Definition hdr_bytes (e : entry) : list Z := chars "070701" ++ e_f1 e ++ hex8 (data_size e) ++ e_f2 e ++ hex8 (name_size e) ++ e_f3 e.
Definition entry_bytes (e : entry) : list Z :=
  (hdr_bytes e ++ e_name e ++ [NUL] ++ pad4 (110 + length (e_name e) + 1)) ++ e_data e ++ pad4 (length (e_data e)).

Definition trailer : entry := mk_entry (chars "TRAILER!!!") [] (replicate 48 48) (replicate 32 48) (replicate 8 48).
Definition archive (l : list entry) : list Z := concat (entry_bytes <$> l) ++ entry_bytes trailer.

Record fields_ok (e : entry) : Prop := mk_fields_ok {
  eo_f1 : length (e_f1 e) = 48%nat;
  eo_f2 : length (e_f2 e) = 32%nat;
  eo_f3 : length (e_f3 e) = 8%nat;
  eo_text : text (e_name e);
  eo_short : (length (e_name e) < 256)%nat;
  eo_size : data_size e < 2 ^ 31;
}.

(** A plain file. *)
Record entry_ok (e : entry) : Prop := mk_entry_ok {
  eo_fields : fields_ok e;
  eo_nonempty : e_name e ≠ [];
  eo_slash : 47 ∉ e_name e;
  eo_special : e_name e ∉ [chars "."; chars ".."; chars "TRAILER!!!"];
}.

(** Where the data of a record at [addr] is. *)
Definition data_off (addr : Z) (e : entry) : Z := addr + align4 (cpio_newc_header + name_size e).

Fixpoint layout (addr : Z) (l : list entry) : list (entry * Z) :=
  match l with
  | [] => []
  | e :: l' => (e, data_off addr e) :: layout (addr + Z.of_nat (length (entry_bytes e))) l'
  end.

Lemma hdr_length e : fields_ok e → length (hdr_bytes e) = 110%nat.
Proof. intros [H1 H2 H3 _ _ _]. unfold hdr_bytes, hex8. rewrite !length_app, !length_fmap, !to_hex_length, H1, H2, H3. done. Qed.

Lemma align4_eq n : 0 ≤ n → n + 3 < 2 ^ 64 → align4 n = n + (- n) mod 4.
Proof. intros. by apply (round4 u64 64); [right|..]. Qed.

Lemma align4_u32_eq n : 0 ≤ n → n + 3 < 2 ^ 32 → align4_u32 n = n + (- n) mod 4.
Proof. intros. by apply (round4 u32 32); [left|..]. Qed.

Section Entry.
Context (e : entry) (He : fields_ok e).

Lemma head_length : Z.of_nat (length (hdr_bytes e ++ e_name e ++ [NUL] ++ pad4 (110 + length (e_name e) + 1))) = align4 (cpio_newc_header + name_size e).
Proof.
  pose proof (eo_short _ He). unfold name_size, cpio_newc_header. rewrite align4_eq by lia. pose proof (pad4_length (110 + length (e_name e) + 1)) as Hp.
  replace (Z.of_nat (110 + length (e_name e) + 1)) with (110 + (Z.of_nat (length (e_name e)) + 1)) in Hp by lia.
  rewrite !length_app, (hdr_length e He). cbn [length]. lia.
Qed.

Lemma entry_length : Z.of_nat (length (entry_bytes e)) = align4 (cpio_newc_header + name_size e) + align4_u32 (data_size e).
Proof.
  pose proof (eo_size _ He). unfold entry_bytes. rewrite length_app, Nat2Z.inj_add, head_length, length_app, Nat2Z.inj_add, pad4_length. unfold data_size in *. rewrite align4_u32_eq by lia. lia.
Qed.

(** What the code reads of a record. *)
Lemma entry_fields rest : hstr2u32 (drop c_namesize (entry_bytes e ++ rest)) 8 = Ok (name_size e) ∧ hstr2u32 (drop c_filesize (entry_bytes e ++ rest)) 8 = Ok (data_size e) ∧
  strncmp (lit "070701") (entry_bytes e ++ rest) 6 = Ok 0.
Proof.
  pose proof He as [H1 H2 H3 H4 H5 H6]. unfold entry_bytes, hdr_bytes.
  assert (Hs : 0 ≤ name_size e < 2 ^ 32 ∧ 0 ≤ data_size e < 2 ^ 32) by (unfold name_size, data_size in *; lia).
  set (tl1 := e_f3 e ++ e_name e ++ [NUL] ++ pad4 (110 + length (e_name e) + 1) ++ e_data e ++ pad4 (length (e_data e)) ++ rest).
  split_and!.
  - replace (drop c_namesize _) with (hex8 (name_size e) ++ tl1); [apply hex_parse; lia|]. symmetry.
    assert (E' : ((((chars "070701" ++ e_f1 e ++ hex8 (data_size e) ++ e_f2 e ++ hex8 (name_size e) ++ e_f3 e) ++ e_name e ++ [NUL] ++ pad4 (110 + length (e_name e) + 1)) ++ e_data e ++ pad4 (length (e_data e))) ++ rest) =
      (chars "070701" ++ e_f1 e ++ hex8 (data_size e) ++ e_f2 e) ++ hex8 (name_size e) ++ tl1) by (unfold tl1; by rewrite <- !app_assoc).
    rewrite E', drop_app_length'; [done|]. unfold hex8. rewrite !length_app, !length_fmap, to_hex_length, H1, H2. done.
  - set (tl2 := e_f2 e ++ hex8 (name_size e) ++ tl1). replace (drop c_filesize _) with (hex8 (data_size e) ++ tl2); [apply hex_parse; lia|]. symmetry.
    assert (E' : ((((chars "070701" ++ e_f1 e ++ hex8 (data_size e) ++ e_f2 e ++ hex8 (name_size e) ++ e_f3 e) ++ e_name e ++ [NUL] ++ pad4 (110 + length (e_name e) + 1)) ++ e_data e ++ pad4 (length (e_data e))) ++ rest) =
      (chars "070701" ++ e_f1 e) ++ hex8 (data_size e) ++ tl2) by (unfold tl2, tl1; by rewrite <- !app_assoc).
    rewrite E', drop_app_length'; [done|]. rewrite !length_app, H1. done.
  - rewrite <- !app_assoc. done.
Qed.

Lemma entry_payload rest : drop (Z.to_nat cpio_newc_header) (entry_bytes e ++ rest) = e_name e ++ NUL :: pad4 (110 + length (e_name e) + 1) ++ e_data e ++ pad4 (length (e_data e)) ++ rest.
Proof. unfold entry_bytes. rewrite <- !app_assoc. rewrite drop_app_length'; [done|]. by rewrite hdr_length. Qed.

Lemma entry_data rest : take (Z.to_nat (data_size e)) (drop (Z.to_nat (align4 (cpio_newc_header + name_size e))) (entry_bytes e ++ rest)) = e_data e.
Proof. unfold entry_bytes. rewrite <- head_length, Nat2Z.id, <- app_assoc, drop_app_length. rewrite <- app_assoc. unfold data_size. rewrite Nat2Z.id. by rewrite take_app_length. Qed.
End Entry.

(** ** Unpacking *)

Section Unpack.
Context `{!FsHeap, !Drivers}.
Context (rd rd_end : Z) (arch : list Z).
Implicit Types s : fs.

(** The records in [l], with the places of their data, are files of [root]. *)
Record unpacked s s' root (l : list (entry * Z)) : Prop := mk_unpacked {
  up_wf : fs_wf s';
  up_files : files s' = files s;
  up_arch : blocks s' !! rd = Some arch;
  up_keep nm p : lookup_in s root nm = Some p → lookup_in s' root nm = Some p;
  up_none nm : lookup_in s root nm = None → nm ∉ (λ x, e_name x.1) <$> l → lookup_in s' root nm = None;
  up_old p n : vnodes s !! p = Some n → ∃ n', vnodes s' !! p = Some n' ∧ v_type n' = v_type n ∧ file_size n' = file_size n ∧ internal n' = internal n;
  up_new e off : (e, off) ∈ l → ∃ p n, lookup_in s' root (e_name e) = Some p ∧ vnodes s' !! p = Some n ∧ v_type n = FILE ∧ file_size n = data_size e ∧ internal n = D_at rd off;
}.

Lemma components_plain c : 47 ∉ c → components c = [c].
Proof.
  unfold components. induction c as [|x c IH]; [done|]. rewrite not_elem_of_cons. intros [Hx Hc]. cbn [split_by]. unfold in_set at 1.
  rewrite bool_decide_false; [by rewrite IH|]. change (chars "/") with [47]. rewrite list_elem_of_singleton. congruence.
Qed.

(** One record: the file is added. *)
Lemma record_run s mnt root e addr rest :
  fs_wf s → fs_room s 3 → rd_mounted s mnt root → blocks s !! rd = Some arch → 0 ≤ addr → drop (Z.to_nat addr) arch = entry_bytes e ++ rest → entry_ok e →
  lookup_in s root (e_name e) = None →
  wp (parse_record rd mnt addr (entry_bytes e ++ rest) (name_size e) (data_size e))
    (λ last s', last = false ∧ ∃ node, file_added rd s s' root (e_name e) (data_off addr e) (data_size e) node) s.
Proof.
  intros Hw Hroom Hm Hb Ha Harch [He Hne Hsl Hsp] Hlk. pose proof He as [H1 H2 H3 H4 H5 H6]. destruct (entry_fields e He rest) as (_ & _ & Hmag).
  rewrite !not_elem_of_cons in Hsp. destruct Hsp as (N1 & N2 & N3 & _).
  unfold parse_record. wp_step. apply (wp_lift _ 0); [exact Hmag|]. cbn [negb Z.eqb]. rewrite (entry_payload e He).
  set (tl := pad4 _ ++ _). wp_step. apply (wp_lift _ (lexcmp (chars "TRAILER!!!") (e_name e))); [by apply lit_cmp|].
  destruct (Z.eqb_spec (lexcmp (chars "TRAILER!!!") (e_name e)) 0) as [E|_]; [apply lexcmp_eq in E; congruence|].
  wp_step. apply (wp_lift _ (lexcmp (chars ".") (e_name e))); [by apply lit_cmp|].
  destruct (Z.eqb_spec (lexcmp (chars ".") (e_name e)) 0) as [E|_]; [apply lexcmp_eq in E; congruence|].
  wp_step. wp_step. apply (wp_lift _ (lexcmp (chars "..") (e_name e))); [by apply lit_cmp|]. wp_step.
  destruct (Z.eqb_spec (lexcmp (chars "..") (e_name e)) 0) as [E|_]; [apply lexcmp_eq in E; congruence|].
  assert (Hlen : addr + 110 ≤ Z.of_nat (length arch)).
  { apply (f_equal length) in Harch. rewrite length_drop, length_app in Harch. unfold entry_bytes in Harch. rewrite !length_app, (hdr_length e He) in Harch. lia. }
  assert (Hcs : rd_components (e_name e) = [e_name e]) by (unfold rd_components; rewrite components_plain by done; by rewrite decide_False).
  wp_step. eapply wp_mono; [apply (create_recursive_run rd s mnt root arch (e_name e) tl (addr + cpio_newc_header) (name_size e) (data_size e) 0 [] root (e_name e))|]; try done.
  - unfold cpio_newc_header. lia.
  - unfold cpio_newc_header in *. rewrite Z2Nat.inj_add, <- drop_drop, Harch by lia. by apply (entry_payload e He rest).
  - rewrite Hcs. by constructor.
  - rewrite Hcs. cbn [walk]. rewrite decide_False by done. rewrite Hlk. by rewrite decide_True.
  - intros _ s' [node Hfa]. wp_step. split; [done|]. exists node. unfold data_off. unfold content_offset in Hfa.
    by replace (addr + cpio_newc_header + (align4 (cpio_newc_header + name_size e) - cpio_newc_header)) with (addr + align4 (cpio_newc_header + name_size e)) in Hfa by lia.
Qed.

Lemma trailer_ok : fields_ok trailer.
Proof. split; try done; [apply text_chars; by vm_compute|cbn [e_name trailer]; vm_compute; lia]. Qed.

Lemma unpack_run : ∀ l fuel s mnt root addr post,
  fs_wf s → fs_room s (2 * length l + 1) → rd_mounted s mnt root → blocks s !! rd = Some arch → 0 ≤ addr → drop (Z.to_nat addr) arch = archive l ++ post →
  addr + Z.of_nat (length (archive l)) ≤ rd_end → Forall entry_ok l → NoDup (e_name <$> l) → (∀ e, e ∈ l → lookup_in s root (e_name e) = None) → (length l < fuel)%nat →
  wp (initramfs_parse_cpio rd rd_end fuel mnt addr) (λ _ s', unpacked s s' root (layout addr l)) s.
Proof.
  induction l as [|e l IH]; intros [|fuel] s mnt root addr post Hw Hroom Hm Hb Ha Harch Hend Hok Hnd Hno Hf; try (simpl in Hf; lia); cbn [initramfs_parse_cpio].
  - change (archive []) with (entry_bytes trailer) in *. destruct (entry_fields trailer trailer_ok post) as (F1 & F2 & F3).
    assert (Hlt : (0 < length (entry_bytes trailer))%nat) by (vm_compute; lia).
    assert (Hle : 0 ≤ addr ≤ Z.of_nat (length arch)).
    { split; [done|]. apply (f_equal length) in Harch. rewrite length_drop, length_app in Harch. lia. }
    wp_step. apply (wp_rd_at rd s arch); [done|done|]. rewrite Harch. wp_step. apply (wp_lift _ _ _ _ F1). wp_step. apply (wp_lift _ _ _ _ F2).
    destruct (Z.leb_spec rd_end addr); [lia|]. wp_step. unfold parse_record. wp_step. apply (wp_lift _ _ _ _ F3). cbn [negb Z.eqb].
    rewrite (entry_payload trailer trailer_ok). wp_step. apply (wp_lift _ (lexcmp (chars "TRAILER!!!") (chars "TRAILER!!!"))).
    { apply lit_cmp; [done|done|apply text_chars; by vm_compute|vm_compute; lia]. }
    change (lexcmp _ _ =? 0) with true. cbv iota. wp_step. wp_step. split; try done; [intros p n Hp; by exists n|]. intros e off Hin. by apply elem_of_nil in Hin.
  - apply Forall_cons in Hok as [He Hok]. rewrite fmap_cons in Hnd. apply NoDup_cons in Hnd as [Hni Hnd]. pose proof (eo_fields _ He) as Hfe.
    assert (Harch' : drop (Z.to_nat addr) arch = entry_bytes e ++ archive l ++ post) by (rewrite Harch; unfold archive; rewrite fmap_cons; cbn [concat]; by rewrite <- !app_assoc).
    destruct (entry_fields e Hfe (archive l ++ post)) as (F1 & F2 & _).
    assert (Hal : Z.of_nat (length (archive (e :: l))) = Z.of_nat (length (entry_bytes e)) + Z.of_nat (length (archive l))).
    { unfold archive. rewrite fmap_cons. cbn [concat]. rewrite !length_app. lia. }
    assert (H110 : 110 ≤ Z.of_nat (length (entry_bytes e))) by (unfold entry_bytes; rewrite !length_app, (hdr_length e Hfe); lia).
    assert (Hle : 0 ≤ addr ≤ Z.of_nat (length arch)).
    { split; [done|]. apply (f_equal length) in Harch'. rewrite length_drop, length_app in Harch'. lia. }
    wp_step. apply (wp_rd_at rd s arch); [done|done|]. rewrite Harch'. wp_step. apply (wp_lift _ _ _ _ F1). wp_step. apply (wp_lift _ _ _ _ F2).
    destruct (Z.leb_spec rd_end addr); [lia|]. wp_step.
    eapply wp_mono; [apply (record_run s mnt root e addr (archive l ++ post)); try done; [eapply room_weaken; [|exact Hroom]; simpl; lia|apply Hno; by left]|].
    intros last s1 (-> & node & [A1 A2 A3 A4 A5 A6 A7 A8 A9]). cbv iota.
    pose proof Hm as (m & rn & _ & _ & Hrn & _). assert (Hrs : is_Some (vnodes s !! root)) by (by rewrite Hrn).
    replace (addr + align4 (cpio_newc_header + name_size e) + align4_u32 (data_size e)) with (addr + Z.of_nat (length (entry_bytes e))) by (rewrite (entry_length e Hfe); lia).
    eapply wp_mono; [apply (IH fuel s1 mnt root (addr + Z.of_nat (length (entry_bytes e))) post); try done|].
    + apply A2. eapply room_weaken; [|exact Hroom]. simpl. lia.
    + by apply A9.
    + by apply A7.
    + lia.
    + rewrite Z2Nat.inj_add, Nat2Z.id, <- drop_drop, Harch' by lia. by rewrite drop_app_length.
    + lia.
    + intros e' He'. rewrite A4 by done. rewrite (Hno e') by (by right). rewrite decide_False; [done|]. intros [_ E]. apply Hni. rewrite <- E. by apply list_elem_of_fmap_2.
    + simpl in Hf. lia.
    + intros _ s' [U1 U2 U3 U4 U5 U6 U7]. split.
      * done.
      * by rewrite U2.
      * done.
      * intros nm p Hp. apply U4. by rewrite A4, Hp.
      * intros nm Hn Hin. cbn [layout fmap list_fmap] in Hin. apply not_elem_of_cons in Hin as [Hne Hin]. apply U5; [|done]. rewrite A4, Hn by done. rewrite decide_False; [done|]. intros [_ ->]. done.
      * intros p n Hp. destruct (A6 p n Hp) as (n1 & E1 & T1 & S1 & I1). destruct (U6 p n1 E1) as (n2 & E2 & T2 & S2 & I2). exists n2. rewrite T2, S2, I2. done.
      * intros e' off [[= -> ->]|Hin]%elem_of_cons; [|by apply U7]. destruct A5 as (n & E & T & S & I). destruct (U6 node n E) as (n2 & E2 & T2 & S2 & I2).
        exists node, n2. rewrite T2, S2, I2. split; [|done]. apply U4. rewrite A4 by done. rewrite (Hno e) by (by left). by rewrite decide_True.
Qed.

(** ** Reading *)

Lemma layout_elem e : ∀ l addr, e ∈ l → ∃ off, (e, off) ∈ layout addr l.
Proof.
  induction l as [|x l IH]; intros addr Hin; [by apply elem_of_nil in Hin|]. apply elem_of_cons in Hin as [->|Hin]; cbn [layout]; [eexists; by left|].
  destruct (IH (addr + Z.of_nat (length (entry_bytes x))) Hin) as [off Ho]. exists off. by right.
Qed.

Lemma layout_data e off post : ∀ l addr, Forall entry_ok l → 0 ≤ addr → drop (Z.to_nat addr) arch = archive l ++ post → (e, off) ∈ layout addr l →
  0 ≤ off ∧ off + data_size e ≤ Z.of_nat (length arch) ∧ take (Z.to_nat (data_size e)) (drop (Z.to_nat off) arch) = e_data e.
Proof.
  induction l as [|x l IH]; intros addr Hok Ha Harch Hin; [by apply elem_of_nil in Hin|]. apply Forall_cons in Hok as [Hx Hok]. pose proof (eo_fields _ Hx) as Hf.
  assert (Harch' : drop (Z.to_nat addr) arch = entry_bytes x ++ archive l ++ post) by (rewrite Harch; unfold archive; rewrite fmap_cons; cbn [concat]; by rewrite <- !app_assoc).
  apply elem_of_cons in Hin as [[= -> ->]|Hin].
  - pose proof (eo_short _ Hf). assert (Hal : 0 ≤ align4 (cpio_newc_header + name_size x)) by (unfold name_size, cpio_newc_header; rewrite align4_eq by lia; pose proof (Z.mod_pos_bound (- (110 + (Z.of_nat (length (e_name x)) + 1))) 4); lia).
    unfold data_off. rewrite Z2Nat.inj_add, <- drop_drop, Harch' by lia. rewrite (entry_data x Hf). split; [lia|]. split; [|done].
    apply (f_equal length) in Harch'. rewrite length_drop, length_app in Harch'. pose proof (entry_length x Hf) as E.
    assert (data_size x ≤ align4_u32 (data_size x)). { pose proof (eo_size _ Hf). unfold data_size in *. rewrite align4_u32_eq by lia. pose proof (Z.mod_pos_bound (- Z.of_nat (length (e_data x))) 4). lia. }
    assert (110 ≤ Z.of_nat (length (entry_bytes x))) by (unfold entry_bytes; rewrite !length_app, (hdr_length x Hf); lia). lia.
  - apply (IH (addr + Z.of_nat (length (entry_bytes x)))); try done; [lia|]. rewrite Z2Nat.inj_add, Nat2Z.id, <- drop_drop, Harch' by lia. by rewrite drop_app_length.
Qed.

Lemma rd_read s x f n off data len : blocks s !! rd = Some arch → files s !! x = Some f → vnodes s !! fl_vnode f = Some n → f_pos f = 0 →
  internal n = D_at rd off → file_size n = Z.of_nat (length data) → Z.of_nat (length data) < 2 ^ 31 → 0 ≤ off → off + Z.of_nat (length data) ≤ Z.of_nat (length arch) → Z.of_nat (length arch) < 2 ^ 64 →
  take (length data) (drop (Z.to_nat off) arch) = data → Z.of_nat (length data) ≤ len →
  ∃ s', tmpfs_read x len s = Ok ((Z.of_nat (length data), data), s').
Proof.
  intros Hb Hx Hn Hp Hi Hs Hl Ho He Ha Hd Hlen.
  destruct (proj1 (wp_run (tmpfs_read x len) (λ r _, r = (Z.of_nat (length data), data)) s)) as (r & s' & E & ->); [|by exists s'].
  unfold tmpfs_read. wp_step. apply (wp_file_get _ f); [done|]. wp_step. apply (wp_vnode_get _ n); [done|]. rewrite Hp, Hs, Hi, Z.sub_0_r. rewrite u64_small by lia. rewrite Z.min_r by lia.
  wp_step. apply (wp_mono _ (λ b t, b = data ∧ t = s)).
  - unfold copy_out. assert (u32 (Z.of_nat (length data)) = Z.of_nat (length data)) as -> by (apply Z.mod_small; lia).
    destruct (Z.eqb_spec (Z.of_nat (length data)) 0) as [E|E]; [wp_step; split; [by destruct data|done]|].
    wp_step. apply wp_get_st. wp_step. apply (wp_deref _ arch); [done|]. rewrite Z.add_0_r, u64_small by lia. wp_step. apply wp_assert; [lia|]. wp_step. by rewrite Nat2Z.id.
  - intros b t [-> ->]. wp_step. apply (wp_file_upd _ f); [done|]. wp_step. unfold i64. f_equal. rewrite Z.mod_small; lia.
Qed.

(** C27: An archive of plain files with different names becomes a directory: after
    [initramfs_parse_cpio] each file is found under its name, reading it from
    the start gives its data, and no other name was added.  The loop ends at
    the trailer. *)
Theorem initramfs_roundtrip l fuel s mnt root post :
  fs_wf s → fs_room s (2 * length l + 1) → rd_mounted s mnt root → blocks s !! rd = Some arch → arch = archive l ++ post → Z.of_nat (length arch) < 2 ^ 64 →
  Z.of_nat (length (archive l)) ≤ rd_end → Forall entry_ok l → NoDup (e_name <$> l) → (∀ e, e ∈ l → lookup_in s root (e_name e) = None) → (length l < fuel)%nat →
  ∃ s', initramfs_parse_cpio rd rd_end fuel mnt 0 s = Ok (tt, s') ∧ fs_wf s' ∧
    (∀ e, e ∈ l → ∃ p n, lookup_in s' root (e_name e) = Some p ∧ vnodes s' !! p = Some n ∧ v_type n = FILE ∧
       ∀ t x f len, vnodes t = vnodes s' → blocks t = blocks s' → files t !! x = Some f → fl_vnode f = p → f_pos f = 0 → data_size e ≤ len →
         ∃ t', tmpfs_read x len t = Ok ((data_size e, e_data e), t')) ∧
    ∀ nm, lookup_in s root nm = None → nm ∉ e_name <$> l → lookup_in s' root nm = None.
Proof.
  intros Hw Hroom Hm Hb Harch Hsz Hend Hok Hnd Hno Hf.
  destruct (wp_unit _ _ _ (unpack_run l fuel s mnt root 0 post Hw Hroom Hm Hb ltac:(lia) Harch ltac:(lia) Hok Hnd Hno Hf)) as (s' & E & [U1 U2 U3 U4 U5 U6 U7]).
  exists s'. split; [done|]. split; [done|]. split.
  - intros e He. destruct (layout_elem e l 0 He) as [off Ho]. destruct (U7 e off Ho) as (p & n & Hp & Hn & Ht & Hs & Hi). exists p, n. split_and!; try done.
    destruct (layout_data e off post l 0 Hok ltac:(lia) Harch Ho) as (D1 & D2 & D3). intros t x f len Ev Eb Hx Hfn Hfp Hlen.
    assert (Hee : entry_ok e) by (by eapply Forall_forall in Hok). pose proof (eo_size _ (eo_fields _ Hee)). unfold data_size in *. rewrite Nat2Z.id in D3.
    apply (rd_read t x f n off); try done; [by rewrite Eb|by rewrite Ev, Hfn].
  - intros nm Hn Hni. apply U5; [done|]. intros Hin. apply Hni. clear -Hin. revert Hin. generalize 0. induction l as [|x l IH]; intros z Hin; [done|].
    cbn [layout] in Hin. rewrite fmap_cons in *. apply elem_of_cons in Hin as [->|Hin]; [by left|right]. by eapply IH.
Qed.
End Unpack.

(** ** Witnesses *)

(** An archive of two files, at address 100. *)
Definition demo_entry (name data : string) : entry := mk_entry (chars name) (chars data) (replicate 48 48) (replicate 32 48) (replicate 8 48).
Definition demo_entries : list entry := [demo_entry "hello" "Hello, world"; demo_entry "init.rc" ""].
Definition demo_arch : list Z := archive demo_entries.
Definition rd_started : fs := set_blocks {[100 := demo_arch]} (set_heap ({[100]} ∪ heap started) started).

Lemma rd_started_wf : fs_wf rd_started.
Proof.
  pose proof VfsWitness.started_wf as Hs. pose proof (fs_wf_heap started ({[100]} ∪ heap started) (f_cpu started) Hs ltac:(set_solver)) as Hw.
  replace (set_fcpu (f_cpu started) started) with started in Hw by reflexivity.
  assert (Hw' : fs_wf (set_heap ({[100]} ∪ heap started) started)).
  { apply Hw; [|done]. intros p [->%elem_of_singleton|Hp]%elem_of_union; [done|by apply (fw_pos _ Hs)]. }
  split; try apply Hw'. intros p [b Hb]. change (blocks rd_started) with ({[100 := demo_arch]} : gmap Z (list Z)) in Hb.
  apply lookup_singleton_Some in Hb as [<- _]. simpl. set_solver.
Qed.

Lemma demo_entries_ok : Forall entry_ok demo_entries.
Proof.
  assert (H : ∀ name data, forallb (λ c, (0 <? c) && (c <? 256)) (chars name) = true → bool_decide (length (chars name) < 256)%nat = true → bool_decide (Z.of_nat (length (chars data)) < 2 ^ 31) = true →
    bool_decide (chars name ≠ []) = true → bool_decide (47 ∉ chars name) = true → bool_decide (chars name ∉ [chars "."; chars ".."; chars "TRAILER!!!"]) = true → entry_ok (demo_entry name data)).
  { intros name data H1 H2%bool_decide_eq_true H3%bool_decide_eq_true H4%bool_decide_eq_true H5%bool_decide_eq_true H6%bool_decide_eq_true. split; [|done..]. split; try done. by apply text_chars. }
  repeat constructor; apply H; vm_compute; reflexivity.
Qed.

Lemma initramfs_roundtrip_witness : let _ := heap0 in let _ := drivers0 in
  ∃ s' p n, initramfs_parse_cpio 100 1000 5 2 0 rd_started = Ok (tt, s') ∧ lookup_in s' 3 (chars "hello") = Some p ∧ vnodes s' !! p = Some n ∧
    ∃ t', tmpfs_read 7 100 (set_files {[7 := mk_file p 0 0 0 1]} s') = Ok ((12, chars "Hello, world"), t').
Proof.
  intros ? ?. destruct (initramfs_roundtrip (H := heap0) (H0 := drivers0) 100 1000 demo_arch demo_entries 5 rd_started 2 3 []) as (s' & E & _ & Hin & _).
  - exact rd_started_wf.
  - apply heap0_room.
  - eexists _, _. split; [reflexivity|]. split; [reflexivity|]. split; reflexivity.
  - reflexivity.
  - symmetry. apply app_nil_r.
  - vm_compute. reflexivity.
  - vm_compute. discriminate.
  - exact demo_entries_ok.
  - apply (bool_decide_unpack _). vm_compute. exact I.
  - intros e He. unfold demo_entries in He. rewrite !elem_of_cons, elem_of_nil in He. destruct He as [->|[->|[]]]; vm_compute; reflexivity.
  - simpl. lia.
  - destruct (Hin (demo_entry "hello" "Hello, world")) as (p & n & H1 & H2 & _ & H3); [by left|]. exists s', p, n. split; [exact E|]. split; [exact H1|]. split; [exact H2|].
    apply (H3 (set_files {[7 := mk_file p 0 0 0 1]} s') 7 (mk_file p 0 0 0 1) 100); [reflexivity|reflexivity|apply lookup_singleton_eq|reflexivity|reflexivity|vm_compute; discriminate].
Defined.
