(* ===== verification/Sd.v ===== *)
(** * SD card driver (src/kernel/sd.c, include/kernel/sd.h)

    The SDHOST controller and the card behind it are hardware: a parameter of
    the driver, which reads and writes their registers.  A loop without a bound
    takes fuel. *)

From S2P Require Import Prelude Buddy.

Definition MMIO_BASE : Z := v_kernel_space + 0x3f000000.

Definition GO_IDLE_STATE : Z := 0.
Definition ALL_SEND_CID : Z := 2.
Definition SEND_RELATIVE_ADDR : Z := 3.
Definition SELECT_CARD : Z := 7.
Definition SEND_IF_COND : Z := 8.
Definition VOLTAGE_CHECK_PATTERN : Z := 0x1aa.
Definition STOP_TRANSMISSION : Z := 12.
Definition SET_BLOCKLEN : Z := 16.
Definition READ_SINGLE_BLOCK : Z := 17.
Definition WRITE_SINGLE_BLOCK : Z := 24.
Definition SD_APP_OP_COND : Z := 41.
Definition SDCARD_3_3V : Z := Z.shiftl 1 21.
Definition SDCARD_ISHCS : Z := Z.shiftl 1 30.
Definition SDCARD_READY : Z := Z.shiftl 1 31.
Definition APP_CMD : Z := 55.

Definition GPIO_BASE : Z := MMIO_BASE + 0x200000.
Definition GPIO_GPFSEL4 : Z := GPIO_BASE + 0x10.
Definition GPIO_GPFSEL5 : Z := GPIO_BASE + 0x14.
Definition GPIO_GPPUD : Z := GPIO_BASE + 0x94.
Definition GPIO_GPPUDCLK1 : Z := GPIO_BASE + 0x9c.

Definition SDHOST_BASE : Z := MMIO_BASE + 0x202000.
Definition SDHOST_CMD : Z := SDHOST_BASE + 0.
Definition SDHOST_READ : Z := 0x40.
Definition SDHOST_WRITE : Z := 0x80.
Definition SDHOST_LONG_RESPONSE : Z := 0x200.
Definition SDHOST_NO_REPONSE : Z := 0x400.
Definition SDHOST_BUSY : Z := 0x800.
Definition SDHOST_NEW_CMD : Z := 0x8000.
Definition SDHOST_ARG : Z := SDHOST_BASE + 0x4.
Definition SDHOST_TOUT : Z := SDHOST_BASE + 0x8.
Definition SDHOST_TOUT_DEFAULT : Z := 0xf00000.
Definition SDHOST_CDIV : Z := SDHOST_BASE + 0xc.
Definition SDHOST_CDIV_DEFAULT : Z := 0x148.
Definition SDHOST_RESP0 : Z := SDHOST_BASE + 0x10.
Definition SDHOST_HSTS : Z := SDHOST_BASE + 0x20.
Definition SDHOST_HSTS_MASK : Z := 0x7f8.
Definition SDHOST_HSTS_ERR_MASK : Z := 0xf8.
Definition SDHOST_HSTS_DATA : Z := Z.shiftl 1 0.
Definition SDHOST_PWR : Z := SDHOST_BASE + 0x30.
Definition SDHOST_DBG : Z := SDHOST_BASE + 0x34.
Definition SDHOST_DBG_FSM_MASK : Z := 0xf.
Definition SDHOST_DBG_MASK : Z := Z.lor (Z.shiftl 0x1f 14) (Z.shiftl 0x1f 9).
Definition SDHOST_DBG_FIFO : Z := Z.lor (Z.shiftl 0x4 14) (Z.shiftl 0x4 9).
Definition SDHOST_CFG : Z := SDHOST_BASE + 0x38.
Definition SDHOST_CFG_DATA_EN : Z := Z.shiftl 1 4.
Definition SDHOST_CFG_SLOW : Z := Z.shiftl 1 3.
Definition SDHOST_CFG_INTBUS : Z := Z.shiftl 1 1.
Definition SDHOST_SIZE : Z := SDHOST_BASE + 0x3c.
Definition SDHOST_DATA : Z := SDHOST_BASE + 0x40.
Definition SDHOST_CNT : Z := SDHOST_BASE + 0x50.

(** The controller: a read of a register gives its value and may change the
    device, as a write does. *)
Class SdHost := { dev : Type; dev_get : Z → dev → Z * dev; dev_set : Z → Z → dev → dev }.

Section Driver.
Context `{!SdHost}.

Record sds := mk_sds { is_hcs : Z; host : dev }.

Definition get (io_addr : Z) : M sds Z := λ s,
  let '(v, d) := dev_get io_addr (host s) in Ok (u32 v, mk_sds (is_hcs s) d).
Definition set (io_addr val : Z) : M sds unit := modify (λ s, mk_sds (is_hcs s) (dev_set io_addr (u32 val) (host s))).

(** [tick] times [nop]. *)
Definition delay (tick : Z) : M sds unit := mret tt.

Definition pin_setup : M sds unit :=
  set GPIO_GPFSEL4 0x24000000 ;;
  set GPIO_GPFSEL5 0x924 ;;
  set GPIO_GPPUD 0 ;;
  delay 15000 ;;
  set GPIO_GPPUDCLK1 0xffffffff ;;
  delay 15000 ;;
  set GPIO_GPPUDCLK1 0.

Definition sdhost_setup : M sds unit :=
  set SDHOST_PWR 0 ;;
  set SDHOST_CMD 0 ;;
  set SDHOST_ARG 0 ;;
  set SDHOST_TOUT SDHOST_TOUT_DEFAULT ;;
  set SDHOST_CDIV 0 ;;
  set SDHOST_HSTS SDHOST_HSTS_MASK ;;
  set SDHOST_CFG 0 ;;
  set SDHOST_CNT 0 ;;
  set SDHOST_SIZE 0 ;;
  tmp ← get SDHOST_DBG;
  let tmp := Z.land tmp (u32 (Z.lnot SDHOST_DBG_MASK)) in
  let tmp := Z.lor tmp SDHOST_DBG_FIFO in
  set SDHOST_DBG tmp ;;
  delay 250000 ;;
  set SDHOST_PWR 1 ;;
  delay 250000 ;;
  set SDHOST_CFG (Z.lor (Z.lor SDHOST_CFG_SLOW SDHOST_CFG_INTBUS) SDHOST_CFG_DATA_EN) ;;
  set SDHOST_CDIV SDHOST_CDIV_DEFAULT.

(** The polls a loop makes before it gives up. *)
Definition POLLS : nat := Z.to_nat 1000000.

Fixpoint wait_sd_loop (cnt : nat) : M sds Z :=
  match cnt with
  | O => mret (-1)
  | S cnt' => cmd ← get SDHOST_CMD; if negb (Z.land cmd SDHOST_NEW_CMD =? 0) then wait_sd_loop cnt' else mret 0
  end.
Definition wait_sd : M sds Z := wait_sd_loop POLLS.

Definition sd_cmd (cmd arg : Z) : M sds Z :=
  set SDHOST_ARG arg ;;
  set SDHOST_CMD (Z.lor cmd SDHOST_NEW_CMD) ;;
  wait_sd.

(** The [while (1)] loop; the result is the last response. *)
Fixpoint op_cond_loop (fuel : nat) : M sds Z :=
  match fuel with
  | O => spin
  | S fuel' =>
      r ← sd_cmd APP_CMD 0;
      if r =? -1 then op_cond_loop fuel'
      else
        sd_cmd SD_APP_OP_COND (Z.lor SDCARD_3_3V SDCARD_ISHCS) ;;
        tmp ← get SDHOST_RESP0;
        if negb (Z.land tmp SDCARD_READY =? 0) then mret tmp
        else delay 1000000 ;; op_cond_loop fuel'
  end.

Definition sdcard_setup (fuel : nat) : M sds Z :=
  sd_cmd (Z.lor GO_IDLE_STATE SDHOST_NO_REPONSE) 0 ;;
  sd_cmd SEND_IF_COND VOLTAGE_CHECK_PATTERN ;;
  tmp ← get SDHOST_RESP0;
  if negb (tmp =? VOLTAGE_CHECK_PATTERN) then mret (-1)
  else
    tmp ← op_cond_loop fuel;
    modify (λ s, mk_sds (Z.land tmp SDCARD_ISHCS) (host s)) ;;
    sd_cmd (Z.lor ALL_SEND_CID SDHOST_LONG_RESPONSE) 0 ;;
    sd_cmd SEND_RELATIVE_ADDR 0 ;;
    tmp ← get SDHOST_RESP0;
    sd_cmd SELECT_CARD tmp ;;
    sd_cmd SET_BLOCKLEN 512 ;;
    mret 0.

Fixpoint wait_fifo_loop (cnt : nat) : M sds Z :=
  match cnt with
  | O => mret (-1)
  | S cnt' => hsts ← get SDHOST_HSTS; if Z.land hsts SDHOST_HSTS_DATA =? 0 then wait_fifo_loop cnt' else mret 0
  end.
Definition wait_fifo : M sds Z := wait_fifo_loop POLLS.

Definition set_block (size cnt : Z) : M sds unit := set SDHOST_SIZE size ;; set SDHOST_CNT cnt.

Fixpoint wait_finish (fuel : nat) : M sds unit :=
  match fuel with
  | O => spin
  | S fuel' =>
      dbg ← get SDHOST_DBG;
      if negb (Z.land dbg SDHOST_DBG_FSM_MASK =? SDHOST_HSTS_DATA) then wait_finish fuel' else mret tt
  end.

(** The address: a card of standard capacity counts bytes. *)
Definition card_addr (block_idx : Z) : M sds Z :=
  hcs ← gets is_hcs; mret (if hcs =? 0 then i32 (Z.shiftl block_idx 9) else block_idx).

(** The check after the words: true if there was no error. *)
Definition check_status : M sds bool :=
  hsts ← get SDHOST_HSTS;
  if negb (Z.land hsts SDHOST_HSTS_ERR_MASK =? 0) then
    set SDHOST_HSTS SDHOST_HSTS_ERR_MASK ;;
    sd_cmd (Z.lor STOP_TRANSMISSION SDHOST_BUSY) 0 ;;
    mret false
  else mret true.

Fixpoint read_words (n : nat) : M sds (list Z) :=
  match n with
  | O => mret []
  | S n' => wait_fifo ;; w ← get SDHOST_DATA; ws ← read_words n'; mret (w :: ws)
  end.

(** Every round fills the whole buffer. *)
Fixpoint read_loop (fuel : nat) (addr : Z) : M sds (list Z) :=
  match fuel with
  | O => spin
  | S fuel' =>
      set_block 512 1 ;;
      sd_cmd (Z.lor READ_SINGLE_BLOCK SDHOST_READ) addr ;;
      ws ← read_words 128;
      succ ← check_status;
      if succ : bool then mret ws else read_loop fuel' addr
  end.

(** The 128 words stored at [buf]. *)
Definition readblock (fuel : nat) (block_idx : Z) : M sds (list Z) :=
  addr ← card_addr block_idx;
  ws ← read_loop fuel addr;
  wait_finish fuel ;;
  mret ws.

Fixpoint write_words (ws : list Z) : M sds unit :=
  match ws with
  | [] => mret tt
  | w :: ws' => wait_fifo ;; set SDHOST_DATA w ;; write_words ws'
  end.

Fixpoint write_loop (fuel : nat) (addr : Z) (ws : list Z) : M sds unit :=
  match fuel with
  | O => spin
  | S fuel' =>
      set_block 512 1 ;;
      sd_cmd (Z.lor WRITE_SINGLE_BLOCK SDHOST_WRITE) addr ;;
      write_words ws ;;
      succ ← check_status;
      if succ : bool then mret tt else write_loop fuel' addr ws
  end.

(** [ws] are the first 128 words at [buf]. *)
Definition writeblock (fuel : nat) (block_idx : Z) (ws : list Z) : M sds unit :=
  addr ← card_addr block_idx;
  write_loop fuel addr ws ;;
  wait_finish fuel.

Definition sd_init (fuel : nat) : M sds unit :=
  pin_setup ;;
  sdhost_setup ;;
  sdcard_setup fuel ;;
  mret tt.
End Driver.
