(* ===== verification/Fat32.v ===== *)
(** * FAT32 (src/kernel/fat32.c, include/kernel/fat32.h)

    The card is a map from block numbers to blocks of 512 bytes; [readblock]
    and [writeblock] are what sd.c does ([SdThm.sd_refines_disk]).  A cached sector
    is a byte array in [blocks]; the fields of a directory entry are bytes of
    its sector at the offsets of the packed structure, so an index past a name
    field reaches the next field, and one past the sector is undefined.  A
    pointer to an entry is the sector's address and an offset. *)

From S2P Require Import Prelude Cpu Str VfsData Tmpfs Vfs.

Definition BLK_SZ : Z := 512.
Definition LFN_NAME_LEN : Z := 255.
Definition DIR_ENTRY_UNUSED : Z := 0xe5.
Definition DIR_ENTRY_UNUSED_JP : Z := 0x05.
Definition DIR_ENTRY_LAST_AND_UNUSED : Z := 0x00.
Definition SPACE : Z := 0x20.
Definition FAT_VAL_MASK : Z := 0x0fffffff.
Definition FAT_ENTRY_FREE : Z := 0.
Definition ATTR_VOLUME_ID : Z := 0x08.
Definition ATTR_DIRECTORY : Z := 0x10.
Definition ATTR_ARCHIVE : Z := 0x20.
Definition ATTR_LONG_NAME : Z := 0x0f.

(** ** Bytes and words *)

Fixpoint of_le (l : list Z) : Z := match l with [] => 0 | b :: l' => b + 256 * of_le l' end.

Fixpoint to_le (n : nat) (x : Z) : list Z :=
  match n with O => [] | S n' => x mod 256 :: to_le n' (x / 256) end.

Definition slice (off n : Z) (l : list Z) : list Z := take (Z.to_nat n) (drop (Z.to_nat off) l).

(** [new] stored over the bytes of [l] from [off] on. *)
Definition splice (off : Z) (new l : list Z) : list Z :=
  take (Z.to_nat off) l ++ new ++ drop (Z.to_nat off + length new) l.

Fixpoint words_of (n : nat) (l : list Z) : list Z :=
  match n with O => [] | S n' => of_le (take 4 l) :: words_of n' (drop 4 l) end.

Definition bytes_of (ws : list Z) : list Z := ws ≫= to_le 4.

(** ** Access to the state *)

Definition vol : M fs fat32_data := s ← get_st; mret (fat s).

Definition with_cache c v := mk_fat32 (start_blk_idx v) (end_of_file v) (BPB_BytsPerSec v) (BPB_SecPerClus v) (BPB_RsvdSecCnt v) (BPB_NumFATs v) (BPB_FATSz32 v) (BPB_RootClus v) c (fat_mount_point v).
Definition with_mount_point p v := mk_fat32 (start_blk_idx v) (end_of_file v) (BPB_BytsPerSec v) (BPB_SecPerClus v) (BPB_RsvdSecCnt v) (BPB_NumFATs v) (BPB_FATSz32 v) (BPB_RootClus v) (fat_cache v) p.
Definition with_start b v := mk_fat32 b (end_of_file v) (BPB_BytsPerSec v) (BPB_SecPerClus v) (BPB_RsvdSecCnt v) (BPB_NumFATs v) (BPB_FATSz32 v) (BPB_RootClus v) (fat_cache v) (fat_mount_point v).

Definition vol_upd (f : fat32_data → fat32_data) : M fs unit := modify (λ s, set_fat (f (fat s)) s).

Definition fdata_get (p : Z) : M fs fat32_f_data := s ← get_st; deref (f_datas s !! p).
Definition fdata_upd (p : Z) (f : fat32_f_data → fat32_f_data) : M fs unit :=
  m ← fdata_get p; modify (λ s, set_fdatas (<[p := f m]> (f_datas s)) s).
Definition with_dirty b m := mk_fdata b (clus_idx m) (content_cache m).
Definition with_content l m := mk_fdata (dirty m) (clus_idx m) l.

(** [node->internal] as a pointer to a [struct fat32_f_data]. *)
Definition metadata_of (n : vnode) : M fs Z :=
  match internal n with D_at p 0 => mret p | _ => ub end.

Definition block_get (a : Z) : M fs (list Z) := s ← get_st; deref (blocks s !! a).
Definition block_set (a : Z) (l : list Z) : M fs unit := modify (λ s, set_blocks (<[a := l]> (blocks s)) s).

(** Bytes [off .. off + n) of a sector. *)
Definition peek (a off n : Z) : M fs (list Z) :=
  l ← block_get a;
  assert ((0 <=? off) && (off + n <=? Z.of_nat (length l))) ;;
  mret (slice off n l).

Definition poke (a off : Z) (new : list Z) : M fs unit :=
  l ← block_get a;
  assert ((0 <=? off) && (off + Z.of_nat (length new) <=? Z.of_nat (length l))) ;;
  block_set a (splice off new l).

(** ** The card (sd.c) *)

Definition disk_read (idx : Z) : M fs (list Z) := s ← get_st; deref (sd s !! i32 idx).

(** The 512 bytes are written over the start of the buffer. *)
Definition readblock (idx : Z) (a : Z) : M fs unit := blk ← disk_read idx; poke a 0 blk.

Definition disk_write (idx : Z) (blk : list Z) : M fs unit :=
  _ ← disk_read idx; modify (λ s, set_sd (<[i32 idx := blk]> (sd s)) s).

Definition writeblock (idx : Z) (a : Z) : M fs unit := blk ← peek a 0 BLK_SZ; disk_write idx blk.

(** ** The file allocation table *)

Definition FirstDataSector (v : fat32_data) : Z := u32 (BPB_RsvdSecCnt v + u32 (BPB_NumFATs v * BPB_FATSz32 v)).

Definition FirstSectorofCluster (v : fat32_data) (n : Z) : Z :=
  u32 (u32 (u32 (n - 2) * BPB_SecPerClus v) + FirstDataSector v).

Definition get_fat_entry (clus : Z) : M fs Z := v ← vol; deref (fat_cache v !! Z.to_nat clus).

(** [val] is not masked. *)
Definition set_fat_entry (clus val : Z) : M fs unit :=
  x ← get_fat_entry clus;
  vol_upd (λ v, with_cache (<[Z.to_nat clus := Z.lor (Z.land x (u32 (Z.lnot FAT_VAL_MASK))) val]> (fat_cache v)) v).

Fixpoint free_clus_loop (n : nat) (i : Z) : M fs Z :=
  match n with
  | O => mret (u32 (Z.lnot 0))
  | S n' => x ← get_fat_entry i; if x =? FAT_ENTRY_FREE then mret i else free_clus_loop n' (i + 1)
  end.

Definition get_free_clus_idx : M fs Z :=
  v ← vol; free_clus_loop (Z.to_nat (u32 (BPB_FATSz32 v * BPB_BytsPerSec v) / 4)) 0.

(** The next cluster of a chain that ends at [clus]. *)
Definition append_cluster (clus : Z) : M fs Z :=
  v ← vol;
  tmp ← get_free_clus_idx;
  set_fat_entry clus tmp ;;
  set_fat_entry tmp (end_of_file v) ;;
  mret tmp.

(** ** Cached contents *)

Section Fat32.
Context `{!FsHeap}.

(** [malloc] of no bytes gives NULL. *)
Definition add_new_cache_sec (md : Z) : M fs Z :=
  v ← vol;
  new_sec ← (if BPB_BytsPerSec v =? 0 then mret 0 else f_malloc);
  if new_sec =? 0 then mret 0
  else
    block_set new_sec (replicate (Z.to_nat (BPB_BytsPerSec v)) 0) ;;
    fdata_upd md (λ m, with_content (content_cache m ++ [new_sec]) m) ;;
    mret new_sec.

(** The sectors of one cluster; [true] is the early return. *)
Fixpoint load_cluster (n : nat) (node md clus i sec_cnt : Z) : M fs bool :=
  match n with
  | O => mret false
  | S n' =>
      v ← vol;
      x ← vnode_get node;
      if bool_decide (v_type x = FILE) && (file_size x <=? u64 (i32 (sec_cnt * BPB_BytsPerSec v))) then mret true
      else
        sec ← add_new_cache_sec md;
        readblock (u32 (start_blk_idx v + FirstSectorofCluster v clus + i)) sec ;;
        load_cluster n' node md clus (i + 1) (sec_cnt + 1)
  end.

Fixpoint load_chain (fuel : nat) (node md clus sec_cnt : Z) : M fs unit :=
  match fuel with
  | O => spin
  | S fuel' =>
      v ← vol;
      stop ← load_cluster (Z.to_nat (BPB_SecPerClus v)) node md clus 0 sec_cnt;
      if (stop : bool) then mret tt
      else
        e ← get_fat_entry clus;
        if e =? end_of_file v then mret tt
        else load_chain fuel' node md (Z.land e FAT_VAL_MASK) (sec_cnt + BPB_SecPerClus v)
  end.

(** A chain without a cycle has at most as many clusters as the table has
    entries; a file's loop also ends after [file_size] sectors. *)
Definition load_content (node : Z) : M fs unit :=
  v ← vol;
  x ← vnode_get node;
  md ← metadata_of x;
  m ← fdata_get md;
  load_chain (S (length (fat_cache v) + Z.to_nat (file_size x))) node md (clus_idx m) 0.

(** [load_content] when nothing is cached. *)
Definition cache_dir (node : Z) : M fs Z :=
  x ← vnode_get node;
  md ← metadata_of x;
  m ← fdata_get md;
  (if bool_decide (content_cache m = []) then load_content node else mret tt) ;;
  mret md.

(** ** Directory entries *)

(** The offsets of the entries of a sector. *)
Definition entry_offs (v : fat32_data) : list Z :=
  (λ i, 32 * Z.of_nat i) <$> seq 0 (Z.to_nat ((BPB_BytsPerSec v + 31) / 32)).

Definition entry_clus (a d : Z) : M fs Z :=
  hi ← peek a (d + 20) 2; lo ← peek a (d + 26) 2;
  mret (u32 (u32 (Z.shiftl (of_le hi) 16) + of_le lo)).

Fixpoint find_in_sector (offs : list Z) (a target : Z) : M fs (option (Z * Z)) :=
  match offs with
  | [] => mret None
  | d :: offs' =>
      c ← entry_clus a d;
      attr ← peek a (d + 11) 1;
      if of_le attr =? ATTR_LONG_NAME then find_in_sector offs' a target
      else if c =? target then mret (Some (a, d))
      else find_in_sector offs' a target
  end.

Fixpoint find_in_sectors (secs : list Z) (target : Z) : M fs (option (Z * Z)) :=
  match secs with
  | [] => mret None
  | a :: secs' =>
      v ← vol;
      r ← find_in_sector (entry_offs v) a target;
      match r with Some d => mret (Some d) | None => find_in_sectors secs' target end
  end.

(** [None] is NULL. *)
Definition get_dir_entry (node : Z) : M fs (option (Z * Z)) :=
  x ← vnode_get node;
  p ← vnode_get (v_parent x);
  _ ← metadata_of p;
  own ← metadata_of x;
  t ← fdata_get own;
  md ← cache_dir (v_parent x);
  m ← fdata_get md;
  find_in_sectors (content_cache m) (clus_idx t).

(** The characters before the first dot, and the rest after it. *)
Fixpoint base_of (t : list Z) : list Z :=
  match t with [] => [] | c :: t' => if c =? 46 then [] else c :: base_of t' end.

Definition pad (n : nat) (l : list Z) : list Z := l ++ replicate (n - length l) SPACE.

Definition fill_entry (node a d : Z) : M fs unit :=
  x ← vnode_get node;
  n ← lift (strlen (v_name x));
  let t := take (Z.to_nat n) (v_name x) in
  let base := base_of t in
  poke a d (pad 8 base) ;;
  poke a (d + 8) (pad 3 (drop (S (length base)) t)) ;;
  poke a (d + 11) [if bool_decide (v_type x = DIR) then Z.lor ATTR_ARCHIVE ATTR_DIRECTORY else ATTR_ARCHIVE] ;;
  poke a (d + 28) (to_le 4 (file_size x)) ;;
  md ← metadata_of x;
  m ← fdata_get md;
  poke a (d + 20) (to_le 2 (Z.shiftr (clus_idx m) 16)) ;;
  poke a (d + 26) (to_le 2 (Z.land (clus_idx m) 0xffff)).

(** After the last entry: the next one becomes the last. *)
Definition move_last (md clus a d : Z) : M fs unit :=
  v ← vol;
  '(na, nd) ← (if BPB_BytsPerSec v <=? d + 32 then
                 na ← add_new_cache_sec md;
                 append_cluster clus ;;
                 mret (na, 0)
               else mret (a, d + 32));
  poke na nd [DIR_ENTRY_LAST_AND_UNUSED].

(** [true]: the entry was stored. *)
Fixpoint reg_in_sector (offs : list Z) (node md clus a : Z) : M fs bool :=
  match offs with
  | [] => mret false
  | d :: offs' =>
      c ← peek a d 1;
      let c := of_le c in
      if (c =? DIR_ENTRY_LAST_AND_UNUSED) || (c =? DIR_ENTRY_UNUSED) || (c =? DIR_ENTRY_UNUSED_JP) then
        (if c =? DIR_ENTRY_LAST_AND_UNUSED then move_last md clus a d else mret tt) ;;
        fill_entry node a d ;;
        mret true
      else reg_in_sector offs' node md clus a
  end.

Fixpoint reg_in_sectors (secs : list Z) (node md clus sec_cnt : Z) : M fs unit :=
  match secs with
  | [] => fdata_upd md (with_dirty true)
  | a :: secs' =>
      v ← vol;
      done ← reg_in_sector (entry_offs v) node md clus a;
      if (done : bool) then mret tt
      else
        assert (negb (BPB_SecPerClus v =? 0)) ;;
        clus ← (if Z.rem (sec_cnt + 1) (BPB_SecPerClus v) =? 0
                then e ← get_fat_entry clus; mret (Z.land e FAT_VAL_MASK) else mret clus);
        reg_in_sectors secs' node md clus (sec_cnt + 1)
  end.

Definition fat32_reg_to_dir_entry (node : Z) : M fs unit :=
  x ← vnode_get node;
  p ← vnode_get (v_parent x);
  md ← metadata_of p;
  m ← fdata_get md;
  cache_dir (v_parent x) ;;
  m' ← fdata_get md;
  reg_in_sectors (content_cache m') node md (clus_idx m) 0.

(** ** Creation *)

(** A new [struct fat32_f_data] for [node]; [true] when there is memory. *)
Definition new_metadata (node clus : Z) (d : bool) : M fs bool :=
  md ← f_malloc;
  vnode_upd node (with_internal (if md =? 0 then D_null else D_at md 0)) ;;
  if md =? 0 then mret false
  else modify (λ s, set_fdatas (<[md := mk_fdata d clus []]> (f_datas s)) s) ;; mret true.

Definition fat32_create (dir_node : Z) (component_name : list Z) (type : file_type) : M fs (Z * Z) :=
  target ← malloc_vnode;
  r ← init_vnode dir_node target type component_name;
  if negb (r =? 0) then mret (-1, target)
  else
    free_clus_idx ← get_free_clus_idx;
    ok ← new_metadata target free_clus_idx true;
    if negb ok then mret (-1, target)
    else
      v ← vol;
      set_fat_entry free_clus_idx (end_of_file v) ;;
      fat32_reg_to_dir_entry target ;;
      mret (0, target).

Definition fat32_mkdir (dir_node : Z) (component_name : list Z) : M fs (Z * Z) :=
  target ← malloc_vnode;
  r ← init_vnode dir_node target DIR component_name;
  if negb (r =? 0) then mret (-1, target)
  else
    free_clus_idx ← get_free_clus_idx;
    ok ← new_metadata target free_clus_idx true;
    if negb ok then mret (-1, target)
    else
      v ← vol;
      set_fat_entry free_clus_idx (end_of_file v) ;;
      x ← vnode_get target;
      md ← metadata_of x;
      d ← add_new_cache_sec md;
      poke d 0 (lit ".") ;;
      poke d 11 [Z.lor ATTR_ARCHIVE ATTR_DIRECTORY] ;;
      poke d 32 (lit "..") ;;
      poke d 43 [Z.lor ATTR_ARCHIVE ATTR_DIRECTORY] ;;
      poke d 64 [DIR_ENTRY_LAST_AND_UNUSED] ;;
      fat32_reg_to_dir_entry target ;;
      mret (0, target).

(** ** Reading and writing files *)

(** Following [next] [k] times from the head; [None] is NULL. *)
Definition cache_at (md k : Z) : M fs (option Z) :=
  m ← fdata_get md;
  assert (k <=? Z.of_nat (length (content_cache m))) ;;
  mret (content_cache m !! Z.to_nat k).

(** The loop that appends a sector when the position is at the end. *)
Definition ensure_sector (md k : Z) : M fs unit :=
  cur ← cache_at md k;
  match cur with Some _ => mret tt | None => add_new_cache_sec md ;; mret tt end.

Definition load_if_needed (node md : Z) : M fs unit :=
  x ← vnode_get node;
  m ← fdata_get md;
  if bool_decide (content_cache m = []) && (0 <? file_size x) then load_content node else mret tt.

Definition which_sector (pos : Z) : M fs Z :=
  v ← vol; assert (negb (BPB_BytsPerSec v =? 0)) ;; mret (u32 (pos / BPB_BytsPerSec v)).

(** The cluster after the sector [which - 1], extending the chain at its end. *)
Definition next_cluster (which clus : Z) : M fs Z :=
  v ← vol;
  assert (negb (BPB_SecPerClus v =? 0)) ;;
  if Z.rem which (BPB_SecPerClus v) =? 0 then
    e ← get_fat_entry clus;
    let tmp := Z.land e FAT_VAL_MASK in
    if tmp =? end_of_file v then append_cluster clus else mret tmp
  else mret clus.

(** [k] is the position of [cur] in the cache. *)
Fixpoint write_loop (fuel : nat) (file node md : Z) (buf : list Z) (len k which clus write_sz : Z) : M fs Z :=
  if write_sz <? len then
    match fuel with
    | O => spin
    | S fuel' =>
        v ← vol;
        f ← file_get file;
        m ← fdata_get md;
        cur ← deref (content_cache m !! Z.to_nat k);
        let o := f_pos f mod BPB_BytsPerSec v in
        let sz := Z.min (len - write_sz) (u64 (BLK_SZ - o)) in
        assert (write_sz + sz <=? Z.of_nat (length buf)) ;;
        poke cur o (slice write_sz sz buf) ;;
        file_upd file (with_pos (u64 (f_pos f + sz))) ;;
        f ← file_get file;
        x ← vnode_get node;
        (if file_size x <? f_pos f then vnode_upd node (with_size (f_pos f)) else mret tt) ;;
        (if (write_sz + sz <? len) && (k + 1 =? Z.of_nat (length (content_cache m)))
         then add_new_cache_sec md ;; mret tt else mret tt) ;;
        clus ← next_cluster (u32 (which + 1)) clus;
        write_loop fuel' file node md buf len (k + 1) (u32 (which + 1)) clus (write_sz + sz)
    end
  else mret write_sz.

Definition fat32_write (file : Z) (buf : list Z) (len : Z) : M fs Z :=
  f ← file_get file;
  let node := fl_vnode f in
  which_sec ← which_sector (f_pos f);
  d ← get_dir_entry node;
  x ← vnode_get node;
  md ← metadata_of x;
  m ← fdata_get md;
  load_if_needed node md ;;
  ensure_sector md which_sec ;;
  write_sz ← write_loop (Z.to_nat len) file node md buf len which_sec which_sec (clus_idx m) 0;
  fdata_upd md (with_dirty true) ;;
  '(a, d) ← deref d;
  x ← vnode_get node;
  poke a (d + 28) (to_le 4 (file_size x)) ;;
  attr ← peek a (d + 11) 1;
  poke a (d + 11) [Z.lor (of_le attr) ATTR_ARCHIVE] ;;
  p ← vnode_get (v_parent x);
  pmd ← metadata_of p;
  fdata_upd pmd (with_dirty true) ;;
  mret (i64 write_sz).

(** Also the bytes copied to the caller's buffer. *)
Fixpoint read_loop (fuel : nat) (file node md : Z) (len k read_sz : Z) (acc : list Z) : M fs (Z * list Z) :=
  if read_sz <? len then
    match fuel with
    | O => spin
    | S fuel' =>
        v ← vol;
        f ← file_get file;
        x ← vnode_get node;
        m ← fdata_get md;
        cur ← deref (content_cache m !! Z.to_nat k);
        let o := f_pos f mod BPB_BytsPerSec v in
        let sz := Z.min (Z.min (len - read_sz) (u64 (BLK_SZ - o))) (u64 (file_size x - f_pos f)) in
        bytes ← peek cur o sz;
        file_upd file (with_pos (u64 (f_pos f + sz))) ;;
        if file_size x <=? u64 (f_pos f + sz) then mret (read_sz + sz, acc ++ bytes)
        else read_loop fuel' file node md len (k + 1) (read_sz + sz) (acc ++ bytes)
    end
  else mret (read_sz, acc).

Definition fat32_read (file : Z) (len : Z) : M fs (Z * list Z) :=
  f ← file_get file;
  which_sec ← which_sector (f_pos f);
  let node := fl_vnode f in
  x ← vnode_get node;
  md ← metadata_of x;
  load_if_needed node md ;;
  _ ← cache_at md which_sec;
  '(r, bytes) ← read_loop (Z.to_nat len) file node md len which_sec 0 [];
  mret (i64 r, bytes).
End Fat32.
