(* ===== verification/SdThm.v ===== *)
(** * Theorems about the SD card driver

    The controller and the card as the documentation describes them: a state
    machine with delays and transfers that fail, in any order the list [todo]
    gives; the card takes transfers only after power-up, identification,
    selection and the setting of the block length.  The driver is verified for any device that behaves like it. *)

From S2P Require Import Prelude Cpu Buddy Str VfsData Tmpfs Vfs VfsMount Fat32 Sd.

(** ** The card *)

(** How a transfer goes: the polls before each word is ready, the polls until
    the controller is done, the error bits (0 if it succeeds), and the words a
    failing transfer delivers or leaves on the card. *)
Record attempt := mk_attempt { a_fifo : list nat; a_end : nat; a_err : Z; a_junk : list Z }.

Inductive phase := Idle | Reading (ws : list Z) | Writing (idx : Z) (acc : list Z).

(** The states of the identification and the transfer mode of the card's
    specification. *)
Inductive card_mode := M_idle | M_ready | M_ident | M_stby | M_tran.

#[export] Instance card_mode_eq_dec : EqDecision card_mode.
Proof. solve_decision. Defined.

(** Whether the card has power, its state, whether the last command was
    APP_CMD, whether it has seen SEND_IF_COND, and its block length. *)
Record card_life := mk_life { powered_on : bool; mode : card_mode; app : bool; volt : bool; blen : Z }.

Record card := mk_card {
  medium : gmap Z (list Z);  (* 128 words each *)
  high : bool;               (* high capacity *)
  lat : nat;                 (* polls until a command is accepted *)
  start : nat;               (* rounds until the card is powered up *)
  rca : Z;                   (* its address *)
  own_blen : Z;              (* its block length after a reset *)
  life : card_life;
  todo : list attempt;       (* how the next transfers go *)
  c_arg : Z; c_size : Z; c_cnt : Z;
  c_busy : nat; c_resp : Z;
  c_phase : phase; c_fifo : list nat; c_end : nat; c_err : Z; c_junk : list Z;
}.

Definition set_c_arg v c := mk_card (medium c) (high c) (lat c) (start c) (rca c) (own_blen c) (life c) (todo c) v (c_size c) (c_cnt c) (c_busy c) (c_resp c) (c_phase c) (c_fifo c) (c_end c) (c_err c) (c_junk c).
Definition set_c_size v c := mk_card (medium c) (high c) (lat c) (start c) (rca c) (own_blen c) (life c) (todo c) (c_arg c) v (c_cnt c) (c_busy c) (c_resp c) (c_phase c) (c_fifo c) (c_end c) (c_err c) (c_junk c).
Definition set_c_cnt v c := mk_card (medium c) (high c) (lat c) (start c) (rca c) (own_blen c) (life c) (todo c) (c_arg c) (c_size c) v (c_busy c) (c_resp c) (c_phase c) (c_fifo c) (c_end c) (c_err c) (c_junk c).
Definition set_c_busy v c := mk_card (medium c) (high c) (lat c) (start c) (rca c) (own_blen c) (life c) (todo c) (c_arg c) (c_size c) (c_cnt c) v (c_resp c) (c_phase c) (c_fifo c) (c_end c) (c_err c) (c_junk c).
Definition set_c_resp st v c := mk_card (medium c) (high c) (lat c) st (rca c) (own_blen c) (life c) (todo c) (c_arg c) (c_size c) (c_cnt c) (c_busy c) v (c_phase c) (c_fifo c) (c_end c) (c_err c) (c_junk c).
Definition set_c_fifo p l c := mk_card (medium c) (high c) (lat c) (start c) (rca c) (own_blen c) (life c) (todo c) (c_arg c) (c_size c) (c_cnt c) (c_busy c) (c_resp c) p l (c_end c) (c_err c) (c_junk c).
Definition set_c_end n c := mk_card (medium c) (high c) (lat c) (start c) (rca c) (own_blen c) (life c) (todo c) (c_arg c) (c_size c) (c_cnt c) (c_busy c) (c_resp c) (c_phase c) (c_fifo c) n (c_err c) (c_junk c).
Definition set_c_err v c := mk_card (medium c) (high c) (lat c) (start c) (rca c) (own_blen c) (life c) (todo c) (c_arg c) (c_size c) (c_cnt c) (c_busy c) (c_resp c) (c_phase c) (c_fifo c) (c_end c) v (c_junk c).
Definition set_medium b c := mk_card b (high c) (lat c) (start c) (rca c) (own_blen c) (life c) (todo c) (c_arg c) (c_size c) (c_cnt c) (c_busy c) (c_resp c) (c_phase c) (c_fifo c) (c_end c) (c_err c) (c_junk c).

Definition set_life l c := mk_card (medium c) (high c) (lat c) (start c) (rca c) (own_blen c) l (todo c) (c_arg c) (c_size c) (c_cnt c) (c_busy c) (c_resp c) (c_phase c) (c_fifo c) (c_end c) (c_err c) (c_junk c).

(** The next word can be moved. *)
Definition fifo_ready (c : card) : bool := match c_fifo c with S _ :: _ => false | _ => true end.

Definition card_get (a : Z) (c : card) : Z * card :=
  if a =? SDHOST_CMD then
    match c_busy c with O => (0, c) | S n => (SDHOST_NEW_CMD, set_c_busy n c) end
  else if a =? SDHOST_HSTS then
    match c_fifo c with
    | S n :: l => (c_err c, set_c_fifo (c_phase c) (n :: l) c)
    | _ => (Z.lor SDHOST_HSTS_DATA (c_err c), c)
    end
  else if a =? SDHOST_DBG then
    match c_end c with O => (1, c) | S n => (2, set_c_end n c) end
  else if a =? SDHOST_DATA then
    match c_phase c with
    | Reading (w :: ws) => if fifo_ready c then (w, set_c_fifo (Reading ws) (tail (c_fifo c)) c) else (0, c)
    | _ => (0, c)
    end
  else if a =? SDHOST_RESP0 then (c_resp c, c)
  else (0, c).

Definition next_attempt (c : card) : attempt := match todo c with [] => mk_attempt [] 0 0 [] | a :: _ => a end.

(** The block the argument names. *)
Definition block_of (c : card) : Z := if high c then c_arg c else c_arg c / 512.

(** A transfer begins. *)
Definition begin (p : phase) (c : card) : card :=
  let a := next_attempt c in
  mk_card (medium c) (high c) (lat c) (start c) (rca c) (own_blen c) (life c) (tail (todo c)) (c_arg c) (c_size c) (c_cnt c) (c_busy c) (c_resp c)
    p (a_fifo a) (a_end a) (Z.lor (c_err c) (a_err a)) (a_junk a).

(** A command the card's state does not allow gets no answer. *)
Definition NO_ANSWER : Z := 0x40.
Definition refuse (c : card) : card := set_c_err (Z.lor (c_err c) NO_ANSWER) c.

(** The kind of address, the voltage and, for high capacity, the host's support
    that SD_APP_OP_COND must offer. *)
Definition offer_ok (volt : bool) (c : card) : bool :=
  negb (Z.land (c_arg c) SDCARD_3_3V =? 0) && (negb (high c) || volt && negb (Z.land (c_arg c) SDCARD_ISHCS =? 0)).

Definition command (v : Z) (c0 : card) : card :=
  let c := set_c_busy (lat c0) c0 in
  let cmd := Z.land v 0x3f in
  let one := (c_size c =? 512) && (c_cnt c =? 1) in
  let (on, m, app, volt, bl) := life c0 in
  let to m' := set_life (mk_life on m' false volt bl) in
  let transfer := one && bool_decide (m = M_tran) && (high c || (bl =? 512)) in
  if negb on then c
  else if cmd =? GO_IDLE_STATE then set_life (mk_life on M_idle false false (own_blen c)) c
  else if cmd =? APP_CMD then set_life (mk_life on m true volt bl) c
  else if (cmd =? SEND_IF_COND) && bool_decide (m = M_idle) then
    set_life (mk_life on m false true bl) (set_c_resp (start c) (c_arg c) c)
  else if (cmd =? SD_APP_OP_COND) && app && bool_decide (m = M_idle) then
    if offer_ok volt c then
      match start c with
      | O => to M_ready (set_c_resp O (Z.lor SDCARD_READY (if high c then SDCARD_ISHCS else 0)) c)
      | S n => to m (set_c_resp n 0 c)
      end
    else to m (set_c_resp (start c) 0 c)
  else if (cmd =? ALL_SEND_CID) && bool_decide (m = M_ready) then to M_ident c
  else if (cmd =? SEND_RELATIVE_ADDR) && bool_decide (m = M_ident) then to M_stby (set_c_resp (start c) (rca c) c)
  else if (cmd =? SELECT_CARD) && bool_decide (m = M_stby) && (Z.shiftr (c_arg c) 16 =? Z.shiftr (u32 (rca c)) 16) then to M_tran c
  else if (cmd =? SET_BLOCKLEN) && bool_decide (m = M_tran) then set_life (mk_life on m false volt (c_arg c)) c
  else if (cmd =? READ_SINGLE_BLOCK) && negb (Z.land v SDHOST_READ =? 0) && transfer then
    to m (begin (Reading (if a_err (next_attempt c) =? 0 then default [] (medium c !! block_of c) else a_junk (next_attempt c))) c)
  else if (cmd =? WRITE_SINGLE_BLOCK) && negb (Z.land v SDHOST_WRITE =? 0) && transfer then to m (begin (Writing (block_of c) []) c)
  else if (cmd =? STOP_TRANSMISSION) && bool_decide (m = M_tran) then to m (set_c_fifo Idle [] c)
  else refuse (to m c).

(** The card is selected and moves blocks of 512 bytes. *)
Definition usable (c : card) : bool :=
  let (on, m, app, _, bl) := life c in on && bool_decide (m = M_tran) && negb app && (high c || (bl =? 512)).

(** The controller's power switch. *)
Definition power (v : Z) (c : card) : card :=
  if v =? 0 then set_life (mk_life false M_idle false false (own_blen c)) c
  else if powered_on (life c) then c
  else set_life (mk_life true M_idle false false (own_blen c)) c.

(** The last word of a block commits it. *)
Definition store (idx : Z) (acc : list Z) (c : card) : card :=
  if (length acc =? 128)%nat then
    set_medium (<[idx := if c_err c =? 0 then acc else c_junk c]> (medium c)) (set_c_fifo Idle (tail (c_fifo c)) c)
  else set_c_fifo (Writing idx acc) (tail (c_fifo c)) c.

Definition card_set (a v : Z) (c : card) : card :=
  if a =? SDHOST_ARG then set_c_arg v c
  else if a =? SDHOST_SIZE then set_c_size v c
  else if a =? SDHOST_CNT then set_c_cnt v c
  else if a =? SDHOST_HSTS then set_c_err (Z.ldiff (c_err c) v) c
  else if a =? SDHOST_PWR then power v c
  else if a =? SDHOST_CMD then (if negb (Z.land v SDHOST_NEW_CMD =? 0) then command v c else c)
  else if a =? SDHOST_DATA then
    match c_phase c with Writing idx acc => if fifo_ready c then store idx (acc ++ [v]) c else c | _ => c end
  else c.

(** A device that behaves like a card. *)
Class SdCard `{!SdHost} := {
  view : dev → card;
  view_get : ∀ a d, card_get a (view d) = ((dev_get a d).1, view (dev_get a d).2);
  view_set : ∀ a v d, view (dev_set a v d) = card_set a v (view d);
}.

#[export] Instance card_host : SdHost := {| dev := card; dev_get := card_get; dev_set := card_set |}.
#[export] Program Instance card_card : SdCard := {| view := (λ c : @dev card_host, c) |}.
Next Obligation. intros a d. simpl. by destruct (card_get a d). Qed.
Next Obligation. done. Qed.

(** A transfer that succeeds delivers its words in time. *)
Definition attempt_ok (a : attempt) : Prop :=
  Z.ldiff (a_err a) SDHOST_HSTS_ERR_MASK = 0 ∧ 0 ≤ a_err a ∧ (a_err a = 0 → Forall (λ n, (n < POLLS)%nat) (a_fifo a)).

(** The card between two calls of the driver. *)
Record card_ok (b : gmap Z (list Z)) (h : bool) (c : card) : Prop := {
  ok_blocks : medium c = b;
  ok_high : high c = h;
  ok_lat : (lat c < POLLS)%nat;
  ok_err : c_err c = 0;
  ok_todo : Forall attempt_ok (todo c);
  ok_use : usable c = true;
}.

(** ** Steps of the driver *)

Section Steps.
Context `{!SdHost, !SdCard}.

(** The driver's variable and what the device looks like. *)
Definition st (h : Z) (c : card) (s : sds) : Prop := is_hcs s = h ∧ view (host s) = c.

Lemma get_wp a h c s (Q : Z → sds → Prop) : st h c s →
  (∀ s', st h (card_get a c).2 s' → Q (u32 (card_get a c).1) s') → wp (get a) Q s.
Proof.
  intros [Hh Hc] HQ. unfold get, wp. pose proof (view_get a (host s)) as Hv. rewrite Hc in Hv.
  destruct (dev_get a (host s)) as [v d]. rewrite Hv in HQ. simpl in HQ. by apply HQ.
Qed.

Lemma set_wp a v h c s (Q : unit → sds → Prop) : st h c s →
  (∀ s', st h (card_set a (u32 v) c) s' → Q tt s') → wp (set a v) Q s.
Proof. intros [Hh Hc] HQ. apply wp_modify, HQ. split; [done|]. simpl. by rewrite view_set, Hc. Qed.

Lemma wait_sd_wp n : ∀ h c s (Q : Z → sds → Prop), (c_busy c < n)%nat → st h c s →
  (∀ s', st h (set_c_busy 0 c) s' → Q 0 s') → wp (wait_sd_loop n) Q s.
Proof.
  induction n as [|n IH]; intros h c s Q Hn Hs HQ; [lia|]. cbn [wait_sd_loop]. apply wp_bind. eapply get_wp; [done|]. intros s'.
  change (card_get SDHOST_CMD c) with (match c_busy c with O => (0, c) | S n => (SDHOST_NEW_CMD, set_c_busy n c) end).
  destruct (c_busy c) as [|m] eqn:E; intros Hs'; simpl in Hs'.
  - apply wp_ret, HQ. replace (set_c_busy 0 c) with c by (destruct c; simpl in *; by subst). done.
  - simpl. eapply IH; [|done|]; [simpl; lia|]. exact HQ.
Qed.

Lemma command_busy v c : c_busy (command v c) = lat c.
Proof. unfold command, begin, refuse. cbv zeta. destruct (life c) as [on m ap vo bl]. repeat case_match; done. Qed.

(** A card that is ready for transfers. *)
Lemma usable_life c : usable c = true → ∃ v bl, life c = mk_life true M_tran false v bl ∧ high c || (bl =? 512) = true.
Proof. unfold usable. destruct (life c) as [[] [] [] v bl]; simpl; try done. eauto. Qed.

(** A command is accepted. *)
Lemma sd_cmd_wp cmd arg h c s (Q : Z → sds → Prop) :
  let c' := command (u32 (Z.lor cmd SDHOST_NEW_CMD)) (set_c_arg (u32 arg) c) in
  Z.land (u32 (Z.lor cmd SDHOST_NEW_CMD)) SDHOST_NEW_CMD ≠ 0 → (lat c < POLLS)%nat → st h c s →
  (∀ s', st h (set_c_busy 0 c') s' → Q 0 s') → wp (sd_cmd cmd arg) Q s.
Proof.
  intros c' Hnew Hlat Hs HQ. assert (Hb : c_busy c' = lat c) by exact (command_busy _ (set_c_arg (u32 arg) c)). unfold sd_cmd. apply wp_bind. eapply set_wp; [done|]. intros s1 Hs1. apply wp_bind. eapply set_wp; [done|].
  intros s2 Hs2. eapply wait_sd_wp; [|exact Hs2|].
  - change (card_set SDHOST_CMD ?v ?x) with (if negb (Z.land v SDHOST_NEW_CMD =? 0) then command v x else x).
    rewrite (proj2 (Z.eqb_neq _ _) Hnew). change (c_busy c' < POLLS)%nat. by rewrite Hb.
  - change (card_set SDHOST_CMD ?v ?x) with (if negb (Z.land v SDHOST_NEW_CMD =? 0) then command v x else x).
    rewrite (proj2 (Z.eqb_neq _ _) Hnew). exact HQ.
Qed.

(** Waiting for a word: it becomes ready. *)
Lemma wait_fifo_wp n : ∀ h p l c s (Q : Z → sds → Prop), c_err c = 0 → (default O (head l) < n)%nat → st h (set_c_fifo p l c) s →
  (∀ l' s', tail l' = tail l → fifo_ready (set_c_fifo p l' c) = true → st h (set_c_fifo p l' c) s' → Q 0 s') → wp (wait_fifo_loop n) Q s.
Proof.
  induction n as [|n IH]; intros h p l c s Q He Hn Hs HQ; [lia|]. cbn [wait_fifo_loop]. apply wp_bind. eapply get_wp; [done|]. intros s'.
  change (card_get SDHOST_HSTS ?c) with (match c_fifo c with
    | S n :: l => (c_err c, set_c_fifo (c_phase c) (n :: l) c) | _ => (Z.lor SDHOST_HSTS_DATA (c_err c), c) end).
  change (c_err (set_c_fifo p l c)) with (c_err c). change (c_fifo (set_c_fifo p l c)) with l. rewrite He.
  destruct l as [|[|m] l]; intros Hs'; cbn [fst snd] in *; change (u32 _) with 1 || change (u32 0) with 0; cbn match.
  - change (Z.land 1 SDHOST_HSTS_DATA =? 0) with false. cbn match. apply wp_ret. by eapply HQ.
  - change (Z.land 1 SDHOST_HSTS_DATA =? 0) with false. cbn match. apply wp_ret. by eapply HQ.
  - change (Z.land 0 SDHOST_HSTS_DATA =? 0) with true. cbn match. eapply (IH h p (m :: l) c); [done|simpl in *; lia|exact Hs'|exact HQ].
Qed.

(** Or the driver gives up; either way only the queue moves. *)
Lemma wait_fifo_any n : ∀ h p l c s (Q : Z → sds → Prop), st h (set_c_fifo p l c) s →
  (∀ r l' s', st h (set_c_fifo p l' c) s' → Q r s') → wp (wait_fifo_loop n) Q s.
Proof.
  induction n as [|n IH]; intros h p l c s Q Hs HQ; cbn [wait_fifo_loop]; [by eapply wp_ret, HQ|]. apply wp_bind. eapply get_wp; [done|]. intros s'.
  change (card_get SDHOST_HSTS ?c) with (match c_fifo c with
    | S n :: l => (c_err c, set_c_fifo (c_phase c) (n :: l) c) | _ => (Z.lor SDHOST_HSTS_DATA (c_err c), c) end).
  change (c_fifo (set_c_fifo p l c)) with l.
  destruct l as [|[|m] l]; intros Hs'; cbn [fst snd] in *; (case_match; [eapply IH; [exact Hs'|exact HQ]|eapply wp_ret, HQ, Hs']).
Qed.

(** *** Reading *)

Lemma get_data_eq c : card_get SDHOST_DATA c =
  match c_phase c with Reading (w :: ws) => if fifo_ready c then (w, set_c_fifo (Reading ws) (tail (c_fifo c)) c) else (0, c) | _ => (0, c) end.
Proof. done. Qed.

Lemma read_words_wp ws : ∀ h l c s (Q : list Z → sds → Prop), c_err c = 0 → Forall (λ w, 0 ≤ w < 2 ^ 32) ws → Forall (λ n, (n < POLLS)%nat) l →
  st h (set_c_fifo (Reading ws) l c) s → (∀ l' s', st h (set_c_fifo (Reading []) l' c) s' → Q ws s') → wp (read_words (length ws)) Q s.
Proof.
  induction ws as [|w ws IH]; intros h l c s Q He Hws Hl Hs HQ; cbn [length read_words]; [by eapply wp_ret, HQ|].
  apply Forall_cons in Hws as [Hw Hws]. apply wp_bind. eapply wait_fifo_wp; [done| |exact Hs|].
  { destruct Hl; simpl; [unfold POLLS; lia|done]. }
  intros l' s' Hl' Hr Hs'. apply wp_bind. eapply get_wp; [exact Hs'|]. intros s2. rewrite get_data_eq. cbn [c_phase set_c_fifo].
  rewrite Hr. intros Hs2. cbn [fst snd] in *. replace (u32 w) with w by (unfold u32; rewrite Z.mod_small; lia).
  apply wp_bind. eapply (IH h (tail l') c); [done|done| |exact Hs2|].
  { rewrite Hl'. by destruct Hl. }
  intros l2 s3 Hs3. eapply wp_ret, HQ, Hs3.
Qed.

Lemma read_words_any n : ∀ h p l c s (Q : list Z → sds → Prop), st h (set_c_fifo p l c) s →
  (∀ ws p' l' s', st h (set_c_fifo p' l' c) s' → Q ws s') → wp (read_words n) Q s.
Proof.
  induction n as [|n IH]; intros h p l c s Q Hs HQ; cbn [read_words]; [by eapply wp_ret, HQ|].
  apply wp_bind. eapply wait_fifo_any; [exact Hs|]. intros r l1 s1 Hs1. apply wp_bind. eapply get_wp; [exact Hs1|]. intros s2. rewrite get_data_eq.
  cbn [c_phase set_c_fifo]. intros Hs2. apply wp_bind.
  destruct p as [|[|w ws]|]; [..|]; try (destruct (fifo_ready _) in Hs2); cbn [fst snd] in Hs2;
    (eapply IH; [exact Hs2|]; intros ws' p' l' s' Hs'; eapply wp_ret, HQ, Hs').
Qed.

(** *** The end of a transfer *)

Lemma err_small e : Z.ldiff e SDHOST_HSTS_ERR_MASK = 0 → Z.land e SDHOST_HSTS_ERR_MASK = e.
Proof.
  intros Hd. apply Z.bits_inj'. intros i Hi. rewrite Z.land_spec. apply (f_equal (λ z, Z.testbit z i)) in Hd.
  rewrite Z.ldiff_spec, Z.bits_0 in Hd. destruct (Z.testbit e i), (Z.testbit _ i); done.
Qed.

Lemma land_u32 v : Z.land (u32 v) SDHOST_HSTS_ERR_MASK = Z.land v SDHOST_HSTS_ERR_MASK.
Proof. unfold u32. rewrite <- Z.land_ones by lia. by rewrite <- Z.land_assoc. Qed.

(** What a read of the status register shows of the errors. *)
Lemma hsts_err c : Z.ldiff (c_err c) SDHOST_HSTS_ERR_MASK = 0 →
  Z.land (u32 (card_get SDHOST_HSTS c).1) SDHOST_HSTS_ERR_MASK = c_err c ∧ ∃ l, (card_get SDHOST_HSTS c).2 = set_c_fifo (c_phase c) l c.
Proof.
  intros He. rewrite land_u32. change (card_get SDHOST_HSTS ?c) with (match c_fifo c with
    | S n :: l => (c_err c, set_c_fifo (c_phase c) (n :: l) c) | _ => (Z.lor SDHOST_HSTS_DATA (c_err c), c) end).
  assert (Z.land (Z.lor SDHOST_HSTS_DATA (c_err c)) SDHOST_HSTS_ERR_MASK = c_err c) by (rewrite Z.land_lor_distr_l; by rewrite (err_small _ He)).
  destruct (c_fifo c) as [|[|m] l] eqn:E; (split; [try done; by apply err_small|]);
    [exists []|exists (O :: l)|by exists (m :: l)]; destruct c; simpl in *; by subst.
Qed.

Lemma check_status_good h c s (Q : bool → sds → Prop) : c_err c = 0 → st h c s →
  (∀ l s', st h (set_c_fifo (c_phase c) l c) s' → Q true s') → wp check_status Q s.
Proof.
  intros He Hs HQ. unfold check_status. apply wp_bind. eapply get_wp; [done|]. intros s'. destruct (hsts_err c) as [-> (l & ->)]; [by rewrite He|].
  intros Hs'. rewrite He. by eapply wp_ret, HQ.
Qed.

(** The errors are cleared and the transfer stopped. *)
Lemma check_status_bad h c s (Q : bool → sds → Prop) : c_err c ≠ 0 → Z.ldiff (c_err c) SDHOST_HSTS_ERR_MASK = 0 → (lat c < POLLS)%nat → usable c = true → st h c s →
  (∀ s', st h (set_c_busy 0 (set_c_fifo Idle [] (set_c_arg 0 (set_c_err 0 c)))) s' → Q false s') → wp check_status Q s.
Proof.
  intros He Hm Hlat Huse Hs HQ. unfold check_status. apply wp_bind. eapply get_wp; [done|]. intros s'. destruct (hsts_err c Hm) as [-> (l & ->)].
  intros Hs'. rewrite (proj2 (Z.eqb_neq _ _) He). cbn [negb]. apply wp_bind. eapply set_wp; [done|]. intros s2 Hs2.
  change (card_set SDHOST_HSTS (u32 SDHOST_HSTS_ERR_MASK) ?c) with (set_c_err (Z.ldiff (c_err c) SDHOST_HSTS_ERR_MASK) c) in Hs2.
  change (c_err (set_c_fifo _ _ c)) with (c_err c) in Hs2. rewrite Hm in Hs2.
  apply wp_bind. eapply sd_cmd_wp; [done| |exact Hs2|]; [done|]. intros s3 Hs3. apply wp_ret, HQ.
  destruct (usable_life c Huse) as (v & bl & Hlife & _). destruct c. cbn in Hlife. rewrite Hlife in *. exact Hs3.
Qed.

Lemma wait_finish_wp n : ∀ h c s (Q : unit → sds → Prop), (c_end c < n)%nat → st h c s →
  (∀ s', st h (set_c_end 0 c) s' → Q tt s') → wp (wait_finish n) Q s.
Proof.
  induction n as [|n IH]; intros h c s Q Hn Hs HQ; [lia|]. cbn [wait_finish]. apply wp_bind. eapply get_wp; [done|]. intros s'.
  change (card_get SDHOST_DBG c) with (match c_end c with O => (1, c) | S n => (2, set_c_end n c) end).
  destruct (c_end c) as [|m] eqn:E; intros Hs'; cbn [fst snd] in Hs'.
  - apply wp_ret, HQ. replace (set_c_end 0 c) with c by (destruct c; simpl in *; by subst). done.
  - eapply (IH h (set_c_end m c)); [|exact Hs'|]; [simpl; lia|]. exact HQ.
Qed.

Lemma set_block_wp h c s (Q : unit → sds → Prop) : st h c s →
  (∀ s', st h (set_c_cnt 1 (set_c_size 512 c)) s' → Q tt s') → wp (set_block 512 1) Q s.
Proof.
  intros Hs HQ. unfold set_block. apply wp_bind. eapply set_wp; [done|]. intros s1 Hs1. eapply set_wp; [done|]. intros s2 Hs2. by apply HQ.
Qed.

(** *** Whole transfers *)

(** A transfer has begun: the next attempt is used up. *)
Record begun (p : phase) (c c' : card) : Prop := {
  bg_blocks : medium c' = medium c;
  bg_high : high c' = high c;
  bg_lat : lat c' = lat c;
  bg_todo : todo c' = tail (todo c);
  bg_err : c_err c' = Z.lor (c_err c) (a_err (next_attempt c));
  bg_phase : c_phase c' = p;
  bg_fifo : c_fifo c' = a_fifo (next_attempt c);
  bg_end : c_end c' = a_end (next_attempt c);
  bg_use : usable c' = true;
}.

Definition block_at (h : bool) (arg : Z) : Z := if h then arg else arg / 512.

Lemma begin_read_wp addr h c s (Q : Z → sds → Prop) : (lat c < POLLS)%nat → usable c = true → st h (set_c_cnt 1 (set_c_size 512 c)) s →
  (∀ c' s', begun (Reading (if a_err (next_attempt c) =? 0 then default [] (medium c !! block_at (high c) (u32 addr)) else a_junk (next_attempt c))) c c' →
    st h c' s' → Q 0 s') → wp (sd_cmd (Z.lor READ_SINGLE_BLOCK SDHOST_READ) addr) Q s.
Proof.
  intros Hl Hu Hs HQ. eapply sd_cmd_wp; [done| |exact Hs|]; [done|]. intros s' Hs'. eapply HQ; [|exact Hs'].
  destruct (usable_life c Hu) as (v & bl & Hlife & Hbl). destruct c as [? hi]. cbn in Hlife, Hbl. subst.
  destruct hi; [|apply Z.eqb_eq in Hbl as ->]; by split.
Qed.

Lemma begin_write_wp addr h c s (Q : Z → sds → Prop) : (lat c < POLLS)%nat → usable c = true → st h (set_c_cnt 1 (set_c_size 512 c)) s →
  (∀ c' s', begun (Writing (block_at (high c) (u32 addr)) []) c c' → st h c' s' → Q 0 s') → wp (sd_cmd (Z.lor WRITE_SINGLE_BLOCK SDHOST_WRITE) addr) Q s.
Proof.
  intros Hl Hu Hs HQ. eapply sd_cmd_wp; [done| |exact Hs|]; [done|]. intros s' Hs'. eapply HQ; [|exact Hs'].
  destruct (usable_life c Hu) as (v & bl & Hlife & Hbl). destruct c as [? hi]. cbn in Hlife, Hbl. subst.
  destruct hi; [|apply Z.eqb_eq in Hbl as ->]; by split.
Qed.

Lemma next_ok c : Forall attempt_ok (todo c) → attempt_ok (next_attempt c).
Proof. unfold next_attempt. destruct 1; [|done]. by repeat constructor. Qed.

(** The state after the transfers: the card is ready again, and the attempts
    used are a prefix of the list. *)
Definition ready_after (b : gmap Z (list Z)) (hi : bool) (c c' : card) : Prop := card_ok b hi c' ∧ todo c' `suffix_of` todo c.

Definition ends (n : nat) (c : card) : Prop := (length (todo c) < n)%nat ∧ Forall (λ a, (a_end a < n)%nat) (todo c).

Lemma tail_suffix {A} (l : list A) : tail l `suffix_of` l.
Proof. destruct l as [|x l]; [done|]. by exists [x]. Qed.

Lemma refold c : set_c_fifo (c_phase c) (c_fifo c) c = c.
Proof. by destruct c. Qed.

Lemma next_end n c : (0 < n)%nat → Forall (λ a, (a_end a < n)%nat) (todo c) → (a_end (next_attempt c) < n)%nat.
Proof. unfold next_attempt. by destruct 2. Qed.

Lemma fail_todo c : a_err (next_attempt c) ≠ 0 → ∃ a l, todo c = a :: l.
Proof. unfold next_attempt. destruct (todo c); [done|eauto]. Qed.

Lemma read_loop_wp b hi n ws i addr : b !! i = Some ws → length ws = 128%nat → Forall (λ w, 0 ≤ w < 2 ^ 32) ws → block_at hi (u32 addr) = i →
  ∀ fuel h c s (Q : list Z → sds → Prop), card_ok b hi c → (length (todo c) < fuel)%nat → (0 < n)%nat → Forall (λ a, (a_end a < n)%nat) (todo c) → st h c s →
  (∀ c' s', ready_after b hi c c' → (c_end c' < n)%nat → st h c' s' → Q ws s') → wp (read_loop fuel addr) Q s.
Proof.
  intros Hi Hlen Hrange Hat. induction fuel as [|fuel IH]; intros h c s Q Hok Hf Hn He Hs HQ; [lia|]. cbn [read_loop].
  destruct Hok as [Hb Hh Hlat Herr Htodo Huse]. pose proof (next_ok c Htodo) as (Hmask & Hpos & Hin).
  apply wp_bind. eapply set_block_wp; [done|]. intros s1 Hs1. apply wp_bind. eapply begin_read_wp; [done|done|exact Hs1|].
  rewrite Hh, Hat, Hb, Hi. cbn [default]. intros c2 s2 [Eb Eh El Et Ee Ep Ef En Eu] Hs2. rewrite Herr, Z.lor_0_l in Ee. rewrite <- (refold c2), Ep, Ef in Hs2.
  apply wp_bind. destruct (Z.eqb_spec (a_err (next_attempt c)) 0) as [E0|E0].
  - rewrite <- Hlen. eapply (read_words_wp ws); [by rewrite Ee|done|by apply Hin|exact Hs2|]. intros l' s3 Hs3.
    apply wp_bind. eapply check_status_good; [|exact Hs3|]; [by rewrite <- E0, <- Ee|]. intros l2 s4 Hs4. apply wp_ret. eapply HQ; [| |exact Hs4].
    + split; [split; simpl; try congruence; [rewrite Et; by apply Forall_tail|exact Eu]|simpl; rewrite Et; apply tail_suffix].
    + simpl. rewrite En. by apply next_end.
  - eapply read_words_any; [exact Hs2|]. intros ws' p' l' s3 Hs3. apply wp_bind.
    eapply check_status_bad; [| | | |exact Hs3|]; [by simpl; rewrite Ee|by simpl; rewrite Ee|simpl; congruence|exact Eu|]. intros s4 Hs4.
    destruct (fail_todo c E0) as (a & l & El'). rewrite El' in *. cbn [tail length] in *. apply Forall_cons in Htodo as [_ Htodo], He as [_ He].
    eapply IH; [| | | |exact Hs4|]; [split; simpl; try congruence; exact Eu|simpl; rewrite Et; lia|done|by simpl; rewrite Et|].
    intros c' s' [Hc' Hsuf] Hend Hs'. eapply HQ; [|done|done]. split; [done|]. simpl in Hsuf. rewrite Et in Hsuf. rewrite El'. by apply suffix_cons_r.
Qed.

(** *** Writing *)

Lemma set_data_eq v c : card_set SDHOST_DATA v c =
  match c_phase c with Writing idx acc => if fifo_ready c then store idx (acc ++ [v]) c else c | _ => c end.
Proof. done. Qed.

Lemma write_words_wp idx ws : ∀ h acc l c s (Q : unit → sds → Prop), c_err c = 0 → Forall (λ w, 0 ≤ w < 2 ^ 32) ws → Forall (λ n, (n < POLLS)%nat) l →
  (length acc + length ws = 128)%nat → ws ≠ [] → st h (set_c_fifo (Writing idx acc) l c) s →
  (∀ l' s', st h (set_medium (<[idx := acc ++ ws]> (medium c)) (set_c_fifo Idle l' c)) s' → Q tt s') → wp (write_words ws) Q s.
Proof.
  induction ws as [|w ws IH]; intros h acc l c s Q He Hws Hl Hlen Hne Hs HQ; [done|]. cbn [write_words length] in *.
  apply Forall_cons in Hws as [Hw Hws]. apply wp_bind. eapply wait_fifo_wp; [done| |exact Hs|].
  { destruct Hl; simpl; [unfold POLLS; lia|done]. }
  intros l' s' Hl' Hr Hs'. apply wp_bind. eapply set_wp; [exact Hs'|]. intros s2. rewrite set_data_eq. cbn [c_phase set_c_fifo]. rewrite Hr.
  replace (u32 w) with w by (unfold u32; rewrite Z.mod_small; lia). unfold store. rewrite length_app. cbn [length].
  destruct (Nat.eqb_spec (length acc + 1) 128) as [E|E]; intros Hs2.
  - destruct ws; [|simpl in Hlen; lia]. apply wp_ret. eapply HQ. revert Hs2. cbn [c_err set_c_fifo]. by rewrite He.
  - eapply (IH h (acc ++ [w]) (tail l') c); [done|done| |rewrite length_app; simpl; lia|by destruct ws; [simpl in Hlen; lia|]|exact Hs2|].
    + rewrite Hl'. by destruct Hl.
    + intros l2 s3 Hs3. rewrite <- app_assoc in Hs3. by eapply HQ.
Qed.

(** A failing write changes at most its block. *)
Definition spoilt (idx : Z) (b b' : gmap Z (list Z)) : Prop := delete idx b' = delete idx b.

Lemma write_words_any idx ws : ∀ h p l b c s (Q : unit → sds → Prop), (∀ j acc, p = Writing j acc → j = idx) → spoilt idx (medium c) b →
  st h (set_medium b (set_c_fifo p l c)) s →
  (∀ p' l' b' s', spoilt idx (medium c) b' → st h (set_medium b' (set_c_fifo p' l' c)) s' → Q tt s') → wp (write_words ws) Q s.
Proof.
  induction ws as [|w ws IH]; intros h p l b c s Q Hp Hb Hs HQ; cbn [write_words]; [by eapply wp_ret, HQ|].
  apply wp_bind. eapply (wait_fifo_any _ h p l (set_medium b c)); [exact Hs|]. intros r l1 s1 Hs1. apply wp_bind. eapply set_wp; [exact Hs1|]. intros s2.
  rewrite set_data_eq. cbn [c_phase set_c_fifo]. intros Hs2.
  assert (Hgo : ∃ p' l' b', (∀ j acc, p' = Writing j acc → j = idx) ∧ spoilt idx (medium c) b' ∧ st h (set_medium b' (set_c_fifo p' l' c)) s2).
  { destruct p as [|rs|j acc]; [by exists Idle, l1, b|by exists (Reading rs), l1, b|]. specialize (Hp j acc eq_refl) as ->.
    destruct (fifo_ready _); [|exists (Writing idx acc), l1, b; split_and!; [by intros ? ? [= <- _]|done|done]]. unfold store in Hs2. case_match.
    - eexists _, _, _. split_and!; [| |exact Hs2]; [done|]. unfold spoilt in *. simpl. by rewrite delete_insert_eq.
    - eexists _, _, _. split_and!; [| |exact Hs2]; [|done]. by intros ? ? [= <- _]. }
  destruct Hgo as (p' & l' & b' & Hp' & Hb' & Hs'). by eapply IH.
Qed.

Lemma spoilt_insert i b b' (ws : list Z) : spoilt i b b' → <[i := ws]> b' = <[i := ws]> b.
Proof. unfold spoilt. intros E. by rewrite <- (insert_delete_eq b'), E, insert_delete_eq. Qed.

Lemma write_loop_wp b hi n ws i addr : length ws = 128%nat → Forall (λ w, 0 ≤ w < 2 ^ 32) ws → block_at hi (u32 addr) = i →
  ∀ fuel h c s (Q : unit → sds → Prop), spoilt i b (medium c) → card_ok (medium c) hi c →
  (length (todo c) < fuel)%nat → (0 < n)%nat → Forall (λ a, (a_end a < n)%nat) (todo c) → st h c s →
  (∀ c' s', ready_after (<[i := ws]> b) hi c c' → (c_end c' < n)%nat → st h c' s' → Q tt s') → wp (write_loop fuel addr ws) Q s.
Proof.
  intros Hlen Hrange Hat. induction fuel as [|fuel IH]; intros h c s Q Hsp Hok Hf Hn He Hs HQ; [lia|]. cbn [write_loop].
  destruct Hok as [_ Hh Hlat Herr Htodo Huse]. pose proof (next_ok c Htodo) as (Hmask & Hpos & Hin).
  apply wp_bind. eapply set_block_wp; [done|]. intros s1 Hs1. apply wp_bind. eapply begin_write_wp; [done|done|exact Hs1|].
  rewrite Hh, Hat. intros c2 s2 [Eb Eh El Et Ee Ep Ef En Eu] Hs2. rewrite Herr, Z.lor_0_l in Ee. rewrite <- (refold c2), Ep, Ef in Hs2.
  apply wp_bind. destruct (Z.eqb_spec (a_err (next_attempt c)) 0) as [E0|E0].
  - eapply (write_words_wp i ws h []); [by rewrite Ee|done|by apply Hin|by rewrite Hlen|by destruct ws|exact Hs2|]. intros l' s3 Hs3. cbn [app] in Hs3.
    rewrite Eb, (spoilt_insert i b (medium c)) in Hs3 by done.
    apply wp_bind. eapply check_status_good; [|exact Hs3|]; [by simpl; rewrite Ee|]. intros l2 s4 Hs4. apply wp_ret. eapply HQ; [| |exact Hs4].
    + split; [split; simpl; try congruence; [rewrite Et; by apply Forall_tail|exact Eu]|simpl; rewrite Et; apply tail_suffix].
    + simpl. rewrite En. by apply next_end.
  - eapply (write_words_any i ws h (Writing i []) _ (medium c2)); [by intros ? ? [= <- _]| |exact Hs2|]; [done|]. intros p' l' b' s3 Hb' Hs3. apply wp_bind.
    eapply check_status_bad; [| | | |exact Hs3|]; [by simpl; rewrite Ee|by simpl; rewrite Ee|simpl; congruence|exact Eu|]. intros s4 Hs4.
    destruct (fail_todo c E0) as (a & l & El'). rewrite El' in *. cbn [tail length] in *. apply Forall_cons in Htodo as [_ Htodo], He as [_ He].
    eapply IH; [| | | | |exact Hs4|]; [|split; simpl; try congruence; exact Eu|simpl; rewrite Et; lia|done|by simpl; rewrite Et|].
    + unfold spoilt in *. simpl. by rewrite Hb', Eb.
    + intros c' s' [Hc' Hsuf] Hend Hs'. eapply HQ; [|done|done]. split; [done|]. simpl in Hsuf. rewrite Et in Hsuf. rewrite El'. by apply suffix_cons_r.
Qed.

(** The driver knows the kind of card, and the address fits. *)
Definition knows (h : Z) (hi : bool) : Prop := hi = negb (h =? 0).
Definition addressable (hi : bool) (i : Z) : Prop := 0 ≤ i < if hi then 2 ^ 31 else 2 ^ 22.

Lemma card_addr_wp h hi i c s (Q : Z → sds → Prop) : knows h hi → addressable hi i → st h c s →
  (∀ addr, block_at hi (u32 addr) = i → Q addr s) → wp (card_addr i) Q s.
Proof.
  intros Hk Ha [Hh Hc] HQ. unfold knows in Hk. subst hi. unfold card_addr. apply wp_bind, wp_gets, wp_ret, HQ. rewrite Hh. unfold addressable, block_at in *.
  destruct (h =? 0); cbn [negb] in Ha |- *; cbv iota in Ha |- *; [|unfold u32; rewrite Z.mod_small; lia].
  rewrite Z.shiftl_mul_pow2 by lia. unfold i32. rewrite Z.mod_small, Z.add_simpl_r by lia. unfold u32. rewrite Z.mod_small by lia.
  change (2 ^ 9) with 512. by rewrite Z.div_mul.
Qed.
End Steps.

(** ** The driver *)

Section Driver.
Context `{!SdHost, !SdCard}.

(** The driver is set up for the card in the device. *)
Record sd_ok (b : gmap Z (list Z)) (s : sds) : Prop := {
  sd_card : card_ok b (high (view (host s))) (view (host s));
  sd_kind : knows (is_hcs s) (high (view (host s)));
}.

Abbreviation plan s := (todo (view (host s))).

(** [fuel] is enough for the failures to come. *)
Definition enough (fuel : nat) (s : sds) : Prop := (length (plan s) < fuel)%nat ∧ Forall (λ a, (a_end a < fuel)%nat) (plan s).

Definition block_ok (ws : list Z) : Prop := length ws = 128%nat ∧ Forall (λ w, 0 ≤ w < 2 ^ 32) ws.

(** However many transfers fail first, and however long the card takes within
    the limits of the polls, [readblock] returns, with the words of the block,
    and the card keeps its blocks. *)
Theorem readblock_correct fuel i ws b s :
  sd_ok b s → enough fuel s → addressable (high (view (host s))) i → b !! i = Some ws → block_ok ws →
  ∃ s', readblock fuel i s = Ok (ws, s') ∧ sd_ok b s' ∧ is_hcs s' = is_hcs s ∧ high (view (host s')) = high (view (host s)) ∧ plan s' `suffix_of` plan s.
Proof.
  intros [Hok Hk] [Hf He] Ha Hi [Hl Hr].
  assert (Hrun : wp (readblock fuel i) (λ r s', r = ws ∧ sd_ok b s' ∧ is_hcs s' = is_hcs s ∧ high (view (host s')) = high (view (host s)) ∧ plan s' `suffix_of` plan s) s).
  { unfold readblock. apply wp_bind. eapply card_addr_wp; [done|done|done|]. intros addr Haddr. apply wp_bind.
    eapply (read_loop_wp b _ fuel); [done..|lia|done|done|]. intros c' s' [Hc' Hsuf] Hend Hs'. apply wp_bind.
    eapply wait_finish_wp; [exact Hend|done|]. intros s2 [Hh2 Hc2]. apply wp_ret. split; [done|]. destruct Hc' as [? Hhi ? ? ? ?].
    assert (Hhi2 : high (view (host s2)) = high (view (host s))) by (rewrite Hc2; simpl; done).
    split_and!; [|done|done|rewrite Hc2; exact Hsuf]. split; [rewrite Hc2; by split|]. by rewrite Hh2, Hhi2. }
  apply wp_run in Hrun as (r & s' & E & -> & H'). by exists s'.
Qed.

(** [writeblock] returns, and the card then holds the words at the block and
    its other blocks as before. *)
Theorem writeblock_correct fuel i ws b s :
  sd_ok b s → enough fuel s → addressable (high (view (host s))) i → block_ok ws →
  ∃ s', writeblock fuel i ws s = Ok (tt, s') ∧ sd_ok (<[i := ws]> b) s' ∧ is_hcs s' = is_hcs s ∧ high (view (host s')) = high (view (host s)) ∧ plan s' `suffix_of` plan s.
Proof.
  intros [Hok Hk] [Hf He] Ha [Hl Hr].
  assert (Hrun : wp (writeblock fuel i ws) (λ _ s', sd_ok (<[i := ws]> b) s' ∧ is_hcs s' = is_hcs s ∧ high (view (host s')) = high (view (host s)) ∧ plan s' `suffix_of` plan s) s).
  { unfold writeblock. apply wp_bind. eapply card_addr_wp; [done|done|done|]. intros addr Haddr. apply wp_bind.
    eapply (write_loop_wp b _ fuel); [done..| | | |lia|done|done|]; [by rewrite (ok_blocks _ _ _ Hok)|destruct Hok; by split|done|]. intros c' s' [Hc' Hsuf] Hend Hs'.
    eapply wait_finish_wp; [exact Hend|done|]. intros s2 [Hh2 Hc2]. destruct Hc' as [? Hhi ? ? ? ?].
    assert (Hhi2 : high (view (host s2)) = high (view (host s))) by (rewrite Hc2; simpl; done).
    split_and!; [|done|done|rewrite Hc2; exact Hsuf]. split; [rewrite Hc2; by split|]. by rewrite Hh2, Hhi2. }
  apply wp_run in Hrun as ([] & s' & E & H'). by exists s'.
Qed.

(** *** Set-up *)

(** What the commands of the set-up leave alone. *)
Record quiet (c c' : card) : Prop := {
  qu_blocks : medium c' = medium c;
  qu_high : high c' = high c;
  qu_lat : lat c' = lat c;
  qu_todo : todo c' = todo c;
  qu_err : c_err c' = c_err c;
}.

Lemma same_card_trans c1 c2 c3 : quiet c1 c2 → quiet c2 c3 → quiet c1 c3.
Proof. intros [] []. split; congruence. Qed.

Definition op_resp (c : card) : Z := Z.lor SDCARD_READY (if high c then SDCARD_ISHCS else 0).

(** The commands of the set-up, in the states that allow them. *)
Abbreviation sent v := (u32 (Z.lor v SDHOST_NEW_CMD)).
Abbreviation alive m a v bl := (mk_life true m a v bl).
Definition went (l : card_life) (c : card) : card := set_life l (set_c_busy (lat c) c).

Lemma cmd_idle c m a v bl : life c = alive m a v bl →
  command (sent (Z.lor GO_IDLE_STATE SDHOST_NO_REPONSE)) c = went (alive M_idle false false (own_blen c)) c.
Proof. intros Hl. destruct c. cbn in Hl. by subst. Qed.
Lemma cmd_if_cond c a v bl : life c = alive M_idle a v bl →
  command (sent SEND_IF_COND) c = went (alive M_idle false true bl) (set_c_resp (start c) (c_arg c) c).
Proof. intros Hl. destruct c. cbn in Hl. by subst. Qed.
Lemma cmd_app c m a v bl : life c = alive m a v bl → command (sent APP_CMD) c = went (alive m true v bl) c.
Proof. intros Hl. destruct c. cbn in Hl. by subst. Qed.
Lemma cmd_op_cond c bl : life c = alive M_idle true true bl → c_arg c = u32 (Z.lor SDCARD_3_3V SDCARD_ISHCS) →
  command (sent SD_APP_OP_COND) c = match start c with
    | O => went (alive M_ready false true bl) (set_c_resp O (op_resp c) c)
    | S n => went (alive M_idle false true bl) (set_c_resp n 0 c)
    end.
Proof. intros Hl Ha. destruct c as [? hi ? st0]. cbn in Hl, Ha. subst. by destruct hi, st0. Qed.
Lemma cmd_cid c a v bl : life c = alive M_ready a v bl →
  command (sent (Z.lor ALL_SEND_CID SDHOST_LONG_RESPONSE)) c = went (alive M_ident false v bl) c.
Proof. intros Hl. destruct c. cbn in Hl. by subst. Qed.
Lemma cmd_rca c a v bl : life c = alive M_ident a v bl →
  command (sent SEND_RELATIVE_ADDR) c = went (alive M_stby false v bl) (set_c_resp (start c) (rca c) c).
Proof. intros Hl. destruct c. cbn in Hl. by subst. Qed.
Lemma cmd_select c a v bl : life c = alive M_stby a v bl → c_arg c = u32 (u32 (rca c)) →
  command (sent SELECT_CARD) c = went (alive M_tran false v bl) c.
Proof.
  intros Hl Ha. unfold u32 in Ha at 1. rewrite Z.mod_small in Ha by (unfold u32; apply Z.mod_pos_bound; lia).
  assert (E : (Z.shiftr (c_arg c) 16 =? Z.shiftr (u32 (rca c)) 16) = true) by (rewrite Ha; apply Z.eqb_refl).
  destruct c. cbn in Hl, E. subst. unfold command. cbn. by rewrite E.
Qed.
Lemma cmd_blocklen c a v bl : life c = alive M_tran a v bl → command (sent SET_BLOCKLEN) c = went (alive M_tran false v (c_arg c)) c.
Proof. intros Hl. destruct c. cbn in Hl. by subst. Qed.

Lemma quiet_went l arg c : quiet c (set_c_busy 0 (went l (set_c_arg arg c))).
Proof. done. Qed.

(** The card powers up, however many rounds it takes. *)
Lemma op_cond_wp fuel : ∀ h c a bl s (Q : Z → sds → Prop), (start c < fuel)%nat → (lat c < POLLS)%nat → life c = alive M_idle a true bl → st h c s →
  (∀ c' s', quiet c c' → rca c' = rca c → life c' = alive M_ready false true bl → st h c' s' → Q (op_resp c) s') → wp (op_cond_loop fuel) Q s.
Proof.
  induction fuel as [|fuel IH]; intros h c a bl s Q Hf Hl Hlife Hs HQ; [lia|]. cbn [op_cond_loop].
  apply wp_bind. eapply sd_cmd_wp; [done| |exact Hs|]; [done|]. intros s1. rewrite (cmd_app _ M_idle a true bl) by done. intros Hs1.
  change (0 =? -1) with false. cbn match.
  apply wp_bind. eapply sd_cmd_wp; [done| |exact Hs1|]; [done|]. intros s2. rewrite (cmd_op_cond _ bl) by done.
  change (start (set_c_arg _ _)) with (start c). change (op_resp (set_c_arg _ _)) with (op_resp c). intros Hs2. apply wp_bind.
  destruct (start c) as [|m] eqn:E; (eapply get_wp; [exact Hs2|]; intros s3 Hs3);
    match type of Hs3 with st _ (card_get SDHOST_RESP0 ?c).2 _ => change (card_get SDHOST_RESP0 c) with (c_resp c, c) in *; set (c2 := c) in * end; cbn [fst snd] in *.
  - assert (Er : u32 (c_resp c2) = op_resp c) by (change (c_resp c2) with (op_resp c); unfold op_resp; by destruct (high c)). rewrite Er.
    assert (negb (Z.land (op_resp c) SDCARD_READY =? 0) = true) as -> by (unfold op_resp; by destruct (high c)). apply wp_ret. eapply HQ; [| | |exact Hs3]; done.
  - change (negb (Z.land (u32 (c_resp c2)) SDCARD_READY =? 0)) with false. cbn match. apply wp_bind, wp_ret.
    eapply (IH h c2 false bl); [simpl; lia|done|done|exact Hs3|]. intros c' s' Hq Hr Hl' Hs'. change (op_resp c2) with (op_resp c). eapply HQ; [|done|done|done].
    exact (same_card_trans c c2 c' ltac:(done) Hq).
Qed.

Lemma get_resp c : card_get SDHOST_RESP0 c = (c_resp c, c).
Proof. done. Qed.

Lemma setup_wp fuel h c m a v bl s (Q : Z → sds → Prop) : (start c < fuel)%nat → (lat c < POLLS)%nat → life c = alive m a v bl → st h c s →
  (∀ h' c' s', knows h' (high c) → quiet c c' → usable c' = true → st h' c' s' → Q 0 s') → wp (sdcard_setup fuel) Q s.
Proof.
  intros Hf Hl Hlife Hs HQ. unfold sdcard_setup.
  apply wp_bind. eapply sd_cmd_wp; [done| |exact Hs|]; [done|]. intros s1. rewrite (cmd_idle _ m a v bl) by done. intros Hs1.
  apply wp_bind. eapply sd_cmd_wp; [done| |exact Hs1|]; [done|]. intros s2. rewrite (cmd_if_cond _ false false (own_blen c)) by done. intros Hs2.
  apply wp_bind. eapply get_wp; [exact Hs2|]. intros s3 Hs3. rewrite get_resp in *. cbn [fst snd] in *. match goal with |- wp (if ?b then _ else _) _ _ => change b with false end. cbn match.
  apply wp_bind. eapply (op_cond_wp fuel _ _ false (own_blen c)); [| | |exact Hs3|]; [done|done|done|]. intros c4 s4 Hq4 Hr4 Hl4 [Hh4 Hc4]. cbv beta.
  apply wp_bind, wp_modify. set (h' := Z.land _ SDCARD_ISHCS). assert (Hs5 : st h' c4 (mk_sds h' (host s4))) by done.
  assert (Hlat : (lat c4 < POLLS)%nat) by (by rewrite (qu_lat _ _ Hq4)).
  apply wp_bind. eapply sd_cmd_wp; [done| |exact Hs5|]; [done|]. intros s6. rewrite (cmd_cid _ false true (own_blen c)) by done. intros Hs6.
  apply wp_bind. eapply sd_cmd_wp; [done| |exact Hs6|]; [done|]. intros s7. rewrite (cmd_rca _ false true (own_blen c)) by done. intros Hs7.
  apply wp_bind. eapply get_wp; [exact Hs7|]. intros s8 Hs8. rewrite get_resp in *. cbn [fst snd] in *.
  apply wp_bind. eapply sd_cmd_wp; [done| |exact Hs8|]; [done|]. intros s9. rewrite (cmd_select _ false true (own_blen c)) by done. intros Hs9.
  apply wp_bind. eapply sd_cmd_wp; [done| |exact Hs9|]; [done|]. intros s10. rewrite (cmd_blocklen _ false true (own_blen c)) by done. intros Hs10.
  apply wp_ret. eapply HQ; [| | |exact Hs10].
  - unfold knows, h', op_resp. simpl. by destruct (high c).
  - destruct Hq4. by split.
  - unfold usable. cbn. apply orb_true_r.
Qed.

Ltac dev_step :=
  lazymatch goal with
  | |- wp (_ ≫= _) _ _ => apply wp_bind
  | |- wp (set _ _) _ _ => eapply set_wp; [eassumption|]; let t := fresh "t" in let Ht := fresh "Ht" in intros t Ht
  | |- wp (mret _) _ _ => apply wp_ret
  end.

Lemma host_setup_wp h c s (Q : unit → sds → Prop) : Z.ldiff (c_err c) SDHOST_HSTS_MASK = 0 → st h c s →
  (∀ c' bl s', quiet (set_c_err 0 c) c' → start c' = start c → life c' = alive M_idle false false bl → st h c' s' → Q tt s') →
  wp (pin_setup ;; sdhost_setup) Q s.
Proof.
  intros He Hs HQ. unfold pin_setup, sdhost_setup, delay.
  repeat dev_step.
  match goal with Hc : st h ?x ?t |- wp _ _ ?t => set (c1 := x) in Hc; rename t into s2; rename Hc into Hs2 end.
  assert (Hq : quiet (set_c_err 0 c) c1 ∧ start c1 = start c ∧ life c1 = mk_life false M_idle false false (own_blen c)).
  { split; [|done]. by split. }
  eapply get_wp; [exact Hs2|]. intros s3.
  assert (Hd : quiet c1 (card_get SDHOST_DBG c1).2 ∧ start (card_get SDHOST_DBG c1).2 = start c1 ∧ life (card_get SDHOST_DBG c1).2 = life c1).
  { change (card_get SDHOST_DBG c1) with (match c_end c1 with O => (1, c1) | S n => (2, set_c_end n c1) end). by destruct (c_end c1). }
  destruct Hq as (Hq & Hst & Hlf), Hd as (Hq2 & Hst2 & Hlf2). rewrite Hlf in Hlf2.
  generalize dependent (card_get SDHOST_DBG c1). intros [v c2] Hq2 Hst2 Hlf2 Hs3. cbn [fst snd] in *. cbv zeta.
  assert (Hq3 : quiet (set_c_err 0 c) c2) by exact (same_card_trans _ _ _ Hq Hq2). rewrite Hst in Hst2.
  repeat dev_step.
  eapply (HQ _ (own_blen c2)); [| | |eassumption]; clear -Hq3 Hst2 Hlf2.
  - destruct Hq3, c2. cbn in Hlf2 |- *. subst. by split.
  - destruct c2. cbn in Hlf2 |- *. subst. done.
  - destruct c2. cbn in Hlf2 |- *. subst. done.
Qed.

(** C33: [sd_init] turns the controller's power on, takes any card through
    identification (which must follow the specification: SD_APP_OP_COND only
    after APP_CMD and with the voltage and, for high capacity, the host's
    support offered, then the card's own address) and finds out of which kind
    it is, however many rounds it takes to power up (fewer than [fuel]) and
    however many polls a command takes (fewer than the driver's million).  It
    leaves the card selected, with blocks of 512 bytes and no error pending,
    which is what the transfers need, and with its blocks as they were.  What
    errors are pending before lie within the bits the driver clears, and the
    transfers to come fail, if they do, by the controller's error bits
    ([attempt_ok], part of [sd_ok]). *)
Theorem sd_init_correct fuel s : let c := view (host s) in
  (start c < fuel)%nat → (lat c < POLLS)%nat → Z.ldiff (c_err c) SDHOST_HSTS_MASK = 0 → Forall attempt_ok (todo c) →
  ∃ s', sd_init fuel s = Ok (tt, s') ∧ sd_ok (medium c) s' ∧ high (view (host s')) = high c ∧ plan s' = todo c.
Proof.
  intros c Hf Hl He Ht.
  assert (Hrun : wp (sd_init fuel) (λ _ s', sd_ok (medium c) s' ∧ high (view (host s')) = high c ∧ plan s' = todo c) s).
  { assert (Hassoc : sd_init fuel s = ((pin_setup ;; sdhost_setup) ≫= λ _, sdcard_setup fuel ;; mret tt) s).
    { unfold sd_init, mbind, M_bind. by destruct (pin_setup s) as [[]| |]. }
    unfold wp. rewrite Hassoc. change (wp ((pin_setup ;; sdhost_setup) ≫= λ _, sdcard_setup fuel ;; mret tt)
      (λ _ s', sd_ok (medium c) s' ∧ high (view (host s')) = high c ∧ plan s' = todo c) s).
    apply wp_bind. eapply host_setup_wp; [done|done|]. intros c1 bl s1 Hq1 Hst1 Hlife1 Hs1. apply wp_bind.
    eapply setup_wp; [| |exact Hlife1|exact Hs1|]; [by rewrite Hst1|by rewrite (qu_lat _ _ Hq1)|]. intros h' c2 s2 Hk Hq2 Hu2 [Hh2 Hc2]. apply wp_ret.
    assert (Hq : quiet (set_c_err 0 c) c2) by (by eapply same_card_trans). destruct Hq as [Qb Qh Ql Qt Qe].
    assert (Hhi : high (view (host s2)) = high c) by by rewrite Hc2.
    split_and!; [|done|by rewrite Hc2]. split.
    - rewrite Hc2. split; [done|done|by rewrite Ql|done|by rewrite Qt|done].
    - rewrite Hhi, Hh2. by rewrite (qu_high _ _ Hq1) in Hk. }
  apply wp_run in Hrun as ([] & s' & E & H'). by exists s'.
Qed.

(** *** The disk of the file system *)

(** The file system's disk is what the card holds. *)
Definition holds_disk (m : gmap Z (list Z)) (b : gmap Z (list Z)) (hi : bool) : Prop :=
  m = bytes_of <$> b ∧ map_Forall (λ i ws, addressable hi i ∧ block_ok ws) b.

(** C17: The disk fat32.c works with is implemented by the driver, once [sd_init]
    has prepared driver and card ([sd_ok], which C33 establishes): what its
    [readblock] puts into the buffer are the words the driver reads, and after
    its [writeblock] of a buffer with the words [ws] the driver's has made the
    card hold the new disk.  Attempts may fail by the error bits of the
    controller, and are repeated; the fuel covers the failures to come. *)
Theorem sd_refines_disk fuel idx f s b :
  sd_ok b s → enough fuel s → holds_disk (sd f) b (high (view (host s))) →
  (∀ a f', Fat32.readblock idx a f = Ok (tt, f') →
     ∃ ws s', readblock fuel (i32 idx) s = Ok (ws, s') ∧ poke a 0 (bytes_of ws) f = Ok (tt, f') ∧
       sd_ok b s' ∧ holds_disk (sd f') b (high (view (host s'))) ∧ plan s' `suffix_of` plan s) ∧
  (∀ a ws f', block_ok ws → peek a 0 BLK_SZ f = Ok (bytes_of ws, f) → Fat32.writeblock idx a f = Ok (tt, f') →
     ∃ s' b', writeblock fuel (i32 idx) ws s = Ok (tt, s') ∧
       sd_ok b' s' ∧ holds_disk (sd f') b' (high (view (host s'))) ∧ plan s' `suffix_of` plan s).
Proof.
  intros Hok Hen [Hm Hall]. split.
  - intros a f' E. unfold Fat32.readblock, disk_read, mbind, M_bind, get_st, deref in E. rewrite Hm, lookup_fmap in E.
    destruct (b !! i32 idx) as [ws|] eqn:Hi; [|done]. simpl in E. destruct (Hall _ _ Hi) as [Ha Hws].
    destruct (readblock_correct fuel (i32 idx) ws b s Hok Hen Ha Hi Hws) as (s' & E' & Hok' & _ & Hh & Hp).
    exists ws, s'. split_and!; [done|done|done|..|done]. rewrite Hh. split; [|done].
    rewrite <- Hm. revert E. unfold poke, block_get, block_set, mbind, M_bind, get_st, deref, assert. repeat case_match; try done. intros [= <-].
    repeat match goal with Hr : mret _ _ = Ok _ |- _ => injection Hr as <- <- end. done.
  - intros a ws f' Hws Hpk E. unfold Fat32.writeblock in E. rewrite (bind_Ok _ _ _ _ _ Hpk) in E.
    unfold disk_write, disk_read, mbind, M_bind, get_st, deref in E. rewrite Hm, lookup_fmap in E.
    destruct (b !! i32 idx) as [ws0|] eqn:Hi; [|done]. simpl in E. injection E as <-. destruct (Hall _ _ Hi) as [Ha _].
    destruct (writeblock_correct fuel (i32 idx) ws b s Hok Hen Ha Hws) as (s' & E' & Hok' & _ & Hh & Hp).
    exists s', (<[i32 idx := ws]> b). split_and!; [done|done| |done]. rewrite Hh. split.
    + simpl. by rewrite fmap_insert, Hm.
    + by apply map_Forall_insert_2.
Qed.

(** What was written is read back, and other blocks are read as before, however
    many transfers fail on the way. *)
Theorem sd_write_read fuel i j ws b s :
  sd_ok b s → enough fuel s → addressable (high (view (host s))) i → block_ok ws →
  addressable (high (view (host s))) j → is_Some (b !! j) → map_Forall (λ _, block_ok) b →
  ∃ s1 s2, writeblock fuel i ws s = Ok (tt, s1) ∧
    readblock fuel j s1 = Ok (if decide (i = j) then ws else default [] (b !! j), s2) ∧ sd_ok (<[i := ws]> b) s2.
Proof.
  intros Hok Hen Hi Hws Hj [wj Hbj] Hall.
  destruct (writeblock_correct fuel i ws b s Hok Hen Hi Hws) as (s1 & E1 & Hok1 & _ & Hh & Hp).
  assert (Hen1 : enough fuel s1).
  { destruct Hen as [Hl Hf], Hp as [l Hp]. unfold enough. rewrite Hp in Hl, Hf. rewrite length_app in Hl. apply Forall_app in Hf as [_ Hf]. split; [lia|done]. }
  destruct (readblock_correct fuel j (if decide (i = j) then ws else default [] (b !! j)) (<[i := ws]> b) s1) as (s2 & E2 & Hok2 & _);
    [done|done|by rewrite Hh| | |by exists s1, s2].
  - rewrite Hbj. destruct (decide (i = j)) as [->|]; [apply lookup_insert_eq|by rewrite lookup_insert_ne].
  - rewrite Hbj. case_decide; [done|]. by eapply Hall.
Qed.
End Driver.

(** ** A concrete run *)

(** A standard-capacity card of two blocks that is selected, and whose first two
    transfers fail. *)
Definition flaky : card :=
  mk_card {[0 := replicate 128 5; 1 := replicate 128 6]} false 2 1 0x12340520 1024 (mk_life true M_tran false true 512)
    [mk_attempt [3%nat] 1 0x20 [9]; mk_attempt [] 0 0x80 (replicate 128 1); mk_attempt [1%nat; 2%nat] 2 0 []]
    0 0 0 0 0 Idle [] 0 0 [].
Definition powered : sds (H := card_host) := mk_sds (H := card_host) 0 flaky.

Lemma polls_many n : (n ≤ 100)%nat → (n < POLLS)%nat.
Proof. unfold POLLS. lia. Qed.

Lemma flaky_todo : Forall attempt_ok (todo flaky).
Proof.
  do 2 (constructor; [split; [reflexivity|split; [discriminate|intros [=]]]|]). constructor; [|constructor].
  split; [reflexivity|split; [discriminate|intros _]]. constructor; [apply polls_many; lia|]. constructor; [apply polls_many; lia|constructor].
Qed.

Lemma powered_ok : sd_ok (H := card_host) {[0 := replicate 128 5; 1 := replicate 128 6]} powered.
Proof. split; [|reflexivity]. split; [reflexivity|reflexivity|apply polls_many; simpl; lia|reflexivity|exact flaky_todo|reflexivity]. Qed.

Lemma words_ok n : 0 ≤ n < 2 ^ 32 → block_ok (replicate 128 n).
Proof. intros Hn. split; [reflexivity|]. by apply Forall_replicate. Qed.

Lemma powered_enough : enough (H := card_host) 4 powered.
Proof. split; [simpl; lia|]. repeat (constructor; [simpl; lia|]). constructor. Qed.

(** The card before the controller has power. *)
Definition cold : sds (H := card_host) := mk_sds (H := card_host) 0 (set_life (mk_life false M_idle false false 1024) flaky).

Lemma sd_init_correct_witness :
  ∃ s', sd_init 2 cold = Ok (tt, s') ∧ sd_ok (H := card_host) (medium flaky) s' ∧ high (view (host s')) = false.
Proof.
  destruct (sd_init_correct (H := card_host) 2 cold) as (s' & E & Hok & Hh & _);
    [simpl; lia|apply polls_many; simpl; lia|reflexivity|exact flaky_todo|].
  exists s'. split; [exact E|]. split; [exact Hok|exact Hh].
Defined.

Lemma sd_write_read_witness :
  ∃ s1 s2, writeblock 4 1 (replicate 128 7) powered = Ok (tt, s1) ∧ readblock 4 1 s1 = Ok (replicate 128 7, s2).
Proof.
  destruct (sd_write_read (H := card_host) 4 1 1 (replicate 128 7) {[0 := replicate 128 5; 1 := replicate 128 6]} powered) as (s1 & s2 & E1 & E2 & _);
    [exact powered_ok|exact powered_enough|split; reflexivity || discriminate|apply words_ok; lia|split; reflexivity || discriminate|eexists; reflexivity| |].
  - apply map_Forall_insert_2; [apply words_ok; lia|]. apply map_Forall_singleton. apply words_ok. lia.
  - exists s1, s2. split; [exact E1|exact E2].
Defined.

(** A buffer for one block, and the card as the disk. *)
Definition disk_fs : fs := set_blocks {[4096 := replicate 512 0]} (set_sd (bytes_of <$> medium flaky) fs_none).

Lemma sd_refines_disk_witness :
  ∃ ws s' f', Fat32.readblock 1 4096 disk_fs = Ok (tt, f') ∧ readblock 4 1 powered = Ok (ws, s') ∧ poke 4096 0 (bytes_of ws) disk_fs = Ok (tt, f').
Proof.
  destruct (sd_refines_disk (H := card_host) 4 1 disk_fs powered (medium flaky)) as [Hr _];
    [exact powered_ok|exact powered_enough| |].
  - split; [reflexivity|]. apply map_Forall_insert_2; [|apply map_Forall_singleton];
      (split; [split; reflexivity || discriminate|apply words_ok; lia]).
  - eassert (E : Fat32.readblock 1 4096 disk_fs = Ok (tt, _)) by (vm_compute; reflexivity).
    destruct (Hr _ _ E) as (ws & s' & E1 & E2 & _). exists ws, s'. eexists. split; [exact E|]. split; [exact E1|exact E2].
Defined.
