(* ===== verification/Bare.v ===== *)
(** * Programs without a kernel below them

    The bootloader (src/bootloader/io.c, src/bootloader/main.c,
    include/bootloader/io.h) and the test program testprog/echo.c, which talk
    to the mini UART by polling.  The board is a parameter; a loop that waits
    for the board takes fuel. *)

From S2P Require Import Prelude Cpu Str Fat32.

Definition GPFSEL1 : Z := 0x3f200004.
Definition GPPUD : Z := 0x3f200094.
Definition GPPUDCLK0 : Z := 0x3f200098.
Definition AUXENB : Z := 0x3f215004.
Definition AUX_MU_CNTL_REG : Z := 0x3f215060.
Definition AUX_MU_IER_REG : Z := 0x3f215044.
Definition AUX_MU_LCR_REG : Z := 0x3f21504c.
Definition AUX_MU_MCR_REG : Z := 0x3f215050.
Definition AUX_MU_BAUD_REG : Z := 0x3f215068.
Definition AUX_MU_IIR_REG : Z := 0x3f215048.
Definition AUX_MU_LSR_REG : Z := 0x3f215054.
Definition AUX_MU_IO_REG : Z := 0x3f215040.

(** Accesses of 32 and of 8 bits. *)
Class Board := {
  board : Type;
  rd32 : Z → board → Z * board;
  wr32 : Z → Z → board → board;
  rd8 : Z → board → Z * board;
  wr8 : Z → Z → board → board;
}.

(** ** Input and output *)

Section Io.
Context `{!Board}.

(** The board, the array the caller reads into, and the memory from [_skernel]
    on. *)
Record bare := mk_bare { brd : board; buf : list Z; skernel : list Z }.

Definition get32 (addr : Z) : M bare Z := λ s, let '(v, b) := rd32 addr (brd s) in Ok (u32 v, mk_bare b (buf s) (skernel s)).
Definition set32 (addr value : Z) : M bare unit := modify (λ s, mk_bare (wr32 addr (u32 value) (brd s)) (buf s) (skernel s)).
Definition get8 (addr : Z) : M bare Z := λ s, let '(v, b) := rd8 addr (brd s) in Ok (u8 v, mk_bare b (buf s) (skernel s)).
Definition set8 (addr value : Z) : M bare unit := modify (λ s, mk_bare (wr8 addr (u8 value) (brd s)) (buf s) (skernel s)).

Definition uart_init : M bare unit :=
  data ← get32 GPFSEL1;
  let data := Z.land data (u32 (Z.lnot (Z.lor (Z.shiftl 7 12) (Z.shiftl 7 15)))) in
  let data := Z.lor data (Z.lor (Z.shiftl 2 12) (Z.shiftl 2 15)) in
  set32 GPFSEL1 data ;;
  data ← get32 GPPUD;
  set32 GPPUD (Z.land data (u32 (Z.lnot 3))) ;;
  set32 GPPUDCLK0 (Z.lor (Z.shiftl 1 14) (Z.shiftl 1 15)) ;;
  set32 GPPUD 0 ;;
  set32 GPPUDCLK0 0 ;;
  set32 AUXENB 1 ;;
  set32 AUX_MU_CNTL_REG 0 ;;
  set32 AUX_MU_IER_REG 0 ;;
  set32 AUX_MU_LCR_REG 3 ;;
  set32 AUX_MU_MCR_REG 0 ;;
  set32 AUX_MU_BAUD_REG 270 ;;
  set32 AUX_MU_IIR_REG 6 ;;
  set32 AUX_MU_CNTL_REG 3.

(** [while (!(get32(AUX_MU_LSR_REG) & mask)) ;] *)
Fixpoint wait_lsr (fuel : nat) (mask : Z) : M bare unit :=
  match fuel with
  | O => spin
  | S fuel' => v ← get32 AUX_MU_LSR_REG; if Z.land v mask =? 0 then wait_lsr fuel' mask else mret tt
  end.

Definition uart_write_char (fuel : nat) (c : Z) : M bare unit :=
  wait_lsr fuel (Z.shiftl 1 5) ;;
  set8 AUX_MU_IO_REG c.

(** The characters up to the terminator. *)
Fixpoint uart_write_string (fuel : nat) (str : list Z) : M bare unit :=
  match str with
  | [] => ub
  | c :: str' => if c =? NUL then mret tt else uart_write_char fuel c ;; uart_write_string fuel str'
  end.

(** One character received. *)
Definition uart_get (fuel : nat) : M bare Z := wait_lsr fuel 1 ;; get8 AUX_MU_IO_REG.

(** Where [uart_read_raw] stores: the caller's array, or the memory of the
    kernel image. *)
Inductive dest := To_buf | To_skernel.
Definition put (d : dest) (i : nat) (c : Z) : M bare unit :=
  s ← get_st;
  match d with
  | To_buf => assert (i <? length (buf s))%nat ;; modify (λ s, mk_bare (brd s) (<[i := c]> (buf s)) (skernel s))
  | To_skernel => assert (i <? length (skernel s))%nat ;; modify (λ s, mk_bare (brd s) (buf s) (<[i := c]> (skernel s)))
  end.

(** [n] rounds are left. *)
Fixpoint read_raw_loop (fuel : nat) (d : dest) (i n : nat) : M bare unit :=
  match n with
  | O => mret tt
  | S n' => c ← uart_get fuel; put d i c ;; read_raw_loop fuel d (S i) n'
  end.
Definition uart_read_raw (fuel : nat) (d : dest) (size : Z) : M bare unit := read_raw_loop fuel d 0 (Z.to_nat size).
End Io.

(** ** The bootloader *)

Section Bootloader.
Context `{!Board}.

Definition MAGIC : Z := 0x544f4f42.

Definition read_word (fuel : nat) : M bare Z := uart_read_raw fuel To_buf 4 ;; s ← get_st; mret (of_le (buf s)).

(** [sum] over the first [data_len] bytes. *)
Definition sum_bytes (l : list Z) : Z := fold_left (λ sum b, u32 (sum + u8 b)) l 0.

(** [fuel] bounds the polls for one character and [rounds] the images tried;
    the function returns when it jumps to the kernel. *)
Fixpoint main_loop (fuel rounds : nat) : M bare unit :=
  match rounds with
  | O => spin
  | S rounds' =>
      uart_write_string fuel (lit ("Receiving kernel image..." +:+ crlf)) ;;
      magic ← read_word fuel;
      data_len ← read_word fuel;
      checksum ← read_word fuel;
      uart_read_raw fuel To_skernel data_len ;;
      s ← get_st;
      let sum := sum_bytes (take (Z.to_nat data_len) (skernel s)) in
      if negb (magic =? MAGIC) then
        uart_write_string fuel (lit ("Invalid file" +:+ crlf)) ;;
        main_loop fuel rounds'
      else if negb (sum =? checksum) then
        uart_write_string fuel (lit ("File corrupted" +:+ crlf)) ;;
        main_loop fuel rounds'
      else uart_write_string fuel (lit ("File received" +:+ crlf))
  end.

Definition boot_main (fuel rounds : nat) : M bare unit := uart_init ;; main_loop fuel rounds.
End Bootloader.

(** ** The echo program *)

Section Echo.
Context `{!Board}.

Definition STRLEN : Z := 256.

(** [str[i] = c] *)
Definition cell_set (str : list Z) (i c : Z) : M bare (list Z) :=
  assert ((0 <=? i) && (i <? Z.of_nat (length str))) ;; mret (<[Z.to_nat i := c]> str).

(** The line editor; [i] is an [int], compared as an unsigned number. *)
Fixpoint uart_read_loop (fuel rounds : nat) (str : list Z) (i size : Z) : M bare (list Z * Z) :=
  match rounds with
  | O => spin
  | S rounds' =>
      if u32 i <? u32 (size - 1) then
        c ← uart_get fuel;
        if (c =? 0x7f) || (c =? 8) then
          i ← (if 0 <? i then uart_write_string fuel [8; 32; 8; 0] ;; mret (i - 2) else mret (i - 1));
          uart_read_loop fuel rounds' str (i + 1) size
        else if c =? 13 then uart_write_string fuel [13; 10; 0] ;; mret (str, i)
        else if (c =? 0) || (c =? 10) then uart_write_char fuel c ;; mret (str, i)
        else
          uart_write_char fuel c ;;
          str ← cell_set str i c;
          uart_read_loop fuel rounds' str (i + 1) size
      else mret (str, i)
  end.

Definition uart_read (fuel rounds : nat) (str : list Z) (size : Z) : M bare (list Z * Z) :=
  '(str, i) ← uart_read_loop fuel rounds str 0 size;
  str ← cell_set str i 0;
  mret (str, i).

Fixpoint strcmp (str1 str2 : list Z) : res Z :=
  match str1, str2 with
  | a :: str1', b :: str2' =>
      if a <? b then Ok (-1) else if b <? a then Ok 1
      else if (a =? NUL) && (b =? NUL) then Ok 0
      else strcmp str1' str2'
  | _, _ => Ub
  end.

Definition quit_cmd : list (list Z) := [lit "quit"; lit "q"; lit "exit"].

(** The loop over [quit_cmd]. *)
Fixpoint is_quit (cmds : list (list Z)) (cmd : list Z) : res bool :=
  match cmds with
  | [] => Ok false
  | q :: cmds' => r ← strcmp q cmd; if r =? 0 then Ok true else is_quit cmds' cmd
  end.

Fixpoint echo_loop (fuel rounds lines : nat) (cmd : list Z) : M bare unit :=
  match lines with
  | O => spin
  | S lines' =>
      '(cmd, _) ← uart_read fuel rounds cmd STRLEN;
      quit ← lift (is_quit quit_cmd cmd);
      if (quit : bool) then mret tt
      else uart_write_string fuel cmd ;; uart_write_string fuel [13; 10; 0] ;; echo_loop fuel rounds lines' cmd
  end.

(** [cmd] is what the array holds at first. *)
Definition echo_main (fuel rounds lines : nat) (cmd : list Z) : M bare unit := echo_loop fuel rounds lines cmd.
End Echo.
