(* ===== verification/BareThm.v ===== *)
(** * Theorems about the bootloader and the echo program

    The mini UART as its documentation describes it, seen by a program that
    polls: characters arrive after some polls, the transmitter is free after
    some polls.  The programs are verified for any board that behaves like
    it. *)

From S2P Require Import Prelude Cpu RingBuf TaskQueue KList Process Str StrThm Uart UartThm Fat32 Bare.

(** ** The device *)

(** What will be received, each character after a number of polls; the polls
    until the transmitter is free, for each character to send; what was sent. *)
Record mu := mk_mu { rx : list (nat * Z); tx_wait : list nat; sent : list Z }.

Definition poll_rx (l : list (nat * Z)) : list (nat * Z) := match l with (S n, c) :: l' => (n, c) :: l' | _ => l end.
Definition poll_tx (l : list nat) : list nat := match l with S n :: l' => n :: l' | _ => l end.
Definition rx_ready (l : list (nat * Z)) : bool := match l with (O, _) :: _ => true | _ => false end.
Definition tx_ready (l : list nat) : bool := match l with S _ :: _ => false | _ => true end.

Definition mu_rd32 (a : Z) (m : mu) : Z * mu :=
  if a =? AUX_MU_LSR_REG then
    ((if rx_ready (rx m) then 1 else 0) + (if tx_ready (tx_wait m) then 32 else 0), mk_mu (poll_rx (rx m)) (poll_tx (tx_wait m)) (sent m))
  else (0, m).
Definition mu_rd8 (a : Z) (m : mu) : Z * mu :=
  if a =? AUX_MU_IO_REG then match rx m with (O, c) :: l => (c, mk_mu l (tx_wait m) (sent m)) | _ => (0, m) end else (0, m).
Definition mu_wr32 (a v : Z) (m : mu) : mu := m.
Definition mu_wr8 (a v : Z) (m : mu) : mu :=
  if (a =? AUX_MU_IO_REG) && tx_ready (tx_wait m) then mk_mu (rx m) (tail (tx_wait m)) (sent m ++ [v]) else m.

(** A board with such a device. *)
Class MiniUart `{!Board} := {
  uview : board → mu;
  uview_rd32 : ∀ a b, uview (rd32 a b).2 = (mu_rd32 a (uview b)).2 ∧ (a = AUX_MU_LSR_REG → (rd32 a b).1 = (mu_rd32 a (uview b)).1);
  uview_wr32 : ∀ a v b, uview (wr32 a v b) = mu_wr32 a v (uview b);
  uview_rd8 : ∀ a b, mu_rd8 a (uview b) = ((rd8 a b).1, uview (rd8 a b).2);
  uview_wr8 : ∀ a v b, uview (wr8 a v b) = mu_wr8 a v (uview b);
}.

#[export] Instance mu_board : Board := {| board := mu; rd32 := mu_rd32; wr32 := mu_wr32; rd8 := mu_rd8; wr8 := mu_wr8 |}.
#[export] Program Instance mu_uart : MiniUart := {| uview := (λ m : @board mu_board, m) |}.
Next Obligation. done. Qed.
Next Obligation. done. Qed.
Next Obligation. intros a b. simpl. by destruct (mu_rd8 a b). Qed.
Next Obligation. done. Qed.

Section Io.
Context `{!Board, !MiniUart}.
Context (fuel : nat).

(** Every character arrives and is sent within [fuel] polls. *)
Definition timely (m : mu) : Prop := Forall (λ x, (x.1 < fuel)%nat ∧ 0 ≤ x.2 < 256) (rx m) ∧ Forall (λ n, (n < fuel)%nat) (tx_wait m) ∧ (0 < fuel)%nat.

(** What is still to come, what was sent, and the memory. *)
Record bst (input out : list Z) (bf sk : list Z) (s : bare) : Prop := {
  b_rx : (rx (uview (brd s))).*2 = input;
  b_sent : sent (uview (brd s)) = out;
  b_buf : buf s = bf;
  b_mem : skernel s = sk;
  b_timely : timely (uview (brd s));
}.

Lemma get_lsr_wp s (Q : Z → bare → Prop) : let m := uview (brd s) in
  (∀ s', uview (brd s') = (mu_rd32 AUX_MU_LSR_REG m).2 → buf s' = buf s → skernel s' = skernel s → Q (u32 (mu_rd32 AUX_MU_LSR_REG m).1) s') → wp (get32 AUX_MU_LSR_REG) Q s.
Proof.
  intros m HQ. unfold get32, wp. destruct (uview_rd32 AUX_MU_LSR_REG (brd s)) as [H1 H2]. specialize (H2 eq_refl).
  destruct (rd32 AUX_MU_LSR_REG (brd s)) as [v b]. simpl in H1, H2. rewrite H2. by apply HQ.
Qed.

Lemma lsr_bits (r t : bool) : let v := u32 ((if r then 1 else 0) + (if t then 32 else 0)) in
  Z.land v 1 = (if r then 1 else 0) ∧ Z.land v (Z.shiftl 1 5) = (if t then 32 else 0).
Proof. by destruct r, t. Qed.

Lemma poll_timely m : timely m → timely (mk_mu (poll_rx (rx m)) (poll_tx (tx_wait m)) (sent m)).
Proof.
  intros (H1 & H2 & H3). split_and!; simpl; [| |done].
  - destruct H1 as [|[[|n] c] l Hx Hl]; simpl; [by constructor..|]. constructor; [simpl in *; lia|done].
  - destruct H2 as [|[|n] l Hx Hl]; simpl; [by constructor..|]. constructor; [lia|done].
Qed.
Lemma poll_rx_snd l : (poll_rx l).*2 = l.*2.
Proof. by destruct l as [|[[|n] c] l]. Qed.

(** Waiting for a character. *)
Lemma wait_rx_wp n c input out bf sk : ∀ s (Q : unit → bare → Prop), bst (c :: input) out bf sk s →
  (∀ k l, rx (uview (brd s)) = (k, c) :: l → (k < n)%nat) →
  (∀ s', bst (c :: input) out bf sk s' → rx_ready (rx (uview (brd s'))) = true → Q tt s') → wp (wait_lsr n 1) Q s.
Proof.
  induction n as [|n IH]; intros s Q [Hr Ho Hb Hk Ht] Hn HQ; destruct (rx (uview (brd s))) as [|[k c'] l] eqn:E; try done; simpl in Hr; injection Hr as -> Hl.
  { specialize (Hn k l eq_refl). lia. }
  cbn [wait_lsr]. apply wp_bind. apply get_lsr_wp. intros s' Hs' Hb' Hk'. change (mu_rd32 AUX_MU_LSR_REG ?m) with
    ((if rx_ready (rx m) then 1 else 0) + (if tx_ready (tx_wait m) then 32 else 0), mk_mu (poll_rx (rx m)) (poll_tx (tx_wait m)) (sent m)) in *.
  cbn [fst snd] in *. rewrite (proj1 (lsr_bits _ _)), E.
  assert (Hst : bst (c :: input) out bf sk s').
  { split; rewrite ?Hs', ?Hb', ?Hk'; [simpl; rewrite poll_rx_snd, E; simpl; by rewrite Hl|done..|by apply poll_timely]. }
  destruct k as [|k]; simpl rx_ready; cbn match.
  - apply wp_ret, HQ; [done|]. rewrite Hs'. simpl. by rewrite E.
  - change (0 =? 0) with true. cbn match. apply IH; [done| |done]. intros k' l'. rewrite Hs'. simpl. rewrite E. simpl. intros [= <- <-].
    specialize (Hn (S k) l eq_refl). lia.
Qed.

Lemma uart_get_wp c input out bf sk s (Q : Z → bare → Prop) : bst (c :: input) out bf sk s →
  (∀ s', bst input out bf sk s' → Q c s') → wp (uart_get fuel) Q s.
Proof.
  intros Hs HQ. unfold uart_get. apply wp_bind. eapply wait_rx_wp; [exact Hs| |].
  { intros k l E. destruct (b_timely _ _ _ _ _ Hs) as [Ht _]. rewrite E in Ht. apply Forall_cons in Ht as [[Ht _] _]. done. }
  intros s' [Hr Ho Hb Hk (Ht1 & Ht2 & Ht3)] Hready. destruct (rx (uview (brd s'))) as [|[[|k] c'] l] eqn:E; try done. simpl in Hr. injection Hr as -> Hl.
  unfold get8, wp. pose proof (uview_rd8 AUX_MU_IO_REG (brd s')) as Hv. unfold mu_rd8 in Hv. rewrite E in Hv. cbn [Z.eqb] in Hv.
  rewrite Z.eqb_refl in Hv. destruct (rd8 AUX_MU_IO_REG (brd s')) as [v b]. simpl in Hv. injection Hv as <- Hv.
  apply Forall_cons in Ht1 as [[_ Hc] Ht1]. simpl in Hc. replace (u8 c) with c by (unfold u8; rewrite Z.mod_small; lia).
  apply HQ. split; simpl; rewrite <- ?Hv; simpl; try done.
Qed.

(** Waiting for the transmitter. *)
Lemma wait_tx_wp n input out bf sk : ∀ s (Q : unit → bare → Prop), bst input out bf sk s →
  (match tx_wait (uview (brd s)) with k :: _ => k < n | [] => 0 < n end)%nat →
  (∀ s', bst input out bf sk s' → tx_ready (tx_wait (uview (brd s'))) = true → Q tt s') → wp (wait_lsr n (Z.shiftl 1 5)) Q s.
Proof.
  induction n as [|n IH]; intros s Q [Hr Ho Hb Hk Ht] Hn HQ; [destruct (tx_wait _); lia|].
  cbn [wait_lsr]. apply wp_bind. apply get_lsr_wp. intros s' Hs' Hb' Hk'. change (mu_rd32 AUX_MU_LSR_REG ?m) with
    ((if rx_ready (rx m) then 1 else 0) + (if tx_ready (tx_wait m) then 32 else 0), mk_mu (poll_rx (rx m)) (poll_tx (tx_wait m)) (sent m)) in *.
  cbn [fst snd] in *. rewrite (proj2 (lsr_bits _ _)).
  assert (Hst : bst input out bf sk s').
  { split; rewrite ?Hs', ?Hb', ?Hk'; [simpl; by rewrite poll_rx_snd|done..|by apply poll_timely]. }
  destruct (tx_wait (uview (brd s))) as [|[|k] l] eqn:E; simpl tx_ready; cbn match.
  - apply wp_ret, HQ; [done|]. rewrite Hs'. simpl. by rewrite ?E.
  - apply wp_ret, HQ; [done|]. rewrite Hs'. simpl. by rewrite ?E.
  - change (0 =? 0) with true. cbn match. apply IH; [done| |done]. rewrite Hs'. simpl. rewrite ?E. simpl. lia.
Qed.

Lemma write_char_wp c input out bf sk s (Q : unit → bare → Prop) : 0 ≤ c < 256 → bst input out bf sk s →
  (∀ s', bst input (out ++ [c]) bf sk s' → Q tt s') → wp (Bare.uart_write_char fuel c) Q s.
Proof.
  intros Hc Hs HQ. unfold Bare.uart_write_char. apply wp_bind. eapply wait_tx_wp; [exact Hs| |].
  { destruct (b_timely _ _ _ _ _ Hs) as (_ & Ht & Hf). by destruct Ht. }
  intros s' [Hr Ho Hb Hk (Ht1 & Ht2 & Ht3)] Hready. apply wp_modify, HQ.
  assert (E : uview (wr8 AUX_MU_IO_REG (u8 c) (brd s')) = mk_mu (rx (uview (brd s'))) (tail (tx_wait (uview (brd s')))) (sent (uview (brd s')) ++ [c])).
  { rewrite uview_wr8. unfold mu_wr8. rewrite Z.eqb_refl, Hready. unfold u8. by rewrite Z.mod_small. }
  split; simpl; rewrite ?E; simpl; [done|by rewrite Ho|done|done|]. split_and!; [done|by destruct Ht2|done].
Qed.

Lemma write_string_wp str x input bf sk : text str → ∀ out s (Q : unit → bare → Prop), bst input out bf sk s →
  (∀ s', bst input (out ++ str) bf sk s' → Q tt s') → wp (uart_write_string fuel (str ++ NUL :: x)) Q s.
Proof.
  induction 1 as [|c str Hc Hstr IH]; intros out s Q Hs HQ; cbn [app uart_write_string].
  - apply wp_ret, HQ. by rewrite app_nil_r.
  - unfold NUL at 1. destruct (Z.eqb_spec c 0); [lia|]. apply wp_bind. eapply write_char_wp; [lia|exact Hs|]. intros s1 Hs1.
    eapply IH; [exact Hs1|]. intros s2 Hs2. rewrite <- app_assoc in Hs2. by apply HQ.
Qed.

(** Reading [n] characters to the places from [i] on. *)
Lemma read_buf_wp data : ∀ i input out bf sk s (Q : unit → bare → Prop), bst (data ++ input) out bf sk s → (i + length data ≤ length bf)%nat →
  (∀ s', bst input out (take i bf ++ data ++ drop (i + length data) bf) sk s' → Q tt s') → wp (read_raw_loop fuel To_buf i (length data)) Q s.
Proof.
  induction data as [|c data IH]; intros i input out bf sk s Q Hs Hl HQ; cbn [length read_raw_loop app] in *.
  - apply wp_ret, HQ. by rewrite Nat.add_0_r, take_drop.
  - apply wp_bind. eapply uart_get_wp; [exact Hs|]. intros s1 Hs1. unfold put. wp_steps. rewrite (b_buf _ _ _ _ _ Hs1).
    apply wp_assert; [apply Nat.ltb_lt; lia|]. apply wp_modify.
    eapply (IH (S i) input out (<[i := c]> bf) sk); [|rewrite length_insert; lia|].
    + destruct Hs1 as [? ? ? ? ?]. by split; simpl; subst.
    + intros s2 Hs2. apply HQ. rewrite (take_S_r _ _ c), take_insert_ge, drop_insert_lt in Hs2; [|lia..|apply list_lookup_insert_eq; lia].
      rewrite <- app_assoc in Hs2. by rewrite <- Nat.add_succ_comm.
Qed.

Lemma read_skernel_wp data : ∀ i input out bf sk s (Q : unit → bare → Prop), bst (data ++ input) out bf sk s → (i + length data ≤ length sk)%nat →
  (∀ s', bst input out bf (take i sk ++ data ++ drop (i + length data) sk) s' → Q tt s') → wp (read_raw_loop fuel To_skernel i (length data)) Q s.
Proof.
  induction data as [|c data IH]; intros i input out bf sk s Q Hs Hl HQ; cbn [length read_raw_loop app] in *.
  - apply wp_ret, HQ. by rewrite Nat.add_0_r, take_drop.
  - apply wp_bind. eapply uart_get_wp; [exact Hs|]. intros s1 Hs1. unfold put. wp_steps. rewrite (b_mem _ _ _ _ _ Hs1).
    apply wp_assert; [apply Nat.ltb_lt; lia|]. apply wp_modify.
    eapply (IH (S i) input out bf (<[i := c]> sk)); [|rewrite length_insert; lia|].
    + destruct Hs1 as [? ? ? ? ?]. by split; simpl; subst.
    + intros s2 Hs2. apply HQ. rewrite (take_S_r _ _ c), take_insert_ge, drop_insert_lt in Hs2; [|lia..|apply list_lookup_insert_eq; lia].
      rewrite <- app_assoc in Hs2. by rewrite <- Nat.add_succ_comm.
Qed.

Lemma other_get_wp a input out bf sk s (Q : Z → bare → Prop) : a ≠ AUX_MU_LSR_REG → bst input out bf sk s →
  (∀ v s', bst input out bf sk s' → Q v s') → wp (get32 a) Q s.
Proof.
  intros Ha [Hr Ho Hb Hk Ht] HQ. unfold get32, wp. destruct (uview_rd32 a (brd s)) as [Hv _]. destruct (rd32 a (brd s)) as [v b]. simpl in Hv.
  unfold mu_rd32 in Hv. rewrite (proj2 (Z.eqb_neq _ _) Ha) in Hv. simpl in Hv. apply HQ. split; simpl; rewrite ?Hv; done.
Qed.
Lemma set32_wp a v input out bf sk s (Q : unit → bare → Prop) : bst input out bf sk s →
  (∀ s', bst input out bf sk s' → Q tt s') → wp (set32 a v) Q s.
Proof. intros [Hr Ho Hb Hk Ht] HQ. apply wp_modify, HQ. split; simpl; rewrite ?uview_wr32; done. Qed.

Lemma uart_init_wp input out bf sk s (Q : unit → bare → Prop) : bst input out bf sk s →
  (∀ s', bst input out bf sk s' → Q tt s') → wp Bare.uart_init Q s.
Proof.
  intros Hs HQ. unfold Bare.uart_init.
  apply wp_bind. eapply other_get_wp; [done|exact Hs|]. intros v1 s1 Hs1. cbv zeta. apply wp_bind. eapply set32_wp; [exact Hs1|]. intros s2 Hs2.
  apply wp_bind. eapply other_get_wp; [done|exact Hs2|]. intros v3 s3 Hs3. clear -Hs3 HQ H0.
  repeat lazymatch goal with
  | |- wp (_ ≫= _) _ _ => apply wp_bind
  | |- wp (set32 _ _) _ _ => eapply set32_wp; [eassumption|]; clear dependent s3; intros s3 Hs3
  end. by apply HQ.
Qed.
End Io.

(** ** The bootloader *)

(** An image on the wire, and what send_kernel.py sends for a kernel. *)
Record image := mk_image { im_magic : Z; im_sum : Z; im_data : list Z }.
Definition wire (im : image) : list Z := to_le 4 (im_magic im) ++ to_le 4 (Z.of_nat (length (im_data im))) ++ to_le 4 (im_sum im) ++ im_data im.
Definition send_kernel (data : list Z) : image := mk_image MAGIC (Z.land (fold_right Z.add 0 data) 0xffffffff) data.

Definition image_ok (room : nat) (im : image) : Prop :=
  0 ≤ im_magic im < 2 ^ 32 ∧ 0 ≤ im_sum im < 2 ^ 32 ∧ (length (im_data im) ≤ room)%nat ∧ Z.of_nat (length (im_data im)) < 2 ^ 32.

Definition accepted (im : image) : bool := (im_magic im =? MAGIC) && (sum_bytes (im_data im) =? im_sum im).
Definition answer (im : image) : list Z :=
  chars ("Receiving kernel image..." +:+ crlf) ++
  chars ((if negb (im_magic im =? MAGIC) then "Invalid file" else if negb (sum_bytes (im_data im) =? im_sum im) then "File corrupted" else "File received") +:+ crlf).

Lemma of_le_to_le n x : 0 ≤ x < 256 ^ Z.of_nat n → of_le (to_le n x) = x.
Proof.
  revert x. induction n as [|n IH]; intros x Hx; cbn [to_le of_le]; [simpl in Hx; lia|]. rewrite Nat2Z.inj_succ, Z.pow_succ_r in Hx by lia.
  rewrite IH; [pose proof (Z.div_mod x 256 ltac:(lia)); lia|]. split; [apply Z.div_pos; lia|apply Z.div_lt_upper_bound; lia].
Qed.

Lemma to_le_length n x : length (to_le n x) = n.
Proof. revert x. induction n; intros x; [done|]. simpl. by rewrite IHn. Qed.

(** The checksum the sender computes is the one the bootloader does. *)
Lemma sum_bytes_sum data : Forall (λ b, 0 ≤ b < 256) data → sum_bytes data = Z.land (fold_right Z.add 0 data) 0xffffffff.
Proof.
  intros Hd. change 0xffffffff with (Z.ones 32). rewrite Z.land_ones by lia. unfold sum_bytes.
  assert (H : ∀ a, fold_left (λ sum b, u32 (sum + u8 b)) data (u32 a) = u32 (a + fold_right Z.add 0 data)).
  { induction Hd as [|b data Hb _ IH]; intros a; simpl; [by rewrite Z.add_0_r|]. rewrite Z.add_assoc, <- IH. f_equal. unfold u32, u8.
    by rewrite (Z.mod_small b), Zplus_mod_idemp_l by lia. }
  specialize (H 0). change (u32 0) with 0 in H. by rewrite H.
Qed.

Lemma msg_text (a : string) : forallb (λ c, (0 <? c) && (c <? 256)) (chars a) = true → text (chars a).
Proof. intros H. apply Forall_forall. intros c Hc. rewrite forallb_forall in H. specialize (H c). rewrite <- list_elem_of_In in H. specialize (H Hc). lia. Qed.

Section Boot.
Context `{!Board, !MiniUart} (fuel : nat).

Lemma read_word_wp x input out bf sk s (Q : Z → bare → Prop) : 0 ≤ x < 2 ^ 32 → length bf = 4%nat → bst fuel (to_le 4 x ++ input) out bf sk s →
  (∀ s', bst fuel input out (to_le 4 x) sk s' → Q x s') → wp (read_word fuel) Q s.
Proof.
  intros Hx Hl Hs HQ. unfold read_word, uart_read_raw. apply wp_bind. change (Z.to_nat 4) with 4%nat. rewrite <- (to_le_length 4 x).
  eapply (read_buf_wp fuel (to_le 4 x) 0); [exact Hs|rewrite to_le_length; lia|]. intros s' Hs'. rewrite to_le_length, drop_ge, app_nil_r in Hs' by lia.
  change (take 0 bf ++ to_le 4 x) with (to_le 4 x) in Hs'. wp_steps. rewrite (b_buf _ _ _ _ _ _ Hs'). rewrite of_le_to_le by lia. by apply HQ.
Qed.

(** A round of the loop: the image is in memory and the answer sent. *)
Definition verdict (rounds : nat) (im : image) : M bare unit := if accepted im then mret tt else main_loop fuel rounds.

Lemma round_wp im input out bf sk rounds s (Q : unit → bare → Prop) : image_ok (length sk) im → length bf = 4%nat →
  bst fuel (wire im ++ input) out bf sk s →
  (∀ s' bf', length bf' = 4%nat → bst fuel input (out ++ answer im) bf' (im_data im ++ drop (length (im_data im)) sk) s' → wp (verdict rounds im) Q s') →
  wp (main_loop fuel (S rounds)) Q s.
Proof.
  intros (Hm & Hsum & Hroom & Hlen) Hbf Hs HQ. cbn [main_loop]. unfold wire in Hs. rewrite <- !app_assoc in Hs.
  apply wp_bind. eapply write_string_wp; [by apply msg_text|exact Hs|]. intros s1 Hs1.
  apply wp_bind. eapply (read_word_wp (im_magic im)); [done|done|exact Hs1|]. intros s2 Hs2. apply wp_bind. eapply (read_word_wp (Z.of_nat (length (im_data im)))); [|apply to_le_length|exact Hs2|]; [lia|]. intros s3 Hs3.
  apply wp_bind. eapply (read_word_wp (im_sum im)); [done|apply to_le_length|exact Hs3|]. intros s4 Hs4.
  apply wp_bind. unfold uart_read_raw. rewrite Nat2Z.id. eapply (read_skernel_wp fuel (im_data im) 0); [exact Hs4|simpl; lia|]. intros s5 Hs5.
  rewrite take_0 in Hs5. cbn [app Nat.add] in Hs5. wp_steps. rewrite (b_mem _ _ _ _ _ _ Hs5), ?Nat2Z.id, take_app_length.
  specialize (λ s6 H, HQ s6 _ (to_le_length 4 (im_sum im)) H). unfold verdict, accepted, answer in HQ. rewrite app_assoc in HQ.
  destruct (im_magic im =? MAGIC); cbn [negb andb] in *; [destruct (sum_bytes _ =? _); cbn [negb] in *|].
  - eapply write_string_wp; [by apply msg_text|exact Hs5|]. intros s6 Hs6. by apply HQ in Hs6.
  - apply wp_bind. eapply write_string_wp; [by apply msg_text|exact Hs5|]. intros s6 Hs6. by apply HQ.
  - apply wp_bind. eapply write_string_wp; [by apply msg_text|exact Hs5|]. intros s6 Hs6. by apply HQ.
Qed.

Lemma images_wp bads : ∀ im rest out bf sk s, (∀ b, b ∈ bads → image_ok (length sk) b ∧ accepted b = false) → image_ok (length sk) im → accepted im = true →
  length bf = 4%nat → bst fuel ((bads ≫= wire) ++ wire im ++ rest) out bf sk s →
  wp (main_loop fuel (S (length bads))) (λ _ s', ∃ bf' sk', bst fuel rest (out ++ (bads ≫= answer) ++ answer im) bf' sk' s' ∧
    length sk' = length sk ∧ take (length (im_data im)) sk' = im_data im) s.
Proof.
  induction bads as [|b bads IH]; intros im rest out bf sk s Hbads Him Hacc Hbf Hs.
  - eapply round_wp; [done|done|exact Hs|]. intros s' bf' Hbf' Hs'. unfold verdict. rewrite Hacc. apply wp_ret. eexists _, _. split_and!; [exact Hs'|..].
    + destruct Him as (_ & _ & ? & _). rewrite length_app, length_drop. lia.
    + by rewrite take_app_length.
  - destruct (Hbads b ltac:(set_solver)) as [Hb Hrej]. rewrite bind_cons, <- app_assoc in Hs. eapply round_wp; [done|done|exact Hs|].
    intros s' bf' Hbf' Hs'. unfold verdict. rewrite Hrej. cbn [length].
    assert (Hsk : length (im_data b ++ drop (length (im_data b)) sk) = length sk) by (destruct Hb as (_ & _ & ? & _); rewrite length_app, length_drop; lia).
    eapply wp_mono; [eapply IH; [| | |exact Hbf'|exact Hs']; rewrite ?Hsk; try done|].
    + intros b' Hb'. apply Hbads. set_solver.
    + intros _ s2 (bf2 & sk2 & Hs2 & Hl2 & Ht2). exists bf2, sk2. rewrite bind_cons. rewrite <- !app_assoc in *. split_and!; [exact Hs2|congruence|done].
Qed.
End Boot.

(** C23: The bootloader answers every image it is sent that is not a kernel, or
    whose checksum is wrong, and waits for the next; it starts the kernel that
    send_kernel.py sends, with exactly its bytes in memory, and takes no
    character after it. *)
Theorem boot_receives `{!Board, !MiniUart} fuel bads data rest sk s out : let im := send_kernel data in
  bst fuel ((bads ≫= wire) ++ wire im ++ rest) out (buf s) sk s → length (buf s) = 4%nat →
  (∀ b, b ∈ bads → image_ok (length sk) b ∧ accepted b = false) →
  Forall (λ b, 0 ≤ b < 256) data → (length data ≤ length sk)%nat → Z.of_nat (length data) < 2 ^ 32 →
  ∃ s', boot_main fuel (S (length bads)) s = Ok (tt, s') ∧ take (length data) (skernel s') = data ∧ length (skernel s') = length sk ∧
    sent (uview (brd s')) = out ++ (bads ≫= answer) ++ chars ("Receiving kernel image..." +:+ crlf +:+ "File received" +:+ crlf) ∧
    (rx (uview (brd s'))).*2 = rest.
Proof.
  intros im Hs Hbuf Hbads Hd Hroom Hlen. pose proof (sum_bytes_sum data Hd) as Hsum.
  assert (Hacc : accepted im = true) by (unfold accepted; simpl; by rewrite Hsum, Z.eqb_refl).
  assert (Him : image_ok (length sk) im).
  { split_and!; simpl; try done. 1: apply Z.land_nonneg; right; lia. change 0xffffffff with (Z.ones 32). rewrite Z.land_ones by lia. apply Z.mod_pos_bound. lia. }
  assert (Hans : answer im = chars ("Receiving kernel image..." +:+ crlf +:+ "File received" +:+ crlf)).
  { unfold answer. simpl. rewrite Hsum, Z.eqb_refl. done. }
  assert (Hrun : wp (boot_main fuel (S (length bads))) (λ _ s', ∃ bf' sk', bst fuel rest (out ++ (bads ≫= answer) ++ answer im) bf' sk' s' ∧
    length sk' = length sk ∧ take (length (im_data im)) sk' = im_data im) s).
  { unfold boot_main. apply wp_bind. eapply uart_init_wp; [exact Hs|]. intros s1 Hs1. eapply images_wp; done. }
  apply wp_run in Hrun as ([] & s' & E & bf' & sk' & [Hr Ho Hb Hk Ht] & Hl & Hdata). exists s'. rewrite Hk. split_and!; try done. by rewrite Ho, Hans.
Qed.

(** ** The echo program *)

Section Echo.
Context `{!Board, !MiniUart} (fuel : nat).

Lemma raw_read_wp size input : (0 < size)%nat → Z.of_nat size < 2 ^ 31 → ∀ rounds str line k echo rest out bf sk s (Q : list Z * Z → bare → Prop),
  (length input < rounds)%nat → line_ok size str line → edit (pred size) line input = Some (k, echo, rest) → Forall (λ c, 0 ≤ c < 256) input →
  bst fuel input out bf sk s →
  (∀ str' s', line_ok size str' k → length str' = length str → bst fuel rest (out ++ echo) bf sk s' → Q (str', Z.of_nat (length k)) s') →
  wp (uart_read_loop fuel rounds str (Z.of_nat (length line)) (Z.of_nat size)) Q s.
Proof.
  intros Hsize H31. induction input as [|c input IH]; intros rounds str line k echo rest out bf sk s Q Hr Hline E Hby Hs HQ;
    (destruct rounds as [|rounds]; [simpl in Hr; lia|]); cbn [uart_read_loop]; simpl in E; pose proof Hline as (Hl1 & Hl2 & Hl3);
    (assert (Hlt : (u32 (Z.of_nat (length line)) <? u32 (Z.of_nat size - 1)) = bool_decide (length line < pred size)%nat)
      by (unfold u32; rewrite !Z.mod_small by lia; case_bool_decide; lia)); rewrite Hlt.
  { case_decide as Hfull; [|done]. injection E as <- <- <-. rewrite bool_decide_false by lia. apply wp_ret, HQ; [done..|]. by rewrite app_nil_r. }
  case_decide as Hfull.
  { injection E as <- <- <-. rewrite bool_decide_false by lia. apply wp_ret, HQ; [done..|]. by rewrite app_nil_r. }
  rewrite bool_decide_true by lia. apply wp_bind. eapply uart_get_wp; [exact Hs|]. intros s1 Hs1. fold (is_bs c). simpl in Hr.
  apply Forall_cons in Hby as [Hc Hby]. destruct (is_bs c) eqn:Ebs.
  { destruct line as [|x line].
    - change (Z.of_nat (length [])) with 0. change (0 <? 0) with false. cbn match. apply wp_bind, wp_ret.
      by eapply (IH rounds str [] k echo rest); [lia|..].
    - set (ln := x :: line) in *. destruct (edit _ _ input) as [[[k' e'] rest']|] eqn:E'; [|done].
      cbn in E. injection E as <- <- <-. rewrite (proj2 (Z.ltb_lt 0 _)) by (simpl; lia). apply wp_bind, wp_bind.
      eapply (write_string_wp fuel [8; 32; 8] []); [repeat constructor; lia|exact Hs1|]. intros s2 Hs2. apply wp_ret.
      replace (Z.of_nat (length ln) - 2 + 1) with (Z.of_nat (length (take (pred (length ln)) ln))) by (rewrite length_take; simpl; lia).
      eapply IH; [lia|by apply line_back|exact E'|done|exact Hs2|]. intros str' s' H1 H2 H3. rewrite <- app_assoc in H3. by apply HQ. }
  destruct (Z.eqb_spec c 13).
  { injection E as <- <- <-. apply wp_bind. eapply (write_string_wp fuel [13; 10] []); [repeat constructor; lia|exact Hs1|]. intros s2 Hs2. by apply wp_ret, HQ. }
  destruct ((c =? 0) || (c =? 10)).
  { injection E as <- <- <-. apply wp_bind. eapply write_char_wp; [done|exact Hs1|]. intros s2 Hs2. by apply wp_ret, HQ. }
  destruct (edit _ _ input) as [[[k' e'] rest']|] eqn:E'; [|done]. cbn in E. injection E as <- <- <-.
  apply wp_bind. eapply write_char_wp; [done|exact Hs1|]. intros s2 Hs2. unfold cell_set. apply wp_bind, wp_bind, wp_assert; [lia|]. apply wp_ret.
  rewrite Nat2Z.id. replace (Z.of_nat (length line) + 1) with (Z.of_nat (length (line ++ [c]))) by (rewrite length_app; simpl; lia).
  eapply IH; [lia|by apply line_add|exact E'|done|exact Hs2|]. intros str' s' H1 H2 H3. rewrite length_insert in H2. rewrite <- app_assoc in H3. by apply HQ.
Qed.
End Echo.

Lemma edit_text room input : ∀ line k echo rest, text line → Forall (λ c, 0 ≤ c < 256) input → edit room line input = Some (k, echo, rest) →
  text k ∧ Forall (λ c, 0 ≤ c < 256) rest.
Proof.
  induction input as [|c input IH]; intros line k echo rest Hl Hi E; simpl in E; case_decide; try done; [by injection E as <- <- <-..|].
  apply Forall_cons in Hi as [Hc Hi]. destruct (is_bs c).
  { destruct line as [|x line]; [by eapply IH|]. set (ln := x :: line) in *.
    destruct (edit _ _ input) as [[[k' e'] rest']|] eqn:E'; [|done]. cbn in E. injection E as <- <- <-. eapply IH; [|done|exact E']. by apply Forall_take. }
  destruct (Z.eqb_spec c 13); [by injection E as <- <- <-|]. destruct (Z.eqb_spec c 0); [by injection E as <- <- <-|].
  destruct (c =? 10); [by injection E as <- <- <-|]. cbn [orb] in E.
  destruct (edit _ _ input) as [[[k' e'] rest']|] eqn:E'; [|done]. cbn in E. injection E as <- <- <-. eapply IH; [|done|exact E'].
  apply Forall_app. split; [done|]. constructor; [lia|constructor].
Qed.

Lemma strcmp_run a b x y : text a → text b → ∃ r, strcmp (a ++ NUL :: x) (b ++ NUL :: y) = Ok r ∧ (r = 0 ↔ a = b).
Proof.
  intros Ha. revert b. induction Ha as [|c a Hc Ha IH]; intros b Hb; destruct Hb as [|d b Hd Hb]; cbn [app strcmp]; unfold NUL.
  - by exists 0.
  - exists (-1). by rewrite (proj2 (Z.ltb_lt 0 d)) by lia.
  - exists 1. rewrite (proj2 (Z.ltb_ge c 0)), (proj2 (Z.ltb_lt 0 c)) by lia. done.
  - destruct (Z.ltb_spec c d); [exists (-1); split; [done|]; split; [done|intros [= ? ?]; lia]|].
    destruct (Z.ltb_spec d c); [exists 1; split; [done|]; split; [done|intros [= ? ?]; lia]|].
    rewrite (proj2 (Z.eqb_neq c 0)) by lia. cbn [andb]. destruct (IH b Hb) as (r & E & Hr). exists r. split; [done|]. rewrite Hr.
    assert (c = d) by lia. subst d. split; [by intros ->|by intros [= ->]].
Qed.

Definition quits : list (list Z) := [chars "quit"; chars "q"; chars "exit"].

Lemma is_quit_run k x : text k → is_quit quit_cmd (k ++ NUL :: x) = Ok (bool_decide (k ∈ quits)).
Proof.
  intros Hk. unfold quit_cmd, quits. cbn [is_quit].
  destruct (strcmp_run (chars "quit") k [] x) as (r1 & E1 & H1); [by apply msg_text|done|].
  destruct (strcmp_run (chars "q") k [] x) as (r2 & E2 & H2); [by apply msg_text|done|].
  destruct (strcmp_run (chars "exit") k [] x) as (r3 & E3 & H3); [by apply msg_text|done|].
  unfold lit. rewrite E1. cbn [mbind res_bind]. destruct (Z.eqb_spec r1 0); [rewrite bool_decide_true by set_solver; done|].
  rewrite E2. cbn [mbind res_bind]. destruct (Z.eqb_spec r2 0); [rewrite bool_decide_true by set_solver; done|].
  rewrite E3. cbn [mbind res_bind]. destruct (Z.eqb_spec r3 0); [rewrite bool_decide_true by set_solver; done|].
  rewrite bool_decide_false; [done|]. set_solver.
Qed.

(** What the user sees of a session: the echo of what is typed, each line
    repeated, until a line says to quit; and what was typed after it. *)
Fixpoint session (lines : nat) (input : list Z) : option (list Z * list Z) :=
  match lines with
  | O => None
  | S lines' =>
      '(k, echo, rest) ← edit 255 [] input;
      if decide (k ∈ quits) then Some (echo, rest)
      else '(out, rest') ← session lines' rest; Some (echo ++ k ++ [13; 10] ++ out, rest')
  end.

Section EchoMain.
Context `{!Board, !MiniUart} (fuel rounds : nat).

Lemma echo_loop_wp lines : ∀ input o rest cmd out bf sk s, session lines input = Some (o, rest) → Forall (λ c, 0 ≤ c < 256) input →
  (length input < rounds)%nat → length cmd = 256%nat → bst fuel input out bf sk s →
  wp (echo_loop fuel rounds lines cmd) (λ _ s', bst fuel rest (out ++ o) bf sk s') s.
Proof.
  induction lines as [|lines IH]; intros input o rest cmd out bf sk s E Hby Hr Hcmd Hs; cbn [session echo_loop] in *; [done|].
  destruct (edit 255 [] input) as [[[k echo] rest1]|] eqn:Ek; [|done]. cbn in E.
  destruct (edit_text 255 input [] k echo rest1 ltac:(constructor) Hby Ek) as [Hk Hby1].
  destruct (edit_length 255 [] input k echo rest1 ltac:(simpl; lia) Ek) as [Hlk Hlr].
  apply wp_bind. unfold Bare.uart_read. apply wp_bind. change 0 with (Z.of_nat (length (@nil Z))). change STRLEN with (Z.of_nat 256).
  eapply (raw_read_wp fuel 256 input); [lia|lia|exact Hr|split_and!; [lia|simpl; lia|done]|exact Ek|done|exact Hs|].
  intros str s1 (Hl1 & Hl2 & Hl3) Hlen Hs1. cbv beta iota. unfold cell_set. apply wp_bind, wp_bind, wp_assert; [lia|]. apply wp_ret, wp_ret. cbv beta iota.
  rewrite Nat2Z.id, insert_take_drop, Hl3 by lia. change 0 with NUL. apply wp_bind. unfold lift, wp at 1. rewrite is_quit_run by done.
  destruct (decide (k ∈ quits)) as [Hq|Hq]; [rewrite bool_decide_true by done|rewrite bool_decide_false by done]; cbn match.
  { injection E as <- <-. by apply wp_ret. }
  destruct (session lines rest1) as [[o' rest']|] eqn:Es; [|done]. cbn in E. injection E as <- <-.
  apply wp_bind. eapply write_string_wp; [done|exact Hs1|]. intros s2 Hs2. apply wp_bind.
  eapply (write_string_wp fuel [13; 10] []); [repeat constructor; lia|exact Hs2|]. intros s3 Hs3.
  eapply wp_mono; [eapply (IH rest1 o' rest'); [exact Es|done|lia| |exact Hs3]|].
  - rewrite length_app. simpl. rewrite length_drop. lia.
  - intros [] s' Hs'. by rewrite <- !app_assoc in Hs'.
Qed.
End EchoMain.

(** C32: The echo program shows exactly the session its input describes, ends when
    a line says so, and leaves the rest of the input alone. *)
Theorem echo_session `{!Board, !MiniUart} fuel rounds lines input o rest cmd out bf sk s :
  session lines input = Some (o, rest) → Forall (λ c, 0 ≤ c < 256) input → (length input < rounds)%nat → length cmd = 256%nat →
  bst fuel input out bf sk s →
  ∃ s', echo_main fuel rounds lines cmd s = Ok (tt, s') ∧ sent (uview (brd s')) = out ++ o ∧ (rx (uview (brd s'))).*2 = rest.
Proof.
  intros E Hby Hr Hc Hs. pose proof (echo_loop_wp fuel rounds lines input o rest cmd out bf sk s E Hby Hr Hc Hs) as Hrun.
  apply wp_run in Hrun as ([] & s' & E' & [Hrx Ho _ _ _]). by exists s'.
Qed.

(** ** Concrete runs *)

Definition typed_mu (l : list Z) : mu := mk_mu ((λ c, (1%nat, c)) <$> l) [2%nat; 0%nat; 1%nat] [].

Lemma typed_bst l bf sk : Forall (λ c, 0 ≤ c < 256) l → bst (H := mu_board) 3 l [] bf sk (mk_bare (H := mu_board) (typed_mu l) bf sk).
Proof.
  intros Hl. split; [|reflexivity..|].
  - simpl. rewrite <- list_fmap_compose. apply list_fmap_id.
  - split; [simpl; apply Forall_fmap; eapply Forall_impl; [exact Hl|]; intros c [Hc1 Hc2]; split; [simpl; lia|split; [exact Hc1|exact Hc2]]|]. split; [repeat constructor; lia|lia].
Qed.

Definition tiny : list Z := [1; 2; 250].

Lemma boot_receives_witness :
  ∃ s', boot_main 3 2 (mk_bare (H := mu_board) (typed_mu (wire (mk_image 7 0 [9]) ++ wire (send_kernel tiny) ++ [5])) [0; 0; 0; 0] (replicate 4 0)) = Ok (tt, s') ∧
    take 3 (skernel s') = tiny ∧ (rx (uview (brd s'))).*2 = [5].
Proof.
  destruct (boot_receives (H := mu_board) 3 [mk_image 7 0 [9]] tiny [5] (replicate 4 0)
    (mk_bare (H := mu_board) (typed_mu (wire (mk_image 7 0 [9]) ++ wire (send_kernel tiny) ++ [5])) [0; 0; 0; 0] (replicate 4 0)) []) as (s' & E & Hd & _ & _ & Hr).
  - apply typed_bst. vm_compute. repeat constructor; discriminate.
  - reflexivity.
  - intros b Hb. apply list_elem_of_singleton in Hb as ->. split; [|reflexivity]. repeat split; simpl; lia.
  - repeat constructor; lia.
  - simpl. lia.
  - reflexivity.
  - exists s'. split; [exact E|]. split; [exact Hd|exact Hr].
Defined.

Lemma echo_session_witness :
  ∃ s', echo_main 3 20 2 (replicate 256 0) (mk_bare (H := mu_board) (typed_mu [97; 98; 127; 13; 113; 10; 7]) [] []) = Ok (tt, s') ∧
    sent (uview (brd s')) = [97; 98; 8; 32; 8; 13; 10; 97; 13; 10; 113; 10] ∧ (rx (uview (brd s'))).*2 = [7].
Proof.
  apply (echo_session (H := mu_board) 3 20 2 [97; 98; 127; 13; 113; 10; 7] [97; 98; 8; 32; 8; 13; 10; 97; 13; 10; 113; 10] [7] (replicate 256 0) [] [] []);
    [vm_compute; reflexivity|repeat constructor; lia|simpl; lia|reflexivity|]. apply typed_bst. repeat constructor; lia.
Defined.
