(* ===== verification/Fat32Mount.v ===== *)
(** * FAT32: mounting and synchronising (src/kernel/fat32.c)

    The partition table, the volume, the directory tree of a card read into
    vnodes, and everything written back.  [kernel_drivers] puts the operations
    of FAT32 into the tables of function pointers. *)

From S2P Require Import Prelude Cpu Str VfsData Tmpfs Vfs Fat32.

(** [SIGNATURE]. *)
Definition SIGNATURE : list Z := [0x55; 0xaa; NUL].

(** ** Directory entries on the card *)

(** From "Microsoft Extensible Firmware Initiative FAT32 File System
    Specification": a byte rotated right and added. *)
Definition ChkSum (pFcbName : list Z) : Z :=
  fold_left (λ Sum c, ((if Z.land Sum 1 =? 0 then 0 else 0x80) + Z.shiftr Sum 1 + c) mod 256) (take 11 pFcbName) 0.

(** The local variables that collect a long name. *)
Record lfn := mk_lfn { lfn_name : list Z; name_pos : Z; checksum : option Z }.

Definition lfn_empty (c : option Z) : lfn := mk_lfn (replicate (Z.to_nat LFN_NAME_LEN) 0) (LFN_NAME_LEN - 2) c.

(** One of the three loops: the characters from the last to the first. *)
Fixpoint lfn_push (cs : list Z) (st : lfn) : M fs lfn :=
  match cs with
  | [] => mret st
  | c :: cs' =>
      if (c =? 0) || (c =? 0xff) then lfn_push cs' st
      else
        assert (0 <=? name_pos st) ;;
        lfn_push cs' (mk_lfn (<[Z.to_nat (name_pos st) := c]> (lfn_name st)) (name_pos st - 1) (checksum st))
  end.

Definition lfn_entry (e : list Z) (st : lfn) : M fs lfn :=
  st ← lfn_push (rev (slice 28 4 e)) st;
  st ← lfn_push (rev (slice 14 12 e)) st;
  st ← lfn_push (rev (slice 1 10 e)) st;
  mret (mk_lfn (lfn_name st) (name_pos st) (Some (of_le (slice 13 1 e)))).

Fixpoint until_space (l : list Z) : list Z :=
  match l with [] => [] | c :: l' => if c =? SPACE then [] else c :: until_space l' end.

(** The extension is read up to the first space, at most 6 bytes. *)
Definition sfn_name (e : list Z) : list Z :=
  until_space (slice 0 8 e) ++
  (if of_le (slice 8 1 e) =? SPACE then [] else [46]) ++
  until_space (slice 8 6 e) ++ [NUL].

Definition attr_of (e : list Z) : Z := Z.land (of_le (slice 11 1 e)) (u32 (Z.lnot ATTR_ARCHIVE)).

Section Mount.
Context `{!FsHeap}.

(** The name of an entry, and the collector after it. *)
Definition entry_name (e : list Z) (st : lfn) : M fs (list Z * lfn) :=
  if name_pos st <? LFN_NAME_LEN - 2 then
    c ← deref (checksum st);
    (if ChkSum e =? c then mret tt else f_on_cpu (err ("LFN entry corrupted" +:+ crlf))) ;;
    name ← lift (strncpy (take (Z.to_nat LFN_NAME_LEN) junk_name) (drop (Z.to_nat (name_pos st + 1)) (lfn_name st))
                   (LFN_NAME_LEN - (name_pos st + 1)));
    mret (name, lfn_empty (checksum st))
  else mret (sfn_name e, st).

(** One entry of a directory.  [rec] reads a subdirectory; [None] is the end
    of the function. *)
Definition parse_entry (rec : Z → Z → M fs unit) (parent : Z) (e : list Z) (st : lfn) : M fs (option lfn) :=
  let c := of_le (slice 0 1 e) in
  if c =? DIR_ENTRY_LAST_AND_UNUSED then mret None
  else if (c =? DIR_ENTRY_UNUSED) || (c =? DIR_ENTRY_UNUSED_JP) then mret (Some st)
  else if attr_of e =? ATTR_VOLUME_ID then mret (Some st)
  else if attr_of e =? ATTR_LONG_NAME then st ← lfn_entry e st; mret (Some st)
  else
    let next_clus_idx := u32 (u32 (Z.shiftl (of_le (slice 20 2 e)) 16) + of_le (slice 26 2 e)) in
    '(name, st) ← entry_name e st;
    node ← malloc_vnode;
    (if attr_of e =? ATTR_DIRECTORY then
       init_vnode parent node DIR name ;; rec node next_clus_idx
     else
       init_vnode parent node FILE name ;;
       vnode_upd node (with_size (of_le (slice 28 4 e)))) ;;
    ok ← new_metadata node next_clus_idx false;
    mret (if (ok : bool) then Some st else None).

Fixpoint parse_entries (rec : Z → Z → M fs unit) (parent : Z) (es : list (list Z)) (st : lfn) : M fs (option lfn) :=
  match es with
  | [] => mret (Some st)
  | e :: es' =>
      r ← parse_entry rec parent e st;
      match r with None => mret None | Some st => parse_entries rec parent es' st end
  end.

(** The entries of a sector. *)
Definition entries (v : fat32_data) (buf : list Z) : list (list Z) := (λ d, slice d 32 buf) <$> entry_offs v.

Fixpoint parse_sectors (rec : Z → Z → M fs unit) (parent clus : Z) (secs : list nat) (st : lfn) : M fs (option lfn) :=
  match secs with
  | [] => mret (Some st)
  | i :: secs' =>
      v ← vol;
      blk ← disk_read (u32 (FirstSectorofCluster v clus + Z.of_nat i + start_blk_idx v));
      assert (BLK_SZ <=? BPB_BytsPerSec v) ;;
      let buf := blk ++ drop (length blk) (junk_buf (BPB_BytsPerSec v)) in
      r ← parse_entries rec parent (entries v buf) st;
      match r with None => mret None | Some st => parse_sectors rec parent clus secs' st end
  end.

(** [fuel] bounds the depth of directories and the clusters of each. *)
Fixpoint parse_clusters (fuel : nat) (parent clus : Z) (st : lfn) : M fs unit :=
  match fuel with
  | O => spin
  | S fuel' =>
      v ← vol;
      r ← parse_sectors (λ node c, parse_clusters fuel' node c (lfn_empty None)) parent clus
            (seq 0 (Z.to_nat (BPB_SecPerClus v))) st;
      match r with
      | None => mret tt
      | Some st => e ← get_fat_entry clus; parse_clusters fuel' parent (Z.land e FAT_VAL_MASK) st
      end
  end.

Definition fat32_parse_sd_recursive (fuel : nat) (parent clus : Z) : M fs unit :=
  parse_clusters fuel parent clus (lfn_empty None).

Definition fat32_setup_mount (fuel : nat) (mnt dir_node : Z) (component : list Z) : M fs Z :=
  m ← mount_get mnt;
  let root := m_root m in
  vops ← f_malloc;
  r ← vnode_get root;
  vnode_upd root (with_ops vops (v_fops r)) ;;
  if vops =? 0 then mret (-1)
  else
    fops ← f_malloc;
    vnode_upd root (with_ops vops fops) ;;
    if fops =? 0 then f_free vops ;; mret (-1)
    else
      r ← init_vnode 0 root DIR component;
      if negb (r =? 0) then mret (-1)
      else
        (if negb (dir_node =? 0) then list_push dir_node root else mret tt) ;;
        vnode_upd root (with_parent dir_node) ;;
        modify (λ s, set_vopss (<[vops := mk_vops (Some F_tmpfs_lookup) (Some F_fat32_create) (Some F_fat32_mkdir)]> (vopss s)) s) ;;
        modify (λ s, set_fopss (<[fops := mk_fops (Some F_fat32_write) (Some F_fat32_read) (Some F_tmpfs_open)
                                            (Some F_tmpfs_close) (Some F_tmpfs_lseek64) None]> (fopss s)) s) ;;
        vnode_upd root (with_mount mnt) ;;
        v ← vol;
        ok ← new_metadata root (BPB_RootClus v) false;
        if negb ok then f_free vops ;; f_free fops ;; mret (-1)
        else
          vol_upd (with_mount_point root) ;;
          fat32_parse_sd_recursive fuel root (BPB_RootClus v) ;;
          mret 0.

(** ** The partition and the volume *)

(** The first active entry of the partition table. *)
Fixpoint active_partition (buf : list Z) (offs : list Z) : M fs Z :=
  match offs with
  | [] => mret 0
  | i :: rest =>
      if of_le (slice i 1 buf) =? 0x80 then
        if negb (of_le (slice (i + 4) 1 buf) =? 0xb) then
          f_on_cpu (err ("Not MBR partitioned" +:+ crlf)) ;; mret (-1)
        else vol_upd (with_start (of_le (slice (i + 8) 4 buf))) ;; mret 0
      else active_partition buf rest
  end.

Definition parse_fat32_partition : M fs Z :=
  buf ← disk_read 0;
  r ← lift (strncmp (drop (Z.to_nat (BLK_SZ - 2)) buf) SIGNATURE 2);
  if negb (r =? 0) then f_on_cpu (err ("Invalid MBR" +:+ crlf)) ;; mret (-1)
  else active_partition buf [0x1be; 0x1ce; 0x1de; 0x1ee].

Definition read_bpb (buf : list Z) (v : fat32_data) : fat32_data :=
  mk_fat32 (start_blk_idx v) (end_of_file v) (of_le (slice 11 2 buf)) (of_le (slice 13 1 buf)) (of_le (slice 14 2 buf))
    (of_le (slice 16 1 buf)) (of_le (slice 36 4 buf)) (of_le (slice 44 4 buf)) (fat_cache v) (fat_mount_point v).

Definition with_eof e v := mk_fat32 (start_blk_idx v) e (BPB_BytsPerSec v) (BPB_SecPerClus v) (BPB_RsvdSecCnt v) (BPB_NumFATs v) (BPB_FATSz32 v) (BPB_RootClus v) (fat_cache v) (fat_mount_point v).

(** The sectors of the first table, each copied to its place in [mem]. *)
Fixpoint read_fat (secs : list nat) (mem : list Z) : M fs (list Z) :=
  match secs with
  | [] => mret mem
  | i :: rest =>
      v ← vol;
      blk ← disk_read (u32 (start_blk_idx v + BPB_RsvdSecCnt v + Z.of_nat i));
      let off := BPB_BytsPerSec v * Z.of_nat i in
      assert (off + Z.of_nat (length blk) <=? Z.of_nat (length mem)) ;;
      read_fat rest (splice off blk mem)
  end.

Definition parse_fat32_metadata : M fs Z :=
  v ← vol;
  buf ← disk_read (start_blk_idx v);
  vol_upd (read_bpb buf) ;;
  v ← vol;
  assert (2 <=? BPB_BytsPerSec v) ;;
  r ← lift (strncmp (drop (Z.to_nat (BPB_BytsPerSec v - 2)) buf) SIGNATURE 2);
  if negb (r =? 0) then f_on_cpu (err ("Invalid FAT32 volume" +:+ crlf)) ;; mret (-1)
  else
    fatsec ← disk_read (u32 (start_blk_idx v + BPB_RsvdSecCnt v));
    vol_upd (with_eof (of_le (slice 4 4 fatsec))) ;;
    let size := u32 (BPB_FATSz32 v * BPB_BytsPerSec v) in
    a ← (if size =? 0 then mret 0 else f_malloc);
    if a =? 0 then mret (-1)
    else
      mem ← read_fat (seq 0 (Z.to_nat (BPB_FATSz32 v))) (junk_buf size);
      vol_upd (with_cache (words_of (Z.to_nat (size / 4)) mem)) ;;
      mret 0.

(** ** sync *)

(** [which_sec] counts over all clusters of the file. *)
Fixpoint sync_sectors (fuel : nat) (md size clus which_sec : Z) : M fs unit :=
  m ← fdata_get md;
  match content_cache m, fuel with
  | [], _ => mret tt
  | _, O => spin
  | buf :: rest, S fuel' =>
      v ← vol;
      fdata_upd md (with_content rest) ;;
      writeblock (u32 (start_blk_idx v + FirstSectorofCluster v clus + which_sec)) buf ;;
      let which_sec := which_sec + 1 in
      assert (negb (BPB_SecPerClus v =? 0)) ;;
      clus ← (if Z.rem which_sec (BPB_SecPerClus v) =? 0 then get_fat_entry clus else mret clus);
      if size <=? u64 (i32 (which_sec * BPB_BytsPerSec v)) then mret tt
      else sync_sectors fuel' md size clus which_sec
  end.

Fixpoint sync_file_recursive (fuel : nat) (node : Z) : M fs unit :=
  match fuel with
  | O => spin
  | S fuel' =>
      x ← vnode_get node;
      md ← metadata_of x;
      m ← fdata_get md;
      (if dirty m then
         sync_sectors (length (content_cache m)) md (file_size x) (clus_idx m) 0 ;;
         fdata_upd md (with_dirty false)
       else mret tt) ;;
      for_each (children x) (sync_file_recursive fuel')
  end.

(** One sector of one copy of the table. *)
Definition sync_fat (i j : Z) : M fs unit :=
  v ← vol;
  let bytes := bytes_of (fat_cache v) in
  let off := BPB_BytsPerSec v * j in
  assert (off + BLK_SZ <=? Z.of_nat (length bytes)) ;;
  disk_write (u32 (start_blk_idx v + BPB_RsvdSecCnt v + u32 (BPB_FATSz32 v * i) + j)) (slice off BLK_SZ bytes).

(** The depth of a tree is at most the number of vnodes. *)
Definition sync : M fs unit :=
  v ← vol;
  for_each (Z.of_nat <$> seq 0 (Z.to_nat (BPB_NumFATs v))) (λ i,
    for_each (Z.of_nat <$> seq 0 (Z.to_nat (BPB_FATSz32 v))) (sync_fat i)) ;;
  s ← get_st;
  sync_file_recursive (S (size (vnodes s))) (fat_mount_point v).

(** ** The operation tables, and the start *)

Definition kernel_drivers (fuel : nat) (other : Drivers) : Drivers := {|
  drv_create g := match g with F_fat32_create => fat32_create | _ => drv_create (Drivers := other) g end;
  drv_mkdir g := match g with F_fat32_mkdir => fat32_mkdir | _ => drv_mkdir g end;
  drv_write g := match g with F_fat32_write => fat32_write | _ => drv_write g end;
  drv_read g := match g with F_fat32_read => fat32_read | _ => drv_read g end;
  drv_ioctl := drv_ioctl;
  drv_setup_mount g := match g with F_fat32_setup_mount => λ _, fat32_setup_mount fuel | _ => drv_setup_mount g end;
  drv_uart_write := drv_uart_write;
|}.

Definition fat32_init `{!Drivers} : M fs unit :=
  r ← parse_fat32_partition;
  if negb (r =? 0) then mret tt
  else
    r ← parse_fat32_metadata;
    if negb (r =? 0) then mret tt
    else
      p ← f_malloc;
      if p =? 0 then mret tt
      else
        modify (λ s, set_filesystems (<[p := mk_filesystem (lit "fat32") F_fat32_setup_mount]> (filesystems s)) s) ;;
        register_filesystem p ;;
        vfs_mkdir (lit "/boot") ;;
        vfs_mount (lit "/boot") (lit "fat32") 0 ;;
        mret tt.
End Mount.
