(* ===== verification/Fat32Load.v ===== *)
(** * FAT32: cached contents and the loading of contents

    A file whose sectors are cached stands for the sequence of their bytes, up
    to its size.  A chain is a sequence of clusters linked by the file
    allocation table; [load_content] caches the sectors of a chain, in order,
    up to the size of a file. *)

From S2P Require Import Prelude Cpu Str VfsData Tmpfs Vfs VfsInv VfsPath VfsThm TmpfsProps Fat32.

(** ** Sectors and bytes *)

Definition SEC : nat := 512.

Definition sector (l : list Z) : Prop := length l = SEC.

Lemma SEC_Z : Z.of_nat SEC = 512.
Proof. done. Qed.

Lemma length_concat_sectors ls : Forall sector ls → length (concat ls) = (SEC * length ls)%nat.
Proof.
  induction 1 as [|l ls Hl _ IH]; cbn [concat length]; [by rewrite Nat.mul_0_r|].
  rewrite length_app, IH, Hl, Nat.mul_succ_r. apply Nat.add_comm.
Qed.

(** Bytes of one sector as bytes of the whole. *)
Lemma drop_concat ls (k : nat) l (o : nat) :
  Forall sector ls → ls !! k = Some l → (o ≤ SEC)%nat →
  drop (SEC * k + o) (concat ls) = drop o l ++ concat (drop (S k) ls).
Proof.
  intros Hls. revert k. induction Hls as [|l' ls Hl Hls IH]; intros [|k] E Ho; try done; simpl in E.
  - injection E as <-. rewrite Nat.mul_0_r, Nat.add_0_l. cbn [concat]. rewrite drop_app_le by (by rewrite Hl). by rewrite skipn_cons, drop_0.
  - cbn [concat]. rewrite Nat.mul_succ_r. rewrite drop_app_ge by (rewrite Hl; lia). rewrite Hl.
    replace (SEC * k + SEC + o - SEC)%nat with (SEC * k + o)%nat by lia. by apply IH.
Qed.

Lemma sector_slice ls (k : nat) l (o n : nat) :
  Forall sector ls → ls !! k = Some l → (o + n ≤ SEC)%nat →
  take n (drop o l) = take n (drop (SEC * k + o) (concat ls)).
Proof.
  intros Hls E Hn. pose proof (Forall_lookup_1 _ _ _ _ Hls E) as Hl. red in Hl.
  rewrite (drop_concat ls k l o) by (done || lia). rewrite take_app_le; [done|]. rewrite length_drop, Hl. lia.
Qed.

(** ** Cached files *)

(** The sectors cached for [md] hold [ls]. *)
Record cached (s : fs) (md : Z) (m : fat32_f_data) (ls : list (list Z)) : Prop := mk_cached {
  cd_meta : f_datas s !! md = Some m;
  cd_secs : Forall2 (λ a l, blocks s !! a = Some l) (content_cache m) ls;
  cd_full : Forall sector ls;
  cd_nodup : NoDup (content_cache m);
}.

(** An open handle [p] on a FAT32 file whose contents are cached. *)
Record fat_file (s : fs) (p : Z) (f : file) (x : vnode) (md : Z) (m : fat32_f_data) (ls : list (list Z)) : Prop := mk_fat_file {
  ff_file : files s !! p = Some f;
  ff_node : vnodes s !! fl_vnode f = Some x;
  ff_md : internal x = D_at md 0;
  ff_cached : cached s md m ls;
  ff_vol : BPB_BytsPerSec (fat s) = 512;
  ff_size : 0 ≤ file_size x ≤ 512 * Z.of_nat (length ls);
  ff_bound : 512 * Z.of_nat (length ls) < 2 ^ 31;
}.

Definition contents (x : vnode) (ls : list (list Z)) : list Z := take (Z.to_nat (file_size x)) (concat ls).

Lemma cached_sector s md m ls (k : nat) :
  cached s md m ls → (k < length ls)%nat →
  ∃ a l, content_cache m !! k = Some a ∧ ls !! k = Some l ∧ blocks s !! a = Some l ∧ sector l.
Proof.
  intros [_ Hs Hf _] Hk. destruct (lookup_lt_is_Some_2 ls k Hk) as [l E].
  destruct (Forall2_lookup_r _ _ _ _ _ Hs E) as (a & Ea & Eb). exists a, l. split_and!; try done.
  exact (Forall_lookup_1 _ _ _ _ Hf E).
Qed.

Lemma cached_length s md m ls : cached s md m ls → length (content_cache m) = length ls.
Proof. intros [_ Hs _ _]. by eapply Forall2_length. Qed.

Lemma wp_fdata_get p m (Q : fat32_f_data → fs → Prop) s : f_datas s !! p = Some m → Q m s → wp (fdata_get p) Q s.
Proof. intros E ?. unfold fdata_get. wp_steps. by apply (wp_deref _ m). Qed.
Lemma wp_fdata_upd p m g (Q : unit → fs → Prop) s :
  f_datas s !! p = Some m → Q tt (set_fdatas (<[p := g m]> (f_datas s)) s) → wp (fdata_upd p g) Q s.
Proof. intros E ?. unfold fdata_upd. wp_step. apply (wp_fdata_get _ m); [done|]. by wp_steps. Qed.
Lemma wp_block_get a l (Q : list Z → fs → Prop) s : blocks s !! a = Some l → Q l s → wp (block_get a) Q s.
Proof. intros E ?. unfold block_get. wp_steps. by apply (wp_deref _ l). Qed.
Lemma wp_peek a l off n (Q : list Z → fs → Prop) s :
  blocks s !! a = Some l → 0 ≤ off → off + n ≤ Z.of_nat (length l) → Q (slice off n l) s → wp (peek a off n) Q s.
Proof. intros E ???. unfold peek. wp_step. apply (wp_block_get _ l); [done|]. wp_step. apply wp_assert; [lia|]. by wp_step. Qed.
Lemma wp_poke a l off new (Q : unit → fs → Prop) s :
  blocks s !! a = Some l → 0 ≤ off → off + Z.of_nat (length new) ≤ Z.of_nat (length l) →
  Q tt (set_blocks (<[a := splice off new l]> (blocks s)) s) → wp (poke a off new) Q s.
Proof.
  intros E ???. unfold poke. wp_step. apply (wp_block_get _ l); [done|]. wp_step. apply wp_assert; [lia|].
  unfold block_set. by wp_step.
Qed.
Lemma wp_vol (Q : fat32_data → fs → Prop) s : Q (fat s) s → wp vol Q s.
Proof. intros ?. unfold vol. by wp_steps. Qed.
Lemma wp_metadata n md (Q : Z → fs → Prop) s : internal n = D_at md 0 → Q md s → wp (metadata_of n) Q s.
Proof. intros E ?. unfold metadata_of. rewrite E. by wp_step. Qed.

(** ** Reading *)

Definition advance (s : fs) (p : Z) (f : file) (n : Z) : fs := set_files (<[p := with_pos (f_pos f + n) f]> (files s)) s.

Lemma advance_0 s p f : files s !! p = Some f → advance s p f 0 = s.
Proof. intros E. unfold advance. rewrite Z.add_0_r. destruct f as [a b c d e]. unfold with_pos. cbn. rewrite insert_id by done. by destruct s. Qed.

Lemma advance_add s p f n k : advance (advance s p f n) p (with_pos (f_pos f + n) f) k = advance s p f (n + k).
Proof. unfold advance. cbn. by rewrite insert_insert_eq, Z.add_assoc. Qed.

Lemma advance_file s p f x md m ls n :
  fat_file s p f x md m ls → fat_file (advance s p f n) p (with_pos (f_pos f + n) f) x md m ls.
Proof. intros [F1 F2 F3 [C1 C2 C3 C4] F5 F6 F7]. split; try done. simpl. by rewrite lookup_insert_eq. Qed.

(** What one round of a loop over sectors sees at position [pos]. *)
Lemma sector_at s p f x md m ls pos :
  fat_file s p f x md m ls → 0 ≤ pos < 512 * Z.of_nat (length ls) →
  ∃ a l, content_cache m !! Z.to_nat (pos / 512) = Some a ∧ ls !! Z.to_nat (pos / 512) = Some l ∧ blocks s !! a = Some l ∧
    length l = 512%nat ∧ 0 ≤ pos mod 512 < 512 ∧ pos = 512 * (pos / 512) + pos mod 512.
Proof.
  intros Hf Hpos. assert (Hkr : 0 ≤ pos / 512 < Z.of_nat (length ls)) by (split; [apply Z.div_pos; lia|apply Z.div_lt_upper_bound; lia]).
  destruct (cached_sector s md m ls (Z.to_nat (pos / 512)) (ff_cached _ _ _ _ _ _ _ Hf)) as (a & l & Ea & El & Eb & Hl); [lia|].
  exists a, l. split_and!; try done; [apply Z.mod_pos_bound; lia..|apply Z.div_mod; lia].
Qed.

Section Read.
Context (p node md : Z) (x : vnode) (m : fat32_f_data) (ls : list (list Z)).
Implicit Types s : fs.

(** The bytes of one sector that are wanted. *)
Definition read_size (len r : Z) (f : file) : Z := Z.min (Z.min (len - r) (512 - f_pos f mod 512)) (file_size x - f_pos f).

Lemma read_bytes s f l n :
  fat_file s p f x md m ls → 0 ≤ f_pos f → ls !! Z.to_nat (f_pos f / 512) = Some l → 0 ≤ n ≤ 512 - f_pos f mod 512 → n ≤ file_size x - f_pos f →
  slice (f_pos f mod 512) n l = take (Z.to_nat n) (drop (Z.to_nat (f_pos f)) (contents x ls)).
Proof.
  intros Hf H0 El Hn Hsz. pose proof (Z.div_mod (f_pos f) 512 ltac:(lia)). pose proof (Z.mod_pos_bound (f_pos f) 512 ltac:(lia)).
  pose proof (Z.div_pos (f_pos f) 512 ltac:(lia) ltac:(lia)).
  unfold slice, contents. rewrite skipn_firstn_comm, take_take.
  rewrite (sector_slice ls (Z.to_nat (f_pos f / 512)) l); [|apply Hf|done|unfold SEC; lia].
  unfold SEC. f_equal; [lia|]. f_equal. lia.
Qed.

Lemma wp_read_step fuel len r acc s f (Q : Z * list Z → fs → Prop) :
  fat_file s p f x md m ls → fl_vnode f = node → 0 ≤ f_pos f ≤ file_size x → 0 ≤ r < len → len < 2 ^ 63 →
  f_pos f < 512 * Z.of_nat (length ls) →
  let sz := read_size len r f in
  let acc' := acc ++ take (Z.to_nat sz) (drop (Z.to_nat (f_pos f)) (contents x ls)) in
  wp (if file_size x <=? f_pos f + sz then mret (r + sz, acc')
      else read_loop fuel p node md len (f_pos f / 512 + 1) (r + sz) acc') Q (advance s p f sz) →
  wp (read_loop (S fuel) p node md len (f_pos f / 512) r acc) Q s.
Proof.
  intros Hf Hn Hpos Hr Hlen Hin sz acc' HQ. destruct (sector_at s p f x md m ls (f_pos f) Hf) as (a & l & Ea & El & Eb & Hl & Ho & Hdiv); [lia|].
  pose proof (ff_size _ _ _ _ _ _ _ Hf). pose proof (ff_bound _ _ _ _ _ _ _ Hf).
  cbn [read_loop]. destruct (Z.ltb_spec r len); [|lia].
  wp_step. apply wp_vol. wp_step. apply (wp_file_get _ f); [apply Hf|].
  wp_step. apply (wp_vnode_get _ x); [rewrite <- Hn; apply Hf|]. wp_step. apply (wp_fdata_get _ m); [apply Hf|].
  wp_step. apply (wp_deref _ a); [done|]. cbv zeta. rewrite (ff_vol _ _ _ _ _ _ _ Hf). unfold BLK_SZ.
  rewrite (u64_id (512 - _)), (u64_id (file_size x - _)) by lia. fold (read_size len r f). fold sz.
  assert (Hsz : 0 ≤ sz ≤ 512 - f_pos f mod 512 ∧ sz ≤ file_size x - f_pos f) by (unfold sz, read_size; lia).
  wp_step. apply (wp_peek a l); [done|lia|lia|]. rewrite (read_bytes s) by (done || lia). fold acc'.
  rewrite u64_id by lia. wp_step. apply (wp_file_upd _ f); [apply Hf|]. exact HQ.
Qed.

Lemma read_loop_run fuel len k r acc s f :
  fat_file s p f x md m ls → fl_vnode f = node → 0 ≤ f_pos f ≤ file_size x → 0 ≤ r ≤ len → len < 2 ^ 63 →
  len - r ≤ Z.of_nat fuel → (r < len → k = f_pos f / 512 ∧ f_pos f < 512 * Z.of_nat (length ls)) →
  let n := Z.min (len - r) (file_size x - f_pos f) in
  wp (read_loop fuel p node md len k r acc)
    (λ a t, a = (r + n, acc ++ take (Z.to_nat n) (drop (Z.to_nat (f_pos f)) (contents x ls))) ∧ t = advance s p f n) s.
Proof.
  revert k r acc s f. induction fuel as [|fuel IH]; intros k r acc s f Hf Hn Hpos Hr Hlen Hfuel Hk n.
  all: destruct (decide (r = len)) as [->|Hne]; [|destruct (Hk ltac:(lia)) as [-> Hin]].
  1, 3: cbn [read_loop]; destruct (Z.ltb_spec len len); [lia|]; wp_step; assert (n = 0) as -> by lia;
    rewrite advance_0 by apply Hf; by rewrite Z.add_0_r, take_0, app_nil_r.
  - lia.
  - apply (wp_read_step fuel len r acc s f); [done..|lia|done|done|]. set (sz := read_size len r f).
    pose proof (Z.mod_pos_bound (f_pos f) 512 ltac:(lia)). pose proof (Z.div_mod (f_pos f) 512 ltac:(lia)).
    assert (Hsz : sz = Z.min (Z.min (len - r) (512 - f_pos f mod 512)) (file_size x - f_pos f)) by done.
    destruct (Z.leb_spec (file_size x) (f_pos f + sz)) as [Hend|Hmore].
    + wp_step. by assert (sz = n) as -> by lia.
    + pose proof (advance_file s p f x md m ls sz Hf) as Hf1. eapply wp_mono.
      * apply (IH _ _ _ _ _ Hf1); cbn [fl_vnode f_pos with_pos]; [done|lia|lia|done|lia|]. intros Hlt'.
        assert (sz = 512 - f_pos f mod 512) as -> by lia. split; [|pose proof (ff_size _ _ _ _ _ _ _ Hf); lia].
        replace (f_pos f + (512 - f_pos f mod 512)) with ((f_pos f / 512 + 1) * 512) by lia. by rewrite Z.div_mul.
      * cbn [f_pos with_pos]. intros r' t [-> ->]. rewrite advance_add.
        set (n' := Z.min (len - (r + sz)) (file_size x - (f_pos f + sz))). assert (n = sz + n') as -> by lia.
        split; [|done]. f_equal; [lia|]. rewrite <- app_assoc. f_equal. rewrite !Z2Nat.inj_add by lia.
        rewrite <- drop_drop. by rewrite take_take_drop.
Qed.
End Read.

(** ** Chains *)

Inductive chain (v : fat32_data) : Z → list Z → Prop :=
  | chain_last c : fat_cache v !! Z.to_nat c = Some (end_of_file v) → 0 ≤ c → chain v c [c]
  | chain_next c e cs : fat_cache v !! Z.to_nat c = Some e → 0 ≤ c → e ≠ FAT_ENTRY_FREE → e ≠ end_of_file v →
      chain v (Z.land e FAT_VAL_MASK) cs → chain v c (c :: cs).

(** The blocks of the card that hold a cluster, and a chain. *)
Definition clus_sectors (v : fat32_data) (c : Z) : list Z :=
  (λ i, u32 (start_blk_idx v + FirstSectorofCluster v c + Z.of_nat i)) <$> seq 0 (Z.to_nat (BPB_SecPerClus v)).

Definition chain_sectors (v : fat32_data) (cs : list Z) : list Z := cs ≫= clus_sectors v.

(** How many sectors of [n] are read for [x] when [cnt] were read before. *)
Definition wanted (x : vnode) (cnt n : nat) : nat :=
  if decide (v_type x = FILE) then n `min` (Z.to_nat ((file_size x + 511) / 512) - cnt) else n.

Definition on_disk (s : fs) (idx : Z) (blk : list Z) : Prop := sd s !! i32 idx = Some blk ∧ sector blk.

Section Load.
Context `{!FsHeap}.
Implicit Types s : fs.

(** One more cached sector, with contents [blk]. *)
Definition load_one s md m blk : fs :=
  let a := new_addr (heap s) in
  set_fdatas (<[md := with_content (content_cache m ++ [a]) m]> (f_datas s))
    (set_blocks (<[a := blk]> (blocks s)) (set_heap ({[a]} ∪ heap s) s)).

Definition one_more s m : fat32_f_data := with_content (content_cache m ++ [new_addr (heap s)]) m.

Fixpoint load_all s md m (blks : list (list Z)) : fs :=
  match blks with [] => s | blk :: blks' => load_all (load_one s md m blk) md (one_more s m) blks' end.

Fixpoint more_all s md m (blks : list (list Z)) : fat32_f_data :=
  match blks with [] => m | blk :: blks' => more_all (load_one s md m blk) md (one_more s m) blks' end.

Lemma load_all_app s md m b1 b2 : load_all s md m (b1 ++ b2) = load_all (load_all s md m b1) md (more_all s md m b1) b2.
Proof. revert s m. induction b1 as [|b b1 IH]; intros s m; simpl; [done|]. apply IH. Qed.

Lemma load_all_meta s md m blks : f_datas s !! md = Some m → f_datas (load_all s md m blks) !! md = Some (more_all s md m blks).
Proof.
  revert s m. induction blks as [|b blks IH]; intros s m E; simpl; [done|]. apply IH. unfold load_one, one_more. simpl.
  by rewrite lookup_insert_eq.
Qed.

Lemma load_all_same s md m blks :
  let t := load_all s md m blks in
  vnodes t = vnodes s ∧ files t = files s ∧ sd t = sd s ∧ fat t = fat s ∧ f_cpu t = f_cpu s ∧ fopss t = fopss s ∧
  mounts t = mounts s ∧ vopss t = vopss s.
Proof. revert s m. induction blks as [|b blks IH]; intros s m; simpl; [done|]. by destruct (IH (load_one s md m b) (one_more s m)) as (-> & -> & -> & -> & -> & -> & -> & ->). Qed.

Lemma room_one s md m blk k : fs_room s (S k) → fs_room (load_one s md m blk) k.
Proof. intros Hr. exact (room_after s k Hr). Qed.

Lemma load_all_room s md m blks k : fs_room s (length blks + k) → fs_room (load_all s md m blks) k.
Proof. revert s m. induction blks as [|b blks IH]; intros s m Hr; simpl; [done|]. apply IH. by apply room_one. Qed.

Lemma splice_zeros blk : length blk = 512%nat → splice 0 blk (replicate 512 0) = blk.
Proof.
  intros Hl. unfold splice. rewrite take_0. cbn [app]. rewrite Hl. rewrite drop_ge by (rewrite length_replicate; done).
  by rewrite app_nil_r.
Qed.

Lemma wp_add_sec s md m (Q : Z → fs → Prop) :
  f_datas s !! md = Some m → fs_room s 1 → BPB_BytsPerSec (fat s) = 512 →
  Q (new_addr (heap s)) (load_one s md m (replicate 512 0)) → wp (add_new_cache_sec md) Q s.
Proof.
  intros Em Hr Hv HQ. destruct (room_addr s Hr) as [Ha _]. assert (E : (new_addr (heap s) =? 0) = false) by lia.
  unfold add_new_cache_sec. wp_step. apply wp_vol. rewrite Hv. cbn [Z.eqb].
  wp_step. apply (wp_eq _ _ _ _ _ (f_malloc_run s Hr)). rewrite E. wp_steps. unfold block_set. wp_steps.
  apply (wp_fdata_upd _ m); [done|]. by wp_steps.
Qed.

Lemma wp_fill_sec s md m idx blk (Q : unit → fs → Prop) :
  on_disk s idx blk → Q tt (load_one s md m blk) →
  wp (readblock idx (new_addr (heap s))) Q (load_one s md m (replicate 512 0)).
Proof.
  intros [Ed Hl] HQ. red in Hl. change SEC with 512%nat in Hl.
  unfold readblock, disk_read. wp_steps. apply (wp_deref _ blk); [done|].
  apply (wp_poke _ (replicate 512 0)); [apply lookup_insert_eq|lia|rewrite length_replicate, Hl; lia|].
  rewrite splice_zeros by done. unfold load_one, set_blocks. cbn. rewrite insert_insert_eq. done.
Qed.

Lemma wanted_done x cnt n : v_type x = FILE → file_size x ≤ 512 * Z.of_nat cnt → wanted x cnt n = 0%nat.
Proof.
  intros Ht Hs. unfold wanted. rewrite decide_True by done.
  assert ((file_size x + 511) / 512 ≤ Z.of_nat cnt) by (assert ((file_size x + 511) / 512 < Z.of_nat cnt + 1) by (apply Z.div_lt_upper_bound; lia); lia). lia.
Qed.

Lemma wanted_more x cnt n :
  v_type x ≠ FILE ∨ 512 * Z.of_nat cnt < file_size x → wanted x cnt (S n) = S (wanted x (S cnt) n).
Proof.
  intros Hs. unfold wanted. case_decide as Ht; [|done]. destruct Hs as [|Hs]; [done|].
  assert (Z.of_nat cnt < (file_size x + 511) / 512).
  { assert (Z.of_nat cnt + 1 ≤ (file_size x + 511) / 512) by (apply Z.div_le_lower_bound; lia). lia. }
  lia.
Qed.

(** The loop over the sectors of a cluster. *)
Lemma load_cluster_run n node md x clus j cnt s m blks :
  vnodes s !! node = Some x → f_datas s !! md = Some m → BPB_BytsPerSec (fat s) = 512 →
  512 * (Z.of_nat cnt + Z.of_nat n) < 2 ^ 31 → fs_room s (length blks) →
  Forall2 (on_disk s) (take (wanted x cnt n) ((λ i, u32 (start_blk_idx (fat s) + FirstSectorofCluster (fat s) clus + Z.of_nat i)) <$> seq j n)) blks →
  wp (load_cluster n node md clus (Z.of_nat j) (Z.of_nat cnt))
    (λ r t, r = bool_decide (wanted x cnt n < n)%nat ∧ t = load_all s md m blks) s.
Proof.
  revert j cnt s m blks. induction n as [|n IH]; intros j cnt s m blks Ex Em Hv Hb Hroom Hd.
  - cbn [seq fmap list_fmap] in Hd. rewrite take_nil in Hd. apply Forall2_nil_inv_l in Hd as ->. cbn [load_cluster]. wp_step. by rewrite bool_decide_false by lia.
  - cbn [load_cluster]. wp_step. apply wp_vol. wp_step. apply (wp_vnode_get _ x); [done|]. rewrite Hv, i32_small, u64_id by lia.
    destruct (bool_decide (v_type x = FILE) && (file_size x <=? Z.of_nat cnt * 512)) eqn:Estop.
    + apply andb_true_iff in Estop as [Ht%bool_decide_eq_true Hle%Z.leb_le]. rewrite wanted_done in * by (done || lia).
      apply Forall2_nil_inv_l in Hd as ->. wp_step. by rewrite bool_decide_true by lia.
    + assert (Hmore : v_type x ≠ FILE ∨ 512 * Z.of_nat cnt < file_size x).
      { apply andb_false_iff in Estop as [Ht%bool_decide_eq_false|Hlt%Z.leb_gt]; [by left|right; lia]. }
      rewrite wanted_more in * by done. cbn [seq fmap list_fmap take] in Hd.
      apply Forall2_cons_inv_l in Hd as (blk & blks' & Hblk & Hd & ->). cbn [length] in Hroom.
      wp_step. apply (wp_add_sec s md m); [done|eapply room_weaken; [|exact Hroom]; lia|done|].
      wp_step. apply (wp_fill_sec s md m _ blk); [exact Hblk|].
      replace (Z.of_nat j + 1) with (Z.of_nat (S j)) by lia. replace (Z.of_nat cnt + 1) with (Z.of_nat (S cnt)) by lia.
      eapply wp_mono; [apply (IH (S j) (S cnt) _ (one_more s m) blks')|]; [done|apply lookup_insert_eq|done|lia|by apply room_one|done|].
      intros r t [-> ->]. split; [|done]. apply bool_decide_ext. lia.
Qed.

(** The sectors of [cs] that are read when [cnt] were read before. *)
Definition wanted_sectors v (x : vnode) (cnt : nat) (cs : list Z) : list Z :=
  take (wanted x cnt (length (chain_sectors v cs))) (chain_sectors v cs).

Lemma length_clus_sectors v c : length (clus_sectors v c) = Z.to_nat (BPB_SecPerClus v).
Proof. unfold clus_sectors. by rewrite length_fmap, length_seq. Qed.

Lemma wanted_split x cnt n k : wanted x cnt (n + k) = if decide (wanted x cnt n < n)%nat then wanted x cnt n else (n + wanted x (cnt + n) k)%nat.
Proof. unfold wanted. repeat case_decide; lia. Qed.

Lemma load_chain_run fuel node md x clus cs cnt s m blks :
  vnodes s !! node = Some x → f_datas s !! md = Some m → BPB_BytsPerSec (fat s) = 512 → 0 ≤ BPB_SecPerClus (fat s) →
  chain (fat s) clus cs → (length cs ≤ fuel)%nat → 512 * (Z.of_nat cnt + Z.of_nat (length (chain_sectors (fat s) cs))) < 2 ^ 31 →
  fs_room s (length blks) → Forall2 (on_disk s) (wanted_sectors (fat s) x cnt cs) blks →
  wp (load_chain fuel node md clus (Z.of_nat cnt)) (λ _ t, t = load_all s md m blks) s.
Proof.
  revert clus cs cnt s m blks. induction fuel as [|fuel IH]; intros clus cs cnt s m blks Ex Em Hv Hspc Hch Hfuel Hb Hroom Hd.
  { destruct Hch; simpl in Hfuel; lia. }
  assert (exists cs', cs = clus :: cs') as [cs' ->] by (destruct Hch; by eexists).
  cbn [load_chain]. wp_step. apply wp_vol.
  unfold wanted_sectors in Hd. unfold chain_sectors in Hd, Hb. rewrite bind_cons in Hd, Hb. fold (chain_sectors (fat s) cs') in Hd, Hb.
  rewrite length_app in Hd, Hb. rewrite length_clus_sectors in Hd, Hb. set (n := Z.to_nat (BPB_SecPerClus (fat s))) in *.
  assert (Hlen : length (clus_sectors (fat s) clus) = n) by apply length_clus_sectors.
  rewrite wanted_split in Hd.
  assert (∃ b1 b2, blks = b1 ++ b2 ∧ Forall2 (on_disk s) (take (wanted x cnt n) (clus_sectors (fat s) clus)) b1 ∧
    if decide (wanted x cnt n < n)%nat then b2 = [] else Forall2 (on_disk s) (wanted_sectors (fat s) x (cnt + n) cs') b2)
    as (b1 & b2 & -> & Hd1 & Hd2).
  { case_decide as Hw.
    - rewrite take_app_le in Hd by lia. exists blks, []. by rewrite app_nil_r.
    - rewrite take_app_ge in Hd by lia. apply Forall2_app_inv_l in Hd as (b1 & b2 & Hd1 & Hd2 & ->). exists b1, b2.
      split; [done|]. split.
      + rewrite take_ge by (rewrite Hlen; lia). done.
      + unfold wanted_sectors. rewrite Hlen in Hd2. by replace (n + wanted x (cnt + n) (length (chain_sectors (fat s) cs')) - n)%nat
          with (wanted x (cnt + n) (length (chain_sectors (fat s) cs'))) in Hd2 by lia. }
  rewrite length_app in Hroom.
  wp_step. eapply wp_mono; [apply (load_cluster_run n node md x clus 0 cnt s m b1)|]; [done|done|done|lia|eapply room_weaken; [|exact Hroom]; lia|exact Hd1|].
  intros r t [-> ->]. rewrite load_all_app. destruct (load_all_same s md m b1) as (Ev & _ & Esd & Efat & _).
  case_bool_decide as Hw; [rewrite decide_True in Hd2 by done|rewrite decide_False in Hd2 by done].
  - subst b2. wp_step. done.
  - assert (Hent : ∀ e (Q : Z → fs → Prop), fat_cache (fat s) !! Z.to_nat clus = Some e → Q e (load_all s md m b1) → wp (get_fat_entry clus) Q (load_all s md m b1)).
    { intros e Q E HQ. unfold get_fat_entry. wp_step. apply wp_vol. rewrite Efat. by apply (wp_deref _ e). }
    wp_step. inversion Hch as [c Hl Hc|c e cs0 He Hc _ Hne Hch']; subst.
    + apply (Hent _ _ Hl). rewrite Z.eqb_refl. wp_step. unfold wanted_sectors in Hd2. cbn [chain_sectors] in Hd2.
      change (chain_sectors (fat s) []) with (@nil Z) in Hd2. rewrite take_nil in Hd2. by apply Forall2_nil_inv_l in Hd2 as ->.
    + apply (Hent _ _ He). apply Z.eqb_neq in Hne. rewrite Hne.
      replace (Z.of_nat cnt + BPB_SecPerClus (fat s)) with (Z.of_nat (cnt + n)) by lia.
      apply (IH _ cs'); [by rewrite Ev|by apply load_all_meta|by rewrite Efat|by rewrite Efat|by rewrite Efat|simpl in Hfuel; lia|rewrite Efat; lia|by apply load_all_room|].
      rewrite Efat. eapply Forall2_impl; [exact Hd2|]. intros i b [Hi Hs]. split; [by rewrite Esd|done].
Qed.

Lemma chain_length v c cs : chain v c cs → NoDup cs → (length cs ≤ length (fat_cache v))%nat.
Proof.
  intros Hch Hnd. assert (Hin : ∀ k, k ∈ cs → (Z.to_nat k < length (fat_cache v))%nat ∧ 0 ≤ k).
  { clear Hnd. induction Hch as [c E Hc|c e cs E Hc _ _ _ IH]; intros k Hk.
    - apply list_elem_of_singleton in Hk as ->. split; [by eapply lookup_lt_Some|done].
    - apply elem_of_cons in Hk as [->|Hk]; [split; [by eapply lookup_lt_Some|done]|by apply IH]. }
  rewrite <- (length_seq (length (fat_cache v)) 0), <- (length_fmap Z.to_nat cs). apply submseteq_length, NoDup_submseteq.
  - apply NoDup_fmap_2_strong; [|done]. intros a b Ha Hb E. destruct (Hin a Ha), (Hin b Hb). lia.
  - intros k (c' & -> & Hc)%list_elem_of_fmap. apply elem_of_seq. destruct (Hin c' Hc). lia.
Qed.

(** The state and the metadata after the contents of [node] were loaded. *)
Lemma load_content_run node x md m cs s blks :
  vnodes s !! node = Some x → internal x = D_at md 0 → f_datas s !! md = Some m → BPB_BytsPerSec (fat s) = 512 → 0 ≤ BPB_SecPerClus (fat s) →
  chain (fat s) (clus_idx m) cs → NoDup cs → 512 * Z.of_nat (length (chain_sectors (fat s) cs)) < 2 ^ 31 →
  fs_room s (length blks) → Forall2 (on_disk s) (wanted_sectors (fat s) x 0 cs) blks →
  load_content node s = Ok (tt, load_all s md m blks).
Proof.
  intros Ex Ei Em Hv Hspc Hch Hnd Hb Hroom Hd.
  enough (wp (load_content node) (λ _ t, t = load_all s md m blks) s) as ([] & t & -> & ->)%wp_run by done.
  unfold load_content. wp_step. apply wp_vol. wp_step. apply (wp_vnode_get _ x); [done|].
  wp_step. apply (wp_metadata _ md); [done|]. wp_step. apply (wp_fdata_get _ m); [done|].
  pose proof (chain_length _ _ _ Hch Hnd). change 0 with (Z.of_nat 0). apply (load_chain_run _ _ _ x _ cs); try done; lia.
Qed.

(** ** The contents after loading *)

(** Blocks are heap objects. *)
Definition blocks_in_heap s : Prop := ∀ p, is_Some (blocks s !! p) → p ∈ heap s.

Lemma load_one_in_heap s md m blk : blocks_in_heap s → blocks_in_heap (load_one s md m blk).
Proof.
  intros Hb p. simpl. destruct (decide (p = new_addr (heap s))) as [->|Hne]; [set_solver|].
  rewrite lookup_insert_ne by done. intros Hp. apply elem_of_union_r. by apply Hb.
Qed.

Lemma load_one_cached s md m ls blk :
  cached s md m ls → blocks_in_heap s → fs_room s 1 → sector blk → cached (load_one s md m blk) md (one_more s m) (ls ++ [blk]).
Proof.
  intros [C1 C2 C3 C4] Hb Hr Hs. destruct (room_addr s Hr) as [_ Hn].
  assert (Hfresh : ∀ a l, blocks s !! a = Some l → new_addr (heap s) ≠ a) by (intros a l E <-; apply Hn, Hb; by rewrite E).
  split; simpl.
  - by rewrite lookup_insert_eq.
  - apply Forall2_app.
    + eapply Forall2_impl; [exact C2|]. intros a l E. rewrite lookup_insert_ne; [done|exact (Hfresh a l E)].
    + constructor; [by rewrite lookup_insert_eq|constructor].
  - apply Forall_app. split; [done|by constructor].
  - apply NoDup_app. split; [done|]. split; [|apply NoDup_singleton].
    intros a Ha ->%list_elem_of_singleton. apply list_elem_of_lookup in Ha as [i Ei].
    destruct (Forall2_lookup_l _ _ _ _ _ C2 Ei) as (l & _ & El). by apply (Hfresh _ _ El).
Qed.

Lemma load_all_cached s md m ls blks :
  cached s md m ls → blocks_in_heap s → fs_room s (length blks) → Forall sector blks →
  cached (load_all s md m blks) md (more_all s md m blks) (ls ++ blks).
Proof.
  revert s m ls. induction blks as [|b blks IH]; intros s m ls Hc Hb Hr Hs; simpl; [by rewrite app_nil_r|].
  apply Forall_cons in Hs as [Hs1 Hs]. assert (fs_room s 1) by (eapply room_weaken; [|exact Hr]; simpl; lia).
  rewrite cons_middle, app_assoc. apply IH; [by apply load_one_cached|by apply load_one_in_heap|by apply room_one|done].
Qed.

Lemma load_file s p f x md m blks :
  files s !! p = Some f → vnodes s !! fl_vnode f = Some x → internal x = D_at md 0 → f_datas s !! md = Some m →
  content_cache m = [] → BPB_BytsPerSec (fat s) = 512 → blocks_in_heap s → fs_room s (length blks) → Forall sector blks →
  0 ≤ file_size x ≤ 512 * Z.of_nat (length blks) → 512 * Z.of_nat (length blks) < 2 ^ 31 →
  fat_file (load_all s md m blks) p f x md (more_all s md m blks) blks.
Proof.
  intros Ef Ex Ei Em Hm Hv Hb Hr Hs Hsz Hbd. destruct (load_all_same s md m blks) as (Hvn & Hfi & _ & Hfat & _).
  split; [by rewrite Hfi|by rewrite Hvn|done| |by rewrite Hfat|done|done].
  apply (load_all_cached s md m [] blks); [|done..]. split; [done|rewrite Hm; constructor|constructor|rewrite Hm; constructor].
Qed.
End Load.
