(* ===== verification/Fat32Props.v ===== *)
(** * FAT32: properties of reading

    What a read returns for cached and for uncached files, and where it
    leaves the cache. *)

From S2P Require Import Prelude Cpu Str VfsData Tmpfs Vfs VfsInv VfsPath VfsThm Fat32 Fat32Load TmpfsProps.

Section Read.
Context `{!FsHeap}.
Implicit Types s : fs.

Lemma which_run s pos : BPB_BytsPerSec (fat s) = 512 → 0 ≤ pos < 2 ^ 31 → which_sector pos s = Ok (pos / 512, s).
Proof.
  intros Hv Hp. unfold which_sector. erewrite bind_Ok by reflexivity. rewrite Hv. erewrite bind_Ok by reflexivity.
  unfold u32. rewrite Z.mod_small; [done|]. split; [apply Z.div_pos; lia|apply Z.div_lt_upper_bound; lia].
Qed.

(** The part of [fat32_read] after loading. *)
Lemma read_rest s p f x md m ls len :
  fat_file s p f x md m ls → 0 ≤ f_pos f ≤ file_size x → 0 ≤ len < 2 ^ 63 →
  len = 0 ∨ f_pos f < 512 * Z.of_nat (length ls) →
  let r := Z.min len (file_size x - f_pos f) in
  wp (_ ← cache_at md (f_pos f / 512); '(r, bytes) ← read_loop (Z.to_nat len) p (fl_vnode f) md len (f_pos f / 512) 0 []; mret (i64 r, bytes))
    (λ a t, a = (r, take (Z.to_nat r) (drop (Z.to_nat (f_pos f)) (contents x ls))) ∧ t = advance s p f r) s.
Proof.
  intros Hf Hp Hl Hin r. pose proof (ff_size _ _ _ _ _ _ _ Hf). pose proof (ff_bound _ _ _ _ _ _ _ Hf).
  unfold cache_at. wp_step. wp_step. apply (wp_fdata_get _ m); [apply Hf|]. wp_step.
  rewrite (cached_length _ _ _ _ (ff_cached _ _ _ _ _ _ _ Hf)). apply wp_assert.
  { apply Z.leb_le. apply Z.lt_succ_r. apply Z.div_lt_upper_bound; lia. }
  wp_steps. eapply wp_mono; [apply (read_loop_run p (fl_vnode f) md x m ls (Z.to_nat len) len _ 0 [] s f Hf)|]; [done|done|lia|lia|lia| |].
  - intros Hlt. split; [done|]. destruct Hin; [lia|done].
  - intros a t [-> ->]. rewrite Z.sub_0_r, Z.add_0_l. cbn [app]. wp_step. rewrite i64_id by lia. done.
Qed.

Lemma wp_cached_load s node x md m ls (Q : unit → fs → Prop) :
  vnodes s !! node = Some x → cached s md m ls → file_size x ≤ 512 * Z.of_nat (length ls) → Q tt s → wp (load_if_needed node md) Q s.
Proof.
  intros Ex Hc Hs HQ. unfold load_if_needed. wp_step. apply (wp_vnode_get _ x); [done|]. wp_step. apply (wp_fdata_get _ m); [apply Hc|].
  destruct (bool_decide (content_cache m = []) && (0 <? file_size x)) eqn:E; [|by wp_step].
  apply andb_true_iff in E as [Em%bool_decide_eq_true Hlt%Z.ltb_lt]. pose proof (cached_length _ _ _ _ Hc) as Hl.
  rewrite Em in Hl. destruct ls; [simpl in Hs; lia|done].
Qed.

(** The part of [fat32_read] before loading. *)
Lemma wp_read_start s p f x md len (Q : Z * list Z → fs → Prop) :
  files s !! p = Some f → vnodes s !! fl_vnode f = Some x → internal x = D_at md 0 → BPB_BytsPerSec (fat s) = 512 → 0 ≤ f_pos f < 2 ^ 31 →
  wp (load_if_needed (fl_vnode f) md ;;
      _ ← cache_at md (f_pos f / 512); '(r, bytes) ← read_loop (Z.to_nat len) p (fl_vnode f) md len (f_pos f / 512) 0 []; mret (i64 r, bytes)) Q s →
  wp (fat32_read p len) Q s.
Proof.
  intros Ef Ex Ei Hv Hp HQ. unfold fat32_read. wp_step. apply (wp_file_get _ f); [done|].
  wp_step. eapply wp_eq; [by apply which_run|]. wp_step. apply (wp_vnode_get _ x); [done|]. wp_step. by apply (wp_metadata _ md).
Qed.

(** Reading from a cached file copies the bytes of its contents from the
    position on, at most to the end of the file, across sector boundaries,
    advances the position and changes nothing else. *)
Theorem fat32_read_cached s p f x md m ls len :
  fat_file s p f x md m ls → 0 ≤ f_pos f ≤ file_size x → 0 ≤ len < 2 ^ 63 →
  len = 0 ∨ f_pos f < 512 * Z.of_nat (length ls) →
  let r := Z.min len (file_size x - f_pos f) in
  fat32_read p len s = Ok ((r, take (Z.to_nat r) (drop (Z.to_nat (f_pos f)) (contents x ls))),
    set_files (<[p := with_pos (f_pos f + r) f]> (files s)) s).
Proof.
  intros Hf Hp Hl Hin r. pose proof (ff_size _ _ _ _ _ _ _ Hf). pose proof (ff_bound _ _ _ _ _ _ _ Hf).
  apply (wp_exact _ _ _ s), (wp_read_start s p f x md); [apply Hf..|lia|].
  wp_step. apply (wp_cached_load s _ x md m ls); [apply Hf|apply Hf|lia|]. eapply wp_mono; [by apply (read_rest s p f x md m ls len Hf)|].
  by intros a t [-> ->].
Qed.

(** C16: Reading from a position before the end of a file that is not empty and
    not cached loads the sectors of its chain from the card first, only those
    its size needs, and then returns the bytes stored there from the position
    on, as many as asked for up to the end; they stay cached.  The volume has
    sectors of 512 bytes, the chain in the allocation table ends and has no
    cycle, and covers less than 2 GB.  (On an empty file, or at the end of one that fills its sectors, the code dereferences
    NULL: [fat32_read_end].) *)
Theorem fat32_read_disk s p f x md m cs blks len :
  files s !! p = Some f → vnodes s !! fl_vnode f = Some x → internal x = D_at md 0 → f_datas s !! md = Some m →
  content_cache m = [] → BPB_BytsPerSec (fat s) = 512 → 0 ≤ BPB_SecPerClus (fat s) → blocks_in_heap s → fs_room s (length blks) →
  chain (fat s) (clus_idx m) cs → NoDup cs → 512 * Z.of_nat (length (chain_sectors (fat s) cs)) < 2 ^ 31 →
  Forall2 (on_disk s) (wanted_sectors (fat s) x 0 cs) blks →
  0 < file_size x ≤ 512 * Z.of_nat (length blks) → 0 ≤ f_pos f < file_size x → 0 ≤ len < 2 ^ 63 →
  let r := Z.min len (file_size x - f_pos f) in
  ∃ s' m', fat32_read p len s = Ok ((r, take (Z.to_nat r) (drop (Z.to_nat (f_pos f)) (contents x blks))), s') ∧
    fat_file s' p (with_pos (f_pos f + r) f) x md m' blks ∧ sd s' = sd s ∧ fat s' = fat s ∧ vnodes s' = vnodes s ∧ f_cpu s' = f_cpu s.
Proof.
  intros Ef Ex Ei Em Hm Hv Hspc Hb Hr Hch Hnd Hbd Hd Hsz Hp Hl r.
  assert (Hlen : Z.of_nat (length blks) ≤ Z.of_nat (length (chain_sectors (fat s) cs))).
  { apply Forall2_length in Hd. rewrite <- Hd. unfold wanted_sectors. rewrite length_take. lia. }
  assert (Hsec : Forall sector blks) by (eapply Forall2_Forall_r; [exact Hd|]; apply Forall_true; by intros ?? []).
  pose proof (load_content_run (fl_vnode f) x md m cs s blks Ex Ei Em Hv Hspc Hch Hnd Hbd Hr Hd) as Hload.
  assert (Hf : fat_file (load_all s md m blks) p f x md (more_all s md m blks) blks) by (apply load_file; (done || lia)).
  destruct (load_all_same s md m blks) as (Evn & Efi & Esd & Efat & Ec & _).
  exists (advance (load_all s md m blks) p f r), (more_all s md m blks). split_and!; try done; [|by apply advance_file].
  apply (wp_exact _ _ _ s), (wp_read_start s p f x md); [done..|lia|].
  wp_step. unfold load_if_needed. wp_step. apply (wp_vnode_get _ x); [done|]. wp_step. apply (wp_fdata_get _ m); [done|].
  rewrite Hm, bool_decide_true by done. destruct (Z.ltb_spec 0 (file_size x)); [|lia]. cbn [andb].
  apply (wp_eq _ _ _ _ _ Hload). eapply wp_mono; [apply (read_rest _ p f x md (more_all s md m blks) blks len Hf); lia|].
  by intros a t [-> ->].
Qed.

(** At the end of a file whose size fills its sectors, in particular in an
    empty file, the loop follows the link of the last cached sector: a read of
    one byte dereferences NULL. *)
Theorem fat32_read_end s p f x md m ls len :
  fat_file s p f x md m ls → f_pos f = file_size x → file_size x = 512 * Z.of_nat (length ls) → 0 < len →
  fat32_read p len s = Ub.
Proof.
  intros Hf Hp Hs Hlen. pose proof (ff_bound _ _ _ _ _ _ _ Hf). pose proof (ff_cached _ _ _ _ _ _ _ Hf) as Hc.
  pose proof (cached_length _ _ _ _ Hc) as Hl. pose proof (cd_meta _ _ _ _ Hc) as Em. unfold fat32_read.
  erewrite bind_Ok by (unfold file_get, mbind, M_bind, get_st; by rewrite (ff_file _ _ _ _ _ _ _ Hf)).
  rewrite (bind_Ok _ _ _ _ _ (which_run s (f_pos f) (ff_vol _ _ _ _ _ _ _ Hf) ltac:(lia))). cbv zeta.
  assert (Ex : vnode_get (fl_vnode f) s = Ok (x, s)) by (unfold vnode_get, mbind, M_bind, get_st; by rewrite (ff_node _ _ _ _ _ _ _ Hf)).
  rewrite (bind_Ok _ _ _ _ _ Ex). erewrite bind_Ok by (unfold metadata_of; by rewrite (ff_md _ _ _ _ _ _ _ Hf)).
  assert (Hload : load_if_needed (fl_vnode f) md s = Ok (tt, s)).
  { apply (wp_exact _ _ _ s), (wp_cached_load s _ x md m ls); [apply Hf|done|lia|done]. }
  rewrite (bind_Ok _ _ _ _ _ Hload).
  assert (Ek : f_pos f / 512 = Z.of_nat (length ls)) by (rewrite Hp, Hs, Z.mul_comm; by apply Z.div_mul).
  assert (Hat : cache_at md (f_pos f / 512) s = Ok (None, s)).
  { unfold cache_at, fdata_get, mbind, M_bind, get_st. rewrite Em. cbn [deref mret M_ret]. rewrite Ek, Hl.
    unfold assert. rewrite Z.leb_refl. cbn [mret M_ret]. unfold mret, M_ret. do 2 f_equal. apply lookup_ge_None_2. lia. }
  rewrite (bind_Ok _ _ _ _ _ Hat). destruct (Z.to_nat len) as [|fuel] eqn:El; [lia|].
  unfold mbind at 1, M_bind at 1. cbn [read_loop]. destruct (Z.ltb_spec 0 len); [|lia].
  erewrite bind_Ok by reflexivity. erewrite bind_Ok by (unfold file_get, mbind, M_bind, get_st; by rewrite (ff_file _ _ _ _ _ _ _ Hf)).
  rewrite (bind_Ok _ _ _ _ _ Ex). erewrite bind_Ok by (unfold fdata_get, mbind, M_bind, get_st; by rewrite Em).
  unfold mbind at 1, M_bind at 1. rewrite Ek. rewrite lookup_ge_None_2 by lia. done.
Qed.
End Read.
