(* ===== verification/FatTable.v ===== *)
(** * FAT32: the file allocation table

    Looking for a free cluster and linking it to the end of a chain. *)

From S2P Require Import Prelude Cpu Str VfsData Tmpfs Vfs VfsInv VfsPath VfsThm Fat32 Fat32Load TmpfsProps.

(** A table whose cluster numbers fit below the end-of-file mark, which has no
    reserved bits; entry 0 is never free. *)
Record fat_ok (v : fat32_data) : Prop := mk_fat_ok {
  fo_sec : BPB_BytsPerSec v = 512;
  fo_spc : 0 < BPB_SecPerClus v < 256;
  fo_eof : 0 < end_of_file v < 2 ^ 28;
  fo_len : Z.of_nat (length (fat_cache v)) ≤ end_of_file v;
  fo_size : u32 (BPB_FATSz32 v * BPB_BytsPerSec v) / 4 = Z.of_nat (length (fat_cache v));
  fo_zero : ∃ e, fat_cache v !! 0%nat = Some e ∧ e ≠ 0;
}.

Definition count_free (l : list Z) : nat := length (filter (λ e : Z, e = 0) l).
Definition free_entries (v : fat32_data) : nat := count_free (fat_cache v).

(** ** Masks *)

Lemma mask_small x : 0 ≤ x < 2 ^ 28 → Z.land x FAT_VAL_MASK = x.
Proof. intros Hx. change FAT_VAL_MASK with (Z.ones 28). rewrite Z.land_ones by lia. by apply Z.mod_small. Qed.

Lemma mask_off x : 0 ≤ x < 2 ^ 28 → Z.land x (u32 (Z.lnot FAT_VAL_MASK)) = 0.
Proof.
  intros Hx. change (u32 (Z.lnot FAT_VAL_MASK)) with (Z.shiftl 15 28). apply Z.bits_inj'. intros b Hb. rewrite Z.land_spec, Z.bits_0.
  destruct (Z.lt_ge_cases b 28).
  - rewrite Z.shiftl_spec_low by done. apply andb_false_r.
  - rewrite <- (Z.mod_small x (2 ^ 28)) by done. by rewrite Z.mod_pow2_bits_high by lia.
Qed.

(** ** The search *)

Fixpoint first_free (l : list Z) (i : Z) : option Z :=
  match l with [] => None | e :: l' => if e =? 0 then Some i else first_free l' (i + 1) end.

Lemma first_free_Some l i r : first_free l i = Some r → i ≤ r ∧ l !! Z.to_nat (r - i) = Some 0.
Proof.
  revert i. induction l as [|e l IH]; intros i; simpl; [done|]. destruct (Z.eqb_spec e 0) as [->|].
  - intros [= <-]. rewrite Z.sub_diag. by split; [lia|].
  - intros H. destruct (IH _ H) as [Hi E]. split; [lia|]. replace (Z.to_nat (r - i)) with (S (Z.to_nat (r - (i + 1)))) by lia. done.
Qed.

Lemma first_free_is_Some l i : (0 < count_free l)%nat → is_Some (first_free l i).
Proof.
  revert i. unfold count_free. induction l as [|e l IH]; intros i; [simpl; lia|]. rewrite filter_cons. simpl. destruct (Z.eqb_spec e 0); [by eexists|].
  rewrite decide_False by done. apply IH.
Qed.

Lemma free_loop_run n i s :
  0 ≤ i → (Z.to_nat i + n = length (fat_cache (fat s)))%nat →
  free_clus_loop n i s = Ok (default (u32 (Z.lnot 0)) (first_free (drop (Z.to_nat i) (fat_cache (fat s))) i), s).
Proof.
  revert i. induction n as [|n IH]; intros i Hi Hn.
  - rewrite drop_ge by lia. done.
  - destruct (lookup_lt_is_Some_2 (fat_cache (fat s)) (Z.to_nat i)) as [e E]; [lia|]. rewrite (drop_S _ _ _ E).
    cbn [free_clus_loop first_free]. erewrite bind_Ok by (unfold get_fat_entry; erewrite bind_Ok by reflexivity; by rewrite E).
    unfold FAT_ENTRY_FREE. destruct (Z.eqb_spec e 0); [done|]. rewrite IH by lia. by replace (Z.to_nat (i + 1)) with (S (Z.to_nat i)) by lia.
Qed.

Lemma get_free_run s : fat_ok (fat s) → get_free_clus_idx s = Ok (default (u32 (Z.lnot 0)) (first_free (fat_cache (fat s)) 0), s).
Proof.
  intros Hv. unfold get_free_clus_idx. erewrite bind_Ok by reflexivity. rewrite (fo_size _ Hv), Nat2Z.id.
  by rewrite free_loop_run by lia.
Qed.

(** ** Linking *)

Definition set_entries (l : list Z) s : fs := set_fat (with_cache l (fat s)) s.

Lemma set_entry_run s i x val :
  fat_cache (fat s) !! Z.to_nat i = Some x →
  set_fat_entry i val s = Ok (tt, set_entries (<[Z.to_nat i := Z.lor (Z.land x (u32 (Z.lnot FAT_VAL_MASK))) val]> (fat_cache (fat s))) s).
Proof. intros E. unfold set_fat_entry. erewrite bind_Ok by (unfold get_fat_entry; erewrite bind_Ok by reflexivity; by rewrite E). done. Qed.

(** The table after the free cluster [i] was linked behind [c]. *)
Definition linked (v : fat32_data) (c i : Z) : list Z :=
  <[Z.to_nat i := end_of_file v]> (<[Z.to_nat c := i]> (fat_cache v)).

Lemma free_range v i : fat_ok v → first_free (fat_cache v) 0 = Some i → 0 < i < end_of_file v ∧ fat_cache v !! Z.to_nat i = Some 0.
Proof.
  intros Hv Hi. destruct (first_free_Some _ _ _ Hi) as [H0 E]. rewrite Z.sub_0_r in E. split; [|done].
  destruct (fo_zero _ Hv) as (e & E0 & Hne). pose proof (fo_len _ Hv). apply lookup_lt_Some in E as Hl.
  assert (i ≠ 0) by (intros ->; change (Z.to_nat 0) with 0%nat in E; rewrite E0 in E; congruence). lia.
Qed.

Lemma append_cluster_run s c i :
  fat_ok (fat s) → first_free (fat_cache (fat s)) 0 = Some i → 0 ≤ c → fat_cache (fat s) !! Z.to_nat c = Some (end_of_file (fat s)) →
  append_cluster c s = Ok (i, set_entries (linked (fat s) c i) s).
Proof.
  intros Hv Hi Hc Ec. destruct (free_range _ _ Hv Hi) as [Hir Ei]. pose proof (fo_eof _ Hv).
  unfold append_cluster. erewrite bind_Ok by reflexivity. erewrite bind_Ok by (rewrite get_free_run by done; by rewrite Hi). cbn [default from_option].
  erewrite bind_Ok by (by apply set_entry_run). rewrite mask_off, Z.lor_0_l by lia. unfold id.
  assert (Hne : Z.to_nat c ≠ Z.to_nat i) by (intros E; rewrite E, Ei in Ec; injection Ec; lia).
  erewrite bind_Ok; [|apply (set_entry_run _ _ 0); simpl; by rewrite list_lookup_insert_ne]. done.
Qed.

Lemma linked_ne v c i j : 0 ≤ j → j ≠ i → j ≠ c → 0 ≤ i → 0 ≤ c → linked v c i !! Z.to_nat j = fat_cache v !! Z.to_nat j.
Proof. intros. unfold linked. rewrite !list_lookup_insert_ne by lia. done. Qed.

Lemma linked_new v c i : 0 ≤ i → 0 ≤ c → fat_cache v !! Z.to_nat i = Some 0 → linked v c i !! Z.to_nat i = Some (end_of_file v).
Proof. intros ?? E. unfold linked. apply list_lookup_insert_eq. rewrite length_insert. by eapply lookup_lt_Some. Qed.

Lemma linked_old v c i e : 0 ≤ i → 0 ≤ c → c ≠ i → fat_cache v !! Z.to_nat c = Some e → linked v c i !! Z.to_nat c = Some i.
Proof. intros ??? E. unfold linked. rewrite list_lookup_insert_ne by lia. apply list_lookup_insert_eq. by eapply lookup_lt_Some. Qed.

Lemma linked_ok v c i : fat_ok v → first_free (fat_cache v) 0 = Some i → 0 ≤ c → fat_ok (with_cache (linked v c i) v).
Proof.
  intros Hv Hi Hc. destruct (free_range _ _ Hv Hi) as [Hir Ei]. destruct Hv as [H1 H2 H3 H4 H5 (e & E0 & He)].
  assert (Hl : length (linked v c i) = length (fat_cache v)) by (unfold linked; by rewrite !length_insert).
  split; simpl; try done; [by rewrite Hl|by rewrite Hl|]. unfold linked.
  destruct (decide (c = 0)) as [->|].
  - exists i. rewrite list_lookup_insert_ne by lia. rewrite (list_lookup_insert_eq (fat_cache v) 0); [split; [done|lia]|by eapply lookup_lt_Some].
  - exists e. rewrite !list_lookup_insert_ne by lia. done.
Qed.

Lemma filter_insert_free (l : list Z) (i : nat) (x : Z) :
  x ≠ 0 → l !! i = Some 0 → S (count_free (<[i := x]> l)) = count_free l.
Proof.
  intros Hx. revert i. induction l as [|e l IH]; intros [|i] E; simpl in E; try done.
  - injection E as ->. unfold count_free. simpl. rewrite !filter_cons. by destruct (decide (x = 0)), (decide (0 = 0)).
  - unfold count_free in *. simpl. rewrite !filter_cons. case_decide; simpl; [f_equal|]; by apply IH.
Qed.

Lemma filter_insert_used (l : list Z) (i : nat) (x y : Z) :
  x ≠ 0 → y ≠ 0 → l !! i = Some y → count_free (<[i := x]> l) = count_free l.
Proof.
  intros Hx Hy. revert i. induction l as [|e l IH]; intros [|i] E; simpl in E; try done.
  - injection E as ->. unfold count_free. simpl. rewrite !filter_cons. by destruct (decide (x = 0)), (decide (y = 0)).
  - unfold count_free in *. simpl. rewrite !filter_cons. case_decide; simpl; [f_equal|]; by apply IH.
Qed.

Lemma linked_free v c i :
  fat_ok v → first_free (fat_cache v) 0 = Some i → 0 ≤ c → fat_cache v !! Z.to_nat c = Some (end_of_file v) →
  S (free_entries (with_cache (linked v c i) v)) = free_entries v.
Proof.
  intros Hv Hi Hc Ec. destruct (free_range _ _ Hv Hi) as [Hir Ei]. pose proof (fo_eof _ Hv). unfold free_entries. simpl. unfold linked.
  assert (Hne : Z.to_nat c ≠ Z.to_nat i) by (intros E; rewrite E, Ei in Ec; injection Ec; lia).
  rewrite filter_insert_free; [|lia|by rewrite list_lookup_insert_ne]. eapply filter_insert_used; [|..|exact Ec]; lia.
Qed.

(** ** Chains and links *)

Lemma chain_range v c cs : fat_ok v → chain v c cs → ∀ k, k ∈ cs → 0 ≤ k < end_of_file v.
Proof.
  intros Hv Hch. pose proof (fo_len _ Hv). induction Hch as [c E Hc|c e cs E Hc _ _ _ IH]; intros k Hk.
  - apply list_elem_of_singleton in Hk as ->. apply lookup_lt_Some in E. lia.
  - apply elem_of_cons in Hk as [->|Hk]; [apply lookup_lt_Some in E; lia|by apply IH].
Qed.

Lemma chain_used v c cs : fat_ok v → chain v c cs → ∀ k, k ∈ cs → fat_cache v !! Z.to_nat k ≠ Some 0.
Proof.
  intros Hv Hch. pose proof (fo_eof _ Hv). induction Hch as [c E Hc|c e cs E Hc H0 Hne Hch IH]; intros k Hk.
  - apply list_elem_of_singleton in Hk as ->. rewrite E. intros [= ?]. lia.
  - apply elem_of_cons in Hk as [->|Hk]; [|by apply IH]. rewrite E. by intros [= ->].
Qed.

(** The cluster of a chain at an index, and the entry it holds. *)
Lemma chain_at v c cs (k : nat) x :
  fat_ok v → chain v c cs → cs !! k = Some x →
  0 ≤ x ∧ ∃ e, fat_cache v !! Z.to_nat x = Some e ∧
    match cs !! S k with Some y => Z.land e FAT_VAL_MASK = y ∧ y ≠ end_of_file v | None => e = end_of_file v end.
Proof.
  intros Hv Hch. revert k. induction Hch as [c E Hc|c e cs E Hc H0 Hne Hch IH]; intros k Ek.
  - destruct k; [|done]. injection Ek as <-. split; [done|]. by exists (end_of_file v).
  - destruct k as [|k]; [|by apply IH]. injection Ek as <-. split; [done|]. exists e. split; [done|].
    assert (∃ cs', cs = Z.land e FAT_VAL_MASK :: cs') as [cs' ->] by (destruct Hch; by eexists). simpl. split; [done|].
    pose proof (chain_range v _ _ Hv Hch (Z.land e FAT_VAL_MASK) ltac:(left)). lia.
Qed.

(** Linking a new cluster behind the last one extends the chain. *)
Lemma chain_linked v c cs l i :
  fat_ok v → chain v c cs → NoDup cs → last cs = Some l → first_free (fat_cache v) 0 = Some i →
  chain (with_cache (linked v l i) v) c (cs ++ [i]) ∧ NoDup (cs ++ [i]).
Proof.
  intros Hv Hch Hnd Hl Hi. destruct (free_range _ _ Hv Hi) as [Hir Ei]. pose proof (fo_eof _ Hv) as Heof.
  assert (Hfresh : ∀ k, k ∈ cs → k ≠ i) by (intros k Hk ->; by apply (chain_used v c cs Hv Hch i Hk)).
  assert (Hlin : l ∈ cs) by (apply last_Some in Hl as [cs' ->]; set_solver).
  pose proof (chain_range v c cs Hv Hch l Hlin) as Hlr.
  split; [|apply NoDup_app; split; [done|]; split; [|apply NoDup_singleton]; by intros k Hk ->%list_elem_of_singleton; apply (Hfresh i)].
  clear Hlin. induction Hch as [c E Hc|c e cs E Hc H0 Hne Hch IH].
  - injection Hl as ->. eapply (chain_next _ l i); simpl; [by eapply linked_old; [lia|done|intros ->; rewrite Ei in E; injection E; lia|exact E]|done|unfold FAT_ENTRY_FREE; lia|lia|].
    rewrite mask_small by lia. apply chain_last; [|lia]. simpl. by apply linked_new; [lia|lia|].
  - assert (∃ y cs', cs = y :: cs') as (y & cs' & Ecs) by (destruct Hch; by eexists _, _). subst cs.
    rewrite last_cons_cons in Hl. apply NoDup_cons in Hnd as [Hc' Hnd].
    assert (c ≠ l). { intros ->. apply Hc'. apply last_Some in Hl as [cs'' ->]. set_solver. }
    eapply (chain_next _ c e); simpl; [|done|done|done|].
    + rewrite linked_ne; [done|done|apply Hfresh; left|done|lia|lia].
    + apply IH; [done|done|]. intros k Hk. apply Hfresh. by right.
Qed.

(** Entries that are in use and not on the chain keep their value. *)
Lemma linked_frame v l i k e :
  fat_ok v → first_free (fat_cache v) 0 = Some i → 0 ≤ l → 0 ≤ k → k ≠ l → fat_cache v !! Z.to_nat k = Some e → e ≠ 0 →
  linked v l i !! Z.to_nat k = Some e.
Proof.
  intros Hv Hi Hl Hk Hkl E He. destruct (free_range _ _ Hv Hi) as [Hir Ei]. rewrite linked_ne; try done; [|lia].
  intros ->. rewrite Ei in E. congruence.
Qed.
