(* ===== verification/Fat32Write.v ===== *)
(** * FAT32: the loop that writes

    One round of the loop of [fat32_write] changes one sector, may append a
    sector to the cache and a cluster to the chain; the whole loop overwrites
    the contents. *)

From S2P Require Import Prelude Cpu Str VfsData Tmpfs Vfs VfsInv VfsPath VfsThm Fat32 Fat32Load FatTable TmpfsProps.

(** ** Growing a chain *)

(** The chain [cs] from [c0] became [cs'] with at most [n] clusters more;
    entries in use outside the chain are as before. *)
Record grown (n : nat) (v v' : fat32_data) (c0 : Z) (cs cs' : list Z) : Prop := mk_grown {
  g_ok : fat_ok v';
  g_chain : chain v' c0 cs';
  g_nodup : NoDup cs';
  g_prefix : cs `prefix_of` cs';
  g_new k : k ∈ cs' → k ∈ cs ∨ fat_cache v !! Z.to_nat k = Some 0;
  g_frame k e : 0 ≤ k → fat_cache v !! Z.to_nat k = Some e → e ≠ 0 → k ∉ cs → fat_cache v' !! Z.to_nat k = Some e;
  g_len : length (fat_cache v') = length (fat_cache v);
  g_geom : v' = with_cache (fat_cache v') v;
  g_free : (free_entries v ≤ free_entries v' + n)%nat;
}.

Lemma with_cache_id v : v = with_cache (fat_cache v) v.
Proof. by destruct v. Qed.

Lemma grown_refl v c0 cs : fat_ok v → chain v c0 cs → NoDup cs → grown 0 v v c0 cs cs.
Proof. intros. split; try done; [by left|apply with_cache_id|lia]. Qed.

Lemma grown_trans n1 n2 v v1 v2 c0 cs cs1 cs2 :
  grown n1 v v1 c0 cs cs1 → grown n2 v1 v2 c0 cs1 cs2 → grown (n1 + n2) v v2 c0 cs cs2.
Proof.
  intros [A1 A2 A3 A4 A5 A6 A7 A8 A9] [B1 B2 B3 B4 B5 B6 B7 B8 B9].
  assert (Hin : ∀ k, k ∈ cs2 → k ∈ cs ∨ fat_cache v !! Z.to_nat k = Some 0).
  { intros k Hk. destruct (B5 k Hk) as [Hk1|E1]; [by apply A5|]. destruct (decide (k ∈ cs)) as [|Hn]; [by left|right].
    destruct (lookup_lt_is_Some_2 (fat_cache v) (Z.to_nat k)) as [e E]; [rewrite <- A7; by eapply lookup_lt_Some|].
    destruct (decide (e = 0)) as [->|He]; [done|]. pose proof (chain_range v2 c0 cs2 B1 B2 k Hk).
    rewrite (A6 k e ltac:(lia) E He Hn) in E1. congruence. }
  split; try done; [by trans cs1| | |rewrite B8, A8; by destruct v|lia].
  - intros k e Hk E He Hn. apply B6; [done|by apply A6|done|]. intros Hk1. destruct (A5 k Hk1) as [|E0]; [done|congruence].
  - by rewrite B7.
Qed.

Lemma grown_linked v c0 cs l i :
  fat_ok v → chain v c0 cs → NoDup cs → last cs = Some l → first_free (fat_cache v) 0 = Some i →
  grown 1 v (with_cache (linked v l i) v) c0 cs (cs ++ [i]).
Proof.
  intros Hv Hch Hnd Hl Hi. destruct (free_range _ _ Hv Hi) as [Hir Ei].
  assert (Hlin : l ∈ cs) by (apply last_Some in Hl as [cs' ->]; set_solver). pose proof (chain_range v c0 cs Hv Hch l Hlin).
  assert (El : fat_cache v !! Z.to_nat l = Some (end_of_file v)).
  { rewrite last_lookup in Hl. destruct (chain_at v c0 cs _ l Hv Hch Hl) as (_ & e & Ee & Hm).
    rewrite lookup_ge_None_2 in Hm by (destruct cs; simpl in *; [done|lia]). by rewrite <- Hm. }
  destruct (chain_linked v c0 cs l i Hv Hch Hnd Hl Hi) as [H1 H2].
  split; simpl; try done.
  - apply linked_ok; [done|done|lia].
  - by apply prefix_app_r.
  - intros k [Hk| ->%list_elem_of_singleton]%elem_of_app; [by left|by right].
  - intros k e Hk E He Hn. apply linked_frame; try done; [lia|]. by intros ->.
  - unfold linked. by rewrite !length_insert.
  - pose proof (linked_free v l i Hv Hi ltac:(lia) El). lia.
Qed.

Section Write.
Context `{!FsHeap}.
Implicit Types s : fs.

Lemma wp_fat_entry s c e (Q : Z → fs → Prop) : fat_cache (fat s) !! Z.to_nat c = Some e → Q e s → wp (get_fat_entry c) Q s.
Proof. intros E HQ. unfold get_fat_entry. wp_step. apply wp_vol. by apply (wp_deref _ e). Qed.

(** The cluster of the sector after [k]. *)
Lemma wp_next_cluster s c0 cs (k : Z) clus (Q : Z → fs → Prop) :
  fat_ok (fat s) → chain (fat s) c0 cs → NoDup cs → 0 ≤ k → cs !! Z.to_nat (k / BPB_SecPerClus (fat s)) = Some clus → (1 ≤ free_entries (fat s))%nat →
  (∀ v cs' clus', grown 1 (fat s) v c0 cs cs' → cs' !! Z.to_nat ((k + 1) / BPB_SecPerClus (fat s)) = Some clus' → Q clus' (set_fat v s)) →
  wp (next_cluster (k + 1) clus) Q s.
Proof.
  intros Hv Hch Hnd Hk Ec Hfree HQ. pose proof (fo_spc _ Hv) as Hspc. pose proof (fo_eof _ Hv) as Heof. set (spc := BPB_SecPerClus (fat s)) in *.
  unfold next_cluster. wp_step. apply wp_vol. fold spc. wp_step. apply wp_assert; [lia|]. rewrite Z.rem_mod_nonneg by lia.
  assert (Hself : ∀ v, v = fat s → set_fat v s = s) by (intros v ->; by destruct s).
  assert (Hgr : grown 1 (fat s) (fat s) c0 cs cs) by (destruct (grown_refl (fat s) c0 cs Hv Hch Hnd); split; (done || lia)).
  pose proof (Z.div_mod (k + 1) spc ltac:(lia)) as Hdm1. pose proof (Z.mod_pos_bound (k + 1) spc ltac:(lia)).
  pose proof (Z.div_mod k spc ltac:(lia)) as Hdm. pose proof (Z.mod_pos_bound k spc ltac:(lia)). pose proof (Z.div_pos k spc ltac:(lia) ltac:(lia)).
  destruct (Z.eqb_spec ((k + 1) mod spc) 0) as [E0|E0].
  - assert (Ek : (k + 1) / spc = k / spc + 1) by nia. rewrite Ek, Z2Nat.inj_add in HQ by lia. change (Z.to_nat 1) with 1%nat in HQ. rewrite Nat.add_1_r in HQ.
    destruct (chain_at (fat s) c0 cs _ clus Hv Hch Ec) as (Hc0 & e & Ee & Hm). wp_step. apply (wp_fat_entry s clus e); [done|].
    destruct (cs !! S (Z.to_nat (k / spc))) as [y|] eqn:Ey.
    + destruct Hm as [Em Hne]. rewrite Em. apply Z.eqb_neq in Hne. rewrite Hne. wp_step. rewrite <- (Hself (fat s) eq_refl). by eapply HQ.
    + subst e. rewrite mask_small, Z.eqb_refl by lia.
      destruct (first_free_is_Some (fat_cache (fat s)) 0) as [i Hi]; [exact Hfree|].
      apply (wp_eq _ _ _ _ _ (append_cluster_run s clus i Hv Hi Hc0 Ee)).
      assert (Hlen : length cs = S (Z.to_nat (k / spc))) by (apply lookup_ge_None in Ey; apply lookup_lt_Some in Ec; lia).
      assert (Hlast : last cs = Some clus) by (by rewrite last_lookup, Hlen).
      apply (HQ _ (cs ++ [i])); [by apply grown_linked|]. rewrite lookup_app_r by lia. by rewrite Hlen, Nat.sub_diag.
  - assert (Ek : (k + 1) / spc = k / spc).
    { symmetry. apply (Z.div_unique_pos _ _ _ (k mod spc + 1)); [|lia]. split; [lia|].
      destruct (Z.eq_dec (k mod spc + 1) spc) as [Es|]; [|lia]. exfalso. apply E0.
      replace (k + 1) with ((k / spc + 1) * spc) by lia. apply Z.mod_mul; lia. }
    wp_step. rewrite <- (Hself (fat s) eq_refl). apply (HQ _ cs); [done|]. by rewrite Ek.
Qed.

(** ** One sector *)

Lemma concat_splice ls (k : nat) l (o : Z) b :
  Forall sector ls → ls !! k = Some l → 0 ≤ o → (Z.to_nat o + length b ≤ SEC)%nat →
  concat (<[k := splice o b l]> ls) = overwrite (concat ls) (SEC * k + Z.to_nat o) b.
Proof.
  intros Hls El Ho Hb. pose proof (Forall_lookup_1 _ _ _ _ Hls El) as Hl. red in Hl.
  assert (Hk : (k < length ls)%nat) by by eapply lookup_lt_Some.
  assert (HA : length (concat (take k ls)) = (SEC * k)%nat).
  { rewrite length_concat_sectors by by apply Forall_take. rewrite length_take. f_equal. lia. }
  rewrite insert_take_drop, concat_app by done. cbn [concat].
  rewrite <- (take_drop_middle _ _ _ El) at 3. rewrite concat_app. cbn [concat]. unfold overwrite.
  set (A := concat (take k ls)) in *. set (B := concat (drop (S k) ls)).
  rewrite take_app_ge by lia. rewrite drop_app_ge by lia. rewrite HA.
  replace (SEC * k + Z.to_nat o - SEC * k)%nat with (Z.to_nat o) by lia.
  replace (SEC * k + Z.to_nat o + length b - SEC * k)%nat with (Z.to_nat o + length b)%nat by lia.
  rewrite take_app_le, drop_app_le by (rewrite Hl; lia). unfold splice. by rewrite <- !app_assoc.
Qed.

Lemma length_splice o b l : 0 ≤ o → (Z.to_nat o + length b ≤ length l)%nat → length (splice o b l) = length l.
Proof. intros. unfold splice. rewrite !length_app, length_take, length_drop. lia. Qed.

(** The state after [b] was stored at the position, in the sector [a]. *)
Definition stored s p f (x : vnode) a l b : fs :=
  let sz := Z.of_nat (length b) in
  set_vnodes (<[fl_vnode f := with_size (Z.max (file_size x) (f_pos f + sz)) x]> (vnodes s))
    (advance (set_blocks (<[a := splice (f_pos f mod 512) b l]> (blocks s)) s) p f sz).

Lemma cached_insert s md m ls (k : nat) a l' :
  cached s md m ls → content_cache m !! k = Some a → sector l' →
  cached (set_blocks (<[a := l']> (blocks s)) s) md m (<[k := l']> ls).
Proof.
  intros [C1 C2 C3 C4] Ea Hl. split; [done| |by apply Forall_insert|done].
  apply Forall2_same_length_lookup. split; [rewrite length_insert; by eapply Forall2_length|].
  intros j a' l'' Ea' El'. simpl. destruct (decide (j = k)) as [->|Hne].
  - rewrite Ea in Ea'. injection Ea' as <-. rewrite list_lookup_insert_eq in El'.
    + injection El' as <-. apply lookup_insert_eq.
    + rewrite <- (Forall2_length _ _ _ C2). by eapply lookup_lt_Some.
  - rewrite list_lookup_insert_ne in El' by done. assert (a ≠ a') by (intros <-; apply Hne; by eapply NoDup_lookup).
    rewrite lookup_insert_ne by done. by eapply (Forall2_lookup_lr _ _ _ _ _ _ C2).
Qed.

Lemma stored_file s p f x md m ls a l b :
  fat_file s p f x md m ls → 0 ≤ f_pos f ≤ file_size x → content_cache m !! Z.to_nat (f_pos f / 512) = Some a →
  ls !! Z.to_nat (f_pos f / 512) = Some l → f_pos f mod 512 + Z.of_nat (length b) ≤ 512 →
  let x' := with_size (Z.max (file_size x) (f_pos f + Z.of_nat (length b))) x in
  let ls' := <[Z.to_nat (f_pos f / 512) := splice (f_pos f mod 512) b l]> ls in
  fat_file (stored s p f x a l b) p (with_pos (f_pos f + Z.of_nat (length b)) f) x' md m ls' ∧
  contents x' ls' = overwrite (contents x ls) (Z.to_nat (f_pos f)) b.
Proof.
  intros [F1 F2 F3 F4 F5 F6 F7] Hp Ea El Hb. cbv zeta. pose proof (Forall_lookup_1 _ _ _ _ (cd_full _ _ _ _ F4) El) as Hl. red in Hl.
  pose proof (Z.mod_pos_bound (f_pos f) 512 ltac:(lia)). pose proof (Z.div_mod (f_pos f) 512 ltac:(lia)).
  pose proof (Z.div_pos (f_pos f) 512 ltac:(lia) ltac:(lia)). assert (Hk : (Z.to_nat (f_pos f / 512) < length ls)%nat) by by eapply lookup_lt_Some.
  assert (Hspl : length (splice (f_pos f mod 512) b l) = SEC) by (rewrite length_splice; [done|lia|unfold SEC in *; lia]).
  split.
  - split; simpl; try (rewrite ?length_insert; done).
    + by rewrite lookup_insert_eq.
    + by rewrite lookup_insert_eq.
    + pose proof (cached_insert s md m ls _ a _ F4 Ea Hspl) as [C1 C2 C3 C4]. by split.
    + rewrite length_insert. lia.
  - unfold contents. cbn [file_size with_size]. rewrite concat_splice; [|apply F4|done|lia|unfold SEC; lia].
    replace (SEC * Z.to_nat (f_pos f / 512) + Z.to_nat (f_pos f mod 512))%nat with (Z.to_nat (f_pos f)) by (unfold SEC; lia).
    rewrite <- overwrite_take; [f_equal; lia|lia|]. rewrite length_concat_sectors by apply F4. unfold SEC. lia.
Qed.

Lemma contents_more x ls l : file_size x ≤ 512 * Z.of_nat (length ls) → Forall sector ls → contents x (ls ++ [l]) = contents x ls.
Proof.
  intros Hs Hls. unfold contents. rewrite concat_app. apply take_app_le. rewrite length_concat_sectors by done. unfold SEC. lia.
Qed.

(** What the loop leaves alone. *)
Record kept (s s' : fs) (p node md : Z) (secs : list Z) : Prop := mk_kept {
  k_files q : q ≠ p → files s' !! q = files s !! q;
  k_vnodes q : q ≠ node → vnodes s' !! q = vnodes s !! q;
  k_fdatas q : q ≠ md → f_datas s' !! q = f_datas s !! q;
  k_blocks q : q ∈ heap s → q ∉ secs → blocks s' !! q = blocks s !! q;
  k_heap : heap s ⊆ heap s';
  k_rest : f_cpu s' = f_cpu s ∧ sd s' = sd s ∧ fopss s' = fopss s ∧ mounts s' = mounts s ∧ vopss s' = vopss s;
}.

Lemma file_kept_refl s p node md secs : kept s s p node md secs.
Proof. by split. Qed.

Lemma file_kept_trans s s1 s2 p node md secs secs1 :
  kept s s1 p node md secs → kept s1 s2 p node md secs1 → (∀ a, a ∈ secs1 → a ∈ secs ∨ a ∉ heap s) → kept s s2 p node md secs.
Proof.
  intros [A1 A2 A3 A4 A5 (A6 & A7 & A8 & A9 & A10)] [B1 B2 B3 B4 B5 (B6 & B7 & B8 & B9 & B10)] Hs. split.
  - intros q Hq. by rewrite B1, A1.
  - intros q Hq. by rewrite B2, A2.
  - intros q Hq. by rewrite B3, A3.
  - intros q Hq Hn. rewrite B4, A4; [done|done|done|set_solver|]. intros Hq1. by destruct (Hs q Hq1).
  - set_solver.
  - by rewrite B6, B7, B8, B9, B10.
Qed.

Lemma stored_kept s p f x md m ls a l b :
  fat_file s p f x md m ls → a ∈ content_cache m → kept s (stored s p f x a l b) p (fl_vnode f) md (content_cache m).
Proof.
  intros Hf Ha. split; simpl; try done; intros q Hq; try by rewrite lookup_insert_ne.
  intros Hn. rewrite lookup_insert_ne; [done|]. by intros <-.
Qed.

Lemma load_one_kept s p node md m blk secs : fs_room s 1 → kept s (load_one s md m blk) p node md secs.
Proof.
  intros Hr. destruct (room_addr s Hr) as [_ Hn]. split; simpl; try done.
  - intros q Hq. by rewrite lookup_insert_ne.
  - intros q Hq _. rewrite lookup_insert_ne; [done|]. by intros <-.
  - set_solver.
Qed.

Lemma set_fat_kept s v p node md secs : kept s (set_fat v s) p node md secs.
Proof. by split. Qed.
End Write.

Section Loop.
Context `{!FsHeap}.
Implicit Types s : fs.

(** A cached file whose chain [cs] has room for its sectors. *)
Record writing s p f x md m ls cs : Prop := mk_writing {
  wr_file : fat_file s p f x md m ls;
  wr_heap : blocks_in_heap s;
  wr_fat : fat_ok (fat s);
  wr_chain : chain (fat s) (clus_idx m) cs;
  wr_nodup : NoDup cs;
  wr_cap : Z.of_nat (length ls) ≤ BPB_SecPerClus (fat s) * Z.of_nat (length cs);
}.

(** Sectors of the file that were cached later are new objects. *)
Definition newer s (m m' : fat32_f_data) : Prop := ∀ a, a ∈ content_cache m' → a ∈ content_cache m ∨ a ∉ heap s.

(** What several rounds do: [b] is written at the position of [f]. *)
Record wrote (n : nat) s s' p f x md m ls cs x' m' ls' cs' (b : list Z) : Prop := mk_wrote {
  wo_writing : writing s' p (with_pos (f_pos f + Z.of_nat (length b)) f) x' md m' ls' cs';
  wo_contents : contents x' ls' = overwrite (contents x ls) (Z.to_nat (f_pos f)) b;
  wo_node : x' = with_size (Z.max (file_size x) (f_pos f + Z.of_nat (length b))) x;
  wo_meta : clus_idx m' = clus_idx m ∧ dirty m' = dirty m;
  wo_newer : newer s m m';
  wo_kept : kept s s' p (fl_vnode f) md (content_cache m);
  wo_grown : grown n (fat s) (fat s') (clus_idx m) cs cs';
}.

Lemma overwrite_twice (c : list Z) (pos : nat) b1 b2 :
  (pos ≤ length c)%nat → overwrite (overwrite c pos b1) (pos + length b1) b2 = overwrite c pos (b1 ++ b2).
Proof.
  intros Hp. unfold overwrite. rewrite length_app.
  assert (H1 : length (take pos c) = pos) by (rewrite length_take; lia).
  rewrite (app_assoc (take pos c) b1), take_app_length' by (rewrite length_app, H1; done).
  rewrite drop_app_ge by (rewrite length_app, H1; lia). rewrite length_app, H1, drop_drop, <- !app_assoc.
  do 4 f_equal. lia.
Qed.

Lemma wrote_trans n1 n2 s s1 s2 p f x md m ls cs x1 m1 ls1 cs1 x2 m2 ls2 cs2 b1 b2 :
  0 ≤ f_pos f → (Z.to_nat (f_pos f) ≤ length (contents x ls))%nat →
  wrote n1 s s1 p f x md m ls cs x1 m1 ls1 cs1 b1 →
  wrote n2 s1 s2 p (with_pos (f_pos f + Z.of_nat (length b1)) f) x1 md m1 ls1 cs1 x2 m2 ls2 cs2 b2 →
  wrote (n1 + n2) s s2 p f x md m ls cs x2 m2 ls2 cs2 (b1 ++ b2).
Proof.
  intros Hp Hlen [A1 A2 A3 [A4 A5] A6 A7 A8] [B1 B2 B3 [B4 B5] B6 B7 B8]. cbn [f_pos with_pos fl_vnode] in *.
  split.
  - rewrite length_app, Nat2Z.inj_add, Z.add_assoc. exact B1.
  - rewrite B2, A2. rewrite Z2Nat.inj_add, Nat2Z.id by lia. by apply overwrite_twice.
  - rewrite B3, A3, length_app, Nat2Z.inj_add. unfold with_size. cbn. f_equal. lia.
  - by rewrite B4, B5.
  - intros a Ha. destruct (B6 a Ha) as [H1|H1]; [by apply A6|]. right. intros Hq. apply H1. by apply (k_heap _ _ _ _ _ _ A7).
  - by eapply file_kept_trans.
  - rewrite A4 in B8. by eapply grown_trans.
Qed.

(** The sector appended when more is to be written. *)
Lemma wp_maybe_append s p f x md m ls r c (Q : unit → fs → Prop) :
  fat_file s p f x md m ls → blocks_in_heap s → fs_room s (S r) → (c = true → 512 * (Z.of_nat (length ls) + 1) < 2 ^ 31) →
  (∀ s' m' ls', fat_file s' p f x md m' ls' → blocks_in_heap s' → fs_room s' r → fat s' = fat s →
    contents x ls' = contents x ls → kept s s' p (fl_vnode f) md (content_cache m) → newer s m m' →
    clus_idx m' = clus_idx m → dirty m' = dirty m → length ls' = (length ls + if c then 1 else 0)%nat → Q tt s') →
  wp (if (c : bool) then add_new_cache_sec md ;; mret tt else mret tt) Q s.
Proof.
  intros Hf Hh Hr Hb HQ. destruct c; wp_step.
  - assert (Hr1 : fs_room s 1) by (eapply room_weaken; [|exact Hr]; lia).
    apply (wp_add_sec s md m); [apply Hf|done|apply Hf|]. wp_step. destruct Hf as [F1 F2 F3 F4 F5 F6 F7].
    assert (Hz : sector (replicate 512 0)) by apply length_replicate.
    pose proof (load_one_cached s md m ls (replicate 512 0) F4 Hh Hr1 Hz) as Hc.
    apply (HQ _ (one_more s m) (ls ++ [replicate 512 0])); try done.
    + split; try done; rewrite length_app; cbn [length]; specialize (Hb eq_refl); lia.
    + by apply load_one_in_heap.
    + by apply room_one.
    + apply contents_more; [lia|apply F4].
    + by apply load_one_kept.
    + destruct (room_addr s Hr1) as [_ Hn]. intros a [Ha| ->%list_elem_of_singleton]%elem_of_app; [by left|by right].
    + rewrite length_app. done.
  - apply (HQ s m ls); try done; [eapply room_weaken; [|exact Hr]; lia|by left].
Qed.

(** Where the next round writes. *)
Definition at_sector s f (ls : list (list Z)) (cs : list Z) (k clus : Z) : Prop :=
  k = f_pos f / 512 ∧ f_pos f < 512 * Z.of_nat (length ls) ∧ cs !! Z.to_nat (k / BPB_SecPerClus (fat s)) = Some clus.

Lemma writing_append s s' p f0 x0 f x md m ls cs m' ls' v cs' :
  writing s p f0 x0 md m ls cs → fat_file s' p f x md m' ls' → blocks_in_heap s' → fat s' = fat s → clus_idx m' = clus_idx m →
  grown 1 (fat s) v (clus_idx m) cs cs' → Z.of_nat (length ls') ≤ BPB_SecPerClus (fat s) * Z.of_nat (length cs') →
  writing (set_fat v s') p f x md m' ls' cs'.
Proof.
  intros [W1 W2 W3 W4 W5 W6] [F1 F2 F3 [C1 C2 C3 C4] F5 F6 F7] Hh Efat Em [G1 G2 G3 G4 G5 G6 G7 G8 G9] Hcap.
  split; [|done|done|by rewrite Em|done|simpl; by rewrite G8].
  split; try done. simpl. rewrite G8. simpl. by rewrite <- Efat.
Qed.

Lemma cap_next (n n' : nat) k spc (c c' : nat) :
  0 ≤ k → 0 < spc → (Z.to_nat ((k + 1) / spc) < c')%nat → (c ≤ c')%nat → Z.of_nat n ≤ spc * Z.of_nat c → n' = n ∨ Z.of_nat n' = k + 2 →
  Z.of_nat n' ≤ spc * Z.of_nat c'.
Proof.
  intros Hk Hs Hc Hcc Hn [->|E]; [nia|].
  pose proof (Z.div_mod (k + 1) spc ltac:(lia)). pose proof (Z.mod_pos_bound (k + 1) spc Hs). pose proof (Z.div_pos (k + 1) spc ltac:(lia) Hs). nia.
Qed.

(** One round of the loop. *)
Lemma wp_write_round fuel p md buf len w s f x m ls cs clus r (Q : Z → fs → Prop) :
  writing s p f x md m ls cs → 0 ≤ f_pos f ≤ file_size x → 0 ≤ w < len → len = Z.of_nat (length buf) →
  at_sector s f ls cs (f_pos f / 512) clus → fs_room s (S r) → (1 ≤ free_entries (fat s))%nat → f_pos f + (len - w) + 1024 < 2 ^ 31 →
  let sz := Z.min (len - w) (512 - f_pos f mod 512) in
  (∀ s' x' m' ls' cs' clus', wrote 1 s s' p f x md m ls cs x' m' ls' cs' (slice w sz buf) → fs_room s' r →
    (w + sz < len → at_sector s' (with_pos (f_pos f + sz) f) ls' cs' (f_pos f / 512 + 1) clus') →
    wp (write_loop fuel p (fl_vnode f) md buf len (f_pos f / 512 + 1) (f_pos f / 512 + 1) clus' (w + sz)) Q s') →
  wp (write_loop (S fuel) p (fl_vnode f) md buf len (f_pos f / 512) (f_pos f / 512) clus w) Q s.
Proof.
  intros Hw Hp Hwl Hlen (_ & Hin & Ecl) Hr Hfree Hbd sz HQ. pose proof (wr_file _ _ _ _ _ _ _ _ Hw) as Hf.
  destruct (sector_at s p f x md m ls (f_pos f) Hf) as (a & l & Ea & El & Eb & Hl & Ho & Hdiv); [lia|].
  set (k := f_pos f / 512) in *. set (o := f_pos f mod 512) in *.
  assert (Hk : 0 ≤ k) by (apply Z.div_pos; lia). assert (Hsz : 0 < sz ≤ 512 - o ∧ sz ≤ len - w) by (unfold sz; lia).
  set (b := slice w sz buf). assert (Hb : Z.of_nat (length b) = sz) by (unfold b, slice; rewrite length_take, length_drop; lia).
  cbn [write_loop]. destruct (Z.ltb_spec w len); [|lia].
  wp_step. apply wp_vol. wp_step. apply (wp_file_get _ f); [apply Hf|]. wp_step. apply (wp_fdata_get _ m); [apply Hf|].
  wp_step. apply (wp_deref _ a); [done|]. cbv zeta. rewrite (ff_vol _ _ _ _ _ _ _ Hf). fold o. unfold BLK_SZ.
  rewrite (u64_id (512 - o)) by lia. fold sz. wp_step. apply wp_assert; [lia|]. fold b.
  wp_step. apply (wp_poke a l); [done|lia|lia|]. rewrite u64_id by lia.
  wp_step. apply (wp_file_upd _ f); [apply Hf|]. wp_step. eapply wp_file_get; [apply lookup_insert_eq|].
  wp_step. apply (wp_vnode_get _ x); [apply Hf|]. cbn [f_pos with_pos].
  set (x1 := with_size (Z.max (file_size x) (f_pos f + sz)) x).
  wp_step. match goal with |- wp ?mm ?QQ ?ss => enough (QQ tt (stored s p f x a l b)) as HS end.
  { unfold stored, advance in HS. fold o in HS. rewrite Hb in HS. destruct (Z.ltb_spec (file_size x) (f_pos f + sz)).
    - apply (wp_vnode_upd _ x); [apply Hf|]. rewrite Z.max_r in HS by lia. exact HS.
    - wp_step. rewrite Z.max_l, with_size_id, insert_id in HS by (lia || apply Hf). exact HS. }
  destruct (stored_file s p f x md m ls a l b Hf Hp Ea El) as [Hf1 Hc1]; [fold o; lia|]. rewrite Hb in Hf1, Hc1. fold x1 in Hf1, Hc1.
  set (ls1 := <[Z.to_nat (f_pos f / 512) := splice (f_pos f mod 512) b l]> ls) in *.
  assert (Hls1 : length ls1 = length ls) by apply length_insert.
  pose proof (stored_kept s p f x md m ls a l b Hf (list_elem_of_lookup_2 _ _ _ Ea)) as Hk1.
  assert (Hh1 : blocks_in_heap (stored s p f x a l b)).
  { intros q. simpl. destruct (decide (q = a)) as [->|]; [intros _; apply Hw; by rewrite Eb|rewrite lookup_insert_ne by done; apply Hw]. }
  rewrite (cached_length _ _ _ _ (ff_cached _ _ _ _ _ _ _ Hf)).
  wp_step. eapply (wp_maybe_append _ _ _ _ _ _ _ r); [exact Hf1|exact Hh1|exact Hr|intros (_ & E%Z.eqb_eq)%andb_true_iff; lia|].
  intros s2 m2 ls2 Hf2 Hh2 Hr2 Efat2 Hc2 Hk2 Hn2 Em2 Ed2 Hl2. rewrite Hls1 in Hl2.
  change (fat (stored s p f x a l b)) with (fat s) in Efat2.
  assert (Eu : u32 (k + 1) = k + 1) by (apply Z.mod_small; lia). rewrite Eu.
  wp_step. apply (wp_next_cluster s2 (clus_idx m) cs); [rewrite Efat2; apply Hw|rewrite Efat2; apply Hw|apply Hw|done|by rewrite Efat2|by rewrite Efat2|].
  rewrite Efat2. intros v cs' clus' Hg Ecl'. pose proof (fo_spc _ (wr_fat _ _ _ _ _ _ _ _ Hw)) as Hspc.
  apply (HQ _ x1 m2 ls2 cs' clus'); [|exact Hr2|].
  - split; fold b; rewrite ?Hb; try done.
    + apply (writing_append s s2 p f x _ _ md m ls cs); [exact Hw|exact Hf2|exact Hh2|exact Efat2|exact Em2|exact Hg|]. apply lookup_lt_Some in Ecl'.
      pose proof (prefix_length _ _ (g_prefix _ _ _ _ _ _ Hg)). pose proof (wr_cap _ _ _ _ _ _ _ _ Hw). rewrite Hl2.
      apply (cap_next (length ls) _ k _ (length cs)); [lia|lia|done|lia|lia|].
      destruct ((w + sz <? len) && (k + 1 =? Z.of_nat (length ls))) eqn:E; [|by left].
      apply andb_true_iff in E as [_ E%Z.eqb_eq]. right. lia.
    + by rewrite Hc2, Hc1.
    + eapply file_kept_trans; [|apply (set_fat_kept s2 v p (fl_vnode f) md [])|by intros ? ?%not_elem_of_nil].
      by eapply file_kept_trans; [exact Hk1|exact Hk2|by left].
  - intros Hmore. assert (sz = 512 - o) as Esz by lia. unfold at_sector. cbn [f_pos with_pos]. split; [|split].
    + rewrite Esz. apply (Z.div_unique_pos _ _ _ 0); lia.
    + rewrite Hl2. destruct (Z.ltb_spec (w + sz) len); [|lia]. cbn [andb]. destruct (Z.eqb_spec (k + 1) (Z.of_nat (length ls))); lia.
    + cbn [f_pos with_pos fat set_fat]. by rewrite (g_geom _ _ _ _ _ _ Hg).
Qed.

Lemma length_contents x ls :
  0 ≤ file_size x ≤ 512 * Z.of_nat (length ls) → Forall sector ls → length (contents x ls) = Z.to_nat (file_size x).
Proof. intros Hs Hls. unfold contents. rewrite length_take, length_concat_sectors by done. unfold SEC. lia. Qed.

Lemma slice_all w (buf : list Z) : 0 ≤ w → slice w (Z.of_nat (length buf) - w) buf = drop (Z.to_nat w) buf.
Proof. intros. unfold slice. apply take_ge. rewrite length_drop. lia. Qed.

Lemma slice_split w n (buf : list Z) : 0 ≤ w → 0 ≤ n → slice w n buf ++ drop (Z.to_nat (w + n)) buf = drop (Z.to_nat w) buf.
Proof. intros. unfold slice. rewrite Z2Nat.inj_add, <- drop_drop by lia. apply take_drop. Qed.

Lemma wrote_nothing s p f x md m ls cs :
  writing s p f x md m ls cs → 0 ≤ f_pos f ≤ file_size x → wrote 0 s s p f x md m ls cs x m ls cs [].
Proof.
  intros Hw Hp. pose proof (wr_file _ _ _ _ _ _ _ _ Hw) as Hf. pose proof (ff_size _ _ _ _ _ _ _ Hf).
  split; simpl; try done.
  - rewrite Z.add_0_r. by destruct f.
  - unfold overwrite. cbn [app length]. by rewrite Nat.add_0_r, take_drop.
  - rewrite Z.add_0_r, Z.max_l, with_size_id by lia. done.
  - by left.
  - apply grown_refl; apply Hw.
Qed.

(** The loop writes the rest of the buffer. *)
Lemma wp_write_loop fuel p md buf len k w rounds s f x m ls cs clus :
  writing s p f x md m ls cs → 0 ≤ f_pos f ≤ file_size x → 0 ≤ w ≤ len → len = Z.of_nat (length buf) → len - w ≤ Z.of_nat fuel →
  (w < len → at_sector s f ls cs k clus) → fs_room s rounds → (rounds ≤ free_entries (fat s))%nat →
  (w < len → f_pos f mod 512 + (len - w) ≤ 512 * Z.of_nat rounds) → f_pos f + (len - w) + 1024 < 2 ^ 31 →
  wp (write_loop fuel p (fl_vnode f) md buf len k k clus w)
    (λ r t, r = len ∧ ∃ n x' m' ls' cs', (n ≤ rounds)%nat ∧ wrote n s t p f x md m ls cs x' m' ls' cs' (drop (Z.to_nat w) buf)) s.
Proof.
  revert k w rounds s f x m ls cs clus. induction fuel as [|fuel IH]; intros k w rounds s f x m ls cs clus Hw Hp Hwl Hlen Hfuel Hat Hr Hfree Hrd Hbd.
  all: destruct (decide (w = len)) as [->|Hne]; [|destruct (Hat ltac:(lia)) as (-> & Hin & Ecl)].
  1, 3: cbn [write_loop]; destruct (Z.ltb_spec len len); [lia|]; wp_step; split; [done|];
    exists 0%nat, x, m, ls, cs; split; [lia|]; rewrite Hlen, drop_ge by lia; by apply wrote_nothing.
  { lia. }
  pose proof (Z.mod_pos_bound (f_pos f) 512 ltac:(lia)) as Ho.
  destruct rounds as [|rounds]; [lia|].
  apply (wp_write_round fuel p md buf len w s f x m ls cs clus rounds); [done|done|lia|done|by split|done|lia|lia|].
  set (sz := Z.min (len - w) (512 - f_pos f mod 512)). intros s' x' m' ls' cs' clus' Hwr Hr' Hat'.
  assert (Hb : Z.of_nat (length (slice w sz buf)) = sz) by (unfold slice; rewrite length_take, length_drop; lia).
  pose proof (wo_writing _ _ _ _ _ _ _ _ _ _ _ _ _ _ _ Hwr) as Hw'. rewrite Hb in Hw'. pose proof (wo_node _ _ _ _ _ _ _ _ _ _ _ _ _ _ _ Hwr) as Ex'. rewrite Hb in Ex'.
  pose proof (g_free _ _ _ _ _ _ (wo_grown _ _ _ _ _ _ _ _ _ _ _ _ _ _ _ Hwr)) as Hg.
  pose proof (Z.div_mod (f_pos f) 512 ltac:(lia)) as Hdm.
  eapply wp_mono; [eapply (IH (f_pos f / 512 + 1) (w + sz) rounds s' (with_pos (f_pos f + sz) f) x' m' ls' cs' clus')|]; cbn [f_pos with_pos fl_vnode].
  - exact Hw'.
  - rewrite Ex'. cbn [file_size with_size]. lia.
  - lia.
  - done.
  - lia.
  - exact Hat'.
  - exact Hr'.
  - lia.
  - intros Hmore. assert (sz = 512 - f_pos f mod 512) as Esz by lia. assert ((f_pos f + sz) mod 512 = 0); [|lia].
    replace (f_pos f + sz) with ((f_pos f / 512 + 1) * 512) by lia. apply Z.mod_mul. lia.
  - lia.
  - intros r t (-> & n & x2 & m2 & ls2 & cs2 & Hn & Hwr2). split; [done|]. exists (1 + n)%nat, x2, m2, ls2, cs2. split; [lia|].
    rewrite <- (slice_split w sz buf) by lia. pose proof (wr_file _ _ _ _ _ _ _ _ Hw) as Hf. pose proof (ff_size _ _ _ _ _ _ _ Hf).
    eapply wrote_trans; [lia| |exact Hwr|by rewrite Hb].
    rewrite length_contents; [lia|done|apply Hf].
Qed.
End Loop.
