(* ===== verification/Fat32Dir.v ===== *)
(** * FAT32: looking up a directory entry

    The entry of a file is found by its first cluster. *)

From S2P Require Import Prelude Cpu Str VfsData Tmpfs Vfs VfsInv VfsPath VfsThm Fat32 Fat32Load FatTable Fat32Write TmpfsProps.

(** The entry at offset [d] of a sector names the cluster [target]. *)
Definition entry_is (target : Z) (l : list Z) (d : Z) : bool :=
  negb (of_le (slice (d + 11) 1 l) =? ATTR_LONG_NAME) &&
  (u32 (u32 (Z.shiftl (of_le (slice (d + 20) 2 l)) 16) + of_le (slice (d + 26) 2 l)) =? target).

(** The first entry for [target]: the sector's address and the offset. *)
Fixpoint find_entry (offs : list Z) (target : Z) (secs : list Z) (ls : list (list Z)) : option (Z * Z) :=
  match secs, ls with
  | a :: secs', l :: ls' =>
      match List.find (entry_is target l) offs with
      | Some d => Some (a, d)
      | None => find_entry offs target secs' ls'
      end
  | _, _ => None
  end.

Lemma entry_offs_512 v d : BPB_BytsPerSec v = 512 → d ∈ entry_offs v → 0 ≤ d ∧ d + 32 ≤ 512.
Proof.
  intros Hv Hd. unfold entry_offs in Hd. rewrite Hv in Hd. change (Z.to_nat ((512 + 31) / 32)) with 16%nat in Hd.
  apply list_elem_of_fmap in Hd as (i & -> & Hi%elem_of_seq). lia.
Qed.

Lemma find_entry_Some offs target secs ls a d :
  find_entry offs target secs ls = Some (a, d) → d ∈ offs ∧ ∃ k l, secs !! k = Some a ∧ ls !! k = Some l ∧ entry_is target l d = true.
Proof.
  revert ls. induction secs as [|a' secs IH]; intros [|l ls]; simpl; try done.
  destruct (List.find (entry_is target l) offs) as [d'|] eqn:E.
  - intros [= <- <-]. apply List.find_some in E as [Hin He]. split; [by apply list_elem_of_In|]. by exists 0%nat, l.
  - intros H. destruct (IH ls H) as [Hd (k & l' & E1 & E2 & E3)]. split; [done|]. by exists (S k), l'.
Qed.

Section Dir.
Context `{!FsHeap}.
Implicit Types s : fs.

Lemma find_in_sector_run offs a target l s :
  blocks s !! a = Some l → length l = 512%nat → (∀ d, d ∈ offs → 0 ≤ d ∧ d + 32 ≤ 512) →
  wp (find_in_sector offs a target) (λ r t, r = pair a <$> List.find (entry_is target l) offs ∧ t = s) s.
Proof.
  intros Eb Hl. induction offs as [|d offs IH]; intros Ho; cbn [find_in_sector]; [by wp_step|].
  destruct (Ho d) as [Hd1 Hd2]; [by left|]. specialize (IH ltac:(intros; apply Ho; by right)).
  unfold entry_clus. wp_step. wp_step. apply (wp_peek a l); [done|lia|lia|]. wp_step. apply (wp_peek a l); [done|lia|lia|]. wp_step.
  wp_step. apply (wp_peek a l); [done|lia|lia|]. cbn [List.find]. unfold entry_is at 1.
  destruct (of_le (slice (d + 11) 1 l) =? ATTR_LONG_NAME); cbn [negb andb]; [exact IH|].
  destruct (_ =? target); [by wp_step|exact IH].
Qed.

Lemma find_in_sectors_run target secs ls s :
  BPB_BytsPerSec (fat s) = 512 → Forall2 (λ a l, blocks s !! a = Some l) secs ls → Forall sector ls →
  wp (find_in_sectors secs target) (λ r t, r = find_entry (entry_offs (fat s)) target secs ls ∧ t = s) s.
Proof.
  intros Hv Hall. induction Hall as [|a l secs ls Ha Hall IH]; intros Hs; cbn [find_in_sectors find_entry]; [by wp_step|].
  apply Forall_cons in Hs as [Hl Hs]. wp_step. apply wp_vol. wp_step. eapply wp_mono; [apply (find_in_sector_run _ a target l); [done|done|]|].
  - intros d Hd. by apply (entry_offs_512 (fat s)).
  - intros r t [-> ->]. destruct (List.find (entry_is target l) (entry_offs (fat s))); cbn [fmap option_fmap option_map]; [by wp_step|]. by apply IH.
Qed.

(** The cached directory of [x] has the entry of [m] at [d] of sector [a]. *)
Record in_dir s (x : vnode) (md : Z) (m : fat32_f_data) (px : vnode) pmd pm (pls : list (list Z)) (a d : Z) : Prop := mk_in_dir {
  id_parent : vnodes s !! v_parent x = Some px;
  id_md : internal px = D_at pmd 0;
  id_cached : cached s pmd pm pls;
  id_some : content_cache pm ≠ [];
  id_entry : find_entry (entry_offs (fat s)) (clus_idx m) (content_cache pm) pls = Some (a, d);
  id_other : pmd ≠ md;
  id_apart b : b ∈ content_cache pm → b ∉ content_cache m;
}.

Lemma wp_dir_entry s node x md m px pmd pm pls a d (Q : option (Z * Z) → fs → Prop) :
  vnodes s !! node = Some x → internal x = D_at md 0 → f_datas s !! md = Some m → BPB_BytsPerSec (fat s) = 512 →
  in_dir s x md m px pmd pm pls a d → Q (Some (a, d)) s → wp (get_dir_entry node) Q s.
Proof.
  intros Ex Ei Em Hv [P1 P2 P3 P4 P5 P6 P7] HQ. unfold get_dir_entry. wp_step. apply (wp_vnode_get _ x); [done|].
  wp_step. apply (wp_vnode_get _ px); [done|]. wp_step. apply (wp_metadata _ pmd); [done|]. wp_step. apply (wp_metadata _ md); [done|].
  wp_step. apply (wp_fdata_get _ m); [done|]. unfold cache_dir. wp_step. wp_step. apply (wp_vnode_get _ px); [done|].
  wp_step. apply (wp_metadata _ pmd); [done|]. wp_step. apply (wp_fdata_get _ pm); [apply P3|].
  rewrite bool_decide_false by done. wp_steps. apply (wp_fdata_get _ pm); [apply P3|].
  eapply wp_mono; [apply (find_in_sectors_run _ _ pls); [done|apply P3|apply P3]|]. intros r t [-> ->]. by rewrite P5.
Qed.

(** The entry after the size was stored and the archive bit set. *)
Definition entry_written (d size : Z) (l : list Z) : list Z :=
  let l1 := splice (d + 28) (to_le 4 size) l in
  splice (d + 11) [Z.lor (of_le (slice (d + 11) 1 l1)) ATTR_ARCHIVE] l1.

Lemma length_to_le n x : length (to_le n x) = n.
Proof. revert x. induction n; intros; simpl; [done|]. by rewrite IHn. Qed.

Lemma slice_splice_same off b (l : list Z) : 0 ≤ off → (Z.to_nat off + length b ≤ length l)%nat → slice off (Z.of_nat (length b)) (splice off b l) = b.
Proof.
  intros Ho Hl. unfold slice, splice. rewrite drop_app_length' by (rewrite length_take; lia). by rewrite Nat2Z.id, take_app_length.
Qed.

Lemma slice_splice_before off n b (l : list Z) o : 0 ≤ off → 0 ≤ o → 0 ≤ n → o + n ≤ off → (Z.to_nat off ≤ length l)%nat →
  slice o n (splice off b l) = slice o n l.
Proof.
  intros Ho1 Ho2 Hn Hon Hl. unfold slice, splice. rewrite !take_drop_commute, take_app_le by (rewrite length_take; lia).
  rewrite take_take. f_equal. f_equal. lia.
Qed.

Lemma slice_splice_after off n b (l : list Z) o : 0 ≤ off → off + Z.of_nat (length b) ≤ o → (Z.to_nat off + length b ≤ length l)%nat →
  slice o n (splice off b l) = slice o n l.
Proof.
  intros Ho1 Ho2 Hl. unfold slice, splice. f_equal. rewrite drop_app_ge by (rewrite length_take; lia). rewrite length_take.
  rewrite drop_app_ge by lia. rewrite drop_drop. f_equal. lia.
Qed.

Lemma entry_written_spec d size l :
  0 ≤ d → d + 32 ≤ 512 → length l = 512%nat →
  length (entry_written d size l) = 512%nat ∧ slice (d + 28) 4 (entry_written d size l) = to_le 4 size ∧
  slice (d + 11) 1 (entry_written d size l) = [Z.lor (of_le (slice (d + 11) 1 l)) ATTR_ARCHIVE].
Proof.
  intros H1 H2 Hl. unfold entry_written. set (l1 := splice (d + 28) (to_le 4 size) l).
  assert (Hl1 : length l1 = 512%nat) by (unfold l1; rewrite length_splice; rewrite ?length_to_le; lia).
  split; [|split].
  - rewrite length_splice; simpl; lia.
  - rewrite slice_splice_after by (simpl; lia). exact (slice_splice_same (d + 28) (to_le 4 size) l ltac:(lia) ltac:(rewrite length_to_le; lia)).
  - rewrite (slice_splice_same (d + 11) [_]) by (simpl; lia). unfold l1. rewrite slice_splice_before by lia. done.
Qed.
End Dir.
