(* ===== verification/Fat32WProps.v ===== *)
(** * FAT32: properties of writing *)

From S2P Require Import Prelude Cpu Str VfsData Tmpfs Vfs VfsInv VfsPath VfsThm TmpfsProps.
From S2P Require Import Fat32 Fat32Load FatTable Fat32Write Fat32Dir Fat32Props.

Section Write.
Context `{!FsHeap}.
Implicit Types s : fs.

Lemma chain_head v c cs : chain v c cs → cs !! 0%nat = Some c.
Proof. by destruct 1. Qed.

(** A sector is there for the position, in the first cluster. *)
Lemma wp_ensure s p f x md m ls cs r (Q : unit → fs → Prop) :
  writing s p f x md m ls cs → 0 ≤ f_pos f ≤ file_size x → f_pos f < 512 * BPB_SecPerClus (fat s) → fs_room s (S r) →
  f_pos f + 1024 < 2 ^ 31 →
  (∀ s' m' ls', writing s' p f x md m' ls' cs → fs_room s' r → fat s' = fat s → contents x ls' = contents x ls →
    kept s s' p (fl_vnode f) md (content_cache m) → newer s m m' → clus_idx m' = clus_idx m → dirty m' = dirty m →
    f_pos f < 512 * Z.of_nat (length ls') → Q tt s') →
  wp (ensure_sector md (f_pos f / 512)) Q s.
Proof.
  intros Hw Hp Hpos Hr Hbd HQ. destruct Hw as [Hf W2 W3 W4 W5 W6]. pose proof (ff_size _ _ _ _ _ _ _ Hf) as Hs.
  pose proof (cached_length _ _ _ _ (ff_cached _ _ _ _ _ _ _ Hf)) as Hl.
  pose proof (Z.div_pos (f_pos f) 512 ltac:(lia) ltac:(lia)) as Hk. pose proof (Z.div_mod (f_pos f) 512 ltac:(lia)) as Hdm.
  pose proof (Z.mod_pos_bound (f_pos f) 512 ltac:(lia)) as Hm. set (k := f_pos f / 512) in *.
  unfold ensure_sector, cache_at. wp_step. wp_step. apply (wp_fdata_get _ m); [apply Hf|]. wp_step. rewrite Hl. apply wp_assert; [lia|]. wp_step.
  destruct (content_cache m !! Z.to_nat k) as [a|] eqn:Ea.
  - wp_step. apply lookup_lt_Some in Ea. rewrite Hl in Ea.
    apply (HQ s m ls); try done; [eapply room_weaken; [|exact Hr]; lia|by left|lia].
  - apply lookup_ge_None in Ea. rewrite Hl in Ea. assert (Hkl : k = Z.of_nat (length ls)) by lia.
    pose proof (fo_spc _ W3). pose proof (chain_head _ _ _ W4) as Hh. apply lookup_lt_Some in Hh.
    apply (wp_maybe_append s p f x md m ls r true); [done|done|done|intros _; lia|].
    intros s' m' ls' Hf' Hh' Hr' Efat Hc Hkp Hn Em Ed Hl'. apply (HQ s' m' ls'); try done; [|lia].
    split; [done|done|by rewrite Efat|by rewrite Efat, Em|done|]. rewrite Efat, Hl'. nia.
Qed.

(** Storing in a sector of another object, or its metadata, keeps the file. *)
Lemma writing_other s p f x md m ls cs a l :
  writing s p f x md m ls cs → a ∉ content_cache m → is_Some (blocks s !! a) → writing (set_blocks (<[a := l]> (blocks s)) s) p f x md m ls cs.
Proof.
  intros [[F1 F2 F3 [C1 C2 C3 C4] F5 F6 F7] W2 W3 W4 W5 W6] Ha Hsome. split; try done.
  - split; try done. split; try done. apply Forall2_same_length_lookup in C2 as [Hl C2]. apply Forall2_same_length_lookup. split; [done|].
    intros i b l' Eb El. simpl. rewrite lookup_insert_ne; [by eapply C2|]. intros <-. by apply Ha, (list_elem_of_lookup_2 _ i).
  - intros q. simpl. destruct (decide (q = a)) as [->|]; [intros _; by apply W2|rewrite lookup_insert_ne by done; apply W2].
Qed.

(** Marking the file or its directory dirty. *)
Lemma writing_dirty s p f x md m ls cs b :
  writing s p f x md m ls cs → writing (set_fdatas (<[md := with_dirty b m]> (f_datas s)) s) p f x md (with_dirty b m) ls cs.
Proof.
  intros [[F1 F2 F3 [C1 C2 C3 C4] F5 F6 F7] W2 W3 W4 W5 W6]. split; try done. split; try done. split; try done. by apply lookup_insert_eq.
Qed.

Lemma writing_other_meta s p f x md m ls cs q y :
  writing s p f x md m ls cs → q ≠ md → writing (set_fdatas (<[q := y]> (f_datas s)) s) p f x md m ls cs.
Proof.
  intros [[F1 F2 F3 [C1 C2 C3 C4] F5 F6 F7] W2 W3 W4 W5 W6] Hq. split; try done. split; try done. split; try done. simpl. by rewrite lookup_insert_ne.
Qed.

(** The last part of [fat32_write]: the directory entry and the dirty marks. *)
Definition write_end (node md : Z) (d : option (Z * Z)) (write_sz : Z) : M fs Z :=
  fdata_upd md (with_dirty true) ;;
  '(a, d) ← deref d;
  x ← vnode_get node;
  poke a (d + 28) (to_le 4 (file_size x)) ;;
  attr ← peek a (d + 11) 1;
  poke a (d + 11) [Z.lor (of_le attr) ATTR_ARCHIVE] ;;
  p ← vnode_get (v_parent x);
  pmd ← metadata_of p;
  fdata_upd pmd (with_dirty true) ;;
  mret (i64 write_sz).

Lemma wp_write_end s p f x md m ls cs px pmd pm a d l n (Q : Z → fs → Prop) :
  writing s p f x md m ls cs → vnodes s !! v_parent x = Some px → internal px = D_at pmd 0 → f_datas s !! pmd = Some pm → pmd ≠ md →
  blocks s !! a = Some l → length l = 512%nat → a ∉ content_cache m → 0 ≤ d → d + 32 ≤ 512 → 0 ≤ n < 2 ^ 63 →
  (∀ s', writing s' p f x md (with_dirty true m) ls cs → blocks s' = <[a := entry_written d (file_size x) l]> (blocks s) →
    f_datas s' = <[pmd := with_dirty true pm]> (<[md := with_dirty true m]> (f_datas s)) → vnodes s' = vnodes s → files s' = files s → fat s' = fat s →
    f_cpu s' = f_cpu s → sd s' = sd s → Q n s') →
  wp (write_end (fl_vnode f) md (Some (a, d)) n) Q s.
Proof.
  intros Hw Ep Ei Epm Hne Eb Hl Ha Hd1 Hd2 Hn HQ. pose proof (wr_file _ _ _ _ _ _ _ _ Hw) as Hf.
  unfold write_end. wp_step. apply (wp_fdata_upd _ m); [apply Hf|]. wp_step. apply (wp_deref _ (a, d)); [done|]. wp_step. apply (wp_vnode_get _ x); [apply Hf|].
  wp_step. apply (wp_poke a l); [done|lia|rewrite length_to_le; lia|]. set (l1 := splice (d + 28) (to_le 4 (file_size x)) l).
  assert (Hl1 : length l1 = 512%nat) by (unfold l1; rewrite length_splice; rewrite ?length_to_le; lia).
  wp_step. apply (wp_peek a l1); [apply lookup_insert_eq|lia|lia|]. wp_step. apply (wp_poke a l1); [apply lookup_insert_eq|lia|simpl; lia|].
  wp_step. apply (wp_vnode_get _ px); [done|]. wp_step. apply (wp_metadata _ pmd); [done|].
  wp_step. apply (wp_fdata_upd _ pm); [simpl; by rewrite lookup_insert_ne|]. wp_step. rewrite i64_id by done.
  apply HQ; try done; [|simpl; by rewrite insert_insert_eq].
  apply writing_other_meta; [|done]. apply (writing_other _ _ _ _ _ (with_dirty true m)); [|done|simpl; by rewrite lookup_insert_eq].
  apply (writing_other _ _ _ _ _ (with_dirty true m)); [|done|simpl; by rewrite Eb]. by apply writing_dirty.
Qed.

Lemma grown_weaken n n' v v' c0 cs cs' : (n ≤ n')%nat → grown n v v' c0 cs cs' → grown n' v v' c0 cs cs'.
Proof. intros Hn [G1 G2 G3 G4 G5 G6 G7 G8 G9]. split; try done. lia. Qed.

(** The first sector may have been appended before the loop. *)
Lemma wrote_after_ensure n rounds s s1 t p f x md m m1 ls ls1 cs x2 m2 ls2 cs2 buf :
  (n ≤ rounds)%nat → contents x ls1 = contents x ls → kept s s1 p (fl_vnode f) md (content_cache m) → newer s m m1 →
  clus_idx m1 = clus_idx m → dirty m1 = dirty m → fat s1 = fat s →
  wrote n s1 t p f x md m1 ls1 cs x2 m2 ls2 cs2 buf → wrote rounds s t p f x md m ls cs x2 m2 ls2 cs2 buf.
Proof.
  intros Hn Hc Hk Hnew Em Ed Efat [A1 A2 A3 [A4 A5] A6 A7 A8]. split; try done.
  - by rewrite A2, Hc.
  - by rewrite A4, A5.
  - intros q Hq. destruct (A6 q Hq) as [H1|H1]; [by apply Hnew|]. right. intros H2. by apply H1, (k_heap _ _ _ _ _ _ Hk).
  - by eapply file_kept_trans.
  - rewrite <- Efat, <- Em. by eapply grown_weaken.
Qed.

(** [fat32_write] up to the end of its loop. *)
Lemma wp_write_body s p f x md m ls cs px pmd pm pls a d buf rounds (Q : Z → fs → Prop) :
  let len := Z.of_nat (length buf) in
  writing s p f x md m ls cs → in_dir s x md m px pmd pm pls a d →
  0 ≤ f_pos f ≤ file_size x → f_pos f < 512 * BPB_SecPerClus (fat s) →
  f_pos f mod 512 + len ≤ 512 * Z.of_nat rounds → f_pos f + len + 1024 < 2 ^ 31 →
  fs_room s (S rounds) → (rounds ≤ free_entries (fat s))%nat →
  (∀ t x2 m2 ls2 cs2, wrote rounds s t p f x md m ls cs x2 m2 ls2 cs2 buf → wp (write_end (fl_vnode f) md (Some (a, d)) len) Q t) →
  wp (fat32_write p buf len) Q s.
Proof.
  intros len Hw Hdir Hp Hpos Hrd Hbd Hr Hfree HQ. pose proof (wr_file _ _ _ _ _ _ _ _ Hw) as Hf. pose proof (ff_size _ _ _ _ _ _ _ Hf) as Hs.
  unfold fat32_write. wp_step. apply (wp_file_get _ f); [apply Hf|].
  wp_step. eapply wp_eq; [apply which_run; [apply Hf|lia]|].
  wp_step. apply (wp_dir_entry s (fl_vnode f) x md m px pmd pm pls a d); [apply Hf..|done|].
  wp_step. apply (wp_vnode_get _ x); [apply Hf|]. wp_step. apply (wp_metadata _ md); [apply Hf|]. wp_step. apply (wp_fdata_get _ m); [apply Hf|].
  wp_step. apply (wp_cached_load s _ x md m ls); [apply Hf|apply Hf|lia|]. wp_step.
  apply (wp_ensure s p f x md m ls cs rounds); [done..|lia|].
  intros s1 m1 ls1 Hw1 Hr1 Efat Hc1 Hk1 Hn1 Em1 Ed1 Hin1. wp_step.
  pose proof (chain_head _ _ _ (wr_chain _ _ _ _ _ _ _ _ Hw1)) as Hh.
  eapply wp_mono; [apply (wp_write_loop _ p md buf len _ 0 rounds s1 f x m1 ls1 cs (clus_idx m)); [done|done|lia|done|lia| |done|by rewrite Efat|lia|lia]|].
  - intros _. split; [done|]. split; [done|]. rewrite Efat.
    assert (f_pos f / 512 / BPB_SecPerClus (fat s) = 0) as ->; [|by rewrite <- Em1].
    pose proof (fo_spc _ (wr_fat _ _ _ _ _ _ _ _ Hw)). rewrite Z.div_div by lia. apply Z.div_small. lia.
  - intros r t (-> & n & x2 & m2 & ls2 & cs2 & Hn & Hwr). apply (HQ t x2 m2 ls2 cs2). by apply (wrote_after_ensure n rounds s s1 t p f x md m m1 ls ls1).
Qed.

Lemma testbit_lor_archive b : Z.testbit (Z.lor b ATTR_ARCHIVE) 5 = true.
Proof. rewrite Z.lor_spec. apply orb_true_r. Qed.

(** C14: [fat32_write] at a position inside the first cluster of a cached file,
    whose directory is cached: the bytes are written over the contents, the
    file grows when they reach past its end, sectors are appended to the cache
    and free clusters to the chain as needed, the size and the archive bit are
    stored in the file's directory entry, and the file and its directory are
    marked dirty.  No other handle, vnode or cached sector changes, and neither
    does a table entry that is in use by another chain. *)
Theorem fat32_write_correct s p f x md m ls cs px pmd pm pls a d buf rounds :
  writing s p f x md m ls cs → in_dir s x md m px pmd pm pls a d → v_parent x ≠ fl_vnode f →
  0 ≤ f_pos f ≤ file_size x → f_pos f < 512 * BPB_SecPerClus (fat s) →
  f_pos f mod 512 + Z.of_nat (length buf) ≤ 512 * Z.of_nat rounds → f_pos f + Z.of_nat (length buf) + 1024 < 2 ^ 31 →
  fs_room s (S rounds) → (rounds ≤ free_entries (fat s))%nat →
  let len := Z.of_nat (length buf) in let size := Z.max (file_size x) (f_pos f + len) in
  ∃ s' m' ls' cs' l', fat32_write p buf len s = Ok (len, s') ∧
    writing s' p (with_pos (f_pos f + len) f) (with_size size x) md m' ls' cs' ∧
    contents (with_size size x) ls' = overwrite (contents x ls) (Z.to_nat (f_pos f)) buf ∧
    grown rounds (fat s) (fat s') (clus_idx m) cs cs' ∧
    dirty m' = true ∧ clus_idx m' = clus_idx m ∧ f_datas s' !! pmd = Some (with_dirty true pm) ∧
    blocks s' !! a = Some l' ∧ slice (d + 28) 4 l' = to_le 4 size ∧ Z.testbit (of_le (slice (d + 11) 1 l')) 5 = true ∧
    (∀ q, q ≠ p → files s' !! q = files s !! q) ∧ (∀ q, q ≠ fl_vnode f → vnodes s' !! q = vnodes s !! q) ∧
    (∀ q, q ∈ heap s → q ∉ content_cache m → q ≠ a → blocks s' !! q = blocks s !! q) ∧ f_cpu s' = f_cpu s ∧ sd s' = sd s.
Proof.
  intros Hw Hdir Hnp Hp Hpos Hrd Hbd Hr Hfree len size. pose proof (wr_file _ _ _ _ _ _ _ _ Hw) as Hf. pose proof (ff_vol _ _ _ _ _ _ _ Hf) as Hv.
  destruct (find_entry_Some _ _ _ _ _ _ (id_entry _ _ _ _ _ _ _ _ _ _ Hdir)) as (Hd & j & l & Ej & Elj & _).
  destruct (entry_offs_512 _ d Hv Hd) as [Hd1 Hd2]. destruct (id_cached _ _ _ _ _ _ _ _ _ _ Hdir) as [P1 P2 P3 P4].
  assert (Eb : blocks s !! a = Some l) by exact (Forall2_lookup_lr _ _ _ _ _ _ P2 Ej Elj).
  assert (Hl : length l = 512%nat) by exact (Forall_lookup_1 _ _ _ _ P3 Elj).
  pose proof (id_apart _ _ _ _ _ _ _ _ _ _ Hdir a (list_elem_of_lookup_2 _ _ _ Ej)) as Hna.
  assert (Hah : a ∈ heap s) by (apply Hw; by rewrite Eb).
  enough (wp (fat32_write p buf len) (λ r s', r = len ∧ ∃ m' ls' cs' l',
    writing s' p (with_pos (f_pos f + len) f) (with_size size x) md m' ls' cs' ∧
    contents (with_size size x) ls' = overwrite (contents x ls) (Z.to_nat (f_pos f)) buf ∧
    grown rounds (fat s) (fat s') (clus_idx m) cs cs' ∧
    dirty m' = true ∧ clus_idx m' = clus_idx m ∧ f_datas s' !! pmd = Some (with_dirty true pm) ∧
    blocks s' !! a = Some l' ∧ slice (d + 28) 4 l' = to_le 4 size ∧ Z.testbit (of_le (slice (d + 11) 1 l')) 5 = true ∧
    (∀ q, q ≠ p → files s' !! q = files s !! q) ∧ (∀ q, q ≠ fl_vnode f → vnodes s' !! q = vnodes s !! q) ∧
    (∀ q, q ∈ heap s → q ∉ content_cache m → q ≠ a → blocks s' !! q = blocks s !! q) ∧ f_cpu s' = f_cpu s ∧ sd s' = sd s) s) as Hrun.
  { apply wp_run in Hrun as (r & s' & Hrun & -> & m' & ls' & cs' & l' & HP). by exists s', m', ls', cs', l'. }
  apply (wp_write_body s p f x md m ls cs px pmd pm pls a d buf rounds); [done..|].
  intros t x2 m2 ls2 cs2 [A1 A2 A3 [A4 A5] A6 A7 A8]. fold len size in A1, A2, A3. subst x2.
  assert (Hnm : a ∉ content_cache m2) by (intros Ha; by destruct (A6 a Ha)).
  destruct (entry_written_spec d size l Hd1 Hd2 Hl) as (E1 & E2 & E3). pose proof (id_other _ _ _ _ _ _ _ _ _ _ Hdir) as Hne.
  assert (Ep : vnodes t !! v_parent x = Some px) by (rewrite (k_vnodes _ _ _ _ _ _ A7) by done; apply Hdir).
  assert (Epm : f_datas t !! pmd = Some pm) by (by rewrite (k_fdatas _ _ _ _ _ _ A7)).
  assert (Ebt : blocks t !! a = Some l) by (by rewrite (k_blocks _ _ _ _ _ _ A7)).
  destruct (k_rest _ _ _ _ _ _ A7) as (Ec & Esd & _).
  apply (wp_write_end t p (with_pos (f_pos f + len) f) (with_size size x) md m2 ls2 cs2 px pmd pm a d l); try done; [apply Hdir|lia|].
  intros s' Hw' Eb' Ed' Ev' Ef' Efat' Ec' Esd'. cbn [file_size with_size] in Eb'. split; [done|].
  exists (with_dirty true m2), ls2, cs2, (entry_written d size l).
  rewrite Efat', Ed', Eb', Ev', Ef', Ec', Esd', lookup_insert_eq, lookup_insert_eq. repeat (split; [done|]).
  split; [rewrite E3; cbn [of_le]; rewrite Z.mul_0_r, Z.add_0_r; apply testbit_lor_archive|].
  split; [intros q Hq; by apply A7|]. split; [intros q Hq; by apply A7|]. split; [|done].
  intros q Hq Hqm Hqa. rewrite lookup_insert_ne by done. by apply A7.
Qed.
End Write.
