(* ===== verification/Fat32Witness.v ===== *)
(** * FAT32: the properties on a concrete volume

    A volume of one 512-byte sector per cluster with a table of 128 entries,
    whose root directory (cluster 2) holds one file, [HELLO.TXT] (cluster 3),
    and the theorems about reading and writing applied to that file. *)

From S2P Require Import Prelude Cpu Str VfsData Tmpfs Vfs VfsInv VfsPath VfsThm VfsMount TmpfsProps.
From S2P Require Import Fat32 Fat32Load Fat32Props FatTable Fat32Write Fat32Dir Fat32WProps.

#[local] Existing Instances heap0.

Definition zeros (n : nat) : list Z := replicate n 0.
Definition name_array (t : string) : list Z := chars t ++ zeros (256 - String.length t).

(** A directory entry: name, attributes, first cluster, size. *)
Definition dir_entry (nm : string) (attr clus size : Z) : list Z :=
  chars nm ++ [attr] ++ zeros 8 ++ to_le 2 (clus / 65536) ++ zeros 4 ++ to_le 2 clus ++ to_le 4 size.

Definition root_sector : list Z := dir_entry "HELLO   TXT" 0x20 3 5 ++ zeros 480.
Definition hello_sector : list Z := chars "world" ++ zeros 507.

Definition volume : fat32_data :=
  mk_fat32 1 0x0fffffff 512 1 1 1 1 2 ([0x0ffffff8; 0x0fffffff; 0x0fffffff; 0x0fffffff] ++ zeros 124) 10.

(** Vnode 10 is the root directory with metadata 11 and the cached sector 30;
    vnode 12 is the file of [size] bytes with metadata 13 and the cached
    sectors [secs]; 14 is a handle on it at [pos]. *)
Definition dir_vnode : vnode := mk_vnode 1 4 5 [12] false 0 0 DIR (name_array "") 0 (D_at 11 0).
Definition file_vnode (size : Z) : vnode := mk_vnode 1 4 5 [] false 0 10 FILE (name_array "HELLO.TXT") size (D_at 13 0).
Definition handle (pos : Z) : file := mk_file 12 pos 5 0 1.
Definition dir_meta : fat32_f_data := mk_fdata false 2 [30].
Definition file_meta (secs : list Z) : fat32_f_data := mk_fdata false 3 secs.

Definition hello_fs (size pos : Z) (secs : list Z) : fs :=
  mk_fs (mk_cpu 0 false []) {[10; 11; 12; 13; 14; 30; 31]} {[10 := dir_vnode; 12 := file_vnode size]} ∅ ∅ ∅
    {[14 := handle pos]} ∅ {[30 := root_sector; 31 := hello_sector]} [] 0 10 (replicate 16 0) 0
    {[3 := root_sector; 4 := hello_sector]} {[11 := dir_meta; 13 := file_meta secs]} volume.

(** ** The file is well formed *)

#[local] Lemma hello_file size pos : 0 ≤ size ≤ 512 → fat_file (hello_fs size pos [31]) 14 (handle pos) (file_vnode size) 13 (file_meta [31]) [hello_sector].
Proof.
  intros Hs. split; try done. split; [done|by repeat constructor|by repeat constructor|apply NoDup_singleton].
Qed.

Lemma hello_heap size pos secs : blocks_in_heap (hello_fs size pos secs).
Proof.
  intros q. unfold hello_fs; simpl. destruct (decide (q = 30)) as [->|]; [set_solver|]. destruct (decide (q = 31)) as [->|]; [set_solver|].
  rewrite lookup_insert_ne, lookup_singleton_ne by done. by intros [].
Qed.

#[local] Lemma volume_ok : fat_ok volume.
Proof. split; try done. by exists 0x0ffffff8. Qed.

#[local] Lemma hello_chain : chain volume 3 [3].
Proof. by constructor. Qed.

#[local] Lemma hello_writing pos : writing (hello_fs 5 pos [31]) 14 (handle pos) (file_vnode 5) 13 (file_meta [31]) [hello_sector] [3].
Proof.
  split; [by apply hello_file|apply hello_heap|apply volume_ok|apply hello_chain|apply NoDup_singleton|done].
Qed.

#[local] Lemma hello_in_dir pos : in_dir (hello_fs 5 pos [31]) (file_vnode 5) 13 (file_meta [31]) dir_vnode 11 dir_meta [root_sector] 30 0.
Proof.
  split; try done.
  - split; [done|by repeat constructor|by repeat constructor|apply NoDup_singleton].
  - intros b ->%list_elem_of_singleton ?%list_elem_of_singleton. done.
Qed.

(** ** The theorems *)

(** Three bytes from the second on. *)
Lemma fat32_read_cached_witness :
  fat32_read 14 3 (hello_fs 5 1 [31]) = Ok ((3, chars "orl"), hello_fs 5 4 [31]).
Proof.
  pose proof (fat32_read_cached (hello_fs 5 1 [31]) 14 (handle 1) (file_vnode 5) 13 (file_meta [31]) [hello_sector] 3
    (hello_file 5 1 ltac:(lia)) ltac:(simpl; lia) ltac:(lia) ltac:(right; done)) as Hrun.
  exact Hrun.
Defined.

(** Nothing is cached: the sector comes from block 4 of the card. *)
Lemma fat32_read_disk_witness :
  ∃ s' m', fat32_read 14 100 (hello_fs 5 1 []) = Ok ((4, chars "orld"), s') ∧
    fat_file s' 14 (handle 5) (file_vnode 5) 13 m' [hello_sector].
Proof.
  destruct (fat32_read_disk (hello_fs 5 1 []) 14 (handle 1) (file_vnode 5) 13 (file_meta []) [3] [hello_sector] 100)
    as (s' & m' & Hrun & Hf & _); try done; try (simpl; lia).
  - apply hello_heap.
  - apply heap0_room.
  - apply hello_chain.
  - apply NoDup_singleton.
  - by repeat constructor.
  - exists s', m'. exact (conj Hrun Hf).
Defined.

(** A file of exactly one sector, read at its end. *)
Lemma fat32_read_end_witness : fat32_read 14 1 (hello_fs 512 512 [31]) = Ub.
Proof.
  exact (fat32_read_end (hello_fs 512 512 [31]) 14 (handle 512) (file_vnode 512) 13 (file_meta [31]) [hello_sector] 1
    (hello_file 512 512 ltac:(lia)) eq_refl eq_refl ltac:(lia)).
Defined.

(** Six bytes over the end of the file. *)
Lemma fat32_write_correct_witness :
  ∃ s' m' ls' cs', fat32_write 14 (chars "ld!!??") 6 (hello_fs 5 3 [31]) = Ok (6, s') ∧
    writing s' 14 (handle 9) (file_vnode 9) 13 m' ls' cs' ∧ contents (file_vnode 9) ls' = chars "world!!??".
Proof.
  destruct (fat32_write_correct (hello_fs 5 3 [31]) 14 (handle 3) (file_vnode 5) 13 (file_meta [31]) [hello_sector] [3] dir_vnode 11 dir_meta
    [root_sector] 30 0 (chars "ld!!??") 1 (hello_writing 3) (hello_in_dir 3)) as (s' & m' & ls' & cs' & l' & Hrun & Hw & Hc & _);
    try done; try (simpl; lia).
  - apply heap0_room.
  - by vm_compute; repeat constructor.
  - exists s', m', ls', cs'. exact (conj Hrun (conj Hw Hc)).
Defined.
