(* ===== verification/Fat32SyncProps.v ===== *)
(** * FAT32: properties of writing back

    A file of one cluster survives [sync]; the sectors of a second cluster do
    not. *)

From S2P Require Import Prelude Cpu Str VfsData Tmpfs Vfs VfsInv VfsPath VfsThm VfsMount TmpfsProps Fat32 Fat32Mount Fat32Load Fat32Props FatTable Fat32Write Fat32Dir Fat32WProps Fat32Witness.

(** The block for the [k]-th sector of a file with the chain [cs]. *)
Definition sync_target (v : fat32_data) (cs : list Z) (k : nat) : Z :=
  u32 (start_blk_idx v + FirstSectorofCluster v (default 0 (cs !! (k / Z.to_nat (BPB_SecPerClus v))%nat)) + Z.of_nat k).

(** The card after the sectors from the [k]-th on were written. *)
Fixpoint stored_card (v : fat32_data) (cs : list Z) (k : nat) (ls : list (list Z)) (card : gmap Z (list Z)) : gmap Z (list Z) :=
  match ls with
  | [] => card
  | l :: ls' => stored_card v cs (S k) ls' (<[i32 (sync_target v cs k) := l]> card)
  end.

(** The entries of the chain without reserved bits. *)
Definition plain (v : fat32_data) (cs : list Z) : Prop :=
  ∀ c e, c ∈ cs → fat_cache v !! Z.to_nat c = Some e → 0 ≤ e < 2 ^ 28.

Lemma chain_entry v c cs j cj : chain v c cs → cs !! j = Some cj → ∃ e, fat_cache v !! Z.to_nat cj = Some e.
Proof.
  intros Hch. revert j. induction Hch as [c E Hc|c e cs E Hc _ _ _ IH]; intros [|j]; simpl; try done.
  - intros [= <-]. by eexists.
  - intros [= <-]. by eexists.
  - apply IH.
Qed.

Lemma chain_step v c cs j cj cj' :
  chain v c cs → plain v cs → cs !! j = Some cj → cs !! S j = Some cj' → fat_cache v !! Z.to_nat cj = Some cj'.
Proof.
  intros Hch. revert j. induction Hch as [c E Hc|c e cs E Hc _ _ Hch IH]; intros [|j] Hp; simpl; try done.
  - intros [= <-] E'. rewrite E. f_equal. pose proof (Hp c e ltac:(left) E) as He. rewrite mask_small in Hch by done.
    destruct Hch; simpl in E'; congruence.
  - apply IH. intros c' e' Hc'. apply Hp. by right.
Qed.

Section Sync.
Context `{!FsHeap}.
Implicit Types s : fs.

(** [md] has written back [ls]. *)
Definition written_back s md m cs k ls : fs :=
  set_fdatas (<[md := with_content [] m]> (f_datas s)) (set_sd (stored_card (fat s) cs k ls (sd s)) s).

Lemma written_nil s md m cs k : f_datas s !! md = Some m → content_cache m = [] → written_back s md m cs k [] = s.
Proof.
  intros E Em. unfold written_back. simpl. assert (with_content [] m = m) as -> by (destruct m; simpl in Em; by subst).
  rewrite insert_id by done. by destruct s.
Qed.

Lemma written_cons s md m m' cs k l ls t :
  t = set_sd (<[i32 (sync_target (fat s) cs k) := l]> (sd s)) (set_fdatas (<[md := m']> (f_datas s)) s) → with_content [] m' = with_content [] m →
  written_back t md m' cs (S k) ls = written_back s md m cs k (l :: ls).
Proof. intros -> E. unfold written_back. simpl. by rewrite insert_insert_eq, E. Qed.

Lemma wp_disk_write idx blk old (Q : unit → fs → Prop) s :
  sd s !! i32 idx = Some old → Q tt (set_sd (<[i32 idx := blk]> (sd s)) s) → wp (disk_write idx blk) Q s.
Proof. intros E HQ. unfold disk_write, disk_read. wp_step. wp_step. apply (wp_deref _ old); [done|]. by wp_step. Qed.

Lemma wp_writeblock idx a l old (Q : unit → fs → Prop) s :
  blocks s !! a = Some l → sector l → sd s !! i32 idx = Some old → Q tt (set_sd (<[i32 idx := l]> (sd s)) s) → wp (writeblock idx a) Q s.
Proof.
  intros E Hl Ei HQ. red in Hl. unfold writeblock. wp_step. apply (wp_peek a l); [done|lia|rewrite Hl; done|].
  apply (wp_disk_write _ _ old); [done|]. unfold slice. change (Z.to_nat 0) with 0%nat. rewrite drop_0, take_ge by (rewrite Hl; done). done.
Qed.

(** The cluster after sector [k]. *)
Lemma wp_sync_clus s v c0 cs k clus (Q : Z → fs → Prop) (spc := Z.to_nat (BPB_SecPerClus v)) :
  fat s = v → 0 < BPB_SecPerClus v → chain v c0 cs → plain v cs → cs !! (k / spc)%nat = Some clus →
  (∀ c', (∀ d, cs !! (S k / spc)%nat = Some d → c' = d) → Q c' s) →
  wp (if Z.rem (Z.of_nat k + 1) (BPB_SecPerClus v) =? 0 then get_fat_entry clus else mret clus) Q s.
Proof.
  intros Ev Hs Hch Hp Ek HQ. assert (Hspc : Z.of_nat spc = BPB_SecPerClus v) by (unfold spc; lia).
  rewrite Z.rem_mod_nonneg by lia. rewrite <- Hspc. replace (Z.of_nat k + 1) with (Z.of_nat (S k)) by lia. rewrite <- Nat2Z.inj_mod.
  pose proof (Nat.div_mod (S k) spc ltac:(lia)) as H1. pose proof (Nat.div_mod k spc ltac:(lia)) as H2.
  pose proof (Nat.mod_upper_bound k spc ltac:(lia)) as H3. pose proof (Nat.mod_upper_bound (S k) spc ltac:(lia)) as H4.
  destruct (Z.eqb_spec (Z.of_nat (S k mod spc)) 0) as [Em|Em].
  - destruct (chain_entry _ _ _ _ _ Hch Ek) as [e Ee]. unfold get_fat_entry. wp_step. apply wp_vol. rewrite Ev. apply (wp_deref _ e); [done|].
    apply HQ. intros d Ed. assert (S k / spc = S (k / spc))%nat as E by nia. rewrite E in Ed.
    pose proof (chain_step _ _ _ _ _ _ Hch Hp Ek Ed). congruence.
  - wp_step. apply HQ. intros d Ed. assert (S k / spc = k / spc)%nat as E by nia. rewrite E in Ed. congruence.
Qed.

Lemma sync_sectors_run md size c0 cs ls : ∀ s m k clus,
  f_datas s !! md = Some m → Forall2 (λ a l, blocks s !! a = Some l) (content_cache m) ls → Forall sector ls →
  BPB_BytsPerSec (fat s) = 512 → 0 < BPB_SecPerClus (fat s) → chain (fat s) c0 cs → plain (fat s) cs →
  (∀ j, (k ≤ j < k + length ls)%nat → is_Some (sd s !! i32 (sync_target (fat s) cs j))) →
  (length cs * Z.to_nat (BPB_SecPerClus (fat s)) ≥ k + length ls)%nat →
  (∀ d, cs !! (k / Z.to_nat (BPB_SecPerClus (fat s)))%nat = Some d → clus = d) →
  512 * (Z.of_nat k + Z.of_nat (length ls)) < 2 ^ 31 → (ls ≠ [] → 512 * (Z.of_nat k + Z.of_nat (length ls) - 1) < size) → 
  wp (sync_sectors (length ls) md size clus (Z.of_nat k)) (λ _ t, t = written_back s md m cs k ls) s.
Proof.
  induction ls as [|l ls IH]; intros s m k clus Em Hall Hs Hv Hspc Hch Hp Hcard Hcap Hclus Hb Hsz.
  { apply Forall2_nil_inv_r in Hall. cbn [sync_sectors length]. wp_step. apply (wp_fdata_get _ m); [done|]. rewrite Hall. wp_step. by rewrite written_nil. }
  apply Forall2_cons_inv_r in Hall as (a & rest & Ea & Hall & Ec). apply Forall_cons in Hs as [Hl Hs]. set (spc := Z.to_nat (BPB_SecPerClus (fat s))) in *.
  assert (is_Some (cs !! (k / spc)%nat)) as [ck Eck]. { apply lookup_lt_is_Some_2. apply Nat.Div0.div_lt_upper_bound. simpl in Hcap. lia. }
  specialize (Hclus _ Eck) as ->. cbn [sync_sectors length]. wp_step. apply (wp_fdata_get _ m); [done|]. rewrite Ec.
  wp_step. apply wp_vol. wp_step. apply (wp_fdata_upd _ m); [done|]. wp_step.
  destruct (Hcard k ltac:(simpl; lia)) as [old Eold].
  assert (Et : u32 (start_blk_idx (fat s) + FirstSectorofCluster (fat s) ck + Z.of_nat k) = sync_target (fat s) cs k) by (unfold sync_target; fold spc; by rewrite Eck).
  apply (wp_writeblock _ a l old); [done|done|by rewrite Et|]. rewrite Et.
  wp_step. apply wp_assert; [apply negb_true_iff, Z.eqb_neq; lia|]. wp_step.
  apply (wp_sync_clus _ (fat s) c0 cs k ck); try done. intros c' Hc'. rewrite Hv.
  set (m1 := with_content rest m). set (t := set_sd (<[i32 (sync_target (fat s) cs k) := l]> (sd s)) (set_fdatas (<[md := m1]> (f_datas s)) s)).
  assert (Erec : written_back t md m1 cs (S k) ls = written_back s md m cs k (l :: ls)) by (by apply written_cons).
  assert (Em1 : f_datas t !! md = Some m1) by (apply lookup_insert_eq).
  assert (Hi : u64 (i32 ((Z.of_nat k + 1) * 512)) = (Z.of_nat k + 1) * 512). { simpl in Hb. rewrite i32_small by lia. apply u64_small. lia. }
  rewrite Hi. cbn [length] in *. specialize (Hsz ltac:(done)). destruct ls as [|l' ls].
  - apply Forall2_nil_inv_r in Hall. destruct (Z.leb_spec size ((Z.of_nat k + 1) * 512)).
    + wp_step. rewrite <- Erec. by rewrite written_nil.
    + cbn [sync_sectors length]. wp_step. apply (wp_fdata_get _ m1); [done|]. simpl. rewrite Hall. wp_step. rewrite <- Erec. by rewrite written_nil.
  - cbn [length] in *. destruct (Z.leb_spec size ((Z.of_nat k + 1) * 512)); [lia|].
    replace (Z.of_nat k + 1) with (Z.of_nat (S k)) by lia. eapply wp_mono; [apply (IH t m1 (S k) c')|by intros [] u ->]; try done; try (simpl; lia).
    intros j Hj. simpl. destruct (decide (i32 (sync_target (fat s) cs k) = i32 (sync_target (fat s) cs j))) as [->|]; [rewrite lookup_insert_eq; by eexists|].
    rewrite lookup_insert_ne by done. apply Hcard. lia.
Qed.

(** ** Blocks of a cluster *)

(** The blocks of cluster [c] and of its successor have numbers that fit. *)
Record on_volume (v : fat32_data) (c : Z) : Prop := mk_on_volume {
  ov_clus : 2 ≤ c;
  ov_start : 0 ≤ start_blk_idx v;
  ov_spc : 0 < BPB_SecPerClus v;
  ov_end : start_blk_idx v + FirstDataSector v + c * BPB_SecPerClus v < 2 ^ 31;
}.

Definition clus_block (v : fat32_data) (c : Z) : Z := start_blk_idx v + FirstDataSector v + (c - 2) * BPB_SecPerClus v.

Lemma first_sector v c : on_volume v c → start_blk_idx v + FirstSectorofCluster v c = clus_block v c.
Proof.
  intros [H1 H2 H3 H4]. assert (0 ≤ FirstDataSector v) by (apply Z.mod_pos_bound; lia).
  unfold FirstSectorofCluster, clus_block, u32 in *. rewrite (Z.mod_small (c - 2)) by nia. rewrite (Z.mod_small (_ * _)) by nia. rewrite Z.mod_small by nia. lia.
Qed.

Lemma clus_block_small v c j : on_volume v c → 0 ≤ j < 2 * BPB_SecPerClus v → u32 (clus_block v c + j) = clus_block v c + j ∧ i32 (clus_block v c + j) = clus_block v c + j.
Proof.
  intros [H1 H2 H3 H4] Hj. assert (0 ≤ FirstDataSector v) by (apply Z.mod_pos_bound; lia). unfold clus_block.
  split; [apply Z.mod_small|apply i32_small]; nia.
Qed.

(** A sector of the first cluster. *)
Lemma sync_target_first v c cs k : on_volume v c → (k < Z.to_nat (BPB_SecPerClus v))%nat → sync_target v (c :: cs) k = clus_block v c + Z.of_nat k.
Proof.
  intros Hc Hk. unfold sync_target. rewrite Nat.div_small by done. simpl. rewrite first_sector by done. by apply clus_block_small; [|lia].
Qed.

Lemma clus_sectors_lookup v c (k : nat) : on_volume v c → (k < Z.to_nat (BPB_SecPerClus v))%nat → clus_sectors v c !! k = Some (clus_block v c + Z.of_nat k).
Proof.
  intros Hc Hk. unfold clus_sectors. rewrite list_lookup_fmap, lookup_seq_lt by done. simpl. f_equal. rewrite first_sector by done.
  by apply clus_block_small; [|lia].
Qed.

Lemma stored_card_other v cs ls : ∀ k card b,
  (∀ j, (k ≤ j < k + length ls)%nat → i32 (sync_target v cs j) ≠ b) → stored_card v cs k ls card !! b = card !! b.
Proof.
  induction ls as [|l ls IH]; intros k card b Hb; simpl in *; [done|]. rewrite IH by (intros; apply Hb; lia).
  apply lookup_insert_ne. apply Hb. lia.
Qed.

Lemma stored_card_lookup v cs ls : ∀ k card j l,
  (∀ i j, (k ≤ i < j)%nat → (j < k + length ls)%nat → i32 (sync_target v cs i) ≠ i32 (sync_target v cs j)) →
  ls !! j = Some l → stored_card v cs k ls card !! i32 (sync_target v cs (k + j)) = Some l.
Proof.
  induction ls as [|l0 ls IH]; intros k card j l Hne; [done|]. simpl in *. destruct j as [|j]; simpl.
  - intros [= <-]. rewrite Nat.add_0_r. rewrite stored_card_other, lookup_insert_eq; [done|]. intros i Hi E. by apply (Hne k i); [lia..|].
  - intros E. rewrite <- Nat.add_succ_comm. apply IH; [|done]. intros i i' Hi Hi'. apply Hne; lia.
Qed.

(** The blocks for a file of at most one cluster are its own. *)
Lemma first_cluster_stored v c cs ls card :
  on_volume v c → (length ls ≤ Z.to_nat (BPB_SecPerClus v))%nat → Forall sector ls →
  Forall2 (λ b l, stored_card v (c :: cs) 0 ls card !! i32 b = Some l ∧ sector l) (take (length ls) (clus_sectors v c)) ls.
Proof.
  intros Hc Hl Hs. apply Forall2_same_length_lookup. split.
  { rewrite length_take, length_clus_sectors. lia. }
  intros k b l Eb El. pose proof (lookup_lt_Some _ _ _ El). rewrite lookup_take_lt, clus_sectors_lookup in Eb by (done || lia). injection Eb as <-.
  split; [|exact (Forall_lookup_1 _ _ _ _ Hs El)].
  rewrite <- (sync_target_first v c cs k) by (done || lia). apply (stored_card_lookup v (c :: cs) ls 0 card k); [|done].
  intros i j Hi Hj. rewrite !sync_target_first by (done || lia).
  destruct (clus_block_small v c (Z.of_nat i) Hc) as [_ ->]; [lia|]. destruct (clus_block_small v c (Z.of_nat j) Hc) as [_ ->]; [lia|]. lia.
Qed.
End Sync.

Section Sync.
Context `{!FsHeap}.
Implicit Types s : fs.

(** The file of the handle [p] has changes in the cache and no children, and
    the blocks where its sectors go are blocks of the card. *)
Record unsynced s p f x md m ls cs : Prop := mk_unsynced {
  us_file : fat_file s p f x md m ls;
  us_dirty : dirty m = true;
  us_leaf : children x = [];
  us_size : ls ≠ [] → 512 * (Z.of_nat (length ls) - 1) < file_size x;
  us_spc : 0 < BPB_SecPerClus (fat s);
  us_chain : chain (fat s) (clus_idx m) cs;
  us_plain : plain (fat s) cs;
  us_cap : (length ls ≤ length cs * Z.to_nat (BPB_SecPerClus (fat s)))%nat;
  us_card j : (j < length ls)%nat → is_Some (sd s !! i32 (sync_target (fat s) cs j));
}.

(** The state after [sync] of the file. *)
Definition synced s md m cs ls : fs :=
  set_fdatas (<[md := mk_fdata false (clus_idx m) []]> (f_datas s)) (set_sd (stored_card (fat s) cs 0 ls (sd s)) s).

Lemma sync_file_run fuel s p f x md m ls cs :
  unsynced s p f x md m ls cs → sync_file_recursive (S fuel) (fl_vnode f) s = Ok (tt, synced s md m cs ls).
Proof.
  intros [Hf Hd Hleaf Hsz Hspc Hch Hp Hcap Hcard]. pose proof (ff_cached _ _ _ _ _ _ _ Hf) as Hc. pose proof (cached_length _ _ _ _ Hc) as Hl.
  apply (wp_exact _ _ _ s). cbn [sync_file_recursive]. wp_step. apply (wp_vnode_get _ x); [apply Hf|]. wp_step. apply (wp_metadata _ md); [apply Hf|].
  wp_step. apply (wp_fdata_get _ m); [apply Hc|]. rewrite Hd, Hl. wp_step. wp_step.
  assert (Hhead : ∀ d, cs !! 0%nat = Some d → clus_idx m = d) by (intros d; rewrite (chain_head _ _ _ Hch); congruence).
  eapply wp_mono; [apply (sync_sectors_run md (file_size x) (clus_idx m) cs ls s m 0 (clus_idx m))|]; try apply Hc; try apply Hf; try done.
  - intros j Hj. apply Hcard. lia.
  - rewrite Nat.Div0.div_0_l. done.
  - intros [] t ->. apply (wp_fdata_upd _ (with_content [] m)); [apply lookup_insert_eq|]. rewrite Hleaf. cbn [for_each]. wp_step.
    split; [done|]. unfold synced, written_back. simpl. by rewrite insert_insert_eq.
Qed.

(** C15: Writing back a changed file of at most one cluster empties its cache and
    stores its sectors in the blocks of its cluster: reading the file
    afterwards, from the card, gives the bytes that were in the cache. *)
Theorem sync_read_roundtrip fuel s p f x md m ls c cs len :
  unsynced s p f x md m ls (c :: cs) → v_type x = FILE → NoDup (c :: cs) → on_volume (fat s) c →
  (length ls ≤ Z.to_nat (BPB_SecPerClus (fat s)))%nat → 512 * Z.of_nat (length (chain_sectors (fat s) (c :: cs))) < 2 ^ 31 →
  blocks_in_heap s → fs_room s (length ls) → 0 ≤ f_pos f < file_size x → 0 ≤ len < 2 ^ 63 →
  let r := Z.min len (file_size x - f_pos f) in
  ∃ s1 s2, sync_file_recursive (S fuel) (fl_vnode f) s = Ok (tt, s1) ∧
    f_datas s1 !! md = Some (mk_fdata false c []) ∧
    fat32_read p len s1 = Ok ((r, take (Z.to_nat r) (drop (Z.to_nat (f_pos f)) (contents x ls))), s2).
Proof.
  intros Hu Ht Hnd Hov Hfit Hbd Hh Hr Hp Hlen r. pose proof (us_file _ _ _ _ _ _ _ _ Hu) as Hf. pose proof (ff_cached _ _ _ _ _ _ _ Hf) as Hc.
  pose proof (us_chain _ _ _ _ _ _ _ _ Hu) as Hch. pose proof (ff_size _ _ _ _ _ _ _ Hf) as Hs.
  assert (clus_idx m = c) as Em by (by inversion Hch). rewrite Em in Hch.
  set (s1 := synced s md m (c :: cs) ls). set (m1 := mk_fdata false c []).
  assert (Em1 : f_datas s1 !! md = Some m1) by (unfold s1, synced, m1; rewrite Em; apply lookup_insert_eq).
  assert (Hne : ls ≠ []) by (intros ->; simpl in Hs; lia). pose proof (us_size _ _ _ _ _ _ _ _ Hu Hne) as Hsz.
  assert (Hw : wanted_sectors (fat s1) x 0 (c :: cs) = take (length ls) (clus_sectors (fat s) c)).
  { change (fat s1) with (fat s). unfold wanted_sectors, wanted. rewrite decide_True by done.
    assert ((file_size x + 511) / 512 = Z.of_nat (length ls)) as -> by (clear -Hs Hsz; Z.to_euclidean_division_equations; lia).
    unfold chain_sectors. rewrite bind_cons, length_app, length_clus_sectors, Nat2Z.id, Nat.sub_0_r.
    rewrite take_app_le by (rewrite length_clus_sectors; lia). f_equal. lia. }
  assert (Hd : Forall2 (on_disk s1) (wanted_sectors (fat s1) x 0 (c :: cs)) ls).
  { rewrite Hw. apply first_cluster_stored; [done|lia|apply Hc]. }
  assert (Hf1 : fat_file (load_all s1 md m1 ls) p f x md (more_all s1 md m1 ls) ls).
  { apply load_file; try apply Hf; try done; try lia; apply Hc. }
  exists s1, (advance (load_all s1 md m1 ls) p f r). split_and!; [by apply (sync_file_run fuel s p f x)|done|].
  assert (Hload : load_content (fl_vnode f) s1 = Ok (tt, load_all s1 md m1 ls)).
  { apply (load_content_run _ x md m1 (c :: cs)); try apply Hf; try done. apply Z.lt_le_incl, Hov. }
  apply (wp_exact _ _ _ s1), (wp_read_start s1 p f x md); try apply Hf; [pose proof (ff_bound _ _ _ _ _ _ _ Hf); lia|].
  wp_step. unfold load_if_needed. wp_step. apply (wp_vnode_get _ x); [apply Hf|]. wp_step. apply (wp_fdata_get _ m1); [done|].
  destruct (Z.ltb_spec 0 (file_size x)); [|lia]. cbn [content_cache m1 andb]. rewrite bool_decide_true by done. cbn [andb].
  apply (wp_eq _ _ _ _ _ Hload). eapply wp_mono; [apply (read_rest _ p f x md (more_all s1 md m1 ls) ls len Hf1); lia|].
  by intros a t [-> ->].
Qed.

(** C39: The block for the [k]-th sector is computed from the start of the cluster
    that holds it and [k] itself: when a file goes on in a second cluster, its
    first sector there is stored one whole cluster too far.  After [sync] of a
    file with one sector in its second cluster, the block of that sector has
    not changed, although the cache was dropped and the file marked clean. *)
Theorem sync_loses_second_cluster fuel s p f x md m ls c c' cs :
  unsynced s p f x md m ls (c :: c' :: cs) → on_volume (fat s) c → on_volume (fat s) c' → c ≠ c' →
  length ls = S (Z.to_nat (BPB_SecPerClus (fat s))) →
  ∃ s1, sync_file_recursive (S fuel) (fl_vnode f) s = Ok (tt, s1) ∧ f_datas s1 !! md = Some (mk_fdata false c []) ∧
    chain_sectors (fat s) (c :: c' :: cs) !! Z.to_nat (BPB_SecPerClus (fat s)) = Some (clus_block (fat s) c') ∧
    sd s1 !! clus_block (fat s) c' = sd s !! clus_block (fat s) c'.
Proof.
  intros Hu Hc Hc' Hne Hl. assert (clus_idx m = c) as Em by (by pose proof (us_chain _ _ _ _ _ _ _ _ Hu) as H1; inversion H1).
  pose proof (ov_spc _ _ Hc) as Hspc. exists (synced s md m (c :: c' :: cs) ls). split; [by apply (sync_file_run fuel s p f x)|]. split; [|split].
  - unfold synced. rewrite Em. apply lookup_insert_eq.
  - unfold chain_sectors. rewrite !bind_cons. rewrite lookup_app_r by (by rewrite length_clus_sectors). rewrite length_clus_sectors, Nat.sub_diag.
    rewrite lookup_app_l by (rewrite length_clus_sectors; lia). rewrite clus_sectors_lookup by (done || lia). f_equal. lia.
  - apply stored_card_other. intros j Hj. destruct (decide (j < Z.to_nat (BPB_SecPerClus (fat s)))%nat) as [Hlt|Hge].
    + rewrite sync_target_first by done. destruct (clus_block_small (fat s) c (Z.of_nat j) Hc) as [_ ->]; [lia|]. unfold clus_block. nia.
    + assert (j = Z.to_nat (BPB_SecPerClus (fat s))) as -> by lia. unfold sync_target. rewrite Nat.div_same by lia. simpl.
      rewrite first_sector by done. rewrite Z2Nat.id by lia.
      destruct (clus_block_small (fat s) c' (BPB_SecPerClus (fat s)) Hc') as [-> ->]; lia.
Qed.
End Sync.

(** ** On the concrete volume *)

#[local] Existing Instances heap0.

(** The file after a write, before [sync]. *)
Definition changed_meta (secs : list Z) : fat32_f_data := mk_fdata true 3 secs.
Definition changed_fs (pos : Z) : fs := set_fdatas (<[13 := changed_meta [31]]> (f_datas (hello_fs 5 pos [31]))) (hello_fs 5 pos [31]).

#[local] Lemma changed_unsynced : unsynced (changed_fs 1) 14 (handle 1) (file_vnode 5) 13 (changed_meta [31]) [hello_sector] [3].
Proof.
  split; try done.
  - split; try done. split; [done|by repeat constructor|by repeat constructor|apply NoDup_singleton].
  - by constructor.
  - by intros c e ->%list_elem_of_singleton [= <-].
  - intros [|j] Hj; [by eexists|simpl in Hj; lia].
Qed.

Lemma sync_read_roundtrip_witness :
  ∃ s1 s2, sync_file_recursive 2 12 (changed_fs 1) = Ok (tt, s1) ∧ f_datas s1 !! 13 = Some (mk_fdata false 3 []) ∧
    fat32_read 14 100 s1 = Ok ((4, chars "orld"), s2).
Proof.
  destruct (sync_read_roundtrip 1 (changed_fs 1) 14 (handle 1) (file_vnode 5) 13 (changed_meta [31]) [hello_sector] 3 [] 100 changed_unsynced)
    as (s1 & s2 & Hrun & Hm & Hread); try done; try (simpl; lia).
  - apply NoDup_singleton.
  - intros q. exact (hello_heap 5 1 [31] q).
  - apply heap0_room.
  - exists s1, s2. exact (conj Hrun (conj Hm Hread)).
Defined.

(** A second sector, in cluster 4. *)
Definition long_fs : fs :=
  set_fat (with_cache ([0x0ffffff8; 0x0fffffff; 0x0fffffff; 4; 0x0fffffff] ++ zeros 123) volume)
    (set_fdatas (<[13 := changed_meta [31; 32]]> (f_datas (hello_fs 600 0 [])))
      (set_blocks (<[32 := chars "second" ++ zeros 506]> (blocks (hello_fs 600 0 [])))
        (set_sd {[4 := zeros 512; 5 := zeros 512; 6 := zeros 512]} (hello_fs 600 0 [])))).

#[local] Lemma long_unsynced :
  unsynced long_fs 14 (handle 0) (file_vnode 600) 13 (changed_meta [31; 32]) [hello_sector; chars "second" ++ zeros 506] [3; 4].
Proof.
  split; try done.
  - split; try done. split; [done|by repeat constructor|by repeat constructor|]. apply NoDup_cons. split; [by intros ?%list_elem_of_singleton|apply NoDup_singleton].
  - by apply (chain_next _ 3 4); [..|constructor].
  - intros c e [->| ->%list_elem_of_singleton]%elem_of_cons [= <-]; done.
  - intros [|[|j]] Hj; [by eexists|by eexists|simpl in Hj; lia].
Qed.

Lemma sync_loses_second_cluster_witness :
  ∃ s1, sync_file_recursive 2 12 long_fs = Ok (tt, s1) ∧ f_datas s1 !! 13 = Some (mk_fdata false 3 []) ∧ sd s1 !! 5 = Some (zeros 512).
Proof.
  destruct (sync_loses_second_cluster 1 long_fs 14 (handle 0) (file_vnode 600) 13 (changed_meta [31; 32]) _ 3 4 [] long_unsynced)
    as (s1 & Hrun & Hm & _ & Hb); try done.
  exists s1. exact (conj Hrun (conj Hm Hb)).
Defined.
